(* ===== verification/_CoqProject ===== *)
-Q . S2P
Prelude.v
Parse.v
Checksum.v
Vector.v
Heap.v
TimerSet.v
TimerRun.v
Qsort.v
Classify.v
ClassifyTree.v
ClassifyDom.v
DomWays.v
Dominators.v
SimpleQueue.v
QueueSpec.v
Notifier.v
QueueRace.v
HashMap.v
HashContainer.v
Packet.v
PacketOps.v
Wire.v
Build.v
Mobility.v
ARPTable.v
ARPTableOps.v
HomeAgent.v
MobileNode.v
ForeignAgent.v
Discovery.v
AdTable.v
IPPath.v
ARP.v
ARPExchange.v
Fragment.v
GwOptions.v
IcmpError.v
RouteTable.v
RouteSlots.v
Address.v
Classifier.v
RouteSpec.v
Registration.v
