(* ===== verification/Prelude.v ===== *)
(** * Mobile IP on Click: a verification library

    The repository implements IPv4 mobility (RFC 5944) as elements of the Click modular router
    ([src/click/elements/local/custom]).  A mobile node away from home registers, through a
    foreign agent, a care-of address with its home agent, which tunnels the node's packets
    there.  This library models the user-level build of those elements, of the library
    elements around them in [src/click/scripts/library/*.click], and of the data structures
    and services of Click they stand on, and proves what they do.

    ** How the model reads

    An element's handler ([push], [run_timer], [simple_action]) is a [handler S event A]
    (this file): it runs on the state [S] the element shares with others, may end in a [fault]
    the C++ program does not recover from (a null or out-of-bounds dereference, a failed
    assertion, a signed overflow), and returns its effects in order: packets pushed and killed,
    timers scheduled.  Machine integers are [Z] with their wrap-around written out; the hosts
    are little-endian, so [htons] and [htonl] swap bytes, and addresses are kept in network
    order as the code keeps them.  Memory allocation, [rand], the clock and the names of hosts
    are arguments; so are parsed configurations, except where reading them is the subject.

    ** Files

    Foundations:
    - [Prelude]: the error and handler monads, machine integers, byte lists.
    - [Parse]: [lib/args.cc], [args.hh], [bigint.hh], [integers.hh]; the numbers of
      configurations ([IntArg], [BoundedIntArg]) with their arithmetic on limbs.
    - [Address]: [lib/ipaddress.cc], [lib/etheraddress.cc]; writing and reading addresses.
    - [Checksum]: [lib/in_cksum.c], [clicknet/ip.h]; equal to RFC 1071, incremental updates.
    - [Vector]: [vector.hh], [vector.cc]; live and stale slots.
    - [Heap]: [heap.hh]; [TimerSet], [TimerRun]: [lib/timerset.cc], [lib/timer.cc]; the heap of
      timers as a map from timers to times, and what a run of the timers calls.
    - [Qsort]: [click_qsort] of [lib/glue.cc].
    - [HashMap]: [hashmap.hh], [hashmap.cc]; refines a finite map behind [AssocMap].
    - [HashContainer]: [hashcontainer.hh]; buckets of linked entries.
    - [Packet], [PacketOps]: [packet.hh], [packet.cc], [Align]; buffers, headroom, sharing,
      header pointers, annotations, and the operations that move or copy data.

    The agents:
    - [Wire], [Build]: the header structs as fields at offsets and as records with an encoding;
      how each field write changes the record, by which packet-building code is executed.
    - [Mobility]: the shared state of [MNInfo], [HA] and [FA].
    - [HomeAgent]: [HA::push], [RegRep::push], [Encapsulator::push].
    - [MobileNode]: [MNInfo::push], [RegReq::push], [RegReq::run_timer], [RegNode::push],
      [RegNode::run_timer].
    - [ForeignAgent]: [Relay::push] with [relayReq], [relayRep] and [createRep],
      [Relay::run_timer], [CheckEncap::push].
    - [Discovery]: [Advertisement], [Solicitation], [CheckSolicitation].
    - [AdTable]: [ProcessAdvertisements] with its timers.
    - [Registration]: the elements composed along the scripts: a registration from the mobile
      node to its home agent and back, and a packet through the tunnel.

    The elements around them:
    - [IPPath]: the packet actions of the IP elements on the agents' paths.
    - [Fragment], [GwOptions], [IcmpError]: [IPFragmenter], [IPGWOptions] and [ICMPError], what
      a router does with packets that are too long, carry options or cannot be delivered.
    - [RouteTable], [RouteSlots], [RouteSpec]: [IPRouteTable], [LinearIPLookup] and
      [StaticIPLookup]; longest-prefix routing, the map they implement, transactions.
    - [ARPTable], [ARPTableOps]: [ARPTable] with the addresses of its entries and its
      allocator; [ARP], [ARPExchange]: [ARPQuerier] and [ARPResponder], alone and composed.
    - [Classify]: the classification programs of [standard/classification.cc], how they are
      built, optimised and run; [ClassifyTree]: what building them means; [ClassifyDom]: the
      dominator optimisation as the code does it; [DomWays], [Dominators]: why it is right and
      when; [Classifier]: [standard/classifier.cc], from the text of its configuration to the
      output of a packet.
    - [SimpleQueue], [QueueSpec]: [standard/simplequeue.cc], [storage.hh]; the ring of packets
      and the bounded list it is.  [Notifier]: [notifier.hh], [lib/notifier.cc]; activity
      signals and their sums.  [QueueRace]: [standard/fullnotequeue.cc]; the element [Queue]
      between a thread that pushes and one that pulls.

    ** What the theorems show

    Functional specifications give each handler's result for well-formed packets (a packet that
    carries an encoded message, whatever else is in its buffer) on the branches their comments
    name: requests, replies, advertisements and tunnelled packets have the documented fields
    and verifying checksums.  Composed, the handlers and the IP elements between them complete
    a registration; of the scripts' paths [Registration] leaves out the Ethernet side, which is
    represented by links, and [IPClassifier], by its verdict.  Packets waiting for an Ethernet
    address leave with it when the answer comes.  A packet's fragments, received in any order,
    reassemble to it; the options of a forwarded packet are treated as RFC 791 says but for the
    two departures [departs] names; ICMP errors are sent about no packet that must not cause
    one, and their fields, reversed source route and checksums are right.

    Invariants and refinements say that the hash table is a finite map, that the routing table
    is a map with longest-prefix lookup whose own [check()] never complains, that the timer
    heap is a map from timers to times and a run calls every timer that is due and no other,
    that an ARP table touches no freed entry and loses no packet under any sequence of
    operations, that packet operations but [copy] and [shift_data] keep a packet's pointers in
    order, that registrations last exactly their lifetime, that a queue is a list of at most
    its capacity of packets.  Between two threads the queue stays one and loses no wakeup,
    whatever the order of their accesses to memory, which is taken to be sequentially
    consistent.  Numbers and addresses are read as they are written.  The
    sort ends whatever the comparison and sorts if it is an order.  A [Classifier] sends every
    packet to the first pattern that matches: the program it builds does, and each of the
    optimisations keeps what a program does under a stated condition; the dominator
    optimisation is shown right for the programs that pass the check [exact] and the packets
    that hold all the bytes looked at.

    Several theorems state behaviour that differs from what the code means to do: a pending
    request skipped after an erasure, a port read from an erased slot, a tunnel that keeps its
    old end and loses the packets whose payload does not sum to zero, advertisements that never
    expire, a write handler that hangs, a prefix order of [ARPResponder] that is none, negative
    64-bit numbers that are read wrong, a [Classifier] that drops packets its third pattern
    matches, one that fails an assertion on the contradictory pattern of its documentation, a
    remove of 0.0.0.0/32 that reports a killed slot, a queue of 2^32 - 1 packets without memory
    for one.

    ** Bounds and fuel

    Loops that erase while they iterate take the length of the list as fuel, which is enough
    because each step moves on or shortens the list ([erase_loop_filter], [sweep_loop_omap]).
    [ctrl_loop]'s fuel is one more than the number of lines; option loops take the length of
    the header and the fragment loop the length of the data, since every round consumes a byte
    at least.  A sift in a heap takes the heap's size and the collection of due timers the
    heap's length; [qsort_range] two rounds for each element and one more; the growth of a hash
    table 31 doublings; the loops over an ARP table's entries the length of its lists.  The
    sort of a program's tests has [bubble_fuel], (n^2 + 1)(n + 1) rounds, because every exchange
    removes an inversion; [combine_compatible_states] two rounds per instruction and one more,
    because every round moves a jump on; a program runs for at most its length, because jumps
    go forward; a pattern has at most as many clauses as characters; a loop over a queue's ring
    goes round it at most once ([ring_fuel], a round for each slot).  Theorems show for each
    that the fuel does not run out.  Checksum theorems hold below 131072 bytes, where the 32-bit
    accumulator cannot wrap; packet buffers are below 2^31 bytes.

    ** Not modelled

    Running out of memory for the header of a clone inside an element ([operator new] throws in
    the user-level driver): elements use [clone], and [packet_clone] has the null result.  The
    keywords of configurations and the argument types no agent needs; router construction
    and the scheduler of tasks; packet free lists, buffer destructors and the kernel variants
    of [Packet]; [CompressedProgram] with [IPFilter] and [IPClassifier]; the rest of the Click
    library and the second copy of it in [src/click/click-2.1]; drivers, tools and
    applications. *)

From Stdlib Require Import ZArith Lia.
From stdpp Require Import base list numbers option decidable.

#[global] Open Scope Z_scope.

(** ** Fallible computations

    A handler that dereferences memory can go wrong in ways the C++ program does not
    recover from.  [fault] names them; [res] is the error monad over it. *)
Inductive fault : Type :=
| OutOfBounds      (** a load or store outside [[_head, _end)] of a packet buffer *)
| NullDeref        (** a dereference of a null pointer *)
| Uninitialised    (** a use of a variable no path has assigned *)
| AssertFailed     (** a failed [assert] *)
| UseAfterFree     (** a dereference of freed memory *)
| Diverges         (** a loop that has not ended within the fuel its definition gives it *)
| BadErase         (** [Vector::erase] outside [[begin(), end())] *)
| Overflow.        (** an overflow of a signed [int], which C++ does not define *)

Inductive res (A : Type) : Type :=
| Ok (a : A)
| Fault (f : fault).
Arguments Ok {A} a.
Arguments Fault {A} f.

#[global] Instance fault_eq_dec : EqDecision fault.
Proof. solve_decision. Defined.

#[global] Instance res_ret : MRet res := fun A a => Ok a.
#[global] Instance res_bind : MBind res :=
  fun A B f m => match m with Ok a => f a | Fault e => Fault e end.
#[global] Instance res_fmap : FMap res :=
  fun A B f m => match m with Ok a => Ok (f a) | Fault e => Fault e end.

(** [opt_res f o] reads an optional value, faulting with [f] when there is none. *)
Definition opt_res {A} (f : fault) (o : option A) : res A :=
  match o with Some a => Ok a | None => Fault f end.

Lemma opt_res_some {A} f (a : A) : opt_res f (Some a) = Ok a.
Proof. done. Qed.

Lemma res_bind_ok {A B} (m : res A) (f : A -> res B) (b : B) :
  (m ≫= f) = Ok b <-> exists a, m = Ok a /\ f a = Ok b.
Proof.
  destruct m as [a|e]; simpl; split; intros H.
  - by exists a.
  - by destruct H as (a' & [= ->] & ?).
  - discriminate.
  - by destruct H as (a' & ? & ?).
Qed.

Lemma Ok_inj {A} (a b : A) : Ok a = Ok b -> a = b.
Proof. by intros [= ->]. Qed.
Lemma bind_ok {A B} (a : A) (f : A -> res B) : (Ok a ≫= f) = f a.
Proof. done. Qed.

Lemma res_bind_assoc {A B C} (m : res A) (f : A -> res B) (g : B -> res C) :
  ((m ≫= f) ≫= g) = (m ≫= fun a => f a ≫= g).
Proof. by destruct m. Qed.

(** ** Handlers

    A handler runs on the state it shares with other elements, may fault, and leaves a
    trace of what it did to the world, in the order the code does it. *)
Definition handler (S E A : Type) : Type := S -> res (A * S * list E).

Section Handler.
Context {S E : Type}.

Definition hret {A} (a : A) : handler S E A := fun s => Ok (a, s, []).
Definition hbind {A B} (m : handler S E A) (k : A -> handler S E B) : handler S E B :=
  fun s =>
    match m s with
    | Fault e => Fault e
    | Ok (a, s1, t1) =>
        match k a s1 with
        | Fault e => Fault e
        | Ok (b, s2, t2) => Ok (b, s2, t1 ++ t2)
        end
    end.
Definition hget : handler S E S := fun s => Ok (s, s, []).
Definition hput (s : S) : handler S E unit := fun _ => Ok (tt, s, []).
Definition hmodify (f : S -> S) : handler S E unit := fun s => Ok (tt, f s, []).
Definition hemit (e : E) : handler S E unit := fun s => Ok (tt, s, [e]).
Definition hlift {A} (r : res A) : handler S E A :=
  fun s => match r with Ok a => Ok (a, s, []) | Fault e => Fault e end.

Lemma hbind_ret_l {A B} (a : A) (k : A -> handler S E B) s : hbind (hret a) k s = k a s.
Proof. unfold hbind, hret. by destruct (k a s) as [[[??]?]|?]. Qed.
Lemma hbind_ret_r {A} (m : handler S E A) s : hbind m hret s = m s.
Proof. unfold hbind, hret. destruct (m s) as [[[??]?]|?]; [by rewrite app_nil_r|done]. Qed.
Lemma hbind_assoc {A B C} (m : handler S E A) (k : A -> handler S E B)
  (h : B -> handler S E C) s :
  hbind (hbind m k) h s = hbind m (fun a => hbind (k a) h) s.
Proof.
  unfold hbind. destruct (m s) as [[[a s1] t1]|?]; [|done].
  destruct (k a s1) as [[[b s2] t2]|?]; [|done].
  destruct (h b s2) as [[[c s3] t3]|?]; [by rewrite app_assoc|done].
Qed.
Lemma hbind_get {B} (k : S -> handler S E B) s : hbind hget k s = k s s.
Proof. unfold hbind, hget. by destruct (k s s) as [[[??]?]|?]. Qed.
Lemma hbind_put {B} s' (k : unit -> handler S E B) s : hbind (hput s') k s = k tt s'.
Proof. unfold hbind, hput. by destruct (k tt s') as [[[??]?]|?]. Qed.
Lemma hbind_modify {B} f (k : unit -> handler S E B) s :
  hbind (hmodify f) k s = k tt (f s).
Proof. unfold hbind, hmodify. by destruct (k tt (f s)) as [[[??]?]|?]. Qed.
Lemma hbind_lift_ok {A B} (r : res A) a (k : A -> handler S E B) s :
  r = Ok a -> hbind (hlift r) k s = k a s.
Proof. intros ->. unfold hbind, hlift. by destruct (k a s) as [[[??]?]|?]. Qed.
Lemma hbind_lift_fault {A B} (r : res A) e (k : A -> handler S E B) s :
  r = Fault e -> hbind (hlift r) k s = Fault e.
Proof. by intros ->. Qed.
Lemma hbind_emit {B} e (k : unit -> handler S E B) s b s' t :
  k tt s = Ok (b, s', t) -> hbind (hemit e) k s = Ok (b, s', e :: t).
Proof. intros H. unfold hbind, hemit. by rewrite H. Qed.
Lemma hbind_run {A B} (m : handler S E A) (k : A -> handler S E B) s a s1 t1 b s2 t2 :
  m s = Ok (a, s1, t1) -> k a s1 = Ok (b, s2, t2) -> hbind m k s = Ok (b, s2, t1 ++ t2).
Proof. unfold hbind. by intros -> ->. Qed.
Lemma hbind_silent {A B} (m : handler S E A) (k : A -> handler S E B) s a s1 :
  m s = Ok (a, s1, []) -> hbind m k s = k a s1.
Proof. unfold hbind. intros ->. by destruct (k a s1) as [[[??]?]|?]. Qed.
Lemma hbind_inv {A B} (m : handler S E A) (k : A -> handler S E B) s b s2 t :
  hbind m k s = Ok (b, s2, t) ->
  exists a s1 t1 t2, m s = Ok (a, s1, t1) /\ k a s1 = Ok (b, s2, t2) /\ t = t1 ++ t2.
Proof.
  unfold hbind. destruct (m s) as [[[a s1] t1]|]; [|done].
  destruct (k a s1) as [[[b' s2'] t2]|] eqn:E2; [|done]. intros [= -> -> <-]. by exists a, s1, t1, t2.
Qed.
Lemma hlift_inv {A} (r : res A) s a s1 (t : list E) :
  hlift r s = Ok (a, s1, t) -> r = Ok a /\ s1 = s /\ t = [].
Proof. unfold hlift. destruct r; [|done]. by intros [= -> -> <-]. Qed.
End Handler.

(** Runs a handler through its reads, its state updates and the computations the context
    knows the results of. *)
Ltac hstep :=
  first [ rewrite hbind_assoc | rewrite hbind_get | rewrite hbind_put | rewrite hbind_modify
        | rewrite hbind_ret_l | rewrite opt_res_some
        | erewrite hbind_lift_ok by eassumption
        | match goal with |- context [hlift (Ok ?a)] =>
            rewrite (hbind_lift_ok (Ok a) a _ _ eq_refl) end
        | progress cbv beta match ].
Ltac hrun := repeat hstep.

(** Computes a handler outright, reading known results from the context. *)
Ltac hcompute :=
  repeat first
    [ progress cbv beta match delta [hbind hget hput hmodify hemit hlift hret app]
    | match goal with
      | H : ?r = Ok _ |- context [match ?r with Ok _ => _ | Fault _ => _ end] => rewrite H
      | H : ?r = Fault _ |- context [match ?r with Ok _ => _ | Fault _ => _ end] => rewrite H
      end ].

Declare Scope handler_scope.
Delimit Scope handler_scope with H.
Notation "x <-- m ;; k" := (hbind m (fun x => k))
  (at level 100, m at next level, right associativity) : handler_scope.
Notation "x <-? r ;; k" := (hbind (hlift r) (fun x => k))
  (at level 100, r at next level, right associativity) : handler_scope.
Notation "m ;;; k" := (hbind m (fun _ => k))
  (at level 100, right associativity) : handler_scope.
#[global] Open Scope handler_scope.

(** ** Machine integers

    A [w]-bit unsigned integer is a [Z] in [[0, 2^w)]; an assignment to one wraps. *)
Definition u8 (z : Z) : Z := z mod 256.
Definition u16 (z : Z) : Z := z mod 65536.
Definition u32 (z : Z) : Z := z mod 4294967296.
Definition u64 (z : Z) : Z := z mod 18446744073709551616.
(** [int] is 32 bits, two's complement. *)
Definition s32 (z : Z) : Z := (z + 2147483648) mod 4294967296 - 2147483648.

(** Byte order.  The hosts are little-endian, so [htons] and [htonl] swap bytes. *)
Definition htons (x : Z) : Z := (x mod 256) * 256 + (x / 256) mod 256.
Definition ntohs (x : Z) : Z := htons x.
Definition htonl (x : Z) : Z :=
  (x mod 256) * 16777216 + ((x / 256) mod 256) * 65536
  + ((x / 65536) mod 256) * 256 + (x / 16777216) mod 256.
Definition ntohl (x : Z) : Z := htonl x.

Ltac zdm := Z.div_mod_to_equations; lia.

Lemma u8_range z : 0 <= u8 z < 256.
Proof. unfold u8. zdm. Qed.
Lemma u16_range z : 0 <= u16 z < 65536.
Proof. unfold u16. zdm. Qed.
Lemma u32_range z : 0 <= u32 z < 4294967296.
Proof. unfold u32. zdm. Qed.
Lemma u64_range z : 0 <= u64 z < 18446744073709551616.
Proof. unfold u64. zdm. Qed.
Lemma u8_small z : 0 <= z < 256 -> u8 z = z.
Proof. apply Z.mod_small. Qed.
Lemma u16_small z : 0 <= z < 65536 -> u16 z = z.
Proof. apply Z.mod_small. Qed.
Lemma u32_small z : 0 <= z < 4294967296 -> u32 z = z.
Proof. apply Z.mod_small. Qed.
Lemma s32_small z : -2147483648 <= z < 2147483648 -> s32 z = z.
Proof. intros. unfold s32. zdm. Qed.
Lemma u32_idem z : u32 (u32 z) = u32 z.
Proof. apply u32_small, u32_range. Qed.
Lemma u64_small z : 0 <= z < 18446744073709551616 -> u64 z = z.
Proof. apply Z.mod_small. Qed.
Lemma htons_range z : 0 <= htons z < 65536.
Proof. unfold htons. zdm. Qed.
Lemma htons_htons z : htons (htons z) = u16 z.
Proof. unfold htons, u16. zdm. Qed.
Lemma htons_inv z : 0 <= z < 65536 -> htons (htons z) = z.
Proof. intros. rewrite htons_htons. by apply u16_small. Qed.
Lemma htons_inj x y :
  0 <= x < 65536 -> 0 <= y < 65536 -> htons x = htons y -> x = y.
Proof. intros Hx Hy H. rewrite <- (htons_inv x), <- (htons_inv y) by done. by rewrite H. Qed.
Lemma htons_zero z : 0 <= z < 65536 -> htons z = 0 <-> z = 0.
Proof. intros. unfold htons. zdm. Qed.
Lemma htonl_range z : 0 <= htonl z < 4294967296.
Proof. unfold htonl. zdm. Qed.

(** A 32-bit word is its four bytes, the least significant first. *)
Lemma div_mod_cons a q m : 0 <= a < m -> (a + m * q) mod m = a /\ (a + m * q) / m = q.
Proof.
  intros. split.
  - symmetry. apply (Z.mod_unique _ _ q); lia.
  - symmetry. apply (Z.div_unique _ _ _ a); lia.
Qed.

Lemma div_256_65536 z : z / 65536 = z / 256 / 256.
Proof. by rewrite Z.div_div by lia. Qed.
Lemma div_256_16777216 z : z / 16777216 = z / 256 / 256 / 256.
Proof. by rewrite !Z.div_div by lia. Qed.

Lemma word_bytes z :
  0 <= z < 4294967296 ->
  exists a b c d, z = a + 256 * (b + 256 * (c + 256 * d)) /\
    0 <= a < 256 /\ 0 <= b < 256 /\ 0 <= c < 256 /\ 0 <= d < 256.
Proof.
  intros. exists (z mod 256), ((z / 256) mod 256), ((z / 256 / 256) mod 256),
    (z / 256 / 256 / 256).
  pose proof (Z.div_mod z 256). pose proof (Z.div_mod (z / 256) 256).
  pose proof (Z.div_mod (z / 256 / 256) 256).
  pose proof (Z.mod_pos_bound z 256). pose proof (Z.mod_pos_bound (z / 256) 256).
  pose proof (Z.mod_pos_bound (z / 256 / 256) 256).
  lia.
Qed.

Lemma htonl_bytes a b c d :
  0 <= a < 256 -> 0 <= b < 256 -> 0 <= c < 256 -> 0 <= d < 256 ->
  htonl (a + 256 * (b + 256 * (c + 256 * d))) = d + 256 * (c + 256 * (b + 256 * a)).
Proof.
  intros. unfold htonl. rewrite div_256_16777216, div_256_65536.
  destruct (div_mod_cons a (b + 256 * (c + 256 * d)) 256) as [-> ->]; [done|].
  destruct (div_mod_cons b (c + 256 * d) 256) as [-> ->]; [done|].
  destruct (div_mod_cons c d 256) as [-> ->]; [done|].
  rewrite (Z.mod_small d) by lia. lia.
Qed.

Lemma htonl_inv z : 0 <= z < 4294967296 -> htonl (htonl z) = z.
Proof.
  intros (a & b & c & d & -> & ? & ? & ? & ?)%word_bytes.
  by rewrite !htonl_bytes.
Qed.

(** ** Bytes and little-endian fields

    A byte string is a [list Z]; [bytes_ok] says every element is a byte.  [rdn n b i]
    loads the [n]-byte host-order integer at offset [i], [wrn n b i v] stores one: what a
    [uint16_t] or [uint32_t] member of a header struct does on a little-endian host. *)
Definition bytes_ok (b : list Z) : Prop := Forall (fun x => 0 <= x < 256) b.

Fixpoint rdn (n : nat) (b : list Z) (i : nat) : option Z :=
  match n with
  | O => Some 0
  | S n' => x ← b !! i; r ← rdn n' b (S i); Some (x + 256 * r)
  end.

Fixpoint wrn (n : nat) (b : list Z) (i : nat) (v : Z) : list Z :=
  match n with
  | O => b
  | S n' => <[i := v mod 256]> (wrn n' b (S i) (v / 256))
  end.

Fixpoint pow256 (n : nat) : Z := match n with O => 1 | S n' => 256 * pow256 n' end.

Lemma pow256_pos n : 0 < pow256 n.
Proof. induction n as [|n IH]; simpl; lia. Qed.

Lemma length_wrn n b i v : length (wrn n b i v) = length b.
Proof. revert i v. induction n as [|n IH]; intros; simpl; [done|]. by rewrite length_insert. Qed.

Lemma lookup_wrn_ne n b i v j :
  (j < i \/ i + n <= j)%nat -> wrn n b i v !! j = b !! j.
Proof.
  revert i v. induction n as [|n IH]; intros i v Hj; simpl; [done|].
  rewrite list_lookup_insert_ne by lia. apply IH. lia.
Qed.

Lemma rdn_ext n b b' i :
  (forall j, (i <= j < i + n)%nat -> b !! j = b' !! j) -> rdn n b i = rdn n b' i.
Proof.
  revert i. induction n as [|n IH]; intros i H; simpl; [done|].
  rewrite (H i) by lia. rewrite (IH (S i)); [done|]. intros. apply H. lia.
Qed.

Lemma rdn_wrn_ne n m b i j v :
  (i + n <= j \/ j + m <= i)%nat -> rdn n (wrn m b j v) i = rdn n b i.
Proof. intros. apply rdn_ext. intros. apply lookup_wrn_ne. lia. Qed.

(** Storing leaves what follows alone. *)
Lemma drop_wrn n b i v k : (i + n <= k)%nat -> drop k (wrn n b i v) = drop k b.
Proof.
  revert b i v. induction n as [|n IH]; intros b i v Hk; cbn [wrn]; [done|].
  rewrite drop_insert_lt by lia. apply IH. lia.
Qed.
Lemma rdn_wrn_eq n b i v :
  (i + n <= length b)%nat -> rdn n (wrn n b i v) i = Some (v mod pow256 n).
Proof.
  revert i v. induction n as [|n IH]; intros i v Hi; simpl.
  - by rewrite Z.mod_1_r.
  - rewrite list_lookup_insert_eq by (rewrite length_wrn; lia). simpl.
    rewrite (rdn_ext n _ (wrn n b (S i) (v / 256)))
      by (intros; by rewrite list_lookup_insert_ne by lia).
    rewrite IH by lia. simpl. f_equal.
    pose proof (pow256_pos n). rewrite Z.rem_mul_r by lia. done.
Qed.

Lemma rdn_is_some n b i : (i + n <= length b)%nat -> exists v, rdn n b i = Some v.
Proof.
  revert i. induction n as [|n IH]; intros i Hi; simpl; [by eexists|].
  destruct (lookup_lt_is_Some_2 b i) as [x Hx]; [lia|]. rewrite Hx. simpl.
  destruct (IH (S i)) as [r Hr]; [lia|]. rewrite Hr. by eexists.
Qed.

Lemma rdn_length n b i v : (0 < n)%nat -> rdn n b i = Some v -> (i + n <= length b)%nat.
Proof.
  revert i v. induction n as [|n IH]; intros i v Hn; [lia|]. simpl.
  destruct (b !! i) as [x|] eqn:Hx; simpl; [|done]. apply lookup_lt_Some in Hx.
  destruct (rdn n b (S i)) as [r|] eqn:Hr; simpl; [|done]. intros _.
  destruct n as [|n']; [lia|]. apply IH in Hr; lia.
Qed.

Lemma rdn_range n b i v : bytes_ok b -> rdn n b i = Some v -> 0 <= v < pow256 n.
Proof.
  intros Hb. revert i v. induction n as [|n IH]; intros i v; simpl.
  - intros [= <-]. lia.
  - destruct (b !! i) as [x|] eqn:Hx; simpl; [|done].
    destruct (rdn n b (S i)) as [r|] eqn:Hr; simpl; [|done]. intros [= <-].
    apply IH in Hr. apply (Forall_lookup_1 _ _ _ _ Hb) in Hx. lia.
Qed.

Lemma rdn_app_r n b1 b2 i : rdn n (b1 ++ b2) (length b1 + i) = rdn n b2 i.
Proof.
  revert i. induction n as [|n IH]; intros i; simpl; [done|].
  rewrite lookup_app_r by lia. replace (length b1 + i - length b1)%nat with i by lia.
  by rewrite <- Nat.add_succ_r, IH.
Qed.

Lemma rdn_app_l n b1 b2 i : (i + n <= length b1)%nat -> rdn n (b1 ++ b2) i = rdn n b1 i.
Proof. intros. apply rdn_ext. intros. apply lookup_app_l. lia. Qed.

Lemma rdn_drop n b k i : rdn n (drop k b) i = rdn n b (k + i).
Proof.
  revert i. induction n as [|n IH]; intros i; simpl; [done|].
  by rewrite lookup_drop, <- Nat.add_succ_r, IH.
Qed.

Lemma rdn_take n b k i : (i + n <= k)%nat -> rdn n (take k b) i = rdn n b i.
Proof. intros. apply rdn_ext. intros. apply lookup_take_lt. lia. Qed.

Lemma wrn_bytes_ok n b i v : bytes_ok b -> bytes_ok (wrn n b i v).
Proof.
  intros Hb. revert i v. induction n as [|n IH]; intros i v; simpl; [done|].
  apply Forall_insert; [apply IH|]. apply Z.mod_pos_bound. lia.
Qed.

Lemma wrn_app_l n b1 b2 i v :
  (i + n <= length b1)%nat -> wrn n (b1 ++ b2) i v = wrn n b1 i v ++ b2.
Proof.
  revert i v. induction n as [|n IH]; intros i v Hi; simpl; [done|].
  rewrite IH by lia. rewrite insert_app_l; [done|]. rewrite length_wrn. lia.
Qed.

Lemma wrn_app_r n b1 b2 i v : wrn n (b1 ++ b2) (length b1 + i) v = b1 ++ wrn n b2 i v.
Proof.
  revert i v. induction n as [|n IH]; intros i v; simpl; [done|].
  by rewrite <- Nat.add_succ_r, IH, insert_app_r.
Qed.

(** Filtering twice. *)
Lemma omap_omap {A B C} (f : A -> option B) (g : B -> option C) (l : list A) :
  omap g (omap f l) = omap (fun x => f x ≫= g) l.
Proof. induction l as [|x l IH]; [done|]. csimpl. destruct (f x) as [y|]; csimpl; by rewrite IH. Qed.

Ltac solve_bytes := unfold bytes_ok; repeat constructor; lia.

Lemma bytes_ok_cons a l : bytes_ok (a :: l) <-> 0 <= a < 256 /\ bytes_ok l.
Proof. apply Forall_cons_iff. Qed.
Lemma bytes_ok_app b1 b2 : bytes_ok (b1 ++ b2) <-> bytes_ok b1 /\ bytes_ok b2.
Proof. apply Forall_app. Qed.
Lemma bytes_ok_take k b : bytes_ok b -> bytes_ok (take k b).
Proof. apply Forall_take. Qed.
Lemma bytes_ok_drop k b : bytes_ok b -> bytes_ok (drop k b).
Proof. apply Forall_drop. Qed.
Lemma bytes_ok_zero n : bytes_ok (replicate n 0).
Proof. apply Forall_replicate. lia. Qed.

Create HintDb bytes.
Create Rewrite HintDb bytes.
#[export] Hint Resolve wrn_bytes_ok bytes_ok_take bytes_ok_drop bytes_ok_zero : bytes.
#[export] Hint Rewrite length_wrn : bytes.

#[global] Arguments rdn : simpl never.
#[global] Arguments wrn : simpl never.
#[global] Arguments Z.modulo : simpl never.
#[global] Arguments Z.div : simpl never.
#[global] Arguments Z.mul : simpl never.
#[global] Arguments Z.add : simpl never.
#[global] Arguments Z.sub : simpl never.
#[global] Arguments Z.land : simpl never.
#[global] Arguments Z.lor : simpl never.
#[global] Arguments Z.shiftr : simpl never.
#[global] Arguments Z.shiftl : simpl never.

(** [ld n b i] is the same load in the error monad. *)
Definition ld (n : nat) (b : list Z) (i : nat) : res Z := opt_res OutOfBounds (rdn n b i).

Lemma ld_ok n b i v : rdn n b i = Some v -> ld n b i = Ok v.
Proof. unfold ld. by intros ->. Qed.
Lemma ld_inv n b i v : ld n b i = Ok v -> rdn n b i = Some v.
Proof. unfold ld. by destruct (rdn n b i) as [x|]; simpl; intros [= ->]. Qed.
