(* ===== verification/Parse.v ===== *)
(** * Integers in configuration strings ([lib/args.cc], [include/click/args.hh],
    [include/click/bigint.hh], [include/click/integers.hh])

    Elements read the numbers of their configurations with [IntArg], which works on arrays of
    32-bit limbs, the least significant first.  A string is the list of its character codes. *)
From Stdlib Require Import ZArith Lia Ascii String.
From stdpp Require Import base list numbers option.
From S2P Require Import Prelude.
#[local] Open Scope Z_scope.

Abbreviation chars := (list Z).
Definition str (s : string) : chars :=
  map (fun a => Z.of_N (N_of_ascii a)) (list_ascii_of_string s).

(** ** [Bigint<uint32_t>] *)
Definition limb_half : Z := 65536.
Definition low (x : Z) : Z := Z.land x (limb_half - 1).
Definition high (x : Z) : Z := Z.shiftr x 16.
(** The generic [int_multiply(a, b, xlow, xhigh)]: [(xlow, xhigh)]. *)
Definition int_multiply (a b : Z) : Z * Z :=
  let r0 := u32 (low a * low b) in
  let r3 := u32 (high a * high b) in
  let r1 := u32 (high a * low b) in
  let r2 := u32 (u32 (u32 (low a * high b) + high r0) + r1) in
  let r3 := if r2 <? r1 then u32 (r3 + limb_half) else r3 in
  (u32 (u32 (Z.shiftl r2 16) + low r0), u32 (r3 + high r2)).
(** The processor's [mul]. *)
Definition fast_int_multiply (a b : Z) : Z * Z := (u32 (a * b), (a * b) / 4294967296).
Definition multiply_limbs (fast : bool) (a b : Z) : Z * Z :=
  if fast then fast_int_multiply a b else int_multiply a b.
(** [multiply_half(x1, x0, a, b)] on limbs: [(x0, x1)]. *)
Definition multiply_half_limbs (fast : bool) (a b : Z) : Z * Z :=
  if fast then multiply_limbs fast a b
  else
    let r0 := u32 (low a * b) in
    let r1 := u32 (high a * b) in
    let r2 := u32 (high r0 + r1) in
    (u32 (u32 (Z.shiftl r2 16) + low r0), u32 ((if r2 <? r1 then limb_half else 0) + high r2)).

(** [multiply(x, a, n, b, carry)] and [multiply_half]: the result and the overflow. *)
Fixpoint multiply_by (mul : Z -> Z -> Z * Z) (a : list Z) (b carry : Z) : list Z * Z :=
  match a with
  | [] => ([], carry)
  | a0 :: a =>
      let '(x0, x1) := mul a0 b in
      let x0 := u32 (x0 + carry) in
      let carry := u32 (Z.b2z (x0 <? carry) + x1) in
      let '(x, carry) := multiply_by mul a b carry in
      (x0 :: x, carry)
  end.
Definition multiply (fast : bool) (a : list Z) (b carry : Z) : list Z * Z :=
  multiply_by (multiply_limbs fast) a b carry.
Definition multiply_half (fast : bool) (a : list Z) (b carry : Z) : list Z * Z :=
  multiply_by (multiply_half_limbs fast) a b carry.
(** [multiply_add(x, a, n, b)] *)
Fixpoint multiply_add (fast : bool) (x a : list Z) (b carry : Z) : list Z * Z :=
  match x, a with
  | y :: x, a0 :: a =>
      let '(x0, x1) := multiply_limbs fast a0 b in
      let x0 := u32 (x0 + carry) in
      let carry := u32 (Z.b2z (x0 <? carry) + x1) in
      let x0 := u32 (x0 + y) in
      let carry := u32 (carry + Z.b2z (x0 <? y)) in
      let '(x, carry) := multiply_add fast x a b carry in
      (x0 :: x, carry)
  | _, _ => ([], carry)
  end.

(** ** [IntArg] *)
Inductive num_status : Type := status_ok | status_inval | status_range.
#[export] Instance num_status_eq_dec : EqDecision num_status.
Proof. solve_decision. Defined.

Definition in_range (c first count : Z) : bool := (first <=? c) && (c <? first + count).
Definition max_digits (b : Z) : Z := if 10 <? b then 10 else b.
Definition max_letters (b : Z) : Z := if 10 <? b then b - 10 else 0.
Definition is_digit (b c : Z) : bool :=
  in_range c 48 (max_digits b) || in_range c 65 (max_letters b) || in_range c 97 (max_letters b).

(** The loop of [span], with [s] and [lastdigit] counted from [firstdigit]. *)
Fixpoint span_loop (b : Z) (l : chars) (s lastdigit : Z) : Z * Z :=
  match l with
  | [] => (s, lastdigit)
  | c :: l =>
      if (c =? 95) && (lastdigit =? s) then span_loop b l (s + 1) lastdigit
      else if is_digit b c then span_loop b l (s + 1) (s + 1)
      else (s, lastdigit)
  end.
Definition has_sign (is_signed : bool) (l : chars) : bool :=
  match l with c :: _ => (is_signed && (c =? 45)) || (c =? 43) | [] => false end.
(** The prefix of a number in base [b] (0: any): how long it is, and the base. *)
Definition base_prefix (b : Z) (l : chars) : nat * Z :=
  let zero := match l with c :: _ => c =? 48 | [] => false end in
  let second := default 0 (l !! 1%nat) in
  if ((b =? 0) || (b =? 16)) && (2 <? length l)%nat && zero && ((second =? 120) || (second =? 88))
  then (2%nat, 16)
  else if (b =? 0) && (2 <? length l)%nat && zero && ((second =? 98) || (second =? 66)) then (2%nat, 2)
  else if (b =? 0) && zero then (0%nat, 8)
  else if b =? 0 then (0%nat, 10)
  else (0%nat, b).
(** [span(begin, end, is_signed, b)]: how many characters, and the base. *)
Definition span (l : chars) (is_signed : bool) (b : Z) : nat * Z :=
  let sign := if has_sign is_signed l then 1%nat else 0%nat in
  let '(pre, b) := base_prefix b (drop sign l) in
  let firstdigit := (sign + pre)%nat in
  let '(s, lastdigit) := span_loop b (drop firstdigit l) 0 (-1) in
  (if negb (s =? 0) then (firstdigit + Z.to_nat lastdigit)%nat
   else if (1 <? firstdigit)%nat then (firstdigit - 1)%nat
   else 0%nat, b).

(** The digit of a character of a number; other characters are passed over. *)
Definition digit_of (b c : Z) : option Z :=
  if in_range c 48 10 then Some (c - 48)
  else if in_range c 65 (max_letters b) then Some (c - 65 + 10)
  else if in_range c 97 (max_letters b) then Some (c - 97 + 10)
  else None.
Definition threshold : Z := 4294967295 / 36.
Fixpoint digits_loop (fast : bool) (b : Z) (l : chars) (v0 : Z) (value : list Z) (status : num_status)
  : list Z * num_status :=
  match l with
  | [] => (value, status)
  | c :: l =>
      match digit_of b c with
      | None => digits_loop fast b l v0 value status
      | Some digit =>
          if v0 <? threshold then
            let v0 := u32 (v0 * b + digit) in
            digits_loop fast b l v0 (<[0%nat := v0]> value) status
          else
            let '(value, overflow) := multiply_half fast value b digit in
            digits_loop fast b l v0 value (if overflow =? 0 then status else status_range)
      end
  end.

(** The loop that compares the limbs with the size of the result. *)
Fixpoint check_limbs (bitsize : Z) (negative : bool) (bpos : Z) (value : list Z) : num_status :=
  match value with
  | [] => status_ok
  | x :: value =>
      if ((bitsize <=? bpos) && negb (x =? 0))
         || ((bpos <? bitsize) && (bitsize <? bpos + 32)
             && (u32 (Z.shiftl 1 (bitsize - bpos) + Z.b2z negative) <=? x))
      then status_range else check_limbs bitsize negative (bpos + 32) value
  end.
(** [memset(value, byte, size)], with [byte] 0 or 255. *)
Fixpoint memset_limbs (ones : bool) (size : Z) (value : list Z) : list Z :=
  match value with
  | [] => []
  | x :: value =>
      let w := 2 ^ (8 * Z.max 0 (Z.min size 4)) in
      (x - x mod w + (if ones then w - 1 else 0)) :: memset_limbs ones (size - 4) value
  end.
(** The limbs negated, then those behind the last that is not zero decremented. *)
Fixpoint first_zero (value : list Z) : nat :=
  match value with
  | [] => 0%nat
  | x :: value =>
      match first_zero value with
      | O => if x =? 0 then 0%nat else 1%nat
      | n => S n
      end
  end.
Definition negate (value : list Z) : list Z :=
  let v := map (fun x => u32 (- x)) value in
  let n := match first_zero v with O => length v | n => n end in
  take n v ++ map (fun x => u32 (x - 1)) (drop n v).

(** The end of [parse]: the size of the result and its sign. *)
Definition IntArg_finish (is_signed : bool) (size : Z) (negative : bool) (value : list Z)
    (status : num_status) : list Z * num_status :=
  let bitsize := size * 8 - Z.b2z is_signed in
  let status := if decide (status = status_ok) then check_limbs bitsize negative 0 value else status in
  let value :=
    if decide (status = status_range) then
      let value := memset_limbs (negb negative) size value in
      if is_signed
      then alter (fun x => Z.lxor x (Z.shiftl 1 (bitsize mod 32))) (Z.to_nat (bitsize / 32)) value
      else value
    else value in
  (if negative then negate value else value, status).
(** [parse(begin, end, is_signed, size, value, nlimb)]: how many characters, the limbs and the
    status. *)
Definition IntArg_parse_limbs (fast : bool) (base : Z) (is_signed : bool) (size : Z) (nlimb : nat)
    (l : chars) : nat * list Z * num_status :=
  let '(n, b) := span l is_signed base in
  if (b <? 2) || (36 <? b) || (n =? 0)%nat then (0%nat, replicate nlimb 0, status_inval)
  else
    let '(value, status) := digits_loop fast b (take n l) 0 (replicate nlimb 0) status_ok in
    let negative := is_signed && match l with c :: _ => c =? 45 | [] => false end in
    let '(value, status) := IntArg_finish is_signed size negative value status in
    (n, value, status).

(** ** Integers of a type [V] of [size] bytes *)
Definition limbs_for (size : Z) : nat := Z.to_nat ((size + 3) / 4).
Fixpoint limbs_val (value : list Z) : Z :=
  match value with [] => 0 | x :: value => x + 4294967296 * limbs_val value end.
(** [extract_integer], into a [V]. *)
Definition to_type (is_signed : bool) (size v : Z) : Z :=
  if is_signed then (v + 2 ^ (size * 8 - 1)) mod 2 ^ (size * 8) - 2 ^ (size * 8 - 1)
  else v mod 2 ^ (size * 8).
Definition extract_integer (is_signed : bool) (size : Z) (value : list Z) : Z :=
  to_type is_signed size (limbs_val value).

Record int_type : Type := IntType { t_signed : bool; t_size : Z }.
(** [parse_saturating(str, result)]: the result if it returns true, and the status. *)
Definition IntArg_parse_saturating (fast : bool) (base : Z) (t : int_type) (l : chars)
  : option Z * num_status :=
  let '(n, value, status) :=
    IntArg_parse_limbs fast base (t_signed t) (t_size t) (limbs_for (t_size t)) l in
  let status := if (n =? length l)%nat then status else status_inval in
  (if decide (status = status_inval) then None
   else Some (extract_integer (t_signed t) (t_size t) value), status).
(** [parse(str, result)] *)
Definition IntArg_parse (fast : bool) (base : Z) (t : int_type) (l : chars) : option Z :=
  match IntArg_parse_saturating fast base t l with
  | (Some x, status_ok) => Some x
  | _ => None
  end.
(** [BoundedIntArg(min, max, base)]: whether signed or not, [check_min] and [check_max] compare
    the values. *)
Definition BoundedIntArg_parse (fast : bool) (base min_value max_value : Z) (t : int_type) (l : chars)
  : option Z :=
  x ← IntArg_parse fast base t l;
  if (min_value <=? x) && (x <=? max_value) then Some x else None.

Example parse_ten : IntArg_parse true 0 (IntType true 4) (str "-1_0") = Some (-10).
Proof. reflexivity. Qed.
Example parse_hex : IntArg_parse false 0 (IntType false 8) (str "0xFfFfFfFfFfFf") = Some (2 ^ 48 - 1).
Proof. reflexivity. Qed.
Example parse_big : IntArg_parse false 10 (IntType false 4) (str "4294967296") = None.
Proof. reflexivity. Qed.
Example parse_sat : IntArg_parse_saturating true 10 (IntType true 1) (str "-129") = (Some (-128), status_range).
Proof. reflexivity. Qed.
Example parse_bug : IntArg_parse true 10 (IntType true 8) (str "-4294967297") = Some (-1).
Proof. reflexivity. Qed.

(** ** Limb arithmetic *)
Definition limb (x : Z) : Prop := 0 <= x < 4294967296.
Definition limbs_ok (v : list Z) : Prop := Forall limb v.
Definition limbs_max (n : nat) : Z := 4294967296 ^ Z.of_nat n.

Lemma limbs_max_S n : limbs_max (S n) = 4294967296 * limbs_max n.
Proof. unfold limbs_max. rewrite Nat2Z.inj_succ, Z.pow_succ_r; lia. Qed.
Lemma limbs_max_pos n : 0 < limbs_max n.
Proof. unfold limbs_max. apply Z.pow_pos_nonneg; lia. Qed.
Lemma limbs_val_range v : limbs_ok v -> 0 <= limbs_val v < limbs_max (length v).
Proof.
  induction 1 as [|x v Hx _ IH]; simpl; [rewrite limbs_max_S || (unfold limbs_max; simpl); lia|].
  unfold limb in Hx. rewrite limbs_max_S. lia.
Qed.
Lemma low_mod x : low x = x mod 65536.
Proof. apply (Z.land_ones x 16). lia. Qed.
Lemma high_div x : high x = x / 65536.
Proof. apply Z.shiftr_div_pow2. lia. Qed.

Lemma halves x : limb x -> exists l h, x = l + 65536 * h /\ low x = l /\ high x = h /\
  0 <= l < 65536 /\ 0 <= h < 65536.
Proof.
  unfold limb. intros. exists (x mod 65536), (x / 65536). rewrite low_mod, high_div. split_and!; try done; zdm.
Qed.
Lemma half_product x y : 0 <= x < 65536 -> 0 <= y < 65536 -> 0 <= x * y <= 4294836225.
Proof. intros. split; [nia|]. transitivity (65535 * 65535); [apply Z.mul_le_mono_nonneg; lia|lia]. Qed.

Lemma int_multiply_fast a b : limb a -> limb b -> int_multiply a b = fast_int_multiply a b.
Proof.
  intros (al & ah & -> & La & Ha & Hal & Hah)%halves (bl & bh & -> & Lb & Hb & Hbl & Hbh)%halves.
  unfold int_multiply, fast_int_multiply. rewrite La, Ha, Lb, Hb.
  pose proof (half_product al bl Hal Hbl). pose proof (half_product ah bl Hah Hbl).
  pose proof (half_product al bh Hal Hbh). pose proof (half_product ah bh Hah Hbh).
  replace ((al + 65536 * ah) * (bl + 65536 * bh)) with
    (al * bl + 65536 * (ah * bl) + 65536 * (al * bh) + 4294967296 * (ah * bh)) by ring.
  generalize dependent (al * bl). generalize dependent (ah * bl).
  generalize dependent (al * bh). generalize dependent (ah * bh). clear.
  intros p3 H3 p2 H2 p1 H1 p0 H0. rewrite (u32_small p0), (u32_small p1), (u32_small p2), (u32_small p3) by lia.
  cbv zeta. rewrite !high_div, !low_mod, Z.shiftl_mul_pow2 by lia. change (2 ^ 16) with 65536.
  change limb_half with 65536.
  assert (0 <= p0 / 65536 < 65536) by zdm.
  rewrite (u32_small (p2 + p0 / 65536)) by lia. unfold u32.
  destruct (Z.ltb_spec ((p2 + p0 / 65536 + p1) mod 4294967296) p1); f_equal; zdm.
Qed.
Lemma multiply_limbs_fast fast a b : limb a -> limb b -> multiply_limbs fast a b = fast_int_multiply a b.
Proof. destruct fast; [done|]. apply int_multiply_fast. Qed.
Lemma multiply_half_limbs_fast fast a b :
  limb a -> 0 <= b < 65536 -> multiply_half_limbs fast a b = fast_int_multiply a b.
Proof.
  intros Ha Hb. destruct fast; [done|]. apply halves in Ha as (al & ah & -> & La & Ha & Hal & Hah).
  unfold multiply_half_limbs, fast_int_multiply. rewrite La, Ha.
  pose proof (half_product al b Hal Hb). pose proof (half_product ah b Hah Hb).
  assert (0 <= ah * b <= 65535 * 65535) by lia.
  replace ((al + 65536 * ah) * b) with (al * b + 65536 * (ah * b)) by ring.
  generalize dependent (al * b). generalize dependent (ah * b). clear. intros p1 H1 H1' p0 H0.
  rewrite (u32_small p0), (u32_small p1) by lia. cbv zeta. rewrite !high_div, !low_mod, Z.shiftl_mul_pow2 by lia.
  change (2 ^ 16) with 65536. change limb_half with 65536.
  assert (0 <= p0 / 65536 < 65536) by zdm. rewrite (u32_small (p0 / 65536 + p1)) by lia. unfold u32.
  destruct (Z.ltb_spec (p0 / 65536 + p1) p1); [lia|]. f_equal; zdm.
Qed.

(** One limb with a carry. *)
Lemma limb_step a b carry :
  limb a -> limb b -> limb carry ->
  let x0 := u32 (u32 (a * b) + carry) in
  let carry' := u32 (Z.b2z (x0 <? carry) + (a * b) / 4294967296) in
  x0 + 4294967296 * carry' = a * b + carry /\ limb x0 /\ limb carry'.
Proof.
  intros Ha Hb Hc. cbv zeta. unfold limb in *.
  assert (0 <= a * b <= 4294967295 * 4294967295) by (split; [nia|apply Z.mul_le_mono_nonneg; lia]).
  generalize dependent (a * b). clear Ha Hb. intros p Hp. unfold u32.
  destruct (Z.ltb_spec ((p mod 4294967296 + carry) mod 4294967296) carry); simpl Z.b2z; zdm.
Qed.
Lemma multiply_by_val mul a b carry :
  (forall x, limb x -> mul x b = fast_int_multiply x b) -> limb b -> limb carry -> limbs_ok a ->
  exists x c, multiply_by mul a b carry = (x, c) /\ length x = length a /\ limbs_ok x /\ limb c /\
    limbs_val x + limbs_max (length a) * c = limbs_val a * b + carry.
Proof.
  intros Hmul Hb. revert carry. induction a as [|a0 a IH]; intros carry Hc Ha.
  - exists [], carry. simpl. split_and!; try done. unfold limbs_max. simpl. lia.
  - apply list.Forall_cons in Ha as [Ha0 Ha]. cbn [multiply_by]. rewrite Hmul by done. unfold fast_int_multiply.
    destruct (limb_step a0 b carry Ha0 Hb Hc) as (Hs & Hx0 & Hc').
    destruct (IH _ Hc' Ha) as (x & c & E & Hl & Hx & Hcc & Hv). rewrite E.
    eexists _, c. split; [reflexivity|]. cbn [length limbs_val]. split_and!; try done; [by rewrite Hl|by constructor|].
    rewrite limbs_max_S. lia.
Qed.
Lemma multiply_half_val fast a b carry :
  0 <= b < 65536 -> limb carry -> limbs_ok a ->
  exists x c, multiply_half fast a b carry = (x, c) /\ length x = length a /\ limbs_ok x /\ limb c /\
    limbs_val x + limbs_max (length a) * c = limbs_val a * b + carry.
Proof.
  intros Hb. apply multiply_by_val; [|unfold limb; lia]. intros x Hx. by apply multiply_half_limbs_fast.
Qed.

(** ** Digits *)
Definition digits_from (b acc : Z) (ds : list Z) : Z := fold_left (fun v d => v * b + d) ds acc.
Definition digits_of (b : Z) (l : chars) : list Z := omap (digit_of b) l.

Lemma in_range_spec c first count : in_range c first count = true <-> first <= c < first + count.
Proof. unfold in_range. rewrite andb_true_iff, Z.leb_le, Z.ltb_lt. lia. Qed.
Lemma max_letters_range b : b <= 36 -> 0 <= max_letters b <= 26.
Proof. unfold max_letters. destruct (Z.ltb_spec 10 b); lia. Qed.
Lemma digit_of_range b c d : b <= 36 -> digit_of b c = Some d -> 0 <= d <= 35.
Proof.
  intros Hb. pose proof (max_letters_range b Hb). unfold digit_of.
  destruct (in_range c 48 10) eqn:E1; [apply in_range_spec in E1; intros [= <-]; lia|].
  destruct (in_range c 65 _) eqn:E2; [apply in_range_spec in E2; intros [= <-]; lia|].
  destruct (in_range c 97 _) eqn:E3; [apply in_range_spec in E3; intros [= <-]; lia|done].
Qed.

(** What is known of the limbs when the digits so far are worth [N]. *)
Definition holds_value (value : list Z) (status : num_status) (N : Z) : Prop :=
  limbs_ok value /\ 0 <= N /\
  ((status = status_ok /\ limbs_val value = N) \/
   (status = status_range /\ limbs_max (length value) <= N)).

Lemma digits_loop_slow fast b l v0 value status N :
  2 <= b <= 36 -> threshold <= v0 -> holds_value value status N ->
  exists value' status', digits_loop fast b l v0 value status = (value', status') /\
    length value' = length value /\ holds_value value' status' (digits_from b N (digits_of b l)).
Proof.
  intros Hb Hv0. revert value status N. induction l as [|c l IH]; intros value status N Hh.
  { by exists value, status. }
  cbn [digits_loop]. unfold digits_of. csimpl. destruct (digit_of b c) as [d|] eqn:Ed; [|by apply IH].
  apply digit_of_range in Ed; [|lia]. rewrite (proj2 (Z.ltb_ge _ _) Hv0).
  destruct Hh as (Hok & HN & Hcase).
  destruct (multiply_half_val fast value b d ltac:(lia) ltac:(unfold limb; lia) Hok)
    as (x & ov & E & Hl & Hx & Hov & Hv). rewrite E.
  pose proof (limbs_max_pos (length value)) as Hmax. unfold limb in Hov.
  pose proof (limbs_val_range x Hx) as Hxr. rewrite Hl in Hxr.
  destruct (IH x (if ov =? 0 then status else status_range) (N * b + d)) as (value' & status' & E' & Hl' & Hh').
  - split; [done|]. split; [nia|]. rewrite Hl. destruct Hcase as [[-> Hval]|[-> Hval]].
    + rewrite Hval in Hv. destruct (Z.eqb_spec ov 0) as [-> |Hne]; [left; split; [done|lia]|right; split; [done|nia]].
    + right. split; [by destruct (ov =? 0)|nia].
  - exists value', status'. split; [exact E'|]. split; [congruence|exact Hh'].
Qed.

Lemma limbs_val_zeros k : limbs_val (replicate k 0) = 0.
Proof. induction k as [|k IH]; [done|]. cbn [replicate limbs_val]. lia. Qed.
Lemma limbs_ok_zeros k : limbs_ok (replicate k 0).
Proof. apply Forall_replicate. unfold limb. lia. Qed.

Lemma digits_loop_run fast b l v0 k :
  2 <= b <= 36 -> 0 <= v0 < threshold ->
  exists value' status', digits_loop fast b l v0 (v0 :: replicate k 0) status_ok = (value', status') /\
    length value' = S k /\ holds_value value' status' (digits_from b v0 (digits_of b l)).
Proof.
  intros Hb. change threshold with 119304647. revert v0. induction l as [|c l IH]; intros v0 Hv0.
  { exists (v0 :: replicate k 0), status_ok. split; [done|]. split; [cbn; by rewrite length_replicate|].
    split; [constructor; [unfold limb; lia|apply limbs_ok_zeros]|]. split; [cbn; lia|]. left.
    cbn. rewrite limbs_val_zeros. split; [done|lia]. }
  cbn [digits_loop]. unfold digits_of. csimpl. destruct (digit_of b c) as [d|] eqn:Ed; [|by apply IH].
  apply digit_of_range in Ed; [|lia]. change threshold with 119304647 in *.
  rewrite (proj2 (Z.ltb_lt v0 119304647)) by lia.
  assert (0 <= v0 * b + d < 4294967296) as Hr by nia. rewrite u32_small by lia. cbn [insert list_insert].
  destruct (Z.lt_ge_cases (v0 * b + d) 119304647) as [Hlt|Hge]; [apply IH; lia|].
  destruct (digits_loop_slow fast b l (v0 * b + d) ((v0 * b + d) :: replicate k 0) status_ok (v0 * b + d))
    as (value' & status' & E & Hl & Hh); [done|done| |].
  - split; [constructor; [unfold limb; lia|apply limbs_ok_zeros]|]. split; [lia|]. left.
    cbn. rewrite limbs_val_zeros. split; [done|lia].
  - exists value', status'. split; [exact E|]. split; [|exact Hh]. rewrite Hl. cbn. by rewrite length_replicate.
Qed.

(** ** The end of [parse] *)
Definition type_ok (t : int_type) : Prop := t_size t = 1 \/ t_size t = 2 \/ t_size t = 4 \/ t_size t = 8.
Definition t_bits (t : int_type) : Z := t_size t * 8 - Z.b2z (t_signed t).
(** The numbers of a type. *)
Definition t_min (t : int_type) : Z := if t_signed t then - 2 ^ t_bits t else 0.
Definition t_max (t : int_type) : Z := 2 ^ t_bits t - 1.
Definition saturate (t : int_type) (n : Z) : Z := Z.max (t_min t) (Z.min (t_max t) n).
Definition fits (t : int_type) (n : Z) : bool := (t_min t <=? n) && (n <=? t_max t).
(** Negative numbers of 64 bits, where [parse] goes wrong. *)
Definition negative_64 (t : int_type) (negative : bool) : bool :=
  t_signed t && (t_size t =? 8) && negative.

Lemma length_1 {A} (v : list A) : length v = 1%nat -> exists x, v = [x].
Proof. destruct v as [|x [|]]; try done. intros _. by exists x. Qed.
Lemma length_2 {A} (v : list A) : length v = 2%nat -> exists x y, v = [x; y].
Proof. destruct v as [|x [|y [|]]]; try done. intros _. by exists x, y. Qed.

Definition IntArg_finished (t : int_type) (negative : bool) (N : Z) (r : list Z * num_status) : Prop :=
  let n := if negative then - N else N in
  extract_integer (t_signed t) (t_size t) (fst r) = saturate t n /\
  snd r = if fits t n then status_ok else status_range.
Ltac fits_is c :=
  match goal with |- _ = (if ?b then _ else _) => replace b with c; [done|] end; symmetry;
  first [apply andb_true_iff; rewrite !Z.leb_le; lia|apply andb_false_iff; rewrite !Z.leb_gt; lia].

Lemma lxor_mod y k m : 0 <= k < m -> Z.lxor y (2 ^ k) mod 2 ^ m = Z.lxor (y mod 2 ^ m) (2 ^ k).
Proof.
  intros Hk. apply Z.bits_inj'. intros n Hn. rewrite Z.lxor_spec.
  destruct (Z.lt_ge_cases n m) as [Hlt|Hge].
  - rewrite !Z.mod_pow2_bits_low, Z.lxor_spec by lia. done.
  - rewrite !Z.mod_pow2_bits_high, Z.pow2_bits_false by lia. done.
Qed.
Lemma to_type_mod sg sz v : 0 < sz -> to_type sg sz (v mod 2 ^ (sz * 8)) = to_type sg sz v.
Proof.
  intros Hs. assert (2 ^ (sz * 8) <> 0) by (apply Z.pow_nonzero; lia). unfold to_type. destruct sg.
  - by rewrite Z.add_mod_idemp_l.
  - by rewrite Z.mod_mod.
Qed.

Lemma negate_1 x : negate [x] = [u32 (- x)].
Proof. unfold negate. cbn [map first_zero]. by destruct (u32 (- x) =? 0). Qed.

(** The check of one limb. *)
Lemma check_limbs_1 t negative x :
  t_size t = 1 \/ t_size t = 2 \/ t_size t = 4 -> (negative = true -> t_signed t = true) -> limb x ->
  check_limbs (t_bits t) negative 0 [x] =
    if 2 ^ t_bits t + Z.b2z negative <=? x then status_range else status_ok.
Proof.
  intros Hs Hneg Hx. unfold limb, t_bits in *. cbn [check_limbs]. rewrite Z.sub_0_r, Z.add_0_l.
  rewrite Z.shiftl_mul_pow2, Z.mul_1_l by (destruct Hs as [-> |[-> | ->]], (t_signed t); cbn; lia).
  destruct (Z.leb_spec (t_size t * 8 - Z.b2z (t_signed t)) 0); [destruct (t_signed t); cbn in *; lia|].
  destruct (Z.ltb_spec 0 (t_size t * 8 - Z.b2z (t_signed t))); [|lia]. cbn [andb orb].
  destruct (Z.ltb_spec (t_size t * 8 - Z.b2z (t_signed t)) 32); cbn [andb].
  - rewrite u32_small; [done|].
    destruct Hs as [E|[E|E]], (t_signed t), negative; rewrite E in *; cbn in *; lia.
  - assert (t_size t * 8 - Z.b2z (t_signed t) = 32) as -> by (destruct (t_signed t); cbn in *; lia).
    rewrite (proj2 (Z.leb_gt _ x)); [done|]. change (2 ^ 32) with 4294967296. destruct negative; cbn; lia.
Qed.

(** Numbers in range, of one limb. *)
Lemma finish_fits_1 t negative x :
  t_size t = 1 \/ t_size t = 2 \/ t_size t = 4 -> (negative = true -> t_signed t = true) -> limb x ->
  x < 2 ^ t_bits t + Z.b2z negative ->
  IntArg_finished t negative x (IntArg_finish (t_signed t) (t_size t) negative [x] status_ok).
Proof.
  unfold limb, IntArg_finished, IntArg_finish, saturate, fits, t_min, t_max, t_bits, extract_integer.
  destruct t as [sg sz]. cbn [t_signed t_size]. intros Hs Hneg Hx Hr.
  pose proof (check_limbs_1 (IntType sg sz) negative x Hs Hneg Hx) as Hc. unfold t_bits in Hc. cbn [t_signed t_size] in Hc.
  rewrite (proj2 (Z.leb_gt _ x)) in Hc by lia.
  rewrite (decide_True (P := status_ok = status_ok)) by done. rewrite Hc, decide_False by done. cbn [fst snd].
  destruct negative; [rewrite negate_1|]; cbn [limbs_val];
    destruct Hs as [-> |[-> | ->]], sg; try (by specialize (Hneg eq_refl)); clear Hneg Hc; cbn in Hr; unfold to_type, u32; cbn;
    (split; [|fits_is true]); zdm.
Qed.

(** Numbers out of range, of one limb: the type's bound. *)
Lemma memset_1 ones sz x : 0 < sz <= 4 -> limb x ->
  exists y, memset_limbs ones sz [x] = [y] /\ y mod 2 ^ (sz * 8) = if ones then 2 ^ (sz * 8) - 1 else 0.
Proof.
  intros Hs Hx. cbn [memset_limbs]. rewrite Z.min_l, Z.max_r, (Z.mul_comm 8) by lia.
  eexists. split; [reflexivity|]. set (w := 2 ^ (sz * 8)).
  assert (0 < w) by (apply Z.pow_pos_nonneg; lia).
  replace (x - x mod w) with (x / w * w) by (pose proof (Z.div_mod x w); lia).
  rewrite Z.add_comm, Z.mod_add by lia. destruct ones; apply Z.mod_small; lia.
Qed.
Lemma finish_range_1 t negative x status :
  t_size t = 1 \/ t_size t = 2 \/ t_size t = 4 -> (negative = true -> t_signed t = true) -> limb x ->
  (status = status_ok /\ 2 ^ t_bits t + Z.b2z negative <= x \/ status = status_range) ->
  forall N, 2 ^ t_bits t + Z.b2z negative <= N ->
  IntArg_finished t negative N (IntArg_finish (t_signed t) (t_size t) negative [x] status).
Proof.
  intros Hs Hneg Hx Hst N HN.
  assert (Hc : (if decide (status = status_ok) then check_limbs (t_bits t) negative 0 [x] else status) = status_range).
  { destruct Hst as [[-> Hr]| ->]; [|done]. rewrite decide_True, check_limbs_1 by done.
    by rewrite (proj2 (Z.leb_le _ x)). }
  unfold IntArg_finish. fold (t_bits t). rewrite Hc, decide_True by done.
  destruct (memset_1 (negb negative) (t_size t) x ltac:(lia) Hx) as (y & -> & Hy).
  unfold IntArg_finished. cbn [fst snd].
  set (v := if t_signed t then _ else _).
  assert (Hv : exists z, v = [z] /\ z mod 2 ^ (t_size t * 8) = if t_signed t then 2 ^ t_bits t - Z.b2z (negb negative) else 2 ^ t_bits t - 1).
  { unfold v. destruct (t_signed t) eqn:Esg.
    - replace (Z.to_nat (t_bits t / 32)) with 0%nat
        by (unfold t_bits; rewrite Esg; destruct Hs as [-> |[-> | ->]]; reflexivity).
      eexists. split; [reflexivity|]. rewrite Z.shiftl_1_l.
      assert (t_bits t mod 32 = t_bits t) as -> by (unfold t_bits; rewrite Esg; destruct Hs as [-> |[-> | ->]]; reflexivity).
      rewrite lxor_mod by (unfold t_bits; rewrite Esg; cbn; lia). rewrite Hy.
      unfold t_bits. rewrite Esg. destruct negative, Hs as [-> |[-> | ->]]; reflexivity.
    - exists y. split; [done|]. rewrite Hy. unfold t_bits. rewrite Esg.
      destruct negative; [by specialize (Hneg eq_refl)|]. cbn. by rewrite Z.sub_0_r. }
  destruct Hv as (z & -> & Hz). clear Hc Hst Hy.
  unfold extract_integer, saturate, fits, t_min, t_max.
  rewrite <- (to_type_mod _ _ (limbs_val _)) by lia.
  assert (Hval : limbs_val (if negative then negate [z] else [z]) mod 2 ^ (t_size t * 8) =
    if negative then (- (z mod 2 ^ (t_size t * 8))) mod 2 ^ (t_size t * 8) else z mod 2 ^ (t_size t * 8)).
  { destruct negative; [rewrite negate_1|]; cbn [limbs_val]; rewrite Z.mul_0_r, Z.add_0_r; [|done].
    unfold u32. destruct Hs as [-> |[-> | ->]]; cbn; zdm. }
  rewrite Hval, Hz. clear Hval Hz. unfold t_bits in *. destruct (t_signed t).
  - destruct negative, Hs as [E|[E|E]]; rewrite E in *; cbn in *; (split;
      [rewrite ?Z.min_r, ?Z.max_r, ?Z.min_l, ?Z.max_l by lia; reflexivity|
       fits_is false]).
  - destruct negative; [by specialize (Hneg eq_refl)|]. destruct Hs as [E|[E|E]]; rewrite E in *; cbn in *; (split;
      [rewrite ?Z.min_r, ?Z.max_r, ?Z.min_l, ?Z.max_l by lia; reflexivity|
       fits_is false]).
Qed.

(** Two limbs. *)
Lemma check_limbs_2 sg negative x0 x1 :
  check_limbs (8 * 8 - Z.b2z sg) negative 0 [x0; x1] =
    if sg && (2147483648 + Z.b2z negative <=? x1) then status_range else status_ok.
Proof.
  destruct sg; cbn [check_limbs Z.b2z]; [|done].
  change (8 * 8 - 1 <=? 0) with false. change (8 * 8 - 1 <? 0 + 32) with false.
  change (0 <? 8 * 8 - 1) with true. change (8 * 8 - 1 <=? 0 + 32) with false.
  change (0 + 32 <? 8 * 8 - 1) with true. change (8 * 8 - 1 <? 0 + 32 + 32) with true. cbn [andb orb].
  by destruct negative.
Qed.
Lemma memset_2 ones x0 x1 : limb x0 -> limb x1 ->
  memset_limbs ones 8 [x0; x1] = let w := if ones then 4294967295 else 0 in [w; w].
Proof.
  unfold limb. intros. cbn [memset_limbs]. change (8 * Z.max 0 (Z.min 8 4)) with 32.
  change (8 * Z.max 0 (Z.min (8 - 4) 4)) with 32. change (2 ^ 32) with 4294967296.
  by rewrite (Z.mod_small x0), (Z.mod_small x1), !Z.sub_diag by lia.
Qed.

Lemma finish_2 sg x0 x1 status N :
  limb x0 -> limb x1 -> 0 <= N ->
  (status = status_ok /\ x0 + 4294967296 * x1 = N \/ status = status_range /\ 18446744073709551616 <= N) ->
  IntArg_finished (IntType sg 8) false N (IntArg_finish sg 8 false [x0; x1] status).
Proof.
  intros H0 H1 HN Hst. unfold IntArg_finish.
  assert (Hs : (if decide (status = status_ok) then check_limbs (8 * 8 - Z.b2z sg) false 0 [x0; x1] else status) =
    if N <? (if sg then 9223372036854775808 else 18446744073709551616) then status_ok else status_range).
  { unfold limb in *. destruct Hst as [[-> Hv]|[-> Hv]].
    - rewrite decide_True, check_limbs_2 by done. cbn [Z.b2z].
      destruct sg; cbn [andb]; [destruct (Z.leb_spec (2147483648 + 0) x1)|];
        match goal with |- context [N <? ?m] => destruct (Z.ltb_spec N m) end; done || lia.
    - rewrite decide_False by done. destruct sg;
        match goal with |- context [N <? ?m] => destruct (Z.ltb_spec N m) end; done || lia. }
  rewrite Hs. clear Hs. unfold IntArg_finished, saturate, fits, t_min, t_max, t_bits. cbn [fst snd t_signed t_size].
  match goal with |- context [N <? ?m] => destruct (Z.ltb_spec N m) as [Hlt|Hge] end.
  - rewrite decide_False by done. destruct Hst as [[_ Hv]|[_ Hv]]; [|destruct sg; lia]. unfold extract_integer.
    destruct sg; cbn; rewrite Z.mul_0_r, Z.add_0_r, Hv; (split; [zdm|fits_is true]).
  - rewrite decide_True, memset_2 by done.
    destruct sg; (split; [cbn; rewrite Z.min_l by lia; reflexivity|cbn; fits_is false]).
Qed.

Lemma IntArg_finish_spec t negative value status N :
  type_ok t -> length value = limbs_for (t_size t) -> holds_value value status N ->
  (negative = true -> t_signed t = true) -> negative_64 t negative = false ->
  IntArg_finished t negative N (IntArg_finish (t_signed t) (t_size t) negative value status).
Proof.
  intros Ht Hl (Hok & HN & Hcase) Hneg Hbad.
  assert (Hs : (t_size t = 1 \/ t_size t = 2 \/ t_size t = 4) \/ t_size t = 8) by (unfold type_ok in Ht; tauto).
  destruct Hs as [Hs|Hs].
  - replace (limbs_for (t_size t)) with 1%nat in Hl by (by destruct Hs as [-> |[-> | ->]]).
    apply length_1 in Hl as [x ->]. apply list.Forall_cons in Hok as [Hx _].
    cbn [length limbs_val] in Hcase. change (limbs_max 1) with 4294967296 in Hcase.
    assert (Hlim : 2 ^ t_bits t + Z.b2z negative <= 4294967296).
    { unfold t_bits. destruct (t_signed t) eqn:Esg, negative; try (by specialize (Hneg eq_refl));
        destruct Hs as [-> |[-> | ->]]; cbn; lia. }
    destruct Hcase as [[-> Hv]|[-> Hv]].
    + assert (x = N) as -> by lia. destruct (Z.lt_ge_cases N (2 ^ t_bits t + Z.b2z negative)).
      * by apply finish_fits_1.
      * apply finish_range_1; try done. by left.
    + apply finish_range_1; try done; [by right|lia].
  - destruct t as [sg sz]. cbn [t_size t_signed] in *. subst sz. apply length_2 in Hl as (x0 & x1 & ->).
    apply list.Forall_cons in Hok as [Hx0 Hok]. apply list.Forall_cons in Hok as [Hx1 _].
    assert (negative = false) as ->.
    { destruct negative; [|done]. unfold negative_64 in Hbad. cbn in Hbad. rewrite (Hneg eq_refl) in Hbad. done. }
    apply finish_2; try done. cbn [length limbs_val] in Hcase. change (limbs_max 2) with 18446744073709551616 in Hcase.
    destruct Hcase as [[-> Hv]|[-> Hv]]; [left; split; [done|lia]|right; by split].
Qed.

(** ** The numbers a configuration may hold *)
(** The digits, whatever the base. *)
Definition digit_value (c : Z) : option Z :=
  if (48 <=? c) && (c <=? 57) then Some (c - 48)
  else if (65 <=? c) && (c <=? 90) then Some (c - 55)
  else if (97 <=? c) && (c <=? 122) then Some (c - 87)
  else None.
(** Digits of base [b], each but the first with an underscore before it or not. *)
Inductive number_body (b : Z) : chars -> Z -> Prop :=
| body_first c d : digit_value c = Some d -> d < b -> number_body b [c] d
| body_digit l v c d :
    number_body b l v -> digit_value c = Some d -> d < b -> number_body b (l ++ [c]) (v * b + d)
| body_underscore l v c d :
    number_body b l v -> digit_value c = Some d -> d < b -> number_body b (l ++ [95; c]) (v * b + d).
(** The base of a number, from its prefix and its first digit. *)
Inductive number_prefix (base : Z) : chars -> Z -> chars -> Prop :=
| prefix_hex x l : base = 0 \/ base = 16 -> x = 120 \/ x = 88 -> number_prefix base [48; x] 16 l
| prefix_binary x l : base = 0 -> x = 98 \/ x = 66 -> number_prefix base [48; x] 2 l
| prefix_octal l : base = 0 -> head l = Some 48 -> number_prefix base [] 8 l
| prefix_decimal l : base = 0 -> head l <> Some 48 -> number_prefix base [] 10 l
| prefix_none l : 2 <= base <= 36 -> number_prefix base [] base l.
Inductive number_sign (is_signed : bool) : chars -> bool -> Prop :=
| sign_none : number_sign is_signed [] false
| sign_plus : number_sign is_signed [43] false
| sign_minus : is_signed = true -> number_sign is_signed [45] true.
(** [l] is a number in base [base] (0: any): its sign and its absolute value. *)
Definition number (base : Z) (is_signed : bool) (l : chars) (negative : bool) (N : Z) : Prop :=
  exists sign pre body b,
    l = sign ++ pre ++ body /\ number_sign is_signed sign negative /\
    number_prefix base pre b body /\ number_body b body N.

(** *** Digits and the characters of a number *)
Lemma digit_value_spec c d : digit_value c = Some d <->
  (48 <= c <= 57 /\ d = c - 48) \/ (65 <= c <= 90 /\ d = c - 55) \/ (97 <= c <= 122 /\ d = c - 87).
Proof.
  unfold digit_value.
  destruct (Z.leb_spec 48 c), (Z.leb_spec c 57), (Z.leb_spec 65 c), (Z.leb_spec c 90), (Z.leb_spec 97 c),
    (Z.leb_spec c 122); cbn [andb]; (split; [intros [= <-] || intros [=]; lia|intros; f_equal; lia || (exfalso; lia)]).
Qed.
Lemma in_range_false c first count : in_range c first count = false <-> ~ first <= c < first + count.
Proof. rewrite <- in_range_spec. by destruct (in_range c first count). Qed.
Lemma is_digit_spec b c : 2 <= b <= 36 -> is_digit b c = true <-> exists d, digit_value c = Some d /\ d < b.
Proof.
  intros Hb. unfold is_digit, max_digits, max_letters.
  rewrite !orb_true_iff, !in_range_spec. destruct (Z.ltb_spec 10 b).
  - split; [|intros (d & ?%digit_value_spec & ?); lia]. intros [[?|?]|?].
    + exists (c - 48). rewrite digit_value_spec. lia.
    + exists (c - 55). rewrite digit_value_spec. lia.
    + exists (c - 87). rewrite digit_value_spec. lia.
  - split; [|intros (d & ?%digit_value_spec & ?); lia]. intros [[?|?]|?]; [|lia..].
    exists (c - 48). rewrite digit_value_spec. lia.
Qed.
Lemma digit_of_value b c d : 2 <= b <= 36 -> digit_value c = Some d -> d < b -> digit_of b c = Some d.
Proof.
  intros Hb Hd%digit_value_spec Hlt. unfold digit_of, max_letters.
  destruct (in_range c 48 10) eqn:E1; [apply in_range_spec in E1; f_equal; lia|apply in_range_false in E1].
  destruct (Z.ltb_spec 10 b); [|lia].
  destruct (in_range c 65 (b - 10)) eqn:E2; [apply in_range_spec in E2; f_equal; lia|apply in_range_false in E2].
  destruct (in_range c 97 (b - 10)) eqn:E3; [apply in_range_spec in E3; f_equal; lia|apply in_range_false in E3].
  lia.
Qed.
(** The other characters of a number are passed over. *)
Lemma digit_of_other b c : c = 95 \/ c = 43 \/ c = 45 -> b <= 36 -> digit_of b c = None.
Proof.
  intros Hc Hb. pose proof (max_letters_range b Hb). unfold digit_of.
  rewrite !(proj2 (in_range_false c _ _)) by lia. done.
Qed.
Lemma digit_of_prefix b c :
  b = 16 /\ (c = 120 \/ c = 88) \/ b = 2 /\ (c = 98 \/ c = 66) -> digit_of b c = None.
Proof. by intros [[-> [-> | ->]]|[-> [-> | ->]]]. Qed.

Lemma digits_from_app b acc l l' :
  digits_from b acc (digits_of b (l ++ l')) = digits_from b (digits_from b acc (digits_of b l)) (digits_of b l').
Proof. unfold digits_from, digits_of. by rewrite omap_app, fold_left_app. Qed.
Lemma digits_from_one b acc c d : digit_of b c = Some d -> digits_from b acc (digits_of b [c]) = acc * b + d.
Proof. intros E. unfold digits_from, digits_of. csimpl. by rewrite E. Qed.
Lemma body_digits b l N : 2 <= b <= 36 -> number_body b l N -> digits_from b 0 (digits_of b l) = N.
Proof.
  intros Hb. induction 1 as [c d Hd Hlt|l v c d Hl IH Hd Hlt|l v c d Hl IH Hd Hlt].
  - rewrite (digits_from_one b 0 c d); [lia|by apply digit_of_value].
  - rewrite digits_from_app, IH. apply digits_from_one. by apply digit_of_value.
  - change [95; c] with ([95] ++ [c]). rewrite digits_from_app, digits_from_app, IH.
    change (digits_of b [95]) with (omap (digit_of b) [95]). csimpl.
    rewrite (digit_of_other b 95) by (lia || by left). cbn [digits_from fold_left].
    apply digits_from_one. by apply digit_of_value.
Qed.

(** *** [span] takes the whole of a number *)
Definition body_char (b c : Z) : Prop := c = 95 \/ exists d, digit_value c = Some d /\ d < b.
Lemma body_chars b l N : number_body b l N -> Forall (body_char b) l.
Proof.
  assert (H95 : body_char b 95) by (by left).
  assert (Hd : forall c d, digit_value c = Some d -> d < b -> body_char b c) by (intros c d; right; eauto).
  induction 1; rewrite ?Forall_app; eauto.
Qed.
Lemma body_head b l N : number_body b l N -> exists c l', l = c :: l' /\ exists d, digit_value c = Some d /\ d < b.
Proof.
  induction 1 as [c d Hd Hlt|l v c d _ (c' & l' & -> & IH) _ _|l v c d _ (c' & l' & -> & IH) _ _].
  - exists c, []. eauto.
  - exists c', (l' ++ [c]). done.
  - exists c', (l' ++ [95; c]). done.
Qed.
Lemma not_digit_95 b : 2 <= b <= 36 -> is_digit b 95 = false.
Proof.
  intros Hb. destruct (is_digit b 95) eqn:E; [|done].
  apply is_digit_spec in E as (d & E%digit_value_spec & _); [lia|done].
Qed.

Lemma span_loop_digit b c d l s ld :
  2 <= b <= 36 -> digit_value c = Some d -> d < b -> span_loop b (c :: l) s ld = span_loop b l (s + 1) (s + 1).
Proof.
  intros Hb Hd Hlt. cbn [span_loop]. pose proof (proj1 (digit_value_spec c d) Hd).
  rewrite (proj2 (Z.eqb_neq c 95)) by lia. cbn [andb].
  by rewrite (proj2 (is_digit_spec b c Hb)) by eauto.
Qed.
Lemma span_loop_95 b l s : span_loop b (95 :: l) s s = span_loop b l (s + 1) s.
Proof. cbn [span_loop]. by rewrite !Z.eqb_refl. Qed.
Lemma span_loop_body b l N : 2 <= b <= 36 -> number_body b l N -> forall rest s ld,
  span_loop b (l ++ rest) s ld = span_loop b rest (s + Z.of_nat (length l)) (s + Z.of_nat (length l)).
Proof.
  intros Hb. induction 1 as [c d Hd Hlt|l v c d _ IH Hd Hlt|l v c d _ IH Hd Hlt]; intros rest s ld.
  - cbn [app length]. by rewrite (span_loop_digit b c d).
  - rewrite <- app_assoc, IH, length_app. cbn [app length]. rewrite (span_loop_digit b c d) by done.
    f_equal; lia.
  - rewrite <- app_assoc, IH, length_app. cbn [app length].
    rewrite span_loop_95,  (span_loop_digit b c d) by done. f_equal; lia.
Qed.
(** What [span_loop] has read, if it reads everything, is a number. *)
Lemma span_loop_sound b l : 2 <= b <= 36 -> forall p v, number_body b p v ->
  (snd (span_loop b l (Z.of_nat (length p)) (Z.of_nat (length p))) = Z.of_nat (length p + length l) ->
   exists N, number_body b (p ++ l) N) /\
  (snd (span_loop b l (Z.of_nat (length p) + 1) (Z.of_nat (length p))) = Z.of_nat (length p + 1 + length l) ->
   exists N, number_body b (p ++ 95 :: l) N).
Proof.
  intros Hb. induction l as [|c l IH]; intros p v Hp.
  { rewrite app_nil_r. cbn [span_loop snd length]. split; [eauto|lia]. }
  cbn [span_loop]. rewrite Z.eqb_refl, andb_true_r. rewrite (proj2 (Z.eqb_neq (Z.of_nat (length p)) (_ + 1))) by lia.
  rewrite andb_false_r. split.
  - destruct (Z.eqb_spec c 95) as [-> |Hne].
    + intros E. apply (IH p v Hp). rewrite E. cbn [length]. lia.
    + destruct (is_digit b c) eqn:Ed; [|cbn [snd length]; lia].
      apply (is_digit_spec b c Hb) in Ed as (d & Hd & Hlt). intros E.
      destruct (proj1 (IH (p ++ [c]) (v * b + d) ltac:(by apply body_digit))) as [N HN].
      { rewrite length_app. cbn [length] in *. rewrite Nat2Z.inj_add. etransitivity; [exact E|lia]. }
      exists N. by rewrite <- app_assoc in HN.
  - destruct (is_digit b c) eqn:Ed; [|cbn [snd length]; lia].
    apply (is_digit_spec b c Hb) in Ed as (d & Hd & Hlt). intros E.
    destruct (proj1 (IH (p ++ [95; c]) (v * b + d) ltac:(by apply body_underscore))) as [N HN].
    { rewrite length_app. cbn [length] in *. rewrite Nat2Z.inj_add.
      replace (Z.of_nat (length p) + Z.of_nat 2) with (Z.of_nat (length p) + 1 + 1) by lia.
      etransitivity; [exact E|lia]. }
    exists N. by rewrite <- app_assoc in HN.
Qed.
Lemma span_loop_all b l : 2 <= b <= 36 ->
  snd (span_loop b l 0 (-1)) = Z.of_nat (length l) -> exists N, number_body b l N.
Proof.
  intros Hb. destruct l as [|c l]; [cbn; lia|]. cbn [span_loop]. change (-1 =? 0) with false. rewrite andb_false_r.
  destruct (is_digit b c) eqn:Ed; [|cbn [snd length]; lia].
  apply (is_digit_spec b c Hb) in Ed as (d & Hd & Hlt). intros E.
  apply (proj1 (span_loop_sound b l Hb [c] d ltac:(by apply body_first))).
  etransitivity; [exact E|]. cbn [length]. lia.
Qed.
Lemma span_loop_bounds b l s ld : 0 <= s -> ld <= s -> let '(s', ld') := span_loop b l s ld in
  s <= s' <= s + Z.of_nat (length l) /\ ld <= ld' <= s'.
Proof.
  revert s ld. induction l as [|c l IH]; intros s ld Hs Hld; cbn [span_loop]; [cbn [length]; lia|].
  destruct ((c =? 95) && (ld =? s)).
  - specialize (IH (s + 1) ld ltac:(lia) ltac:(lia)). destruct span_loop. cbn [length]. lia.
  - destruct (is_digit b c); [|cbn [length]; lia].
    specialize (IH (s + 1) (s + 1) ltac:(lia) ltac:(lia)). destruct span_loop. cbn [length]. lia.
Qed.

Lemma prefix_base base pre b body : number_prefix base pre b body -> 2 <= b <= 36.
Proof. destruct 1; lia. Qed.
Lemma base_prefix_number base pre b body N :
  number_prefix base pre b body -> number_body b body N ->
  base_prefix base (pre ++ body) = (length pre, b) /\ digits_from b 0 (digits_of b pre) = 0.
Proof.
  intros Hp Hb. pose proof (body_head b body N Hb) as (c & l' & E & d & Hd%digit_value_spec & Hlt).
  assert (Hsecond : forall x, default 0 (body !! 1%nat) = x -> x = 0 \/ body_char b x).
  { intros x <-. pose proof (body_chars b body N Hb) as Hc. rewrite E in Hc |- *. destruct l' as [|c' l']; [by left|].
    right. cbn. apply list.Forall_cons in Hc as [_ Hc]. by apply list.Forall_cons in Hc as [? _]. }
  unfold body_char in Hsecond.
  assert (H2 : forall x, 120 = x \/ 88 = x \/ (98 = x \/ 66 = x) /\ b <= 11 -> b <= 16 ->
    (default 0 (body !! 1%nat) =? x) = false).
  { intros x Hx H16. apply Z.eqb_neq. intros [?|[?|(d' & ?%digit_value_spec & ?)]]%Hsecond; lia. }
  destruct Hp as [x l Hbase Hx|x l -> Hx|l -> Hh|l -> Hh|l Hbase]; subst l.
  - split; [|by destruct Hx as [-> | ->]]. destruct Hbase as [-> | ->], Hx as [-> | ->]; reflexivity.
  - split; [|by destruct Hx as [-> | ->]]. destruct Hx as [-> | ->]; reflexivity.
  - split; [|done]. injection Hh as ->. unfold base_prefix. cbn [app]. rewrite !H2 by lia.
    cbn [orb]. rewrite !andb_false_r. reflexivity.
  - split; [|done]. unfold base_prefix. cbn [app]. assert ((c =? 48) = false) as ->.
    { apply Z.eqb_neq. intros ->. by apply Hh. }
    rewrite !andb_false_r. reflexivity.
  - split; [|done]. unfold base_prefix. cbn [app length]. rewrite (proj2 (Z.eqb_neq base 0)) by lia. cbn [orb andb].
    destruct (Z.eqb_spec base 16) as [-> |]; [|done]. rewrite !H2 by lia. cbn [orb]. by rewrite andb_false_r.
Qed.

Lemma number_span base is_signed l negative N : number base is_signed l negative N ->
  exists b, 2 <= b <= 36 /\ l <> [] /\ span l is_signed base = (length l, b) /\
    digits_from b 0 (digits_of b l) = N /\
    is_signed && match l with c :: _ => c =? 45 | [] => false end = negative.
Proof.
  intros (sign & pre & body & b & -> & Hs & Hp & Hb). exists b.
  pose proof (prefix_base _ _ _ _ Hp) as Hr. split; [done|].
  destruct (base_prefix_number _ _ _ _ _ Hp Hb) as [Hbp Hz].
  assert (Hhead : exists c l', pre ++ body = c :: l' /\ 48 <= c).
  { assert (Hpre : pre = [] \/ exists x, pre = [48; x]) by (destruct Hp; eauto).
    destruct (body_head b body N Hb) as (c & l' & -> & d & Hd%digit_value_spec & _).
    destruct Hpre as [-> |[x ->]]; cbn [app]; eexists _, _; (split; [reflexivity|lia]). }
  destruct Hhead as (c & l' & E & Hc).
  assert (Hsign : has_sign is_signed (sign ++ pre ++ body) = negb (length sign =? 0)%nat /\
    (is_signed && match sign ++ pre ++ body with c :: _ => c =? 45 | [] => false end = negative) /\
    digits_from b 0 (digits_of b sign) = 0).
  { rewrite E. destruct Hs as [| |Hsg]; cbn [app has_sign length].
    - rewrite (proj2 (Z.eqb_neq c 45)), (proj2 (Z.eqb_neq c 43)), andb_false_r by lia. done.
    - rewrite andb_false_r. done.
    - rewrite Hsg. done. }
  destruct Hsign as (Hhs & Hneg & Hzs). split; [destruct sign; cbn; [by rewrite E|done]|]. split; [|split; [|exact Hneg]].
  - unfold span. rewrite Hhs.
    assert (Hdrop : drop (if negb (length sign =? 0)%nat then 1 else 0) (sign ++ pre ++ body) = pre ++ body)
      by (by destruct Hs).
    rewrite Hdrop, Hbp.
    assert (Hlen : (if negb (length sign =? 0)%nat then 1%nat else 0%nat) = length sign) by (by destruct Hs).
    rewrite Hlen, (app_assoc sign pre body), drop_app_length' by (by rewrite length_app).
    rewrite <- (app_nil_r body) at 1. rewrite (span_loop_body b body N Hr Hb). cbn [span_loop].
    destruct (body_head b body N Hb) as (c' & l'' & -> & _).
    rewrite (proj2 (Z.eqb_neq _ 0)) by (cbn [length]; lia). cbn [negb]. f_equal. rewrite !length_app. lia.
  - by rewrite digits_from_app, Hzs, digits_from_app, Hz, (body_digits b body N).
Qed.

Lemma base_prefix_inv base l : 2 <= snd (base_prefix base l) <= 36 ->
  number_prefix base (take (fst (base_prefix base l)) l) (snd (base_prefix base l)) (drop (fst (base_prefix base l)) l) /\
  (fst (base_prefix base l) <= length l)%nat.
Proof.
  unfold base_prefix.
  set (zero := match l with c :: _ => c =? 48 | [] => false end).
  assert (Hz : zero = true <-> head l = Some 48).
  { unfold zero. destruct l as [|c l]; cbn; [done|]. rewrite Z.eqb_eq. split; [by intros ->|by intros [= ->]]. }
  destruct (((base =? 0) || (base =? 16)) && (2 <? length l)%nat && zero &&
    ((default 0 (l !! 1%nat) =? 120) || (default 0 (l !! 1%nat) =? 88))) eqn:E1.
  { intros _. cbn [fst snd]. rewrite !andb_true_iff, !orb_true_iff, !Z.eqb_eq, Hz, Nat.ltb_lt in E1.
    destruct E1 as (((Hbase & Hl) & H0) & Hx). destruct l as [|c0 [|c1 l]]; cbn in *; [lia..|].
    injection H0 as ->. rewrite drop_0, take_0. split; [|lia]. by apply prefix_hex. }
  destruct ((base =? 0) && (2 <? length l)%nat && zero &&
    ((default 0 (l !! 1%nat) =? 98) || (default 0 (l !! 1%nat) =? 66))) eqn:E2.
  { intros _. cbn [fst snd]. rewrite !andb_true_iff, !orb_true_iff, !Z.eqb_eq, Hz, Nat.ltb_lt in E2.
    destruct E2 as (((Hbase & Hl) & H0) & Hx). destruct l as [|c0 [|c1 l]]; cbn in *; [lia..|].
    injection H0 as ->. rewrite drop_0, take_0. split; [|lia]. by apply prefix_binary. }
  clear E1 E2. destruct (Z.eqb_spec base 0) as [-> |Hne]; cbn [andb].
  - destruct zero; cbn [fst snd]; rewrite take_0, drop_0; (split; [|lia]).
    + apply prefix_octal; [done|]. by apply Hz.
    + apply prefix_decimal; [done|]. intros H0%Hz. done.
  - cbn [fst snd]. rewrite take_0, drop_0. intros. split; [by apply prefix_none|lia].
Qed.
Lemma span_number is_signed base l b : 2 <= b <= 36 -> l <> [] -> span l is_signed base = (length l, b) ->
  exists negative N, number base is_signed l negative N.
Proof.
  intros Hb Hne. unfold span. set (sign := if has_sign is_signed l then 1%nat else 0%nat).
  assert (Hs : (sign <= length l)%nat) by (unfold sign; destruct l, is_signed; cbn; repeat case_match; lia).
  assert (Hsg : exists negative, number_sign is_signed (take sign l) negative).
  { unfold sign. destruct (has_sign is_signed l) eqn:E; [|rewrite take_0; eexists; constructor].
    destruct l as [|c l]; [done|]. cbn in E |- *. rewrite take_0, orb_true_iff, andb_true_iff, !Z.eqb_eq in *.
    destruct E as [[-> ->]| ->]; eexists; by constructor. }
  destruct Hsg as [negative Hsg]. pose proof (base_prefix_inv base (drop sign l)) as Hp.
  destruct (base_prefix base (drop sign l)) as [pre b']. cbn [fst snd] in Hp.
  set (first := (sign + pre)%nat). rewrite drop_drop in Hp. fold first in Hp.
  pose proof (span_loop_bounds b' (drop first l) 0 (-1) ltac:(lia) ltac:(lia)) as Hbd.
  destruct (span_loop b' (drop first l) 0 (-1)) as [s ld] eqn:E. intros [= Hn ->].
  destruct (Hp Hb) as [Hpre Hl]. rewrite length_drop in Hbd, Hl. clear Hp.
  exists negative. assert (Hfirst : (first <= length l)%nat) by (unfold first; lia).
  destruct (Z.eqb_spec s 0) as [-> |Hs0]; cbn [negb] in Hn.
  { exfalso. destruct (Nat.ltb_spec 1 first); [lia|]. by destruct l. }
  destruct (span_loop_all b (drop first l) Hb) as [N HN]; [rewrite E, length_drop; cbn [snd]; lia|].
  exists N, (take sign l), (take pre (drop sign l)), (drop first l), b. split_and!; try done.
  unfold first. by rewrite <- drop_drop, !take_drop.
Qed.

(** ** What [parse] makes of a number *)
Lemma limbs_for_S t : type_ok t -> exists k, limbs_for (t_size t) = S k.
Proof. intros [-> |[-> |[-> | ->]]]; by eexists. Qed.
Lemma parse_limbs_number fast base t l negative N :
  type_ok t -> number base (t_signed t) l negative N ->
  exists value status,
    IntArg_parse_limbs fast base (t_signed t) (t_size t) (limbs_for (t_size t)) l =
      (let '(value, status) := IntArg_finish (t_signed t) (t_size t) negative value status in
       (length l, value, status)) /\
    length value = limbs_for (t_size t) /\ holds_value value status N.
Proof.
  intros Ht (b & Hb & Hne & Hspan & Hd & Hneg)%number_span. unfold IntArg_parse_limbs.
  rewrite Hspan, (proj2 (Z.ltb_ge b 2)), (proj2 (Z.ltb_ge 36 b)) by lia.
  rewrite (proj2 (Nat.eqb_neq (length l) 0)) by (by destruct l). cbn [orb].
  rewrite firstn_all, Hneg. destruct (limbs_for_S t Ht) as [k ->]. cbn [replicate].
  destruct (digits_loop_run fast b l 0 k Hb ltac:(change threshold with 119304647; lia)) as (value & status & -> & Hl & Hh).
  rewrite Hd in Hh. by exists value, status.
Qed.
Lemma number_negative base is_signed l negative N :
  number base is_signed l negative N -> negative = true -> is_signed = true.
Proof. intros (sign & pre & body & b & _ & Hs & _) ->. by inversion Hs. Qed.
Lemma fits_saturate t n : fits t n = true -> saturate t n = n.
Proof. unfold fits, saturate. rewrite andb_true_iff, !Z.leb_le. lia. Qed.
Lemma number_nonneg base is_signed l negative N : number base is_signed l negative N -> 0 <= N.
Proof.
  intros (sign & pre & body & b & _ & _ & Hp%prefix_base & Hb).
  induction Hb as [c d Hd%digit_value_spec|l' v c d _ IH Hd%digit_value_spec|l' v c d _ IH Hd%digit_value_spec]; nia.
Qed.

(** C32: [IntArg] gives a number of a configuration its value: if the string is a number in the
    base asked for (0 for any, with the prefixes "0x", "0b" and "0"), [parse] succeeds exactly if
    the value fits the type, and [parse_saturating] otherwise gives the nearest value of the type
    with [status_range]. Negative numbers for 64-bit types are the exception. *)
Theorem IntArg_parses_numbers fast base t l negative N :
  type_ok t -> number base (t_signed t) l negative N -> negative_64 t negative = false ->
  let n := if negative then - N else N in
  IntArg_parse_saturating fast base t l = (Some (saturate t n), if fits t n then status_ok else status_range) /\
  IntArg_parse fast base t l = if fits t n then Some n else None.
Proof.
  intros Ht Hnum Hbad. cbv zeta. unfold IntArg_parse.
  assert (IntArg_parse_saturating fast base t l =
    (Some (saturate t (if negative then - N else N)), if fits t (if negative then - N else N) then status_ok else status_range)) as ->.
  { unfold IntArg_parse_saturating.
    destruct (parse_limbs_number fast base t l negative N Ht Hnum) as (value & status & -> & Hl & Hh).
    destruct (IntArg_finish_spec t negative value status N Ht Hl Hh (number_negative _ _ _ _ _ Hnum) Hbad) as [Hv Hs].
    destruct IntArg_finish as [value' status']. cbn [fst snd] in Hv, Hs. rewrite Nat.eqb_refl, Hv, Hs. by destruct fits. }
  split; [done|]. destruct (fits t _) eqn:E; [|done]. by rewrite fits_saturate.
Qed.

Lemma finish_status is_signed size negative value status :
  status <> status_inval -> snd (IntArg_finish is_signed size negative value status) <> status_inval.
Proof.
  intros Hs. unfold IntArg_finish. cbn [snd]. destruct (decide (status = status_ok)) as [-> |]; [|done].
  generalize (size * 8 - Z.b2z is_signed) as bits, 0 as bpos. clear. induction value as [|x value IH]; intros; cbn [check_limbs]; [done|].
  destruct (_ || _); [done|apply IH].
Qed.
Lemma parsed_is_number fast base t l v status :
  IntArg_parse_saturating fast base t l = (Some v, status) ->
  exists negative N, number base (t_signed t) l negative N.
Proof.
  unfold IntArg_parse_saturating, IntArg_parse_limbs. intros E.
  destruct (span l (t_signed t) base) as [n b] eqn:Es.
  destruct ((b <? 2) || (36 <? b) || (n =? 0)%nat) eqn:Eb; [by destruct (0 =? length l)%nat|].
  rewrite !orb_false_iff, !Z.ltb_ge, Nat.eqb_neq in Eb. destruct digits_loop as [value st].
  destruct IntArg_finish as [value' st']. destruct (Nat.eqb_spec n (length l)) as [-> |]; [|done].
  apply (span_number (t_signed t) base l b); [lia|by destruct l; [cbn in Eb; lia|]|done].
Qed.
(** C33: [IntArg] accepts the numbers of its base and no other string. *)
Theorem IntArg_accepts_numbers fast base t l :
  type_ok t ->
  ((exists v status, IntArg_parse_saturating fast base t l = (Some v, status)) <->
   (exists negative N, number base (t_signed t) l negative N)).
Proof.
  intros Ht. split.
  - intros (v & status & E). by eapply parsed_is_number.
  - intros (negative & N & Hnum). unfold IntArg_parse_saturating.
    destruct (parse_limbs_number fast base t l negative N Ht Hnum) as (value & status & -> & _ & _ & _ & Hst).
    pose proof (finish_status (t_signed t) (t_size t) negative value status ltac:(by destruct Hst as [[-> _]|[-> _]])) as Hf.
    destruct IntArg_finish as [value' status']. cbn [snd] in Hf. rewrite Nat.eqb_refl, decide_False by done. eauto.
Qed.

(** Negative numbers of 64 bits: the limb above the lowest is one too large if neither is zero. *)
Lemma finish_negative_64 x0 x1 status N :
  limb x0 -> limb x1 ->
  (status = status_ok /\ x0 + 4294967296 * x1 = N \/ status = status_range /\ 18446744073709551616 <= N) ->
  let '(value, status') := IntArg_finish true 8 true [x0; x1] status in
  if N <? 2 ^ 63 + 2 ^ 32
  then extract_integer true 8 value =
         to_type true 8 (- N + (if (x0 =? 0) || (x1 =? 0) then 0 else 2 ^ 32)) /\ status' = status_ok
  else extract_integer true 8 value = - 2 ^ 63 /\ status' = status_range.
Proof.
  intros H0 H1 Hst. pose proof H0 as H0'. pose proof H1 as H1'. unfold limb in H0', H1'. unfold IntArg_finish.
  assert ((if decide (status = status_ok) then check_limbs (8 * 8 - Z.b2z true) true 0 [x0; x1] else status) =
    if N <? 2 ^ 63 + 2 ^ 32 then status_ok else status_range) as ->.
  { change (2 ^ 63 + 2 ^ 32) with 9223372041149743104. destruct Hst as [[-> Hv]|[-> Hv]].
    - rewrite decide_True, check_limbs_2 by done. cbn [andb Z.b2z].
      destruct (Z.leb_spec (2147483648 + 1) x1), (Z.ltb_spec N 9223372041149743104); done || lia.
    - rewrite decide_False by done. destruct (Z.ltb_spec N 9223372041149743104); done || lia. }
  destruct (Z.ltb_spec N (2 ^ 63 + 2 ^ 32)) as [Hlt|Hge].
  - rewrite decide_False by done. split; [|done]. destruct Hst as [[_ <-]|[_ Hv]]; [|lia].
    unfold negate. cbn [map first_zero]. unfold extract_integer, u32.
    destruct (Z.eqb_spec x0 0) as [-> |Hx0], (Z.eqb_spec x1 0) as [-> |Hx1]; cbn [orb].
    + reflexivity.
    + change (- 0 mod 4294967296) with 0. cbn. rewrite (proj2 (Z.eqb_neq _ 0)) by zdm. cbn. unfold to_type. zdm.
    + change (- 0 mod 4294967296) with 0. cbn. rewrite (proj2 (Z.eqb_neq _ 0)) by zdm. cbn. unfold to_type. cbn. zdm.
    + rewrite !(proj2 (Z.eqb_neq _ 0)) by zdm. cbn. unfold to_type. cbn. zdm.
  - by rewrite decide_True, memset_2 by done.
Qed.

(** C34: For 64-bit types [parse] adds 2^32 to a negative number whose two limbs are both not
    zero (the negation decrements only the limbs behind the last that is not zero), and takes
    2^32 - 1 numbers below the smallest of the type to be in range (the top limb may be one
    more than its limit, whatever the limb below). *)
Theorem IntArg_negative_64 fast base l N :
  number base true l true N ->
  IntArg_parse fast base (IntType true 8) l =
    if N <? 2 ^ 63 + 2 ^ 32
    then Some (to_type true 8 (- N + (if (N mod 2 ^ 32 =? 0) || (N <? 2 ^ 32) then 0 else 2 ^ 32)))
    else None.
Proof.
  intros Hnum. unfold IntArg_parse, IntArg_parse_saturating. pose proof (number_nonneg _ _ _ _ _ Hnum).
  destruct (parse_limbs_number fast base (IntType true 8) l true N ltac:(unfold type_ok; cbn; lia) Hnum)
    as (value & status & -> & Hl & Hok & _ & Hcase).
  cbn [t_size t_signed] in *. change (limbs_for 8) with 2%nat in Hl. apply length_2 in Hl as (x0 & x1 & ->).
  apply list.Forall_cons in Hok as [Hx0 Hok]. apply list.Forall_cons in Hok as [Hx1 _].
  cbn [length limbs_val] in Hcase. change (limbs_max 2) with 18446744073709551616 in Hcase.
  assert (Hst : status = status_ok /\ x0 + 4294967296 * x1 = N \/ status = status_range /\ 18446744073709551616 <= N)
    by (destruct Hcase as [[-> ?]|[-> ?]]; [left|right]; split; done || lia).
  pose proof (finish_negative_64 x0 x1 status N Hx0 Hx1 Hst) as Hf. destruct IntArg_finish as [value' status'].
  rewrite Nat.eqb_refl. unfold limb in *. destruct (Z.ltb_spec N (2 ^ 63 + 2 ^ 32)) as [Hlt|Hge].
  - destruct Hf as [-> ->]. destruct Hst as [[_ Hv]|[_ Hv]]; [|lia].
    assert ((N mod 2 ^ 32 =? 0) = (x0 =? 0)) as -> by (f_equal; change (2 ^ 32) with 4294967296; zdm).
    assert ((N <? 2 ^ 32) = (x1 =? 0)) as ->
      by (change (2 ^ 32) with 4294967296; destruct (Z.ltb_spec N 4294967296), (Z.eqb_spec x1 0); done || lia).
    rewrite decide_False by done. done.
  - by destruct Hf as [_ ->].
Qed.

(** [BoundedIntArg] succeeds exactly on the numbers between its bounds. *)
Theorem BoundedIntArg_bounds fast base lo hi t l negative N :
  type_ok t -> number base (t_signed t) l negative N -> negative_64 t negative = false ->
  t_min t <= lo -> hi <= t_max t ->
  let n := if negative then - N else N in
  BoundedIntArg_parse fast base lo hi t l = if (lo <=? n) && (n <=? hi) then Some n else None.
Proof.
  intros Ht Hnum Hbad Hlo Hhi. cbv zeta. unfold BoundedIntArg_parse.
  destruct (IntArg_parses_numbers fast base t l negative N Ht Hnum Hbad) as [_ ->].
  generalize (if negative then - N else N). intros n. unfold fits.
  destruct (Z.leb_spec (t_min t) n), (Z.leb_spec n (t_max t)); cbn [andb]; [done|..];
    destruct (Z.leb_spec lo n), (Z.leb_spec n hi); done || lia.
Qed.

(** ** Instances *)
Lemma number_hex : number 0 true (str "-0x1F") true 31.
Proof.
  exists [45], [48; 120], [49; 70], 16. split; [reflexivity|]. split; [by constructor|].
  split; [apply prefix_hex; by left|]. apply (body_digit 16 [49] 1 70 15); [by apply body_first|done..].
Defined.
Lemma number_big : number 10 true (str "-4294967297") true 4294967297.
Proof.
  exists [45], [], (str "4294967297"), 10. split; [reflexivity|]. split; [by constructor|]. split; [by apply prefix_none|].
  apply (body_digit 10 (str "429496729") 429496729 55 7); [|done..].
  apply (body_digit 10 (str "42949672") 42949672 57 9); [|done..].
  apply (body_digit 10 (str "4294967") 4294967 50 2); [|done..].
  apply (body_digit 10 (str "429496") 429496 55 7); [|done..].
  apply (body_digit 10 (str "42949") 42949 54 6); [|done..].
  apply (body_digit 10 (str "4294") 4294 57 9); [|done..].
  apply (body_digit 10 (str "429") 429 52 4); [|done..].
  apply (body_digit 10 (str "42") 42 57 9); [|done..].
  apply (body_digit 10 (str "4") 4 50 2); [|done..]. by apply body_first.
Defined.
Lemma IntArg_parses_numbers_witness :
  IntArg_parse_saturating true 0 (IntType true 4) (str "-0x1F") = (Some (-31), status_ok) /\
  IntArg_parse true 0 (IntType true 4) (str "-0x1F") = Some (-31).
Proof. apply (IntArg_parses_numbers true 0 (IntType true 4) _ true 31); [by right; right; left|exact number_hex|done]. Defined.
Lemma IntArg_accepts_numbers_witness :
  (exists v status, IntArg_parse_saturating false 0 (IntType true 4) (str "-0x1F") = (Some v, status)).
Proof. apply (IntArg_accepts_numbers false 0 (IntType true 4)); [by right; right; left|]. exists true, 31. exact number_hex. Defined.
(** "-4294967297" is read as -1. *)
Lemma IntArg_negative_64_witness : IntArg_parse true 10 (IntType true 8) (str "-4294967297") = Some (-1).
Proof. rewrite (IntArg_negative_64 true 10 _ _ number_big). reflexivity. Defined.
