(* ===== verification/Checksum.v ===== *)
(** * Internet checksums: [lib/in_cksum.c] and the inline helpers of [clicknet/ip.h]

    The summing loop keeps a 32-bit accumulator and folds it twice; the pseudo-header and the
    RFC 1624 incremental update work on the folded value.  The lemmas relate all three to one
    arithmetic quantity, the sum of the 16-bit words modulo 65535. *)
From Stdlib Require Import ZArith Lia.
From stdpp Require Import base list numbers option.
From S2P Require Import Prelude.

(** ** The code *)

(** The [while (nleft > 1)] loop and the odd byte, on the bytes at [addr]. *)
Fixpoint cksum_loop (addr : list Z) (sum : Z) : Z :=
  match addr with
  | a :: b :: w => cksum_loop w (u32 (sum + (a + 256 * b)))
  | [a] => u32 (sum + a)
  | [] => sum
  end.

Definition cksum_fold (sum : Z) : Z :=
  let sum := u32 (Z.land sum 0xffff + Z.shiftr sum 16) in
  let sum := u32 (sum + Z.shiftr sum 16) in
  u16 (Z.lnot sum).

Definition click_in_cksum (addr : list Z) : Z := cksum_fold (cksum_loop addr 0).

Definition click_in_cksum_pseudohdr_raw (csum src dst proto packet_len : Z) : res Z :=
  if csum <=? 0xFFFF then
    let csum := Z.land (Z.lnot csum) 0xFFFF in
    let csum := u32 (csum + (Z.land src 0xffff + Z.shiftr src 16)) in
    let csum := u32 (csum + (Z.land dst 0xffff + Z.shiftr dst 16)) in
    let csum := u32 (csum + (htons packet_len + htons proto)) in
    let csum := u32 (Z.land csum 0xffff + Z.shiftr csum 16) in
    Ok (Z.land (Z.lnot (csum + Z.shiftr csum 16)) 0xFFFF)
  else Fault AssertFailed.

Definition IPOPT_EOL : Z := 0.
Definition IPOPT_NOP : Z := 1.
Definition IPOPT_LSRR : Z := 131.
Definition IPOPT_SSRR : Z := 137.

(** The option scan of [click_in_cksum_pseudohdr_hard]: [opt] and [end_opt] are offsets from
    [iph]; the result is the destination the pseudo-header uses.  Each round advances [opt],
    so [end_opt] rounds are enough. *)
Fixpoint pseudohdr_daddr (fuel : nat) (iph : list Z) (opt end_opt : nat) : res Z :=
  match fuel with
  | O => ld 4 iph 16
  | S fuel' =>
      if (opt <? end_opt)%nat then
        t ← ld 1 iph opt;
        if t =? IPOPT_NOP then pseudohdr_daddr fuel' iph (opt + 1) end_opt
        else if t =? IPOPT_EOL then ld 4 iph 16
        else if (end_opt <=? opt + 1)%nat then ld 4 iph 16
        else
          l ← ld 1 iph (opt + 1);
          if (l <? 2) || (end_opt <? opt + Z.to_nat l)%nat then ld 4 iph 16
          else if ((t =? IPOPT_SSRR) || (t =? IPOPT_LSRR)) && (7 <=? l)
          then ld 4 iph (opt + Z.to_nat l - 4)
          else pseudohdr_daddr fuel' iph (opt + Z.to_nat l) end_opt
      else ld 4 iph 16
  end.

Definition click_in_cksum_pseudohdr_hard (csum : Z) (iph : list Z) (packet_len : Z) : res Z :=
  b0 ← ld 1 iph 0;
  let hlen := Z.to_nat (Z.shiftl (Z.land b0 15) 2) in
  daddr ← pseudohdr_daddr hlen iph 20 hlen;
  src ← ld 4 iph 12;
  proto ← ld 1 iph 9;
  click_in_cksum_pseudohdr_raw csum src daddr proto packet_len.

(** [iph] is the memory from the IP header on. *)
Definition click_in_cksum_pseudohdr (data_csum : Z) (iph : list Z) (transport_len : Z) : res Z :=
  b0 ← ld 1 iph 0;
  if Z.land b0 15 =? 5 then
    src ← ld 4 iph 12; dst ← ld 4 iph 16; proto ← ld 1 iph 9;
    click_in_cksum_pseudohdr_raw data_csum src dst proto transport_len
  else click_in_cksum_pseudohdr_hard data_csum iph transport_len.

Definition click_update_in_cksum (csum old_hw new_hw : Z) : Z :=
  let sum := u32 (Z.land (Z.lnot csum) 0xFFFF + Z.land (Z.lnot old_hw) 0xFFFF + new_hw) in
  let sum := u32 (Z.land sum 0xFFFF + Z.shiftr sum 16) in
  u16 (Z.lnot (sum + Z.shiftr sum 16)).

Definition click_update_zero_in_cksum_hard (csum : Z) (x : list Z) : Z :=
  if forallb (fun b => b =? 0) x then u16 (Z.lnot 0) else csum.

Definition click_update_zero_in_cksum (csum : Z) (x : list Z) : Z :=
  if csum =? 0 then click_update_zero_in_cksum_hard csum x else csum.

(** ** Words and their one's-complement sum *)

Fixpoint wsum (l : list Z) : Z :=
  match l with
  | a :: b :: w => (a + 256 * b) + wsum w
  | [a] => a
  | [] => 0
  end.

(** The 16-bit one's-complement representative of a sum: 0 only for 0, else in [1, 65535]. *)
Definition ocfold (x : Z) : Z := if x =? 0 then 0 else (x - 1) mod 65535 + 1.

(** RFC 1071's end-around-carry addition, and the reference checksum built from it. *)
Definition oc_add (a b : Z) : Z := let s := a + b in if s <? 65536 then s else s - 65535.
Fixpoint oc_sum (l : list Z) (acc : Z) : Z :=
  match l with
  | a :: b :: w => oc_sum w (oc_add acc (a + 256 * b))
  | [a] => oc_add acc a
  | [] => acc
  end.
Definition rfc1071_checksum (l : list Z) : Z := 65535 - oc_sum l 0.

(** ** Arithmetic of the folds *)

Lemma list_pair_ind {A} (P : list A -> Prop) :
  P [] -> (forall a, P [a]) -> (forall a b l, P l -> P (a :: b :: l)) -> forall l, P l.
Proof.
  intros H0 H1 H2 l. enough (P l /\ forall a, P (a :: l)) by tauto.
  induction l as [|a l [IH1 IH2]]; split; auto.
Qed.

Lemma wsum_bounds l :
  bytes_ok l -> 0 <= wsum l /\ 2 * wsum l <= 65535 * (Z.of_nat (length l) + 1).
Proof.
  induction l as [|a|a b l IH] using list_pair_ind; intros H; simpl.
  - lia.
  - apply bytes_ok_cons in H as [? _]. lia.
  - apply bytes_ok_cons in H as [? [? H]%bytes_ok_cons]. specialize (IH H). lia.
Qed.

Lemma wsum_app l1 l2 :
  Nat.even (length l1) = true -> wsum (l1 ++ l2) = wsum l1 + wsum l2.
Proof.
  induction l1 as [|a|a b l IH] using list_pair_ind; intros H; simpl in *; [lia|done|].
  rewrite IH by done. lia.
Qed.

Lemma wsum_replicate_zero n : wsum (replicate n 0) = 0.
Proof.
  enough (wsum (replicate n 0) = 0 /\ wsum (replicate (S n) 0) = 0) by tauto.
  induction n as [|n [IH1 IH2]]; split; simpl in *; [done|done|done|].
  destruct n; simpl in *; lia.
Qed.

Lemma ocfold_range x : 0 <= x -> 0 <= ocfold x < 65536.
Proof. intros. unfold ocfold. destruct (Z.eqb_spec x 0); zdm. Qed.

Lemma ocfold_small x : 0 <= x < 65536 -> ocfold x = x.
Proof. intros. unfold ocfold. destruct (Z.eqb_spec x 0); zdm. Qed.

Lemma ocfold_unique x y k :
  0 < y <= 65535 -> 0 < x -> x = y + 65535 * k -> ocfold x = y.
Proof.
  intros Hy Hx ->. unfold ocfold. destruct (Z.eqb_spec (y + 65535 * k) 0); [lia|].
  enough ((y + 65535 * k - 1) mod 65535 = y - 1) by lia.
  symmetry. apply (Z.mod_unique _ _ k); lia.
Qed.

(** Every positive sum is its representative plus a multiple of 65535. *)
Lemma ocfold_spec x : 0 < x -> exists k, 0 <= k /\ x = ocfold x + 65535 * k /\ 0 < ocfold x <= 65535.
Proof.
  intros Hx. exists ((x - 1) / 65535). unfold ocfold. destruct (Z.eqb_spec x 0); [lia|].
  pose proof (Z.div_mod (x - 1) 65535). pose proof (Z.mod_pos_bound (x - 1) 65535).
  pose proof (Z.div_pos (x - 1) 65535). lia.
Qed.

Lemma ocfold_zero x : 0 <= x -> ocfold x = 0 <-> x = 0.
Proof.
  intros. split; [|by intros ->]. intros Hz. destruct (Z.eq_dec x 0); [done|].
  destruct (ocfold_spec x) as (k & ? & ? & ?); lia.
Qed.

Lemma ocfold_add_l x y : 0 <= x -> 0 <= y -> ocfold (ocfold x + y) = ocfold (x + y).
Proof.
  intros Hx Hy. destruct (Z.eq_dec x 0) as [->|]; [done|].
  destruct (ocfold_spec x) as (k & ? & Hk & ?); [lia|].
  destruct (ocfold_spec (x + y)) as (k' & ? & Hk' & ?); [lia|].
  apply (ocfold_unique _ _ (k' - k)); lia.
Qed.

Lemma ocfold_add_r x y : 0 <= x -> 0 <= y -> ocfold (x + ocfold y) = ocfold (x + y).
Proof. intros. by rewrite Z.add_comm, ocfold_add_l, Z.add_comm. Qed.

Lemma ocfold_complement x : 0 <= x -> ocfold (x + (65535 - ocfold x)) = 65535.
Proof.
  intros Hx. destruct (Z.eq_dec x 0) as [->|]; [done|].
  destruct (ocfold_spec x) as (k & ? & Hk & ?); [lia|].
  apply (ocfold_unique _ _ k); lia.
Qed.

Lemma ocfold_max x : 0 <= x -> ocfold x = 65535 <-> 0 < x /\ x mod 65535 = 0.
Proof.
  intros. unfold ocfold. destruct (Z.eqb_spec x 0).
  - subst. split; lia.
  - split; intros; [split; [lia|]|]; zdm.
Qed.

Lemma land_ffff x : Z.land x 0xffff = x mod 65536.
Proof. change 0xffff with (Z.ones 16). by rewrite Z.land_ones. Qed.
Lemma shiftr_16 x : Z.shiftr x 16 = x / 65536.
Proof. by rewrite Z.shiftr_div_pow2. Qed.
Lemma lnot_alt x : Z.lnot x = - x - 1.
Proof. unfold Z.lnot. lia. Qed.
Lemma lnot_mod z : Z.lnot z mod 65536 = 65535 - z mod 65536.
Proof. rewrite lnot_alt. zdm. Qed.
Lemma lnot_ffff x : 0 <= x < 65536 -> Z.land (Z.lnot x) 0xffff = 65535 - x.
Proof.
  intros. rewrite land_ffff, lnot_alt. symmetry. apply (Z.mod_unique _ _ (-1)); lia.
Qed.

(** One fold of a 32-bit sum, then the second one truncated to 16 bits. *)
Lemma fold_twice x :
  0 <= x < 4294967296 ->
  let y := x mod 65536 + x / 65536 in
  0 <= y < 131072 /\ 0 <= y + y / 65536 < 131072 /\ (y + y / 65536) mod 65536 = ocfold x.
Proof.
  intros Hx y. assert (Hy : 0 <= y < 131072) by (subst y; zdm).
  assert (Hy2 : y < 131071) by (subst y; zdm).
  assert (0 <= y / 65536 <= 1) by zdm. split; [lia|]. split; [lia|].
  destruct (Z.eq_dec x 0) as [->|]; [done|].
  assert (Hyx : exists k, x = y + 65535 * k) by (exists (x / 65536); subst y; zdm).
  destruct Hyx as [k Hk]. assert (0 < y) by (subst y; zdm).
  symmetry. destruct (decide (y < 65536)).
  - rewrite (Z.div_small y) by lia. rewrite Z.add_0_r, Z.mod_small by lia.
    apply (ocfold_unique _ _ k); lia.
  - replace (y / 65536) with 1 by zdm.
    replace ((y + 1) mod 65536) with (y - 65535) by zdm.
    apply (ocfold_unique _ _ (k + 1)); lia.
Qed.

Lemma cksum_fold_spec x : 0 <= x < 4294967296 -> cksum_fold x = 65535 - ocfold x.
Proof.
  intros Hx. unfold cksum_fold. rewrite land_ffff, !shiftr_16.
  destruct (fold_twice x Hx) as (Hy & Hz & <-).
  rewrite (u32_small (x mod 65536 + x / 65536)) by lia.
  rewrite u32_small by lia. unfold u16. apply lnot_mod.
Qed.

Lemma u32_add_l x y : u32 (u32 x + y) = u32 (x + y).
Proof. unfold u32. by rewrite Zplus_mod_idemp_l. Qed.

Lemma u32_add3 a b c d : u32 (u32 (u32 (a + b) + c) + d) = u32 (a + b + c + d).
Proof. rewrite (u32_add_l (a + b) c), u32_add_l. done. Qed.

Lemma cksum_loop_spec l s : cksum_loop l (u32 s) = u32 (s + wsum l).
Proof.
  revert s. induction l as [|a|a b l IH] using list_pair_ind; intros s; simpl.
  - by rewrite Z.add_0_r.
  - apply u32_add_l.
  - rewrite u32_add_l, IH. f_equal. lia.
Qed.

(** ** What the checksum computes *)

(** The accumulator cannot wrap on fewer than 131072 bytes, longer than any IP packet. *)
Lemma wsum_u32 l : bytes_ok l -> Z.of_nat (length l) < 131072 -> 0 <= wsum l < 4294967296.
Proof. intros H Hl. pose proof (wsum_bounds l H). lia. Qed.

Lemma click_in_cksum_spec l :
  bytes_ok l -> Z.of_nat (length l) < 131072 -> click_in_cksum l = 65535 - ocfold (wsum l).
Proof.
  intros H Hl. unfold click_in_cksum. change 0 with (u32 0) at 1.
  rewrite cksum_loop_spec, Z.add_0_l.
  pose proof (wsum_u32 l H Hl). rewrite u32_small by done. by apply cksum_fold_spec.
Qed.

Lemma cksum_range l : 0 <= click_in_cksum l < 65536.
Proof. apply u16_range. Qed.

(** A range verifies when its checksum is 0: its words sum to a positive multiple of 65535. *)
Lemma cksum_zero_iff l :
  bytes_ok l -> Z.of_nat (length l) < 131072 ->
  click_in_cksum l = 0 <-> 0 < wsum l /\ wsum l mod 65535 = 0.
Proof.
  intros H Hl. rewrite click_in_cksum_spec by done.
  pose proof (wsum_u32 l H Hl). rewrite <- ocfold_max by lia.
  pose proof (ocfold_range (wsum l)). lia.
Qed.

Lemma oc_add_spec a b : 0 <= a < 65536 -> 0 <= b < 65536 -> oc_add a b = ocfold (a + b).
Proof.
  intros. unfold oc_add. destruct (Z.ltb_spec (a + b) 65536).
  - symmetry. apply ocfold_small. lia.
  - symmetry. apply (ocfold_unique _ _ 1); lia.
Qed.

Lemma oc_sum_spec l acc :
  bytes_ok l -> 0 <= acc < 65536 -> oc_sum l acc = ocfold (acc + wsum l).
Proof.
  revert acc. induction l as [|a|a b l IH] using list_pair_ind; intros acc H Hacc; simpl.
  - by rewrite Z.add_0_r, ocfold_small.
  - apply bytes_ok_cons in H as [? _]. apply oc_add_spec; lia.
  - apply bytes_ok_cons in H as [? [? H]%bytes_ok_cons].
    pose proof (wsum_bounds l H). rewrite oc_add_spec by lia.
    rewrite IH by (done || (apply ocfold_range; lia)).
    rewrite ocfold_add_l by lia. f_equal. lia.
Qed.

(** C13: on every byte range an IP packet can hold, the code's deferred-carry loop computes the
    RFC 1071 checksum, the complement of the end-around-carry sum of the words. *)
Theorem click_in_cksum_rfc1071 l :
  bytes_ok l -> Z.of_nat (length l) < 131072 -> click_in_cksum l = rfc1071_checksum l.
Proof.
  intros H Hl. unfold rfc1071_checksum.
  by rewrite click_in_cksum_spec, oc_sum_spec by (done || lia).
Qed.

Theorem click_in_cksum_rfc1071_witness :
  click_in_cksum [69; 0; 0; 52; 255; 255; 7] = rfc1071_checksum [69; 0; 0; 52; 255; 255; 7].
Proof. apply click_in_cksum_rfc1071; [by solve_bytes|simpl; lia]. Defined.

(** The pseudo-header's contribution. *)
Definition pseudo_sum (src dst proto len : Z) : Z :=
  (src mod 65536 + src / 65536) + (dst mod 65536 + dst / 65536) + (htons len + htons proto).

Lemma pseudo_sum_range src dst proto len :
  0 <= src < 4294967296 -> 0 <= dst < 4294967296 ->
  0 <= pseudo_sum src dst proto len < 6 * 65536.
Proof.
  intros. unfold pseudo_sum. pose proof (htons_range len). pose proof (htons_range proto).
  pose proof (Z.mod_pos_bound src 65536). pose proof (Z.mod_pos_bound dst 65536).
  assert (forall x, 0 <= x < 4294967296 -> 0 <= x / 65536 < 65536) as Hq by (intros; zdm).
  pose proof (Hq src). pose proof (Hq dst). lia.
Qed.

Lemma pseudohdr_raw_spec x src dst proto len :
  0 <= x -> 0 <= src < 4294967296 -> 0 <= dst < 4294967296 ->
  click_in_cksum_pseudohdr_raw (65535 - ocfold x) src dst proto len =
  Ok (65535 - ocfold (x + pseudo_sum src dst proto len)).
Proof.
  intros Hx Hs Hd. pose proof (ocfold_range x Hx).
  unfold click_in_cksum_pseudohdr_raw.
  destruct (Z.leb_spec (65535 - ocfold x) 0xffff); [|lia].
  rewrite (lnot_ffff (65535 - ocfold x)) by lia. rewrite u32_add3, !land_ffff, !shiftr_16.
  replace (65535 - (65535 - ocfold x)) with (ocfold x) by lia.
  replace (ocfold x + (src mod 65536 + src / 65536) + (dst mod 65536 + dst / 65536)
    + (htons len + htons proto)) with (ocfold x + pseudo_sum src dst proto len)
    by (unfold pseudo_sum; ring).
  pose proof (pseudo_sum_range src dst proto len Hs Hd).
  set (p := ocfold x + pseudo_sum src dst proto len).
  rewrite (u32_small p) by lia. destruct (fold_twice p ltac:(lia)) as (Hy & Hz & Hf).
  rewrite (u32_small (p mod 65536 + p / 65536)) by lia.
  rewrite lnot_mod, Hf. unfold p. by rewrite ocfold_add_l by lia.
Qed.

(** The transport checksum the elements compute: data sum, then pseudo-header. *)
Lemma transport_cksum_spec l src dst proto len :
  bytes_ok l -> Z.of_nat (length l) < 131072 ->
  0 <= src < 4294967296 -> 0 <= dst < 4294967296 ->
  click_in_cksum_pseudohdr_raw (click_in_cksum l) src dst proto len =
  Ok (65535 - ocfold (wsum l + pseudo_sum src dst proto len)).
Proof.
  intros H Hl Hs Hd. rewrite click_in_cksum_spec by done.
  apply pseudohdr_raw_spec; [|done..]. by apply wsum_bounds.
Qed.

(** ** Filling in a checksum field *)

(** Storing a halfword [c] at an even offset over a zero field adds [c] to the word sum. *)
Lemma wsum_set_field l i c :
  Nat.even i = true -> (i + 2 <= length l)%nat -> rdn 2 l i = Some 0 -> bytes_ok l ->
  0 <= c < 65536 -> wsum (wrn 2 l i c) = wsum l + c.
Proof.
  intros Hi Hlen Hz Hb Hc.
  assert (Hl : l = take i l ++ drop i l) by (by rewrite take_drop).
  assert (Htl : length (take i l) = i) by (rewrite length_take; lia).
  rewrite Hl. replace i with (length (take i l) + 0)%nat at 3 by lia.
  rewrite wrn_app_r, !wsum_app by (by rewrite Htl).
  enough (wsum (wrn 2 (drop i l) 0 c) = wsum (drop i l) + c) by lia.
  assert (Hz' : rdn 2 (drop i l) 0 = Some 0) by (rewrite rdn_drop; by rewrite Nat.add_0_r).
  assert (Hd : (2 <= length (drop i l))%nat) by (rewrite length_drop; lia).
  assert (Hbd : bytes_ok (drop i l)) by auto with bytes.
  destruct (drop i l) as [|a [|b w]]; simpl in Hd; [lia|lia|].
  apply bytes_ok_cons in Hbd as [? [? _]%bytes_ok_cons].
  injection Hz' as Hz'. unfold wrn. simpl. zdm.
Qed.

(** A range whose checksum field is zeroed, then filled with the range's own checksum,
    verifies: the receiver's checksum over it is 0. *)
Lemma fill_verifies l i :
  bytes_ok l -> Z.of_nat (length l) < 131072 -> Nat.even i = true -> (i + 2 <= length l)%nat ->
  rdn 2 l i = Some 0 ->
  click_in_cksum (wrn 2 l i (click_in_cksum l)) = 0.
Proof.
  intros Hb Hlen He Hi Hz. pose proof (cksum_range l). pose proof (wsum_u32 l Hb Hlen).
  rewrite (click_in_cksum_spec (wrn _ _ _ _)) by
    (rewrite ?length_wrn; auto with bytes).
  rewrite wsum_set_field by done. rewrite (click_in_cksum_spec l) by done.
  rewrite ocfold_complement by lia. done.
Qed.

(** Zeros at the end of the range do not count. *)
Lemma wsum_zeros n : wsum (replicate n 0) = 0.
Proof.
  induction n as [n IH] using lt_wf_ind. destruct n as [|[|n]]; [done..|].
  cbn [replicate wsum]. rewrite IH by lia. done.
Qed.
Lemma cksum_zero_tail l n :
  bytes_ok l -> Z.of_nat (length l + n) < 131072 -> Nat.even (length l) = true ->
  click_in_cksum (l ++ replicate n 0) = click_in_cksum l.
Proof.
  intros Hb Hl He. rewrite !click_in_cksum_spec, wsum_app, wsum_zeros;
    rewrite ?length_app, ?length_replicate, ?Z.add_0_r; try done; try lia.
  apply bytes_ok_app. auto with bytes.
Qed.

(** The same for a transport checksum, which also covers the pseudo-header. *)
Lemma transport_fill_verifies l i src dst proto len c :
  bytes_ok l -> Z.of_nat (length l) < 131072 -> Nat.even i = true -> (i + 2 <= length l)%nat ->
  rdn 2 l i = Some 0 -> 0 <= src < 4294967296 -> 0 <= dst < 4294967296 ->
  click_in_cksum_pseudohdr_raw (click_in_cksum l) src dst proto len = Ok c ->
  0 <= c < 65536 /\
  click_in_cksum_pseudohdr_raw (click_in_cksum (wrn 2 l i c)) src dst proto len = Ok 0.
Proof.
  intros Hb Hlen He Hi Hz Hs Hd. pose proof (wsum_u32 l Hb Hlen).
  pose proof (pseudo_sum_range src dst proto len Hs Hd).
  rewrite transport_cksum_spec by done. intros [= Hc].
  pose proof (ocfold_range (wsum l + pseudo_sum src dst proto len)).
  split; [lia|]. rewrite transport_cksum_spec by
    (rewrite ?length_wrn; auto with bytes).
  rewrite wsum_set_field by (done || lia).
  replace (wsum l + c + pseudo_sum src dst proto len)
    with (wsum l + pseudo_sum src dst proto len + c) by lia.
  rewrite <- Hc, ocfold_complement by lia. done.
Qed.

(** ** Incremental update *)


Lemma update_in_cksum_fold c old new :
  0 <= c < 65536 -> 0 <= old < 65536 -> 0 <= new < 65536 ->
  click_update_in_cksum c old new = 65535 - ocfold ((65535 - c) + (65535 - old) + new).
Proof.
  intros. unfold click_update_in_cksum. rewrite !lnot_ffff by done.
  rewrite land_ffff, !shiftr_16. set (p := _ + new).
  rewrite (u32_small p) by lia. destruct (fold_twice p ltac:(lia)) as (Hy & Hz & Hf).
  rewrite (u32_small (p mod 65536 + p / 65536)) by lia.
  unfold u16. by rewrite lnot_mod, Hf.
Qed.

(** if [x] is the word sum of the data outside the checksum field and [old] one of its
    words, then updating the stored checksum for [old] becoming [new] gives the checksum of
    the changed data, as long as that data is not all zero. *)
Theorem update_in_cksum_correct x old new :
  0 < x -> 0 <= old < 65536 -> 0 <= new < 65536 -> 0 < x - old + new ->
  click_update_in_cksum (65535 - ocfold x) old new = 65535 - ocfold (x - old + new).
Proof.
  intros Hx Ho Hn Hy. pose proof (ocfold_range x).
  rewrite update_in_cksum_fold by lia. f_equal.
  destruct (ocfold_spec x Hx) as (k & ? & Hk & ?).
  destruct (ocfold_spec _ Hy) as (k' & ? & Hk' & ?).
  apply (ocfold_unique _ _ (k' - k + 1)); lia.
Qed.

Theorem update_in_cksum_correct_witness :
  click_update_in_cksum (65535 - ocfold 70000) 4660 513 = 65535 - ocfold (70000 - 4660 + 513).
Proof. apply update_in_cksum_correct; lia. Defined.

(** On all-zero data the updated checksum is 0, not 0xFFFF; [click_update_zero_in_cksum]
    repairs exactly that case. *)
Lemma update_zero_repairs c l :
  bytes_ok l -> Z.of_nat (length l) < 131072 -> c = click_in_cksum l \/ (c = 0 /\ wsum l = 0) ->
  click_update_zero_in_cksum c l = click_in_cksum l.
Proof.
  intros Hb Hl Hc. unfold click_update_zero_in_cksum, click_update_zero_in_cksum_hard.
  assert (Hz : forallb (fun b => b =? 0) l = true <-> wsum l = 0).
  { clear Hc Hl. induction l as [|a|a b l IH] using list_pair_ind; simpl.
    - done.
    - rewrite andb_true_r. apply Z.eqb_eq.
    - apply bytes_ok_cons in Hb as [? [? Hb]%bytes_ok_cons].
      rewrite !andb_true_iff, (IH Hb), !Z.eqb_eq.
      pose proof (wsum_bounds l Hb). lia. }
  pose proof (wsum_bounds l Hb) as [Hw _].
  rewrite (click_in_cksum_spec l) in * by done.
  destruct (Z.eqb_spec c 0) as [->|Hc0]; destruct Hc as [Hc|[? Hs]]; try lia.
  - destruct (forallb _ l); [|done]. by rewrite (proj1 Hz eq_refl).
  - by rewrite (proj2 Hz Hs), Hs.
Qed.
