(* ===== verification/Vector.v ===== *)
(** * [Vector<T>]: [include/click/vector.hh] and [vector.cc]

    The array memory behind a vector: [v_live] are the slots below [n_], [v_slack] the slots
    from [n_] to [capacity_].  [erase] and [pop_back] leave the old bytes of a slot in place
    ([Some] stale object), growing the array brings raw slots ([None]).  Stale slots matter
    because the program keeps pointers into a vector across an [erase]. *)
From Stdlib Require Import ZArith Lia.
From stdpp Require Import base list numbers option.
From S2P Require Import Prelude.

Record vector (A : Type) : Type := Vec { v_live : list A; v_slack : list (option A) }.
Arguments Vec {A} _ _.
Arguments v_live {A} _.
Arguments v_slack {A} _.

Section Vector.
Context {A : Type}.
Implicit Types v : vector A.

Definition vempty : vector A := Vec [] [].
Definition vsize v : nat := length (v_live v).
Definition vcapacity v : nat := vsize v + length (v_slack v).

(** [operator[](i)], with its assertion. *)
Definition vget v (i : nat) : res A := opt_res AssertFailed (v_live v !! i).

(** What is in slot [i] of the array, checked or not: [unchecked_at], a kept pointer. *)
Definition vslot v (i : nat) : res A :=
  match v_live v !! i with
  | Some x => Ok x
  | None => match v_slack v !! (i - vsize v)%nat with
            | Some (Some x) => Ok x
            | Some None => Fault Uninitialised
            | None => Fault OutOfBounds
            end
  end.

(** [vector_memory::reserve_and_push_back(want, push_vp)]; [mem] tells whether
    [CLICK_LALLOC] succeeds.  The result is the new vector and the returned bool. *)
Definition vreserve_and_push_back (mem : bool) (want : Z) (push_vp : option A) v
  : vector A * bool :=
  let want := if want <? 0 then (if (0 <? vcapacity v)%nat then (vcapacity v * 2)%nat else 4%nat)
              else Z.to_nat want in
  if (vcapacity v <? want)%nat && negb mem then (v, false)
  else
    let v1 := if (vcapacity v <? want)%nat
              then Vec (v_live v) (replicate (want - vsize v) None) else v in
    match push_vp with
    | Some x => (Vec (v_live v1 ++ [x]) (drop 1 (v_slack v1)), true)
    | None => (v1, true)
    end.

(** [push_back(v)] *)
Definition vpush_back (mem : bool) (x : A) v : vector A :=
  if (vsize v <? vcapacity v)%nat then Vec (v_live v ++ [x]) (drop 1 (v_slack v))
  else fst (vreserve_and_push_back mem (-1) (Some x) v).

(** [erase(a, b)]: the tail moves down over [[a, b)]; the slots it vacates keep their old
    content. *)
Definition verase_range (a b : nat) v : res (vector A) :=
  if (a <? b)%nat then
    if (b <=? vsize v)%nat then
      Ok (Vec (take a (v_live v) ++ drop b (v_live v))
              (map Some (drop (vsize v - (b - a)) (v_live v)) ++ v_slack v))
    else Fault AssertFailed
  else Ok v.

(** [erase(it)] *)
Definition verase (i : nat) v : res (vector A) :=
  if (i <? vsize v)%nat then verase_range i (S i) v else Ok v.

(** [v[i] = x] *)
Definition vset (i : nat) (x : A) v : res (vector A) :=
  if (i <? vsize v)%nat then Ok (Vec (<[i := x]> (v_live v)) (v_slack v)) else Fault AssertFailed.

(** [empty()], [front()], [back()]: [operator[](-1)] of an empty vector is the unsigned
    2^32 - 1, out of range. *)
Definition vis_empty v : bool := (vsize v =? 0)%nat.
Definition vfront v : res A := vget v 0.
Definition vback v : res A := if vis_empty v then Fault AssertFailed else vget v (vsize v - 1).

(** [reserve(n)] *)
Definition vreserve (mem : bool) (n : Z) v : vector A * bool := vreserve_and_push_back mem n None v.

(** [pop_back()] and [clear()] destroy the objects and leave their slots. *)
Definition vpop_back v : res (vector A) :=
  if (0 <? vsize v)%nat then
    Ok (Vec (take (vsize v - 1) (v_live v)) (map Some (drop (vsize v - 1) (v_live v)) ++ v_slack v))
  else Fault AssertFailed.
Definition vclear v : vector A := Vec [] (map Some (v_live v) ++ v_slack v).

(** [resize(n, x)]: nothing happens when the memory cannot be had.  An argument that lies in
    the vector itself is copied first ([need_argument_copy]), so [x] is its value. *)
Definition vresize (mem : bool) (n : Z) (x : A) v : res (vector A) :=
  let '(v1, ok) := if n <=? Z.of_nat (vcapacity v) then (v, true) else vreserve mem n v in
  if (ok : bool) then
    if 0 <=? n then
      let k := Z.to_nat n in
      if (k <? vsize v1)%nat then
        Ok (Vec (take k (v_live v1)) (map Some (drop k (v_live v1)) ++ v_slack v1))
      else
        Ok (Vec (v_live v1 ++ replicate (k - vsize v1) x) (drop (k - vsize v1) (v_slack v1)))
    else Fault AssertFailed
  else Ok v1.

(** [assign(n, x)], and the assignment of another vector. *)
Definition vassign (mem : bool) (n : Z) (x : A) v : res (vector A) :=
  v1 ← vresize mem 0 x v; vresize mem n x v1.
Definition vcopy (mem : bool) (x v : vector A) : vector A :=
  let '(v1, ok) := vreserve mem (Z.of_nat (vsize x)) (vclear v) in
  if (ok : bool) then Vec (v_live x) (drop (vsize x) (v_slack v1)) else v1.

(** [insert(begin() + i, x)]: the position of the new element, [end()] without memory. *)
Definition vinsert (mem : bool) (i : nat) (x : A) v : res (nat * vector A) :=
  if (i <=? vsize v)%nat then
    let '(v1, ok) := if (vsize v =? vcapacity v)%nat then vreserve mem (-1) v else (v, true) in
    if (ok : bool) then
      Ok (i, Vec (take i (v_live v1) ++ x :: drop i (v_live v1)) (drop 1 (v_slack v1)))
    else Ok (vsize v1, v1)
  else Fault AssertFailed.
Definition vpush_front (mem : bool) (x : A) v : res (vector A) :=
  '(_, v1) ← vinsert mem 0 x v; Ok v1.
Definition vpop_front v : res (vector A) := verase_range 0 1 v.

(** [swap(x)] *)
Definition vswap (v x : vector A) : vector A * vector A := (x, v).

(** [Vector(n, x)] and [Vector(const Vector &)] *)
Definition vnew (mem : bool) (n : Z) (x : A) : res (vector A) := vresize mem n x vempty.
Definition vnew_copy (mem : bool) (x : vector A) : vector A := vcopy mem x vempty.

(** One call on a vector, and what it means for a list. *)
Inductive vop : Type :=
| VPushBack (x : A) | VPopBack | VPushFront (x : A) | VPopFront | VInsert (i : nat) (x : A)
| VErase (a b : nat) | VResize (n : Z) (x : A) | VAssign (n : Z) (x : A) | VCopy (x : vector A)
| VClear | VReserve (n : Z) | VSetAt (i : nat) (x : A).

Definition vec_step (mem : bool) (op : vop) v : res (vector A) :=
  match op with
  | VPushBack x => Ok (vpush_back mem x v)
  | VPopBack => vpop_back v
  | VPushFront x => vpush_front mem x v
  | VPopFront => vpop_front v
  | VInsert i x => '(_, v1) ← vinsert mem i x v; Ok v1
  | VErase a b => verase_range a b v
  | VResize n x => vresize mem n x v
  | VAssign n x => vassign mem n x v
  | VCopy x => Ok (vcopy mem x v)
  | VClear => Ok (vclear v)
  | VReserve n => Ok (fst (vreserve mem n v))
  | VSetAt i x => vset i x v
  end.

Definition list_step (op : vop) (l : list A) : option (list A) :=
  match op with
  | VPushBack x => Some (l ++ [x])
  | VPopBack => if (0 <? length l)%nat then Some (take (length l - 1) l) else None
  | VPushFront x => Some (x :: l)
  | VPopFront => if (1 <=? length l)%nat then Some (drop 1 l) else None
  | VInsert i x => if (i <=? length l)%nat then Some (take i l ++ x :: drop i l) else None
  | VErase a b =>
      if (a <? b)%nat then if (b <=? length l)%nat then Some (take a l ++ drop b l) else None
      else Some l
  | VResize n x => if 0 <=? n then Some (list.resize (Z.to_nat n) x l) else None
  | VAssign n x => if 0 <=? n then Some (replicate (Z.to_nat n) x) else None
  | VCopy x => Some (v_live x)
  | VClear => Some []
  | VReserve _ => Some l
  | VSetAt i x => if (i <? length l)%nat then Some (<[i := x]> l) else None
  end.

(** ** The abstract view is the list of live elements *)

Lemma verase_live i v v' :
  verase i v = Ok v' -> v_live v' = delete i (v_live v).
Proof.
  unfold verase, verase_range. destruct (Nat.ltb_spec i (vsize v)).
  - destruct (Nat.ltb_spec i (S i)); [|lia]. unfold vsize in *.
    destruct (Nat.leb_spec (S i) (length (v_live v))); [|lia].
    intros [= <-]. simpl. by rewrite delete_take_drop.
  - intros [= <-]. unfold vsize in *. rewrite delete_take_drop, take_ge, drop_ge by lia.
    by rewrite app_nil_r.
Qed.

Lemma verase_ok i v : exists v', verase i v = Ok v'.
Proof.
  unfold verase, verase_range, vsize. destruct (Nat.ltb_spec i (length (v_live v))); [|by eexists].
  destruct (Nat.ltb_spec i (S i)); [|lia].
  destruct (Nat.leb_spec (S i) (length (v_live v))); [by eexists|lia].
Qed.

Lemma vpush_back_live x v : v_live (vpush_back true x v) = v_live v ++ [x].
Proof.
  unfold vpush_back, vreserve_and_push_back.
  destruct (Nat.ltb_spec (vsize v) (vcapacity v)); [done|].
  simpl. rewrite andb_false_r. simpl.
  by destruct (vcapacity v <? _)%nat.
Qed.

(** What a pointer to slot [i] reads after [erase(begin() + i)]: the element that moved
    into the slot, or, when the erased one was the last, its own stale bytes. *)
Lemma vslot_after_erase i v v' x :
  v_live v !! i = Some x -> verase i v = Ok v' ->
  vslot v' i = Ok (default x (v_live v !! S i)).
Proof.
  intros Hx. pose proof (lookup_lt_Some _ _ _ Hx) as Hi.
  unfold verase, verase_range, vsize. destruct (Nat.ltb_spec i (length (v_live v))); [|lia].
  destruct (Nat.ltb_spec i (S i)); [|lia].
  destruct (Nat.leb_spec (S i) (length (v_live v))); [|lia]. intros [= <-].
  unfold vslot, vsize. simpl. rewrite <- delete_take_drop.
  rewrite list_lookup_delete_ge by lia.
  destruct (v_live v !! S i) as [y|] eqn:Hy; [done|].
  apply lookup_ge_None in Hy.
  rewrite length_delete by (by eexists). assert (length (v_live v) = S i) as Hl by lia.
  rewrite Hl. replace (i - (S i - 1))%nat with 0%nat by lia.
  replace (S i - (S i - i))%nat with i by lia.
  erewrite drop_S by done. done.
Qed.
End Vector.

(** ** The erasing loops

    [for (int i = 0; i < v.size();) if (bad(v[i])) v.erase(v.begin() + i); else ++i;]
    Each round erases an element or advances [i], so [v.size() - i] rounds are enough. *)
Section EraseLoop.
Context {A : Type} (bad : A -> bool).

Fixpoint erase_loop (fuel i : nat) (l : list A) : list A :=
  match fuel with
  | O => l
  | S fuel' =>
      match l !! i with
      | None => l
      | Some x => if bad x then erase_loop fuel' i (delete i l) else erase_loop fuel' (S i) l
      end
  end.

Lemma erase_loop_filter fuel i l :
  (length l - i <= fuel)%nat ->
  erase_loop fuel i l = take i l ++ filter (fun x => bad x = false) (drop i l).
Proof.
  revert i l. induction fuel as [|fuel IH]; intros i l Hf; simpl.
  - rewrite drop_ge, take_ge by lia. simpl. by rewrite app_nil_r.
  - destruct (l !! i) as [x|] eqn:Hx.
    + pose proof (lookup_lt_Some _ _ _ Hx). rewrite (drop_S l x i) by done.
      rewrite filter_cons. destruct (bad x) eqn:Hb.
      * rewrite decide_False by done. rewrite IH by (rewrite length_delete by (by eexists); lia).
        rewrite delete_take_drop. f_equal.
        -- apply take_app_length'. rewrite length_take. lia.
        -- f_equal. apply drop_app_length'. rewrite length_take. lia.
      * rewrite decide_True by done. rewrite IH by lia.
        erewrite take_S_r by done. by rewrite <- app_assoc.
    + apply lookup_ge_None in Hx. rewrite drop_ge, take_ge by lia. by rewrite app_nil_r.
Qed.

Lemma erase_loop_all l : erase_loop (length l) 0 l = filter (fun x => bad x = false) l.
Proof. rewrite erase_loop_filter by lia. done. Qed.
End EraseLoop.

(** [for (int i = 0; i < v.size();)] where each round replaces [v[i]] and advances, or erases
    it: [f] gives the replacement, or [None] to erase. *)
Section SweepLoop.
Context {A : Type} (f : A -> option A).

Fixpoint sweep_loop (fuel i : nat) (l : list A) : list A :=
  match fuel with
  | O => l
  | S fuel' =>
      match l !! i with
      | None => l
      | Some x =>
          match f x with
          | Some y => sweep_loop fuel' (S i) (<[i := y]> l)
          | None => sweep_loop fuel' i (delete i l)
          end
      end
  end.

Lemma sweep_loop_omap fuel i l :
  (length l - i <= fuel)%nat ->
  sweep_loop fuel i l = take i l ++ omap f (drop i l).
Proof.
  revert i l. induction fuel as [|fuel IH]; intros i l Hf; simpl.
  - rewrite drop_ge, take_ge by lia. simpl. by rewrite app_nil_r.
  - destruct (l !! i) as [x|] eqn:Hx.
    + pose proof (lookup_lt_Some _ _ _ Hx). rewrite (drop_S l x i) by done. simpl.
      destruct (f x) as [y|].
      * rewrite IH by (rewrite length_insert; lia).
        rewrite (take_S_r _ _ y) by (by rewrite list_lookup_insert_eq).
        rewrite take_insert_ge, drop_insert_lt by lia. by rewrite <- app_assoc.
      * rewrite IH by (rewrite length_delete by (by eexists); lia).
        rewrite delete_take_drop. f_equal.
        -- apply take_app_length'. rewrite length_take. lia.
        -- f_equal. apply drop_app_length'. rewrite length_take. lia.
    + apply lookup_ge_None in Hx. rewrite drop_ge, take_ge by lia. by rewrite app_nil_r.
Qed.

Lemma sweep_loop_all l : sweep_loop (length l) 0 l = omap f l.
Proof. rewrite sweep_loop_omap by lia. done. Qed.
End SweepLoop.

Ltac cap := unfold vcapacity, vsize in *; cbn [v_live v_slack] in *;
  rewrite ?length_app, ?length_map, ?length_take, ?length_drop, ?length_replicate,
    ?length_insert in *; cbn [length] in *; rewrite ?length_drop in *; lia.

Section VectorRefines.
Context {A : Type}.
Implicit Types v : vector A.

(** ** Every operation is the list operation, on the capacity it can use *)
Definition wanted (n : Z) v : nat :=
  if n <? 0 then (if (0 <? vcapacity v)%nat then (vcapacity v * 2)%nat else 4%nat) else Z.to_nat n.

Lemma vreserve_spec n v :
  exists v1, vreserve true n v = (v1, true) /\ v_live v1 = v_live v /\
    vcapacity v1 = Nat.max (vcapacity v) (wanted n v).
Proof.
  unfold vreserve, vreserve_and_push_back. fold (wanted n v). rewrite andb_false_r.
  eexists. split; [reflexivity|].
  destruct (Nat.ltb_spec (vcapacity v) (wanted n v)) as [Hlt|Hge]; (split; [done|]); cap.
Qed.

(** The result of an operation that needs [length l] slots. *)
Definition becomes (l : list A) v (r : res (vector A)) : Prop :=
  exists v', r = Ok v' /\ v_live v' = l /\ (vcapacity v <= vcapacity v')%nat /\
    ((length l <= vcapacity v)%nat -> vcapacity v' = vcapacity v).

Lemma becomes_intro l s v :
  (vcapacity v <= length l + length s)%nat ->
  ((length l <= vcapacity v)%nat -> (length l + length s = vcapacity v)%nat) ->
  becomes l v (Ok (Vec l s)).
Proof. intros H1 H2. by exists (Vec l s). Qed.

Lemma vpush_back_becomes x v : becomes (v_live v ++ [x]) v (Ok (vpush_back true x v)).
Proof.
  unfold vpush_back. destruct (Nat.ltb_spec (vsize v) (vcapacity v)) as [Hlt|Hge].
  - apply becomes_intro; cap.
  - unfold vreserve_and_push_back. rewrite andb_false_r. cbn [Z.ltb Z.compare fst].
    destruct (Nat.ltb_spec 0 (vcapacity v)) as [H0|H0].
    + destruct (Nat.ltb_spec (vcapacity v) (vcapacity v * 2)); [|lia].
      apply becomes_intro; cap.
    + destruct (Nat.ltb_spec (vcapacity v) 4); [|lia]. apply becomes_intro; cap.
Qed.

Lemma vresize_becomes n x v :
  0 <= n -> becomes (resize (Z.to_nat n) x (v_live v)) v (vresize true n x v).
Proof.
  intros Hn. unfold vresize.
  assert (Hres : exists v1, (if n <=? Z.of_nat (vcapacity v) then (v, true) else vreserve true n v)
    = (v1, true) /\ v_live v1 = v_live v /\ vcapacity v1 = Nat.max (vcapacity v) (Z.to_nat n)).
  { destruct (Z.leb_spec n (Z.of_nat (vcapacity v))); [exists v; split_and!; (done || lia)|].
    destruct (vreserve_spec n v) as (v1 & E & Hl & Hc). exists v1. split_and!; [done..|].
    rewrite Hc. unfold wanted. by rewrite (proj2 (Z.ltb_ge n 0)). }
  destruct Hres as (v1 & -> & Hl & Hc). rewrite (proj2 (Z.leb_le 0 n)) by done.
  unfold vcapacity at 1, vsize in Hc. rewrite Hl in Hc. rewrite resize_spec. unfold vsize. rewrite Hl.
  destruct (Nat.ltb_spec (Z.to_nat n) (length (v_live v))) as [Hlt|Hge].
  - replace (Z.to_nat n - length (v_live v))%nat with 0%nat by lia.
    rewrite app_nil_r. apply becomes_intro; cap.
  - rewrite (take_ge (v_live v)) by done. apply becomes_intro; cap.
Qed.

Lemma becomes_trans l1 l2 v v1 r :
  becomes l1 v (Ok v1) -> (length l1 <= vcapacity v)%nat -> becomes l2 v1 r -> becomes l2 v r.
Proof.
  intros (v' & [= <-] & _ & H1 & H2) Hle (v2 & -> & Hl & H3 & H4). specialize (H2 Hle).
  exists v2. split_and!; try done; [lia|]. intros. rewrite H4; lia.
Qed.

Lemma vassign_becomes n x v : 0 <= n -> becomes (replicate (Z.to_nat n) x) v (vassign true n x v).
Proof.
  intros Hn. unfold vassign. destruct (vresize_becomes 0 x v ltac:(lia)) as (v1 & E & Hl & Hb).
  rewrite E, bind_ok. change (Z.to_nat 0) with 0%nat in *. rewrite resize_0 in *.
  apply (becomes_trans [] _ v v1); [by exists v1|cbn; lia|].
  pose proof (vresize_becomes n x v1 Hn) as H. by rewrite Hl, resize_nil in H.
Qed.

Lemma vclear_becomes v : becomes [] v (Ok (vclear v)).
Proof. apply becomes_intro; cap. Qed.

Lemma vcopy_becomes x v : becomes (v_live x) v (Ok (vcopy true x v)).
Proof.
  unfold vcopy. destruct (vreserve_spec (Z.of_nat (vsize x)) (vclear v)) as (v1 & -> & Hl & Hc).
  unfold wanted in Hc. rewrite (proj2 (Z.ltb_ge _ _)), Nat2Z.id in Hc by lia.
  destruct (vclear_becomes v) as (? & [= <-] & _ & H1 & H2). cbn [length] in H2.
  specialize (H2 ltac:(lia)). rewrite H2 in Hc. cbn [v_live vclear] in Hl.
  apply becomes_intro; unfold vcapacity, vsize in *; rewrite Hl in Hc; cap.
Qed.

Lemma vinsert_becomes i x v :
  (i <= vsize v)%nat ->
  becomes (take i (v_live v) ++ x :: drop i (v_live v)) v ('(_, v1) ← vinsert true i x v; Ok v1).
Proof.
  intros Hi. unfold vinsert. rewrite (proj2 (Nat.leb_le _ _) Hi).
  destruct (Nat.eqb_spec (vsize v) (vcapacity v)) as [He|Hn].
  - destruct (vreserve_spec (-1) v) as (v1 & -> & Hl & Hc). unfold wanted in Hc. cbn [Z.ltb Z.compare] in Hc.
    cbn [mbind res_bind]. rewrite Hl.
    destruct (Nat.ltb_spec 0 (vcapacity v)); apply becomes_intro;
      unfold vcapacity, vsize in *; rewrite Hl in *; cap.
  - cbn [mbind res_bind]. apply becomes_intro; cap.
Qed.

Lemma verase_range_becomes a b v :
  (b <= vsize v)%nat -> (a < b)%nat ->
  becomes (take a (v_live v) ++ drop b (v_live v)) v (verase_range a b v).
Proof.
  intros Hb Ha. unfold verase_range. rewrite (proj2 (Nat.ltb_lt _ _) Ha), (proj2 (Nat.leb_le _ _) Hb).
  apply becomes_intro; cap.
Qed.

(** [Vector] refines a list.  With memory every operation gives the vector whose elements
    are the result of the list operation, and fails its assertion exactly where the list
    operation is out of range; the capacity never shrinks, and does not change while the
    result fits, except by [reserve]. *)
Theorem vector_refines_list (op : vop) v :
  match list_step op (v_live v) with
  | Some l => exists v', vec_step true op v = Ok v' /\ v_live v' = l /\
      (vcapacity v <= vcapacity v')%nat /\
      ((length l <= vcapacity v)%nat -> (forall n, op <> VReserve n) -> vcapacity v' = vcapacity v)
  | None => vec_step true op v = Fault AssertFailed
  end.
Proof.
  assert (Hdone : forall l, becomes l v (vec_step true op v) ->
    exists v', vec_step true op v = Ok v' /\ v_live v' = l /\ (vcapacity v <= vcapacity v')%nat /\
      ((length l <= vcapacity v)%nat -> (forall n, op <> VReserve n) -> vcapacity v' = vcapacity v)).
  { intros l (v' & H1 & H2 & H3 & H4). exists v'. split_and!; auto. }
  destruct op as [x| |x| |i x|a b|n x|n x|x| |n|i x]; cbn [list_step].
  - apply Hdone, vpush_back_becomes.
  - cbn [vec_step] in *. unfold vpop_back in *. fold (vsize v).
    destruct (Nat.ltb_spec 0 (vsize v)); [|done]. apply Hdone, becomes_intro; cap.
  - apply Hdone. apply (vinsert_becomes 0); lia.
  - destruct (Nat.leb_spec 1 (length (v_live v))) as [H|H].
    + apply Hdone. apply (verase_range_becomes 0 1); unfold vsize; lia.
    + cbn [vec_step]. unfold vpop_front, verase_range. fold (vsize v) in H.
      by rewrite (proj2 (Nat.leb_gt _ _) H).
  - fold (vsize v). destruct (Nat.leb_spec i (vsize v)) as [H|H]; [by apply Hdone, vinsert_becomes|].
    cbn [vec_step]. unfold vinsert. by rewrite (proj2 (Nat.leb_gt _ _) H).
  - destruct (Nat.ltb_spec a b) as [Hab|Hab].
    + fold (vsize v). destruct (Nat.leb_spec b (vsize v)) as [H|H];
        [by apply Hdone, verase_range_becomes|].
      cbn [vec_step]. unfold verase_range.
      by rewrite (proj2 (Nat.ltb_lt _ _) Hab), (proj2 (Nat.leb_gt _ _) H).
    + cbn [vec_step]. unfold verase_range. rewrite (proj2 (Nat.ltb_ge _ _) Hab). by exists v.
  - destruct (Z.leb_spec 0 n) as [H|H]; [by apply Hdone, vresize_becomes|].
    cbn [vec_step]. unfold vresize. rewrite (proj2 (Z.leb_le n _)) by lia.
    by rewrite (proj2 (Z.leb_gt _ _) H).
  - destruct (Z.leb_spec 0 n) as [H|H]; [by apply Hdone, vassign_becomes|].
    cbn [vec_step]. unfold vassign. destruct (vresize_becomes 0 x v ltac:(lia)) as (v1 & -> & _).
    rewrite bind_ok. unfold vresize. rewrite (proj2 (Z.leb_le n _)) by lia.
    by rewrite (proj2 (Z.leb_gt _ _) H).
  - apply Hdone, vcopy_becomes.
  - apply Hdone, vclear_becomes.
  - destruct (vreserve_spec n v) as (v1 & H & Hl & Hc). exists v1. cbn [vec_step].
    rewrite H. split_and!; [done|done|lia|]. intros _ Hr. by destruct (Hr n).
  - cbn [vec_step] in *. unfold vset in *. fold (vsize v).
    destruct (Nat.ltb_spec i (vsize v)); [|done]. apply Hdone, becomes_intro; cap.
Qed.
End VectorRefines.
