(* ===== verification/Heap.v ===== *)
(** * Binary and d-ary heaps ([include/click/heap.hh])

    The heap functions rearrange an array between two iterators and tell [place] every
    element that changes its index.  An iterator is an index, [begin] is 0 and [end] the
    number of elements in the heap, which can be less than the length of the array.  The
    source writes the functions twice, for arity 2 and for larger arities; the two differ in
    the parent of an index and in the code that picks the smallest child, which is the
    interface [HeapShape]. *)
From Stdlib Require Import ZArith Lia.
From stdpp Require Import base list numbers option relations.
From S2P Require Import Prelude.

Section Heap.
Context {A P : Type} (less : A -> A -> bool) (place : A -> nat -> P -> P).

(** [comp(begin[i], begin[j])], [click_swap(begin[i], begin[j])] and [place(begin, begin + i)]. *)
Definition comp (h : list A) (i j : nat) : res bool :=
  a ← opt_res OutOfBounds (h !! i); b ← opt_res OutOfBounds (h !! j); Ok (less a b).
Definition click_swap (h : list A) (i j : nat) : res (list A) :=
  a ← opt_res OutOfBounds (h !! i); b ← opt_res OutOfBounds (h !! j);
  Ok (<[j := a]> (<[i := b]> h)).
Definition place_at (h : list A) (i : nat) (p : P) : res P :=
  a ← opt_res OutOfBounds (h !! i); Ok (place a i p).

(** The parent of an index, and the index of the smallest of [i] and its children among the
    first [size] elements. *)
Class HeapShape := {
  parent : nat -> nat;
  smallest : list A -> nat -> nat -> res nat
}.

(** Arity 2: the two children are compared one after the other. *)
Definition binary_smallest (h : list A) (size i : nat) : res nat :=
  let trial := (i * 2 + 1)%nat in
  s1 ← (if (trial <? size)%nat
        then b ← comp h trial i; Ok (if (b : bool) then trial else i) else Ok i);
  if (trial + 1 <? size)%nat
  then b ← comp h (trial + 1) s1; Ok (if (b : bool) then (trial + 1)%nat else s1)
  else Ok s1.
#[local] Instance binary_shape : HeapShape :=
  {| parent i := ((i - 1) / 2)%nat; smallest := binary_smallest |}.

(** Larger arities: [for (; trial < end_trial; ++trial)]. *)
Fixpoint smallest_loop (h : list A) (n trial s : nat) : res nat :=
  match n with
  | O => Ok s
  | S n => b ← comp h trial s; smallest_loop h n (S trial) (if (b : bool) then trial else s)
  end.
Definition dary_smallest (arity : nat) (h : list A) (size i : nat) : res nat :=
  let trial := if (i =? 0)%nat then 1%nat else (i * arity)%nat in
  let end_trial := if (i =? 0)%nat then arity else (trial + arity)%nat in
  let end_trial := if (end_trial <? size)%nat then end_trial else size in
  smallest_loop h (end_trial - trial) trial i.
#[local] Instance dary_shape (arity : nat) : HeapShape :=
  {| parent i := (i / arity)%nat; smallest := dary_smallest arity |}.

Section Operations.
Context `{HeapShape}.

(** The first loop of [push_heap] and [change_heap]: [i] moves towards the root. *)
Fixpoint sift_up (fuel : nat) (h : list A) (p : P) (i : nat) : res (list A * P * nat) :=
  if (0 <? i)%nat then
    b ← comp h i (parent i);
    if (b : bool) then
      h' ← click_swap h i (parent i); p' ← place_at h' i p;
      match fuel with
      | O => Fault Diverges
      | S fuel => sift_up fuel h' p' (parent i)
      end
    else Ok (h, p, i)
  else Ok (h, p, i).

Definition push_heap (h : list A) (p : P) : res (list A * P) :=
  if (0 <? length h)%nat then
    '(h, p, i) ← sift_up (length h) h p (length h - 1);
    p ← place_at h i p;
    Ok (h, p)
  else Fault AssertFailed.

(** The second loop of [change_heap]: [i] moves away from the root. *)
Fixpoint sift_down (fuel : nat) (h : list A) (size : nat) (p : P) (i : nat)
  : res (list A * P * nat) :=
  s ← smallest h size i;
  if (s =? i)%nat then Ok (h, p, i)
  else
    h' ← click_swap h i s; p' ← place_at h' i p;
    match fuel with
    | O => Fault Diverges
    | S fuel => sift_down fuel h' size p' s
    end.

Definition change_heap (h : list A) (size : nat) (p : P) (element : nat)
  : res (list A * P * nat) :=
  if (element <? size)%nat then
    '(h, p, i) ← sift_up size h p element;
    '(h, p, i) ← sift_down size h size p i;
    p ← (if (i =? element)%nat then Ok p else place_at h i p);
    Ok (h, p, i)
  else Fault AssertFailed.

Definition remove_heap (h : list A) (p : P) (element : nat) : res (list A * P) :=
  if (element <? length h)%nat then
    if (element + 1 =? length h)%nat then Ok (h, p)
    else
      h ← click_swap h element (length h - 1);
      p ← place_at h element p;
      '(h, p, _) ← change_heap h (length h - 1) p element;
      Ok (h, p)
  else Fault AssertFailed.

Definition pop_heap (h : list A) (p : P) : res (list A * P) := remove_heap h p 0.
End Operations.
End Heap.

(** ** The order of a heap *)

(** A comparison function is a strict weak order: "not less" is transitive. *)
Class StrictWeak {A} (less : A -> A -> bool) := {
  less_asym a b : less a b = true -> less b a = false;
  less_trans a b c : less a b = false -> less b c = false -> less a c = false
}.

Section Order.
Context {A : Type} (less : A -> A -> bool).
Implicit Types (h : list A).

(** The element at [j] is not less than the element at [k]. *)
Definition ordered h (j k : nat) : Prop :=
  forall a b, h !! j = Some a -> h !! k = Some b -> less a b = false.

Context `{HeapShape A}.

(** The heap order among the first [size] elements. *)
Definition heap_on h (size : nat) : Prop :=
  forall j, (0 < j < size)%nat -> ordered h j (parent j).
(** The heap order but for the element at [i]: its children are in order with its parent. *)
Definition heap_except (i : nat) h (size : nat) : Prop :=
  (forall j, (0 < j < size)%nat -> j <> i -> parent j <> i -> ordered h j (parent j)) /\
  (forall j, (0 < j < size)%nat -> parent j = i -> (0 < i)%nat -> ordered h j (parent i)).
(** The heap order but for the children of [i]. *)
Definition heap_above (i : nat) h (size : nat) : Prop :=
  (forall j, (0 < j < size)%nat -> parent j <> i -> ordered h j (parent j)) /\
  (forall j, (0 < j < size)%nat -> parent j = i -> (0 < i)%nat -> ordered h j (parent i)).

(** What the two arities promise the heap functions. *)
Class HeapShapeLaws := {
  parent_lt i : (0 < i)%nat -> (parent i < i)%nat;
  smallest_spec h size i :
    (i < size)%nat -> (size <= length h)%nat ->
    exists s, smallest h size i = Ok s /\
      (s = i \/ ((0 < s < size)%nat /\ parent s = i /\ comp less h s i = Ok true)) /\
      (forall j, j = i \/ (0 < j)%nat /\ parent j = i -> (j < size)%nat -> ordered h j s)
}.
End Order.

Section Shapes.
Context {A : Type} (less : A -> A -> bool) `{!StrictWeak less}.
Implicit Types (h : list A).

Lemma less_irrefl a : less a a = false.
Proof. destruct (less a a) eqn:E; [|done]. by rewrite (less_asym a a E) in E. Qed.
Lemma ordered_refl h i : ordered less h i i.
Proof. intros a b -> [= ->]. apply less_irrefl. Qed.
Lemma ordered_trans h i j k :
  (j < length h)%nat -> ordered less h i j -> ordered less h j k -> ordered less h i k.
Proof.
  intros [c Hc]%lookup_lt_is_Some Hij Hjk a b Ha Hb.
  by apply (less_trans a c b); [apply Hij|apply Hjk].
Qed.

Lemma comp_run h i j :
  (i < length h)%nat -> (j < length h)%nat ->
  exists b, comp less h i j = Ok b /\
    if b then comp less h i j = Ok true /\ ordered less h j i else ordered less h i j.
Proof.
  intros [a Ha]%lookup_lt_is_Some [b Hb]%lookup_lt_is_Some. exists (less a b).
  unfold comp, ordered. rewrite Ha, Hb. simpl. split; [done|].
  destruct (less a b) eqn:E; [split; [done|]|];
    intros x y; rewrite ?Ha, ?Hb; intros [= <-] [= <-]; [by apply less_asym|done].
Qed.

Lemma comp_true_trans h i j k :
  comp less h i j = Ok true -> comp less h j k = Ok true -> comp less h i k = Ok true.
Proof.
  unfold comp. destruct (h !! i) as [a|]; [|done]. destruct (h !! j) as [b|]; [|done].
  destruct (h !! k) as [c|]; [|done]. simpl. intros [= Hab] [= Hbc].
  destruct (less a c) eqn:E; [done|]. by rewrite (less_trans a c b E (less_asym _ _ Hbc)) in Hab.
Qed.

Lemma smallest_loop_run h n trial s :
  (s < length h)%nat -> (trial + n <= length h)%nat ->
  exists s', smallest_loop less h n trial s = Ok s' /\
    (s' = s \/ (trial <= s' < trial + n)%nat /\ comp less h s' s = Ok true) /\
    ordered less h s s' /\ (forall j, (trial <= j < trial + n)%nat -> ordered less h j s').
Proof.
  revert trial s. induction n as [|n IH]; intros trial s Hs Hn; simpl.
  - exists s. split_and!; [done|by left|apply ordered_refl|lia].
  - destruct (comp_run h trial s) as (b & Eb & Hb); [lia|done|]. rewrite Eb. simpl.
    destruct (IH (S trial) (if b then trial else s)) as (s' & E & Hfrom & Hss & Hall);
      [destruct b; lia|lia|].
    exists s'. split; [done|].
    assert (Hts : ordered less h s (if b then trial else s) /\
                  ordered less h trial (if b then trial else s)).
    { destruct b; [split; [apply Hb|apply ordered_refl]|split; [apply ordered_refl|done]]. }
    assert (Hlen : ((if b then trial else s) < length h)%nat) by (destruct b; lia).
    split_and!.
    + destruct b; destruct Hfrom as [-> |[? Hc]]; auto.
      * right. split; [lia|done].
      * right. split; [lia|]. by apply (comp_true_trans h s' trial s).
      * right. split; [lia|done].
    + by eapply ordered_trans; [exact Hlen|apply Hts|].
    + intros j Hj. destruct (decide (j = trial)) as [-> |]; [|apply Hall; lia].
      by eapply ordered_trans; [exact Hlen|apply Hts|].
Qed.

(** The two comparisons of the binary version are the loop over [[2i+1, 2i+3)]. *)
Lemma binary_smallest_loop h size i :
  binary_smallest less h size i =
  smallest_loop less h (Nat.min (i * 2 + 3) size - (i * 2 + 1)) (i * 2 + 1) i.
Proof.
  unfold binary_smallest.
  destruct (Nat.ltb_spec (i * 2 + 1) size), (Nat.ltb_spec (i * 2 + 1 + 1) size); [| |lia|].
  - replace (_ - _)%nat with 2%nat by lia. simpl. destruct (comp less h (i * 2 + 1) i); [|done].
    simpl. rewrite (Nat.add_1_r (i * 2 + 1)). by destruct (comp _ _ _ _).
  - replace (_ - _)%nat with 1%nat by lia. simpl. by destruct (comp _ _ _ _).
  - by replace (_ - _)%nat with 0%nat by lia.
Qed.

#[export] Instance binary_laws : HeapShapeLaws (H := binary_shape less) less.
Proof.
  split.
  - intros i Hi. cbn [parent binary_shape]. pose proof (Nat.div_mod_eq (i - 1) 2). lia.
  - intros h size i Hi Hsize. cbn [parent binary_shape smallest]. rewrite binary_smallest_loop.
    assert (Hrange : forall j, (0 < j)%nat ->
      (i * 2 + 1 <= j < i * 2 + 3)%nat <-> ((j - 1) / 2 = i)%nat).
    { intros j Hj. pose proof (Nat.div_mod_eq (j - 1) 2).
      pose proof (Nat.mod_upper_bound (j - 1) 2 ltac:(lia)). split; [|lia].
      intros. symmetry. apply (Nat.div_unique (j - 1) 2 i (j - 1 - i * 2)); lia. }
    destruct (Nat.le_gt_cases (i * 2 + 1) size).
    + destruct (smallest_loop_run h (Nat.min (i * 2 + 3) size - (i * 2 + 1)) (i * 2 + 1) i)
        as (s & E & Hs & Hi' & Hall); [lia|lia|].
      exists s. split; [done|]. split.
      * destruct Hs as [-> |[Hs Hc]]; [by left|right]. split_and!; [lia..| |done].
        apply Hrange; lia.
      * intros j [-> |[Hj Hp]] Hjs; [done|]. apply Hall. apply Hrange in Hp; lia.
    + exists i. replace (_ - _)%nat with 0%nat by lia. split; [done|]. split; [by left|].
      intros j [-> |[Hj Hp]] Hjs; [apply ordered_refl|]. apply Hrange in Hp; lia.
Qed.

#[export] Instance dary_laws arity :
  (2 < arity)%nat -> HeapShapeLaws (H := dary_shape less arity) less.
Proof.
  intros Ha. split.
  - intros i Hi. cbn [parent dary_shape]. apply Nat.div_lt; lia.
  - intros h size i Hi Hsize. cbn [parent dary_shape smallest]. unfold dary_smallest.
    set (trial := if (i =? 0)%nat then 1%nat else (i * arity)%nat).
    set (last := if (i =? 0)%nat then arity else (trial + arity)%nat).
    set (last' := if (last <? size)%nat then last else size).
    assert (Hrange : forall j, (0 < j)%nat -> (trial <= j < last)%nat <-> (j / arity = i)%nat).
    { intros j Hj. subst trial last. pose proof (Nat.div_mod_eq j arity).
      pose proof (Nat.mod_upper_bound j arity ltac:(lia)).
      destruct (Nat.eqb_spec i 0) as [-> |]; split; intros; [apply Nat.div_small; lia|nia| |nia].
      symmetry. apply (Nat.div_unique j arity i (j - i * arity)); nia. }
    assert (Hlast' : last' = Nat.min last size).
    { subst last'. destruct (Nat.ltb_spec last size); lia. }
    assert (Htrial : (0 < trial)%nat) by (subst trial; destruct (Nat.eqb_spec i 0); nia).
    destruct (Nat.le_gt_cases trial last') as [Hle|Hgt].
    + destruct (smallest_loop_run h (last' - trial) trial i) as (s & E & Hs & Hi' & Hall);
        [lia|lia|].
      exists s. split; [done|]. split.
      * destruct Hs as [-> |[Hs Hc]]; [by left|right]. split_and!; [lia..| |done].
        apply Hrange; lia.
      * intros j [-> |[Hj Hp]] Hjs; [done|]. apply Hall. apply Hrange in Hp; lia.
    + exists i. replace (last' - trial)%nat with 0%nat by lia. split; [done|]. split; [by left|].
      intros j [-> |[Hj Hp]] Hjs; [apply ordered_refl|]. apply Hrange in Hp; lia.
Qed.
End Shapes.

(** ** Exchanging two elements *)
Section Swap.
Context {A : Type}.
Implicit Types (h : list A).

Lemma click_swap_run h i j :
  (i < length h)%nat -> (j < length h)%nat -> i <> j ->
  exists h', click_swap h i j = Ok h' /\ length h' = length h /\ h' !! i = h !! j /\
    h' !! j = h !! i /\ (forall k, k <> i -> k <> j -> h' !! k = h !! k) /\ h' ≡ₚ h.
Proof.
  intros Hi Hj Hij. pose proof Hi as [a Ha]%lookup_lt_is_Some.
  pose proof Hj as [b Hb]%lookup_lt_is_Some. unfold click_swap. rewrite Ha, Hb. simpl.
  exists (<[j:=a]> (<[i:=b]> h)). split_and!.
  - done.
  - by rewrite !length_insert.
  - by rewrite list_lookup_insert_ne, list_lookup_insert_eq.
  - rewrite list_lookup_insert_eq; [done|]. by rewrite length_insert.
  - intros k ??. by rewrite !list_lookup_insert_ne by done.
  - apply Permutation_inj. split; [by rewrite !length_insert|].
    exists (fun k => if decide (k = i) then j else if decide (k = j) then i else k).
    split; [intros x y; repeat case_decide; lia|].
    intros k. repeat case_decide; subst.
    + by rewrite list_lookup_insert_ne, list_lookup_insert_eq.
    + rewrite list_lookup_insert_eq; [done|]. by rewrite length_insert.
    + by rewrite !list_lookup_insert_ne by done.
Qed.
End Swap.

(** ** Placement

    [place] records an element's index in a [P]; elements are told apart by [ident], so
    that recording one's index leaves the others' alone. *)
Class Placement {A P K} (ident : A -> K) (place : A -> nat -> P -> P)
  (placed : P -> A -> nat -> Prop) := {
  placed_place a i p : placed (place a i p) a i;
  placed_other a i b j p : ident a <> ident b -> placed p b j -> placed (place a i p) b j
}.

Section Moves.
Context {A P K : Type} (ident : A -> K) (place : A -> nat -> P -> P)
  (placed : P -> A -> nat -> Prop).
Implicit Types (h : list A) (p : P).

(** [p'] comes from [p] by placing elements of [h]. *)
Definition moved h : P -> P -> Prop :=
  rtc (fun p p' => exists a i, a ∈ h /\ p' = place a i p).

Definition placed_but (size i : nat) h p : Prop :=
  forall k a, (k < size)%nat -> k <> i -> h !! k = Some a -> placed p a k.

(** A loop took the element at [i] of [h] to [j] of [h'], and placed the elements it met
    but not this one. *)
Record carries (size : nat) h p (i : nat) h' p' (j : nat) : Prop := {
  car_perm : h' ≡ₚ h;
  car_elem : h' !! j = h !! i;
  car_beyond : forall k, (size <= k)%nat -> h' !! k = h !! k;
  car_placed : placed_but size i h p -> placed_but size j h' p';
  car_old : forall x k, h !! i = Some x -> placed p x k -> placed p' x k;
  car_moved : moved h p p'
}.

Lemma moved_perm h h' p p' : h ≡ₚ h' -> moved h p p' -> moved h' p p'.
Proof.
  intros Hp. apply rtc_subrel. intros q q' (a & k & Ha & ->). exists a, k. by rewrite <- Hp.
Qed.

Lemma carries_refl size h p i : carries size h p i h p i.
Proof. by split; try apply rtc_refl. Qed.
Lemma carries_trans size h1 p1 i1 h2 p2 i2 h3 p3 i3 :
  carries size h1 p1 i1 h2 p2 i2 -> carries size h2 p2 i2 h3 p3 i3 ->
  carries size h1 p1 i1 h3 p3 i3.
Proof.
  intros [P1 E1 B1 L1 O1 M1] [P2 E2 B2 L2 O2 M2]. split.
  - by rewrite P2.
  - by rewrite E2.
  - intros k Hk. by rewrite B2, B1.
  - auto.
  - intros x k Hx Hk. apply O2; [by rewrite E1|by apply O1].
  - unfold moved. etrans; [exact M1|]. by apply (moved_perm h2).
Qed.

Context `{!Placement ident place placed}.

Lemma carries_step size h p i j :
  (i < size)%nat -> (j < size)%nat -> i <> j -> (size <= length h)%nat ->
  NoDup (ident <$> h) ->
  exists h' p', click_swap h i j = Ok h' /\ place_at place h' i p = Ok p' /\
    carries size h p i h' p' j /\ h' !! i = h !! j /\
    (forall k, k <> i -> k <> j -> h' !! k = h !! k).
Proof.
  intros Hi Hj Hij Hsize Hnd.
  destruct (click_swap_run h i j) as (h' & E & Hl & Hhi & Hhj & Hk & Hp); [lia..|done|].
  assert (is_Some (h !! j)) as [b Hb] by (apply lookup_lt_is_Some; lia).
  exists h', (place b i p). unfold place_at. rewrite Hhi, Hb. simpl. split_and!; try done.
  assert (Hne : forall k x, k <> j -> h !! k = Some x -> ident b <> ident x).
  { intros k x Hkj Hx Heq. apply Hkj. eapply (NoDup_lookup _ k j (ident x) Hnd);
      by rewrite list_lookup_fmap, ?Hx, ?Hb; simpl; rewrite ?Heq. }
  split; [done|done| |..].
  - intros k Hge. apply Hk; lia.
  - intros Hall k a Hks Hkj Ha. destruct (decide (k = i)) as [-> |].
    + rewrite Hhi, Hb in Ha. injection Ha as <-. apply placed_place.
    + rewrite Hk in Ha by done. apply placed_other; [by apply (Hne k)|by apply Hall].
  - intros x k Hx. apply placed_other. by apply (Hne i).
  - apply rtc_once. exists b, i. split; [|done]. by eapply list_elem_of_lookup_2.
Qed.
End Moves.

(** ** The loops *)
Section Loops.
Context {A P K : Type} (ident : A -> K) (less : A -> A -> bool)
  (place : A -> nat -> P -> P) (placed : P -> A -> nat -> Prop).
Context `{!StrictWeak less, !Placement ident place placed, HeapShape A, !HeapShapeLaws less}.
Implicit Types (h : list A) (p : P).

(** Exchanging an out-of-order element with its parent leaves it alone out of order. *)
Lemma heap_except_up h h' i size :
  (0 < i < size)%nat -> (size <= length h)%nat ->
  h' !! i = h !! parent i -> h' !! parent i = h !! i ->
  (forall k, k <> i -> k <> parent i -> h' !! k = h !! k) ->
  heap_except less i h size -> heap_except less (parent i) h' size.
Proof.
  intros Hi Hsize Hhi Hhp Hk [Ha Hb]. pose proof (parent_lt less i ltac:(lia)) as Hlt.
  split.
  - intros j Hj Hjp Hpj x y. assert (j <> i) by congruence. pose proof (parent_lt less j ltac:(lia)).
    rewrite (Hk j) by done.
    destruct (decide (parent j = i)) as [Heq|].
    + rewrite Heq, Hhi. by apply Hb; [| |lia].
    + rewrite (Hk (parent j)) by done. by apply Ha.
  - intros j Hj Hpj Hp x y. pose proof (parent_lt less (parent i) ltac:(lia)).
    rewrite (Hk (parent (parent i))) by lia.
    assert (Hpp : ordered less h (parent i) (parent (parent i))) by (apply Ha; lia).
    destruct (decide (j = i)) as [-> |]; [rewrite Hhi; by apply Hpp|].
    rewrite (Hk j) by (intros ->; lia).
    refine (ordered_trans less h j (parent i) _ ltac:(lia) _ Hpp x y).
    rewrite <- Hpj. apply Ha; [lia|done|lia].
Qed.

(** The heap order but between [i] and its parent: what [push_heap] starts from. *)
Definition heap_below i h (size : nat) : Prop :=
  forall j, (0 < j < size)%nat -> j <> i -> ordered less h j (parent j).

Lemma heap_below_up h h' i size :
  (0 < i < size)%nat -> (size <= length h)%nat -> ordered less h (parent i) i ->
  h' !! i = h !! parent i -> h' !! parent i = h !! i ->
  (forall k, k <> i -> k <> parent i -> h' !! k = h !! k) ->
  heap_except less i h size -> heap_below i h size -> heap_below (parent i) h' size.
Proof.
  intros Hi Hsize Hpi Hhi Hhp Hk [_ Hb] Hbel j Hj Hjp x y.
  pose proof (parent_lt less j ltac:(lia)). destruct (decide (j = i)) as [-> |].
  - rewrite Hhi, Hhp. apply Hpi.
  - rewrite (Hk j) by done. destruct (decide (parent j = i)) as [Heq|].
    + rewrite Heq, Hhi. by apply Hb; [| |lia].
    + destruct (decide (parent j = parent i)) as [Heq|].
      * rewrite Heq, Hhp. refine (ordered_trans less h j (parent i) i ltac:(lia) _ Hpi x y).
        rewrite <- Heq. by apply Hbel.
      * rewrite (Hk (parent j)) by done. by apply Hbel.
Qed.

Lemma sift_up_run fuel h p i size :
  (i <= fuel)%nat -> (i < size)%nat -> (size <= length h)%nat -> NoDup (ident <$> h) ->
  heap_except less i h size ->
  exists h' p' i', sift_up less place fuel h p i = Ok (h', p', i') /\
    carries place placed size h p i h' p' i' /\ (i' <= i)%nat /\ heap_above less i' h' size /\
    (heap_below i h size -> heap_on less h' size).
Proof.
  assert (Hend : forall h p i, heap_except less i h size ->
    (i = 0%nat \/ ordered less h i (parent i)) ->
    carries place placed size h p i h p i /\ (i <= i)%nat /\ heap_above less i h size /\
    (heap_below i h size -> heap_on less h size)).
  { clear. intros h p i [Ha Hb] Hi. split_and!; [apply carries_refl|lia|split; [|done]|].
    - intros j Hj Hp. destruct (decide (j = i)) as [-> |]; [destruct Hi; [lia|done]|by apply Ha].
    - intros Hbel j Hj. destruct (decide (j = i)) as [-> |]; [destruct Hi; [lia|done]|by apply Hbel]. }
  revert h p i. induction fuel as [|fuel IH]; intros h p i Hf Hi Hsize Hnd Hex.
  - exists h, p, i. split; [simpl; by destruct (Nat.ltb_spec 0 i); [lia|]|].
    apply Hend; [done|left; lia].
  - cbn [sift_up]. destruct (Nat.ltb_spec 0 i).
    + pose proof (parent_lt less i ltac:(lia)) as Hlt.
      destruct (comp_run less h i (parent i)) as (b & Eb & Hb); [lia..|]. rewrite Eb. simpl.
      destruct b; [|exists h, p, i; split; [done|]; apply Hend; [done|by right]].
      destruct (carries_step ident place placed size h p i (parent i))
        as (h1 & p1 & E1 & E2 & Hc & Hhi & Hk); [lia..|done|].
      rewrite E1. simpl. rewrite E2. simpl. pose proof (car_perm _ _ _ _ _ _ _ _ _ Hc) as Hp1.
      pose proof (car_elem _ _ _ _ _ _ _ _ _ Hc) as Hhp.
      destruct (IH h1 p1 (parent i)) as (h' & p' & i' & E & Hc' & Hle & Hh & Hbel);
        [lia|lia|by rewrite Hp1|by rewrite Hp1|by apply (heap_except_up h h1 i)|].
      exists h', p', i'. split_and!; [done|by eapply carries_trans|lia|done|].
      intros Hb0. apply Hbel. destruct Hb as [_ Hb]. by apply (heap_below_up h h1 i).
    + exists h, p, i. split; [done|]. apply Hend; [done|left; lia].
Qed.

(** Exchanging an element with its smallest child puts all but the child in order. *)
Lemma heap_above_down h h' i s size :
  (i < size)%nat -> (0 < s < size)%nat -> (size <= length h)%nat -> parent s = i ->
  comp less h s i = Ok true ->
  (forall j, j = i \/ (0 < j)%nat /\ parent j = i -> (j < size)%nat -> ordered less h j s) ->
  h' !! i = h !! s -> h' !! s = h !! i ->
  (forall k, k <> i -> k <> s -> h' !! k = h !! k) ->
  heap_above less i h size -> heap_above less s h' size.
Proof.
  intros Hi Hs Hsize Hps Hc Hmin Hhi Hhs Hk [Ha Hb].
  pose proof (parent_lt less s ltac:(lia)) as Hlt. split.
  - intros j Hj Hpj x y. pose proof (parent_lt less j ltac:(lia)).
    destruct (decide (parent j = i)) as [Heq|].
    + rewrite Heq, Hhi. destruct (decide (j = s)) as [-> |].
      * rewrite Hhs. apply Hmin; [by left|lia].
      * rewrite (Hk j) by lia. apply Hmin; [right; lia|lia].
    + rewrite (Hk (parent j)) by done. destruct (decide (j = i)) as [-> |].
      * rewrite Hhi. apply Hb; lia.
      * rewrite (Hk j) by congruence. by apply Ha.
  - intros j Hj Hpj _ x y. rewrite Hps, Hhi. pose proof (parent_lt less j ltac:(lia)).
    rewrite (Hk j) by lia. rewrite <- Hpj. apply Ha; lia.
Qed.

Lemma sift_down_run fuel h p i size :
  (size <= S fuel + i)%nat -> (i < size)%nat -> (size <= length h)%nat ->
  NoDup (ident <$> h) -> heap_above less i h size ->
  exists h' p' i', sift_down place fuel h size p i = Ok (h', p', i') /\
    carries place placed size h p i h' p' i' /\ (i' < size)%nat /\ heap_on less h' size.
Proof.
  revert h p i. induction fuel as [|fuel IH]; intros h p i Hf Hi Hsize Hnd Hab; cbn [sift_down];
    destruct (smallest_spec less h size i Hi Hsize) as (s & Es & Hs & Hmin); rewrite Es; simpl.
  all: destruct (Nat.eqb_spec s i) as [-> |Hne].
  1, 3: exists h, p, i; split_and!; [done|apply carries_refl|done|]; intros j Hj x y;
    destruct (decide (parent j = i)) as [<-|]; [by apply Hmin; [right|]; lia|by apply Hab].
  all: destruct Hs as [? |(Hs & Hps & Hc)]; [done|]; pose proof (parent_lt less s ltac:(lia)); try lia.
  destruct (carries_step ident place placed size h p i s)
    as (h1 & p1 & E1 & E2 & Hcar & Hhi & Hk); [lia..|done|].
  rewrite E1. simpl. rewrite E2. simpl.
  destruct (IH h1 p1 s) as (h' & p' & i' & E & Hc' & Hle & Hh); try lia.
  - by rewrite (car_perm _ _ _ _ _ _ _ _ _ Hcar).
  - by rewrite (car_perm _ _ _ _ _ _ _ _ _ Hcar).
  - eapply heap_above_down; [| | | | | |apply Hhi|apply Hcar|..]; try done; lia.
  - exists h', p', i'. split_and!; [done| |done|done]. by eapply carries_trans.
Qed.

Lemma change_heap_run h p i size :
  (i < size)%nat -> (size <= length h)%nat -> NoDup (ident <$> h) ->
  heap_except less i h size -> placed_but placed size size h p ->
  exists h' p' i', change_heap less place h size p i = Ok (h', p', i') /\
    (i' < size)%nat /\ heap_on less h' size /\ placed_but placed size size h' p' /\
    h' ≡ₚ h /\ h' !! i' = h !! i /\ (forall k, (size <= k)%nat -> h' !! k = h !! k) /\
    moved place h p p'.
Proof.
  intros Hi Hsize Hnd Hex Hpl. unfold change_heap. destruct (Nat.ltb_spec i size); [|lia].
  destruct (sift_up_run size h p i size) as (h1 & p1 & i1 & E1 & C1 & Hle & H1 & _); [lia..|done|done|].
  rewrite E1. simpl. pose proof (car_perm _ _ _ _ _ _ _ _ _ C1) as Hp1.
  destruct (sift_down_run size h1 p1 i1 size) as (h2 & p2 & i2 & E2 & C2 & Hi2 & H2);
    [lia|lia|by rewrite Hp1|by rewrite Hp1|done|].
  rewrite E2. simpl. pose proof (carries_trans _ _ _ _ _ _ _ _ _ _ _ _ C1 C2) as [Cp Ce Cb Cl Co Cm].
  destruct (lookup_lt_is_Some_2 h i) as [x Hx]; [lia|].
  assert (Hrest : placed_but placed size i2 h2 p2).
  { apply Cl. intros k a Hk _. apply Hpl; lia. }
  destruct (Nat.eqb_spec i2 i) as [-> |Hne].
  - exists h2, p2, i. split_and!; try done. intros k a Hk _ Ha.
    destruct (decide (k = i)) as [-> |]; [|by apply Hrest].
    rewrite Ce in Ha. apply (Co a i Ha). apply (Hpl i a Hi); [lia|done].
  - unfold place_at. rewrite Ce, Hx. simpl. exists h2, (place x i2 p2), i2.
    split_and!; try done; [|by rewrite Ce|].
    + intros k a Hk _ Ha. destruct (decide (k = i2)) as [-> |].
      * rewrite Ce, Hx in Ha. injection Ha as <-. apply placed_place.
      * apply placed_other; [|by apply Hrest]. intros Heq.
        assert (Hnd2 : NoDup (ident <$> h2)) by by rewrite Cp.
        assert (k = i2); [|done]. eapply (NoDup_lookup _ k i2 (ident x) Hnd2);
          by rewrite list_lookup_fmap, ?Ha, ?Ce, ?Hx; simpl; rewrite ?Heq.
    + unfold moved. etrans; [exact Cm|]. apply rtc_once. exists x, i2. split; [|done].
      by eapply list_elem_of_lookup_2.
Qed.

Lemma heap_on_except i h size : heap_on less h size -> (size <= length h)%nat ->
  heap_except less i h size.
Proof.
  intros Hh Hl. split; [auto|]. intros j Hj Hp Hi. pose proof (parent_lt less j ltac:(lia)).
  apply (ordered_trans less h j i _ ltac:(lia)); [rewrite <- Hp; by apply Hh|apply Hh; lia].
Qed.

(** The first element of a heap is not greater than any other. *)
Lemma heap_first h size j :
  heap_on less h size -> (size <= length h)%nat -> (j < size)%nat -> ordered less h j 0.
Proof.
  intros Hh Hl. induction (lt_wf j) as [j _ IH]. intros Hj.
  destruct (decide (j = 0%nat)) as [-> |]; [apply (ordered_refl less)|].
  pose proof (parent_lt less j ltac:(lia)).
  apply (ordered_trans less h j (parent j) 0 ltac:(lia)); [apply Hh; lia|apply IH; lia].
Qed.

Lemma placed_but_all size h p : placed_but placed size size h p <->
  forall k a, (k < size)%nat -> h !! k = Some a -> placed p a k.
Proof. split; [intros Hp k a Hk; apply Hp; lia|intros Hp k a Hk _; by apply Hp]. Qed.

Lemma push_heap_run h p :
  (0 < length h)%nat -> NoDup (ident <$> h) -> heap_on less h (length h - 1) ->
  placed_but placed (length h) (length h - 1) h p ->
  exists h' p', push_heap less place h p = Ok (h', p') /\ heap_on less h' (length h) /\
    placed_but placed (length h) (length h) h' p' /\ h' ≡ₚ h /\ moved place h p p'.
Proof.
  intros Hl Hnd Hh Hpl. unfold push_heap. destruct (Nat.ltb_spec 0 (length h)); [|lia].
  assert (Hbel : heap_below (length h - 1) h (length h)) by (intros j Hj Hne; apply Hh; lia).
  assert (Hex : heap_except less (length h - 1) h (length h)).
  { split; [intros j Hj Hne _; by apply Hbel|]. intros j Hj Hp. pose proof (parent_lt less j). lia. }
  destruct (sift_up_run (length h) h p (length h - 1) (length h))
    as (h' & p' & i & E & [Cp Ce Cb Cl Co Cm] & Hle & _ & Hon); [lia..|done|done|].
  rewrite E. simpl. destruct (lookup_lt_is_Some_2 h (length h - 1)) as [x Hx]; [lia|].
  unfold place_at. rewrite Ce, Hx. simpl. exists h', (place x i p').
  split_and!; [done|by apply Hon| |done|].
  - apply placed_but_all. intros k a Hk Ha. destruct (decide (k = i)) as [-> |Hki].
    + rewrite Ce, Hx in Ha. injection Ha as <-. apply placed_place.
    + apply placed_other; [|by apply Cl]. intros Heq. apply Hki.
      assert (Hnd2 : NoDup (ident <$> h')) by by rewrite Cp.
      eapply (NoDup_lookup _ k i (ident x) Hnd2);
        by rewrite list_lookup_fmap, ?Ha, ?Ce, ?Hx; simpl; rewrite ?Heq.
  - unfold moved. etrans; [exact Cm|]. apply rtc_once. exists x, i. split; [|done].
    by eapply list_elem_of_lookup_2.
Qed.

(** The element is moved to the end, and the rest is a heap. *)
Lemma remove_heap_run h p i x :
  h !! i = Some x -> NoDup (ident <$> h) -> heap_on less h (length h) ->
  placed_but placed (length h) (length h) h p ->
  exists h' p', remove_heap less place h p i = Ok (h' ++ [x], p') /\
    heap_on less h' (length h') /\ placed_but placed (length h') (length h') h' p' /\
    h' ++ [x] ≡ₚ h /\ moved place h p p'.
Proof.
  intros Hx Hnd Hh Hpl. pose proof (lookup_lt_Some _ _ _ Hx) as Hi. unfold remove_heap.
  destruct (Nat.ltb_spec i (length h)); [|lia].
  assert (Hsplit : forall h1, h1 ≡ₚ h -> h1 !! (length h - 1)%nat = Some x ->
    exists h', h1 = h' ++ [x] /\ length h' = (length h - 1)%nat).
  { intros h1 Hp Hlast. exists (take (length h - 1) h1). pose proof (Permutation_length Hp).
    split; [|rewrite length_take; lia]. rewrite <- (take_drop (length h - 1) h1) at 1. f_equal.
    rewrite (drop_S h1 x) by done. rewrite drop_ge; [done|lia]. }
  assert (Hleft : forall h1 p1, heap_on less (h1 ++ [x]) (length h1) ->
    placed_but placed (length h1) (length h1) (h1 ++ [x]) p1 ->
    heap_on less h1 (length h1) /\ placed_but placed (length h1) (length h1) h1 p1).
  { clear -HeapShapeLaws0. intros h1 p1 Hh Hpl. split.
    - intros j Hj a b. pose proof (parent_lt less j ltac:(lia)).
      rewrite <- !(lookup_app_l h1 [x]) by lia. by apply Hh.
    - intros k a Hk Hne Ha. apply Hpl; [done..|]. by rewrite lookup_app_l. }
  destruct (Nat.eqb_spec (i + 1) (length h)).
  - destruct (Hsplit h) as (h' & -> & Hl); [done|by replace (length h - 1)%nat with i by lia|].
    exists h', p. destruct (Hleft h' p) as [Hh' Hpl'].
    + intros j Hj. apply Hh. rewrite length_app. simpl. lia.
    + rewrite length_app in Hpl. intros k a Hk Hne. apply Hpl; simpl; lia.
    + split_and!; [done..|apply rtc_refl].
  - destruct (carries_step ident place placed (length h) h p i (length h - 1))
      as (h1 & p1 & E1 & E2 & [Cp Ce Cb Cl Co Cm] & Hhi & Hk); [lia..|done|].
    rewrite E1. simpl. rewrite E2. simpl.
    pose proof (Permutation_length Cp) as Hl1.
    destruct (change_heap_run h1 p1 i (length h - 1))
      as (h2 & p2 & i2 & E & Hi2 & Hh2 & Hpl2 & Hp2 & He2 & Hb2 & Hm2);
      [lia|lia|by rewrite Cp| | |].
    + destruct (heap_on_except i h (length h) Hh) as [Ha Hb]; [lia|].
      split; intros j Hj; pose proof (parent_lt less j ltac:(lia)).
      * intros Hji Hpi a b. rewrite !Hk by lia. apply Ha; [lia|done|done].
      * intros Hpi Hi0 a b. pose proof (parent_lt less i ltac:(lia)). rewrite !Hk by lia.
        apply Hb; [lia|done|lia].
    + intros k a Hks _. apply Cl; [|lia..]. intros k' a' Hk' _. apply Hpl; lia.
    + rewrite Hl1, E. simpl. destruct (Hsplit h2) as (h' & -> & Hl').
      * by rewrite Hp2.
      * rewrite Hb2 by lia. by rewrite Ce.
      * exists h', p2. split; [done|]. rewrite <- Hl' in Hh2, Hpl2.
        destruct (Hleft h' p2 Hh2 Hpl2). split_and!; [done|done|by rewrite Hp2|].
        unfold moved. etrans; [exact Cm|]. by apply (moved_perm place h1).
Qed.
End Loops.

(** [do_nothing], the default placement function. *)
Definition do_nothing {A} (_ : A) (_ : nat) (p : unit) : unit := p.
#[export] Instance do_nothing_placement {A} :
  Placement (A := A) (fun a => a) do_nothing (fun _ _ _ => True).
Proof. done. Qed.

#[export] Instance ltb_strict_weak : StrictWeak Z.ltb.
Proof. split; intros *; rewrite ?Z.ltb_lt, ?Z.ltb_ge; lia. Qed.

(** The heap functions of any arity keep their contract.  From an array that is a heap but
    for its last element, [push_heap] makes a heap; from a heap but for the element at [i],
    whatever has become of it, [change_heap] makes a heap and returns the element's new index;
    [remove_heap] moves the element at [i] to the end and leaves a heap before it.  No index
    is out of bounds, the loops end, the result is a permutation, [place] is called so that
    every element of the heap has its index recorded, and the first element of a heap is not
    greater than any other. *)
Theorem heap_functions {A P K} (ident : A -> K) less place placed
  `{!StrictWeak less, !Placement ident place placed, HeapShape A, !HeapShapeLaws less}
  (h : list A) (p : P) (Hnd : NoDup (ident <$> h)) :
  let n := length h in
  (forall (Hn : (0 < n)%nat) (Hh : heap_on less h (n - 1)) (Hp : placed_but placed n (n - 1) h p),
    exists h' p', push_heap less place h p = Ok (h', p') /\ heap_on less h' n /\
      placed_but placed n n h' p' /\ h' ≡ₚ h) /\
  (forall i (Hi : (i < n)%nat) (Hh : heap_except less i h n) (Hp : placed_but placed n n h p),
    exists h' p' i', change_heap less place h n p i = Ok (h', p', i') /\ heap_on less h' n /\
      placed_but placed n n h' p' /\ h' ≡ₚ h /\ h' !! i' = h !! i) /\
  (forall i x (Hx : h !! i = Some x) (Hh : heap_on less h n) (Hp : placed_but placed n n h p),
    exists h' p', remove_heap less place h p i = Ok (h' ++ [x], p') /\
      heap_on less h' (n - 1) /\ placed_but placed (n - 1) (n - 1) h' p' /\ h' ++ [x] ≡ₚ h) /\
  (heap_on less h n -> forall j, (j < n)%nat -> ordered less h j 0).
Proof.
  intros n. subst n. split_and!.
  - intros Hn Hh Hp. destruct (push_heap_run ident less place placed h p)
      as (h' & p' & ? & ? & ? & ? & ?); [done..|]. by exists h', p'.
  - intros i Hi Hh Hp. destruct (change_heap_run ident less place placed h p i (length h))
      as (h' & p' & i' & ? & ? & ? & ? & ? & ? & ?); [done..|]. by exists h', p', i'.
  - intros i x Hx Hh Hp. destruct (remove_heap_run ident less place placed h p i x)
      as (h' & p' & E & Hh' & Hp' & Hperm & _); [done..|]. exists h', p'.
    assert (length h' = (length h - 1)%nat) as <-; [|done].
    rewrite <- (Permutation_length Hperm), length_app. simpl. lia.
  - intros Hh j Hj. by apply (heap_first less h (length h)).
Qed.

Lemma heap_functions_witness :
  exists h' p', remove_heap (H := dary_shape Z.ltb 4) Z.ltb do_nothing [1; 2; 7; 3; 5; 8] tt 1 =
    Ok (h' ++ [2], p') /\ heap_on (H := dary_shape Z.ltb 4) Z.ltb h' 5.
Proof.
  destruct (heap_functions (fun a : Z => a) Z.ltb do_nothing (fun _ _ _ => True)
    (H := dary_shape Z.ltb 4) (HeapShapeLaws0 := dary_laws Z.ltb 4 ltac:(lia))
    [1; 2; 7; 3; 5; 8] tt) as (_ & _ & Hr & _).
  - by apply (bool_decide_unpack (NoDup _)).
  - destruct (Hr 1%nat 2) as (h' & p' & E & Hh & _); [done| |done|by exists h', p'].
    intros [|[|[|[|[|[|j]]]]]] Hj; try (simpl in Hj; lia); intros a b [= <-] [= <-]; done.
Defined.
