(* ===== verification/TimerSet.v ===== *)
(** * Timers ([lib/timer.cc], [lib/timerset.cc], [timer.hh], [timerset.hh])

    A thread's [TimerSet] keeps the scheduled timers in a 4-ary heap ordered by expiry; each
    [Timer] knows its position ([_schedpos1]).  [run_timers] pops the timers that are due and
    calls them back.  The build is the single-threaded user-level driver: locks do nothing,
    and a [Timestamp] is a 64-bit number of microseconds, whose range is not exceeded.  A
    callback is any function from the state to the timer operations it performs.  Timers are
    told apart by their addresses. *)
From Stdlib Require Import ZArith Lia.
From stdpp Require Import base list numbers option relations functions.
From S2P Require Import Prelude Heap.

(** ** [Timestamp] *)
Definition subsec_per_sec : Z := 1000000.
Definition Timestamp_make (sec subsec : Z) : Z := s32 sec * subsec_per_sec + u32 subsec.
Definition sec (t : Z) : Z :=
  s32 (if t <? 0 then - (- (t + 1) / subsec_per_sec) - 1 else t / subsec_per_sec).
Definition subsec (t : Z) : Z := u32 (t - sec t * subsec_per_sec).
Definition make_msec (msec : Z) : Z := msec * (subsec_per_sec / 1000).
Definition make_usec (usec : Z) : Z := usec * (subsec_per_sec / 1000000).
Definition epsilon : Z := Timestamp_make 0 1.

(** ** State *)

(** [_owner] is kept as the number of the element's router; [None] is a null pointer. *)
Record Timer : Type := MkTimer { schedpos1 : Z; expiry_s : Z; owner : option nat }.
Definition set_schedpos1 (z : Z) (t : Timer) : Timer := MkTimer z (expiry_s t) (owner t).
Definition set_expiry_s (z : Z) (t : Timer) : Timer := MkTimer (schedpos1 t) z (owner t).
Definition set_owner (o : option nat) (t : Timer) : Timer :=
  MkTimer (schedpos1 t) (expiry_s t) o.
(** The constructors, also the copy constructor. *)
Definition Timer_new : Timer := MkTimer 0 0 None.

Definition initialized (t : Timer) : bool := bool_decide (is_Some (owner t)).
Definition scheduled (t : Timer) : bool := negb (schedpos1 t =? 0).

Record heap_element : Type := HeapElement { he_expiry : Z; he_t : nat }.
Definition heap_less (a b : heap_element) : bool := he_expiry a <? he_expiry b.
Definition heap_place (e : heap_element) (i : nat) (timers : nat -> Timer) : nat -> Timer :=
  <[he_t e := set_schedpos1 (Z.of_nat i + 1) (timers (he_t e))]> timers.

(** [ts_timers] is the memory the [Timer] objects live in, [ts_stop] the thread's stop flag. *)
Record TimerSet : Type := MkTimerSet {
  ts_expiry : Z;
  ts_max_stride : Z;
  ts_stride : Z;
  ts_count : Z;
  ts_heap : list heap_element;
  ts_runchunk : list (option nat);
  ts_check : Z;
  ts_timers : nat -> Timer;
  ts_stop : bool
}.
Definition set_ts_expiry z ts := MkTimerSet z (ts_max_stride ts) (ts_stride ts) (ts_count ts)
  (ts_heap ts) (ts_runchunk ts) (ts_check ts) (ts_timers ts) (ts_stop ts).
Definition set_strides m z c ts := MkTimerSet (ts_expiry ts) m z c
  (ts_heap ts) (ts_runchunk ts) (ts_check ts) (ts_timers ts) (ts_stop ts).
Definition set_heap h p ts := MkTimerSet (ts_expiry ts) (ts_max_stride ts) (ts_stride ts)
  (ts_count ts) h (ts_runchunk ts) (ts_check ts) p (ts_stop ts).
Definition set_runchunk r ts := MkTimerSet (ts_expiry ts) (ts_max_stride ts) (ts_stride ts)
  (ts_count ts) (ts_heap ts) r (ts_check ts) (ts_timers ts) (ts_stop ts).
Definition set_check z ts := MkTimerSet (ts_expiry ts) (ts_max_stride ts) (ts_stride ts)
  (ts_count ts) (ts_heap ts) (ts_runchunk ts) z (ts_timers ts) (ts_stop ts).
Definition set_stop b ts := MkTimerSet (ts_expiry ts) (ts_max_stride ts) (ts_stride ts)
  (ts_count ts) (ts_heap ts) (ts_runchunk ts) (ts_check ts) (ts_timers ts) b.
Definition update_timer (t : nat) (f : Timer -> Timer) (ts : TimerSet) : TimerSet :=
  set_heap (ts_heap ts) (<[t := f (ts_timers ts t)]> (ts_timers ts)) ts.

(** The constructor, at time [now]. *)
Definition TimerSet_new (now : Z) (timers : nat -> Timer) : TimerSet :=
  MkTimerSet 0 32 32 0 [] [] now timers false.
Definition set_max_timer_stride (s : Z) (ts : TimerSet) : TimerSet :=
  set_strides s (if s <? ts_stride ts then s else ts_stride ts) (ts_count ts) ts.

(** A timer's callback ran, at this nominal expiry; the thread was woken. *)
Inductive timer_event : Type :=
| Fired (t : nat) (expiry : Z)
| Woken.

Definition timer_handler (A : Type) : Type := handler TimerSet timer_event A.

(** ** Scheduling *)
Definition set_timer_expiry (ts : TimerSet) : TimerSet :=
  set_ts_expiry (match ts_heap ts with e :: _ => he_expiry e | [] => 0 end) ts.

Definition next_timer (ts : TimerSet) : option nat :=
  match ts_heap ts with e :: _ => Some (he_t e) | [] => None end.

Definition behind_sec : Z := 1.
Definition check_timer_expiry (ts : TimerSet) (expiry : Z) : Z :=
  if sec expiry + behind_sec <? sec (ts_check ts) then ts_check ts else expiry.

(** [ts._timer_runchunk[-_schedpos1 - 1] = 0]. *)
Definition runchunk_clear (pos1 : Z) (ts : TimerSet) : res TimerSet :=
  let i := Z.to_nat (- pos1 - 1) in
  if (i <? length (ts_runchunk ts))%nat
  then Ok (set_runchunk (<[i := None]> (ts_runchunk ts)) ts) else Fault AssertFailed.

(** [change_heap<4>], [remove_heap<4>] and [pop_heap<4>] with [heap_less] and [heap_place]. *)
#[export] Instance timer_heap_shape : HeapShape := dary_shape heap_less 4.
Definition change_heap4 := change_heap heap_less heap_place.
Definition remove_heap4 := remove_heap heap_less heap_place.
Definition pop_heap4 := pop_heap heap_less heap_place.

Definition schedule_at_steady (t : nat) (when : Z) : timer_handler unit := fun ts =>
  if negb (initialized (ts_timers ts t)) then Fault AssertFailed
  else
    let expiry := check_timer_expiry ts (if when =? 0 then epsilon else when) in
    let ts := update_timer t (set_expiry_s expiry) ts in
    let old_schedpos1 := schedpos1 (ts_timers ts t) in
    ts ← (if old_schedpos1 <=? 0 then
            ts ← (if old_schedpos1 <? 0 then runchunk_clear old_schedpos1 ts else Ok ts);
            let ts := update_timer t (set_schedpos1 (Z.of_nat (length (ts_heap ts)) + 1)) ts in
            Ok (set_heap (ts_heap ts ++ [HeapElement (expiry_s (ts_timers ts t)) t])
                  (ts_timers ts) ts)
          else
            let i := Z.to_nat (old_schedpos1 - 1) in
            e ← opt_res OutOfBounds (ts_heap ts !! i);
            Ok (set_heap (<[i := HeapElement expiry (he_t e)]> (ts_heap ts)) (ts_timers ts) ts));
    '(h, timers, _) ← change_heap4 (ts_heap ts) (length (ts_heap ts)) (ts_timers ts)
                        (Z.to_nat (schedpos1 (ts_timers ts t) - 1));
    let ts := set_heap h timers ts in
    let first := schedpos1 (ts_timers ts t) =? 1 in
    let ts := if (old_schedpos1 =? 1) || first then set_timer_expiry ts else ts in
    Ok (tt, ts, if first then [Woken] else []).

Definition unschedule (t : nat) : timer_handler unit := fun ts =>
  let old_schedpos1 := schedpos1 (ts_timers ts t) in
  if negb (scheduled (ts_timers ts t)) then Ok (tt, ts, [])
  else
    ts ← (if 0 <? old_schedpos1 then
            '(h, timers) ← remove_heap4 (ts_heap ts) (ts_timers ts)
                             (Z.to_nat (old_schedpos1 - 1));
            let ts := set_heap (removelast h) timers ts in
            Ok (if old_schedpos1 =? 1 then set_timer_expiry ts else ts)
          else runchunk_clear old_schedpos1 ts);
    Ok (tt, update_timer t (set_schedpos1 0) ts, []).

Definition clear (t : nat) : timer_handler unit :=
  unschedule t ;;; hmodify (update_timer t (set_expiry_s 0)).

Definition initialize (t router : nat) : timer_handler unit := fun ts =>
  match owner (ts_timers ts t) with
  | Some r => if (r =? router)%nat then Ok (tt, update_timer t (set_owner (Some router)) ts, [])
              else Fault AssertFailed
  | None => Ok (tt, update_timer t (set_owner (Some router)) ts, [])
  end.

(** [schedule_after] and [reschedule_after] with their variants; [now] is the steady clock. *)
Definition schedule_after (now : Z) (t : nat) (delta : Z) : timer_handler unit :=
  schedule_at_steady t (now + delta).
Definition schedule_after_sec (now : Z) (t : nat) (delta_sec : Z) : timer_handler unit :=
  schedule_after now t (Timestamp_make delta_sec 0).
Definition schedule_after_msec (now : Z) (t : nat) (delta_msec : Z) : timer_handler unit :=
  schedule_after now t (make_msec delta_msec).
Definition reschedule_after (t : nat) (delta : Z) : timer_handler unit :=
  ts <-- hget ;; schedule_at_steady t (expiry_s (ts_timers ts t) + delta).
Definition reschedule_after_sec (t : nat) (delta_sec : Z) : timer_handler unit :=
  ts <-- hget ;;
  let e := expiry_s (ts_timers ts t) in
  schedule_at_steady t (Timestamp_make (sec e + delta_sec) (subsec e)).
Definition reschedule_after_msec (t : nat) (delta_msec : Z) : timer_handler unit :=
  reschedule_after t (make_msec delta_msec).

(** ** [kill_router] *)

(** The loop steps a pointer down from the end of the heap; [n] is the distance left. *)
Fixpoint kill_loop (router n : nat) (ts : TimerSet) : res TimerSet :=
  match n with
  | O => Ok ts
  | S thp =>
      e ← opt_res OutOfBounds (ts_heap ts !! thp);
      let t := he_t e in
      r ← opt_res NullDeref (owner (ts_timers ts t));
      ts ← (if (r =? router)%nat then
              '(h, timers) ← remove_heap4 (ts_heap ts) (ts_timers ts) thp;
              let ts := set_heap (removelast h) timers ts in
              Ok (update_timer t (fun tm => MkTimer 0 (expiry_s tm) None) ts)
            else Ok ts);
      kill_loop router thp ts
  end.
Definition kill_router (router : nat) : timer_handler unit := fun ts =>
  match ts_runchunk ts with
  | [] => ts ← kill_loop router (length (ts_heap ts)) ts; Ok (tt, set_timer_expiry ts, [])
  | _ :: _ => Fault AssertFailed
  end.

(** ** The invariant *)
#[export] Instance heap_less_strict_weak : StrictWeak heap_less.
Proof. split; unfold heap_less; intros *; rewrite ?Z.ltb_lt, ?Z.ltb_ge; lia. Qed.

Definition placed_timer (timers : nat -> Timer) (e : heap_element) (i : nat) : Prop :=
  schedpos1 (timers (he_t e)) = Z.of_nat i + 1.
#[export] Instance heap_placement : Placement he_t heap_place placed_timer.
Proof.
  unfold heap_place, placed_timer. split; intros *.
  - by rewrite fn_lookup_insert.
  - intros Hne. by rewrite fn_lookup_insert_ne.
Qed.
#[export] Instance heap4_laws : HeapShapeLaws heap_less.
Proof. apply dary_laws; [apply _|lia]. Qed.

Definition heap4 (h : list heap_element) : Prop :=
  heap_on heap_less h (length h).

(** The heap's elements and the timers with a positive position are each other's, with the
    same expiry; from index [k] on, the run chunk and the timers with a negative position
    are each other's; only initialized timers are scheduled. *)
Record ts_links (k : nat) (ts : TimerSet) : Prop := {
  lk_pos : forall i e, ts_heap ts !! i = Some e ->
    schedpos1 (ts_timers ts (he_t e)) = Z.of_nat i + 1 /\
    expiry_s (ts_timers ts (he_t e)) = he_expiry e;
  lk_in : forall t, 0 < schedpos1 (ts_timers ts t) -> t ∈ he_t <$> ts_heap ts;
  lk_chunk : forall t, schedpos1 (ts_timers ts t) < 0 ->
    exists i, (k <= i)%nat /\ ts_runchunk ts !! i = Some (Some t) /\
      schedpos1 (ts_timers ts t) = - Z.of_nat i - 1;
  lk_run : forall i t, (k <= i)%nat -> ts_runchunk ts !! i = Some (Some t) ->
    schedpos1 (ts_timers ts t) = - Z.of_nat i - 1;
  lk_owner : forall t, schedpos1 (ts_timers ts t) <> 0 -> is_Some (owner (ts_timers ts t))
}.
(** The cached expiry is the first element's, 0 when there is none. *)
Definition first_cached (ts : TimerSet) : Prop :=
  ts_expiry ts = match ts_heap ts with e :: _ => he_expiry e | [] => 0 end.
Definition ts_ok (k : nat) (ts : TimerSet) : Prop :=
  heap4 (ts_heap ts) /\ ts_links k ts /\ first_cached ts.

Section Links.
Context {k : nat} {ts : TimerSet} (L : ts_links k ts).

Lemma links_nodup : NoDup (he_t <$> ts_heap ts).
Proof.
  apply NoDup_alt. intros i j t. rewrite !list_lookup_fmap.
  destruct (ts_heap ts !! i) as [a|] eqn:Ea; [|done].
  destruct (ts_heap ts !! j) as [b|] eqn:Eb; [|done]. simpl. intros [= Ha] [= Hb].
  destruct (lk_pos _ _ L _ _ Ea) as [Hi _], (lk_pos _ _ L _ _ Eb) as [Hj _].
  rewrite Ha in Hi. rewrite Hb in Hj. lia.
Qed.

Lemma links_in t :
  0 < schedpos1 (ts_timers ts t) ->
  exists e, ts_heap ts !! Z.to_nat (schedpos1 (ts_timers ts t) - 1) = Some e /\ he_t e = t /\
    he_expiry e = expiry_s (ts_timers ts t).
Proof.
  intros Ht. pose proof (lk_in _ _ L t Ht) as (e & -> & (i & Hi)%list_elem_of_lookup)%list_elem_of_fmap.
  destruct (lk_pos _ _ L i e Hi) as [-> ->].
  exists e. by replace (Z.to_nat (Z.of_nat i + 1 - 1)) with i by lia.
Qed.

Lemma links_placed : placed_but placed_timer (length (ts_heap ts)) (length (ts_heap ts))
  (ts_heap ts) (ts_timers ts).
Proof. intros i e _ _ He. apply (lk_pos _ _ L i e He). Qed.
End Links.

(** Placing changes positions only, and only those of the heap's elements. *)
Lemma moved_frame h p p' :
  moved heap_place h p p' ->
  forall t, expiry_s (p' t) = expiry_s (p t) /\ owner (p' t) = owner (p t) /\
    (t ∉ he_t <$> h -> p' t = p t).
Proof.
  induction 1 as [p|p q p' (e & i & He & ->) _ IH]; intros t; [done|].
  destruct (IH t) as (H1 & H2 & H3). rewrite H1, H2. unfold heap_place in *.
  destruct (decide (he_t e = t)) as [<-|Hne].
  - rewrite fn_lookup_insert. split_and!; [done..|]. intros Hnot. destruct Hnot.
    by apply list_elem_of_fmap_2.
  - rewrite fn_lookup_insert_ne by done. split_and!; [done..|]. intros Hnot.
    by rewrite H3, fn_lookup_insert_ne.
Qed.

(** A heap function that permutes the heap and places its elements keeps the links. *)
Lemma links_reorder k ts h' p' :
  ts_links k ts -> h' ≡ₚ ts_heap ts -> moved heap_place (ts_heap ts) (ts_timers ts) p' ->
  placed_but placed_timer (length h') (length h') h' p' ->
  ts_links k (set_heap h' p' ts).
Proof.
  intros L Hp Hm Hpl. pose proof (moved_frame _ _ _ Hm) as Hf.
  assert (Hin : forall t, t ∈ he_t <$> h' <-> t ∈ he_t <$> ts_heap ts) by (intros; by rewrite Hp).
  assert (Hheap : forall t, t ∈ he_t <$> ts_heap ts ->
    0 < schedpos1 (p' t) /\ 0 < schedpos1 (ts_timers ts t)).
  { intros t Ht. split.
    - rewrite <- Hin in Ht. apply list_elem_of_fmap in Ht as (e & -> & (i & Hi)%list_elem_of_lookup).
      pose proof (lookup_lt_Some _ _ _ Hi). rewrite (Hpl i e); [lia|done|lia|done].
    - apply list_elem_of_fmap in Ht as (e & -> & (i & Hi)%list_elem_of_lookup).
      destruct (lk_pos _ _ L i e Hi) as [-> _]. lia. }
  assert (Hout : forall t, schedpos1 (p' t) <= 0 \/ schedpos1 (ts_timers ts t) <= 0 ->
    p' t = ts_timers ts t).
  { intros t Ht. apply Hf. intros Hc. apply Hheap in Hc. lia. }
  split; simpl.
  - intros i e Hi. pose proof (lookup_lt_Some _ _ _ Hi).
    split; [apply (Hpl i e); [done|lia|done]|]. destruct (Hf (he_t e)) as [-> _].
    assert (He : e ∈ ts_heap ts) by (rewrite <- Hp; by eapply list_elem_of_lookup_2).
    apply list_elem_of_lookup in He as [j Hj]. by apply (lk_pos _ _ L j e).
  - intros t Ht. apply Hin. destruct (decide (t ∈ he_t <$> ts_heap ts)) as [|Hn]; [done|].
    apply (lk_in _ _ L). destruct (Hf t) as (_ & _ & E). by rewrite <- E.
  - intros t Ht. rewrite (Hout t) in * by lia. by apply (lk_chunk _ _ L).
  - intros i t Hi Hr. pose proof (lk_run _ _ L i t Hi Hr). rewrite Hout by lia. done.
  - intros t Ht. destruct (Hf t) as (_ & -> & E). apply (lk_owner _ _ L).
    intros Hz. apply Ht. rewrite (Hout t) by lia. done.
Qed.

(** The links of all timers but [t], which is not in the heap. *)
Record links_but (t k : nat) (ts : TimerSet) : Prop := {
  lb_pos : forall i e, ts_heap ts !! i = Some e -> he_t e <> t /\
    schedpos1 (ts_timers ts (he_t e)) = Z.of_nat i + 1 /\
    expiry_s (ts_timers ts (he_t e)) = he_expiry e;
  lb_in : forall t', t' <> t -> 0 < schedpos1 (ts_timers ts t') -> t' ∈ he_t <$> ts_heap ts;
  lb_chunk : forall t', t' <> t -> schedpos1 (ts_timers ts t') < 0 ->
    exists i, (k <= i)%nat /\ ts_runchunk ts !! i = Some (Some t') /\
      schedpos1 (ts_timers ts t') = - Z.of_nat i - 1;
  lb_run : forall i t', t' <> t -> (k <= i)%nat -> ts_runchunk ts !! i = Some (Some t') ->
    schedpos1 (ts_timers ts t') = - Z.of_nat i - 1;
  lb_owner : forall t', t' <> t -> schedpos1 (ts_timers ts t') <> 0 ->
    is_Some (owner (ts_timers ts t'))
}.

Lemma links_but_of t k ts :
  ts_links k ts -> schedpos1 (ts_timers ts t) <= 0 -> links_but t k ts.
Proof.
  intros L Ht. split; [|intros *; intros _; apply L..].
  intros i e He. destruct (lk_pos _ _ L i e He). split_and!; [|done..]. intros <-. lia.
Qed.

Lemma links_but_change t k ts k' ts' :
  links_but t k ts -> ts_heap ts' = ts_heap ts ->
  (forall t', t' <> t -> ts_timers ts' t' = ts_timers ts t') ->
  (forall i t', t' <> t -> (k' <= i)%nat /\ ts_runchunk ts' !! i = Some (Some t') <->
    (k <= i)%nat /\ ts_runchunk ts !! i = Some (Some t')) ->
  links_but t k' ts'.
Proof.
  intros B Hh Ht Hr. split.
  - intros i e. rewrite Hh. intros He. destruct (lb_pos _ _ _ B i e He) as (? & ? & ?).
    by rewrite Ht.
  - intros t' Hne. rewrite Hh, Ht by done. by apply (lb_in _ _ _ B).
  - intros t' Hne. rewrite Ht by done. intros (i & Hk & Hi & E)%(lb_chunk _ _ _ B); [|done].
    exists i. by destruct (proj2 (Hr i t' Hne) (conj Hk Hi)).
  - intros i t' Hne Hk Hi. rewrite Ht by done. destruct (proj1 (Hr i t' Hne) (conj Hk Hi)).
    by apply (lb_run _ _ _ B).
  - intros t' Hne. rewrite Ht by done. by apply (lb_owner _ _ _ B).
Qed.

Lemma links_but_links t k ts :
  links_but t k ts ->
  (schedpos1 (ts_timers ts t) = 0 \/
   exists i, (k <= i)%nat /\ ts_runchunk ts !! i = Some (Some t) /\
     schedpos1 (ts_timers ts t) = - Z.of_nat i - 1 /\ is_Some (owner (ts_timers ts t))) ->
  (forall i, (k <= i)%nat -> ts_runchunk ts !! i = Some (Some t) ->
    schedpos1 (ts_timers ts t) = - Z.of_nat i - 1) ->
  ts_links k ts.
Proof.
  intros B Ht Hr. assert (Hle : schedpos1 (ts_timers ts t) <= 0) by (destruct Ht as [|(? & ?)]; lia).
  split.
  - intros i e He. by apply (lb_pos _ _ _ B).
  - intros t'. destruct (decide (t' = t)) as [-> |]; [lia|by apply (lb_in _ _ _ B)].
  - intros t'. destruct (decide (t' = t)) as [-> |]; [|by apply (lb_chunk _ _ _ B)].
    intros ?. destruct Ht as [|(i & ? & ? & ? & _)]; [lia|by exists i].
  - intros i t'. destruct (decide (t' = t)) as [-> |]; [by apply Hr|by apply (lb_run _ _ _ B)].
  - intros t'. destruct (decide (t' = t)) as [-> |]; [|by apply (lb_owner _ _ _ B)].
    intros ?. by destruct Ht as [|(i & ? & ? & ? & ?)].
Qed.

Lemma links_but_push t k ts :
  links_but t k ts -> is_Some (owner (ts_timers ts t)) ->
  schedpos1 (ts_timers ts t) = Z.of_nat (length (ts_heap ts)) + 1 ->
  (forall i, (k <= i)%nat -> ts_runchunk ts !! i <> Some (Some t)) ->
  ts_links k (set_heap (ts_heap ts ++ [HeapElement (expiry_s (ts_timers ts t)) t])
                (ts_timers ts) ts).
Proof.
  intros B Ho Ht Hr. split; simpl.
  - intros i e [He|(Hi & He)]%lookup_app_Some; [by apply (lb_pos _ _ _ B)|].
    apply list_lookup_singleton_Some in He as [? <-]. simpl. rewrite Ht. lia.
  - intros t' Ht'. rewrite fmap_app, elem_of_app. destruct (decide (t' = t)) as [-> |].
    + right. by apply list_elem_of_singleton.
    + left. by apply (lb_in _ _ _ B).
  - intros t' Ht'. apply (lb_chunk _ _ _ B); [|done]. intros ->. lia.
  - intros i t' Hk Hi. apply (lb_run _ _ _ B); [|done..]. intros ->. by apply (Hr i).
  - intros t'. destruct (decide (t' = t)) as [-> |]; [done|by apply (lb_owner _ _ _ B)].
Qed.

(** Taking an element out of the heap leaves the others linked. *)
Lemma links_take_out k ts h' x p' :
  ts_links k ts -> h' ++ [x] ≡ₚ ts_heap ts ->
  moved heap_place (ts_heap ts) (ts_timers ts) p' ->
  placed_but placed_timer (length h') (length h') h' p' ->
  links_but (he_t x) k (set_heap h' p' ts).
Proof.
  intros L Hp Hm Hpl. pose proof (moved_frame _ _ _ Hm) as Hf.
  pose proof (links_nodup L) as Hnd. rewrite <- Hp, fmap_app in Hnd.
  apply list.NoDup_app in Hnd.
  destruct Hnd as (_ & Hx & _).
  assert (Hin : forall t, t <> he_t x -> t ∈ he_t <$> h' <-> t ∈ he_t <$> ts_heap ts).
  { intros t Ht. rewrite <- Hp, fmap_app, elem_of_app. simpl. rewrite list_elem_of_singleton.
    by intuition. }
  assert (Hheap : forall t, t ∈ he_t <$> h' -> 0 < schedpos1 (p' t)).
  { intros t (e & -> & (i & Hi)%list_elem_of_lookup)%list_elem_of_fmap.
    pose proof (lookup_lt_Some _ _ _ Hi). rewrite (Hpl i e); [lia|done|lia|done]. }
  assert (Hpos : forall t, t ∈ he_t <$> ts_heap ts -> 0 < schedpos1 (ts_timers ts t)).
  { intros t (e & -> & (i & Hi)%list_elem_of_lookup)%list_elem_of_fmap.
    destruct (lk_pos _ _ L i e Hi). lia. }
  assert (Hout : forall t, t <> he_t x ->
    schedpos1 (p' t) <= 0 \/ schedpos1 (ts_timers ts t) <= 0 -> p' t = ts_timers ts t).
  { intros t Hne Ht. apply Hf. intros Hc. pose proof (Hpos t Hc).
    apply Hin, Hheap in Hc; [lia|done]. }
  split; simpl.
  - intros i e Hi. pose proof (lookup_lt_Some _ _ _ Hi). split_and!.
    + intros Heq. apply (Hx (he_t e)); [|by rewrite Heq; apply list_elem_of_singleton].
      apply list_elem_of_fmap_2. by eapply list_elem_of_lookup_2.
    + apply (Hpl i e); [done|lia|done].
    + destruct (Hf (he_t e)) as [-> _]. assert (He : e ∈ ts_heap ts).
      { rewrite <- Hp. apply elem_of_app. left. by eapply list_elem_of_lookup_2. }
      apply list_elem_of_lookup in He as [j Hj]. by apply (lk_pos _ _ L j e).
  - intros t Hne Ht. apply Hin; [done|]. destruct (decide (t ∈ he_t <$> ts_heap ts)) as [|Hn]; [done|].
    apply (lk_in _ _ L). destruct (Hf t) as (_ & _ & E). by rewrite <- E.
  - intros t Hne Ht. rewrite (Hout t) in * by (done || lia). by apply (lk_chunk _ _ L).
  - intros i t Hne Hi Hr. pose proof (lk_run _ _ L i t Hi Hr). rewrite Hout by (done || lia). done.
  - intros t Hne Ht. destruct (Hf t) as (_ & -> & E). apply (lk_owner _ _ L).
    intros Hz. apply Ht. rewrite (Hout t) by (done || lia). done.
Qed.

(** ** What operations on a timer leave alone *)

(** The same timer, perhaps elsewhere in the heap. *)
Definition same_timer (a b : Timer) : Prop :=
  expiry_s a = expiry_s b /\ owner a = owner b /\
  (0 < schedpos1 a /\ 0 < schedpos1 b \/ schedpos1 a = schedpos1 b /\ schedpos1 a <= 0).
#[export] Instance same_timer_preorder : PreOrder same_timer.
Proof.
  split.
  - intros a. unfold same_timer. split_and!; [done..|]. lia.
  - intros a b c (? & ? & ?) (? & ? & ?). unfold same_timer. split_and!; [congruence..|]. lia.
Qed.

(** At most timer [t] changed, and its entry of the run chunk was cleared. *)
Record only_timer (t : nat) (ts ts' : TimerSet) : Prop := {
  ot_timers : forall t', t' <> t -> same_timer (ts_timers ts t') (ts_timers ts' t');
  ot_check : ts_check ts' = ts_check ts;
  ot_stop : ts_stop ts' = ts_stop ts;
  ot_length : length (ts_runchunk ts') = length (ts_runchunk ts);
  ot_chunk : forall i t', t' <> t ->
    ts_runchunk ts' !! i = Some (Some t') <-> ts_runchunk ts !! i = Some (Some t')
}.
#[export] Instance only_timer_preorder t : PreOrder (only_timer t).
Proof.
  split.
  - intros ts. by split.
  - intros ts1 ts2 ts3 [A1 B1 C1 D1 E1] [A2 B2 C2 D2 E2]. split.
    + intros t' Hne. etrans; [by apply A1|by apply A2].
    + by rewrite B2.
    + by rewrite C2.
    + by rewrite D2.
    + intros i t' Hne. by rewrite E2, E1.
Qed.

Lemma links_heap_iff k ts t :
  ts_links k ts -> t ∈ he_t <$> ts_heap ts <-> 0 < schedpos1 (ts_timers ts t).
Proof.
  intros L. split; [|apply (lk_in _ _ L)].
  intros (e & -> & (i & Hi)%list_elem_of_lookup)%list_elem_of_fmap.
  destruct (lk_pos _ _ L i e Hi). lia.
Qed.
Lemma links_but_heap_iff t k ts t' :
  links_but t k ts -> t' <> t -> t' ∈ he_t <$> ts_heap ts <-> 0 < schedpos1 (ts_timers ts t').
Proof.
  intros B Hne. split; [|by apply (lb_in _ _ _ B)].
  intros (e & -> & (i & Hi)%list_elem_of_lookup)%list_elem_of_fmap.
  destruct (lb_pos _ _ _ B i e Hi). lia.
Qed.

(** Placing the elements of a heap keeps the timers the same. *)
Lemma moved_same h p p' t :
  moved heap_place h p p' ->
  (t ∈ he_t <$> h -> 0 < schedpos1 (p t) /\ 0 < schedpos1 (p' t)) ->
  (t ∉ he_t <$> h -> schedpos1 (p t) <= 0) -> same_timer (p t) (p' t).
Proof.
  intros Hm Hin Hout. destruct (moved_frame _ _ _ Hm t) as (H1 & H2 & H3).
  split_and!; [done..|]. destruct (decide (t ∈ he_t <$> h)) as [Ht|Ht]; [left; by apply Hin|].
  right. rewrite H3 by done. split; [done|by apply Hout].
Qed.

(** Two heaps that share their first elements have the same first expiry. *)
Lemma first_expiry h h' e e' :
  heap4 h -> heap4 h' -> h !! 0%nat = Some e -> h' !! 0%nat = Some e' -> e ∈ h' -> e' ∈ h ->
  he_expiry e' = he_expiry e.
Proof.
  intros Hh Hh' He He' (i & Hi)%list_elem_of_lookup (j & Hj)%list_elem_of_lookup.
  pose proof (lookup_lt_Some _ _ _ Hi). pose proof (lookup_lt_Some _ _ _ Hj).
  pose proof (heap_first heap_less h' (length h') i Hh' ltac:(lia) ltac:(lia) e e' Hi He') as H1.
  pose proof (heap_first heap_less h (length h) j Hh ltac:(lia) ltac:(lia) e' e Hj He) as H2.
  unfold heap_less in *. rewrite !Z.ltb_ge in *. lia.
Qed.

Lemma first_cached_lookup ts e :
  ts_heap ts !! 0%nat = Some e -> first_cached ts <-> ts_expiry ts = he_expiry e.
Proof. unfold first_cached. destruct (ts_heap ts); [done|]. by intros [= ->]. Qed.

(** ** [unschedule] *)
Lemma removelast_snoc {A} (l : list A) x : removelast (l ++ [x]) = l.
Proof. apply removelast_last. Qed.

(** Clearing the entry of a timer of the run chunk. *)
Lemma runchunk_clear_run k ts t :
  ts_links k ts -> schedpos1 (ts_timers ts t) < 0 ->
  exists rc, runchunk_clear (schedpos1 (ts_timers ts t)) ts = Ok (set_runchunk rc ts) /\
    length rc = length (ts_runchunk ts) /\
    (forall i t', t' <> t -> rc !! i = Some (Some t') <-> ts_runchunk ts !! i = Some (Some t')) /\
    (forall i, (k <= i)%nat -> rc !! i <> Some (Some t)).
Proof.
  intros L Ht. destruct (lk_chunk _ _ L t Ht) as (i & Hk & Hi & E).
  unfold runchunk_clear. replace (Z.to_nat _) with i by lia.
  pose proof (lookup_lt_Some _ _ _ Hi). destruct (Nat.ltb_spec i (length (ts_runchunk ts))); [|lia].
  eexists. split; [done|]. rewrite length_insert. split; [done|]. split.
  - intros j t' Hne. destruct (decide (j = i)) as [-> |]; [|by rewrite list_lookup_insert_ne].
    rewrite list_lookup_insert_eq, Hi by done. split; congruence.
  - intros j Hj. destruct (decide (j = i)) as [-> |Hne].
    + by rewrite list_lookup_insert_eq.
    + rewrite list_lookup_insert_ne by done. intros Hc. pose proof (lk_run _ _ L j t Hj Hc). lia.
Qed.

(** A timer that leaves the heap for good. *)
Lemma unlinked k ts t tm :
  links_but t k ts -> schedpos1 tm = 0 ->
  (forall i, (k <= i)%nat -> ts_runchunk ts !! i <> Some (Some t)) ->
  ts_links k (update_timer t (fun _ => tm) ts).
Proof.
  intros B Htm Hr. apply (links_but_links t).
  - apply (links_but_change t k ts); [done..| |done].
    intros t' Hne. simpl. by rewrite fn_lookup_insert_ne.
  - left. simpl. by rewrite fn_lookup_insert.
  - simpl. intros i Hi Hc. by destruct (Hr i Hi).
Qed.

(** [remove_heap4] and [pop_back] on the timers' heap. *)
Lemma remove_heap4_run k ts i x :
  heap4 (ts_heap ts) -> ts_links k ts -> ts_heap ts !! i = Some x ->
  exists h' p', remove_heap4 (ts_heap ts) (ts_timers ts) i = Ok (h' ++ [x], p') /\
    heap4 h' /\ h' ++ [x] ≡ₚ ts_heap ts /\
    links_but (he_t x) k (set_heap h' p' ts) /\
    (forall t, t <> he_t x -> same_timer (ts_timers ts t) (p' t)) /\
    expiry_s (p' (he_t x)) = he_expiry x /\ owner (p' (he_t x)) = owner (ts_timers ts (he_t x)).
Proof.
  intros Hh L Hx.
  destruct (remove_heap_run he_t heap_less heap_place placed_timer (ts_heap ts) (ts_timers ts) i x)
    as (h' & p' & E & Hh' & Hpl & Hp & Hm); [done|exact (links_nodup L)|done|exact (links_placed L)|].
  exists h', p'. pose proof (links_take_out k ts h' x p' L Hp Hm Hpl) as B.
  destruct (moved_frame _ _ _ Hm (he_t x)) as (H1 & H2 & _).
  destruct (lk_pos _ _ L i x Hx) as [_ Hex].
  split_and!; [done..| |by rewrite H1|done].
  intros t Hne. apply (moved_same (ts_heap ts)); [done| |].
  - intros Ht. split; [by apply (links_heap_iff k)|].
    apply (links_but_heap_iff (he_t x) k (set_heap h' p' ts)); [done..|]. simpl.
    rewrite <- Hp, fmap_app, elem_of_app in Ht. destruct Ht as [|Ht]; [done|].
    by apply list_elem_of_singleton in Ht.
  - intros Ht. rewrite (links_heap_iff k) in Ht by done. lia.
Qed.

Lemma unschedule_run k ts t :
  ts_ok k ts ->
  exists ts', unschedule t ts = Ok (tt, ts', []) /\ ts_ok k ts' /\ only_timer t ts ts' /\
    schedpos1 (ts_timers ts' t) = 0 /\ expiry_s (ts_timers ts' t) = expiry_s (ts_timers ts t) /\
    owner (ts_timers ts' t) = owner (ts_timers ts t).
Proof.
  intros Hok. pose proof Hok as (Hh & L & Hc). unfold unschedule, scheduled.
  destruct (Z.eqb_spec (schedpos1 (ts_timers ts t)) 0) as [Hz|Hnz]; simpl;
    [by exists ts; split_and!|].
  assert (Hrest : forall ts1, links_but t k ts1 ->
    (forall i, (k <= i)%nat -> ts_runchunk ts1 !! i <> Some (Some t)) ->
    expiry_s (ts_timers ts1 t) = expiry_s (ts_timers ts t) ->
    owner (ts_timers ts1 t) = owner (ts_timers ts t) ->
    heap4 (ts_heap ts1) -> first_cached ts1 -> only_timer t ts ts1 ->
    let ts' := update_timer t (set_schedpos1 0) ts1 in
    ts_ok k ts' /\ only_timer t ts ts' /\ schedpos1 (ts_timers ts' t) = 0 /\
    expiry_s (ts_timers ts' t) = expiry_s (ts_timers ts t) /\
    owner (ts_timers ts' t) = owner (ts_timers ts t)).
  { intros ts1 B Hr He Ho Hh1 Hc1 [A1 B1 C1 D1 E1]. simpl. rewrite fn_lookup_insert.
    split_and!; try done.
    - split_and!; [done| |done]. by apply (unlinked k ts1 t (set_schedpos1 0 (ts_timers ts1 t))).
    - split; try done. intros t' Hne. simpl. rewrite fn_lookup_insert_ne by done. by apply A1. }
  destruct (Z.ltb_spec 0 (schedpos1 (ts_timers ts t))) as [Hpos|Hneg].
  - destruct (links_in L t Hpos) as (x & Hx & <- & Hex).
    destruct (remove_heap4_run k ts _ x Hh L Hx) as (h' & p' & E & Hh' & Hp & B & Hs & He & Ho).
    rewrite E. simpl. rewrite removelast_snoc. eexists. split; [done|]. apply Hrest.
    + destruct (_ =? 1); [|done]. by apply (links_but_change _ k (set_heap h' p' ts)).
    + intros i Hi Hc'. replace (ts_runchunk _) with (ts_runchunk ts) in Hc' by (by destruct (_ =? 1)).
      pose proof (lk_run _ _ L i _ Hi Hc'). lia.
    + destruct (_ =? 1); simpl; congruence.
    + by destruct (_ =? 1).
    + by destruct (_ =? 1).
    + destruct (Z.eqb_spec (schedpos1 (ts_timers ts (he_t x))) 1) as [|Hne1]; [done|].
      set (i := Z.to_nat (schedpos1 (ts_timers ts (he_t x)) - 1)) in *.
      destruct (lookup_lt_is_Some_2 (ts_heap ts) 0) as [e0 E0];
        [pose proof (lookup_lt_Some _ _ _ Hx); lia|].
      assert (Hin : e0 ∈ h').
      { assert (He0 : e0 ∈ h' ++ [x]) by (rewrite Hp; by eapply list_elem_of_lookup_2).
        apply elem_of_app in He0 as [|He0]; [done|]. apply list_elem_of_singleton in He0 as ->.
        destruct (lk_pos _ _ L 0%nat x E0). lia. }
      destruct (h' !! 0%nat) as [e1|] eqn:E1; [|by destruct h'; [apply not_elem_of_nil in Hin|]].
      apply (first_cached_lookup _ e1); [done|]. simpl.
      rewrite (proj1 (first_cached_lookup ts e0 E0) Hc). symmetry.
      apply (first_expiry (ts_heap ts) h'); try done. rewrite <- Hp. apply elem_of_app. left.
      by eapply list_elem_of_lookup_2.
    + split; [|by destruct (_ =? 1)..]. intros t' Hne. destruct (_ =? 1); by apply Hs.
  - destruct (runchunk_clear_run k ts t L) as (rc & E & Hl & Hrc & Hno); [lia|]. rewrite E. simpl.
    eexists. split; [done|]. apply Hrest; try done.
    apply (links_but_change t k ts); [by apply links_but_of; [|lia]|done..|].
    intros i t' Hne. simpl. by rewrite Hrc.
Qed.

(** ** [schedule_at_steady] *)

(** The state [schedule_at_steady] calls [change_heap] in: [t] is in the heap at [i] with its
    new expiry, perhaps out of order; nothing else changed since [ts]. *)
Record rescheduled (k : nat) (ts : TimerSet) (t : nat) (expiry : Z) (i : nat) (ts1 : TimerSet)
  : Prop := {
  rs_links : ts_links k ts1;
  rs_elem : ts_heap ts1 !! i = Some (HeapElement expiry t);
  rs_order : heap_except heap_less i (ts_heap ts1) (length (ts_heap ts1));
  rs_others : forall j e, j <> i -> ts_heap ts1 !! j = Some e <-> ts_heap ts !! j = Some e;
  rs_old : schedpos1 (ts_timers ts t) <> Z.of_nat i + 1 -> i = length (ts_heap ts);
  rs_owner : owner (ts_timers ts1 t) = owner (ts_timers ts t);
  rs_cached : ts_expiry ts1 = ts_expiry ts;
  rs_only : only_timer t ts ts1
}.

Lemma reschedule_in_heap k ts t expiry :
  ts_ok k ts -> 0 < schedpos1 (ts_timers ts t) ->
  let i := Z.to_nat (schedpos1 (ts_timers ts t) - 1) in
  let ts1 := update_timer t (set_expiry_s expiry) ts in
  rescheduled k ts t expiry i
    (set_heap (<[i := HeapElement expiry t]> (ts_heap ts1)) (ts_timers ts1) ts1).
Proof.
  intros (Hh & L & Hc) Hpos i ts1. destruct (links_in L t Hpos) as (x & Hx & Hxt & Hex).
  fold i in Hx. pose proof (lookup_lt_Some _ _ _ Hx) as Hi. subst ts1.
  destruct (lk_pos _ _ L i x Hx) as [Hp _]. rewrite Hxt in Hp.
  assert (Hother : forall j e, j <> i ->
    <[i:=HeapElement expiry t]> (ts_heap ts) !! j = Some e <-> ts_heap ts !! j = Some e)
    by (intros; by rewrite list_lookup_insert_ne).
  assert (Hne : forall j e, j <> i -> ts_heap ts !! j = Some e -> he_t e <> t).
  { intros j e Hji He Heq. destruct (lk_pos _ _ L j e He) as [Hj _]. rewrite Heq in Hj. lia. }
  split; simpl.
  - split; simpl.
    + intros j e. destruct (decide (j = i)) as [-> |Hji].
      * rewrite list_lookup_insert_eq by done. intros [= <-]. simpl. by rewrite fn_lookup_insert.
      * intros He%Hother; [|done]. rewrite fn_lookup_insert_ne by (symmetry; by apply (Hne j)).
        by apply (lk_pos _ _ L).
    + intros t'. rewrite list_fmap_insert. simpl. destruct (decide (t = t')) as [<-|].
      * intros _. apply list_elem_of_lookup. exists i. apply list_lookup_insert_eq.
        by rewrite length_fmap.
      * rewrite fn_lookup_insert_ne by done. intros Ht'. destruct (links_in L t' Ht') as (e & He & <- & _).
        apply list_elem_of_lookup. eexists. rewrite list_lookup_insert_ne.
        -- rewrite list_lookup_fmap. by erewrite He.
        -- intros Heq. rewrite <- Heq in He. congruence.
    + intros t'. destruct (decide (t = t')) as [<-|]; [rewrite fn_lookup_insert; simpl; lia|].
      rewrite fn_lookup_insert_ne by done. apply (lk_chunk _ _ L).
    + intros j t' Hj Hc'. pose proof (lk_run _ _ L j t' Hj Hc').
      rewrite fn_lookup_insert_ne; [done|]. intros <-. lia.
    + intros t'. destruct (decide (t = t')) as [<-|]; [rewrite fn_lookup_insert|
        rewrite fn_lookup_insert_ne by done]; apply (lk_owner _ _ L).
  - by apply list_lookup_insert_eq.
  - rewrite length_insert. destruct (heap_on_except heap_less i (ts_heap ts) (length (ts_heap ts)) Hh)
      as [Ha Hb]; [done|]. split; intros j Hj.
    + intros Hji Hpi a b. rewrite !list_lookup_insert_ne by done. by apply Ha.
    + intros Hpi Hi0 a b. pose proof (parent_lt heap_less j ltac:(lia)).
      pose proof (parent_lt heap_less i ltac:(lia)).
      rewrite !list_lookup_insert_ne by lia. by apply Hb.
  - done.
  - lia.
  - by rewrite fn_lookup_insert.
  - done.
  - split; try done. simpl. intros t' Hne'. by rewrite fn_lookup_insert_ne.
Qed.

Lemma reschedule_new k ts t expiry :
  ts_ok k ts -> schedpos1 (ts_timers ts t) <= 0 -> is_Some (owner (ts_timers ts t)) ->
  let ts1 := update_timer t (set_expiry_s expiry) ts in
  exists ts2,
    (if schedpos1 (ts_timers ts t) <? 0 then runchunk_clear (schedpos1 (ts_timers ts t)) ts1
     else Ok ts1) = Ok ts2 /\
    let ts3 := update_timer t (set_schedpos1 (Z.of_nat (length (ts_heap ts2)) + 1)) ts2 in
    rescheduled k ts t expiry (length (ts_heap ts))
      (set_heap (ts_heap ts3 ++ [HeapElement (expiry_s (ts_timers ts3 t)) t]) (ts_timers ts3) ts3) /\
    expiry_s (ts_timers ts3 t) = expiry.
Proof.
  intros (Hh & L & Hc) Hpos Ho ts1.
  assert (Hclear : exists rc,
    (if schedpos1 (ts_timers ts t) <? 0 then runchunk_clear (schedpos1 (ts_timers ts t)) ts1
     else Ok ts1) = Ok (set_runchunk rc ts1) /\ length rc = length (ts_runchunk ts) /\
    (forall i t', t' <> t -> rc !! i = Some (Some t') <-> ts_runchunk ts !! i = Some (Some t')) /\
    (forall i, (k <= i)%nat -> rc !! i <> Some (Some t))).
  { destruct (Z.ltb_spec (schedpos1 (ts_timers ts t)) 0).
    - destruct (runchunk_clear_run k ts t L) as (rc & E & ?); [done|]. exists rc.
      split; [|done]. unfold runchunk_clear in *. by destruct (_ <? _)%nat; [injection E as <-|].
    - exists (ts_runchunk ts). split_and!; [by destruct ts|done..|]. intros i Hi Hc'.
      pose proof (lk_run _ _ L i t Hi Hc'). lia. }
  destruct Hclear as (rc & E & Hl & Hrc & Hno). exists (set_runchunk rc ts1). split; [exact E|].
  intros ts3. subst ts1. assert (Hex : expiry_s (ts_timers ts3 t) = expiry).
  { subst ts3. simpl. by rewrite !fn_lookup_insert. }
  split; [|done].
  assert (B : links_but t k ts3).
  { apply (links_but_change t k ts); [by apply links_but_of|done|..].
    - intros t' Hne. subst ts3. simpl. by rewrite !fn_lookup_insert_ne.
    - intros i t' Hne. subst ts3. simpl. by rewrite Hrc. }
  assert (Hlen : forall i e, ts_heap ts !! i = Some e -> (i < length (ts_heap ts))%nat)
    by (intros ??; apply lookup_lt_Some).
  split.
  - apply (links_but_push t k ts3); [done|subst ts3; simpl; by rewrite !fn_lookup_insert..|done].
  - rewrite Hex. simpl. by rewrite list_lookup_middle.
  - simpl. rewrite length_app. simpl. split; intros j Hj.
    + intros Hji _ a b. pose proof (parent_lt heap_less j ltac:(lia)).
      rewrite !lookup_app_l by lia. apply Hh. lia.
    + intros Hpi. pose proof (parent_lt heap_less j ltac:(lia)). lia.
  - intros j e Hji. simpl. rewrite lookup_app_Some. split; [|by left].
    intros [|(Hle & He)]; [done|]. apply list_lookup_singleton_Some in He as [? _]. lia.
  - done.
  - subst ts3. simpl. by rewrite !fn_lookup_insert.
  - done.
  - split; subst ts3; simpl; try done. intros t' Hne. by rewrite !fn_lookup_insert_ne.
Qed.

Lemma change_heap4_run k ts t expiry i ts1 :
  ts_ok k ts -> rescheduled k ts t expiry i ts1 ->
  exists h' p' i', change_heap4 (ts_heap ts1) (length (ts_heap ts1)) (ts_timers ts1) i =
      Ok (h', p', i') /\
    let ts' := set_heap h' p' ts1 in
    heap4 h' /\ ts_links k ts' /\ only_timer t ts ts' /\ schedpos1 (p' t) = Z.of_nat i' + 1 /\
    expiry_s (p' t) = expiry /\ owner (p' t) = owner (ts_timers ts t) /\
    (schedpos1 (ts_timers ts t) = 1 \/ i' = 0%nat \/ first_cached ts').
Proof.
  intros Hok [L1 He Hex Hoth Hold Hown Hcached Honly].
  destruct (change_heap_run he_t heap_less heap_place placed_timer (ts_heap ts1) (ts_timers ts1) i
    (length (ts_heap ts1))) as (h' & p' & i' & E & Hi' & Hh' & Hpl & Hp & Hel & _ & Hm);
    [by eapply lookup_lt_Some|done|exact (links_nodup L1)|done|exact (links_placed L1)|].
  exists h', p', i'. split; [exact E|]. intros ts'. rewrite <- (Permutation_length Hp) in Hh', Hpl.
  assert (L' : ts_links k ts') by by apply links_reorder.
  destruct (moved_frame _ _ _ Hm t) as (Hmx & Hmo & _). rewrite He in Hel.
  destruct (lk_pos _ _ L' i' (HeapElement expiry t) Hel) as [Hpos Hexp]. simpl in Hpos, Hexp.
  split_and!; try done; [|congruence|].
  - etrans; [exact Honly|]. split; try done. intros t' _. apply (moved_same (ts_heap ts1)); [done| |].
    + intros Ht. split; [by apply (links_heap_iff k)|]. apply (links_heap_iff k ts' t' L').
      simpl. by rewrite Hp.
    + intros Ht. rewrite (links_heap_iff k) in Ht by done. lia.
  - destruct (decide (schedpos1 (ts_timers ts t) = 1)) as [|Hne1]; [by left|right].
    destruct (decide (i' = 0%nat)) as [|Hi0]; [by left|right]. pose proof Hok as (Hh & L & Hc).
    assert (Hin : i <> 0%nat).
    { intros ->. rewrite Hold in * by lia. pose proof (lookup_lt_Some _ _ _ He).
      assert (length (ts_heap ts1) = 1%nat); [|lia].
      destruct (ts_heap ts1) as [|a [|b l]] eqn:E1; simpl in *; [lia|done|].
      pose proof (lookup_lt_Some _ _ _ (proj1 (Hoth 1%nat b ltac:(lia)) ltac:(done))). lia. }
    destruct (lookup_lt_is_Some_2 h' 0) as [e1 E1]; [rewrite (Permutation_length Hp); lia|].
    destruct (lookup_lt_is_Some_2 (ts_heap ts1) 0) as [e0 E0]; [lia|].
    pose proof (proj1 (Hoth 0%nat e0 ltac:(done)) E0) as E0'.
    apply (first_cached_lookup ts' e1 E1). simpl. rewrite Hcached.
    rewrite (proj1 (first_cached_lookup ts e0 E0') Hc). symmetry.
    apply (first_expiry (ts_heap ts) h'); try done.
    + rewrite Hp. by eapply list_elem_of_lookup_2.
    + assert (He1 : e1 ∈ ts_heap ts1) by (rewrite <- Hp; by eapply list_elem_of_lookup_2).
      apply list_elem_of_lookup in He1 as [j Hj]. apply (list_elem_of_lookup_2 _ j).
      apply Hoth; [|done]. intros ->. rewrite He in Hj. injection Hj as <-.
      destruct (lk_pos _ _ L' 0%nat _ E1) as [Hpos1 _]. simpl in Hpos1. lia.
Qed.

(** The expiry a timer gets when it is scheduled. *)
Definition effective_expiry (ts : TimerSet) (when : Z) : Z :=
  check_timer_expiry ts (if when =? 0 then epsilon else when).

Lemma schedule_run k ts t when :
  ts_ok k ts -> is_Some (owner (ts_timers ts t)) ->
  exists ts' ev, schedule_at_steady t when ts = Ok (tt, ts', ev) /\ ts_ok k ts' /\
    only_timer t ts ts' /\ 0 < schedpos1 (ts_timers ts' t) /\
    expiry_s (ts_timers ts' t) = effective_expiry ts when /\
    owner (ts_timers ts' t) = owner (ts_timers ts t) /\ Forall (eq Woken) ev.
Proof.
  intros Hok Ho. unfold schedule_at_steady, initialized.
  rewrite bool_decide_true by done. simpl negb. cbv iota. fold (effective_expiry ts when).
  set (expiry := effective_expiry ts when). cbn [ts_timers update_timer set_heap].
  rewrite !fn_lookup_insert. cbn [schedpos1 set_expiry_s]. set (old := schedpos1 (ts_timers ts t)).
  assert (Hfin : forall i ts1, rescheduled k ts t expiry i ts1 ->
    exists ts' ev, ('(h, timers, _) ← change_heap4 (ts_heap ts1) (length (ts_heap ts1)) (ts_timers ts1)
        (Z.to_nat (schedpos1 (ts_timers ts1 t) - 1));
      let ts := set_heap h timers ts1 in
      let first := schedpos1 (ts_timers ts t) =? 1 in
      let ts := if (old =? 1) || first then set_timer_expiry ts else ts in
      Ok (tt, ts, if first then [Woken] else [])) = Ok (tt, ts', ev) /\ ts_ok k ts' /\
    only_timer t ts ts' /\ 0 < schedpos1 (ts_timers ts' t) /\
    expiry_s (ts_timers ts' t) = expiry /\ owner (ts_timers ts' t) = owner (ts_timers ts t) /\
    Forall (eq Woken) ev).
  { intros i ts1 R. destruct (change_heap4_run k ts t expiry i ts1 Hok R)
      as (h' & p' & i' & E & Hh & L & Ht & Hpos & Hexp & Hown & Hc).
    destruct (lk_pos _ _ (rs_links _ _ _ _ _ _ R) _ _ (rs_elem _ _ _ _ _ _ R)) as [Hi _].
    simpl in Hi. rewrite Hi. replace (Z.to_nat _) with i by lia. rewrite E. cbn [mbind res_bind].
    do 2 eexists. split; [done|]. cbn [ts_timers set_heap].
    assert (Hev : Forall (eq Woken) (if schedpos1 (p' t) =? 1 then [Woken] else []))
      by (destruct (_ =? 1); repeat constructor).
    destruct (Z.eqb_spec old 1), (Z.eqb_spec (schedpos1 (p' t)) 1); simpl;
      (split_and!; [|destruct Ht; by split|lia|done..]); (split_and!; [done|by destruct L|]);
      try done. destruct Hc as [|[|]]; [done|lia|done]. }
  destruct (Z.leb_spec old 0) as [Hle|Hgt].
  - destruct (reschedule_new k ts t expiry Hok Hle Ho) as (ts2 & E2 & R & Hex). fold old in E2.
    rewrite E2. cbn [mbind res_bind]. cbv zeta in R. apply (Hfin _ _ R).
  - pose proof (reschedule_in_heap k ts t expiry Hok Hgt) as R. fold old in R. cbv zeta in R.
    destruct Hok as (_ & L & _). destruct (links_in L t Hgt) as (x & Hx & <- & _). fold old in Hx.
    cbn [ts_heap update_timer set_heap] in *. rewrite Hx. simpl. apply (Hfin _ _ R).
Qed.

(** ** A timer set is a map from timers to expiries *)

(** What is pending: the expiry of a scheduled timer. *)
Definition pending (ts : TimerSet) (t : nat) : option Z :=
  if scheduled (ts_timers ts t) then Some (expiry_s (ts_timers ts t)) else None.

Lemma same_timer_pending ts ts' t :
  same_timer (ts_timers ts t) (ts_timers ts' t) -> pending ts' t = pending ts t.
Proof.
  intros (Hx & _ & Hp). unfold pending, scheduled. rewrite Hx.
  destruct (Z.eqb_spec (schedpos1 (ts_timers ts t)) 0),
    (Z.eqb_spec (schedpos1 (ts_timers ts' t)) 0); done || lia.
Qed.

Lemma pending_heap ts t x :
  ts_ok 0 ts -> ts_runchunk ts = [] ->
  pending ts t = Some x <-> exists e, e ∈ ts_heap ts /\ he_t e = t /\ he_expiry e = x.
Proof.
  intros (_ & L & _) Hrc. unfold pending, scheduled. split.
  - destruct (Z.eqb_spec (schedpos1 (ts_timers ts t)) 0) as [|Hne]; [done|]. intros [= <-].
    destruct (decide (schedpos1 (ts_timers ts t) < 0)) as [Hneg|].
    + destruct (lk_chunk _ _ L t Hneg) as (i & _ & Hi & _). by rewrite Hrc in Hi.
    + destruct (links_in L t) as (e & He & Het & Hx); [lia|]. exists e.
      split_and!; [by eapply list_elem_of_lookup_2|done..].
  - intros (e & (i & Hi)%list_elem_of_lookup & <- & <-).
    destruct (lk_pos _ _ L i e Hi) as [-> ->]. by destruct (Z.eqb_spec (Z.of_nat i + 1) 0); [lia|].
Qed.

(** The cached expiry is the earliest. *)
Lemma first_expiry_min ts :
  ts_ok 0 ts -> ts_runchunk ts = [] ->
  (forall t x, pending ts t = Some x -> ts_expiry ts <= x /\ ts_heap ts <> []) /\
  (ts_heap ts <> [] -> exists t, next_timer ts = Some t /\ pending ts t = Some (ts_expiry ts)) /\
  (ts_heap ts = [] -> ts_expiry ts = 0).
Proof.
  intros Hok Hrc. pose proof Hok as (Hh & L & Hc). split_and!.
  - intros t x (e & He & _ & <-)%pending_heap; [|done..].
    apply list_elem_of_lookup in He as [i Hi]. pose proof (lookup_lt_Some _ _ _ Hi) as Hlt.
    destruct (lookup_lt_is_Some_2 (ts_heap ts) 0) as [e0 H0]; [lia|].
    split; [|intros Hn; by rewrite Hn in Hi]. rewrite (proj1 (first_cached_lookup ts e0 H0) Hc).
    pose proof (heap_first heap_less _ (length (ts_heap ts)) i Hh ltac:(lia) Hlt e e0 Hi H0) as H1.
    unfold heap_less in H1. apply Z.ltb_ge in H1. lia.
  - intros Hn. unfold next_timer, first_cached in *.
    destruct (ts_heap ts) as [|e h] eqn:E; [done|]. exists (he_t e). split; [done|].
    apply pending_heap; [done..|]. exists e. rewrite E. by split_and!; [left| |].
  - intros Hn. unfold first_cached in Hc. by rewrite Hn in Hc.
Qed.

Lemma TimerSet_new_ok now timers :
  (forall t, schedpos1 (timers t) = 0) -> ts_ok 0 (TimerSet_new now timers).
Proof.
  intros Hz. split_and!; [intros j Hj; simpl in Hj; lia| |done].
  split; simpl; intros *; rewrite ?Hz; try done; lia.
Qed.

(** C23: A timer set is a map from the scheduled timers to their expiries: [schedule_at_steady]
    inserts, [unschedule] deletes, on a new set nothing is pending, and the cached expiry and
    [next_timer] are the earliest entry's.  Scheduling a timer that waits in the
    run chunk takes it out of there. *)
Theorem TimerSet_refines_map k ts (Hok : ts_ok k ts) :
  (forall t when, is_Some (owner (ts_timers ts t)) ->
     exists ts' ev, schedule_at_steady t when ts = Ok (tt, ts', ev) /\ ts_ok k ts' /\
       pending ts' t = Some (effective_expiry ts when) /\
       (forall t', t' <> t -> pending ts' t' = pending ts t') /\
       (forall i, (k <= i)%nat -> ts_runchunk ts' !! i <> Some (Some t))) /\
  (forall t, exists ts', unschedule t ts = Ok (tt, ts', []) /\ ts_ok k ts' /\
     pending ts' t = None /\ (forall t', t' <> t -> pending ts' t' = pending ts t') /\
     (forall i, (k <= i)%nat -> ts_runchunk ts' !! i <> Some (Some t))) /\
  (ts_runchunk ts = [] -> k = 0%nat ->
     (forall t x, pending ts t = Some x -> ts_expiry ts <= x) /\
     match next_timer ts with
     | Some t => pending ts t = Some (ts_expiry ts)
     | None => forall t, pending ts t = None
     end) /\
  (forall now timers, (forall t, schedpos1 (timers t) = 0) ->
     ts_ok 0 (TimerSet_new now timers) /\ forall t, pending (TimerSet_new now timers) t = None).
Proof.
  split_and!.
  - intros t when Ho. destruct (schedule_run k ts t when Hok Ho)
      as (ts' & ev & E & Hok' & O & Hpos & Hx & _). exists ts', ev. split_and!; try done.
    + unfold pending, scheduled. rewrite Hx. by destruct (Z.eqb_spec (schedpos1 (ts_timers ts' t)) 0); [lia|].
    + intros t' Hne. by apply same_timer_pending, O.
    + intros i Hi Hr. destruct Hok' as (_ & L & _). pose proof (lk_run _ _ L i t Hi Hr). lia.
  - intros t. destruct (unschedule_run k ts t Hok) as (ts' & E & Hok' & O & Hz & _).
    exists ts'. split_and!; try done.
    + unfold pending, scheduled. by rewrite Hz.
    + intros t' Hne. by apply same_timer_pending, O.
    + intros i Hi Hr. destruct Hok' as (_ & L & _). pose proof (lk_run _ _ L i t Hi Hr). lia.
  - intros Hrc ->. destruct (first_expiry_min ts Hok Hrc) as (H1 & H2 & _). split.
    + intros t x Hx. by apply (H1 t x).
    + unfold next_timer in *. destruct (ts_heap ts) as [|e h] eqn:E.
      * intros t. destruct (pending ts t) as [x|] eqn:Ex; [|done]. by destruct (H1 t x Ex).
      * destruct H2 as (t & [= <-] & Ht); [done|exact Ht].
  - intros now timers Hz. split; [by apply TimerSet_new_ok|].
    intros t. unfold pending, scheduled. simpl. by rewrite Hz.
Qed.

Lemma TimerSet_refines_map_witness :
  let ts := TimerSet_new 0 (fun _ => MkTimer 0 0 (Some 1%nat)) in
  exists ts' ev, schedule_at_steady 3 5 ts = Ok (tt, ts', ev) /\ pending ts' 3 = Some 5.
Proof.
  intros ts. destruct (TimerSet_refines_map 0 ts) as (H & _); [by apply TimerSet_new_ok|].
  destruct (H 3%nat 5) as (ts' & ev & ? & _ & ? & _); [by eexists|]. by exists ts', ev.
Defined.

(** ** [kill_router] *)
Lemma kill_loop_run router n ts :
  heap4 (ts_heap ts) -> ts_links 0 ts -> ts_runchunk ts = [] -> (n <= length (ts_heap ts))%nat ->
  exists ts', kill_loop router n ts = Ok ts' /\ heap4 (ts_heap ts') /\ ts_links 0 ts' /\
    ts_runchunk ts' = [] /\
    forall t, same_timer (ts_timers ts t) (ts_timers ts' t) \/
      owner (ts_timers ts t) = Some router /\ schedpos1 (ts_timers ts' t) = 0 /\
      owner (ts_timers ts' t) = None.
Proof.
  revert ts. induction n as [|n IH]; intros ts Hh L Hrc Hn; cbn [kill_loop].
  - exists ts. split_and!; try done. intros t. by left.
  - destruct (lookup_lt_is_Some_2 (ts_heap ts) n) as [e He]; [lia|]. rewrite He. simpl.
    destruct (lk_pos _ _ L n e He) as [Hpos _].
    destruct (lk_owner _ _ L (he_t e)) as [r Hr]; [lia|]. rewrite Hr. simpl.
    destruct (Nat.eqb_spec r router) as [-> |]; [|apply IH; [done..|lia]].
    destruct (remove_heap4_run 0 ts n e Hh L He) as (h' & p' & E & Hh' & Hp & B & Hs & _).
    rewrite E. simpl. rewrite removelast_snoc.
    set (ts1 := update_timer _ _ _). pose proof (Permutation_length Hp) as Hl.
    rewrite length_app in Hl. simpl in Hl.
    destruct (IH ts1) as (ts' & E' & Hh2 & L2 & Hrc2 & Hs2); [done| |done|simpl; lia|].
    { apply (unlinked 0 (set_heap h' p' ts) (he_t e) (MkTimer 0 (expiry_s (p' (he_t e))) None));
        [done..|]. simpl. intros i _. by rewrite Hrc. }
    exists ts'. split_and!; try done. intros t. specialize (Hs2 t). subst ts1. simpl in Hs2.
    destruct (decide (t = he_t e)) as [-> |Hne].
    + rewrite fn_lookup_insert in Hs2. right. split; [done|].
      destruct Hs2 as [(_ & Ho & Hp2)|(? & ?)]; [|done]. simpl in *.
      destruct Hp2 as [[? _]|[? _]]; [lia|done].
    + rewrite fn_lookup_insert_ne in Hs2 by done. specialize (Hs t Hne).
      destruct Hs2 as [Hs2|(Ho & ? & ?)]; [left; by etrans|right].
      destruct Hs as (_ & -> & _). done.
Qed.

(** Timer [t] of [router] is scheduled at [when], in this order. *)
Fixpoint schedule_all (l : list (nat * Z)) (ts : TimerSet) : res TimerSet :=
  match l with
  | [] => Ok ts
  | (t, when) :: l => '(_, ts, _) ← schedule_at_steady t when ts; schedule_all l ts
  end.

(** [kill_router] never fails, keeps the heap in order and unschedules timers of that
    router only, but not all of them: when the element that fills a removed one's place moves
    up the heap, the element it exchanges places with lands behind the loop's pointer and is
    not looked at.  Here timer 1 of the killed router 1 stays scheduled. *)
Theorem kill_router_incomplete :
  (forall router ts, ts_ok 0 ts -> ts_runchunk ts = [] ->
     exists ts', kill_router router ts = Ok (tt, ts', []) /\ ts_ok 0 ts' /\
       forall t, same_timer (ts_timers ts t) (ts_timers ts' t) \/
         owner (ts_timers ts t) = Some router /\ pending ts' t = None) /\
  (let owners t := MkTimer 0 0 (Some (if (t =? 1)%nat || (t =? 4)%nat then 1%nat else 0%nat)) in
   match schedule_all [(0%nat, 1); (1%nat, 100); (2%nat, 2); (3%nat, 2); (4%nat, 101);
           (5%nat, 101); (6%nat, 101); (7%nat, 101); (8%nat, 3)] (TimerSet_new 0 owners) with
   | Ok ts =>
       match kill_router 1 ts with
       | Ok (_, ts', _) => owner (ts_timers ts' 1%nat) = Some 1%nat /\
           pending ts' 1 = Some 100 /\ pending ts' 4 = None
       | Fault _ => False
       end
   | Fault _ => False
   end).
Proof.
  split.
  - intros router ts (Hh & L & Hc) Hrc. unfold kill_router. rewrite Hrc.
    destruct (kill_loop_run router (length (ts_heap ts)) ts) as (ts1 & E & Hh1 & L1 & Hrc1 & Hs);
      [done..|]. rewrite E. simpl. exists (set_timer_expiry ts1). split; [done|]. split.
    + split_and!; [done|destruct L1; by split|done].
    + intros t. destruct (Hs t) as [|(? & Hz & _)]; [by left|right]. split; [done|].
      unfold pending, scheduled. simpl. by rewrite Hz.
  - vm_compute. by split_and!.
Qed.
