(* ===== verification/TimerRun.v ===== *)
(** * Running timers ([lib/timerset.cc], [master.hh])

    [run_timers] calls back the timers that are due: at first one at a time, each the first
    of the heap, and when there are many it moves all of them to a run chunk, so that timers
    that reschedule themselves do not starve the others.  [next_timer_delay] tells the driver
    how long it may sleep. *)
From Stdlib Require Import ZArith Lia Sorted.
From stdpp Require Import base list numbers option relations functions.
From S2P Require Import Prelude Heap TimerSet.

(** What a callback can do to the set and to the thread. *)
Inductive timer_command : Type :=
| ScheduleAt (t : nat) (when : Z)
| Unschedule (t : nat)
| Clear (t : nat)
| RequestStop.

Definition exec_command (c : timer_command) : timer_handler unit :=
  match c with
  | ScheduleAt t when => schedule_at_steady t when
  | Unschedule t => unschedule t
  | Clear t => clear t
  | RequestStop => hmodify (set_stop true)
  end.
Fixpoint exec_commands (cs : list timer_command) : timer_handler unit :=
  match cs with
  | [] => hret tt
  | c :: cs => exec_command c ;;; exec_commands cs
  end.

Section Run.
Context (callback : nat -> TimerSet -> list timer_command).

Definition run_one_timer (t : nat) : timer_handler unit :=
  ts <-- hget ;;
  hemit (Fired t (expiry_s (ts_timers ts t))) ;;;
  exec_commands (callback t ts).

(** [pop_heap<4>] and [pop_back]: the timer that was first. *)
Definition pop_first : timer_handler heap_element := fun ts =>
  th ← opt_res OutOfBounds (ts_heap ts !! 0%nat);
  '(h, timers) ← pop_heap4 (ts_heap ts) (ts_timers ts);
  Ok (th, set_heap (removelast h) timers ts, []).

(** Whether the loops go on: the first timer of the heap is due. *)
Definition first_due (ts : TimerSet) : bool :=
  match ts_heap ts with th :: _ => he_expiry th <=? ts_check ts | [] => false end.

Definition adjust_stride (th : Z) (ts : TimerSet) : TimerSet :=
  let adj_expiry := th + make_usec 500 in
  if adj_expiry <=? ts_check ts then
    set_strides (ts_max_stride ts)
      (if 1 <? ts_stride ts then u32 (ts_stride ts * 4) / 5 else ts_stride ts) 0 ts
  else
    let count := u32 (ts_count ts + 1) in
    if 12 <=? count then
      let stride := u32 (ts_stride ts + 1) in
      set_strides (ts_max_stride ts)
        (if ts_max_stride ts <=? stride then ts_max_stride ts else stride) 0 ts
    else set_strides (ts_max_stride ts) (ts_stride ts) count ts.

(** The first loop, which ends with [max_timers < 0] (the result) or for another reason. *)
Fixpoint run_loop (max_timers : nat) : timer_handler bool :=
  ts <-- hget ;;
  th <-? opt_res OutOfBounds (ts_heap ts !! 0%nat) ;;
  let t := he_t th in
  (if expiry_s (ts_timers ts t) =? he_expiry th then hret tt else hlift (Fault AssertFailed)) ;;;
  pop_first ;;;
  hmodify set_timer_expiry ;;;
  hmodify (update_timer t (set_schedpos1 0)) ;;;
  run_one_timer t ;;;
  ts <-- hget ;;
  if negb (ts_stop ts) && first_due ts then
    match max_timers with
    | O => hret true
    | S max_timers => run_loop max_timers
    end
  else hret false.

(** The second loop moves every due timer to the run chunk. *)
Fixpoint fill_runchunk (fuel : nat) : timer_handler unit :=
  th <-- pop_first ;;
  ts <-- hget ;;
  hmodify (update_timer (he_t th)
             (set_schedpos1 (- Z.of_nat (length (ts_runchunk ts)) - 1))) ;;;
  hmodify (fun ts => set_runchunk (ts_runchunk ts ++ [Some (he_t th)]) ts) ;;;
  ts <-- hget ;;
  if first_due ts then
    match fuel with
    | O => hlift (Fault Diverges)
    | S fuel => fill_runchunk fuel
    end
  else hret tt.

(** The iterator is at [i], with [n] elements left; returns where it stopped. *)
Fixpoint run_runchunk (n i : nat) : timer_handler nat :=
  ts <-- hget ;;
  match n with
  | O => hret i
  | S n =>
      if ts_stop ts then hret i
      else
        o <-? opt_res OutOfBounds (ts_runchunk ts !! i) ;;
        match o with
        | Some t =>
            hmodify (update_timer t (set_schedpos1 0)) ;;;
            run_one_timer t ;;;
            run_runchunk n (S i)
        | None => run_runchunk n (S i)
        end
  end.
Fixpoint reschedule_unrun (n i : nat) : timer_handler unit :=
  match n with
  | O => hret tt
  | S n =>
      ts <-- hget ;;
      o <-? opt_res OutOfBounds (ts_runchunk ts !! i) ;;
      match o with
      | Some t =>
          hmodify (update_timer t (set_schedpos1 0)) ;;;
          schedule_at_steady t (expiry_s (ts_timers ts t)) ;;;
          reschedule_unrun n (S i)
      | None => reschedule_unrun n (S i)
      end
  end.
Definition run_chunk : timer_handler unit :=
  ts <-- hget ;;
  fill_runchunk (length (ts_heap ts)) ;;;
  hmodify set_timer_expiry ;;;
  ts <-- hget ;;
  i <-- run_runchunk (length (ts_runchunk ts)) 0 ;;
  ts <-- hget ;;
  reschedule_unrun (length (ts_runchunk ts) - i) i ;;;
  hmodify (set_runchunk []).

Definition run_timers (paused : bool) (now : Z) : timer_handler unit :=
  ts <-- hget ;;
  if negb paused && (0 <? length (ts_heap ts))%nat && negb (ts_stop ts) then
    hmodify (set_check now) ;;;
    th <-? opt_res OutOfBounds (ts_heap ts !! 0%nat) ;;
    if he_expiry th <=? now then
      hmodify (adjust_stride (he_expiry th)) ;;;
      exhausted <-- run_loop 64 ;;
      ts <-- hget ;;
      if exhausted && negb (ts_stop ts) then run_chunk else hret tt
    else hret tt
  else hret tt.
End Run.

(** ** How long the driver may sleep *)
Definition timer_expiry_steady_adjusted (ts : TimerSet) : Z :=
  let e := ts_expiry ts in
  if (8 <=? ts_stride ts) || (e =? 0) then e
  else if 4 <=? ts_stride ts then e - make_usec 500
  else e - (make_usec 500 + make_usec 500).
(** [0]: do not block; [-1]: block forever; [1]: block for the second result. *)
Definition next_timer_delay (more_tasks signals_pending : bool) (now : Z) (ts : TimerSet)
  : Z * Z :=
  if more_tasks || signals_pending then (0, 0)
  else
    let t := timer_expiry_steady_adjusted ts in
    if t =? 0 then (-1, t)
    else if t - now <? 0 then (0, t - now) else (1, t - now).

(** ** Callbacks *)

(** A callback schedules initialized timers only. *)
Definition command_ok (ts : TimerSet) (c : timer_command) : Prop :=
  match c with ScheduleAt t _ => is_Some (owner (ts_timers ts t)) | _ => True end.
(** The timer a command is about. *)
Definition command_on (t : nat) (c : timer_command) : Prop :=
  match c with ScheduleAt t' _ | Unschedule t' | Clear t' => t' = t | RequestStop => False end.

(** What no command changes. *)
Record same_set (ts ts' : TimerSet) : Prop := {
  sm_owner : forall t, owner (ts_timers ts' t) = owner (ts_timers ts t);
  sm_check : ts_check ts' = ts_check ts;
  sm_length : length (ts_runchunk ts') = length (ts_runchunk ts)
}.
#[export] Instance same_set_preorder : PreOrder same_set.
Proof.
  split; [by split|]. intros a b c [A1 A2 A3] [B1 B2 B3]. split; [intros t|..]; congruence.
Qed.
Lemma only_timer_same_set t ts ts' :
  only_timer t ts ts' -> owner (ts_timers ts' t) = owner (ts_timers ts t) -> same_set ts ts'.
Proof.
  intros [A B C D E] Ho. split; [|done..]. intros t'.
  destruct (decide (t' = t)) as [-> |]; [done|]. symmetry. by apply A.
Qed.

(** From index [k] on, the entries of the run chunk are the old ones, with their expiries. *)
Definition chunk_kept (k : nat) (ts ts' : TimerSet) : Prop :=
  forall i t, (k <= i)%nat -> ts_runchunk ts' !! i = Some (Some t) ->
    ts_runchunk ts !! i = Some (Some t) /\
    expiry_s (ts_timers ts' t) = expiry_s (ts_timers ts t).
#[export] Instance chunk_kept_preorder k : PreOrder (chunk_kept k).
Proof.
  split; [by intros ts i t|]. intros a b c A B i t Hi Hc. destruct (B i t Hi Hc) as [Hb ->].
  by destruct (A i t Hi Hb) as [? ->].
Qed.
Lemma only_timer_chunk k t ts ts' :
  only_timer t ts ts' -> ts_ok k ts' -> 0 <= schedpos1 (ts_timers ts' t) -> chunk_kept k ts ts'.
Proof.
  intros [A _ _ _ E] (_ & L & _) Hpos i t' Hi Hc. assert (Hne : t' <> t).
  { intros ->. pose proof (lk_run _ _ L i t Hi Hc). lia. }
  split; [by apply E|]. symmetry. by apply A.
Qed.

Lemma exec_command_run k ts c :
  ts_ok k ts -> command_ok ts c ->
  exists ts' ev, exec_command c ts = Ok (tt, ts', ev) /\ ts_ok k ts' /\ same_set ts ts' /\
    chunk_kept k ts ts' /\ Forall (eq Woken) ev /\ (forall t, command_on t c -> only_timer t ts ts') /\
    (forall t when, c = ScheduleAt t when ->
       0 < schedpos1 (ts_timers ts' t) /\
       expiry_s (ts_timers ts' t) = effective_expiry ts when).
Proof.
  intros Hok Hc. destruct c as [t when|t|t|]; simpl.
  - destruct (schedule_run k ts t when Hok Hc) as (ts' & ev & E & Hok' & Ho & Hpos & Hx & Hw & Hev).
    exists ts', ev. split_and!; try done; [by eapply only_timer_same_set| |by intros ? <-|].
    + apply (only_timer_chunk k t); [done..|lia].
    + by intros ?? [= <- <-].
  - destruct (unschedule_run k ts t Hok) as (ts' & E & Hok' & Ho & Hz & _ & Hw).
    exists ts', []. split_and!; try done; [by eapply only_timer_same_set| |by intros ? <-].
    apply (only_timer_chunk k t); [done..|lia].
  - destruct (unschedule_run k ts t Hok) as (ts' & E & Hok' & Ho & Hz & _ & Hw).
    unfold clear. exists (update_timer t (set_expiry_s 0) ts'), []. split.
    { by rewrite (hbind_run _ _ _ _ _ _ _ _ _ E eq_refl). }
    destruct Hok' as (Hh & L & Hcached).
    assert (Hu : only_timer t ts' (update_timer t (set_expiry_s 0) ts')).
    { split; try done. intros t' Hne. simpl. by rewrite fn_lookup_insert_ne. }
    assert (Hok2 : ts_ok k (update_timer t (set_expiry_s 0) ts')).
    { split_and!; [done| |done].
      apply (unlinked k ts' t (set_expiry_s 0 (ts_timers ts' t))); [by apply links_but_of; [|lia]|done|].
      intros i Hi Hr. pose proof (lk_run _ _ L i t Hi Hr). lia. }
    split_and!; try done.
    + etrans; [by eapply only_timer_same_set|]. eapply only_timer_same_set; [done|].
      simpl. by rewrite fn_lookup_insert.
    + apply (only_timer_chunk k t); [by etrans|done|]. simpl. rewrite fn_lookup_insert. simpl. lia.
    + intros ? <-. by etrans.
  - exists (set_stop true ts), []. split_and!; try done. by destruct Hok as (? & [] & ?).
Qed.

Lemma exec_commands_run k ts cs :
  ts_ok k ts -> Forall (command_ok ts) cs ->
  exists ts' ev, exec_commands cs ts = Ok (tt, ts', ev) /\ ts_ok k ts' /\ same_set ts ts' /\
    chunk_kept k ts ts' /\ Forall (eq Woken) ev /\ (forall t, Forall (command_on t) cs -> only_timer t ts ts').
Proof.
  revert ts. induction cs as [|c cs IH]; intros ts Hok Hcs; simpl.
  - exists ts, []. split_and!; done.
  - apply Forall_cons_iff in Hcs as [Hc Hcs].
    destruct (exec_command_run k ts c Hok Hc) as (ts1 & ev1 & E1 & Hok1 & S1 & K1 & W1 & O1 & _).
    destruct (IH ts1 Hok1) as (ts2 & ev2 & E2 & Hok2 & S2 & K2 & W2 & O2).
    { eapply Forall_impl; [|exact Hcs]. intros [t w|t|t|]; simpl; [|done..].
      by rewrite (sm_owner _ _ S1). }
    exists ts2, (ev1 ++ ev2). split_and!; [by eapply hbind_run|done|by etrans|by etrans|by apply Forall_app|].
    intros t [??]%Forall_cons_iff. etrans; [by apply O1|by apply O2].
Qed.

(** The timers that ran, with the expiries they ran for. *)
Definition fired (ev : list timer_event) : list (nat * Z) :=
  omap (fun e => match e with Fired t x => Some (t, x) | Woken => None end) ev.
Lemma fired_woken ev : Forall (eq Woken) ev -> fired ev = [].
Proof. induction 1 as [|? ev <- _ IH]; [done|exact IH]. Qed.
Lemma fired_app ev1 ev2 : fired (ev1 ++ ev2) = fired ev1 ++ fired ev2.
Proof. apply omap_app. Qed.

Section RunLemmas.
Context (callback : nat -> TimerSet -> list timer_command)
  (Hcallback : forall t ts, Forall (command_ok ts) (callback t ts)).

Lemma run_one_timer_run k ts t :
  ts_ok k ts ->
  exists ts' ev, run_one_timer callback t ts = Ok (tt, ts', ev) /\ ts_ok k ts' /\
    same_set ts ts' /\ chunk_kept k ts ts' /\ fired ev = [(t, expiry_s (ts_timers ts t))] /\
    (Forall (command_on t) (callback t ts) -> only_timer t ts ts').
Proof.
  intros Hok. destruct (exec_commands_run k ts (callback t ts) Hok (Hcallback t ts))
    as (ts' & ev & E & Hok' & Hs & Hk & Hw & Ho).
  exists ts', (Fired t (expiry_s (ts_timers ts t)) :: ev). split_and!; try done.
  - unfold run_one_timer. rewrite hbind_get. by apply hbind_emit.
  - simpl. f_equal. by apply fired_woken.
  - apply Ho.
Qed.
End RunLemmas.

(** ** Taking the first timer out of the heap *)

(** The state after [pop_first]: the timer's record still has its old position. *)
Record popped (k : nat) (ts : TimerSet) (th : heap_element) (ts1 : TimerSet) : Prop := {
  po_heap : heap4 (ts_heap ts1);
  po_but : links_but (he_t th) k ts1;
  po_only : only_timer (he_t th) ts ts1;
  po_expiry : expiry_s (ts_timers ts1 (he_t th)) = he_expiry th;
  po_owner : owner (ts_timers ts1 (he_t th)) = owner (ts_timers ts (he_t th));
  po_chunk : ts_runchunk ts1 = ts_runchunk ts;
  po_perm : length (ts_heap ts) = S (length (ts_heap ts1))
}.

Lemma pop_first_run k ts th :
  heap4 (ts_heap ts) -> ts_links k ts -> ts_heap ts !! 0%nat = Some th ->
  exists ts1, pop_first ts = Ok (th, ts1, []) /\ popped k ts th ts1.
Proof.
  intros Hh L Hth. destruct (remove_heap4_run k ts 0 th Hh L Hth)
    as (h' & p' & E & Hh' & Hp & B & Hs & He & Ho).
  exists (set_heap h' p' ts). unfold pop_first. rewrite Hth. simpl.
  unfold pop_heap4, pop_heap. fold remove_heap4. rewrite E. simpl. rewrite removelast_snoc.
  split; [done|]. split; try done. simpl. rewrite <- (Permutation_length Hp), length_app. simpl. lia.
Qed.

(** The first loop then unschedules it. *)
Lemma popped_unscheduled k ts th ts1 :
  ts_links k ts -> ts_heap ts !! 0%nat = Some th -> popped k ts th ts1 ->
  let ts2 := update_timer (he_t th) (set_schedpos1 0) (set_timer_expiry ts1) in
  ts_ok k ts2 /\ only_timer (he_t th) ts ts2 /\ schedpos1 (ts_timers ts2 (he_t th)) = 0 /\
  expiry_s (ts_timers ts2 (he_t th)) = he_expiry th /\ same_set ts ts2.
Proof.
  intros L Hth [Hh B O Hx Ho Hc _] ts2. subst ts2. simpl. rewrite fn_lookup_insert.
  assert (O2 : only_timer (he_t th) ts (update_timer (he_t th) (set_schedpos1 0) (set_timer_expiry ts1))).
  { destruct O as [A1 B1 C1 D1 E1]. split; try done. intros t' Hne. simpl.
    rewrite fn_lookup_insert_ne by done. by apply A1. }
  split_and!; try done.
  - split_and!; [done| |done].
    apply (unlinked k (set_timer_expiry ts1) _ (set_schedpos1 0 (ts_timers ts1 (he_t th)))); [|done|].
    + by apply (links_but_change _ k ts1).
    + simpl. rewrite Hc. intros i Hi Hr. destruct (lk_pos _ _ L 0%nat th Hth).
      pose proof (lk_run _ _ L i _ Hi Hr). lia.
  - eapply only_timer_same_set; [done|]. simpl. by rewrite fn_lookup_insert.
Qed.

(** The second loop puts it at the end of the run chunk. *)
Lemma popped_chunk ts th ts1 :
  ts_links 0 ts -> ts_heap ts !! 0%nat = Some th -> popped 0 ts th ts1 ->
  let n := length (ts_runchunk ts1) in
  let ts2 := set_runchunk (ts_runchunk ts1 ++ [Some (he_t th)])
               (update_timer (he_t th) (set_schedpos1 (- Z.of_nat n - 1)) ts1) in
  heap4 (ts_heap ts2) /\ ts_links 0 ts2 /\
  (forall t, t <> he_t th -> same_timer (ts_timers ts t) (ts_timers ts2 t)) /\
  schedpos1 (ts_timers ts2 (he_t th)) < 0 /\ expiry_s (ts_timers ts2 (he_t th)) = he_expiry th /\
  owner (ts_timers ts2 (he_t th)) = owner (ts_timers ts (he_t th)).
Proof.
  intros L Hth [Hh B O Hx Ho Hc _] n ts2. subst ts2. simpl. rewrite fn_lookup_insert. simpl.
  destruct (lk_pos _ _ L 0%nat th Hth) as [Hpos _].
  assert (Hno : forall i, ts_runchunk ts1 !! i <> Some (Some (he_t th))).
  { intros i. rewrite Hc. intros Hr. pose proof (lk_run _ _ L i _ ltac:(lia) Hr). lia. }
  split_and!; try done; [| |lia].
  - apply (links_but_links (he_t th)).
    + apply (links_but_change _ 0 ts1); [done..| |].
      * intros t' Hne. simpl. by rewrite fn_lookup_insert_ne.
      * intros i t' Hne. simpl. rewrite lookup_app_Some. split; [|by intros []; auto].
        intros [_ [|[? Hs]]]; [split; [lia|done]|]. apply list_lookup_singleton_Some in Hs as [_ Hs]. congruence.
    + right. exists n. simpl. rewrite fn_lookup_insert, list_lookup_middle by done.
      split_and!; [lia|done..|]. simpl. rewrite Ho. apply (lk_owner _ _ L). lia.
    + simpl. rewrite fn_lookup_insert. simpl. intros i _ [Hr|[Hi Hr]]%lookup_app_Some.
      * by destruct (Hno i).
      * apply list_lookup_singleton_Some in Hr as [Hr _]. subst n. lia.
  - intros t Hne. rewrite fn_lookup_insert_ne by done. by apply O.
Qed.

(** ** Callbacks that reschedule their own timer *)

(** The timer is scheduled and its expiry has come. *)
Definition due (ts : TimerSet) (t : nat) : Prop :=
  0 < schedpos1 (ts_timers ts t) /\ expiry_s (ts_timers ts t) <= ts_check ts.
(** The command schedules [t] for later, as the periodic timers of the elements do. *)
Definition reschedules (ts : TimerSet) (t : nat) (c : timer_command) : Prop :=
  exists when, c = ScheduleAt t when /\ ts_check ts < effective_expiry ts when.

Lemma exec_reschedules k ts t cs :
  ts_ok k ts -> is_Some (owner (ts_timers ts t)) -> Forall (reschedules ts t) cs ->
  schedpos1 (ts_timers ts t) = 0 \/ ts_check ts < expiry_s (ts_timers ts t) ->
  forall ts' ev, exec_commands cs ts = Ok (tt, ts', ev) ->
  only_timer t ts ts' /\ ~ due ts' t.
Proof.
  revert ts. induction cs as [|c cs IH]; intros ts Hok Hown Hcs Ht ts' ev E.
  - injection E as <- _. split; [done|]. unfold due. lia.
  - apply Forall_cons_iff in Hcs as [(when & -> & Hlt) Hcs].
    destruct (exec_command_run k ts (ScheduleAt t when) Hok Hown)
      as (ts1 & ev1 & E1 & Hok1 & S1 & _ & _ & O1 & Hx).
    destruct (Hx t when eq_refl) as [Hpos Hx1].
    cbn [exec_commands] in E. unfold hbind in E. rewrite E1 in E.
    destruct (exec_commands cs ts1) as [[[[] ts2] ev2]|] eqn:E2; [|done]. injection E as <- _.
    destruct (IH ts1) with ts2 ev2 as [O2 Hd]; try done.
    + by rewrite (sm_owner _ _ S1).
    + eapply Forall_impl; [|exact Hcs]. intros c (w & -> & Hw). exists w.
      unfold effective_expiry, check_timer_expiry in *. by rewrite (sm_check _ _ S1).
    + right. by rewrite Hx1, (sm_check _ _ S1).
    + split; [|done]. etrans; [by apply O1|done].
Qed.

(** The timers of [l], with their expiries, were taken out of [ts0] in order: they were the
    first that were due, and no timer that is still due comes before them. *)
Record taken (ts0 : TimerSet) (l : list (nat * Z)) (ts : TimerSet) : Prop := {
  tk_check : ts_check ts = ts_check ts0;
  tk_others : forall t, t ∉ l.*1 -> same_timer (ts_timers ts0 t) (ts_timers ts t);
  tk_taken : forall t, t ∈ l.*1 -> ~ due ts t;
  tk_due : forall t x, (t, x) ∈ l -> due ts0 t /\ x = expiry_s (ts_timers ts0 t);
  tk_nodup : NoDup l.*1;
  tk_sorted : StronglySorted Z.le l.*2;
  tk_first : forall x t, x ∈ l.*2 -> due ts t -> x <= expiry_s (ts_timers ts t)
}.

Lemma taken_nil ts : taken ts [] ts.
Proof.
  split; simpl; [done|done|..|apply NoDup_nil_2|constructor|];
    intros *; by intros ?%not_elem_of_nil.
Qed.

Lemma same_timer_due ts ts' t :
  same_timer (ts_timers ts t) (ts_timers ts' t) -> ts_check ts' = ts_check ts ->
  due ts t <-> due ts' t.
Proof. intros (Hx & _ & Hp) Hc. unfold due. rewrite Hx, Hc. lia. Qed.

(** Any step that leaves a taken timer not due. *)
Lemma taken_touch ts0 l ts ts' t :
  taken ts0 l ts -> t ∈ l.*1 -> ts_check ts' = ts_check ts -> ~ due ts' t ->
  (forall t', t' <> t -> same_timer (ts_timers ts t') (ts_timers ts' t')) ->
  taken ts0 l ts'.
Proof.
  intros [A B C D E F G] Ht Hc Hd Hs.
  assert (Hdue : forall t', due ts' t' -> t' <> t /\ due ts t').
  { intros t' Hd'. assert (t' <> t) by (intros ->; done).
    split; [done|]. apply (same_timer_due ts ts'); auto. }
  split; try done.
  - by rewrite Hc.
  - intros t' Hn. etrans; [by apply B|]. apply Hs. by intros ->.
  - intros t' Ht' Hd'. destruct (Hdue t' Hd'). by apply (C t').
  - intros x t' Hx Hd'. destruct (Hdue t' Hd') as [Hne Hd2].
    destruct (Hs t' Hne) as [<- _]. by apply G.
Qed.

(** Taking the first timer of the heap. *)
Lemma taken_first ts0 l ts ts' th :
  taken ts0 l ts -> heap4 (ts_heap ts) -> ts_links 0 ts -> ts_heap ts !! 0%nat = Some th ->
  he_expiry th <= ts_check ts -> ts_check ts' = ts_check ts -> ~ due ts' (he_t th) ->
  (forall t', t' <> he_t th -> same_timer (ts_timers ts t') (ts_timers ts' t')) ->
  taken ts0 (l ++ [(he_t th, he_expiry th)]) ts'.
Proof.
  intros T Hh L Hth Hle Hc Hd Hs. destruct (lk_pos _ _ L 0%nat th Hth) as [Hpos Hx].
  assert (Hdue : due ts (he_t th)) by (unfold due; rewrite Hpos, Hx; lia).
  assert (Hnot : he_t th ∉ l.*1) by (intros Ht; by apply (tk_taken _ _ _ T (he_t th))).
  assert (Hmin : forall t, due ts t -> he_expiry th <= expiry_s (ts_timers ts t)).
  { intros t [Ht _]. destruct (links_in L t Ht) as (e & He & _ & <-).
    pose proof (lookup_lt_Some _ _ _ He) as Hlt.
    pose proof (heap_first heap_less _ (length (ts_heap ts)) _ Hh ltac:(lia) Hlt e th He Hth) as H1.
    unfold heap_less in H1. by apply Z.ltb_ge. }
  assert (Hd0 : due ts0 (he_t th) /\ he_expiry th = expiry_s (ts_timers ts0 (he_t th))).
  { pose proof (tk_others _ _ _ T _ Hnot) as Hsame.
    split; [by apply (same_timer_due ts0 ts); [|apply T|]|]. destruct Hsame as [-> _]. done. }
  assert (Hdue' : forall t', due ts' t' -> t' <> he_t th /\ due ts t').
  { intros t' Hd'. assert (t' <> he_t th) by (intros ->; done).
    split; [done|]. apply (same_timer_due ts ts'); auto. }
  destruct T as [A B C D E F G]. split.
  - by rewrite Hc.
  - intros t. rewrite fmap_app, not_elem_of_app. intros [Hn Hne]. etrans; [by apply B|].
    apply Hs. intros ->. by apply Hne, list_elem_of_singleton.
  - intros t Ht Hd'. destruct (Hdue' t Hd') as [Hne Hd2].
    rewrite fmap_app, elem_of_app in Ht. destruct Ht as [Ht|Ht]; [by apply (C t)|].
    by apply list_elem_of_singleton in Ht.
  - intros t x. rewrite elem_of_app. intros [Ht|Ht]; [by apply D|].
    apply list_elem_of_singleton in Ht. by injection Ht as -> ->.
  - rewrite fmap_app. apply list.NoDup_app. split_and!; [done| |apply NoDup_singleton].
    intros t Ht Hn. apply list_elem_of_singleton in Hn. by subst t.
  - rewrite fmap_app. simpl.
    assert (Hall : Forall (fun x => x <= he_expiry th) l.*2).
    { apply list.Forall_forall. intros x Hx'. rewrite <- Hx. by apply G. }
    clear -F Hall. induction F as [|x xs F IH Hx]; simpl; [by repeat constructor|].
    apply Forall_cons_iff in Hall as [Hle Hall]. constructor; [by apply IH|].
    apply Forall_app. split; [done|by constructor].
  - intros x t. rewrite fmap_app, elem_of_app. intros Hxl Hd'.
    destruct (Hdue' t Hd') as [Hne Hd2]. destruct (Hs t Hne) as [<- _].
    destruct Hxl as [Hxl|Hxl]; [by apply G|]. apply list_elem_of_singleton in Hxl as ->.
    by apply Hmin.
Qed.

(** ** The loops, for any callbacks *)
Section Loops.
Context (callback : nat -> TimerSet -> list timer_command)
  (Hcallback : forall t ts, Forall (command_ok ts) (callback t ts)).

Lemma first_due_inv ts :
  first_due ts = true ->
  exists th, ts_heap ts !! 0%nat = Some th /\ he_expiry th <= ts_check ts.
Proof.
  unfold first_due. destruct (ts_heap ts) as [|th h]; [done|]. rewrite Z.leb_le. by exists th.
Qed.

(** One round of the first loop: [after] is the state its callback starts from. *)
Record round (ts : TimerSet) (th : heap_element) (after ts' : TimerSet) (ev : list timer_event)
  : Prop := {
  rd_ok : ts_ok 0 ts';
  rd_set : same_set ts ts';
  rd_fired : fired ev = [(he_t th, he_expiry th)];
  rd_after : ts_ok 0 after;
  rd_only : only_timer (he_t th) ts after;
  rd_unscheduled : schedpos1 (ts_timers after (he_t th)) = 0;
  rd_run : exists ev', exec_commands (callback (he_t th) after) after = Ok (tt, ts', ev')
}.

Lemma run_loop_round n ts th :
  ts_ok 0 ts -> ts_heap ts !! 0%nat = Some th ->
  exists after ts' ev, round ts th after ts' ev /\
    run_loop callback n ts =
    match (if negb (ts_stop ts') && first_due ts' then
             match n with O => hret true | S n => run_loop callback n end
           else hret false) ts' with
    | Ok (b, ts'', ev') => Ok (b, ts'', ev ++ ev')
    | Fault f => Fault f
    end.
Proof.
  intros Hok Hth. pose proof Hok as (Hh & L & _).
  destruct (lk_pos _ _ L 0%nat th Hth) as [_ Hx].
  destruct (pop_first_run 0 ts th Hh L Hth) as (ts1 & E1 & P).
  pose proof (popped_unscheduled 0 ts th ts1 L Hth P) as (Hok2 & O2 & Hz2 & Hx2 & S2).
  set (ts2 := update_timer (he_t th) (set_schedpos1 0) (set_timer_expiry ts1)) in *.
  destruct (run_one_timer_run callback Hcallback 0 ts2 (he_t th) Hok2)
    as (ts' & ev & E & Hok' & S' & _ & Hf & _).
  exists ts2, ts', ev. split.
  - split; try done; [by etrans|by rewrite <- Hx2|].
    unfold run_one_timer in E. rewrite hbind_get in E.
    apply hbind_inv in E as (? & ? & ? & ? & [= <- <- <-] & E & _). by eexists.
  - destruct n; cbn [run_loop]; rewrite hbind_get, (hbind_lift_ok _ th) by (by rewrite Hth);
      rewrite Hx, Z.eqb_refl, hbind_ret_l, (hbind_silent _ _ _ _ _ E1), !hbind_modify;
      fold ts2; unfold hbind at 1; rewrite E, hbind_get; done.
Qed.

Lemma run_loop_run n ts :
  ts_ok 0 ts -> first_due ts = true ->
  exists b ts' ev, run_loop callback n ts = Ok (b, ts', ev) /\ ts_ok 0 ts' /\ same_set ts ts' /\
    Forall (fun p => p.2 <= ts_check ts) (fired ev) /\
    (b = true -> first_due ts' = true).
Proof.
  revert ts. induction n as [|n IH]; intros ts Hok Hdue;
    destruct (first_due_inv ts Hdue) as (th & Hth & Hle);
    [destruct (run_loop_round 0 ts th Hok Hth) as (after & ts1 & ev1 & R & E)
    |destruct (run_loop_round (S n) ts th Hok Hth) as (after & ts1 & ev1 & R & E)];
    rewrite E; clear E; destruct R as [Hok1 S1 Hf1 _ _ _ _].
  all: destruct (negb (ts_stop ts1) && first_due ts1) eqn:Eb.
  2, 4: exists false, ts1, (ev1 ++ []); split_and!; try done;
    rewrite fired_app, Hf1; by repeat constructor.
  all: apply andb_true_iff in Eb as [_ Eb].
  - exists true, ts1, (ev1 ++ []). split_and!; try done.
    rewrite fired_app, Hf1. by repeat constructor.
  - destruct (IH ts1 Hok1 Eb) as (b & ts2 & ev2 & E2 & Hok2 & S2 & Hf2 & Hb2). rewrite E2.
    exists b, ts2, (ev1 ++ ev2). split_and!; [done|done|by etrans| |done].
    rewrite fired_app, Hf1. apply Forall_app. split; [by repeat constructor|].
    by rewrite (sm_check _ _ S1) in Hf2.
Qed.

(** The second loop moves the due timers to the run chunk, the first to expire first. *)
Record filled (ts ts' : TimerSet) (pend : list (nat * Z)) : Prop := {
  fl_heap : heap4 (ts_heap ts');
  fl_links : ts_links 0 ts';
  fl_owner : forall t, owner (ts_timers ts' t) = owner (ts_timers ts t);
  fl_check : ts_check ts' = ts_check ts;
  fl_stop : ts_stop ts' = ts_stop ts;
  fl_chunk : ts_runchunk ts' = ts_runchunk ts ++ ((fun p : nat * Z => Some p.1) <$> pend);
  fl_expiry : Forall (fun p => expiry_s (ts_timers ts' p.1) = p.2 /\ p.2 <= ts_check ts) pend;
  fl_others : forall t, schedpos1 (ts_timers ts t) <= 0 -> same_timer (ts_timers ts t) (ts_timers ts' t);
  fl_due : first_due ts' = false;
  fl_taken : forall ts0 l, taken ts0 l ts -> taken ts0 (l ++ pend) ts'
}.

Lemma fill_runchunk_run n ts :
  heap4 (ts_heap ts) -> ts_links 0 ts -> first_due ts = true -> (length (ts_heap ts) <= S n)%nat ->
  exists ts' pend, fill_runchunk n ts = Ok (tt, ts', []) /\ filled ts ts' pend.
Proof.
  revert ts. induction n as [|n IH]; intros ts Hh L Hdue Hn;
    destruct (first_due_inv ts Hdue) as (th & Hth & Hle);
    destruct (pop_first_run 0 ts th Hh L Hth) as (ts1 & E1 & P);
    pose proof (popped_chunk ts th ts1 L Hth P) as (Hh2 & L2 & Hsame & Hneg & Hx2 & Ho2);
    destruct (lk_pos _ _ L 0%nat th Hth) as [Hpos _];
    cbn [fill_runchunk]; rewrite (hbind_silent _ _ _ _ _ E1), hbind_get, !hbind_modify, hbind_get;
    set (ts2 := set_runchunk _ _) in *.
  all: assert (Hown : forall t, owner (ts_timers ts2 t) = owner (ts_timers ts t))
    by (intros t; destruct (decide (t = he_t th)) as [-> |Hne]; [done|symmetry; by apply Hsame]).
  all: assert (Hck : ts_check ts2 = ts_check ts) by apply P.
  all: assert (Hrc : ts_runchunk ts2 = ts_runchunk ts ++ [Some (he_t th)])
    by (subst ts2; simpl; by rewrite (po_chunk _ _ _ _ P)).
  all: assert (Hnd : ~ due ts2 (he_t th)) by (intros [? _]; lia).
  all: assert (Hoth : forall t, schedpos1 (ts_timers ts t) <= 0 ->
    same_timer (ts_timers ts t) (ts_timers ts2 t)) by (intros t Ht; apply Hsame; intros ->; lia).
  all: destruct (first_due ts2) eqn:Edue; [|exists ts2, [(he_t th, he_expiry th)]; split; [done|]].
  2, 4: split; try done; [apply P|by repeat constructor|intros ts0 l T; by apply (taken_first ts0 l ts)].
  - destruct (first_due_inv ts2 Edue) as (th2 & Hth2 & _).
    pose proof (lookup_lt_Some _ _ _ Hth2) as Hl. pose proof (po_perm _ _ _ _ P) as Hperm.
    simpl in Hl. lia.
  - destruct (IH ts2 Hh2 L2 Edue) as (ts3 & pend & E3 & [F1 F2 F3 F4 F5 F6 F7 F8 F9 F10]).
    { pose proof (po_perm _ _ _ _ P) as Hperm. simpl. lia. }
    exists ts3, ((he_t th, he_expiry th) :: pend). split; [done|]. split; try done.
    + intros t. by rewrite F3.
    + congruence.
    + rewrite F5. apply P.
    + by rewrite F6, Hrc, <- app_assoc.
    + constructor; [simpl; split; [|done]|by rewrite Hck in F7].
      destruct (F8 (he_t th)) as [<- _]; [lia|done].
    + intros t Ht. etrans; [by apply Hoth|]. apply F8. destruct (Hoth t Ht) as (_ & _ & ?). lia.
    + intros ts0 l T. change ((?a :: pend)) with ([a] ++ pend). rewrite app_assoc. apply F10.
      by apply (taken_first ts0 l ts).
Qed.

(** The entry at [k] of the run chunk: cleared, or a timer that is unscheduled. *)
Lemma chunk_skip k ts :
  ts_ok k ts -> ts_runchunk ts !! k = Some None -> ts_ok (S k) ts.
Proof.
  intros (Hh & L & Hc) Hk. split_and!; [done| |done]. split; try apply L.
  - intros t (i & Hi & Hr & E)%(lk_chunk _ _ L). exists i. split_and!; [|done..].
    destruct (decide (i = k)) as [-> |]; [congruence|lia].
  - intros i t Hi. apply (lk_run _ _ L). lia.
Qed.
Lemma chunk_take k ts t :
  ts_ok k ts -> ts_runchunk ts !! k = Some (Some t) ->
  let ts' := update_timer t (set_schedpos1 0) ts in
  ts_ok (S k) ts' /\ only_timer t ts ts' /\ same_set ts ts' /\
  schedpos1 (ts_timers ts' t) = 0 /\ expiry_s (ts_timers ts' t) = expiry_s (ts_timers ts t) /\
  is_Some (owner (ts_timers ts t)).
Proof.
  intros (Hh & L & Hc) Hk ts'. pose proof (lk_run _ _ L k t ltac:(lia) Hk) as Hpos.
  assert (Ho : only_timer t ts ts').
  { split; try done. intros t' Hne. simpl. by rewrite fn_lookup_insert_ne. }
  subst ts'. split_and!; try done.
  - split_and!; [done| |done]. apply (links_but_links t).
    + apply (links_but_change t k ts); [by apply links_but_of; [|lia]|done|..].
      * intros t' Hne. simpl. by rewrite fn_lookup_insert_ne.
      * intros i t' Hne. simpl. split; intros [Hi Hr]; (split; [|done]); [lia|].
        destruct (decide (i = k)) as [-> |]; [congruence|lia].
    + left. simpl. by rewrite fn_lookup_insert.
    + simpl. intros i Hi Hr. pose proof (lk_run _ _ L i t ltac:(lia) Hr). lia.
  - eapply only_timer_same_set; [done|]. simpl. by rewrite fn_lookup_insert.
  - simpl. by rewrite fn_lookup_insert.
  - simpl. by rewrite fn_lookup_insert.
  - apply (lk_owner _ _ L). lia.
Qed.
(** The expiries of the timers left in the run chunk. *)
Definition chunk_due (k : nat) (ts : TimerSet) : Prop :=
  forall i t, (k <= i)%nat -> ts_runchunk ts !! i = Some (Some t) ->
    expiry_s (ts_timers ts t) <= ts_check ts.
Lemma chunk_due_kept k k' ts ts' :
  chunk_due k ts -> (k <= k')%nat -> chunk_kept k' ts ts' -> ts_check ts' = ts_check ts ->
  chunk_due k' ts'.
Proof.
  intros D Hk K Hc i t Hi Hr. destruct (K i t Hi Hr) as [Hr' ->]. rewrite Hc.
  by apply (D i); [lia|].
Qed.

Lemma run_runchunk_run n k ts :
  ts_ok k ts -> chunk_due k ts -> (k + n = length (ts_runchunk ts))%nat ->
  exists i ts' ev, run_runchunk callback n k ts = Ok (i, ts', ev) /\ ts_ok i ts' /\
    same_set ts ts' /\ (i <= length (ts_runchunk ts))%nat /\
    Forall (fun p => p.2 <= ts_check ts) (fired ev).
Proof.
  revert k ts. induction n as [|n IH]; intros k ts Hok D Hn; cbn [run_runchunk];
    rewrite hbind_get; [exists k, ts, []; split_and!; try done; try lia|].
  destruct (ts_stop ts); [exists k, ts, []; split_and!; try done; try lia|].
  destruct (lookup_lt_is_Some_2 (ts_runchunk ts) k) as [o Ho]; [lia|].
  rewrite (hbind_lift_ok _ o) by (by rewrite Ho). destruct o as [t|].
  - rewrite hbind_modify. destruct (chunk_take k ts t Hok Ho) as (Hok1 & O1 & S1 & Hz & Hx & _).
    set (ts1 := update_timer _ _ _) in *.
    assert (K1 : chunk_kept (S k) ts ts1) by (apply (only_timer_chunk _ t); [done..|lia]).
    destruct (run_one_timer_run callback Hcallback (S k) ts1 t Hok1)
      as (ts2 & ev & E & Hok2 & S2 & K2 & Hf & _).
    destruct (IH (S k) ts2) as (i & ts3 & ev3 & E3 & Hok3 & S3 & Hi3 & Hf3); [done| | |].
    + apply (chunk_due_kept k (S k) ts); [done|lia|by etrans|].
      by rewrite (sm_check _ _ S2), (sm_check _ _ S1).
    + rewrite (sm_length _ _ S2), (sm_length _ _ S1). lia.
    + rewrite (sm_length _ _ S2), (sm_length _ _ S1) in Hi3.
      rewrite (sm_check _ _ S2), (sm_check _ _ S1) in Hf3.
      exists i, ts3, (ev ++ ev3). split_and!; [by eapply hbind_run|done|by do 2 etrans|done|].
      rewrite fired_app, Hf, Hx. apply Forall_app. split; [|done]. constructor; [|done].
      by apply (D k).
  - destruct (IH (S k) ts) as (i & ts3 & ev3 & ?); [by apply chunk_skip| |lia|by exists i, ts3, ev3].
    intros j t Hj. apply D. lia.
Qed.

Lemma reschedule_unrun_run n k ts :
  ts_ok k ts -> (k + n = length (ts_runchunk ts))%nat ->
  exists ts' ev, reschedule_unrun n k ts = Ok (tt, ts', ev) /\ ts_ok (k + n) ts' /\
    same_set ts ts' /\ fired ev = [].
Proof.
  revert k ts. induction n as [|n IH]; intros k ts Hok Hn; cbn [reschedule_unrun].
  - exists ts, []. by rewrite Nat.add_0_r.
  - rewrite hbind_get. destruct (lookup_lt_is_Some_2 (ts_runchunk ts) k) as [o Ho]; [lia|].
    rewrite (hbind_lift_ok _ o) by (by rewrite Ho). replace (k + S n)%nat with (S k + n)%nat by lia.
    destruct o as [t|]; [|apply IH; [by apply chunk_skip|lia]].
    rewrite hbind_modify. destruct (chunk_take k ts t Hok Ho) as (Hok1 & O1 & S1 & Hz & Hx & Hown).
    destruct (schedule_run (S k) _ t (expiry_s (ts_timers ts t)) Hok1)
      as (ts2 & ev & E & Hok2 & O2 & _ & _ & Hw & Hev); [by rewrite (sm_owner _ _ S1)|].
    pose proof (only_timer_same_set _ _ _ O2 Hw) as S2.
    destruct (IH (S k) ts2 Hok2) as (ts3 & ev3 & E3 & Hok3 & S3 & Hf3).
    { rewrite (sm_length _ _ S2), (sm_length _ _ S1). lia. }
    exists ts3, (ev ++ ev3). split_and!; [by eapply hbind_run|done|by do 2 etrans|].
    by rewrite fired_app, Hf3, fired_woken.
Qed.

Lemma chunk_done ts : ts_ok (length (ts_runchunk ts)) ts -> ts_ok 0 (set_runchunk [] ts).
Proof.
  intros (Hh & L & Hc). split_and!; [done| |done]. split; try apply L; [|by intros i t].
  intros t (i & Hi & Hr & _)%(lk_chunk _ _ L). apply lookup_lt_Some in Hr. lia.
Qed.

Lemma run_chunk_run ts :
  ts_ok 0 ts -> ts_runchunk ts = [] -> first_due ts = true ->
  exists ts' ev, run_chunk callback ts = Ok (tt, ts', ev) /\ ts_ok 0 ts' /\
    ts_runchunk ts' = [] /\ ts_check ts' = ts_check ts /\
    (forall t, owner (ts_timers ts' t) = owner (ts_timers ts t)) /\
    Forall (fun p => p.2 <= ts_check ts) (fired ev).
Proof.
  intros (Hh & L & _) Hrc Hdue. unfold run_chunk. rewrite hbind_get.
  destruct (fill_runchunk_run (length (ts_heap ts)) ts Hh L Hdue)
    as (ts1 & pend & E1 & [Hh1 L1 Ho1 Hc1 _ Hr1 Hx1 _ _ _]); [lia|].
  rewrite (hbind_silent _ _ _ _ _ E1), hbind_modify, hbind_get. set (ts2 := set_timer_expiry ts1).
  assert (Hok2 : ts_ok 0 ts2) by (split; [exact Hh1|split; [destruct L1; by split|done]]).
  destruct (run_runchunk_run (length (ts_runchunk ts2)) 0 ts2)
    as (i & ts3 & ev3 & E3 & Hok3 & S3 & Hi & Hf3); [done| |done|].
  { intros i t _ Hr. simpl in *. rewrite Hr1, Hrc, app_nil_l, list_lookup_fmap in Hr.
    destruct (pend !! i) as [p|] eqn:Hp; [|done]. injection Hr as <-.
    destruct (Forall_lookup_1 _ _ _ _ Hx1 Hp) as [-> ?]. by rewrite Hc1. }
  pose proof (sm_length _ _ S3) as Hl3.
  destruct (reschedule_unrun_run (length (ts_runchunk ts3) - i) i ts3)
    as (ts4 & ev4 & E4 & Hok4 & S4 & Hf4); [done|lia|].
  exists (set_runchunk [] ts4), (ev3 ++ ev4 ++ []). split.
  { eapply hbind_run; [exact E3|]. rewrite hbind_get. eapply hbind_run; [exact E4|done]. }
  split_and!; [|done|..].
  - apply chunk_done. rewrite (sm_length _ _ S4).
    by replace (i + _)%nat with (length (ts_runchunk ts3)) in Hok4 by lia.
  - simpl. rewrite (sm_check _ _ S4), (sm_check _ _ S3). exact Hc1.
  - intros t. simpl. rewrite (sm_owner _ _ S4), (sm_owner _ _ S3). apply Ho1.
  - rewrite !fired_app, Hf4, app_nil_r. rewrite <- Hc1. exact Hf3.
Qed.
End Loops.

(** Setting the clock and the strides concerns nothing else. *)
Lemma ts_ok_check k ts z : ts_ok k ts -> ts_ok k (set_check z ts).
Proof. intros (Hh & [] & Hc). by split_and!. Qed.
Lemma adjust_stride_ok k ts th : ts_ok k ts -> ts_ok k (adjust_stride th ts).
Proof.
  intros (Hh & [] & Hc). unfold adjust_stride. destruct (_ <=? _); [by split_and!|].
  destruct (_ <=? _); by split_and!.
Qed.
Lemma adjust_stride_same ts th :
  same_set ts (adjust_stride th ts) /\ ts_heap (adjust_stride th ts) = ts_heap ts /\
  ts_runchunk (adjust_stride th ts) = ts_runchunk ts /\
  ts_stop (adjust_stride th ts) = ts_stop ts /\
  ts_timers (adjust_stride th ts) = ts_timers ts.
Proof. unfold adjust_stride. destruct (_ <=? _); [by split_and!|]. by destruct (_ <=? _). Qed.

(** What [run_timers] does: nothing, or the loops from the state with the clock read and the
    stride adjusted. *)
Definition timers_run (paused : bool) (now : Z) (ts : TimerSet) : bool :=
  negb paused && negb (ts_stop ts) &&
  match ts_heap ts with th :: _ => he_expiry th <=? now | [] => false end.
Definition started (now : Z) (ts ts1 : TimerSet) : Prop :=
  (forall k, ts_ok k ts -> ts_ok k ts1) /\ ts_heap ts1 = ts_heap ts /\
  ts_runchunk ts1 = ts_runchunk ts /\ ts_timers ts1 = ts_timers ts /\
  ts_stop ts1 = ts_stop ts.

Lemma run_timers_start callback paused now ts :
  exists ts1, started now ts ts1 /\
    if timers_run paused now ts then
      ts_check ts1 = now /\ first_due ts1 = true /\
      run_timers callback paused now ts =
      hbind (run_loop callback 64) (fun exhausted =>
        hbind hget (fun ts => if exhausted && negb (ts_stop ts) then run_chunk callback
                              else hret tt)) ts1
    else run_timers callback paused now ts = Ok (tt, ts1, []).
Proof.
  unfold timers_run, run_timers. rewrite hbind_get.
  destruct (negb paused); simpl; [|by exists ts].
  destruct (negb (ts_stop ts)); simpl; [|exists ts; by destruct (_ <? _)%nat].
  destruct (ts_heap ts) as [|th h] eqn:Eh; simpl; [by exists ts|]. rewrite hbind_modify.
  rewrite (hbind_lift_ok _ th) by done.
  destruct (Z.leb_spec (he_expiry th) now) as [Hle|].
  - rewrite hbind_modify. destruct (adjust_stride_same (set_check now ts) (he_expiry th))
      as ([So Sc Sl] & Sh & Sr & Ss & St).
    exists (adjust_stride (he_expiry th) (set_check now ts)). split_and!; [|done..| |done].
    + split_and!; [|done..]. intros k Hok. by apply adjust_stride_ok, ts_ok_check.
    + unfold first_due. rewrite Sh, Sc. simpl. rewrite Eh. by apply Z.leb_le.
  - exists (set_check now ts). split; [|done]. split_and!; [|done..]. intros k Hok.
    by apply ts_ok_check.
Qed.

(** C24: [run_timers] is safe whatever its callbacks do to the set, as long as they schedule
    initialized timers: it ends, no assertion fails, no index is out of bounds, the heap is a
    heap again with every timer at the position it knows, and a timer that was called back had
    an expiry not after the current time. *)
Theorem run_timers_safe callback paused now ts
  (Hcallback : forall t ts, Forall (command_ok ts) (callback t ts))
  (Hok : ts_ok 0 ts) (Hchunk : ts_runchunk ts = []) :
  exists ts' ev, run_timers callback paused now ts = Ok (tt, ts', ev) /\ ts_ok 0 ts' /\
    ts_runchunk ts' = [] /\ (forall t, owner (ts_timers ts' t) = owner (ts_timers ts t)) /\
    Forall (fun p => p.2 <= now) (fired ev).
Proof.
  destruct (run_timers_start callback paused now ts) as (ts1 & (Hok1 & _ & Sr & St & _) & E).
  specialize (Hok1 0%nat Hok). destruct (timers_run paused now ts).
  2: { exists ts1, []. rewrite E, Sr, St. by split_and!. }
  destruct E as (Sc & Hdue & ->).
  destruct (run_loop_run callback Hcallback 64 ts1 Hok1 Hdue)
    as (b & ts2 & ev2 & E2 & Hok2 & S2 & Hf2 & Hb).
  assert (Hrc2 : ts_runchunk ts2 = []) by (apply nil_length_inv; by rewrite (sm_length _ _ S2), Sr, Hchunk).
  assert (Hown : forall t, owner (ts_timers ts2 t) = owner (ts_timers ts t))
    by (intros t; by rewrite (sm_owner _ _ S2), St).
  rewrite Sc in Hf2. destruct (b && negb (ts_stop ts2)) eqn:Eb.
  - pose proof (proj1 (proj1 (andb_true_iff _ _) Eb)) as Hbt.
    destruct (run_chunk_run callback Hcallback ts2 Hok2 Hrc2 (Hb Hbt))
      as (ts3 & ev3 & E3 & Hok3 & Hrc3 & Hc3 & Ho3 & Hf3).
    exists ts3, (ev2 ++ ev3). split_and!; [|done..| |].
    + eapply hbind_run; [exact E2|]. rewrite hbind_get, Eb. apply E3.
    + intros t. by rewrite Ho3.
    + rewrite fired_app. apply Forall_app. split; [done|].
      by rewrite (sm_check _ _ S2), Sc in Hf3.
  - exists ts2, (ev2 ++ []). split_and!; [|done..|by rewrite app_nil_r].
    eapply hbind_run; [exact E2|]. by rewrite hbind_get, Eb.
Qed.

(** ** The loops, for callbacks that reschedule their own timer *)
Section Complete.
Context (callback : nat -> TimerSet -> list timer_command)
  (Hcallback : forall t ts, Forall (command_ok ts) (callback t ts))
  (Hself : forall t ts, Forall (reschedules ts t) (callback t ts)) (ts0 : TimerSet).

Lemma not_due_first ts : heap4 (ts_heap ts) -> ts_links 0 ts -> first_due ts = false ->
  forall t, ~ due ts t.
Proof.
  intros Hh L Hd t [Ht Hx]. destruct (links_in L t Ht) as (e & He & _ & Hxe).
  unfold first_due in Hd. destruct (ts_heap ts) as [|th h] eqn:Eh; [done|].
  rewrite <- Eh in *. pose proof (lookup_lt_Some _ _ _ He) as Hlt.
  assert (Hth : ts_heap ts !! 0%nat = Some th) by by rewrite Eh.
  pose proof (heap_first heap_less _ (length (ts_heap ts)) _ Hh ltac:(lia) Hlt e th He Hth) as H1.
  unfold heap_less in H1. apply Z.ltb_ge in H1. apply Z.leb_gt in Hd. lia.
Qed.

(** One callback: its timer is not due afterwards, the others are the same. *)
Lemma callback_touch k l ts t ts' ev :
  ts_ok k ts -> schedpos1 (ts_timers ts t) = 0 -> taken ts0 l ts -> t ∈ l.*1 ->
  exec_commands (callback t ts) ts = Ok (tt, ts', ev) ->
  only_timer t ts ts' /\ taken ts0 l ts'.
Proof.
  intros Hok Hz T Ht E.
  assert (Ho : only_timer t ts ts' /\ ~ due ts' t).
  { pose proof (Hcallback t ts) as Hc. pose proof (Hself t ts) as Hs.
    destruct (callback t ts) as [|c cs] eqn:Ecs.
    - injection E as <- _. split; [done|]. unfold due. lia.
    - rewrite <- Ecs in *. eapply exec_reschedules; [done| |done|by left|done].
      rewrite Ecs in Hc, Hs. apply Forall_cons_iff in Hc as [Hc _].
      apply Forall_cons_iff in Hs as [(w & -> & _) _]. done. }
  destruct Ho as [Ho Hd]. split; [done|].
  by apply (taken_touch ts0 l ts ts' t); [| |apply Ho| |apply Ho].
Qed.

Lemma run_loop_taken n l ts :
  ts_ok 0 ts -> ts_stop ts = false -> taken ts0 l ts -> first_due ts = true ->
  exists ts' ev, run_loop callback n ts = Ok (first_due ts', ts', ev) /\ ts_ok 0 ts' /\
    same_set ts ts' /\ ts_stop ts' = false /\ taken ts0 (l ++ fired ev) ts'.
Proof.
  revert l ts. induction n as [|n IH]; intros l ts Hok Hst T Hdue;
    destruct (first_due_inv ts Hdue) as (th & Hth & Hle);
    [destruct (run_loop_round callback Hcallback 0 ts th Hok Hth) as (after & ts1 & ev1 & R & E)
    |destruct (run_loop_round callback Hcallback (S n) ts th Hok Hth) as (after & ts1 & ev1 & R & E)];
    rewrite E; clear E; destruct R as [Hok1 S1 Hf1 Hoka Oa Hza (eva & Ea)].
  all: assert (Ta : taken ts0 (l ++ [(he_t th, he_expiry th)]) after)
    by (destruct Hok as (Hh & L & _); apply (taken_first ts0 l ts); try done; try apply Oa;
        unfold due; lia).
  all: destruct (callback_touch 0 _ after (he_t th) ts1 eva Hoka Hza Ta) as [O1 T1]; [|done|];
    [rewrite fmap_app, elem_of_app; right; by apply list_elem_of_singleton|].
  all: assert (Hst1 : ts_stop ts1 = false) by
    (rewrite (ot_stop _ _ _ O1), (ot_stop _ _ _ Oa); done).
  all: rewrite Hst1; simpl; destruct (first_due ts1) eqn:Eb.
  1, 2, 4: exists ts1, (ev1 ++ []); rewrite fired_app, Hf1, Eb; by split_and!.
  destruct (IH _ ts1 Hok1 Hst1 T1 Eb) as (ts2 & ev2 & E2 & Hok2 & S2 & Hst2 & T2). rewrite E2.
  exists ts2, (ev1 ++ ev2). split_and!; try done; [by etrans|].
  by rewrite fired_app, Hf1, app_assoc.
Qed.

Lemma run_runchunk_taken k l ts pend :
  ts_ok k ts -> ts_stop ts = false -> taken ts0 l ts ->
  (forall j p, pend !! j = Some p -> ts_runchunk ts !! (k + j)%nat = Some (Some p.1)) ->
  Forall (fun p => p.1 ∈ l.*1 /\ expiry_s (ts_timers ts p.1) = p.2) pend -> NoDup pend.*1 ->
  exists ts' ev, run_runchunk callback (length pend) k ts = Ok ((k + length pend)%nat, ts', ev) /\
    ts_ok (k + length pend) ts' /\ same_set ts ts' /\ fired ev = pend /\ taken ts0 l ts'.
Proof.
  revert k ts. induction pend as [|[t x] pend IH]; intros k ts Hok Hst T Hrc Hp Hnd.
  - exists ts, []. simpl. rewrite Nat.add_0_r. by split_and!.
  - cbn [run_runchunk length]. rewrite hbind_get, Hst.
    pose proof (Hrc 0%nat (t, x) eq_refl) as Hk. rewrite Nat.add_0_r in Hk. simpl in Hk.
    rewrite (hbind_lift_ok _ (Some t)) by (by rewrite Hk). rewrite hbind_modify.
    destruct (chunk_take k ts t Hok Hk) as (Hok1 & O1 & S1 & Hz & Hx & _).
    set (ts1 := update_timer _ _ _) in *. apply Forall_cons_iff in Hp as [[Htl Hxt] Hp].
    simpl in Htl, Hxt, Hnd. apply list.NoDup_cons in Hnd as [Hnt Hnd].
    assert (T1 : taken ts0 l ts1)
      by (apply (taken_touch ts0 l ts ts1 t); try done; [unfold due; lia|apply O1]).
    destruct (run_one_timer_run callback Hcallback (S k) ts1 t Hok1)
      as (ts2 & ev & E & Hok2 & S2 & _ & Hf & _).
    assert (Hc : exists ev', exec_commands (callback t ts1) ts1 = Ok (tt, ts2, ev')).
    { unfold run_one_timer in E. rewrite hbind_get in E.
      apply hbind_inv in E as (? & ? & ? & ? & [= <- <- <-] & E & _). by eexists. }
    destruct Hc as [ev' Hc]. destruct (callback_touch _ _ _ _ _ _ Hok1 Hz T1 Htl Hc) as [O2 T2].
    assert (O : only_timer t ts ts2) by by etrans.
    destruct (IH (S k) ts2) as (ts3 & ev3 & E3 & Hok3 & S3 & Hf3 & T3); try done.
    + by rewrite (ot_stop _ _ _ O).
    + intros j [t' x'] Hj. simpl. apply (ot_chunk _ _ _ O).
      * intros ->. apply Hnt. apply list_elem_of_lookup. exists j. by rewrite list_lookup_fmap, Hj.
      * rewrite <- Nat.add_succ_r. by apply (Hrc (S j) (t', x')).
    + rewrite list.Forall_forall in Hp |- *. intros [t' x'] Hin. destruct (Hp _ Hin) as [? Hx'].
      split; [done|]. simpl in *. rewrite <- Hx'. symmetry. apply (ot_timers _ _ _ O). intros ->.
      apply Hnt. apply list_elem_of_fmap. by exists (t, x').
    + rewrite Nat.add_succ_r. exists ts3, (ev ++ ev3).
      split_and!; [by eapply hbind_run|done|by do 2 etrans| |done].
      by rewrite fired_app, Hf, Hf3, Hx, Hxt.
Qed.

Lemma taken_same l ts ts' :
  taken ts0 l ts -> ts_timers ts' = ts_timers ts -> ts_check ts' = ts_check ts -> taken ts0 l ts'.
Proof.
  intros [A B C D E F G] Ht Hc. split; unfold due in *; rewrite ?Ht, ?Hc; done.
Qed.

Lemma run_chunk_taken l ts :
  ts_ok 0 ts -> ts_runchunk ts = [] -> ts_stop ts = false -> taken ts0 l ts ->
  first_due ts = true ->
  exists ts' ev, run_chunk callback ts = Ok (tt, ts', ev) /\ taken ts0 (l ++ fired ev) ts' /\
    forall t, ~ due ts' t.
Proof.
  intros (Hh & L & _) Hrc Hst T Hdue. unfold run_chunk. rewrite hbind_get.
  destruct (fill_runchunk_run (length (ts_heap ts)) ts Hh L Hdue)
    as (ts1 & pend & E1 & [Hh1 L1 Ho1 Hc1 Hs1 Hr1 Hx1 _ Hd1 HT]); [lia|].
  specialize (HT _ _ T). rewrite Hrc, app_nil_l in Hr1.
  rewrite (hbind_silent _ _ _ _ _ E1), hbind_modify, hbind_get. set (ts2 := set_timer_expiry ts1).
  assert (Hok2 : ts_ok 0 ts2) by (split_and!; [done|by destruct L1|done]).
  assert (Hl2 : length (ts_runchunk ts2) = length pend) by (simpl; by rewrite Hr1, length_fmap).
  assert (Hnone : forall t, ~ due ts2 t) by exact (not_due_first ts1 Hh1 L1 Hd1).
  destruct (run_runchunk_taken 0 (l ++ pend) ts2 pend)
    as (ts3 & ev3 & E3 & Hok3 & S3 & Hf3 & T3); try done.
  - simpl. by rewrite Hs1.
  - by apply (taken_same _ ts1).
  - intros j p Hj. simpl. by rewrite Hr1, list_lookup_fmap, Hj.
  - rewrite list.Forall_forall in Hx1 |- *. intros p Hp. destruct (Hx1 p Hp) as [Hx _].
    split; [|exact Hx]. rewrite fmap_app, elem_of_app. right. by apply list_elem_of_fmap_2.
  - pose proof (tk_nodup _ _ _ HT) as Hnd. rewrite fmap_app in Hnd.
    by apply list.NoDup_app in Hnd as (_ & _ & ?).
  - rewrite Hl2. exists (set_runchunk [] ts3), (ev3 ++ [] ++ []). split_and!.
    + eapply hbind_run; [exact E3|]. rewrite hbind_get, (sm_length _ _ S3), Hl2.
      by rewrite Nat.sub_diag.
    + rewrite app_nil_r, Hf3. by apply (taken_same _ ts3).
    + intros t Hd. destruct (decide (t ∈ (l ++ pend).*1)) as [Ht|Ht].
      * by apply (tk_taken _ _ _ T3 t Ht).
      * apply (Hnone t). pose proof (tk_others _ _ _ T3 t Ht) as HA.
        pose proof (tk_others _ _ _ HT t Ht) as HB.
        apply (same_timer_due ts0 ts2); [exact HB|exact (tk_check _ _ _ HT)|].
        by apply (same_timer_due ts0 ts3); [|apply T3|].
Qed.
End Complete.

(** C25: When callbacks do nothing to the set but schedule their own timer for later,
    [run_timers] runs exactly the timers that are due, each once, in the order of their
    expiries, however many there are: afterwards no timer is due, and the timers that were
    not due are as they were. *)
Theorem run_timers_complete callback now ts
  (Hcallback : forall t ts, Forall (command_ok ts) (callback t ts))
  (Hself : forall t ts, Forall (reschedules ts t) (callback t ts))
  (Hok : ts_ok 0 ts) (Hchunk : ts_runchunk ts = []) (Hstop : ts_stop ts = false) :
  let due_now ts t := 0 < schedpos1 (ts_timers ts t) /\ expiry_s (ts_timers ts t) <= now in
  exists ts' ev, run_timers callback false now ts = Ok (tt, ts', ev) /\
    (forall t x, (t, x) ∈ fired ev <-> due_now ts t /\ x = expiry_s (ts_timers ts t)) /\
    NoDup (fired ev).*1 /\ StronglySorted Z.le (fired ev).*2 /\
    (forall t, ~ due_now ts' t) /\
    (forall t, ~ due_now ts t -> same_timer (ts_timers ts t) (ts_timers ts' t)).
Proof.
  intros due_now. set (ts0 := set_check now ts).
  assert (Hend : forall ts' ev, taken ts0 (fired ev) ts' -> (forall t, ~ due ts' t) ->
    (forall t x, (t, x) ∈ fired ev <-> due_now ts t /\ x = expiry_s (ts_timers ts t)) /\
    NoDup (fired ev).*1 /\ StronglySorted Z.le (fired ev).*2 /\ (forall t, ~ due_now ts' t) /\
    (forall t, ~ due_now ts t -> same_timer (ts_timers ts t) (ts_timers ts' t))).
  { intros ts' ev [A B C D E F G] Hnone.
    assert (Hin : forall t, due ts0 t -> t ∈ (fired ev).*1).
    { intros t Hd. destruct (decide (t ∈ (fired ev).*1)) as [|Hn]; [done|].
      destruct (Hnone t). by apply (same_timer_due ts0 ts'); [apply B|..]. }
    split_and!; [|done|done| |].
    - intros t x. split; [apply D|]. intros [Hd ->].
      pose proof (Hin t Hd) as ([t' x'] & -> & Ht)%list_elem_of_fmap.
      destruct (D _ _ Ht) as [_ ->]. exact Ht.
    - intros t Hd. apply (Hnone t). unfold due. rewrite A. exact Hd.
    - intros t Hd. apply B. intros ([t' x'] & -> & Ht)%list_elem_of_fmap.
      by destruct (D _ _ Ht) as [? _]. }
  destruct (run_timers_start callback false now ts) as (ts1 & (Hok1 & Sh & Sr & St & Ss) & E).
  specialize (Hok1 0%nat Hok). destruct (timers_run false now ts) eqn:Er.
  - destruct E as (Sc & Hdue & ->).
    assert (T1 : taken ts0 [] ts1) by (apply (taken_same ts0 [] ts0); [apply taken_nil|done|done]).
    destruct (run_loop_taken callback Hcallback Hself ts0 64 [] ts1 Hok1)
      as (ts2 & ev2 & E2 & Hok2 & S2 & Hst2 & T2); [by rewrite Ss|done..|].
    assert (Hrc2 : ts_runchunk ts2 = [])
      by (apply nil_length_inv; by rewrite (sm_length _ _ S2), Sr, Hchunk).
    destruct (first_due ts2) eqn:Ed.
    + destruct (run_chunk_taken callback Hcallback Hself ts0 (fired ev2) ts2 Hok2 Hrc2 Hst2 T2 Ed)
        as (ts3 & ev3 & E3 & T3 & Hn3).
      exists ts3, (ev2 ++ ev3). split; [|apply Hend; [by rewrite fired_app|done]].
      eapply hbind_run; [exact E2|]. rewrite hbind_get, Hst2. exact E3.
    + exists ts2, (ev2 ++ []). split; [eapply hbind_run; [exact E2|done]|]. rewrite app_nil_r.
      apply Hend; [done|]. destruct Hok2 as (Hh2 & L2 & _). by apply not_due_first.
  - exists ts1, []. split; [done|]. destruct Hok as (Hh & L & _).
    assert (Hn : forall t, ~ due ts0 t).
    { apply not_due_first; [done|destruct L; by split|]. unfold timers_run in Er. rewrite Hstop in Er.
      exact Er. }
    destruct (Hend ts0 [] (taken_nil ts0) Hn) as (H1 & H2 & H3 & H4 & H5).
    unfold due_now in *. rewrite St. by split_and!.
Qed.

(** A timer that fires every second, and one that does not reschedule itself. *)
Definition every_second (t : nat) (ts : TimerSet) : list timer_command :=
  if initialized (ts_timers ts t) && (t =? 1)%nat
     && (ts_check ts <? effective_expiry ts (ts_check ts + subsec_per_sec))
  then [ScheduleAt t (ts_check ts + subsec_per_sec)] else [].

Lemma every_second_ok t ts : Forall (command_ok ts) (every_second t ts).
Proof.
  unfold every_second, initialized. destruct (bool_decide _ && _ && _) eqn:E; [|done].
  apply andb_true_iff in E as [[Eb _]%andb_true_iff _]. apply bool_decide_eq_true in Eb.
  by repeat constructor.
Qed.
Lemma every_second_self t ts : Forall (reschedules ts t) (every_second t ts).
Proof.
  unfold every_second. destruct (_ && _ && _) eqn:E; [|done]. apply andb_true_iff in E as [_ E].
  constructor; [|done]. eexists. split; [done|by apply Z.ltb_lt].
Qed.

(** Two timers due, a third that is not. *)
Definition three_timers : TimerSet :=
  match schedule_all [(1%nat, 3000000); (2%nat, 1000000); (3%nat, 9000000)]
          (TimerSet_new 0 (fun _ => MkTimer 0 0 (Some 0%nat))) with
  | Ok ts => ts | Fault _ => TimerSet_new 0 (fun _ => MkTimer 0 0 None)
  end.
Lemma schedule_all_ok l k ts : ts_ok k ts -> (forall t, is_Some (owner (ts_timers ts t))) ->
  exists ts', schedule_all l ts = Ok ts' /\ ts_ok k ts'.
Proof.
  revert ts. induction l as [|[t w] l IH]; intros ts Hok Ho; simpl; [by exists ts|].
  destruct (schedule_run k ts t w Hok (Ho t)) as (ts1 & ev & E & Hok1 & O & _ & _ & Hw & _).
  rewrite E. simpl. apply IH; [done|]. intros t'.
  by rewrite (sm_owner _ _ (only_timer_same_set _ _ _ O Hw)).
Qed.
Lemma three_timers_ok : ts_ok 0 three_timers.
Proof.
  unfold three_timers. edestruct schedule_all_ok as (ts' & -> & ?); [|intros t; by eexists|done].
  by apply TimerSet_new_ok.
Qed.

Lemma run_timers_safe_witness :
  exists ts' ev, run_timers every_second false 4000000 three_timers = Ok (tt, ts', ev) /\
    ts_ok 0 ts' /\ Forall (fun p => p.2 <= 4000000) (fired ev).
Proof.
  destruct (run_timers_safe every_second false 4000000 three_timers every_second_ok
    three_timers_ok) as (ts' & ev & E & Hok & _ & _ & Hev); [vm_compute; reflexivity|].
  exact (ex_intro _ ts' (ex_intro _ ev (conj E (conj Hok Hev)))).
Defined.
Lemma run_timers_complete_witness :
  exists ts' ev, run_timers every_second false 4000000 three_timers = Ok (tt, ts', ev) /\
    (1%nat, 3000000) ∈ fired ev /\ same_timer (ts_timers three_timers 3%nat) (ts_timers ts' 3%nat).
Proof.
  destruct (run_timers_complete every_second 4000000 three_timers every_second_ok every_second_self
    three_timers_ok) as (ts' & ev & E & H1 & _ & _ & _ & H2);
    [vm_compute; reflexivity|vm_compute; reflexivity|].
  exists ts', ev. split; [exact E|]. clear E. split.
  - apply H1. by vm_compute.
  - apply H2. intros [_ H]. vm_compute in H. by apply H.
Defined.
Example run_timers_order :
  match run_timers every_second false 4000000 three_timers with
  | Ok (_, ts', ev) => fired ev = [(2%nat, 1000000); (1%nat, 3000000)] /\
                       pending ts' 1 = Some 5000000 /\ ts_expiry ts' = 5000000
  | Fault _ => False
  end.
Proof. vm_compute. by split_and!. Qed.

(** ** Sleeping *)
Lemma adjusted_before ts :
  ts_expiry ts - 1000 <= timer_expiry_steady_adjusted ts <= ts_expiry ts.
Proof.
  unfold timer_expiry_steady_adjusted. change (make_usec 500) with 500.
  destruct (_ || _); [lia|]. destruct (_ <=? _); lia.
Qed.

(** The driver does not oversleep: unless a task or a signal is waiting, it blocks without
    a timeout only when no timer is scheduled, otherwise for a time that ends before the
    earliest expiry, and it does not block at all only when that is less than a millisecond
    away.  (Expiries are more than a millisecond after the epoch of the steady clock, which an
    adjusted expiry of 0 would be taken for.) *)
Theorem next_timer_delay_spec more_tasks signals now ts
  (Hok : ts_ok 0 ts) (Hchunk : ts_runchunk ts = [])
  (Hepoch : forall t x, pending ts t = Some x -> 1000 < x) :
  let '(delay, t) := next_timer_delay more_tasks signals now ts in
  (delay = 0 /\ (more_tasks || signals = true \/
                 exists t' x, pending ts t' = Some x /\ x < now + 1000)) \/
  (delay = -1 /\ more_tasks || signals = false /\ forall t', pending ts t' = None) \/
  (delay = 1 /\ more_tasks || signals = false /\ 0 <= t /\
   forall t' x, pending ts t' = Some x -> now + t <= x).
Proof.
  unfold next_timer_delay. destruct (more_tasks || signals); [by left; split; [|left]|].
  destruct (first_expiry_min ts Hok Hchunk) as (H1 & H2 & H3). pose proof (adjusted_before ts) as Ha.
  destruct (decide (ts_heap ts = [])) as [Hn|Hn].
  - assert (timer_expiry_steady_adjusted ts = 0) as ->.
    { unfold timer_expiry_steady_adjusted. by rewrite (H3 Hn), orb_true_r. }
    right. left. split_and!; [done..|]. intros t'.
    destruct (pending ts t') as [x|] eqn:E; [|done]. by destruct (H1 _ _ E).
  - destruct (H2 Hn) as (t0 & _ & Hp). pose proof (Hepoch _ _ Hp).
    destruct (Z.eqb_spec (timer_expiry_steady_adjusted ts) 0); [lia|].
    destruct (Z.ltb_spec (timer_expiry_steady_adjusted ts - now) 0).
    + left. split; [done|]. right. exists t0, (ts_expiry ts). split; [done|lia].
    + right. right. split_and!; [done..|lia|]. intros t' x Hx. destruct (H1 _ _ Hx). lia.
Qed.
Lemma three_timers_pending t x : pending three_timers t = Some x -> 1000000 <= x.
Proof.
  intros (e & He & _ & <-)%(pending_heap _ _ _ three_timers_ok); [|vm_compute; reflexivity].
  assert (Hh : forallb (fun e => 1000000 <=? he_expiry e) (ts_heap three_timers) = true)
    by (vm_compute; reflexivity).
  apply Z.leb_le. apply list_elem_of_In in He. exact (proj1 (List.forallb_forall _ _) Hh e He).
Qed.
Lemma next_timer_delay_spec_witness :
  next_timer_delay false false 0 three_timers = (1, 1000000) /\
  forall t x, pending three_timers t = Some x -> 0 + 1000000 <= x.
Proof.
  assert (E : next_timer_delay false false 0 three_timers = (1, 1000000))
    by (vm_compute; reflexivity).
  assert (Hc : ts_runchunk three_timers = []) by (vm_compute; reflexivity).
  split; [exact E|].
  pose proof (next_timer_delay_spec false false 0 three_timers three_timers_ok Hc) as H.
  rewrite E in H. destruct H as [[H _]|[[H _]|(_ & _ & _ & H)]].
  - intros t x Hx. pose proof (three_timers_pending t x Hx). lia.
  - discriminate H.
  - discriminate H.
  - exact H.
Defined.
