(* ===== verification/Qsort.v ===== *)
(** * Sorting ([click_qsort] in [lib/glue.cc])

    Bentley and McIlroy's quicksort, iterative, with a stack of ranges on the C stack.  The
    array is a list of elements and a pointer into it an index; the comparison function is
    any function of two elements ([compar] with its [thunk]), a total order or not.  How
    elements are swapped in memory (a word at a time or a byte at a time) is left out. *)
From Stdlib Require Import ZArith Lia.
From stdpp Require Import base list numbers option relations.
From S2P Require Import Prelude Heap.

(** [sizeof(size_t)] is 8. *)
Definition CQ_STACKSIZ : nat := (8 * 8 + 1) * 2.

Section Qsort.
Context {A : Type} (compar : A -> A -> Z).
Implicit Types (h : list A).

Definition cmp h (i j : nat) : res Z :=
  a ← opt_res OutOfBounds (h !! i); b ← opt_res OutOfBounds (h !! j); Ok (compar a b).
(** A comparison with the pivot, whose value was put aside. *)
Definition cmp_pivot h (i : nat) (pivot : A) : res Z :=
  a ← opt_res OutOfBounds (h !! i); Ok (compar a pivot).

Definition cq_med3 h (a b c : nat) : res nat :=
  ab ← cmp h a b;
  bc ← cmp h b c;
  if ab <? 0 then
    if bc <? 0 then Ok b else ac ← cmp h a c; Ok (if ac <? 0 then c else a)
  else
    if 0 <? bc then Ok b else ac ← cmp h a c; Ok (if 0 <? ac then c else a).

(** [cq_swapfunc(a, b, n)]: exchange [n] elements at [i] with [n] at [j]. *)
Fixpoint cq_swapfunc h (i j n : nat) : res (list A) :=
  match n with
  | O => Ok h
  | S n => h ← click_swap h i j; cq_swapfunc h (S i) (S j) n
  end.

(** Insertion sort for tiny arrays: the inner loop over [pj], the outer over [n] more [pi]. *)
Fixpoint insert_down h (a pj : nat) : res (list A) :=
  match pj with
  | O => Ok h
  | S pj' =>
      if (a <? pj)%nat then
        r ← cmp h pj' pj;
        if 0 <? r then h ← click_swap h pj pj'; insert_down h a pj' else Ok h
      else Ok h
  end.
Fixpoint insertion_sort h (a pi n : nat) : res (list A) :=
  match n with
  | O => Ok h
  | S n => h ← insert_down h a pi; insertion_sort h a (S pi) n
  end.

(** The index of the pivot of [n] elements at [a]. *)
Definition choose_pivot h (a n : nat) : res nat :=
  let pm := (a + n / 2)%nat in
  if (7 <? n)%nat then
    let p1 := a in
    let p2 := (a + (n - 1))%nat in
    if (40 <? n)%nat then
      let offset := (n / 8)%nat in
      p1 ← cq_med3 h p1 (p1 + offset) (p1 + 2 * offset);
      pm ← cq_med3 h (pm - offset) pm (pm + offset);
      p2 ← cq_med3 h (p2 - 2 * offset) (p2 - offset) p2;
      cq_med3 h p1 pm p2
    else cq_med3 h p1 pm p2
  else Ok pm.

(** The two inner loops of the partition and the loop around them. *)
Fixpoint scan_up (fuel : nat) h (pivot : A) (pa pb pc : nat) : res (list A * nat * nat) :=
  if (pb <=? pc)%nat then
    r ← cmp_pivot h pb pivot;
    if r <=? 0 then
      '(h, pa) ← (if r =? 0 then h ← click_swap h pa pb; Ok (h, S pa) else Ok (h, pa));
      match fuel with
      | O => Fault Diverges
      | S fuel => scan_up fuel h pivot pa (S pb) pc
      end
    else Ok (h, pa, pb)
  else Ok (h, pa, pb).
Fixpoint scan_down (fuel : nat) h (pivot : A) (pb pc pd : nat) : res (list A * nat * nat) :=
  if (pb <=? pc)%nat then
    r ← cmp_pivot h pc pivot;
    if 0 <=? r then
      '(h, pd) ← (if r =? 0 then h ← click_swap h pc pd; Ok (h, (pd - 1)%nat) else Ok (h, pd));
      match fuel with
      | O => Fault Diverges
      | S fuel => scan_down fuel h pivot pb (pc - 1) pd
      end
    else Ok (h, pc, pd)
  else Ok (h, pc, pd).
Fixpoint partition (fuel : nat) h (pivot : A) (pa pb pc pd : nat)
  : res (list A * nat * nat * nat * nat) :=
  '(h, pa, pb) ← scan_up (S pc - pb) h pivot pa pb pc;
  '(h, pc, pd) ← scan_down (S pc - pb) h pivot pb pc pd;
  if (pc <? pb)%nat then Ok (h, pa, pb, pc, pd)
  else
    h ← click_swap h pb pc;
    match fuel with
    | O => Fault Diverges
    | S fuel => partition fuel h pivot pa (S pb) (pc - 1) pd
    end.

(** One round of the outer loop: sort the range [[lo, hi)], or split it and push the parts,
    the smaller one last.  [stack] is what lies below the range. *)
Definition qsort_range h (lo hi : nat) (stack : list (nat * nat))
  : res (list A * list (nat * nat)) :=
  let n := (hi - lo)%nat in
  if (n <? 7)%nat then
    h ← insertion_sort h lo (S lo) (n - 1);
    Ok (h, stack)
  else
    pm ← choose_pivot h lo n;
    pivot ← opt_res OutOfBounds (h !! pm);
    h ← click_swap h lo pm;
    '(h, pa, pb, pc, pd) ← partition n h pivot (S lo) (S lo) (lo + (n - 1)) (lo + (n - 1));
    let s := Nat.min (pa - lo) (pb - pa) in
    h ← cq_swapfunc h lo (pb - s) s;
    let s := Nat.min (pd - pc) (hi - pd - 1) in
    h ← cq_swapfunc h pb (hi - s) s;
    if (pb =? pa)%nat && (pd =? pc)%nat then Ok (h, stack)
    else if (2 * length stack + 4 <? CQ_STACKSIZ)%nat then
      let left := (lo, lo + (pb - pa))%nat in
      let right := (hi - (pd - pc), hi)%nat in
      let '(big, small) :=
        if (left.2 - left.1 <? right.2 - right.1)%nat then (right, left) else (left, right) in
      Ok (h, if (small.1 =? small.2)%nat then big :: stack else small :: big :: stack)
    else Fault AssertFailed.

Fixpoint qsort_loop (fuel : nat) h (stack : list (nat * nat)) : res (list A) :=
  match stack with
  | [] => Ok h
  | (lo, hi) :: stack =>
      match fuel with
      | O => Fault Diverges
      | S fuel => '(h, stack) ← qsort_range h lo hi stack; qsort_loop fuel h stack
      end
  end.
Definition click_qsort h : res (list A) := qsort_loop (2 * length h + 1) h [(0%nat, length h)].
End Qsort.

(** [click_compare] on integers. *)
Definition click_compare (a b : Z) : Z := if a <? b then -1 else if b <? a then 1 else 0.

Example qsort_ten : click_qsort click_compare [5; 3; 9; 1; 5; 8; 5; 2; 7; 0] =
  Ok [0; 1; 2; 3; 5; 5; 5; 7; 8; 9].
Proof. reflexivity. Qed.
(** A comparator that is no order at all: the sort ends all the same. *)
Example qsort_bogus : click_qsort (fun _ _ => 1) [5; 3; 9; 1; 5; 8; 5; 2; 7; 0] =
  Ok [8; 5; 5; 9; 0; 7; 2; 1; 3; 5].
Proof. reflexivity. Qed.

(** ** Rearranging a range by exchanges *)
Section Swaps.
Context {A : Type}.
Implicit Types (h : list A).

Lemma click_swap_any h i j :
  (i < length h)%nat -> (j < length h)%nat ->
  exists h', click_swap h i j = Ok h' /\ length h' = length h /\ h' !! i = h !! j /\
    h' !! j = h !! i /\ (forall k, k <> i -> k <> j -> h' !! k = h !! k) /\ h' ≡ₚ h.
Proof.
  intros Hi Hj. destruct (decide (i = j)) as [<-|Hne]; [|by apply click_swap_run].
  destruct (lookup_lt_is_Some_2 h i Hi) as [a Ha]. exists h. split_and!; try done.
  unfold click_swap. rewrite Ha. simpl. by rewrite !(list_insert_id h i a Ha).
Qed.

(** [h'] comes from [h] by exchanges within [[lo, hi)]. *)
Definition swaps (lo hi : nat) : list A -> list A -> Prop :=
  rtc (fun h h' => exists i j, (lo <= i < hi)%nat /\ (lo <= j < hi)%nat /\
                               (hi <= length h)%nat /\ click_swap h i j = Ok h').

Lemma swaps_refl lo hi h : swaps lo hi h h.
Proof. apply rtc_refl. Qed.
Lemma swaps_trans lo hi h1 h2 h3 : swaps lo hi h1 h2 -> swaps lo hi h2 h3 -> swaps lo hi h1 h3.
Proof. unfold swaps. intros H1 H2. by etrans. Qed.
Lemma swaps_mono lo hi lo' hi' h h' :
  swaps lo hi h h' -> (lo' <= lo)%nat -> (hi <= hi' <= length h)%nat -> swaps lo' hi' h h'.
Proof.
  intros Hs Hlo. induction Hs as [h|h h1 h2 (i & j & Hi & Hj & Hl & E) _ IH]; intros Hhi;
    [apply rtc_refl|].
  destruct (click_swap_any h i j) as (h' & E' & Hlen & _); [lia..|]. rewrite E in E'.
  injection E' as ->. eapply rtc_l; [|apply IH; lia]. exists i, j. split_and!; [lia..|done].
Qed.

Lemma swaps_spec lo hi h h' :
  swaps lo hi h h' ->
  length h' = length h /\ h' ≡ₚ h /\
  (forall k, (k < lo \/ hi <= k)%nat -> h' !! k = h !! k) /\
  (forall k x, (lo <= k < hi)%nat -> h' !! k = Some x ->
     exists k', (lo <= k' < hi)%nat /\ h !! k' = Some x).
Proof.
  induction 1 as [h|h h1 h2 (i & j & Hi & Hj & Hl & E) _ (IH1 & IH2 & IH3 & IH4)].
  - split_and!; try done. intros k x Hk Hx. by exists k.
  - destruct (click_swap_any h i j) as (h' & E' & Hlen & Ei & Ej & Eo & Hp); [lia..|].
    rewrite E in E'. injection E' as <-. split_and!; [congruence|by rewrite IH2| |].
    + intros k Hk. rewrite IH3 by done. apply Eo; lia.
    + intros k x Hk Hx. destruct (IH4 k x Hk Hx) as (k' & Hk' & Hx').
      destruct (decide (k' = i)) as [-> |]; [exists j; split; [done|congruence]|].
      destruct (decide (k' = j)) as [-> |]; [exists i; split; [done|congruence]|].
      exists k'. split; [done|]. by rewrite <- Eo.
Qed.

Lemma swaps_step lo hi h i j :
  (lo <= i < hi)%nat -> (lo <= j < hi)%nat -> (hi <= length h)%nat ->
  exists h', click_swap h i j = Ok h' /\ swaps lo hi h h' /\ h' !! i = h !! j /\
    h' !! j = h !! i /\ (forall k, k <> i -> k <> j -> h' !! k = h !! k).
Proof.
  intros Hi Hj Hl. destruct (click_swap_any h i j) as (h' & E & _ & Ei & Ej & Eo & _); [lia..|].
  exists h'. split_and!; try done. apply rtc_once. by exists i, j.
Qed.

Lemma cq_swapfunc_run lo hi h i j n :
  (lo <= i)%nat -> (i + n <= j)%nat -> (j + n <= hi)%nat -> (hi <= length h)%nat ->
  exists h', cq_swapfunc h i j n = Ok h' /\ swaps lo hi h h' /\
    (forall k, (k < n)%nat -> h' !! (i + k)%nat = h !! (j + k)%nat) /\
    (forall k, (k < n)%nat -> h' !! (j + k)%nat = h !! (i + k)%nat) /\
    (forall k, ~ (i <= k < i + n)%nat -> ~ (j <= k < j + n)%nat -> h' !! k = h !! k).
Proof.
  revert h i j. induction n as [|n IH]; intros h i j Hlo Hij Hj Hl; cbn [cq_swapfunc].
  - exists h. split_and!; [done|apply swaps_refl|lia|lia|done].
  - destruct (swaps_step lo hi h i j) as (h1 & E1 & S1 & Ei & Ej & Eo); [lia..|].
    destruct (swaps_spec _ _ _ _ S1) as (Hl1 & _).
    destruct (IH h1 (S i) (S j)) as (h2 & E2 & S2 & F1 & F2 & F3); [lia..|].
    rewrite E1. simpl. exists h2. split_and!; [done|by eapply swaps_trans|..].
    + intros [|k] Hk; [rewrite !Nat.add_0_r; rewrite F3 by lia; done|].
      rewrite <- !Nat.add_succ_comm, F1 by lia. apply Eo; lia.
    + intros [|k] Hk; [rewrite !Nat.add_0_r; rewrite F3 by lia; done|].
      rewrite <- !Nat.add_succ_comm, F2 by lia. apply Eo; lia.
    + intros k Hi' Hj'. rewrite F3 by lia. apply Eo; lia.
Qed.
End Swaps.

(** ** Total orders *)
Class TotalCompare {A} (compar : A -> A -> Z) := {
  compar_opp a b : Z.sgn (compar b a) = - Z.sgn (compar a b);
  compar_trans a b c : compar a b <= 0 -> compar b c <= 0 -> compar a c <= 0
}.
Lemma compar_flip `{TotalCompare A compar} a b : 0 <= compar a b -> compar b a <= 0.
Proof. intros Hab. pose proof (compar_opp (compar := compar) a b). lia. Qed.
#[export] Instance click_compare_total : TotalCompare click_compare.
Proof.
  unfold click_compare. split; intros *;
    repeat match goal with |- context [?x <? ?y] => destruct (Z.ltb_spec x y) end; simpl; lia.
Qed.

Section Sorting.
Context {A : Type} (compar : A -> A -> Z).
Implicit Types (h : list A).

(** The elements at [i] and [j] are in order. *)
Definition le_at h (i j : nat) : Prop :=
  forall x y, h !! i = Some x -> h !! j = Some y -> compar x y <= 0.
Definition sorted h : Prop := forall i j, (i < j)%nat -> le_at h i j.

Lemma cmp_run h i j :
  (i < length h)%nat -> (j < length h)%nat ->
  exists x y, h !! i = Some x /\ h !! j = Some y /\ cmp compar h i j = Ok (compar x y).
Proof.
  intros [x Hx]%lookup_lt_is_Some [y Hy]%lookup_lt_is_Some. exists x, y.
  unfold cmp. by rewrite Hx, Hy.
Qed.

(** *** Insertion sort *)

(** [[a, e)] is sorted but for the element at [pj], which may belong further left. *)
Definition sorted_but h (a e pj : nat) : Prop :=
  forall i j, (a <= i < j)%nat -> (j < e)%nat -> j <> pj -> le_at h i j.

Lemma insert_down_run h a pj e :
  (a <= pj < e)%nat -> (e <= length h)%nat ->
  exists h', insert_down compar h a pj = Ok h' /\ swaps a e h h' /\
    (TotalCompare compar -> sorted_but h a e pj ->
     forall i j, (a <= i < j)%nat -> (j < e)%nat -> le_at h' i j).
Proof.
  revert h. induction pj as [|pj IH]; intros h Hpj He; cbn [insert_down].
  - exists h. split_and!; [done|apply swaps_refl|]. intros _ Hb i j Hi Hj. apply Hb; lia.
  - destruct (Nat.ltb_spec a (S pj)).
    2: { exists h. split_and!; [done|apply swaps_refl|]. intros _ Hb i j Hi Hj. apply Hb; lia. }
    destruct (cmp_run h pj (S pj)) as (x & y & Hx & Hy & E); [lia..|]. rewrite E. simpl.
    destruct (Z.ltb_spec 0 (compar x y)) as [Hlt|Hle].
    + destruct (swaps_step a e h (S pj) pj) as (h1 & E1 & S1 & Ei & Ej & Eo); [lia..|].
      destruct (swaps_spec _ _ _ _ S1) as (Hl1 & _).
      destruct (IH h1) as (h2 & E2 & S2 & H2); [lia..|]. rewrite E1. simpl.
      exists h2. split_and!; [done|by eapply swaps_trans|]. intros HT Hb. apply H2; [done|].
      intros i j Hi Hj Hne u v. destruct (decide (j = S pj)) as [-> |].
      * rewrite Ei, Hx. intros Hu [= <-]. destruct (decide (i = pj)) as [-> |].
        -- rewrite Ej, Hy in Hu. injection Hu as <-. apply (compar_flip (compar := compar)). lia.
        -- rewrite Eo in Hu by lia. by apply (Hb i pj); [lia..| |].
      * rewrite (Eo j) by lia. destruct (decide (i = S pj)) as [-> |].
        -- rewrite Ei. apply (Hb pj j); lia.
        -- destruct (decide (i = pj)) as [-> |]; [rewrite Ej; apply (Hb (S pj) j); lia|].
           rewrite Eo by lia. apply (Hb i j); lia.
    + exists h. split_and!; [done|apply swaps_refl|]. intros HT Hb i j Hi Hj.
      destruct (decide (j = S pj)) as [-> |]; [|apply Hb; lia]. intros u v Hu Hv.
      rewrite Hy in Hv. injection Hv as <-. destruct (decide (i = pj)) as [-> |].
      * rewrite Hx in Hu. by injection Hu as <-.
      * apply (compar_trans u x y); [|done]. by apply (Hb i pj); [lia..| |].
Qed.

Lemma insertion_sort_run h a pi n :
  (a < pi)%nat -> (pi + n <= length h)%nat ->
  exists h', insertion_sort compar h a pi n = Ok h' /\ swaps a (pi + n) h h' /\
    (TotalCompare compar -> (forall i j, (a <= i < j)%nat -> (j < pi)%nat -> le_at h i j) ->
     forall i j, (a <= i < j)%nat -> (j < pi + n)%nat -> le_at h' i j).
Proof.
  revert h pi. induction n as [|n IH]; intros h pi Ha Hn; cbn [insertion_sort].
  - exists h. split_and!; [done|apply swaps_refl|]. intros _ Hs i j Hi Hj. apply Hs; lia.
  - destruct (insert_down_run h a pi (S pi)) as (h1 & E1 & S1 & H1); [lia..|]. rewrite E1. simpl.
    destruct (swaps_spec _ _ _ _ S1) as (Hl1 & _).
    destruct (IH h1 (S pi)) as (h2 & E2 & S2 & H2); [lia..|].
    exists h2. split_and!; [done| |].
    + rewrite <- Nat.add_succ_comm. eapply swaps_trans; [|exact S2].
      eapply swaps_mono; [exact S1|lia..].
    + intros HT Hs i j Hi Hj. apply H2; [done| |done|lia]. intros i' j' Hi' Hj'.
      apply H1; [done| |lia..]. intros i2 j2 Hi2 Hj2 Hne. apply Hs; lia.
Qed.

(** *** The pivot *)
Lemma cq_med3_run h a b c :
  (a < length h)%nat -> (b < length h)%nat -> (c < length h)%nat ->
  exists m, cq_med3 compar h a b c = Ok m /\ (m = a \/ m = b \/ m = c).
Proof.
  intros Ha Hb Hc. unfold cq_med3.
  destruct (cmp_run h a b) as (? & ? & _ & _ & ->); [done..|].
  destruct (cmp_run h b c) as (? & ? & _ & _ & ->); [done..|].
  destruct (cmp_run h a c) as (? & ? & _ & _ & ->); [done..|]. simpl.
  repeat case_match; eauto.
Qed.

Lemma choose_pivot_run h a n :
  (0 < n)%nat -> (a + n <= length h)%nat ->
  exists pm, choose_pivot compar h a n = Ok pm /\ (a <= pm < a + n)%nat.
Proof.
  intros Hn Hl. unfold choose_pivot.
  pose proof (Nat.div_mod_eq n 2). pose proof (Nat.mod_upper_bound n 2).
  pose proof (Nat.div_mod_eq n 8). pose proof (Nat.mod_upper_bound n 8).
  generalize dependent (n / 2)%nat. generalize dependent (n / 8)%nat. intros o Ho m Hm.
  destruct (Nat.ltb_spec 7 n); [|exists (a + m)%nat; split; [done|lia]].
  destruct (Nat.ltb_spec 40 n).
  - destruct (cq_med3_run h a (a + o) (a + 2 * o)) as (x1 & -> & G1); [lia..|].
    destruct (cq_med3_run h (a + m - o) (a + m) (a + m + o)) as (x2 & -> & G2); [lia..|].
    destruct (cq_med3_run h (a + (n - 1) - 2 * o) (a + (n - 1) - o) (a + (n - 1)))
      as (x3 & -> & G3); [lia..|].
    simpl. destruct (cq_med3_run h x1 x2 x3) as (x & -> & G4); [lia..|]. exists x. split; [done|lia].
  - simpl. destruct (cq_med3_run h a (a + m) (a + (n - 1))) as (x & -> & Hx); [lia..|].
    exists x. split; [done|lia].
Qed.

(** *** The partition *)

(** The elements of [[a, e)] satisfy [P]. *)
Definition region (P : A -> Prop) h (a e : nat) : Prop :=
  forall k x, (a <= k < e)%nat -> h !! k = Some x -> P x.
Lemma region_same P h h' a e :
  region P h a e -> (forall k, (a <= k < e)%nat -> h' !! k = h !! k) -> region P h' a e.
Proof. intros HP Hs k x Hk Hx. apply (HP k); [done|]. by rewrite <- Hs. Qed.

Section Pivot.
Variable pivot : A.
Definition is_less (x : A) : Prop := compar x pivot < 0.
Definition is_equal (x : A) : Prop := compar x pivot = 0.
Definition is_greater (x : A) : Prop := 0 < compar x pivot.

Lemma scan_up_run lo fuel h pa pb pc :
  (lo < pa <= pb)%nat -> (pb <= S pc)%nat -> (pc < length h)%nat -> (S pc - pb <= fuel)%nat ->
  region is_equal h (S lo) pa -> region is_less h pa pb ->
  exists h' pa' pb', scan_up compar fuel h pivot pa pb pc = Ok (h', pa', pb') /\
    swaps (S lo) (S pc) h h' /\ (lo < pa' <= pb')%nat /\ (pb <= pb' <= S pc)%nat /\
    region is_equal h' (S lo) pa' /\ region is_less h' pa' pb' /\
    region is_greater h' pb' (Nat.min (S pb') (S pc)).
Proof.
  revert h pa pb. induction fuel as [|fuel IH]; intros h pa pb Ha Hb Hc Hf HE HL;
    cbn [scan_up]; destruct (Nat.leb_spec pb pc); try lia.
  1, 3: exists h, pa, pb; split_and!; try first [done | lia | apply swaps_refl]; intros k x Hk; lia.
  destruct (lookup_lt_is_Some_2 h pb) as [x Hx]; [lia|]. unfold cmp_pivot. rewrite Hx. simpl.
  destruct (Z.leb_spec (compar x pivot) 0) as [Hle|Hgt].
  2: { exists h, pa, pb. split_and!; try first [done | lia | apply swaps_refl].
       intros k y Hk. assert (k = pb) as -> by lia. rewrite Hx. by intros [= <-]. }
  destruct (Z.eqb_spec (compar x pivot) 0) as [He|Hne]; simpl.
  - destruct (swaps_step (S lo) (S pc) h pa pb) as (h1 & E1 & S1 & Ei & Ej & Eo); [lia..|].
    destruct (swaps_spec _ _ _ _ S1) as (Hl1 & _). rewrite E1. simpl.
    destruct (IH h1 (S pa) (S pb)) as (h2 & pa2 & pb2 & E2 & S2 & H2 & H3 & H4); [lia..| | |].
    + intros k y Hk. destruct (decide (k = pa)) as [-> |].
      * rewrite Ei, Hx. by intros [= <-].
      * rewrite Eo by lia. apply HE; lia.
    + intros k y Hk. destruct (decide (k = pb)) as [-> |].
      * rewrite Ej. apply HL. lia.
      * rewrite Eo by lia. apply HL; lia.
    + exists h2, pa2, pb2. split_and!; try first [tauto | lia]; by eapply swaps_trans.
  - destruct (IH h pa (S pb)) as (h2 & pa2 & pb2 & E2 & S2 & H2 & H3 & H4); [lia..|done| |].
    + intros k y Hk Hy. destruct (decide (k = pb)) as [-> |]; [|apply (HL k); [lia|done]].
      rewrite Hx in Hy. injection Hy as <-. unfold is_less. lia.
    + exists h2, pa2, pb2. split_and!; first [tauto | lia].
Qed.

Lemma scan_down_run hi fuel h pb pc pd :
  (0 < pb <= S pc)%nat -> (pc <= pd < hi)%nat -> (hi <= length h)%nat ->
  (S pc - pb <= fuel)%nat ->
  region is_greater h (S pc) (S pd) -> region is_equal h (S pd) hi ->
  exists h' pc' pd', scan_down compar fuel h pivot pb pc pd = Ok (h', pc', pd') /\
    swaps pb hi h h' /\ (pb <= S pc' /\ pc' <= pc)%nat /\ (pc' <= pd' < hi)%nat /\
    region is_greater h' (S pc') (S pd') /\ region is_equal h' (S pd') hi /\
    (forall k, (k <= pc')%nat -> h' !! k = h !! k) /\
    region is_less h' (Nat.max pb pc') (S pc').
Proof.
  revert h pc pd. induction fuel as [|fuel IH]; intros h pc pd Hb Hd Hl Hf HG HE;
    cbn [scan_down]; destruct (Nat.leb_spec pb pc); try lia.
  1, 3: exists h, pc, pd; split_and!; try first [done | lia | apply swaps_refl]; intros k x Hk; lia.
  destruct (lookup_lt_is_Some_2 h pc) as [x Hx]; [lia|]. unfold cmp_pivot. rewrite Hx. simpl.
  destruct (Z.leb_spec 0 (compar x pivot)) as [Hle|Hgt].
  2: { exists h, pc, pd. split_and!; try first [done | lia | apply swaps_refl].
       intros k y Hk. assert (k = pc) as -> by lia. rewrite Hx. by intros [= <-]. }
  destruct (Z.eqb_spec (compar x pivot) 0) as [He|Hne]; simpl.
  - destruct (swaps_step pb hi h pc pd) as (h1 & E1 & S1 & Ei & Ej & Eo); [lia..|].
    destruct (swaps_spec _ _ _ _ S1) as (Hl1 & _). rewrite E1. simpl.
    destruct (IH h1 (pc - 1)%nat (pd - 1)%nat)
      as (h2 & pc2 & pd2 & E2 & S2 & H2 & H3 & H4 & H5 & H6 & H7); [lia..| | |].
    + intros k y Hk. destruct (decide (k = pc)) as [-> |].
      * rewrite Ei. apply HG. lia.
      * rewrite Eo by lia. apply HG; lia.
    + intros k y Hk. destruct (decide (k = pd)) as [-> |].
      * rewrite Ej, Hx. by intros [= <-].
      * rewrite Eo by lia. apply HE; lia.
    + exists h2, pc2, pd2. split_and!; try first [tauto | lia]; [by eapply swaps_trans|].
      intros k Hk. rewrite H6 by done. apply Eo; lia.
  - destruct (IH h (pc - 1)%nat pd)
      as (h2 & pc2 & pd2 & E2 & S2 & H2 & H3 & H4 & H5 & H6 & H7); [lia..| |done|].
    + intros k y Hk Hy. destruct (decide (k = pc)) as [-> |]; [|apply (HG k); [lia|done]].
      rewrite Hx in Hy. injection Hy as <-. unfold is_greater. lia.
    + exists h2, pc2, pd2. split_and!; first [tauto | lia].
Qed.

Lemma partition_run lo hi fuel h pa pb pc pd :
  (lo < pa <= pb)%nat -> (pb <= S pc)%nat -> (pc <= pd < hi)%nat -> (hi <= length h)%nat ->
  (S pc - pb <= fuel)%nat ->
  region is_equal h (S lo) pa -> region is_less h pa pb ->
  region is_greater h (S pc) (S pd) -> region is_equal h (S pd) hi ->
  exists h' pa' pb' pc' pd',
    partition compar fuel h pivot pa pb pc pd = Ok (h', pa', pb', pc', pd') /\
    swaps (S lo) hi h h' /\ (lo < pa' <= pb')%nat /\ pb' = S pc' /\ (pc' <= pd' < hi)%nat /\
    region is_equal h' (S lo) pa' /\ region is_less h' pa' pb' /\
    region is_greater h' (S pc') (S pd') /\ region is_equal h' (S pd') hi.
Proof.
  revert h pa pb pc pd.
  induction fuel as [|fuel IH]; intros h pa pb pc pd Ha Hb Hd Hl Hf HE HL HG HE2.
  all: cbn [partition].
  all: destruct (scan_up_run lo (S pc - pb) h pa pb pc)
      as (h1 & pa1 & pb1 & E1 & S1 & B1 & B2 & R1 & R2 & R3); [lia..|done|done|].
  all: destruct (swaps_spec _ _ _ _ S1) as (Hl1 & _ & Eo1 & _).
  all: destruct (scan_down_run hi (S pc - pb1) h1 pb1 pc pd)
      as (h2 & pc2 & pd2 & E2 & S2 & B3 & B4 & R4 & R5 & R6 & R7);
    [lia..|eapply region_same; [exact HG|intros k Hk; apply Eo1; lia]
          |eapply region_same; [exact HE2|intros k Hk; apply Eo1; lia]|].
  all: assert (swaps (S lo) hi h h2) as S12
    by (eapply swaps_trans; [eapply swaps_mono; [exact S1|lia..]|eapply swaps_mono; [exact S2|lia..]]).
  all: destruct (swaps_spec _ _ _ _ S2) as (Hl2 & _).
  all: assert (region is_equal h2 (S lo) pa1) as R1'
    by (eapply region_same; [exact R1|intros k Hk; apply R6; lia]).
  all: assert (region is_less h2 pa1 pb1) as R2'
    by (eapply region_same; [exact R2|intros k Hk; apply R6; lia]).
  all: rewrite E1; cbn -[scan_down Nat.sub Nat.ltb]; rewrite E2; cbn -[Nat.ltb].
  all: destruct (Nat.ltb_spec pc2 pb1); [|try lia].
  1, 2: exists h2, pa1, pb1, pc2, pd2; split_and!; first [done | lia].
  destruct (lookup_lt_is_Some_2 h2 pb1) as [x Hx]; [lia|].
  destruct (lookup_lt_is_Some_2 h2 pc2) as [y Hy]; [lia|].
  assert (is_greater x) as Gx by (apply (R3 pb1); [lia|by rewrite <- R6 by lia]).
  assert (is_less y) as Ly by (apply (R7 pc2); [lia|done]).
  assert (pb1 <> pc2) as Hne.
  { intros ->. rewrite Hx in Hy. injection Hy as <-. unfold is_greater, is_less in *. lia. }
  destruct (swaps_step (S lo) hi h2 pb1 pc2) as (h3 & E3 & S3 & Ei & Ej & Eo); [lia..|].
  destruct (swaps_spec _ _ _ _ S3) as (Hl3 & _).
  destruct (IH h3 pa1 (S pb1) (pc2 - 1)%nat pd2)
    as (h4 & pa4 & pb4 & pc4 & pd4 & E4 & S4 & H4); [lia..| | | | |].
  - eapply region_same; [exact R1'|intros k Hk; apply Eo; lia].
  - intros k z Hk. destruct (decide (k = pb1)) as [-> |]; [rewrite Ei, Hy; by intros [= <-]|].
    rewrite Eo by lia. apply R2'. lia.
  - intros k z Hk. destruct (decide (k = pc2)) as [-> |]; [rewrite Ej, Hx; by intros [= <-]|].
    rewrite Eo by lia. apply R4. lia.
  - eapply region_same; [exact R5|intros k Hk; apply Eo; lia].
  - rewrite E3. simpl. exists h4, pa4, pb4, pc4, pd4. split; [done|]. split; [|done].
    eapply swaps_trans; [exact S12|]. by eapply swaps_trans.
Qed.
End Pivot.

(** Moving one end of [[a, e)] to the other: the two parts change places. *)
Lemma swap_ends_run P Q h a m e hi :
  (a <= m <= e)%nat -> (e <= hi <= length h)%nat -> region P h a m -> region Q h m e ->
  let s := Nat.min (m - a) (e - m) in
  exists h', cq_swapfunc h a (e - s) s = Ok h' /\ swaps a e h h' /\
    region Q h' a (a + (e - m)) /\ region P h' (a + (e - m)) e.
Proof.
  intros Ha He HP HQ s. assert (s = Nat.min (m - a) (e - m)) as Es by done. clearbody s.
  destruct (cq_swapfunc_run a e h a (e - s) s) as (h' & E & Hs & F1 & F2 & F3); [lia..|].
  exists h'. split; [done|]. split; [done|]. split; intros k x Hk Hx.
  - destruct (Nat.lt_ge_cases k (a + s)).
    + replace k with (a + (k - a))%nat in Hx by lia. rewrite F1 in Hx by lia.
      apply (HQ (e - s + (k - a))%nat); [lia|done].
    + rewrite F3 in Hx by lia. apply (HQ k); [lia|done].
  - destruct (Nat.lt_ge_cases k (e - s)).
    + rewrite F3 in Hx by lia. apply (HP k); [lia|done].
    + replace k with (e - s + (k - (e - s)))%nat in Hx by lia. rewrite F2 in Hx by lia.
      apply (HP (a + (k - (e - s)))%nat); [lia|done].
Qed.

(** *** One round of the outer loop *)
Definition is_middle (pivot x : A) : Prop := x = pivot \/ is_equal pivot x.

(** [[lo, m1)] is below the pivot, [[m1, m2)] is the pivot's and [[m2, hi)] is above it. *)
Record parted (pivot : A) h (lo m1 m2 hi : nat) : Prop := {
  parted_less : region (is_less pivot) h lo m1;
  parted_middle : region (is_middle pivot) h m1 m2;
  parted_greater : region (is_greater pivot) h m2 hi
}.

(** The elements equal to the pivot move from both ends to the middle. *)
Lemma gather_middle pivot h lo hi pa pc pd :
  (lo < pa <= S pc)%nat -> (pc <= pd < hi)%nat -> (hi <= length h)%nat ->
  h !! lo = Some pivot ->
  region (is_equal pivot) h (S lo) pa -> region (is_less pivot) h pa (S pc) ->
  region (is_greater pivot) h (S pc) (S pd) -> region (is_equal pivot) h (S pd) hi ->
  exists h1 h2,
    (let s := Nat.min (pa - lo) (S pc - pa) in cq_swapfunc h lo (S pc - s) s) = Ok h1 /\
    (let s := Nat.min (pd - pc) (hi - pd - 1) in cq_swapfunc h1 (S pc) (hi - s) s) = Ok h2 /\
    swaps lo hi h h2 /\ parted pivot h2 lo (lo + (S pc - pa)) (hi - (pd - pc)) hi.
Proof.
  intros Ha Hd Hl Hp RE RL RG RE2.
  assert (region (is_middle pivot) h lo pa) as RM.
  { intros k x Hk Hx. destruct (decide (k = lo)) as [-> |]; [left; congruence|].
    right. apply (RE k); [lia|done]. }
  destruct (swap_ends_run _ _ h lo pa (S pc) hi ltac:(lia) ltac:(lia) RM RL)
    as (h1 & E1 & S1 & L1 & M1).
  destruct (swaps_spec _ _ _ _ S1) as (Hl1 & _ & Eo1 & _).
  destruct (swap_ends_run (is_greater pivot) (is_equal pivot) h1 (S pc) (S pd) hi hi)
    as (h2 & E2 & S2 & M2 & G2); [lia..| | |].
  { eapply region_same; [exact RG|intros k Hk; apply Eo1; lia]. }
  { eapply region_same; [exact RE2|intros k Hk; apply Eo1; lia]. }
  destruct (swaps_spec _ _ _ _ S2) as (Hl2 & _ & Eo2 & _).
  exists h1, h2. split; [exact E1|]. split.
  { cbv zeta in E2 |- *. replace (pd - pc)%nat with (S pd - S pc)%nat by lia.
    by replace (hi - pd - 1)%nat with (hi - S pd)%nat by lia. }
  split.
  { eapply swaps_trans; (eapply swaps_mono; [eassumption|lia..]). }
  replace (hi - (pd - pc))%nat with (S pc + (hi - S pd))%nat by lia. split; [| |done].
  - eapply region_same; [exact L1|intros k Hk; apply Eo2; lia].
  - intros k x Hk Hx. destruct (Nat.lt_ge_cases k (S pc)).
    + rewrite Eo2 in Hx by lia. apply (M1 k); [lia|done].
    + right. apply (M2 k); [lia|done].
Qed.

(** [i] and [j] lie in one range of [stack]. *)
Definition common (stack : list (nat * nat)) (i j : nat) : Prop :=
  Exists (fun r => (r.1 <= i /\ j < r.2)%nat) stack.

Lemma parted_ordered pivot h lo m1 m2 hi i j :
  TotalCompare compar -> parted pivot h lo m1 m2 hi -> (m1 <= m2)%nat ->
  (lo <= i < j)%nat -> (j < hi)%nat ->
  le_at h i j \/ (j < m1)%nat \/ (m2 <= i)%nat.
Proof.
  intros HT [HL HM HG] Hm Hi Hj.
  destruct (Nat.lt_ge_cases j m1); [tauto|]. destruct (Nat.lt_ge_cases i m2); [|tauto].
  left. intros x y Hx Hy. apply (compar_trans x pivot y).
  - destruct (Nat.lt_ge_cases i m1).
    + specialize (HL i x ltac:(lia) Hx). unfold is_less in HL. lia.
    + destruct (HM i x ltac:(lia) Hx) as [-> |He]; [|unfold is_equal in He; lia].
      pose proof (compar_opp (compar := compar) pivot pivot). lia.
  - apply (compar_flip (compar := compar)). destruct (Nat.lt_ge_cases j m2).
    + destruct (HM j y ltac:(lia) Hy) as [-> |He]; [|unfold is_equal in He; lia].
      pose proof (compar_opp (compar := compar) pivot pivot). lia.
    + specialize (HG j y ltac:(lia) Hy). unfold is_greater in HG. lia.
Qed.

Definition range_size (r : nat * nat) : nat := r.2 - r.1.
Definition within (lo hi : nat) (r : nat * nat) : Prop := (lo <= r.1 <= r.2)%nat /\ (r.2 <= hi)%nat.
Definition apart (r s : nat * nat) : Prop := (r.2 <= s.1)%nat \/ (s.2 <= r.1)%nat.

(** The ranges a round pushes, the top of the stack first. *)
Inductive splits (lo hi : nat) : list (nat * nat) -> Prop :=
  | splits_none : splits lo hi []
  | splits_one r : within lo hi r -> (range_size r < hi - lo)%nat -> splits lo hi [r]
  | splits_two r s : within lo hi r -> within lo hi s -> apart r s ->
      (range_size r <= range_size s)%nat -> (range_size r + range_size s < hi - lo)%nat ->
      splits lo hi [r; s].

Lemma push_parts lo hi m1 m2 (stack : list (nat * nat)) :
  (lo <= m1 < m2)%nat -> (m2 <= hi)%nat ->
  let '(big, small) :=
    if (m1 - lo <? hi - m2)%nat then ((m2, hi), (lo, m1)) else ((lo, m1), (m2, hi)) in
  exists todo, (if (small.1 =? small.2)%nat then big :: stack else small :: big :: stack)
    = todo ++ stack /\ splits lo hi todo /\
    (forall i j, (lo <= i < j)%nat -> (j < hi)%nat -> (j < m1 \/ m2 <= i)%nat -> common todo i j).
Proof.
  intros H1 H2. destruct (Nat.ltb_spec (m1 - lo) (hi - m2)); cbn [fst snd];
    [destruct (Nat.eqb_spec lo m1)|destruct (Nat.eqb_spec m2 hi)].
  1, 3: eexists [_]; split; [done|]; split;
    [constructor; unfold within, range_size; cbn [fst snd]; lia|].
  3, 4: eexists [_; _]; split; [done|]; split;
    [constructor; unfold within, apart, range_size; cbn [fst snd]; lia|].
  all: intros i j Hi Hj Hc; unfold common; rewrite ?Exists_cons; cbn [fst snd]; lia.
Qed.

Lemma qsort_range_run h lo hi stack :
  (lo <= hi <= length h)%nat -> (7 <= hi - lo -> length stack <= 62)%nat ->
  exists h' todo, qsort_range compar h lo hi stack = Ok (h', todo ++ stack) /\
    swaps lo hi h h' /\ splits lo hi todo /\
    (TotalCompare compar -> forall i j, (lo <= i < j)%nat -> (j < hi)%nat ->
     le_at h' i j \/ common todo i j).
Proof.
  intros Hlo Hst. unfold qsort_range. destruct (Nat.ltb_spec (hi - lo) 7) as [Hs|Hs].
  { destruct (decide (lo = hi)) as [<-|Hne].
    - replace (lo - lo - 1)%nat with 0%nat by lia. simpl. exists h, [].
      split_and!; [done|apply swaps_refl|constructor|lia].
    - destruct (insertion_sort_run h lo (S lo) (hi - lo - 1)) as (h1 & E1 & S1 & H1); [lia..|].
      rewrite E1. simpl. exists h1, []. split_and!; [done|eapply swaps_mono; [exact S1|lia..]
        |constructor|]. intros HT i j Hi Hj. left. apply H1; try done; lia. }
  destruct (choose_pivot_run h lo (hi - lo)) as (pm & E1 & Hpm); [lia..|].
  destruct (lookup_lt_is_Some_2 h pm) as [pivot Hp]; [lia|].
  destruct (swaps_step lo hi h lo pm) as (h1 & E2 & S1 & Elo & _); [lia..|].
  destruct (swaps_spec _ _ _ _ S1) as (Hl1 & _).
  destruct (partition_run pivot lo hi (hi - lo) h1 (S lo) (S lo) (lo + (hi - lo - 1))
    (lo + (hi - lo - 1))) as (h2 & pa & pb & pc & pd & E3 & S2 & Ha & -> & Hd & RE & RL & RG & RE2);
    [lia..|intros k x Hk; lia|intros k x Hk; lia|intros k x Hk; lia|intros k x Hk; lia|].
  destruct (swaps_spec _ _ _ _ S2) as (Hl2 & _ & Eo2 & _).
  destruct (gather_middle pivot h2 lo hi pa pc pd) as (h3 & h4 & E4 & E5 & S3 & HP); try done;
    [lia..|by rewrite Eo2, Elo by lia|].
  assert (swaps lo hi h h4) as S4.
  { eapply swaps_trans; [exact S1|]. eapply swaps_trans; [|exact S3].
    eapply swaps_mono; [exact S2|lia..]. }
  rewrite E1. cbn -[partition Nat.sub Nat.ltb Nat.eqb Nat.mul CQ_STACKSIZ]. rewrite Hp.
  cbn -[partition Nat.sub Nat.ltb Nat.eqb Nat.mul CQ_STACKSIZ]. rewrite E2.
  cbn -[partition Nat.sub Nat.ltb Nat.eqb Nat.mul CQ_STACKSIZ]. rewrite E3. cbv zeta in E4, E5.
  cbn -[cq_swapfunc Nat.sub Nat.ltb Nat.eqb Nat.mul Nat.min CQ_STACKSIZ]. rewrite E4.
  cbn -[cq_swapfunc Nat.sub Nat.ltb Nat.eqb Nat.mul Nat.min CQ_STACKSIZ]. rewrite E5.
  cbn -[Nat.sub Nat.ltb Nat.eqb Nat.mul CQ_STACKSIZ].
  set (m1 := (lo + (S pc - pa))%nat) in *. set (m2 := (hi - (pd - pc))%nat) in *.
  destruct ((S pc =? pa)%nat && (pd =? pc)%nat) eqn:Eb.
  { apply andb_true_iff in Eb as [Epa%Nat.eqb_eq Epd%Nat.eqb_eq].
    exists h4, []. split_and!; [done|done|constructor|]. intros HT i j Hi Hj.
    destruct (parted_ordered pivot h4 lo m1 m2 hi i j); try done; try lia. by left. }
  destruct (Nat.ltb_spec (2 * length stack + 4) CQ_STACKSIZ); [|unfold CQ_STACKSIZ in *; lia].
  pose proof (push_parts lo hi m1 m2 stack ltac:(lia) ltac:(lia)) as Hpush.
  destruct (m1 - lo <? hi - m2)%nat; cbv beta iota in Hpush; destruct Hpush as (todo & E & Hsp & Hco);
    cbn -[Nat.eqb] in E |- *; rewrite E; exists h4, todo; split_and!; try done.
  all: intros HT i j Hi Hj; destruct (parted_ordered pivot h4 lo m1 m2 hi i j);
    try done; try lia; [by left|right; by apply Hco].
Qed.

(** *** The stack *)

(** The ranges of the stack lie in the array, apart from each other, and the one with [k]
    ranges below it has at most [n / 2^k] elements. *)
Fixpoint stack_ok (n : nat) (stack : list (nat * nat)) : Prop :=
  match stack with
  | [] => True
  | r :: stack => within 0 n r /\ Forall (apart r) stack /\
      Z.of_nat (range_size r) * 2 ^ Z.of_nat (length stack) <= Z.of_nat n /\ stack_ok n stack
  end.
Definition work (stack : list (nat * nat)) : nat :=
  foldr (fun r w => 2 * range_size r + 1 + w)%nat 0%nat stack.

Lemma apart_within lo hi r s : within lo hi r -> apart (lo, hi) s -> apart r s.
Proof. unfold within, apart. cbn [fst snd]. lia. Qed.

Lemma splits_stack_ok n lo hi todo stack :
  stack_ok n ((lo, hi) :: stack) -> splits lo hi todo -> stack_ok n (todo ++ stack).
Proof.
  cbn [stack_ok]. intros (Hw & Ha & Hsz & Hst) Hsp.
  assert (forall r, within lo hi r -> within 0 n r /\ Forall (apart r) stack) as Hr.
  { intros r Hr. split; [unfold within in *; cbn [fst snd] in *; lia|].
    eapply list.Forall_impl; [exact Ha|]. intros s. by apply apart_within. }
  unfold range_size in Hsz. cbn [fst snd] in Hsz.
  destruct Hsp as [|r Wr Sr|r s Wr Ws Hrs Hle Hsum]; cbn [app stack_ok length]; [done|..].
  - destruct (Hr r Wr). split_and!; try done. nia.
  - destruct (Hr r Wr), (Hr s Ws). split_and!; try done; [by constructor| |nia].
    rewrite Nat2Z.inj_succ, Z.pow_succ_r by lia. nia.
Qed.

Lemma splits_work lo hi todo stack :
  splits lo hi todo -> (work (todo ++ stack) < work ((lo, hi) :: stack))%nat.
Proof.
  unfold work. cbn [foldr]. unfold range_size at 2. cbn [fst snd].
  destruct 1; cbn [app foldr]; lia.
Qed.

Lemma depth_bound n r stack :
  stack_ok n (r :: stack) -> Z.of_nat n < 2 ^ 64 -> (7 <= range_size r)%nat ->
  (length stack <= 62)%nat.
Proof.
  intros (_ & _ & Hsz & _) Hn H7. destruct (decide (length stack <= 62)%nat); [done|].
  assert (2 ^ 63 <= 2 ^ Z.of_nat (length stack)) by (apply Z.pow_le_mono_r; lia). nia.
Qed.

(** Sorting a range apart from the others keeps what was ordered across ranges ordered. *)
Definition ordered_but (stack : list (nat * nat)) h : Prop :=
  forall i j, (i < j)%nat -> (j < length h)%nat -> le_at h i j \/ common stack i j.

Lemma common_app_r todo stack i j : common stack i j -> common (todo ++ stack) i j.
Proof. intros Hc. apply Exists_app. by right. Qed.
Lemma common_apart stack lo hi i j :
  common stack i j -> Forall (apart (lo, hi)) stack -> (i < j)%nat ->
  ~ (lo <= i < hi)%nat /\ ~ (lo <= j < hi)%nat.
Proof.
  unfold common, apart. intros (r & Hr & Hi & Hj)%list.Exists_exists Ha Hij.
  rewrite list.Forall_forall in Ha. specialize (Ha r Hr). cbn [fst snd] in Ha. lia.
Qed.

Lemma ordered_step h h' lo hi todo stack :
  (hi <= length h)%nat -> swaps lo hi h h' -> Forall (apart (lo, hi)) stack ->
  ordered_but ((lo, hi) :: stack) h ->
  (forall i j, (lo <= i < j)%nat -> (j < hi)%nat -> le_at h' i j \/ common todo i j) ->
  ordered_but (todo ++ stack) h'.
Proof.
  intros Hl Hs Ha Ho Hr i j Hij Hj. destruct (swaps_spec _ _ _ _ Hs) as (El & _ & Eo & Ein).
  assert (forall i' j', (i' < j')%nat -> (j' < length h)%nat ->
    le_at h i' j' \/ (lo <= i' /\ j' < hi)%nat \/ common stack i' j') as Ho'.
  { intros i' j' H1 H2. destruct (Ho i' j' H1 H2) as [|Hc]; [by left|right].
    by apply Exists_cons in Hc. }
  destruct (decide (lo <= i < hi)%nat) as [Hi|Hi], (decide (lo <= j < hi)%nat) as [Hj'|Hj'].
  - destruct (Hr i j) as [|Hc]; [lia..|by left|right]. apply Exists_app. by left.
  - left. intros x y Hx Hy. destruct (Ein i x Hi Hx) as (i' & Hi' & Hx').
    rewrite Eo in Hy by lia. destruct (Ho' i' j) as [H|[H|H]]; [lia..|by apply H|lia|].
    destruct (common_apart _ _ _ _ _ H Ha); lia.
  - left. intros x y Hx Hy. destruct (Ein j y Hj' Hy) as (j' & Hj2 & Hy').
    rewrite Eo in Hx by lia. destruct (Ho' i j') as [H|[H|H]]; [lia..|by apply H|lia|].
    destruct (common_apart _ _ _ _ _ H Ha); lia.
  - destruct (Ho' i j) as [H|[H|H]]; [lia..| |lia|right; by apply common_app_r].
    left. intros x y. rewrite !Eo by lia. apply H.
Qed.

Lemma qsort_loop_run n fuel h stack :
  length h = n -> Z.of_nat n < 2 ^ 64 -> stack_ok n stack -> (work stack <= fuel)%nat ->
  exists h', qsort_loop compar fuel h stack = Ok h' /\ h' ≡ₚ h /\
    (TotalCompare compar -> ordered_but stack h -> sorted h').
Proof.
  revert h stack. induction fuel as [|fuel IH]; intros h [|[lo hi] stack] Hl Hn Hst Hw.
  1, 3: exists h; split_and!; try done; intros _ Ho i j Hij x y Hx Hy;
    destruct (Ho i j Hij) as [H|H]; [by eapply lookup_lt_Some|by apply H|by inversion H].
  { unfold work in Hw. simpl in Hw. lia. }
  pose proof Hst as (Hwi & Ha & _ & _). unfold within in Hwi. cbn [fst snd] in Hwi.
  destruct (qsort_range_run h lo hi stack) as (h1 & todo & E & Hs & Hsp & Ht);
    [lia|by apply (depth_bound n (lo, hi))|].
  destruct (swaps_spec _ _ _ _ Hs) as (Hl1 & Hp & _).
  pose proof (splits_work lo hi todo stack Hsp).
  destruct (IH h1 (todo ++ stack)) as (h2 & E2 & Hp2 & Ho2);
    [congruence|done|by eapply splits_stack_ok|lia|].
  exists h2. cbn [qsort_loop]. rewrite E. split_and!; [done|by rewrite Hp2|].
  intros HT Ho. apply Ho2; [done|]. apply (ordered_step h h1 lo hi); try done; [lia|].
  by apply Ht.
Qed.

Lemma click_qsort_run h :
  Z.of_nat (length h) < 2 ^ 64 ->
  exists h', click_qsort compar h = Ok h' /\ h' ≡ₚ h /\ (TotalCompare compar -> sorted h').
Proof.
  intros Hn. destruct (qsort_loop_run (length h) (2 * length h + 1) h [(0%nat, length h)])
    as (h' & E & Hp & Hs); try done.
  - cbn [stack_ok length]. split_and!; [unfold within; simpl; lia|constructor| |done].
    unfold range_size. simpl. lia.
  - unfold work, range_size. simpl. lia.
  - exists h'. split_and!; [done|done|]. intros HT. apply Hs; [done|]. intros i j Hij Hj. right.
    constructor. simpl. lia.
Qed.
End Sorting.

(** C26: the sort ends, with no access outside the array and without the assertion on its
    stack of 130 words failing, and only rearranges the array, whatever the comparison
    function answers (even if it is no order at all). *)
Theorem click_qsort_ends {A} (compar : A -> A -> Z) (h : list A)
    (Hn : Z.of_nat (length h) < 2 ^ 64) :
  exists h', click_qsort compar h = Ok h' /\ h' ≡ₚ h.
Proof. destruct (click_qsort_run compar h Hn) as (h' & E & Hp & _). by exists h'. Qed.

(** The comparator of [return 1;], on 60 elements, so that a range is split. *)
Example click_qsort_ends_witness :
  exists h', click_qsort (fun _ _ => 1) (seqZ 0 60) = Ok h' /\ h' ≡ₚ seqZ 0 60.
Proof. apply (click_qsort_ends (fun _ _ => 1) (seqZ 0 60)). vm_compute. done. Defined.

(** C27: with a comparison function that is a total order (up to ties) the result is the
    array in order. *)
Theorem click_qsort_sorts {A} (compar : A -> A -> Z) (HT : TotalCompare compar) (h : list A)
    (Hn : Z.of_nat (length h) < 2 ^ 64) :
  exists h', click_qsort compar h = Ok h' /\ h' ≡ₚ h /\
    forall i j x y, (i < j)%nat -> h' !! i = Some x -> h' !! j = Some y -> compar x y <= 0.
Proof.
  destruct (click_qsort_run compar h Hn) as (h' & E & Hp & Hs). exists h'.
  split_and!; [done|done|]. intros i j x y Hij. by apply (Hs HT).
Qed.
Example click_qsort_sorts_witness :
  exists h', click_qsort click_compare [5; 3; 9; 1; 5; 8; 5; 2; 7; 0] = Ok h' /\
    h' ≡ₚ [5; 3; 9; 1; 5; 8; 5; 2; 7; 0] /\
    forall i j x y, (i < j)%nat -> h' !! i = Some x -> h' !! j = Some y -> click_compare x y <= 0.
Proof. apply click_qsort_sorts; [apply click_compare_total|vm_compute; done]. Defined.
