(* ===== verification/Classify.v ===== *)
(** * Packet classification programs ([elements/standard/classification.cc])

    A classification program is a decision tree over 32-bit words of the packet, stored as a
    list of instructions that jump forward.  This file has the instructions, the building of
    programs from patterns, the optimisations that work on a few instructions at a time, and
    the matching of a packet; [ClassifyDom] has the dominator optimisation.

    A packet is its length and its memory: a byte for every distance from [packet_data], those
    outside the packet included.  A word is read as a little-endian host reads it. *)
From Stdlib Require Import ZArith Lia.
From stdpp Require Import base list numbers option.
From S2P Require Import Prelude.
#[local] Open Scope Z_scope.

(** ** Instructions *)
Definition j_never : Z := -2147483647.
Definition j_failure : Z := j_never + 1.
Definition j_success : Z := j_never + 2.
Inductive Combiner : Type := c_and | c_or | c_ternary.

(** What an instruction tests ([offset], [short_output], [mask], [value]) and its jumps [j]. *)
Record Test : Type := MkTest { i_offset : Z; i_short : bool; i_mask : Z; i_value : Z }.
Record Insn : Type := MkInsn { i_test : Test; i_no : Z; i_yes : Z }.
#[export] Instance Test_eq_dec : EqDecision Test.
Proof. solve_decision. Defined.
#[export] Instance Insn_eq_dec : EqDecision Insn.
Proof. solve_decision. Defined.
#[export] Instance Insn_inhabited : Inhabited Insn := populate (MkInsn (MkTest 0 false 0 0) j_never j_never).

Definition in_j (e : Insn) (k : bool) : Z := if k then i_yes e else i_no e.
Definition set_j (k : bool) (j : Z) (e : Insn) : Insn :=
  if k then MkInsn (i_test e) (i_no e) j else MkInsn (i_test e) j (i_yes e).
(** [Insn(offset, value, mask)] *)
Definition Insn_new (offset value mask : Z) : Insn :=
  MkInsn (MkTest (u16 offset) false mask (Z.land value mask)) j_failure j_success.
(** [mask.c[k]] *)
Definition mask_c (t : Test) (k : Z) : Z := Z.land (Z.shiftr (i_mask t) (8 * k)) 255.
Definition required_length (t : Test) : Z :=
  if i_mask t =? 0 then 0
  else if negb (mask_c t 3 =? 0) then i_offset t + 4
  else if negb (mask_c t 2 =? 0) then i_offset t + 3
  else if negb (mask_c t 1 =? 0) then i_offset t + 2
  else i_offset t + 1.

Definition hard_implies_short_ok (direction : bool) (t x : Test) (next_direction : bool) (known_length : Z) : bool :=
  if negb (Bool.eqb (i_short t) direction) then true
  else
    let r := required_length t in
    (r <=? known_length) || ((r <=? required_length x) && Bool.eqb next_direction (i_short x)).
Definition implies_short_ok (direction : bool) (t x : Test) (next_direction : bool) (known_length : Z) : bool :=
  if negb (Bool.eqb (i_short t) direction) || (i_offset t + 4 <=? known_length) then true
  else hard_implies_short_ok direction t x next_direction known_length.
(** [mask & (mask - 1)] is zero: at most one bit. *)
Definition one_bit (mask : Z) : bool := Z.land mask (u32 (mask - 1)) =? 0.
Definition implies (t x : Test) (known_length : Z) : bool :=
  if i_mask x =? 0 then true
  else if negb (i_offset x =? i_offset t) || negb (implies_short_ok true t x true known_length) then false
  else
    let both_mask := Z.land (i_mask t) (i_mask x) in
    (both_mask =? i_mask x) && (Z.land (i_value t) both_mask =? i_value x).
Definition not_implies (t x : Test) (known_length : Z) : bool :=
  if i_mask x =? 0 then true
  else if negb (i_offset x =? i_offset t) || negb (implies_short_ok false t x true known_length) then false
  else one_bit (i_mask t) && (i_mask t =? i_mask x) && negb (i_value t =? i_value x).
Definition implies_not (t x : Test) (known_length : Z) : bool :=
  if (i_mask x =? 0) || negb (i_offset x =? i_offset t) || negb (implies_short_ok true t x false known_length)
  then false
  else
    let both_mask := Z.land (i_mask t) (i_mask x) in
    (both_mask =? i_mask x) && negb (Z.land (i_value t) both_mask =? i_value x).
Definition not_implies_not (t x : Test) (known_length : Z) : bool :=
  if i_mask t =? 0 then true
  else if negb (i_offset x =? i_offset t) || negb (implies_short_ok false t x false known_length) then false
  else
    let both_mask := Z.land (i_mask t) (i_mask x) in
    (both_mask =? i_mask t) && (i_value t =? Z.land (i_value x) both_mask).
Definition compatible (t x : Test) (consider_short : bool) : bool :=
  if (i_mask t =? 0) || (i_mask x =? 0) then true
  else if negb (i_offset x =? i_offset t)
          || (consider_short && negb (Bool.eqb (i_short x) (i_short t)) && (required_length t <? required_length x))
  then false
  else
    let both_mask := Z.land (i_mask t) (i_mask x) in
    Z.land (i_value t) both_mask =? Z.land (i_value x) both_mask.
Definition generalizable_or_pair (e x : Insn) : bool :=
  let t := i_test e in
  let tx := i_test x in
  let value_diff := Z.lxor (i_value t) (i_value tx) in
  if negb (i_offset t =? 0) && (i_offset tx =? i_offset t) && negb (i_mask t =? 0) && (i_mask tx =? i_mask t)
     && (i_short t || negb (i_short tx)) && (i_yes e =? i_yes x) && one_bit value_diff
  then
    let test := i_test (Insn_new (i_offset t) (Z.ldiff (i_value t) value_diff) (Z.ldiff (i_mask t) value_diff)) in
    required_length test =? required_length t
  else false.
Definition flippable (t : Test) : bool := negb (i_mask t =? 0) && one_bit (i_mask t).
Definition flip (e : Insn) : Insn :=
  let t := i_test e in
  MkInsn (MkTest (i_offset t) (negb (i_short t)) (i_mask t) (Z.lxor (i_value t) (i_mask t))) (i_yes e) (i_no e).
(** [offset_by(offset)] *)
Definition offset_by (offset : Z) (e : Insn) : Insn :=
  let f j := if 0 <? j then j + offset else j in
  MkInsn (i_test e) (f (i_no e)) (f (i_yes e)).

(** ** Programs *)
Record Program : Type := MkProgram {
  p_insn : list Insn;
  p_output_everything : Z;
  p_safe_length : Z;
  p_align_offset : Z
}.
Definition Program_new (align_offset : Z) : Program := MkProgram [] (- j_never) (u32 (-1)) align_offset.
Definition set_insn (l : list Insn) (p : Program) : Program :=
  MkProgram l (p_output_everything p) (p_safe_length p) (p_align_offset p).

(** *** Building: the tree says at which level each instruction starts a subtree ([-1]: none);
    its first element is the current level. *)
Definition level (tree : list Z) : Z := tree !!! 0%nat.
Definition init_subtree (p : Program) : list Z := 0 :: replicate (length (p_insn p)) (-1).
Definition start_subtree (tree : list Z) : list Z := <[0%nat := level tree + 1]> tree.
Definition add_insn (offset value mask : Z) (s : Program * list Z) : Program * list Z :=
  let '(p, tree) := s in
  (MkProgram (p_insn p ++ [Insn_new offset value mask]) (-1) (p_safe_length p) (p_align_offset p),
   tree ++ [level tree]).
Definition redirect (success failure j : Z) : Z :=
  if j =? j_success then success else if j =? j_failure then failure else j.
Definition redirect_insn (success failure : Z) (e : Insn) : Insn :=
  MkInsn (i_test e) (redirect success failure (i_no e)) (redirect success failure (i_yes e)).
Definition redirect_subtree (first last : nat) (success failure : Z) (l : list Insn) : list Insn :=
  take first l ++ map (redirect_insn success failure) (take (last - first) (drop first l)) ++ drop last l.

(** The walk back to the parent subtree, and the child subtrees behind it. *)
Fixpoint parent_ptr (tree : list Z) (ptr : nat) : nat :=
  match ptr with
  | O => O
  | S ptr' =>
      if (tree !!! ptr <? 0) || (level tree <=? tree !!! ptr) then parent_ptr tree ptr' else ptr
  end.
Definition subtrees (tree : list Z) (n : nat) : list nat :=
  let ptr := parent_ptr tree n in
  filter (fun p => tree !!! S p = level tree) (seq ptr (n - ptr)).
Fixpoint combine_subtrees (combiner : Combiner) (success failure : Z) (subtrees : list nat) (l : list Insn)
  : list Insn :=
  match subtrees with
  | [] => l
  | first :: subtrees1 =>
      match subtrees1 with
      | [] => redirect_subtree first (length l) success failure l
      | next :: subtrees2 =>
          match combiner, subtrees2 with
          | c_or, _ =>
              combine_subtrees combiner success failure subtrees1
                (redirect_subtree first next success (Z.of_nat next) l)
          | c_ternary, next2 :: _ =>
              combine_subtrees combiner success failure subtrees2
                (redirect_subtree next next2 success failure
                   (redirect_subtree first next (Z.of_nat next) (Z.of_nat next2) l))
          | _, _ =>
              combine_subtrees combiner success failure subtrees1
                (redirect_subtree first next (Z.of_nat next) failure l)
          end
      end
  end.
Definition mark_subtree (first : nat) (tree : list Z) : list Z :=
  <[S first := level tree - 1]> (take (first + 2) tree) ++ replicate (length tree - (first + 2)) (-1).
Definition finish_subtree (combiner : Combiner) (success failure : Z) (s : Program * list Z)
  : Program * list Z :=
  let '(p, tree) := s in
  let subs := subtrees tree (length (p_insn p)) in
  let tree' := match subs with first :: _ => mark_subtree first tree | [] => tree end in
  (set_insn (combine_subtrees combiner success failure subs (p_insn p)) p,
   <[0%nat := level tree - 1]> tree').

Definition negate_jump (j : Z) : Z :=
  if j =? j_failure then j_success else if j =? j_success then j_failure else j.
Definition negate_insn (flip_short : bool) (e : Insn) : Insn :=
  let t := i_test e in
  MkInsn (MkTest (i_offset t) (xorb flip_short (i_short t)) (i_mask t) (i_value t))
    (negate_jump (i_no e)) (negate_jump (i_yes e)).
(** The start of the last subtree of the current level, among the first [n] instructions. *)
Fixpoint last_subtree (tree : list Z) (n : nat) : option nat :=
  match n with
  | O => None
  | S first => if tree !!! S first =? level tree then Some first else last_subtree tree first
  end.
Definition negate_subtree (flip_short : bool) (s : Program * list Z) : Program * list Z :=
  let '(p, tree) := s in
  match last_subtree tree (length (p_insn p)) with
  | None => s
  | Some first =>
      (set_insn (take first (p_insn p) ++ map (negate_insn flip_short) (drop first (p_insn p))) p, tree)
  end.

(** *** Linking programs *)
Definition set_failure_jump (failure j : Z) : Z := if j =? j_failure then failure else j.
Definition set_failure_insn (failure : Z) (e : Insn) : Insn :=
  MkInsn (i_test e) (set_failure_jump failure (i_no e)) (set_failure_jump failure (i_yes e)).
Definition set_failure (failure : Z) (p : Program) : res Program :=
  oe ← (if p_output_everything p =? - j_failure
        then if failure <=? 0 then Ok (- failure) else Fault AssertFailed
        else Ok (p_output_everything p));
  Ok (MkProgram (map (set_failure_insn failure) (p_insn p)) oe (p_safe_length p) (p_align_offset p)).
Definition add_or_program (next_program p : Program) : res Program :=
  if (p_output_everything p <? 0) || (p_output_everything p =? - j_failure) then
    let failure := - p_output_everything next_program in
    let failure := if 0 <? failure then Z.of_nat (length (p_insn p)) else failure in
    p ← set_failure failure p;
    let offset := Z.of_nat (length (p_insn p)) in
    Ok (set_insn (p_insn p ++ map (offset_by offset) (p_insn next_program)) p)
  else Ok p.

(** *** The order of tests *)
Definition count_inbranch (i : nat) (inbranches : list Z) (j : Z) : list Z :=
  if 0 <? j then <[Z.to_nat j := (if 0 <=? inbranches !!! Z.to_nat j then 0 else Z.of_nat i)]> inbranches
  else inbranches.
Definition branches (l : list Insn) : list (nat * Z) :=
  concat (imap (fun i e => [(i, i_no e); (i, i_yes e)]) l).
Definition count_inbranches (l : list Insn) : list Z :=
  foldl (fun b '(i, j) => count_inbranch i b j) (replicate (length l) (-1)) (branches l).

(** The offset map is an array of pairs; [hard_map_offset]'s search. *)
Fixpoint hard_map_offset (fuel : nat) (offset : Z) (m : list (Z * Z)) : Z :=
  match fuel, m with
  | S fuel, _ :: _ =>
      let mid := (length m / 2)%nat in
      let '(from, to) := m !!! mid in
      if from =? offset then to
      else if from <? offset then hard_map_offset fuel offset (drop (mid + 1) m)
      else offset
  | _, _ => offset
  end.
Definition map_offset (offset : Z) (m : list (Z * Z)) : Z :=
  match m with
  | [] => offset
  | _ :: _ =>
      if (offset <? fst (m !!! 0%nat)) || (fst (m !!! (length m - 1)%nat) <? offset) then offset
      else hard_map_offset (length m) offset m
  end.
Definition before (offset_map : list (Z * Z)) (t2 t1 : Test) : bool :=
  let o1 := map_offset (i_offset t1) offset_map in
  let o2 := map_offset (i_offset t2) offset_map in
  (o2 <? o1)
  || ((o1 =? o2)
      && ((ntohl (i_mask t2) <? ntohl (i_mask t1))
          || ((i_mask t1 =? i_mask t2) && (ntohl (i_value t2) <? ntohl (i_value t1))))).
(** Whether branch [k] of instruction [i] leads to one that should come first, and where. *)
Definition out_of_order (offset_map : list (Z * Z)) (last_offset : Z) (inbranch : list Z) (l : list Insn)
    (i : nat) (k : bool) : option nat :=
  let e1 := l !!! i in
  let j := in_j e1 k in
  if (j <=? 0) || (last_offset <=? i_offset (i_test e1)) || (inbranch !!! Z.to_nat j <=? 0) then None
  else
    let e2 := l !!! Z.to_nat j in
    if negb (in_j e1 (negb k) =? in_j e2 (negb k)) then None
    else if before offset_map (i_test e2) (i_test e1) then Some (Z.to_nat j) else None.
Definition swap_insns (l : list Insn) (i j : nat) (k : bool) : list Insn :=
  let e1 := l !!! i in
  let e2 := l !!! j in
  <[i := set_j k (Z.of_nat j) e2]> (<[j := set_j k (in_j e2 k) e1]> l).
Fixpoint bubble_loop (fuel : nat) (offset_map : list (Z * Z)) (last_offset : Z) (inbranch : list Z)
    (i : nat) (l : list Insn) : option (list Insn) :=
  match fuel with
  | O => None
  | S fuel =>
      if (length l <=? i)%nat then Some l
      else
        let back := if 0 <? inbranch !!! i then Z.to_nat (inbranch !!! i) else i in
        match out_of_order offset_map last_offset inbranch l i false with
        | Some j => bubble_loop fuel offset_map last_offset inbranch back (swap_insns l i j false)
        | None =>
            match out_of_order offset_map last_offset inbranch l i true with
            | Some j => bubble_loop fuel offset_map last_offset inbranch back (swap_insns l i j true)
            | None => bubble_loop fuel offset_map last_offset inbranch (S i) l
            end
        end
  end.
Definition bubble_fuel (n : nat) : nat := (n * n + 1) * (n + 1).
Definition bubble_sort_and_exprs (offset_map : list (Z * Z)) (last_offset : Z) (l : list Insn)
  : option (list Insn) :=
  bubble_loop (bubble_fuel (length l)) offset_map last_offset (count_inbranches l) 0 l.

(** *** Combining neighbours *)
(** The body of the loop of [combine_compatible_states] for instruction [i]; [true] if it is to
    run again for [i]. *)
Definition combine_no (l : list Insn) (i : nat) : list Insn * bool :=
  let e := l !!! i in
  if 0 <? i_no e then
    let no_in := l !!! Z.to_nat (i_no e) in
    if compatible (i_test no_in) (i_test e) false && flippable (i_test e) then (<[i := flip e]> l, false)
    else if generalizable_or_pair e no_in then
      let t := i_test e in
      let the_bit := Z.lxor (i_value t) (i_value (i_test no_in)) in
      (<[i := MkInsn (MkTest (i_offset t) (i_short t) (Z.ldiff (i_mask t) the_bit) (Z.ldiff (i_value t) the_bit))
                (i_no no_in) (i_yes e)]> l, true)
    else (l, false)
  else (l, false).
Definition merge_tests (t y : Test) : Test :=
  MkTest (if i_mask t =? 0 then i_offset y else i_offset t) (i_short t)
    (Z.lor (i_mask t) (i_mask y))
    (Z.lor (Z.land (i_value t) (i_mask t)) (Z.land (i_value y) (i_mask y))).
Definition combine_yes (l : list Insn) (i : nat) : list Insn * bool :=
  let e := l !!! i in
  if i_yes e <=? 0 then (l, false)
  else
    let y := Z.to_nat (i_yes e) in
    let l := if (i_no e =? i_yes (l !!! y)) && flippable (i_test (l !!! y)) then <[y := flip (l !!! y)]> l else l in
    let yes_in := l !!! y in
    if (i_no e =? i_no yes_in) && compatible (i_test yes_in) (i_test e) true
    then (<[i := MkInsn (merge_tests (i_test e) (i_test yes_in)) (i_no e) (i_yes yes_in)]> l, true)
    else (l, false).
Fixpoint combine_insn (fuel : nat) (i : nat) (l : list Insn) : option (list Insn) :=
  match fuel with
  | O => None
  | S fuel =>
      let '(l, again) := combine_no l i in
      if again : bool then combine_insn fuel i l
      else
        let '(l, again) := combine_yes l i in
        if again : bool then combine_insn fuel i l else Some l
  end.
(** Instructions [n - 1], ..., 0; every round moves a jump of the instruction on. *)
Fixpoint combine_loop (n : nat) (l : list Insn) : option (list Insn) :=
  match n with
  | O => Some l
  | S i => l ← combine_insn (2 * length l + 1) i l; combine_loop i l
  end.
Definition combine_compatible_states (l : list Insn) : option (list Insn) := combine_loop (length l) l.

(** *** Removing instructions *)
Definition skip_jump (destination : list Z) (j : Z) : Z :=
  if 0 <? j then destination !!! Z.to_nat j else j.
Definition interesting (e : Insn) : bool := negb (i_yes e =? i_no e) && negb (i_mask (i_test e) =? 0).
(** The first loop, for instructions [n - 1], ..., 0. *)
Fixpoint skip_loop (n : nat) (l : list Insn) (destination : list Z) : list Insn * list Z :=
  match n with
  | O => (l, destination)
  | S i =>
      let e := l !!! i in
      let e := MkInsn (i_test e) (skip_jump destination (i_no e)) (skip_jump destination (i_yes e)) in
      let d := if interesting e then Z.of_nat i
               else if i_yes e <=? 0 then i_yes e
               else destination !!! Z.to_nat (i_yes e) in
      skip_loop i (<[i := e]> l) (<[i := d]> destination)
  end.
Definition check_first (l : list Insn) (destination : list Z) : list Insn * Z :=
  let d0 := destination !!! 0%nat in
  let e := l !!! 0%nat in
  if 0 <? d0 then (<[0%nat := l !!! Z.to_nat d0]> l, -1)
  else if d0 <? 0 then (l, - d0)
  else if (i_yes e =? 0) && ((i_no e =? 0) || (i_mask (i_test e) =? 0)) then (l, 0)
  else (l, -1).
(** Which states are reachable, numbered in order. *)
Definition reach (destination : list Z) (j : Z) : list Z :=
  if 0 <? j then <[Z.to_nat j := 0]> destination else destination.
Fixpoint reach_loop (todo : list nat) (l : list Insn) (destination : list Z) (new_insn_index : nat)
  : list Z * nat :=
  match todo with
  | [] => (destination, new_insn_index)
  | i :: todo =>
      if 0 <=? destination !!! i then
        let destination := <[i := Z.of_nat new_insn_index]> destination in
        let e := l !!! i in
        reach_loop todo l (reach (reach destination (i_no e)) (i_yes e)) (S new_insn_index)
      else reach_loop todo l destination new_insn_index
  end.
Fixpoint move_loop (todo : list nat) (l : list Insn) (destination : list Z) : list Insn :=
  match todo with
  | [] => l
  | i :: todo =>
      if 0 <=? destination !!! i then
        let e := l !!! i in
        let e := MkInsn (i_test e) (skip_jump destination (i_no e)) (skip_jump destination (i_yes e)) in
        move_loop todo (<[Z.to_nat (destination !!! i) := e]> l) destination
      else move_loop todo l destination
  end.
(** The instructions and [_output_everything]. *)
Definition remove_unused_states (l : list Insn) (output_everything : Z) : list Insn * Z :=
  match l with
  | [] => (l, output_everything)
  | _ =>
      let n := length l in
      let '(l, destination) := skip_loop n l (replicate n (-1)) in
      let '(l, output_everything) := check_first l destination in
      let destination := replicate n (-1) in
      let destination := if output_everything <? 0 then <[0%nat := 0]> destination else destination in
      let '(destination, new_insn_index) := reach_loop (seq 0 n) l destination 0 in
      (take new_insn_index (move_loop (seq 0 n) l destination), output_everything)
  end.

(** The end of [optimize]: empty programs and the safe length. *)
Definition max_required_length (l : list Insn) : Z :=
  foldl (fun m e => if m <? required_length (i_test e) then required_length (i_test e) else m) 0 l.
Definition finish_program (align_offset : Z) (r : list Insn * Z) : Program :=
  let '(l, oe) := r in
  let oe' := if (length l =? 0)%nat && (oe <? 0) then - j_never else oe in
  let l' := if (length l =? 0)%nat && (oe <? 0) then l else if 0 <=? oe then [] else l in
  MkProgram l' oe' (u32 (max_required_length l' - align_offset)) align_offset.

(** ** Matching *)
Record packet_mem : Type := Mem { m_length : Z; m_byte : Z -> Z }.
(** The word at [packet_data + offset]; [m_byte] counts from the start of the data. *)
Definition word (p : packet_mem) (o : Z) : Z :=
  m_byte p o + 256 * (m_byte p (o + 1) + 256 * (m_byte p (o + 2) + 256 * m_byte p (o + 3))).
(** One step of the program is a test and a jump; [None] is a jump out of the program. *)
Fixpoint run_program (fuel : nat) (test : Test -> bool) (l : list Insn) (pos : nat) : option Z :=
  match fuel with
  | O => None
  | S fuel =>
      match l !! pos with
      | None => None
      | Some e =>
          let j := in_j e (test (i_test e)) in
          if 0 <? j then run_program fuel test l (Z.to_nat j) else Some (- j)
      end
  end.
Definition data_test (al : Z) (p : packet_mem) (t : Test) : bool :=
  Z.land (word p (i_offset t - al)) (i_mask t) =? i_value t.
Definition checked_test (al : Z) (p : packet_mem) (t : Test) : bool :=
  let packet_length := m_length p + al in
  let offset := i_offset t in
  if packet_length <? offset + 4 then
    if (offset <? packet_length)
       && (let available := packet_length - offset in
           negb (negb (mask_c t 3 =? 0)
                 || (negb (mask_c t 2 =? 0) && (available <=? 2))
                 || (negb (mask_c t 1 =? 0) && (available =? 1))))
    then data_test al p t
    else i_short t
  else data_test al p t.
Definition length_checked_match (pr : Program) (p : packet_mem) : option Z :=
  run_program (length (p_insn pr)) (checked_test (p_align_offset pr) p) (p_insn pr) 0.
Definition match_packet (pr : Program) (p : packet_mem) : option Z :=
  if 0 <=? p_output_everything pr then Some (p_output_everything pr)
  else if m_length p <? p_safe_length pr then length_checked_match pr p
  else run_program (length (p_insn pr)) (data_test (p_align_offset pr) p) (p_insn pr) 0.

(** ** What a program does *)
Definition jump_ok (n i : nat) (j : Z) : Prop := j <= 0 \/ Z.of_nat i < j < Z.of_nat n.
(** All jumps lead forward, within the program or out of it. *)
Definition forward (l : list Insn) : Prop :=
  forall i e, l !! i = Some e -> forall k, jump_ok (length l) i (in_j e k).

Section Run.
Context (test : Test -> bool).
(** Where a jump ends up, and where instruction [pos] does. *)
Inductive lands (l : list Insn) : Z -> Z -> Prop :=
| lands_out j : j <= 0 -> lands l j j
| lands_step j e r :
    0 < j -> l !! Z.to_nat j = Some e -> lands l (in_j e (test (i_test e))) r -> lands l j r.
Definition runs (l : list Insn) (pos : nat) (r : Z) : Prop :=
  exists e, l !! pos = Some e /\ lands l (in_j e (test (i_test e))) r.

Lemma lands_end l j r : lands l j r -> r <= 0.
Proof. by induction 1. Qed.
Lemma lands_det l j r r' : lands l j r -> lands l j r' -> r = r'.
Proof.
  intros H. revert r'. induction H as [j Hj|j e r Hj He H IH]; intros r' H'; inversion H'; subst; try lia.
  apply IH. congruence.
Qed.
Lemma runs_det l pos r r' : runs l pos r -> runs l pos r' -> r = r'.
Proof. intros (e & He & H) (e' & He' & H'). rewrite He in He'. injection He' as <-. by eapply lands_det. Qed.
Lemma runs_lands l j r : 0 < j -> runs l (Z.to_nat j) r -> lands l j r.
Proof. intros Hj (e & He & H). by eapply lands_step. Qed.
Lemma lands_runs l j r : 0 < j -> lands l j r -> runs l (Z.to_nat j) r.
Proof. intros Hj H. inversion H; subst; [lia|]. by eexists. Qed.

(** Induction from the end. *)
Lemma backward_ind (n : nat) (P : nat -> Prop) :
  (forall i, (i < n)%nat -> (forall m, (i < m < n)%nat -> P m) -> P i) -> forall i, (i < n)%nat -> P i.
Proof.
  intros Hstep i. remember (n - i)%nat as d. revert i Heqd.
  induction d as [d IH] using (well_founded_induction lt_wf). intros i -> Hi.
  apply Hstep; [done|]. intros m Hm. eapply IH; [|reflexivity|]; lia.
Qed.
Lemma runs_total l pos : forward l -> (pos < length l)%nat -> exists r, runs l pos r.
Proof.
  intros Hf. revert pos. apply backward_ind. intros i Hi IH. destruct (lookup_lt_is_Some_2 l i Hi) as [e He].
  destruct (Hf i e He (test (i_test e))) as [Hj|Hj].
  - eexists _, e. split; [done|]. by apply lands_out.
  - destruct (IH (Z.to_nat (in_j e (test (i_test e)))) ltac:(lia)) as [r Hr]. exists r, e. split; [done|]. apply runs_lands; [lia|done].
Qed.
Lemma lands_total l j i : forward l -> jump_ok (length l) i j -> exists r, lands l j r.
Proof.
  intros Hf [Hj|Hj]; [eexists; by apply lands_out|].
  destruct (runs_total l (Z.to_nat j) Hf ltac:(lia)) as [r Hr]. exists r. apply runs_lands; [lia|done].
Qed.
(** [length l] steps are enough. *)
Lemma run_program_runs fuel l pos r :
  forward l -> runs l pos r -> (length l - pos <= fuel)%nat -> run_program fuel test l pos = Some (- r).
Proof.
  intros Hf Hr. revert pos Hr. induction fuel as [|fuel IH]; intros pos (e & He & H) Hfuel.
  { apply lookup_lt_Some in He. lia. }
  cbn [run_program]. rewrite He. destruct (Z.ltb_spec 0 (in_j e (test (i_test e)))) as [Hj|Hj].
  - apply IH; [by apply lands_runs|]. destruct (Hf pos e He (test (i_test e))) as [|Hok]; lia.
  - inversion H; subst; [done|lia].
Qed.
Lemma run_program_all l r : forward l -> runs l 0 r -> run_program (length l) test l 0 = Some (- r).
Proof. intros Hf Hr. apply run_program_runs; [done|done|lia]. Qed.
End Run.

(** Tests that agree on the instructions of a program. *)
Lemma lands_test test test' l j r :
  (forall e, e ∈ l -> test (i_test e) = test' (i_test e)) -> lands test l j r -> lands test' l j r.
Proof.
  intros Heq. induction 1 as [j Hj|j e r Hj He _ IH]; [by apply lands_out|].
  eapply lands_step; [done..|]. rewrite <- Heq; [done|]. by eapply list_elem_of_lookup_2.
Qed.
Lemma runs_test test test' l pos r :
  (forall e, e ∈ l -> test (i_test e) = test' (i_test e)) -> runs test l pos r -> runs test' l pos r.
Proof.
  intros Heq (e & He & H). exists e. split; [done|]. rewrite <- Heq by (by eapply list_elem_of_lookup_2).
  by eapply lands_test.
Qed.
Lemma run_program_test test test' fuel l pos :
  (forall e, e ∈ l -> test (i_test e) = test' (i_test e)) -> run_program fuel test l pos = run_program fuel test' l pos.
Proof.
  intros Heq. revert pos. induction fuel as [|fuel IH]; intros pos; [done|]. cbn [run_program].
  destruct (l !! pos) as [e|] eqn:He; [|done]. rewrite Heq by (by eapply list_elem_of_lookup_2).
  destruct (0 <? _); [apply IH|done].
Qed.

(** [program_equiv test l l']: the programs send every packet the same way. *)
Definition sends (test : Test -> bool) (l l' : list Insn) : Prop := forall r, runs test l 0 r -> runs test l' 0 r.

(** ** [bubble_sort_and_exprs] *)
Lemma in_j_set_same k j e : in_j (set_j k j e) k = j.
Proof. by destruct k. Qed.
Lemma in_j_set_other k j e : in_j (set_j k j e) (negb k) = in_j e (negb k).
Proof. by destruct k. Qed.
Lemma set_j_test k j e : i_test (set_j k j e) = i_test e.
Proof. by destruct k. Qed.
(** The jumps of [set_j k j e], by cases. *)
Lemma in_j_set k j e k' : in_j (set_j k j e) k' = if Bool.eqb k' k then j else in_j e k'.
Proof. by destruct k, k'. Qed.

(** *** Branches into an instruction *)
Lemma branches_split l i e : l !! i = Some e -> exists b1 b2, branches l = b1 ++ [(i, i_no e); (i, i_yes e)] ++ b2.
Proof.
  intros He. unfold branches. rewrite <- (take_drop_middle l i e He), imap_app, concat_app. cbn [imap concat].
  rewrite length_take_le by (apply lookup_lt_Some in He; lia). rewrite Nat.add_0_r. eauto.
Qed.
Lemma branch_elem l i e k : l !! i = Some e -> (i, in_j e k) ∈ branches l.
Proof.
  intros (b1 & b2 & ->)%branches_split. apply elem_of_app. right. apply elem_of_app. left.
  destruct k; [apply list_elem_of_further, list_elem_of_here|apply list_elem_of_here].
Qed.
Definition into (j : nat) (bs : list (nat * Z)) : list (nat * Z) := filter (fun b => b.2 = Z.of_nat j) bs.
Lemma count_inbranches_value n bs j :
  (0 < j < n)%nat ->
  foldl (fun b '(i, j) => count_inbranch i b j) (replicate n (-1)) bs !!! j =
    match into j bs with [] => -1 | [(i, _)] => Z.of_nat i | _ => 0 end /\
  length (foldl (fun b '(i, j) => count_inbranch i b j) (replicate n (-1)) bs) = n.
Proof.
  intros Hj. induction bs as [|[i x] bs [IH IHl]] using rev_ind.
  { cbn. rewrite lookup_total_replicate_2, length_replicate by lia. done. }
  rewrite foldl_app. cbn [foldl]. set (b := foldl _ _ bs) in *. unfold into in *. rewrite list.filter_app.
  unfold count_inbranch. destruct (Z.ltb_spec 0 x) as [Hx|Hx].
  - rewrite length_insert. split; [|done]. destruct (decide (x = Z.of_nat j)) as [-> |Hne].
    + rewrite filter_cons_True, filter_nil by done. rewrite Nat2Z.id, list_lookup_total_insert_eq by lia. rewrite IH.
      destruct (filter _ bs) as [|[i' x'] [|[] ?]]; cbn [app]; try done.
      rewrite (proj2 (Z.leb_le 0 (Z.of_nat i'))) by lia. done.
    + rewrite filter_cons_False, filter_nil, app_nil_r by done.
      rewrite list_lookup_total_insert_ne; [done|]. lia.
  - rewrite filter_cons_False, filter_nil, app_nil_r by (cbn; lia). done.
Qed.
(** A positive entry of the table is the only branch into an instruction. *)
Definition single_inbranch (b : list Z) (l : list Insn) : Prop :=
  forall j, (0 < j < length l)%nat -> 0 < b !!! j -> forall i e k,
    l !! i = Some e -> in_j e k = Z.of_nat j -> Z.of_nat i = b !!! j /\ in_j e (negb k) <> Z.of_nat j.
Lemma count_inbranches_single l : single_inbranch (count_inbranches l) l.
Proof.
  intros j Hj Hpos i e k He Hk. unfold count_inbranches in *.
  destruct (count_inbranches_value (length l) (branches l) j ltac:(lia)) as [E _]. rewrite E in *. clear E.
  assert (Hin : (i, Z.of_nat j) ∈ into j (branches l)).
  { apply list_elem_of_filter. split; [done|]. rewrite <- Hk. by apply branch_elem. }
  destruct (into j (branches l)) as [|[i' x'] [|]] eqn:Einto; [lia| |lia].
  apply list_elem_of_singleton in Hin. injection Hin as -> <-. split; [done|]. intros Hk'.
  destruct (branches_split l i' e He) as (b1 & b2 & Eb). apply (f_equal length) in Einto.
  unfold into in Einto. rewrite Eb, !list.filter_app, !length_app in Einto.
  assert (Hno : i_no e = Z.of_nat j /\ i_yes e = Z.of_nat j) by (by destruct k).
  rewrite !filter_cons_True in Einto by (cbn; tauto). cbn [length] in Einto. lia.
Qed.

(** *** One exchange *)
Record exchange (l : list Insn) (i j : nat) (k : bool) (e1 e2 : Insn) : Prop := {
  ex_forward : forward l;
  ex_first : l !! i = Some e1;
  ex_second : l !! j = Some e2;
  ex_order : (i < j)%nat;
  ex_jump : in_j e1 k = Z.of_nat j;
  ex_other : in_j e1 (negb k) = in_j e2 (negb k);
  ex_single : forall i' e' k', l !! i' = Some e' -> in_j e' k' = Z.of_nat j -> i' = i /\ k' = k
}.
Section Exchange.
Context (l : list Insn) (i j : nat) (k : bool) (e1 e2 : Insn) (X : exchange l i j k e1 e2).
Let l' := swap_insns l i j k.

Lemma swap_eq : l' = <[i := set_j k (Z.of_nat j) e2]> (<[j := set_j k (in_j e2 k) e1]> l).
Proof.
  unfold l', swap_insns. rewrite (list_lookup_total_correct _ _ _ (ex_first _ _ _ _ _ _ X)).
  by rewrite (list_lookup_total_correct _ _ _ (ex_second _ _ _ _ _ _ X)).
Qed.
Lemma swap_length : length l' = length l.
Proof. by rewrite swap_eq, !length_insert. Qed.
Lemma swap_first : l' !! i = Some (set_j k (Z.of_nat j) e2).
Proof.
  rewrite swap_eq. apply list_lookup_insert_eq. rewrite length_insert. by eapply lookup_lt_Some, (ex_first _ _ _ _ _ _ X).
Qed.
Lemma swap_second : l' !! j = Some (set_j k (in_j e2 k) e1).
Proof.
  pose proof (ex_order _ _ _ _ _ _ X). rewrite swap_eq, list_lookup_insert_ne by lia.
  apply list_lookup_insert_eq. by eapply lookup_lt_Some, (ex_second _ _ _ _ _ _ X).
Qed.
Lemma swap_others m : m <> i -> m <> j -> l' !! m = l !! m.
Proof. intros. rewrite swap_eq, !list_lookup_insert_ne by done. done. Qed.
(** The jumps stay where they are. *)
Lemma swap_jumps m : (fun e => (i_no e, i_yes e)) <$> l' !! m = (fun e => (i_no e, i_yes e)) <$> l !! m.
Proof.
  destruct X as [Hf H1 H2 Ho Hj Hk _]. destruct (decide (m = i)) as [-> |Hi].
  { rewrite swap_first, H1. cbn. destruct k; cbn in *; by rewrite Hj, Hk. }
  destruct (decide (m = j)) as [-> |Hm]; [|by rewrite swap_others].
  rewrite swap_second, H2. cbn. destruct k; cbn in *; by rewrite Hk.
Qed.
Lemma same_jumps_forward m : forward m -> length l' = length m ->
  (forall n, (fun e => (i_no e, i_yes e)) <$> l' !! n = (fun e => (i_no e, i_yes e)) <$> m !! n) -> forward l'.
Proof.
  intros Hf Hl Hm n e He b. specialize (Hm n). rewrite He in Hm. destruct (m !! n) as [e'|] eqn:E; [|done].
  injection Hm as Hno Hyes. rewrite Hl. destruct b; cbn; [rewrite Hyes|rewrite Hno]; [apply (Hf n e' E true)|apply (Hf n e' E false)].
Qed.
Lemma swap_forward : forward l'.
Proof. apply (same_jumps_forward l); [apply (ex_forward _ _ _ _ _ _ X)|apply swap_length|apply swap_jumps]. Qed.

(** Jumps to instructions that behave the same land in the same place. *)
Lemma lands_mono test (m m' : list Insn) x r :
  (0 < x -> forall r, runs test m (Z.to_nat x) r -> runs test m' (Z.to_nat x) r) ->
  lands test m x r -> lands test m' x r.
Proof.
  intros Hx H. destruct (Z.le_gt_cases x 0).
  - inversion H; subst; [by apply lands_out|lia].
  - apply runs_lands; [lia|]. apply Hx; [lia|]. apply lands_runs; [lia|done].
Qed.
Lemma swap_runs test pos r : pos <> j -> runs test l pos r -> runs test l' pos r.
Proof.
  destruct X as [Hf H1 H2 Ho Hj Hk Hs]. intros Hpos Hr.
  assert (Hlt : (pos < length l)%nat) by (destruct Hr as (e & He & _); by eapply lookup_lt_Some).
  revert pos Hlt Hpos r Hr. apply (backward_ind _ (fun pos => pos <> j -> forall r, runs test l pos r -> runs test l' pos r)).
  intros pos Hlt IH Hpos r (e & He & Hr).
  assert (Hland : forall m em b, (pos <= m)%nat -> l !! m = Some em -> in_j em b <> Z.of_nat j ->
      lands test l (in_j em b) r -> lands test l' (in_j em b) r).
  { intros m em b Hm Hem Hx. apply lands_mono. intros Hx0. destruct (Hf m em Hem b) as [|Hjump]; [lia|]. apply IH; lia. }
  assert (Hk2 : in_j e2 k <> Z.of_nat j).
  { intros E. destruct (Hs j e2 k H2 E). lia. }
  assert (Ho2 : in_j e2 (negb k) <> Z.of_nat j).
  { intros E. rewrite <- Hk in E. destruct (Hs i e1 (negb k) H1 E) as [_ Eb]. by destruct k. }
  destruct (decide (pos = i)) as [-> |Hi].
  - rewrite H1 in He. injection He as <-. eexists. split; [apply swap_first|]. rewrite set_j_test.
    destruct (Bool.bool_dec (test (i_test e2)) k) as [E2|E2]; destruct (Bool.bool_dec (test (i_test e1)) k) as [E1|E1].
    + rewrite E1, Hj in Hr. apply lands_runs in Hr; [|lia]. rewrite Nat2Z.id in Hr. destruct Hr as (e' & He' & Hr).
      rewrite H2 in He'. injection He' as <-. rewrite E2 in Hr. rewrite E2, in_j_set_same.
      apply runs_lands; [lia|]. rewrite Nat2Z.id. eexists. split; [apply swap_second|].
      rewrite set_j_test, E1, in_j_set_same. apply (Hland j); [lia|done..].
    + assert (Hb : test (i_test e1) = negb k) by (by destruct (test (i_test e1)), k).
      rewrite Hb, Hk in Hr. rewrite E2, in_j_set_same. apply runs_lands; [lia|]. rewrite Nat2Z.id.
      eexists. split; [apply swap_second|]. rewrite set_j_test, Hb, in_j_set_other, Hk. apply (Hland j); [lia|done..].
    + assert (Hb : test (i_test e2) = negb k) by (by destruct (test (i_test e2)), k).
      rewrite E1, Hj in Hr. apply lands_runs in Hr; [|lia]. rewrite Nat2Z.id in Hr. destruct Hr as (e' & He' & Hr).
      rewrite H2 in He'. injection He' as <-. rewrite Hb in Hr. rewrite Hb, in_j_set_other. apply (Hland j); [lia|done..].
    + assert (Hb1 : test (i_test e1) = negb k) by (by destruct (test (i_test e1)), k).
      assert (Hb2 : test (i_test e2) = negb k) by (by destruct (test (i_test e2)), k).
      rewrite Hb1, Hk in Hr. rewrite Hb2, in_j_set_other. apply (Hland j); [lia|done..].
  - exists e. rewrite swap_others by done. split; [done|]. apply (Hland pos); [lia|done| |done].
    intros E. by destruct (Hs pos e _ He E).
Qed.
End Exchange.

(** *** Exchanges remove inversions *)
Section Inversions.
Context {A : Type} (bef : A -> A -> bool).
Context (bef_irrefl : forall x, bef x x = false) (bef_trans : forall x y z, bef x y = true -> bef y z = true -> bef x z = true).
Definition inv_with (x : A) (l : list A) : nat := length (List.filter (fun y => bef y x) l).
Fixpoint inv_between (a l : list A) : nat :=
  match a with [] => 0 | x :: a => inv_with x l + inv_between a l end.
Fixpoint inversions (l : list A) : nat :=
  match l with [] => 0 | x :: l => inv_with x l + inversions l end.

Lemma inv_with_app x l m : inv_with x (l ++ m) = (inv_with x l + inv_with x m)%nat.
Proof. unfold inv_with. by rewrite List.filter_app, length_app. Qed.
Lemma inv_with_cons x y l : inv_with x (y :: l) = (Nat.b2n (bef y x) + inv_with x l)%nat.
Proof. unfold inv_with. cbn. by destruct (bef y x). Qed.
Definition inv_of (a : list A) (y : A) : nat := length (List.filter (fun x => bef y x) a).
Lemma inv_of_cons x a y : inv_of (x :: a) y = (Nat.b2n (bef y x) + inv_of a y)%nat.
Proof. unfold inv_of. cbn. by destruct (bef y x). Qed.
Lemma inv_between_cons a y l : inv_between a (y :: l) = (inv_of a y + inv_between a l)%nat.
Proof. induction a as [|x a IH]; [done|]. cbn [inv_between]. rewrite IH, inv_with_cons, inv_of_cons. lia. Qed.
Lemma inv_between_app a l m : inv_between a (l ++ m) = (inv_between a l + inv_between a m)%nat.
Proof. induction a as [|x a IH]; [done|]. cbn [inv_between]. rewrite IH, inv_with_app. lia. Qed.
Lemma inversions_app l m : inversions (l ++ m) = (inversions l + inversions m + inv_between l m)%nat.
Proof. induction l as [|x l IH]; cbn [inversions inv_between app]; [lia|]. rewrite IH, inv_with_app. lia. Qed.
Lemma inv_with_bound x l : (inv_with x l <= length l)%nat.
Proof. unfold inv_with. apply List.filter_length_le. Qed.
Lemma inversions_bound l : (inversions l <= length l * length l)%nat.
Proof. induction l as [|x l IH]; cbn [inversions length]; [lia|]. pose proof (inv_with_bound x l). nia. Qed.

Lemma exchange_between b x y :
  bef y x = true -> (inv_with y b + inv_of b x <= inv_with x b + inv_of b y)%nat.
Proof.
  intros Hyx. induction b as [|z b IH]; [done|]. rewrite !inv_with_cons, !inv_of_cons.
  assert (H1 : bef z y = true -> bef z x = true) by (intros; by eapply bef_trans).
  assert (H2 : bef x z = true -> bef y z = true) by (intros; by eapply bef_trans).
  destruct (bef z y), (bef z x), (bef x z), (bef y z); try (by specialize (H1 eq_refl)); try (by specialize (H2 eq_refl)); cbn [Nat.b2n]; lia.
Qed.
Lemma exchange_inversions a b c x y :
  bef y x = true -> (inversions (a ++ y :: b ++ x :: c) < inversions (a ++ x :: b ++ y :: c))%nat.
Proof.
  intros Hyx. assert (Hxy : bef x y = false).
  { destruct (bef x y) eqn:E; [|done]. pose proof (bef_trans _ _ _ Hyx E) as H. by rewrite bef_irrefl in H. }
  rewrite !inversions_app. cbn [inversions]. rewrite !inversions_app. cbn [inversions].
  rewrite !inv_between_cons, !inv_between_app, !inv_between_cons, !inv_with_app, !inv_with_cons, Hyx, Hxy.
  cbn [Nat.b2n]. pose proof (exchange_between b x y Hyx). lia.
Qed.
End Inversions.

Lemma before_irrefl om t : before om t t = false.
Proof. unfold before. rewrite !Z.ltb_irrefl, !Z.eqb_refl. done. Qed.
Lemma before_trans om t1 t2 t3 : before om t1 t2 = true -> before om t2 t3 = true -> before om t1 t3 = true.
Proof.
  unfold before. rewrite !orb_true_iff, !andb_true_iff, !orb_true_iff, !andb_true_iff, !Z.ltb_lt, !Z.eqb_eq.
  generalize (map_offset (i_offset t1) om), (map_offset (i_offset t2) om), (map_offset (i_offset t3) om).
  intros o1 o2 o3 [H1|(H1 & [H1'|(H1' & H1'')])] [H2|(H2 & [H2'|(H2' & H2'')])]; try (left; lia); right;
    (split; [lia|]); rewrite ?H1', ?H2' in *; try (left; lia); right; (split; [congruence|lia]).
Qed.
Lemma insert_middle {A} (a : list A) x y c i : length a = i -> <[i := y]> (a ++ x :: c) = a ++ y :: c.
Proof. intros <-. rewrite <- (Nat.add_0_r (length a)). by rewrite insert_app_r. Qed.
(** The list of tests before and after an exchange. *)
Lemma exchange_split {A} (l : list A) i j x y :
  l !! i = Some x -> l !! j = Some y -> (i < j)%nat ->
  exists a b c, l = a ++ x :: b ++ y :: c /\ <[i := y]> (<[j := x]> l) = a ++ y :: b ++ x :: c.
Proof.
  intros Hx Hy Hij. exists (take i l), (take (j - S i) (drop (S i) l)), (drop (S j) l).
  assert (E : l = take i l ++ x :: take (j - S i) (drop (S i) l) ++ y :: drop (S j) l).
  { rewrite <- (take_drop_middle l i x Hx) at 1. do 2 f_equal.
    rewrite <- (take_drop_middle (drop (S i) l) (j - S i) y) at 1 by (rewrite lookup_drop; rewrite <- Hy; f_equal; lia).
    rewrite drop_drop. do 3 f_equal. lia. }
  split; [exact E|].
  assert (Hli : length (take i l) = i) by (apply length_take_le; apply lookup_lt_Some in Hx; lia).
  assert (Hlj : length (take (j - S i) (drop (S i) l)) = (j - S i)%nat).
  { apply length_take_le. rewrite length_drop. apply lookup_lt_Some in Hy. lia. }
  revert E Hli Hlj. generalize (take i l) (take (j - S i) (drop (S i) l)) (drop (S j) l). intros a b c -> Hli Hlj.
  replace (a ++ x :: b ++ y :: c) with ((a ++ x :: b) ++ y :: c) by (by rewrite <- app_assoc).
  rewrite (insert_middle (a ++ x :: b)) by (rewrite length_app; cbn [length]; lia).
  rewrite <- app_assoc. cbn [app]. by rewrite insert_middle.
Qed.
Lemma swap_tests l i j k e1 e2 : exchange l i j k e1 e2 ->
  map i_test (swap_insns l i j k) = <[i := i_test e2]> (<[j := i_test e1]> (map i_test l)).
Proof. intros X. rewrite (swap_eq _ _ _ _ _ _ X), !list_fmap_insert, !set_j_test. done. Qed.
Lemma swap_inversions om l i j k e1 e2 : exchange l i j k e1 e2 -> before om (i_test e2) (i_test e1) = true ->
  (inversions (before om) (map i_test (swap_insns l i j k)) < inversions (before om) (map i_test l))%nat /\
  Permutation (map i_test l) (map i_test (swap_insns l i j k)).
Proof.
  intros X Hb. rewrite (swap_tests _ _ _ _ _ _ X). destruct X as [_ H1 H2 Hij _ _ _].
  destruct (exchange_split (map i_test l) i j (i_test e1) (i_test e2)) as (a & b & c & -> & ->);
    [by rewrite list_lookup_fmap, H1|by rewrite list_lookup_fmap, H2|done|].
  split; [apply exchange_inversions; [apply before_irrefl|apply before_trans|done]|].
  apply Permutation_app_head. rewrite <- !Permutation_middle. by constructor.
Qed.

(** *** The loop *)
Lemma out_of_order_exchange om lo b l i k j :
  forward l -> single_inbranch b l -> out_of_order om lo b l i k = Some j -> (i < length l)%nat ->
  exists e1 e2, exchange l i j k e1 e2 /\ before om (i_test e2) (i_test e1) = true.
Proof.
  intros Hf Hs. unfold out_of_order. intros H Hi. destruct (lookup_lt_is_Some_2 l i Hi) as [e1 He1].
  rewrite (list_lookup_total_correct _ _ _ He1) in H.
  destruct ((in_j e1 k <=? 0) || (lo <=? i_offset (i_test e1)) || (b !!! Z.to_nat (in_j e1 k) <=? 0)) eqn:E; [done|].
  rewrite !orb_false_iff, !Z.leb_gt in E. destruct E as [[Hj _] Hb].
  destruct (Hf i e1 He1 k) as [|Hok]; [lia|].
  destruct (lookup_lt_is_Some_2 l (Z.to_nat (in_j e1 k)) ltac:(lia)) as [e2 He2].
  rewrite (list_lookup_total_correct _ _ _ He2) in H.
  destruct (Z.eqb_spec (in_j e1 (negb k)) (in_j e2 (negb k))) as [Ho|]; [|done]. cbn [negb] in H.
  destruct (before om (i_test e2) (i_test e1)) eqn:Ebef; [|done]. injection H as <-. exists e1, e2. split; [|done].
  split; try done; [lia|lia|]. intros i' e' k' He' Hk'.
  destruct (Hs (Z.to_nat (in_j e1 k)) ltac:(lia) Hb i e1 k He1 ltac:(lia)) as [Ei _].
  destruct (Hs (Z.to_nat (in_j e1 k)) ltac:(lia) Hb i' e' k' He' Hk') as [Ei' Hother].
  assert (i' = i) as -> by lia. split; [done|]. rewrite He1 in He'. injection He' as <-.
  destruct (Bool.bool_dec k' k) as [|Hne]; [done|]. exfalso. apply Hother.
  replace (negb k') with k by (by destruct k, k'). lia.
Qed.
Lemma swap_single b l i j k e1 e2 : exchange l i j k e1 e2 -> single_inbranch b l -> single_inbranch b (swap_insns l i j k).
Proof.
  intros X Hs n Hn Hb m e k' He Hk. rewrite (swap_length _ _ _ _ _ _ X) in Hn.
  pose proof (swap_jumps _ _ _ _ _ _ X m) as Hj. rewrite He in Hj. destruct (l !! m) as [e'|] eqn:He'; [|done].
  injection Hj as Hno Hyes. assert (Hjj : forall k, in_j e k = in_j e' k) by (by intros []).
  rewrite !Hjj in *. by apply (Hs n Hn Hb m e' k').
Qed.

(** What the loop keeps. *)
Definition bubble_keeps (l l' : list Insn) : Prop :=
  forward l' /\ length l' = length l /\ Permutation (map i_test l) (map i_test l') /\
  forall test, sends test l l'.
Lemma bubble_loop_run fuel om lo b i l :
  forward l -> single_inbranch b l -> (forall n, (n < length l)%nat -> b !!! n < Z.of_nat (length l)) ->
  (i <= length l)%nat ->
  (inversions (before om) (map i_test l) * (length l + 1) + (length l - i) < fuel)%nat ->
  exists l', bubble_loop fuel om lo b i l = Some l' /\ bubble_keeps l l'.
Proof.
  revert i l. induction fuel as [|fuel IH]; intros i l Hf Hs Hb Hi Hfuel; [lia|]. cbn [bubble_loop].
  destruct (Nat.leb_spec (length l) i) as [Hge|Hlt].
  { exists l. split; [done|]. split; [done|]. split; [done|]. split; [done|]. by intros test r Hr. }
  assert (Hback : ((if (0 <? b !!! i)%Z then Z.to_nat (b !!! i) else i) <= length l)%nat).
  { specialize (Hb i Hlt). destruct (0 <? b !!! i); lia. }
  assert (Hstep : forall k j, out_of_order om lo b l i k = Some j ->
    exists l', bubble_loop fuel om lo b (if 0 <? b !!! i then Z.to_nat (b !!! i) else i) (swap_insns l i j k) = Some l' /\
      bubble_keeps l l').
  { intros k j E. destruct (out_of_order_exchange om lo b l i k j Hf Hs E Hlt) as (e1 & e2 & X & Hbef).
    destruct (swap_inversions om l i j k e1 e2 X Hbef) as [Hinv Hperm].
    pose proof (swap_length _ _ _ _ _ _ X) as Hlen.
    destruct (IH (if 0 <? b !!! i then Z.to_nat (b !!! i) else i) (swap_insns l i j k)) as (l' & E' & Hf' & Hl' & Hp' & Hs').
    - by eapply swap_forward.
    - by eapply swap_single.
    - by rewrite Hlen.
    - by rewrite Hlen.
    - rewrite Hlen. nia.
    - exists l'. split; [exact E'|]. split; [done|]. split; [congruence|]. split; [by rewrite Hperm|].
      intros test r Hr. apply Hs'. eapply (swap_runs _ _ _ _ _ _ X); [|done]. pose proof (ex_order _ _ _ _ _ _ X). lia. }
  destruct (out_of_order om lo b l i false) as [j|] eqn:E1; [by apply Hstep|].
  destruct (out_of_order om lo b l i true) as [j|] eqn:E2; [by apply Hstep|].
  apply IH; [done..|lia|]. lia.
Qed.
Lemma count_inbranches_bound l n : (n < length l)%nat -> count_inbranches l !!! n < Z.of_nat (length l).
Proof.
  intros Hn. destruct n as [|n].
  - unfold count_inbranches. assert (H : forall bs b, b !!! 0%nat = -1 -> foldl (fun b '(i, j) => count_inbranch i b j) b bs !!! 0%nat = -1).
    { induction bs as [|[i j] bs IH]; intros b Hb; [done|]. cbn [foldl]. apply IH. unfold count_inbranch.
      destruct (Z.ltb_spec 0 j); [|done]. rewrite list_lookup_total_insert_ne by lia. done. }
    rewrite H; [lia|]. destruct (length l); [lia|done].
  - unfold count_inbranches. destruct (count_inbranches_value (length l) (branches l) (S n) ltac:(lia)) as [-> _].
    destruct (into (S n) (branches l)) as [|[i x] [|]] eqn:E; [lia| |lia].
    assert (Hin : (i, x) ∈ into (S n) (branches l)) by (rewrite E; apply list_elem_of_here).
    apply list_elem_of_filter in Hin as [_ Hin]. unfold branches in Hin. apply list_elem_of_In, in_concat in Hin as (c & Hc & Hin).
    apply list_elem_of_In, elem_of_lookup_imap in Hc as (m & e & -> & He). apply lookup_lt_Some in He.
    destruct Hin as [[= -> _]|[[= -> _]|[]]]; lia.
Qed.
Lemma bubble_sort_run om lo l :
  forward l -> exists l', bubble_sort_and_exprs om lo l = Some l' /\ bubble_keeps l l'.
Proof.
  intros Hf. apply bubble_loop_run; [done|apply count_inbranches_single|apply count_inbranches_bound|lia|].
  pose proof (inversions_bound (before om) (map i_test l)) as H. rewrite length_map in H. unfold bubble_fuel. nia.
Qed.
(** C39: [bubble_sort_and_exprs] ends (every exchange removes an inversion), and the program it
    leaves has the same tests in another order and sends every packet where the old one does,
    whatever the instructions test, short packets included. *)
Theorem bubble_sort_preserves om lo l :
  forward l -> exists l', bubble_sort_and_exprs om lo l = Some l' /\ bubble_keeps l l'.
Proof. apply bubble_sort_run. Qed.

(** ** [remove_unused_states] *)
Lemma skip_jump_out d j : j <= 0 -> skip_jump d j = j.
Proof. intros. unfold skip_jump. by rewrite (proj2 (Z.ltb_ge 0 j)). Qed.
Lemma skip_jump_in d j : 0 < j -> skip_jump d j = d !!! Z.to_nat j.
Proof. intros. unfold skip_jump. by rewrite (proj2 (Z.ltb_lt 0 j)). Qed.

(** *** Uninteresting instructions are skipped *)
Definition destination_of (d : list Z) (i : nat) (e : Insn) : Z :=
  if interesting e then Z.of_nat i else if i_yes e <=? 0 then i_yes e else d !!! Z.to_nat (i_yes e).
Definition skipped (d : list Z) (i : nat) (e e' : Insn) : Prop :=
  i_test e' = i_test e /\ (forall k, in_j e' k = skip_jump d (in_j e k)) /\ d !!! i = destination_of d i e'.
Lemma skip_jump_agree (d d' : list Z) n i j :
  jump_ok n i j -> (forall m, (i < m)%nat -> d !! m = d' !! m) -> skip_jump d j = skip_jump d' j.
Proof.
  intros [Hj|Hj] Hd; [by rewrite !skip_jump_out|]. rewrite !skip_jump_in by lia. rewrite !list_lookup_total_alt. by rewrite Hd by lia.
Qed.
Lemma destination_agree d d' n i e :
  (forall k, jump_ok n i (in_j e k)) -> (forall m, (i < m)%nat -> d !! m = d' !! m) ->
  destination_of d i e = destination_of d' i e.
Proof.
  intros He Hd. unfold destination_of. destruct (interesting e); [done|]. destruct (Z.leb_spec (i_yes e) 0); [done|].
  destruct (He true) as [|Hj]; [cbn in *; lia|]. cbn in Hj. rewrite !list_lookup_total_alt. by rewrite Hd by lia.
Qed.
Lemma skip_loop_spec n l d l' d' :
  skip_loop n l d = (l', d') -> (n <= length l)%nat -> length d = length l -> forward l ->
  (forall m, (n <= m < length l)%nat -> d !!! m <= 0 \/ Z.of_nat m <= d !!! m < Z.of_nat (length l)) ->
  length l' = length l /\ length d' = length l /\ (forall m, (n <= m)%nat -> l' !! m = l !! m /\ d' !! m = d !! m) /\
  (forall m, (m < length l)%nat -> d' !!! m <= 0 \/ Z.of_nat m <= d' !!! m < Z.of_nat (length l)) /\
  (forall i e, (i < n)%nat -> l !! i = Some e -> exists e', l' !! i = Some e' /\ skipped d' i e e').
Proof.
  revert l d. induction n as [|i IH]; intros l d E Hn Hl Hf Hd; cbn [skip_loop] in E.
  { injection E as <- <-. repeat split; try done; [intros; apply Hd; lia|lia]. }
  destruct (lookup_lt_is_Some_2 l i ltac:(lia)) as [e He].
  rewrite (list_lookup_total_correct _ _ _ He) in E. set (e' := MkInsn _ _ _) in E.
  assert (Hje : forall k, in_j e' k = skip_jump d (in_j e k)) by (by intros []).
  assert (Hte : i_test e' = i_test e) by done.
  assert (Hok : forall k, jump_ok (length l) i (in_j e' k)).
  { intros k. rewrite Hje. destruct (Hf i e He k) as [Hj|Hj]; [rewrite skip_jump_out by done; by left|].
    rewrite skip_jump_in by lia. destruct (Hd (Z.to_nat (in_j e k)) ltac:(lia)); [by left|right; lia]. }
  change (if interesting e' then Z.of_nat i else if i_yes e' <=? 0 then i_yes e' else d !!! Z.to_nat (i_yes e'))
    with (destination_of d i e') in E.
  clearbody e'.
  assert (Hdi : destination_of d i e' <= 0 \/ Z.of_nat i <= destination_of d i e' < Z.of_nat (length l)).
  { unfold destination_of. destruct (interesting e'); [right; lia|]. destruct (Z.leb_spec (i_yes e') 0); [by left|].
    destruct (Hok true) as [|Hj]; [cbn in *; lia|]. cbn in Hj. destruct (Hd (Z.to_nat (i_yes e')) ltac:(lia)); [by left|right; lia]. }
  destruct (IH _ _ E) as (Hl' & Hd' & Hsame & Hrange & Hsk).
  - rewrite length_insert. lia.
  - by rewrite !length_insert.
  - intros m em Hm k. rewrite length_insert. destruct (decide (m = i)) as [-> |Hne].
    + rewrite list_lookup_insert_eq in Hm by lia. injection Hm as <-. apply Hok.
    + rewrite list_lookup_insert_ne in Hm by done. by apply Hf.
  - intros m Hm. rewrite length_insert in Hm |- *. destruct (decide (m = i)) as [-> |Hne].
    + rewrite list_lookup_total_insert_eq by lia. done.
    + rewrite list_lookup_total_insert_ne by done. apply Hd. lia.
  - rewrite !length_insert in *. split; [done|]. split; [done|].
    assert (Hafter : forall m, (i < m)%nat -> d !! m = d' !! m).
    { intros m Hm. destruct (Hsame m ltac:(lia)) as [_ ->]. by rewrite list_lookup_insert_ne by lia. }
    split; [|split].
    + intros m Hm. destruct (Hsame m ltac:(lia)) as [-> ->]. by rewrite !list_lookup_insert_ne by lia.
    + done.
    + intros m em Hm Hem. destruct (decide (m = i)) as [-> |Hne].
      * rewrite He in Hem. injection Hem as <-. exists e'. destruct (Hsame i ltac:(lia)) as [-> Ed].
        split; [by apply list_lookup_insert_eq; lia|]. split; [done|]. split.
        -- intros k. rewrite Hje. eapply skip_jump_agree; [by apply (Hf i e He)|done].
        -- rewrite (list_lookup_total_alt d'), Ed, list_lookup_insert_eq by lia. cbn.
           eapply destination_agree; [exact Hok|done].
      * apply Hsk; [lia|]. by rewrite list_lookup_insert_ne.
Qed.

Section Skip.
Context (l l' : list Insn) (d : list Z) (Hf : forward l) (Hll : length l' = length l).
Context (Hrange : forall m, (m < length l)%nat -> d !!! m <= 0 \/ Z.of_nat m <= d !!! m < Z.of_nat (length l)).
Context (Hsk : forall i e, l !! i = Some e -> exists e', l' !! i = Some e' /\ skipped d i e e').

Lemma skip_insn i e' : l' !! i = Some e' -> exists e, l !! i = Some e /\ skipped d i e e'.
Proof.
  intros He'. destruct (lookup_lt_is_Some_2 l i) as [e He]; [rewrite <- Hll; by eapply lookup_lt_Some|].
  destruct (Hsk i e He) as (e'' & He'' & Hs). exists e. split; [done|]. congruence.
Qed.
Lemma skip_jumps i e' k : l' !! i = Some e' -> jump_ok (length l) i (in_j e' k).
Proof.
  intros He'. destruct (skip_insn i e' He') as (e & He & _ & Hj & _). rewrite Hj.
  destruct (Hf i e He k) as [Hx|Hx]; [rewrite skip_jump_out by done; by left|]. rewrite skip_jump_in by lia.
  destruct (Hrange (Z.to_nat (in_j e k)) ltac:(lia)); [by left|right; lia].
Qed.
Lemma skip_forward : forward l'.
Proof. intros i e' He' k. rewrite Hll. by eapply skip_jumps. Qed.
(** A destination is an interesting instruction, its own destination, or out of the program. *)
Lemma skip_destination i : (i < length l)%nat -> 0 < d !!! i ->
  exists e', l' !! Z.to_nat (d !!! i) = Some e' /\ interesting e' = true.
Proof.
  revert i. apply (backward_ind _ (fun i => 0 < d !!! i -> exists e', l' !! Z.to_nat (d !!! i) = Some e' /\ interesting e' = true)).
  intros i Hi IH Hpos. destruct (lookup_lt_is_Some_2 l' i ltac:(lia)) as [e' He'].
  destruct (skip_insn i e' He') as (e & He & _ & _ & Hd). rewrite Hd in *. unfold destination_of in *.
  destruct (interesting e') eqn:Eint; [exists e'; by rewrite Nat2Z.id|].
  destruct (Z.leb_spec (i_yes e') 0); [lia|]. destruct (skip_jumps i e' true He') as [|Hj]; cbn in *; [lia|]. apply IH; [lia|done].
Qed.
Lemma skip_target i e' k : l' !! i = Some e' -> 0 < in_j e' k ->
  exists e2, l' !! Z.to_nat (in_j e' k) = Some e2 /\ interesting e2 = true.
Proof.
  intros He' Hpos. destruct (skip_insn i e' He') as (e & He & _ & Hj & _). rewrite Hj in *.
  destruct (Hf i e He k) as [Hx|Hx]; [rewrite skip_jump_out in Hpos by done; lia|]. rewrite skip_jump_in in * by lia.
  apply skip_destination; [lia|done].
Qed.

Context (test : Test -> bool) (Hmask : forall t, i_mask t = 0 -> test t = true).
Lemma uninteresting_yes e : interesting e = false -> in_j e (test (i_test e)) = i_yes e.
Proof.
  unfold interesting. rewrite andb_false_iff, !negb_false_iff, !Z.eqb_eq. intros [E|E].
  - by destruct (test (i_test e)).
  - by rewrite Hmask.
Qed.
(** A skipped instruction behaves as before, and so does its destination. *)
Lemma skip_runs i r : (i < length l)%nat -> runs test l i r ->
  runs test l' i r /\ (d !!! i <> Z.of_nat i -> lands test l' (d !!! i) r).
Proof.
  intros Hi. revert i Hi r.
  apply (backward_ind _ (fun i => forall r, runs test l i r -> runs test l' i r /\ (d !!! i <> Z.of_nat i -> lands test l' (d !!! i) r))).
  intros i Hi IH r (e & He & Hr). destruct (Hsk i e He) as (e' & He' & Ht & Hj & Hd).
  assert (Hnext : forall k, lands test l (in_j e k) r -> lands test l' (in_j e' k) r).
  { intros k Hk. rewrite Hj. destruct (Hf i e He k) as [Hx|Hx].
    - rewrite skip_jump_out by done. inversion Hk; subst; [by apply lands_out|lia].
    - rewrite skip_jump_in by lia. apply lands_runs in Hk; [|lia].
      destruct (IH (Z.to_nat (in_j e k)) ltac:(lia) r Hk) as [H1 H2].
      destruct (decide (d !!! Z.to_nat (in_j e k) = Z.of_nat (Z.to_nat (in_j e k)))) as [Eq|Hne]; [|by apply H2].
      rewrite Eq. apply runs_lands; [lia|]. by rewrite Nat2Z.id. }
  assert (Hruns : runs test l' i r) by (exists e'; rewrite Ht; split; [done|by apply Hnext]).
  split; [exact Hruns|]. rewrite Hd. unfold destination_of.
  destruct (interesting e') eqn:Eint; [done|]. intros Hne.
  assert (Hyes : lands test l' (i_yes e') r).
  { destruct Hruns as (e2 & He2 & Hl). rewrite He' in He2. injection He2 as <-. by rewrite uninteresting_yes in Hl. }
  destruct (Z.leb_spec (i_yes e') 0) as [|Hpos]; [done|].
  pose proof (Hj true) as Hjy. cbn [in_j] in Hjy. destruct (Hf i e He true) as [Hx|Hx]; cbn [in_j] in Hx.
  { rewrite skip_jump_out in Hjy by done. lia. }
  rewrite skip_jump_in in Hjy by lia.
  destruct (skip_destination (Z.to_nat (i_yes e)) ltac:(lia) ltac:(lia)) as (e3 & He3 & Hint). rewrite <- Hjy in He3.
  destruct (skip_insn _ e3 He3) as (e4 & _ & _ & _ & Hd3). unfold destination_of in Hd3. rewrite Hint in Hd3.
  rewrite Hd3, Z2Nat.id by lia. exact Hyes.
Qed.
End Skip.

(** *** The first instruction *)
(** The program after the first two steps: all jumps lead to interesting instructions, and so
    does the start. *)
Definition trimmed (l : list Insn) : Prop :=
  forward l /\ (exists e, l !! 0%nat = Some e /\ interesting e = true) /\
  forall i e k, l !! i = Some e -> 0 < in_j e k -> exists e', l !! Z.to_nat (in_j e k) = Some e' /\ interesting e' = true.

(** Nothing jumps to the first instruction. *)
Lemma insert_first_runs test l e2 i r :
  forward l -> (0 < i)%nat -> runs test l i r -> runs test (<[0%nat:=e2]> l) i r.
Proof.
  intros Hf Hi0 Hr. assert (Hi : (i < length l)%nat) by (destruct Hr as (? & ? & _); by eapply lookup_lt_Some).
  revert i Hi Hi0 r Hr. apply (backward_ind _ (fun i => (0 < i)%nat -> forall r, runs test l i r -> runs test (<[0%nat:=e2]> l) i r)).
  intros i Hi IH Hi0 r (ei & Hei & Hl). exists ei. rewrite list_lookup_insert_ne by lia. split; [done|].
  apply (lands_mono test l); [|done]. intros Hx. destruct (Hf i ei Hei (test (i_test ei))) as [|Hx']; [lia|]. apply IH; lia.
Qed.
Lemma trimmed_copy_first l i e :
  forward l -> (0 < i)%nat -> l !! i = Some e -> interesting e = true ->
  (forall i e k, l !! i = Some e -> 0 < in_j e k -> exists e', l !! Z.to_nat (in_j e k) = Some e' /\ interesting e' = true) ->
  trimmed (<[0%nat:=e]> l) /\ forall test r, runs test l i r -> runs test (<[0%nat:=e]> l) 0 r.
Proof.
  intros Hf Hi He Hint Htarget. pose proof (lookup_lt_Some _ _ _ He) as Hlen.
  assert (Hkeep : forall m, m <> 0%nat -> <[0%nat:=e]> l !! m = l !! m) by (intros; by apply list_lookup_insert_ne).
  assert (Hfirst : <[0%nat:=e]> l !! 0%nat = Some e) by (apply list_lookup_insert_eq; lia).
  split; [split; [|split]|].
  - intros m em Hem k. rewrite length_insert. destruct m as [|m].
    + rewrite Hfirst in Hem. injection Hem as <-. destruct (Hf _ _ He k) as [|Hx]; [by left|right; lia].
    + rewrite Hkeep in Hem by done. by apply Hf.
  - by exists e.
  - intros m em k Hem Hk. rewrite Hkeep by lia. destruct m as [|m].
    + rewrite Hfirst in Hem. injection Hem as <-. by apply (Htarget i e k).
    + rewrite Hkeep in Hem by done. by apply (Htarget (S m) em k).
  - intros test r (e3 & He3 & Hl). rewrite He in He3. injection He3 as <-. exists e. split; [done|].
    apply (lands_mono test l); [|done]. intros Hx r0. apply insert_first_runs; [done|lia].
Qed.
Lemma check_first_spec l l' d test :
  l <> [] -> forward l -> skip_loop (length l) l (replicate (length l) (-1)) = (l', d) ->
  (forall t, i_mask t = 0 -> test t = true) ->
  let '(l2, oe) := check_first l' d in
  length l2 = length l /\
  (forall r, runs test l 0 r -> (0 <= oe /\ r = - oe) \/ (oe = -1 /\ trimmed l2 /\ runs test l2 0 r)) /\
  (forall e, e ∈ l2 -> exists e0, e0 ∈ l /\ i_test e = i_test e0).
Proof.
  intros Hne Hf E Hmask.
  destruct (skip_loop_spec _ _ _ _ _ E) as (Hll & Hld & _ & Hrange & Hsk); [lia|by rewrite length_replicate|done|lia|].
  assert (Hn : (0 < length l)%nat) by (destruct l; [done|cbn; lia]).
  assert (Hsk' : forall i e, l !! i = Some e -> exists e', l' !! i = Some e' /\ skipped d i e e')
    by (intros i e He; apply Hsk; [by eapply lookup_lt_Some|done]).
  assert (Htests : forall e, e ∈ l' -> exists e0, e0 ∈ l /\ i_test e = i_test e0).
  { intros e [i He]%list_elem_of_lookup. destruct (skip_insn l l' d Hll Hsk' i e He) as (e0 & He0 & Ht & _).
    exists e0. split; [by eapply list_elem_of_lookup_2|done]. }
  pose proof (skip_forward l l' d Hf Hll Hrange Hsk') as Hf'.
  pose proof (skip_target l l' d Hf Hll Hrange Hsk') as Htarget.
  pose proof (fun r => skip_runs l l' d Hf Hll Hrange Hsk' test Hmask 0 r Hn) as Hruns.
  destruct (lookup_lt_is_Some_2 l' 0 ltac:(lia)) as [e' He'].
  destruct (skip_insn l l' d Hll Hsk' 0 e' He') as (e & He & Ht & Hj & Hd).
  unfold check_first. rewrite (list_lookup_total_correct _ _ _ He').
  destruct (Z.ltb_spec 0 (d !!! 0%nat)) as [Hpos|Hpos].
  { destruct (skip_destination l l' d Hf Hll Hrange Hsk' 0 Hn Hpos) as (e2 & He2 & Hint).
    rewrite (list_lookup_total_correct _ _ _ He2). split; [by rewrite length_insert|].
    destruct (trimmed_copy_first l' (Z.to_nat (d !!! 0%nat)) e2 Hf' ltac:(lia) He2 Hint Htarget) as [Htr Hcopy]. split.
    - intros r Hr. right. split; [done|]. split; [done|]. apply Hcopy. apply lands_runs; [done|]. apply Hruns; [done|lia].
    - intros e0 [i Hi]%list_elem_of_lookup. apply Htests. destruct i as [|i].
      + rewrite list_lookup_insert_eq in Hi by lia. injection Hi as <-. by eapply list_elem_of_lookup_2.
      + rewrite list_lookup_insert_ne in Hi by done. by eapply list_elem_of_lookup_2. }
  rewrite Hd in *. unfold destination_of in *. destruct (interesting e') eqn:Eint.
  { rewrite (proj2 (Z.ltb_ge _ 0)) by done.
    assert ((i_yes e' =? 0) && ((i_no e' =? 0) || (i_mask (i_test e') =? 0)) = false) as ->.
    { unfold interesting in Eint. rewrite andb_true_iff, !negb_true_iff, !Z.eqb_neq in Eint.
      destruct (Z.eqb_spec (i_yes e') 0), (Z.eqb_spec (i_no e') 0), (Z.eqb_spec (i_mask (i_test e')) 0); try done; lia. }
    split; [done|]. split; [|done]. intros r Hr. right. split; [done|]. split; [|by apply Hruns].
    split; [done|]. split; [by exists e'|done]. }
  assert (Hyes : forall r, runs test l 0 r -> lands test l' (i_yes e') r).
  { intros r Hr. destruct (proj1 (Hruns r Hr)) as (e2 & He2 & Hl). rewrite He' in He2. injection He2 as <-.
    by rewrite (uninteresting_yes test Hmask) in Hl. }
  destruct (Z.leb_spec (i_yes e') 0) as [Hy|Hy].
  2: { exfalso.
    destruct (Htarget 0%nat e' true He' Hy) as (e3 & He3 & Hint). cbn [in_j] in He3.
    destruct (skip_insn l l' d Hll Hsk' _ e3 He3) as (e4 & _ & _ & _ & Hd3). unfold destination_of in Hd3. rewrite Hint in Hd3.
    lia. }
  destruct (Z.ltb_spec (i_yes e') 0) as [Hneg|Hneg].
  { split; [done|]. split; [|done]. intros r Hr. left. split; [lia|]. specialize (Hyes r Hr). inversion Hyes; subst; lia. }
  assert (i_yes e' = 0) as Hy0 by lia. rewrite Hy0. cbn [Z.eqb andb].
  assert ((i_no e' =? 0) || (i_mask (i_test e') =? 0) = true) as ->.
  { unfold interesting in Eint. rewrite andb_false_iff, !negb_false_iff, !Z.eqb_eq in Eint. apply orb_true_iff. rewrite !Z.eqb_eq.
    destruct Eint; [left; congruence|by right]. }
  split; [done|]. split; [|done]. intros r Hr. left. split; [done|]. specialize (Hyes r Hr). rewrite Hy0 in Hyes. inversion Hyes; subst; lia.
Qed.

(** *** The reachable instructions are numbered in order *)
Definition unvisited (R : list Z) (i : nat) : Prop := forall a, (i <= a < length R)%nat -> R !!! a = -1 \/ R !!! a = 0.
Lemma reach_length R j : length (reach R j) = length R.
Proof. unfold reach. destruct (0 <? j); [apply length_insert|done]. Qed.
Lemma reach_value R j a : (a < length R)%nat ->
  reach R j !!! a = if decide (0 < j /\ a = Z.to_nat j) then 0 else R !!! a.
Proof.
  intros Ha. unfold reach. destruct (Z.ltb_spec 0 j) as [Hj|Hj].
  - destruct (decide (a = Z.to_nat j)) as [-> |Hne].
    + rewrite decide_True by done. by apply list_lookup_total_insert_eq.
    + rewrite decide_False by tauto. by apply list_lookup_total_insert_ne.
  - by rewrite decide_False by lia.
Qed.
Record numbered (l : list Insn) (R R' : list Z) (i c m : nat) : Prop := {
  nu_length : length R' = length l;
  nu_count : (c <= m)%nat;
  nu_before : forall a, (a < i)%nat -> R' !!! a = R !!! a;
  nu_range : forall a, (i <= a < length l)%nat ->
    R' !!! a = -1 \/ (Z.of_nat c <= R' !!! a < Z.of_nat m /\ R' !!! a - Z.of_nat c <= Z.of_nat a - Z.of_nat i);
  nu_order : forall a b, (i <= a < b)%nat -> (b < length l)%nat -> 0 <= R' !!! a -> 0 <= R' !!! b -> R' !!! a < R' !!! b;
  nu_onto : forall v, (c <= v < m)%nat -> exists a, (i <= a < length l)%nat /\ R' !!! a = Z.of_nat v;
  nu_keeps : forall a, (i <= a < length l)%nat -> 0 <= R !!! a -> 0 <= R' !!! a;
  nu_closed : forall a e k, (i <= a)%nat -> l !! a = Some e -> 0 <= R' !!! a -> 0 < in_j e k -> 0 <= R' !!! Z.to_nat (in_j e k);
  nu_origin : forall a, (i <= a < length l)%nat -> 0 <= R' !!! a ->
    0 <= R !!! a \/ exists b e k, l !! b = Some e /\ 0 < in_j e k /\ in_j e k = Z.of_nat a
}.
Lemma reach_loop_spec l k i R c R' m :
  reach_loop (seq i k) l R c = (R', m) -> (i + k = length l)%nat -> length R = length l -> forward l -> unvisited R i ->
  numbered l R R' i c m.
Proof.
  revert i R c. induction k as [|k IH]; intros i R c E Hik HR Hf Hu; cbn [seq reach_loop] in E.
  { injection E as <- <-. split; try done; try (intros; lia). intros a e b Ha He. apply lookup_lt_Some in He. lia. }
  destruct (lookup_lt_is_Some_2 l i ltac:(lia)) as [e He]. rewrite (list_lookup_total_correct _ _ _ He) in E.
  destruct (Z.leb_spec 0 (R !!! i)) as [Hi|Hi].
  - set (R2 := reach (reach (<[i:=Z.of_nat c]> R) (i_no e)) (i_yes e)) in E.
    assert (HR2 : length R2 = length l) by (unfold R2; by rewrite !reach_length, length_insert).
    assert (Hj : forall k, 0 < in_j e k -> (i < Z.to_nat (in_j e k) < length l)%nat).
    { intros b Hb. destruct (Hf i e He b); lia. }
    pose proof (Hj true) as Hjy. pose proof (Hj false) as Hjn. cbn [in_j] in Hjy, Hjn.
    assert (Hv : forall a, (a < length l)%nat -> R2 !!! a =
      if decide ((0 < i_yes e /\ a = Z.to_nat (i_yes e)) \/ (0 < i_no e /\ a = Z.to_nat (i_no e))) then 0
      else if decide (a = i) then Z.of_nat c else R !!! a).
    { intros a Ha. unfold R2. rewrite !reach_value by (rewrite ?reach_length, ?length_insert; lia).
      destruct (decide (0 < i_yes e /\ a = Z.to_nat (i_yes e))); [rewrite decide_True by tauto; done|].
      destruct (decide (0 < i_no e /\ a = Z.to_nat (i_no e))); [rewrite decide_True by tauto; done|].
      rewrite decide_False by tauto. destruct (decide (a = i)) as [-> |]; [by apply list_lookup_total_insert_eq; lia|].
      by apply list_lookup_total_insert_ne. }
    assert (Hvi : R2 !!! i = Z.of_nat c) by (rewrite Hv, decide_False, decide_True by lia; done).
    assert (Hu2 : unvisited R2 (S i)).
    { intros a Ha. rewrite HR2 in Ha. rewrite Hv by lia. destruct (decide _); [by right|]. rewrite decide_False by lia. apply Hu. lia. }
    destruct (IH (S i) R2 (S c) E ltac:(lia) HR2 Hf Hu2) as [N1 N2 N3 N4 N5 N6 N7 N8 N9].
    pose proof (N3 i ltac:(lia)) as Ei. rewrite Hvi in Ei.
    split; [done|lia|..].
    + intros a Ha. rewrite N3, Hv, decide_False, decide_False by lia. done.
    + intros a Ha. destruct (decide (a = i)) as [-> |]; [right; lia|]. destruct (N4 a ltac:(lia)); [by left|right; lia].
    + intros a b Hab Hb Ha0 Hb0. destruct (decide (a = i)) as [-> |]; [|apply N5; lia]. destruct (N4 b ltac:(lia)); lia.
    + intros v Hvv. destruct (decide (v = c)) as [-> |]; [exists i; split; [lia|done]|].
      destruct (N6 v ltac:(lia)) as (a & Ha & Ea). exists a. split; [lia|done].
    + intros a Ha H0. destruct (decide (a = i)) as [-> |]; [lia|]. apply N7; [lia|]. rewrite Hv by lia.
      destruct (decide _); [lia|]. by rewrite decide_False.
    + intros a ea b Ha Hea H0 Hb. destruct (decide (a = i)) as [-> |]; [|by apply (N8 a ea b); [lia|..]].
      rewrite He in Hea. injection Hea as <-. specialize (Hj b Hb). apply N7; [lia|]. rewrite Hv by lia.
      rewrite decide_True; [lia|]. destruct b; cbn [in_j] in *; [by left|by right].
    + intros a Ha H0. destruct (decide (a = i)) as [-> |]; [by left|].
      destruct (N9 a ltac:(lia) H0) as [H2|H2]; [|by right]. rewrite Hv in H2 by lia.
      destruct (decide _) as [[[Hy Ey]|[Hy Ey]]|]; [right; exists i, e, true|right; exists i, e, false|left]; cbn [in_j]; [split; [done|lia]..|].
      by rewrite decide_False in H2 by lia.
  - assert (Hm : R !!! i = -1) by (destruct (Hu i ltac:(lia)); lia).
    assert (Hu2 : unvisited R (S i)) by (intros a Ha; apply Hu; lia).
    destruct (IH (S i) R c E ltac:(lia) HR Hf Hu2) as [N1 N2 N3 N4 N5 N6 N7 N8 N9].
    pose proof (N3 i ltac:(lia)) as Ei. rewrite Hm in Ei.
    split; [done|lia|..].
    + intros a Ha. apply N3. lia.
    + intros a Ha. destruct (decide (a = i)) as [-> |]; [by left|]. destruct (N4 a ltac:(lia)); [by left|right; lia].
    + intros a b Hab Hb Ha0 Hb0. destruct (decide (a = i)) as [-> |]; [lia|]. apply N5; lia.
    + intros v Hvv. destruct (N6 v ltac:(lia)) as (a & Ha & Ea). exists a. split; [lia|done].
    + intros a Ha H0. destruct (decide (a = i)) as [-> |]; [lia|]. apply N7; [lia|done].
    + intros a ea b Ha Hea H0 Hb. destruct (decide (a = i)) as [-> |]; [lia|]. by apply (N8 a ea b); [lia|..].
    + intros a Ha H0. destruct (decide (a = i)) as [-> |]; [lia|]. apply N9; [lia|done].
Qed.

(** *** And moved to their places *)
Definition renumber (R : list Z) (e : Insn) : Insn :=
  MkInsn (i_test e) (skip_jump R (i_no e)) (skip_jump R (i_yes e)).
Lemma renumber_j R e k : in_j (renumber R e) k = skip_jump R (in_j e k).
Proof. by destruct k. Qed.
Lemma move_loop_spec R k i l :
  (i + k = length l)%nat ->
  (forall a, (i <= a < length l)%nat -> R !!! a <= Z.of_nat a) ->
  (forall a b, (i <= a < b)%nat -> (b < length l)%nat -> 0 <= R !!! a -> 0 <= R !!! b -> R !!! a < R !!! b) ->
  length (move_loop (seq i k) l R) = length l /\
  (forall p, (forall a, (i <= a < length l)%nat -> R !!! a <> Z.of_nat p) -> move_loop (seq i k) l R !! p = l !! p) /\
  (forall a e, (i <= a)%nat -> l !! a = Some e -> 0 <= R !!! a ->
     move_loop (seq i k) l R !! Z.to_nat (R !!! a) = Some (renumber R e)).
Proof.
  revert i l. induction k as [|k IH]; intros i l Hik Hle Hord; cbn [seq move_loop].
  { split; [done|]. split; [done|]. intros a e Ha He. apply lookup_lt_Some in He. lia. }
  destruct (lookup_lt_is_Some_2 l i ltac:(lia)) as [e He]. rewrite (list_lookup_total_correct _ _ _ He).
  fold (renumber R e). destruct (Z.leb_spec 0 (R !!! i)) as [Hi|Hi].
  - set (l1 := <[Z.to_nat (R !!! i):=renumber R e]> l).
    assert (Hl1 : length l1 = length l) by apply length_insert.
    destruct (IH (S i) l1) as (M1 & M2 & M3); [lia|rewrite Hl1; intros; apply Hle; lia|rewrite Hl1; intros; apply Hord; lia|].
    rewrite Hl1 in *. pose proof (Hle i ltac:(lia)) as Hlei. split; [done|]. split.
    + intros p Hp. rewrite M2 by (intros; apply Hp; lia). apply list_lookup_insert_ne. intros E. apply (Hp i); lia.
    + intros a ea Ha Hea H0. destruct (decide (a = i)) as [-> |].
      * rewrite He in Hea. injection Hea as <-. rewrite M2.
        -- apply list_lookup_insert_eq. lia.
        -- intros b Hb E. assert (R !!! i < R !!! b) by (apply Hord; lia). lia.
      * apply M3; [lia| |done]. unfold l1. rewrite list_lookup_insert_ne by lia. done.
  - destruct (IH (S i) l) as (M1 & M2 & M3); [lia|intros; apply Hle; lia|intros; apply Hord; lia|].
    split; [done|]. split.
    + intros p Hp. apply M2. intros; apply Hp; lia.
    + intros a ea Ha Hea H0. destruct (decide (a = i)) as [-> |]; [lia|]. by apply M3; [lia|..].
Qed.

Section Moved.
Context (l : list Insn) (R : list Z) (m : nat) (Ht : trimmed l).
Context (HN : numbered l (<[0%nat:=0]> (replicate (length l) (-1))) R 0 0 m).
Let l' := take m (move_loop (seq 0 (length l)) l R).

Lemma moved_nonempty : (0 < length l)%nat.
Proof. destruct Ht as (_ & (e & He & _) & _). by eapply lookup_lt_Some. Qed.
Lemma moved_first : R !!! 0%nat = 0.
Proof.
  pose proof moved_nonempty as Hn.
  pose proof (nu_keeps _ _ _ _ _ _ HN 0 ltac:(lia)) as H. rewrite list_lookup_total_insert_eq in H by (rewrite length_replicate; lia).
  destruct (nu_range _ _ _ _ _ _ HN 0 ltac:(lia)); lia.
Qed.
Lemma moved_le a : (a < length l)%nat -> R !!! a <= Z.of_nat a.
Proof. intros Ha. destruct (nu_range _ _ _ _ _ _ HN a ltac:(lia)); lia. Qed.
Lemma moved_count : (0 < m <= length l)%nat.
Proof.
  pose proof moved_nonempty as Hn. pose proof moved_first as H0.
  destruct (nu_range _ _ _ _ _ _ HN 0 ltac:(lia)) as [|[H1 _]]; [lia|].
  destruct (nu_onto _ _ _ _ _ _ HN (m - 1) ltac:(lia)) as (a & Ha & E). pose proof (moved_le a ltac:(lia)). lia.
Qed.
Lemma moved_length : length l' = m.
Proof.
  unfold l'. rewrite length_take_le; [done|].
  destruct (move_loop_spec R (length l) 0 l) as (-> & _ & _); [lia|intros; apply moved_le; lia| |apply moved_count].
  intros a b Hab Hb. apply (nu_order _ _ _ _ _ _ HN); lia.
Qed.
Lemma moved_insn a e : l !! a = Some e -> 0 <= R !!! a -> l' !! Z.to_nat (R !!! a) = Some (renumber R e).
Proof.
  intros He Ha. pose proof (lookup_lt_Some _ _ _ He) as Hlt. unfold l'.
  destruct (nu_range _ _ _ _ _ _ HN a ltac:(lia)) as [|[Hr _]]; [lia|]. rewrite lookup_take_lt by lia.
  destruct (move_loop_spec R (length l) 0 l) as (_ & _ & H); [lia|intros; apply moved_le; lia| |apply H; [lia|done|done]].
  intros b c Hbc Hc. apply (nu_order _ _ _ _ _ _ HN); lia.
Qed.
Lemma moved_inv p e' : l' !! p = Some e' ->
  exists a e, l !! a = Some e /\ R !!! a = Z.of_nat p /\ e' = renumber R e /\ interesting e = true.
Proof.
  intros He'. pose proof (lookup_lt_Some _ _ _ He') as Hp. rewrite moved_length in Hp.
  destruct (nu_onto _ _ _ _ _ _ HN p ltac:(lia)) as (a & Ha & E). destruct (lookup_lt_is_Some_2 l a ltac:(lia)) as [e He].
  exists a, e. split; [done|]. split; [done|]. pose proof (moved_insn a e He ltac:(lia)) as H. rewrite E, Nat2Z.id in H.
  split; [congruence|]. destruct Ht as (_ & (e0 & He0 & Hint0) & Htarget).
  destruct (nu_origin _ _ _ _ _ _ HN a ltac:(lia) ltac:(lia)) as [H0|(b & eb & k & Heb & Hpos & Hk)].
  - destruct a as [|a]; [congruence|]. rewrite list_lookup_total_insert_ne, lookup_total_replicate_2 in H0 by lia. lia.
  - destruct (Htarget b eb k Heb Hpos) as (e2 & He2 & Hint). rewrite Hk, Nat2Z.id in He2. congruence.
Qed.
Lemma moved_jump a e k :
  l !! a = Some e -> 0 <= R !!! a -> 0 < in_j e k ->
  skip_jump R (in_j e k) = R !!! Z.to_nat (in_j e k) /\ R !!! a < R !!! Z.to_nat (in_j e k) < Z.of_nat m.
Proof.
  intros He Ha Hk. rewrite skip_jump_in by done. split; [done|].
  destruct (proj1 Ht a e He k) as [|Hj]; [lia|].
  pose proof (nu_closed _ _ _ _ _ _ HN a e k ltac:(lia) He Ha Hk) as Hr.
  destruct (nu_range _ _ _ _ _ _ HN (Z.to_nat (in_j e k)) ltac:(lia)) as [|[H1 _]]; [lia|].
  split; [apply (nu_order _ _ _ _ _ _ HN); lia|lia].
Qed.
Lemma moved_forward : forward l'.
Proof.
  intros p e' He' k. destruct (moved_inv p e' He') as (a & e & He & E & -> & _). rewrite renumber_j, moved_length.
  destruct (Z.le_gt_cases (in_j e k) 0) as [|Hk]; [rewrite skip_jump_out by done; by left|].
  destruct (moved_jump a e k He ltac:(lia) ltac:(lia)) as [-> Hr]. right. lia.
Qed.
Lemma moved_runs test a r : 0 <= R !!! a -> runs test l a r -> runs test l' (Z.to_nat (R !!! a)) r.
Proof.
  intros Ha Hr. assert (Hlt : (a < length l)%nat) by (destruct Hr as (? & ? & _); by eapply lookup_lt_Some).
  revert a Hlt Ha r Hr.
  apply (backward_ind _ (fun a => 0 <= R !!! a -> forall r, runs test l a r -> runs test l' (Z.to_nat (R !!! a)) r)).
  intros a Hlt IH Ha r (e & He & Hl). exists (renumber R e). split; [by apply moved_insn|].
  rewrite renumber_j. cbn [i_test renumber]. set (k := test (i_test e)) in *.
  destruct (Z.le_gt_cases (in_j e k) 0) as [|Hk].
  - rewrite skip_jump_out by done. inversion Hl; subst; [by apply lands_out|lia].
  - destruct (moved_jump a e k He Ha ltac:(lia)) as [-> Hj]. apply runs_lands; [lia|].
    destruct (proj1 Ht a e He k) as [|Hx]; [lia|]. apply IH; [lia|lia|]. apply lands_runs; [lia|done].
Qed.
End Moved.

(** What [remove_unused_states] leaves. *)
Definition removed (test : Test -> bool) (l l' : list Insn) (oe r : Z) : Prop :=
  (0 <= oe /\ r = - oe) \/
  (oe = -1 /\ forward l' /\ runs test l' 0 r /\
   forall e, e ∈ l' -> i_mask (i_test e) <> 0 /\ exists e0, e0 ∈ l /\ i_test e = i_test e0).
Lemma remove_unused_states_run l oe0 test r :
  forward l -> (forall t, i_mask t = 0 -> test t = true) -> runs test l 0 r ->
  let '(l', oe) := remove_unused_states l oe0 in removed test l l' oe r.
Proof.
  intros Hf Hmask Hr. unfold remove_unused_states. destruct l as [|e0 l0]; [by destruct Hr as (? & ? & _)|].
  set (l := e0 :: l0) in *. assert (Hne : l <> []) by done.
  destruct (skip_loop (length l) l (replicate (length l) (-1))) as [l1 d] eqn:E1.
  pose proof (check_first_spec l l1 d test Hne Hf E1 Hmask) as Hfirst.
  destruct (check_first l1 d) as [l2 oe] eqn:E2. destruct (reach_loop _ _ _ _) as [R m] eqn:E3.
  destruct Hfirst as (Hl2 & Hruns & Htests).
  destruct (Hruns r Hr) as [Hout|(-> & Htr & Hr2)]; [by left|right]. split; [done|]. cbn [Z.ltb Z.compare] in E3.
  rewrite <- Hl2 in E3 |- *.
  assert (HN : numbered l2 (<[0%nat:=0]> (replicate (length l2) (-1))) R 0 0 m).
  { apply (reach_loop_spec _ (length l2)); [exact E3|lia|by rewrite length_insert, length_replicate|apply Htr|].
    intros a Ha. rewrite length_insert, length_replicate in Ha. destruct a as [|a].
    - right. apply list_lookup_total_insert_eq. rewrite length_replicate. lia.
    - left. rewrite list_lookup_total_insert_ne by done. apply lookup_total_replicate_2. lia. }
  split; [by eapply moved_forward|]. split.
  - pose proof (moved_runs l2 R m Htr HN test 0 r) as H. rewrite (moved_first l2 R m Htr HN) in H. by apply H.
  - intros e [p He]%list_elem_of_lookup. destruct (moved_inv l2 R m Htr HN p e He) as (a & e2 & He2 & _ & -> & Hint).
    unfold interesting in Hint. rewrite andb_true_iff, !negb_true_iff, !Z.eqb_neq in Hint. split; [apply Hint|].
    apply (Htests e2). by eapply list_elem_of_lookup_2.
Qed.
(** [remove_unused_states] keeps what the program does with every packet (an instruction
    without a mask always succeeds): either all packets have the output it reports, or the
    instructions left do what the old ones did, jump forward and all have a mask. *)
Theorem remove_unused_states_preserves l oe0 test r :
  forward l -> (forall t, i_mask t = 0 -> test t = true) -> runs test l 0 r ->
  let '(l', oe) := remove_unused_states l oe0 in removed test l l' oe r.
Proof. apply remove_unused_states_run. Qed.

(** ** [combine_compatible_states] *)
Definition test_ok (t : Test) : Prop :=
  0 <= i_mask t < 4294967296 /\ 0 <= i_value t /\ Z.land (i_value t) (i_mask t) = i_value t.

(** *** Bits *)
Lemma one_bit_power m : 0 < m < 4294967296 -> one_bit m = true -> exists k, 0 <= k /\ m = 2 ^ k.
Proof.
  intros Hm H. unfold one_bit in H. apply Z.eqb_eq in H. rewrite u32_small in H by lia.
  exists (Z.log2 m). split; [apply Z.log2_nonneg|]. destruct (Z.log2_spec m ltac:(lia)) as [H1 H2].
  destruct (Z.eq_dec m (2 ^ Z.log2 m)) as [|Hne]; [done|]. exfalso.
  assert (Hb : Z.testbit (Z.land m (m - 1)) (Z.log2 m) = true).
  { rewrite Z.land_spec, Z.bit_log2 by lia. pose proof (Z.log2_nonneg m) as H0.
    replace (Z.log2 m) with (Z.log2 (m - 1)) by (apply Z.log2_unique; lia). by rewrite Z.bit_log2 by lia. }
  by rewrite H, Z.bits_0 in Hb.
Qed.
Lemma range32_bits x : 0 <= x < 4294967296 <-> 0 <= x /\ forall n, 32 <= n -> Z.testbit x n = false.
Proof.
  split.
  - intros Hx. split; [lia|]. intros n Hn. rewrite <- (Z.mod_small x (2 ^ 32)) by lia. by apply Z.mod_pow2_bits_high.
  - intros [Hx H]. split; [done|]. assert (x mod 2 ^ 32 = x) as <-; [|by apply Z.mod_pos_bound].
    apply Z.bits_inj'. intros n Hn. destruct (Z.lt_ge_cases n 32); [by apply Z.mod_pow2_bits_low|].
    by rewrite Z.mod_pow2_bits_high, H by lia.
Qed.
(** Equality of masked words, bit by bit. *)
Lemma land_eq_bits w m v :
  Z.land v m = v -> (Z.land w m =? v) = true <-> (forall n, 0 <= n -> Z.testbit m n = true -> Z.testbit w n = Z.testbit v n).
Proof.
  intros Hv. rewrite Z.eqb_eq. split.
  - intros <- n Hn Hm. by rewrite Z.land_spec, Hm, andb_true_r.
  - intros H. apply Z.bits_inj'. intros n Hn. rewrite <- Hv at 1. rewrite !Z.land_spec.
    destruct (Z.testbit m n) eqn:E; [|by rewrite !andb_false_r]. by rewrite H.
Qed.
Lemma data_test_bits al p t : test_ok t ->
  data_test al p t = true <->
  forall n, 0 <= n -> Z.testbit (i_mask t) n = true -> Z.testbit (word p (i_offset t - al)) n = Z.testbit (i_value t) n.
Proof. intros (_ & _ & Hv). by apply land_eq_bits. Qed.
Lemma value_bit t n : test_ok t -> 0 <= n -> Z.testbit (i_mask t) n = false -> Z.testbit (i_value t) n = false.
Proof. intros (_ & _ & Hv) Hn Hm. rewrite <- Hv, Z.land_spec, Hm. apply andb_false_r. Qed.
Lemma data_test_no_mask al p t : test_ok t -> i_mask t = 0 -> data_test al p t = true.
Proof. intros Hok Hm. apply data_test_bits; [done|]. intros n _. by rewrite Hm, Z.bits_0. Qed.

Lemma flippable_power t : test_ok t -> flippable t = true -> exists k, 0 <= k /\ i_mask t = 2 ^ k.
Proof.
  intros (Hm & _ & _) H. unfold flippable in H. apply andb_true_iff in H as [Hz%negb_true_iff%Z.eqb_neq H].
  apply one_bit_power; [lia|done].
Qed.
Lemma flip_ok e : test_ok (i_test e) -> test_ok (i_test (flip e)).
Proof.
  intros Hok. pose proof Hok as (Hm & Hv & Hland). unfold test_ok. cbn [i_test flip i_mask i_value]. split; [done|]. split; [apply Z.lxor_nonneg; lia|].
  apply Z.bits_inj'. intros n Hn. rewrite Z.land_spec, Z.lxor_spec.
  destruct (Z.testbit (i_mask (i_test e)) n) eqn:E; [by rewrite andb_true_r|].
  rewrite (value_bit (i_test e) n) by done. done.
Qed.
Lemma flip_test al p e :
  test_ok (i_test e) -> flippable (i_test e) = true -> data_test al p (i_test (flip e)) = negb (data_test al p (i_test e)).
Proof.
  intros Hok Hf. destruct (flippable_power _ Hok Hf) as (k & Hk & Em).
  assert (Hbit : forall t, i_mask t = 2 ^ k -> test_ok t -> data_test al p t = true <-> Z.testbit (word p (i_offset t - al)) k = Z.testbit (i_value t) k).
  { intros t Et Ht. rewrite data_test_bits, Et by done. split.
    - intros H. apply H; [done|]. by apply Z.pow2_bits_true.
    - intros H n Hn Hm. rewrite Z.pow2_bits_eqb in Hm by done. by apply Z.eqb_eq in Hm as <-. }
  pose proof (Hbit (i_test e) Em Hok) as H1. pose proof (Hbit (i_test (flip e)) Em (flip_ok e Hok)) as H2.
  revert H1 H2. generalize (data_test al p (i_test (flip e))) as b', (data_test al p (i_test e)) as b. clear Hbit.
  cbn [i_test flip i_offset i_value]. rewrite Em, Z.lxor_spec, Z.pow2_bits_true by done. intros b' b.
  generalize (Z.testbit (word p (i_offset (i_test e) - al)) k) as w, (Z.testbit (i_value (i_test e)) k) as v.
  by intros [] [] [H1 H1'] [H2 H2']; destruct b, b'; cbn in *; try done; try (by specialize (H1 eq_refl));
    try (by specialize (H1' eq_refl)); try (by specialize (H2 eq_refl)); try (by specialize (H2' eq_refl)).
Qed.

(** Two tests of the same mask whose values differ in one bit at most. *)
Lemma generalize_test al p t x d :
  test_ok t -> test_ok x -> i_offset x = i_offset t -> i_mask x = i_mask t ->
  d = Z.lxor (i_value t) (i_value x) -> one_bit d = true ->
  let g := MkTest (i_offset t) (i_short t) (Z.ldiff (i_mask t) d) (Z.ldiff (i_value t) d) in
  test_ok g /\ data_test al p g = data_test al p t || data_test al p x.
Proof.
  intros Hokt Hokx Ho Hm Hd H1. cbv zeta. set (g := MkTest _ _ _ _).
  assert (Hdm : forall n, 0 <= n -> Z.testbit (i_mask t) n = false -> Z.testbit d n = false).
  { intros n Hn E. rewrite Hd, Z.lxor_spec, (value_bit t), (value_bit x) by (done || congruence). done. }
  assert (Hd0 : 0 <= d).
  { pose proof Hokt as (_ & Hv & _). pose proof Hokx as (_ & Hvx & _). rewrite Hd. apply Z.lxor_nonneg. lia. }
  assert (Hmb : forall n, 32 <= n -> Z.testbit (i_mask t) n = false) by (apply range32_bits, Hokt).
  assert (Hdr : 0 <= d < 4294967296).
  { apply range32_bits. split; [done|]. intros n Hn. apply Hdm; [lia|by apply Hmb]. }
  assert (Hg : test_ok g).
  { pose proof Hokt as (Hmr & Hv & Hland). split; cbn [i_mask i_value g]; [|split].
    - apply range32_bits. split; [apply Z.ldiff_nonneg; lia|]. intros n Hn. by rewrite Z.ldiff_spec, Hmb.
    - apply Z.ldiff_nonneg; lia.
    - apply Z.bits_inj'. intros n Hn. rewrite <- Hland, Z.land_spec, !Z.ldiff_spec, Z.land_spec.
      by destruct (Z.testbit (i_value t) n), (Z.testbit (i_mask t) n), (Z.testbit d n). }
  split; [exact Hg|]. apply Bool.eq_true_iff_eq. rewrite orb_true_iff, !data_test_bits by done.
  rewrite Ho, Hm. cbn [g i_offset i_mask i_value]. generalize (word p (i_offset t - al)) as w. intros w.
  assert (Hx : forall n, 0 <= n -> Z.testbit (i_value x) n = xorb (Z.testbit (i_value t) n) (Z.testbit d n)).
  { intros n Hn. rewrite Hd, Z.lxor_spec. by destruct (Z.testbit (i_value t) n), (Z.testbit (i_value x) n). }
  destruct (Z.eq_dec d 0) as [E0|Hne].
  - rewrite E0. rewrite !Z.ldiff_0_r. split; [by left|]. intros [H|H]; [done|]. intros n Hn Hmn. rewrite (H n), Hx, E0, Z.bits_0 by done.
    apply xorb_false_r.
  - destruct (one_bit_power d ltac:(lia) H1) as (k & Hk & Ed).
    assert (Hbit : forall n, 0 <= n -> Z.testbit d n = (k =? n)) by (intros; rewrite Ed; by apply Z.pow2_bits_eqb).
    split.
    + intros H. destruct (Bool.bool_dec (Z.testbit w k) (Z.testbit (i_value t) k)) as [Ek|Ek]; [left|right]; intros n Hn Hmn.
      * destruct (Z.eq_dec k n) as [<-|Hnk]; [done|]. specialize (H n Hn). rewrite !Z.ldiff_spec, Hbit in H by done.
        rewrite (proj2 (Z.eqb_neq k n)), !andb_true_r in H by done. by apply H.
      * rewrite Hx, Hbit by done. destruct (Z.eqb_spec k n) as [<-|Hnk].
        { destruct (Z.testbit w k), (Z.testbit (i_value t) k); try done; by destruct Ek. }
        specialize (H n Hn). rewrite !Z.ldiff_spec, Hbit in H by done.
        rewrite (proj2 (Z.eqb_neq k n)), !andb_true_r in H by done. rewrite xorb_false_r. by apply H.
    + intros H n Hn. rewrite !Z.ldiff_spec, Hbit by done. destruct (Z.eqb_spec k n) as [|Hnk]; cbn [negb]; rewrite ?andb_false_r, ?andb_true_r; [done|].
      intros Hmn. destruct H as [H|H]; [by apply H|]. rewrite (H n), Hx, Hbit by done. rewrite (proj2 (Z.eqb_neq k n)) by done. apply xorb_false_r.
Qed.

(** Two tests that have to succeed both. *)
Lemma merge_test al p t y :
  test_ok t -> test_ok y -> compatible y t true = true ->
  test_ok (merge_tests t y) /\ data_test al p (merge_tests t y) = data_test al p t && data_test al p y /\
  (i_offset (merge_tests t y) = i_offset t \/ i_offset (merge_tests t y) = i_offset y).
Proof.
  intros Hokt Hoky Hc. pose proof Hokt as (Hmt & Hvt & Hlt). pose proof Hoky as (Hmy & Hvy & Hly).
  assert (Hg : test_ok (merge_tests t y)).
  { unfold merge_tests. rewrite Hlt, Hly. split; cbn [i_mask i_value]; [|split].
    - apply range32_bits. split; [apply Z.lor_nonneg; lia|]. intros n Hn. rewrite Z.lor_spec.
      by rewrite (proj2 (proj1 (range32_bits _) Hmt)), (proj2 (proj1 (range32_bits _) Hmy)).
    - apply Z.lor_nonneg; lia.
    - apply Z.bits_inj'. intros n Hn. rewrite <- Hlt, <- Hly. rewrite !Z.land_spec, !Z.lor_spec, !Z.land_spec.
      by destruct (Z.testbit (i_value t) n), (Z.testbit (i_mask t) n), (Z.testbit (i_value y) n), (Z.testbit (i_mask y) n). }
  split; [exact Hg|]. split; [|unfold merge_tests; cbn [i_offset]; destruct (i_mask t =? 0); tauto].
  destruct (Z.eqb_spec (i_mask t) 0) as [Et|Et].
  { assert (Ev : i_value t = 0) by (by rewrite <- Hlt, Et, Z.land_0_r).
    rewrite (data_test_no_mask al p t) by done. unfold merge_tests, data_test. cbn [i_offset i_mask i_value].
    by rewrite Et, Ev, Hly. }
  destruct (Z.eq_dec (i_mask y) 0) as [Ey|Ey].
  { assert (Ev : i_value y = 0) by (by rewrite <- Hly, Ey, Z.land_0_r).
    rewrite (data_test_no_mask al p y), andb_true_r by done. unfold merge_tests, data_test. cbn [i_offset i_mask i_value].
    by rewrite (proj2 (Z.eqb_neq _ 0)), Ey, Ev, Hlt, !Z.lor_0_r by done. }
  unfold compatible in Hc. rewrite (proj2 (Z.eqb_neq _ 0) Et), (proj2 (Z.eqb_neq _ 0) Ey) in Hc. cbn [orb] in Hc.
  destruct (negb (i_offset t =? i_offset y) || _) eqn:Eo; [done|]. apply orb_false_iff in Eo as [Eo%negb_false_iff%Z.eqb_eq _].
  apply Z.eqb_eq in Hc. apply Bool.eq_true_iff_eq. rewrite andb_true_iff, !data_test_bits by done.
  unfold merge_tests. cbn [i_offset i_mask i_value]. rewrite (proj2 (Z.eqb_neq _ 0) Et), Hlt, Hly, <- Eo.
  generalize (word p (i_offset t - al)) as w. intros w.
  assert (Hboth : forall n, 0 <= n -> Z.testbit (i_mask t) n = true -> Z.testbit (i_mask y) n = true -> Z.testbit (i_value y) n = Z.testbit (i_value t) n).
  { intros n Hn E1 E2. assert (E := f_equal (fun z => Z.testbit z n) Hc). cbn beta in E.
    rewrite !Z.land_spec, E1, E2, !andb_true_r in E. done. }
  split.
  - intros H. split; intros n Hn Hm.
    + rewrite (H n Hn), Z.lor_spec by (by rewrite Z.lor_spec, Hm). destruct (Z.testbit (i_mask y) n) eqn:E.
      * rewrite (Hboth n) by done. apply orb_diag.
      * rewrite (value_bit y n) by done. apply orb_false_r.
    + rewrite (H n Hn), Z.lor_spec by (by rewrite Z.lor_spec, Hm, orb_true_r). destruct (Z.testbit (i_mask t) n) eqn:E.
      * rewrite (Hboth n) by done. apply orb_diag.
      * rewrite (value_bit t n) by done. done.
  - intros [H1 H2] n Hn. rewrite !Z.lor_spec. intros [Hm|Hm]%orb_true_iff.
    + rewrite (H1 n Hn Hm). destruct (Z.testbit (i_mask y) n) eqn:E.
      * rewrite (Hboth n) by done. by rewrite orb_diag.
      * rewrite (value_bit y n) by done. by rewrite orb_false_r.
    + rewrite (H2 n Hn Hm). destruct (Z.testbit (i_mask t) n) eqn:E.
      * rewrite (Hboth n) by done. by rewrite orb_diag.
      * by rewrite (value_bit t n) by done.
Qed.

(** *** One instruction replaced *)
Lemma replace_runs test l i e e' :
  forward l -> l !! i = Some e -> (forall k, jump_ok (length l) i (in_j e' k)) ->
  (forall r, lands test l (in_j e (test (i_test e))) r -> lands test l (in_j e' (test (i_test e'))) r) ->
  forall pos r, runs test l pos r -> runs test (<[i := e']> l) pos r.
Proof.
  intros Hf He Hok Hl pos r Hr. assert (Hlt : (pos < length l)%nat) by (destruct Hr as (? & ? & _); by eapply lookup_lt_Some).
  revert pos Hlt r Hr. apply (backward_ind _ (fun pos => forall r, runs test l pos r -> runs test (<[i:=e']> l) pos r)).
  intros pos Hlt IH r (e1 & He1 & H1). destruct (decide (pos = i)) as [-> |Hne].
  - rewrite He in He1. injection He1 as <-. exists e'. split; [by apply list_lookup_insert_eq|].
    apply (lands_mono test l); [|by apply Hl]. intros Hx. destruct (Hok (test (i_test e'))) as [|Hj]; [lia|]. apply IH. lia.
  - exists e1. rewrite list_lookup_insert_ne by done. split; [done|]. apply (lands_mono test l); [|done].
    intros Hx. destruct (Hf pos e1 He1 (test (i_test e1))) as [|Hj]; [lia|]. apply IH. lia.
Qed.
Lemma replace_forward l i e' :
  forward l -> (forall k, jump_ok (length l) i (in_j e' k)) -> forward (<[i := e']> l).
Proof.
  intros Hf Hok m e He k. rewrite length_insert. destruct (decide (m = i)) as [-> |Hne].
  - pose proof (lookup_lt_Some _ _ _ He) as Hlt. rewrite length_insert in Hlt. rewrite list_lookup_insert_eq in He by done.
    injection He as <-. apply Hok.
  - rewrite list_lookup_insert_ne in He by done. by apply Hf.
Qed.

Section Combine.
(** Programs of well-formed tests whose offsets have some property. *)
Context (Q : Z -> Prop).
Definition good (l : list Insn) : Prop := forall i e, l !! i = Some e -> test_ok (i_test e) /\ Q (i_offset (i_test e)).
(** What the steps keep: the program's shape and what it does with packets that are long
    enough for all its tests. *)
Definition keeps (l l' : list Insn) : Prop :=
  length l' = length l /\ forward l' /\ good l' /\
  forall al p pos r, runs (data_test al p) l pos r -> runs (data_test al p) l' pos r.
Lemma keeps_refl l : forward l -> good l -> keeps l l.
Proof. intros Hf Hg. split; [done|]. split; [done|]. by split. Qed.
Lemma keeps_trans l1 l2 l3 : keeps l1 l2 -> keeps l2 l3 -> keeps l1 l3.
Proof. intros (E1 & _ & _ & R1) (E2 & F2 & G2 & R2). split; [congruence|]. split; [done|]. split; [done|]. auto. Qed.
Lemma keeps_replace l i e e' :
  forward l -> good l -> l !! i = Some e -> (forall k, jump_ok (length l) i (in_j e' k)) ->
  test_ok (i_test e') -> Q (i_offset (i_test e')) ->
  (forall al p r, lands (data_test al p) l (in_j e (data_test al p (i_test e))) r ->
                  lands (data_test al p) l (in_j e' (data_test al p (i_test e'))) r) ->
  keeps l (<[i := e']> l).
Proof.
  intros Hf Hg He Hok Ht HQ Hl. split; [apply length_insert|]. split; [by apply replace_forward|]. split.
  - intros m em Hem. destruct (decide (m = i)) as [-> |Hne].
    + rewrite list_lookup_insert_eq in Hem by (by eapply lookup_lt_Some). by injection Hem as <-.
    + rewrite list_lookup_insert_ne in Hem by done. by apply (Hg m).
  - intros al p pos r. eapply replace_runs; [done..|]. apply Hl.
Qed.
Lemma keeps_flip l i e :
  forward l -> good l -> l !! i = Some e -> flippable (i_test e) = true -> keeps l (<[i := flip e]> l).
Proof.
  intros Hf Hg He Hfl. destruct (Hg i e He) as [Ht HQ]. apply (keeps_replace l i e); try done.
  - intros []; [apply (Hf i e He false)|apply (Hf i e He true)].
  - by apply flip_ok.
  - intros al p r. rewrite flip_test by done. by destruct (data_test al p (i_test e)).
Qed.

(** The jumps of an instruction as a measure. *)
Definition jump_distance (n : nat) (j : Z) : Z := if 0 <? j then Z.of_nat n - j else 0.
Definition jumps_left (l : list Insn) (i : nat) : Z :=
  jump_distance (length l) (i_no (l !!! i)) + jump_distance (length l) (i_yes (l !!! i)).
Lemma jump_distance_forward n i j : jump_ok n i j -> 0 <= jump_distance n j <= Z.of_nat n.
Proof. intros [Hj|Hj]; unfold jump_distance; destruct (Z.ltb_spec 0 j); lia. Qed.
Lemma jump_distance_less n i j : 0 < i -> jump_ok n (Z.to_nat i) j -> i < Z.of_nat n -> jump_distance n j < jump_distance n i.
Proof. intros Hi [Hj|Hj] Hn; unfold jump_distance; rewrite (proj2 (Z.ltb_lt 0 i) Hi); destruct (Z.ltb_spec 0 j); lia. Qed.

Lemma combine_no_keeps l i l' again :
  forward l -> good l -> (i < length l)%nat -> combine_no l i = (l', again) ->
  keeps l l' /\ jumps_left l' i <= jumps_left l i /\ (again = true -> jumps_left l' i < jumps_left l i).
Proof.
  intros Hf Hg Hi. destruct (lookup_lt_is_Some_2 l i Hi) as [e He]. unfold combine_no, jumps_left.
  rewrite (list_lookup_total_correct _ _ _ He).
  destruct (Z.ltb_spec 0 (i_no e)) as [Hno|Hno].
  2: { intros [= <- <-]. rewrite (list_lookup_total_correct _ _ _ He). split; [by apply keeps_refl|]. split; [lia|done]. }
  destruct (Hf i e He false) as [|Hj]; cbn [in_j] in *; [lia|].
  destruct (lookup_lt_is_Some_2 l (Z.to_nat (i_no e)) ltac:(lia)) as [x Hx]. rewrite (list_lookup_total_correct _ _ _ Hx).
  destruct (compatible (i_test x) (i_test e) false && flippable (i_test e)) eqn:E1.
  { intros [= <- <-]. apply andb_true_iff in E1 as [_ E1]. split; [by apply keeps_flip|].
    rewrite list_lookup_total_insert_eq, length_insert by done. cbn [flip i_no i_yes]. split; [lia|done]. }
  destruct (generalizable_or_pair e x) eqn:E2.
  2: { intros [= <- <-]. rewrite (list_lookup_total_correct _ _ _ He). split; [by apply keeps_refl|]. split; [lia|done]. }
  intros [= <- <-]. unfold generalizable_or_pair in E2.
  destruct (negb (i_offset (i_test e) =? 0) && _ && _ && _ && _ && _ && _) eqn:E3; [|done].
  rewrite !andb_true_iff, !Z.eqb_eq in E3. destruct E3 as ((((((_ & Ho) & _) & Hm) & _) & Hy) & H1).
  destruct (Hg i e He) as [Ht HQ]. destruct (Hg _ x Hx) as [Htx _].
  assert (Hgen : forall al p, _) by exact (fun al p => generalize_test al p (i_test e) (i_test x) _ Ht Htx Ho Hm eq_refl H1).
  split.
  - apply (keeps_replace l i e); try done.
    + intros []; [apply (Hf i e He true)|]. cbn [in_j i_no]. destruct (Hf _ x Hx false) as [|Hjx]; [by left|cbn in Hjx; right; lia].
    + apply (Hgen 0 (Mem 0 (fun _ => 0))).
    + intros al p r. cbn [i_test]. destruct (Hgen al p) as [_ ->].
      destruct (data_test al p (i_test e)); cbn [orb in_j i_yes i_no]; [done|].
      intros (e2 & He2 & Hl)%lands_runs; [|done]. rewrite Hx in He2. injection He2 as <-.
      destruct (data_test al p (i_test x)); cbn [in_j] in *; [by rewrite Hy|done].
  - rewrite list_lookup_total_insert_eq, length_insert by done. cbn [i_no i_yes].
    pose proof (jump_distance_less (length l) (i_no e) (i_no x) Hno (Hf _ x Hx false) ltac:(lia)). split; [lia|intros _; lia].
Qed.
Lemma combine_yes_keeps l i l' again :
  forward l -> good l -> (i < length l)%nat -> combine_yes l i = (l', again) ->
  keeps l l' /\ (again = true -> jumps_left l' i < jumps_left l i).
Proof.
  intros Hf Hg Hi. destruct (lookup_lt_is_Some_2 l i Hi) as [e He]. unfold combine_yes, jumps_left.
  rewrite (list_lookup_total_correct _ _ _ He).
  destruct (Z.leb_spec (i_yes e) 0) as [Hyes|Hyes].
  { intros [= <- <-]. split; [by apply keeps_refl|done]. }
  destruct (Hf i e He true) as [|Hj]; cbn [in_j] in *; [lia|]. set (y := Z.to_nat (i_yes e)).
  destruct (lookup_lt_is_Some_2 l y ltac:(lia)) as [ey Hey].
  set (l1 := if (i_no e =? i_yes (l !!! y)) && flippable (i_test (l !!! y)) then <[y:=flip (l !!! y)]> l else l).
  assert (Hk1 : keeps l l1 /\ l1 !! i = Some e).
  { unfold l1. rewrite (list_lookup_total_correct _ _ _ Hey). destruct ((i_no e =? i_yes ey) && flippable (i_test ey)) eqn:E1.
    - apply andb_true_iff in E1 as [_ E1]. split; [by apply keeps_flip|]. by rewrite list_lookup_insert_ne by lia.
    - split; [by apply keeps_refl|done]. }
  destruct Hk1 as [Hk1 He1]. clearbody l1. pose proof Hk1 as (Hl1 & Hf1 & Hg1 & _).
  destruct (lookup_lt_is_Some_2 l1 y ltac:(lia)) as [e1 Hy1]. rewrite (list_lookup_total_correct _ _ _ Hy1).
  destruct ((i_no e =? i_no e1) && compatible (i_test e1) (i_test e) true) eqn:E2.
  2: { intros [= <- <-]. by split. }
  intros [= <- <-]. apply andb_true_iff in E2 as [Hn%Z.eqb_eq Hc].
  destruct (Hg1 i e He1) as [Ht HQ]. destruct (Hg1 y e1 Hy1) as [Hty HQy].
  assert (Hmerge : forall al p, _) by exact (fun al p => merge_test al p (i_test e) (i_test e1) Ht Hty Hc).
  split.
  - apply (keeps_trans _ l1); [done|]. apply (keeps_replace l1 i e); try done.
    + intros []; [|apply (Hf1 i e He1 false)]. cbn [in_j i_yes]. destruct (Hf1 y e1 Hy1 true) as [|Hjx]; [by left|cbn in Hjx; right; lia].
    + apply (Hmerge 0 (Mem 0 (fun _ => 0))).
    + cbn [i_test]. destruct (Hmerge 0 (Mem 0 (fun _ => 0))) as (_ & _ & [->| ->]); done.
    + intros al p r. cbn [i_test]. destruct (Hmerge al p) as (_ & -> & _).
      destruct (data_test al p (i_test e)); cbn [andb in_j i_yes i_no]; [|done].
      intros (e2 & He2 & Hl)%lands_runs; [|done]. fold y in He2. rewrite Hy1 in He2. injection He2 as <-.
      destruct (data_test al p (i_test e1)); cbn [in_j] in *; [done|by rewrite Hn].
  - intros _. rewrite list_lookup_total_insert_eq, length_insert, Hl1 by lia. cbn [i_no i_yes].
    pose proof (jump_distance_less (length l) (i_yes e) (i_yes e1) Hyes) as H. rewrite <- Hl1 in H at 1.
    specialize (H (Hf1 y e1 Hy1 true) ltac:(lia)). lia.
Qed.

Lemma jumps_left_range l i : forward l -> (i < length l)%nat -> 0 <= jumps_left l i <= 2 * Z.of_nat (length l).
Proof.
  intros Hf Hi. destruct (lookup_lt_is_Some_2 l i Hi) as [e He]. unfold jumps_left. rewrite (list_lookup_total_correct _ _ _ He).
  pose proof (jump_distance_forward _ _ _ (Hf i e He false)). pose proof (jump_distance_forward _ _ _ (Hf i e He true)). cbn [in_j] in *. lia.
Qed.
Lemma combine_insn_keeps fuel i l :
  forward l -> good l -> (i < length l)%nat -> jumps_left l i < Z.of_nat fuel ->
  exists l', combine_insn fuel i l = Some l' /\ keeps l l'.
Proof.
  revert l. induction fuel as [|fuel IH]; intros l Hf Hg Hi Hfuel; [pose proof (jumps_left_range l i Hf Hi); lia|].
  cbn [combine_insn]. destruct (combine_no l i) as [l1 b1] eqn:E1.
  destruct (combine_no_keeps l i l1 b1 Hf Hg Hi E1) as (K1 & M1 & M1'). pose proof K1 as (L1 & F1 & G1 & _).
  destruct b1.
  { specialize (M1' eq_refl). destruct (IH l1) as (l' & E & K); [done|done|lia|lia|]. exists l'. split; [done|]. by eapply keeps_trans. }
  destruct (combine_yes l1 i) as [l2 b2] eqn:E2.
  destruct (combine_yes_keeps l1 i l2 b2 F1 G1 ltac:(lia) E2) as (K2 & M2). pose proof K2 as (L2 & F2 & G2 & _).
  destruct b2.
  - specialize (M2 eq_refl). destruct (IH l2) as (l' & E & K); [done|done|lia|lia|]. exists l'. split; [done|].
    eapply keeps_trans; [exact K1|]. by eapply keeps_trans.
  - exists l2. split; [done|]. by eapply keeps_trans.
Qed.
Lemma combine_loop_keeps n l : forward l -> good l -> (n <= length l)%nat -> exists l', combine_loop n l = Some l' /\ keeps l l'.
Proof.
  revert l. induction n as [|i IH]; intros l Hf Hg Hn; cbn [combine_loop]; [exists l; split; [done|by apply keeps_refl]|].
  destruct (combine_insn_keeps (2 * length l + 1) i l Hf Hg ltac:(lia)) as (l1 & -> & K1).
  { pose proof (jumps_left_range l i Hf ltac:(lia)). lia. }
  pose proof K1 as (L1 & F1 & G1 & _). cbn [mbind option_bind]. destruct (IH l1 F1 G1 ltac:(lia)) as (l2 & -> & K2).
  exists l2. split; [done|]. by eapply keeps_trans.
Qed.
(** [combine_compatible_states] ends (every round of an instruction moves one of its jumps
    on) and keeps what the program does with packets that are long enough for its tests. *)
Theorem combine_preserves l : forward l -> good l -> exists l', combine_compatible_states l = Some l' /\ keeps l l'.
Proof. intros Hf Hg. by apply combine_loop_keeps. Qed.
End Combine.

(** ** Matching *)
(** What an instruction decides for a packet: an empty mask always succeeds, and a packet that
    ends before the last byte of the mask takes the branch for short packets. *)
Definition packet_test (al : Z) (p : packet_mem) (t : Test) : bool :=
  if i_mask t =? 0 then true
  else if m_length p + al <? required_length t then i_short t
  else data_test al p t.
Lemma packet_test_no_mask al p t : i_mask t = 0 -> packet_test al p t = true.
Proof. unfold packet_test. by intros ->. Qed.
Lemma required_length_range t : 0 <= i_offset t -> 0 <= required_length t <= i_offset t + 4.
Proof. intros. unfold required_length. repeat case_match; lia. Qed.

(** The bounds check of [length_checked_match] asks for the bytes of the mask. *)
Lemma checked_test_packet al p t : i_mask t <> 0 -> checked_test al p t = packet_test al p t.
Proof.
  intros Hm. unfold checked_test, packet_test, required_length. rewrite (proj2 (Z.eqb_neq _ 0) Hm).
  generalize (m_length p + al) as len. intros len. cbv zeta.
  destruct (mask_c t 3 =? 0), (mask_c t 2 =? 0), (mask_c t 1 =? 0); cbn [negb andb orb];
    destruct (Z.ltb_spec len (i_offset t + 4)); rewrite ?andb_false_r, ?andb_true_r;
    destruct (Z.ltb_spec (i_offset t) len); cbn [andb negb orb];
    repeat match goal with
    | |- context [?a <? ?b] => destruct (Z.ltb_spec a b)
    | |- context [?a <=? ?b] => destruct (Z.leb_spec a b)
    | |- context [?a =? ?b] => destruct (Z.eqb_spec a b)
    end; cbn [negb]; done || lia.
Qed.
Lemma long_test_packet al p t : i_mask t <> 0 -> required_length t <= m_length p + al -> data_test al p t = packet_test al p t.
Proof. intros Hm Hl. unfold packet_test. by rewrite (proj2 (Z.eqb_neq _ 0) Hm), (proj2 (Z.ltb_ge _ _) Hl). Qed.

Lemma max_required_length_fold l m0 :
  m0 <= foldl (fun m e => if m <? required_length (i_test e) then required_length (i_test e) else m) m0 l /\
  (forall e, e ∈ l -> required_length (i_test e) <= foldl (fun m e => if m <? required_length (i_test e) then required_length (i_test e) else m) m0 l) /\
  (forall b, m0 <= b -> (forall e, e ∈ l -> required_length (i_test e) <= b) ->
    foldl (fun m e => if m <? required_length (i_test e) then required_length (i_test e) else m) m0 l <= b).
Proof.
  revert m0. induction l as [|e l IH]; intros m0; cbn [foldl].
  { split; [lia|]. split; [intros e He; by apply elem_of_nil in He|auto]. }
  set (m1 := if m0 <? required_length (i_test e) then _ else _).
  assert (Hm1 : m0 <= m1 /\ required_length (i_test e) <= m1 /\ (m1 = m0 \/ m1 = required_length (i_test e)))
    by (unfold m1; destruct (Z.ltb_spec m0 (required_length (i_test e))); lia).
  destruct (IH m1) as (H1 & H2 & H3). split; [lia|]. split.
  - intros e' [-> |He]%list.elem_of_cons; [lia|by apply H2].
  - intros b Hb He. apply H3; [|intros; apply He; by apply list_elem_of_further].
    destruct Hm1 as (_ & _ & [->| ->]); [done|]. apply He. apply list_elem_of_here.
Qed.
Lemma max_required_length_le l e : e ∈ l -> required_length (i_test e) <= max_required_length l.
Proof. apply (max_required_length_fold l 0). Qed.

Definition offsets_ok (l : list Insn) : Prop := forall e, e ∈ l -> 0 <= i_offset (i_test e) < 65536.
Lemma max_required_length_range l : offsets_ok l -> 0 <= max_required_length l <= 65539.
Proof.
  intros H. destruct (max_required_length_fold l 0) as (H1 & _ & H3). split; [done|]. apply H3; [lia|].
  intros e He. specialize (H e He). pose proof (required_length_range (i_test e)). lia.
Qed.

(** The result of [optimize]: what every instruction and the safe length guarantee. *)
Definition program_ok (pr : Program) : Prop :=
  forward (p_insn pr) /\ offsets_ok (p_insn pr) /\ (forall e, e ∈ p_insn pr -> i_mask (i_test e) <> 0) /\
  p_safe_length pr = u32 (max_required_length (p_insn pr) - p_align_offset pr) /\ 0 <= p_align_offset pr < 65536.
(** Matching a packet, with or without the length checks that [_safe_length] makes
    unnecessary, is running the program with the tests it stands for. *)
Theorem match_packet_runs pr p r :
  program_ok pr -> p_output_everything pr < 0 ->
  runs (packet_test (p_align_offset pr) p) (p_insn pr) 0 r -> match_packet pr p = Some (- r).
Proof.
  intros (Hf & Hoff & Hmask & Hsafe & Hal) Hoe Hr. unfold match_packet. rewrite (proj2 (Z.leb_gt 0 _)) by done.
  destruct (Z.ltb_spec (m_length p) (p_safe_length pr)) as [Hlt|Hge].
  - unfold length_checked_match. rewrite (run_program_test _ (packet_test (p_align_offset pr) p)); [by apply run_program_all|].
    intros e He. by apply checked_test_packet, Hmask.
  - rewrite (run_program_test _ (packet_test (p_align_offset pr) p)); [by apply run_program_all|].
    intros e He. apply long_test_packet; [by apply Hmask|]. pose proof (max_required_length_le _ e He).
    pose proof (max_required_length_range _ Hoff). rewrite Hsafe in Hge. unfold u32 in Hge.
    destruct (Z.lt_ge_cases (max_required_length (p_insn pr) - p_align_offset pr) 0); [|rewrite Z.mod_small in Hge by lia; lia].
    pose proof (Z.mod_pos_bound (max_required_length (p_insn pr) - p_align_offset pr) 4294967296). lia.
Qed.

Lemma finish_program_match al p l l' oe r :
  0 <= al < 65536 -> offsets_ok l -> r <= 0 -> removed (packet_test al p) l l' oe r ->
  match_packet (finish_program al (l', oe)) p = Some (- r).
Proof.
  intros Hal Hoff Hr0 [[Hoe ->]|(-> & Hf & Hr & He)]; unfold finish_program.
  - rewrite (proj2 (Z.ltb_ge oe 0)), andb_false_r by done. unfold match_packet. cbn [p_output_everything].
    by rewrite (proj2 (Z.leb_le 0 oe)), Z.opp_involutive.
  - destruct l' as [|e0 l'']; [by destruct Hr as (? & ? & _)|]. cbn [length Nat.eqb andb Z.leb Z.compare].
    apply match_packet_runs; cbn [p_insn p_align_offset p_output_everything]; [|lia|done].
    split; [done|]. split; [|split; [intros; by apply He|done]].
    intros e Hin. destruct (He e Hin) as (_ & e1 & He1 & ->). by apply Hoff.
Qed.

(** ** A program *)
(** [Classifier(12/0806 20/0001, 12/0806 20/0002, 12/0800, -)] before it is optimized. *)
Definition arp_program : list Insn :=
  map (fun '(o, v, m, no, yes) => MkInsn (MkTest o false m v) no yes)
    [(12, 1544, 65535, 2, 1); (20, 256, 65535, 2, 0); (12, 1544, 65535, 4, 3); (20, 512, 65535, 4, -1);
     (12, 8, 65535, 5, -2); (0, 0, 0, j_never, -3)].
Lemma arp_program_forward : forward arp_program.
Proof.
  intros i e He k. unfold jump_ok. do 6 (destruct i as [|i]; [injection He as <-; destruct k; vm_compute; intuition discriminate|]). done.
Qed.
Example bubble_sort_preserves_witness :
  exists l', bubble_sort_and_exprs [] 65536 arp_program = Some l' /\ bubble_keeps arp_program l'.
Proof. apply (bubble_sort_preserves [] 65536 arp_program). exact arp_program_forward. Defined.
