(* ===== verification/ClassifyTree.v ===== *)
(** * Subtrees of classification programs ([elements/standard/classification.cc])

    What [finish_subtree] and [negate_subtree] make of the subtrees they find: a subtree is a
    block of instructions whose jumps stay in it or leave it, and it leaves at [j_success] or
    [j_failure]. *)
From Stdlib Require Import ZArith Lia.
From stdpp Require Import base list numbers option.
From S2P Require Import Prelude Classify.
#[local] Open Scope Z_scope.

(** ** Blocks *)
Section Exits.
Context (test : Test -> bool).
(** From instruction [pos] of the block that starts at [base], the program leaves the block
    with the jump [x]. *)
Inductive exits (base : nat) (blk : list Insn) : nat -> Z -> Prop :=
| exits_out pos e x : blk !! pos = Some e -> in_j e (test (i_test e)) = x -> x <= 0 -> exits base blk pos x
| exits_in pos e pos' x : blk !! pos = Some e -> in_j e (test (i_test e)) = Z.of_nat (base + pos') ->
    (pos < pos')%nat -> exits base blk pos' x -> exits base blk pos x.

Lemma exits_nonpos base blk pos x : exits base blk pos x -> x <= 0.
Proof. by induction 1. Qed.
Lemma exits_runs l pos x : exits 0 l pos x -> runs test l pos x.
Proof.
  induction 1 as [pos e x He Hx Hle|pos e pos' x He Hx Hlt _ (e' & He' & IH)]; exists e; (split; [done|]).
  - rewrite Hx. by apply lands_out.
  - rewrite Hx. apply runs_lands; [lia|]. rewrite Nat2Z.id. by exists e'.
Qed.

(** Where the jump [y] of a block at [base .. base + last) leads in a larger block. *)
Definition leads (base : nat) (blk : list Insn) (last : nat) (y z : Z) : Prop :=
  (y <= 0 /\ z = y) \/ (exists t, y = Z.of_nat (base + t) /\ (last <= t)%nat /\ exits base blk t z).
Lemma redirect_pos s f j : 0 < j -> redirect s f j = j.
Proof.
  intros Hj. unfold redirect. rewrite (proj2 (Z.eqb_neq j j_success)), (proj2 (Z.eqb_neq j j_failure)); [done|..]; unfold j_failure, j_success, j_never; lia.
Qed.
Lemma exits_redirect s f base pre blk post pos x z :
  exits (base + length pre) blk pos x ->
  leads base (pre ++ map (redirect_insn s f) blk ++ post) (length pre + length blk) (redirect s f x) z ->
  exits base (pre ++ map (redirect_insn s f) blk ++ post) (length pre + pos) z.
Proof.
  intros H Hz.
  assert (Hget : forall i e, blk !! i = Some e -> (pre ++ map (redirect_insn s f) blk ++ post) !! (length pre + i)%nat = Some (redirect_insn s f e)).
  { intros i e He. rewrite lookup_app_r by lia. replace (length pre + i - length pre)%nat with i by lia.
    rewrite lookup_app_l by (rewrite length_map; by eapply lookup_lt_Some). by rewrite list_lookup_fmap, He. }
  assert (Hj : forall e, in_j (redirect_insn s f e) (test (i_test (redirect_insn s f e))) = redirect s f (in_j e (test (i_test e)))).
  { intros e. cbn [redirect_insn i_test]. by destruct (test (i_test e)). }
  induction H as [pos e x He Hx Hle|pos e pos' x He Hx Hlt H IH].
  - destruct Hz as [[Hy ->]|(t & Hy & Ht & Hex)].
    + eapply exits_out; [by apply Hget| |done]. by rewrite Hj, Hx.
    + eapply exits_in; [by apply Hget| | |done]; [by rewrite Hj, Hx|]. apply lookup_lt_Some in He. lia.
  - eapply exits_in; [by apply Hget| | |by apply IH]; [|lia]. rewrite Hj, Hx, redirect_pos by lia. lia.
Qed.
End Exits.

(** Jumps stay in the block or leave it downwards. *)
Definition block (base : nat) (blk : list Insn) : Prop :=
  forall pos e k, blk !! pos = Some e -> jump_ok (base + length blk) (base + pos) (in_j e k).
Lemma block_forward l : block 0 l -> forward l.
Proof. intros H i e He k. exact (H i e k He). Qed.
Lemma in_j_redirect s f e k : in_j (redirect_insn s f e) k = redirect s f (in_j e k).
Proof. by destruct k. Qed.

(** ** Combining *)
Fixpoint starts (q : nat) (blks : list (list Insn)) : list nat :=
  match blks with [] => [] | b :: blks => q :: starts (q + length b) blks end.
(** The blocks linked by [c_and] ([c]) or [c_or]: a block that succeeds, or one that fails,
    goes on to the next. *)
Definition next_block (q : nat) (b : list Insn) (blks : list (list Insn)) : option Z :=
  match blks with [] => None | _ => Some (Z.of_nat (q + length b)) end.
Definition link_block (c : bool) (next : option Z) (s f : Z) (b : list Insn) : list Insn :=
  map (redirect_insn (if c then default s next else s) (if c then f else default f next)) b.
Fixpoint link (c : bool) (q : nat) (s f : Z) (blks : list (list Insn)) : list Insn :=
  match blks with
  | [] => []
  | b :: blks' => link_block c (next_block q b blks') s f b ++ link c (q + length b) s f blks'
  end.
Definition link_combiner (c : bool) : Combiner := if c then c_and else c_or.
Lemma redirect_subtree_app l0 b l1 s f :
  redirect_subtree (length l0) (length l0 + length b) s f (l0 ++ b ++ l1) = l0 ++ map (redirect_insn s f) b ++ l1.
Proof.
  unfold redirect_subtree. rewrite take_app_length, drop_app_length, drop_app_add, drop_app_length.
  replace (length l0 + length b - length l0)%nat with (length b) by lia. by rewrite take_app_length.
Qed.
Lemma link_block_length c next s f b : length (link_block c next s f b) = length b.
Proof. apply length_map. Qed.
Lemma combine_link c s f l0 blks :
  combine_subtrees (link_combiner c) s f (starts (length l0) blks) (l0 ++ concat blks) = l0 ++ link c (length l0) s f blks.
Proof.
  revert l0. induction blks as [|b blks IH]; intros l0; [done|]. cbn [starts combine_subtrees concat link].
  destruct blks as [|b' blks].
  - cbn [starts concat link]. rewrite !app_nil_r, length_app. pose proof (redirect_subtree_app l0 b [] s f) as H.
    rewrite !app_nil_r in H. rewrite H. by destruct c.
  - specialize (IH (l0 ++ link_block c (next_block (length l0) b (b' :: blks)) s f b)).
    rewrite length_app, link_block_length, <- !app_assoc in IH. rewrite <- IH. cbn [starts].
    destruct c; cbn [link_combiner]; by rewrite redirect_subtree_app.
Qed.
Lemma link_length c q s f blks : length (link c q s f blks) = length (concat blks).
Proof.
  revert q. induction blks as [|b blks IH]; intros q; [done|]. cbn [link concat].
  by rewrite !length_app, link_block_length, IH.
Qed.

(** Every block of a list has a property, at the place where it starts. *)
Fixpoint blocks (P : nat -> list Insn -> Prop) (q : nat) (blks : list (list Insn)) : Prop :=
  match blks with [] => True | b :: blks => P q b /\ blocks P (q + length b) blks end.
Lemma link_is_block c q s f blks : s <= 0 -> f <= 0 -> Forall (fun b => b <> []) blks -> blocks block q blks -> block q (link c q s f blks).
Proof.
  intros Hs Hf. revert q. induction blks as [|b blks IH]; intros q Hne Hb pos e k He; [done|].
  apply list.Forall_cons in Hne as [Hnb Hne]. destruct Hb as [Hb Hbs]. cbn [link] in *. rewrite length_app, link_block_length.
  destruct (decide (pos < length b)%nat) as [Hlt|Hge].
  - rewrite lookup_app_l in He by (by rewrite link_block_length). unfold link_block in He. rewrite list_lookup_fmap in He.
    destruct (b !! pos) as [e0|] eqn:E0; [|done]. injection He as <-. rewrite in_j_redirect.
    assert (Hn : forall z, z <= 0 -> jump_ok (q + (length b + length (link c (q + length b) s f blks))) (q + pos) (default z (next_block q b blks))).
    { intros z Hz. destruct blks as [|b' blks]; cbn [next_block default id]; [by left|right]. rewrite link_length. cbn [concat]. rewrite length_app.
      apply list.Forall_cons in Hne as [Hnb' _]. destruct b'; [done|]. cbn [length id]. lia. }
    assert (Hj : jump_ok (q + (length b + length (link c (q + length b) s f blks))) (q + pos) (in_j e0 k)).
    { destruct (Hb pos e0 k E0) as [Hj|Hj]; [by left|right; lia]. }
    unfold redirect. destruct (_ =? j_success); [destruct c; [by apply Hn|by left]|].
    destruct (_ =? j_failure); [destruct c; [by left|by apply Hn]|done].
  - rewrite lookup_app_r in He by (rewrite link_block_length; lia). rewrite link_block_length in He.
    specialize (IH (q + length b)%nat Hne Hbs _ e k He). unfold jump_ok in *. lia.
Qed.

(** Where linked blocks lead: [xs] is how each of them is left. *)
Fixpoint link_exit (c : bool) (s f : Z) (xs : list Z) : Z :=
  match xs with
  | [] => 0
  | x :: xs' =>
      match xs' with
      | [] => redirect s f x
      | _ => if x =? (if c then j_success else j_failure) then link_exit c s f xs' else redirect s f x
      end
  end.
Fixpoint all_exit (test : Test -> bool) (q : nat) (blks : list (list Insn)) (xs : list Z) : Prop :=
  match blks, xs with
  | [], [] => True
  | b :: blks, x :: xs => exits test q b 0 x /\ all_exit test (q + length b) blks xs
  | _, _ => False
  end.
Lemma redirect_nonpos s f x : s <= 0 -> f <= 0 -> x <= 0 -> redirect s f x <= 0.
Proof. intros. unfold redirect. destruct (x =? j_success); [done|]. by destruct (x =? j_failure). Qed.
Lemma link_exits test c s f base pre blks xs :
  s <= 0 -> f <= 0 -> blks <> [] -> all_exit test (base + length pre) blks xs ->
  exits test base (pre ++ link c (base + length pre) s f blks) (length pre) (link_exit c s f xs).
Proof.
  intros Hs Hf. revert pre xs. induction blks as [|b blks IH]; intros pre xs Hne Hx; [done|].
  destruct xs as [|x xs]; [done|]. destruct Hx as [Hx Hxs]. cbn [link link_exit]. pose proof (exits_nonpos _ _ _ _ _ Hx) as Hx0.
  rewrite <- (Nat.add_0_r (length pre)) at 3. unfold link_block. eapply exits_redirect; [exact Hx|].
  destruct blks as [|b' blks].
  - destruct xs; [|done]. left. split; [|by destruct c]. cbn [next_block default id]. destruct c; by apply redirect_nonpos.
  - destruct xs as [|x' xs]; [done|]. cbn [next_block default id].
    assert (Hnext : leads test base (pre ++ link_block c (Some (Z.of_nat (base + length pre + length b))) s f b ++ link c (base + length pre + length b) s f (b' :: blks))
       (length pre + length b) (Z.of_nat (base + length pre + length b)) (link_exit c s f (x' :: xs))).
    { right. exists (length pre + length b)%nat. split; [lia|]. split; [done|].
      specialize (IH (pre ++ link_block c (Some (Z.of_nat (base + length pre + length b))) s f b) (x' :: xs) ltac:(done)).
      rewrite length_app, link_block_length, <- app_assoc, Nat.add_assoc in IH. by apply IH. }
    destruct c; unfold redirect at 1; cbn [default id].
    + destruct (Z.eqb_spec x j_success) as [->|Hxs1]; [exact Hnext|]. left. unfold redirect.
      rewrite (proj2 (Z.eqb_neq x j_success)) by done. by destruct (x =? j_failure).
    + destruct (Z.eqb_spec x j_failure) as [->|Hxs1]; [exact Hnext|]. left. unfold redirect.
      rewrite (proj2 (Z.eqb_neq x j_failure)) by done. by destruct (x =? j_success).
Qed.

(** ** The tree *)
(** The marks of a block at a level. *)
Definition block_marks (L : Z) (b : list Insn) : list Z := L :: replicate (length b - 1) (-1).
Definition marks (L : Z) (blks : list (list Insn)) : list Z := concat (map (block_marks L) blks).
Lemma block_marks_length L b : b <> [] -> length (block_marks L b) = length b.
Proof. intros Hb. cbn. rewrite length_replicate. destruct b; [done|]. cbn. lia. Qed.
Lemma marks_length L blks : Forall (fun b => b <> []) blks -> length (marks L blks) = length (concat blks).
Proof.
  induction 1 as [|b blks Hb _ IH]; [done|]. cbn [marks map concat]. rewrite !length_app, block_marks_length by done.
  by f_equal.
Qed.
Lemma marks_level L blks m : 0 <= L -> m ∈ marks L blks -> m < 0 \/ L <= m.
Proof.
  intros HL. induction blks as [|b blks IH]; [by intros ?%elem_of_nil|].
  cbn [marks map concat]. intros [H|H]%elem_of_app; [|by apply IH].
  apply list.elem_of_cons in H as [-> |H]; [by right|]. apply elem_of_replicate in H as [-> _]. by left.
Qed.

(** The walk to the parent passes the blocks. *)
Lemma parent_ptr_le tree n : (parent_ptr tree n <= n)%nat.
Proof. induction n as [|n IH]; [done|]. cbn [parent_ptr]. destruct (_ || _); lia. Qed.
Lemma parent_ptr_skip L ms0 ms n : (forall m, m ∈ ms -> m < 0 \/ L <= m) -> (length ms0 <= n <= length ms0 + length ms)%nat ->
  (parent_ptr (L :: ms0 ++ ms) n <= length ms0)%nat.
Proof.
  intros Hms. induction n as [|n IH]; intros Hn; [cbn; lia|]. cbn [parent_ptr]. change (level (L :: ms0 ++ ms)) with L.
  change ((L :: ms0 ++ ms) !!! S n) with ((ms0 ++ ms) !!! n).
  destruct (decide (length ms0 <= n)%nat) as [Hle|Hlt].
  - destruct (lookup_lt_is_Some_2 ms (n - length ms0) ltac:(lia)) as [m Hm].
    assert ((ms0 ++ ms) !!! n = m) as -> by (apply list_lookup_total_correct; by rewrite lookup_app_r).
    assert ((m <? 0) || (L <=? m) = true) as ->; [|apply IH; lia].
    apply orb_true_iff. rewrite Z.ltb_lt, Z.leb_le. apply Hms. by eapply list_elem_of_lookup_2.
  - destruct (_ || _); [|lia]. pose proof (parent_ptr_le (L :: ms0 ++ ms) n). lia.
Qed.
(** The subtrees found are the starts of the blocks. *)
Definition at_level (tree : list Z) (p : nat) : Prop := tree !!! S p = level tree.
Lemma filter_seq_app (P : nat -> Prop) `{!forall p, Decision (P p)} a b c : (a <= b <= c)%nat ->
  filter P (seq a (c - a)) = filter P (seq a (b - a)) ++ filter P (seq b (c - b)).
Proof.
  intros Hle. replace (c - a)%nat with (b - a + (c - b))%nat by lia. rewrite seq_app, list.filter_app.
  by replace (a + (b - a))%nat with b by lia.
Qed.
Lemma filter_seq_none (P : nat -> Prop) `{!forall p, Decision (P p)} a n : (forall p, (a <= p < a + n)%nat -> ~ P p) -> filter P (seq a n) = [].
Proof.
  revert a. induction n as [|n IH]; intros a Ha; [done|]. cbn [seq]. rewrite filter_cons_False by (apply Ha; lia).
  apply IH. intros p Hp. apply Ha. lia.
Qed.
Lemma filter_marks L ms0 blks : 0 <= L -> Forall (fun b => b <> []) blks ->
  let tree := L :: ms0 ++ marks L blks in
  filter (fun p => tree !!! S p = level tree) (seq (length ms0) (length (marks L blks))) = starts (length ms0) blks.
Proof.
  intros HL H. revert ms0. induction H as [|b blks Hb Hbs IH]; intros ms0; [done|]. cbv zeta in *.
  cbn [marks map concat starts]. fold (marks L blks).
  set (tree := L :: ms0 ++ block_marks L b ++ marks L blks).
  assert (Hget : forall p, tree !!! S p = (ms0 ++ block_marks L b ++ marks L blks) !!! p) by done.
  rewrite length_app, seq_app, list.filter_app, block_marks_length by done.
  assert (filter (fun p => tree !!! S p = level tree) (seq (length ms0) (length b)) = [length ms0]) as ->.
  - destruct b as [|e b]; [done|]. cbn [length seq]. rewrite filter_cons_True.
    + f_equal. apply filter_seq_none. intros p Hp. rewrite Hget.
      rewrite (list_lookup_total_correct _ _ (-1)); [change (level tree) with L; lia|].
      rewrite lookup_app_r, lookup_app_l by (rewrite ?block_marks_length by done; cbn [length]; lia).
      replace (p - length ms0)%nat with (S (p - length ms0 - 1)) by lia. apply (lookup_replicate_2 (length (e :: b) - 1)). cbn [length]. lia.
    + rewrite Hget. apply list_lookup_total_correct. rewrite lookup_app_r, Nat.sub_diag by lia. done.
  - specialize (IH (ms0 ++ block_marks L b)). rewrite length_app, block_marks_length, <- app_assoc in IH by done. cbn [app]. f_equal. exact IH.
Qed.
Lemma subtrees_blocks L ms0 blks : 1 <= L -> (forall m, m ∈ ms0 -> m < L) -> Forall (fun b => b <> []) blks ->
  subtrees (L :: ms0 ++ marks L blks) (length ms0 + length (marks L blks)) = starts (length ms0) blks.
Proof.
  intros HL Hms0 Hb. unfold subtrees. set (tree := L :: ms0 ++ marks L blks).
  set (ptr := parent_ptr tree (length ms0 + length (marks L blks))).
  assert (Hptr : (ptr <= length ms0)%nat).
  { apply parent_ptr_skip; [|lia]. intros m. apply marks_level. lia. }
  rewrite (filter_seq_app _ ptr (length ms0)) by lia.
  replace (length ms0 + length (marks L blks) - length ms0)%nat with (length (marks L blks)) by lia.
  unfold tree. rewrite filter_marks by (done || lia). rewrite filter_seq_none; [done|].
  intros p Hp. change ((L :: ms0 ++ marks L blks) !!! S p) with ((ms0 ++ marks L blks) !!! p).
  destruct (lookup_lt_is_Some_2 ms0 p ltac:(lia)) as [m Hm].
  rewrite (list_lookup_total_correct _ _ m) by (by rewrite lookup_app_l by lia).
  change (level (L :: ms0 ++ marks L blks)) with L. pose proof (Hms0 m ltac:(by eapply list_elem_of_lookup_2)). lia.
Qed.

Lemma mark_first L ms0 m ms :
  mark_subtree (length ms0) (L :: ms0 ++ m :: ms) = L :: ms0 ++ (L - 1) :: replicate (length ms) (-1).
Proof.
  unfold mark_subtree. change (level _) with L.
  replace (length ms0 + 2)%nat with (S (length ms0 + 1)) by lia. cbn [take length]. rewrite take_app_add. change (take 1 (m :: ms)) with [m].
  rewrite length_app. cbn [length]. replace (S (length ms0 + S (length ms)) - S (length ms0 + 1))%nat with (length ms) by lia.
  change (<[S (length ms0) := L - 1]> (L :: ms0 ++ [m])) with (L :: <[length ms0 := L - 1]> (ms0 ++ [m])).
  rewrite insert_app_r_alt by lia. rewrite Nat.sub_diag. cbn. by rewrite <- app_assoc.
Qed.

(** [finish_subtree] makes one block of the blocks at the current level. *)
Lemma finish_blocks c s f L ms0 p l0 blks :
  p_insn p = l0 ++ concat blks -> length l0 = length ms0 -> 1 <= L -> (forall m, m ∈ ms0 -> m < L) ->
  blks <> [] -> Forall (fun b => b <> []) blks ->
  finish_subtree (link_combiner c) s f (p, L :: ms0 ++ marks L blks) =
  (set_insn (l0 ++ link c (length l0) s f blks) p,
   (L - 1) :: ms0 ++ block_marks (L - 1) (link c (length l0) s f blks)).
Proof.
  intros Hp Hl HL Hms0 Hne Hb. unfold finish_subtree.
  rewrite Hp, length_app, Hl, <- (marks_length L blks) by done. rewrite subtrees_blocks by done. rewrite <- Hl, combine_link.
  unfold block_marks. rewrite link_length, <- (marks_length L blks) by done. rewrite Hl.
  destruct blks as [|b blks]; [done|]. cbn [starts marks map concat app block_marks]. rewrite mark_first.
  f_equal. change (level _) with L. cbn [length]. by rewrite Nat.sub_succ, Nat.sub_0_r.
Qed.

(** ** Negating *)
Lemma negate_jump_nonpos j : j <= 0 -> negate_jump j <= 0.
Proof. intros Hj. unfold negate_jump. destruct (j =? j_failure); [done|]. by destruct (j =? j_success). Qed.
Lemma negate_jump_pos j : 0 < j -> negate_jump j = j.
Proof.
  intros Hj. unfold negate_jump. rewrite (proj2 (Z.eqb_neq j j_failure)), (proj2 (Z.eqb_neq j j_success)); [done|..];
    unfold j_failure, j_success, j_never; lia.
Qed.
Lemma negate_test e : i_test (negate_insn false e) = i_test e.
Proof. destruct e as [[o so m v] no yes]. cbn. by destruct so. Qed.
Lemma negate_j e k : in_j (negate_insn false e) k = negate_jump (in_j e k).
Proof. by destruct k. Qed.
Lemma negate_exits test base b pos x : exits test base b pos x -> exits test base (map (negate_insn false) b) pos (negate_jump x).
Proof.
  induction 1 as [pos e x He Hx Hle|pos e pos' x He Hx Hlt _ IH].
  - eapply exits_out; [by rewrite list_lookup_fmap, He| |by apply negate_jump_nonpos]. by rewrite negate_test, negate_j, Hx.
  - eapply exits_in; [by rewrite list_lookup_fmap, He| |done|done]. rewrite negate_test, negate_j, Hx. apply negate_jump_pos. lia.
Qed.
Lemma negate_block base b : block base b -> block base (map (negate_insn false) b).
Proof.
  intros H pos e k He. rewrite list_lookup_fmap in He. destruct (b !! pos) as [e0|] eqn:E; [|done]. injection He as <-.
  rewrite negate_j, length_map. destruct (H pos e0 k E) as [Hj|Hj]; [left; by apply negate_jump_nonpos|right].
  rewrite negate_jump_pos by lia. done.
Qed.
Lemma last_subtree_block L ms0 b : 0 <= L -> b <> [] ->
  last_subtree (L :: ms0 ++ block_marks L b) (length ms0 + length b) = Some (length ms0).
Proof.
  intros HL Hb. assert (Hn : forall n, (n < length b)%nat -> last_subtree (L :: ms0 ++ block_marks L b) (length ms0 + S n) = Some (length ms0)).
  { intros n. rewrite Nat.add_succ_r. induction n as [|n IH]; intros Hn; cbn [last_subtree].
    - rewrite Nat.add_0_r. change ((L :: ms0 ++ block_marks L b) !!! S (length ms0)) with ((ms0 ++ block_marks L b) !!! length ms0).
      rewrite lookup_total_app_r, Nat.sub_diag by lia. change (level _) with L. cbn. by rewrite Z.eqb_refl.
    - change ((L :: ms0 ++ block_marks L b) !!! S (length ms0 + S n)) with ((ms0 ++ block_marks L b) !!! (length ms0 + S n)%nat).
      rewrite lookup_total_app_r by lia. replace (length ms0 + S n - length ms0)%nat with (S n) by lia.
      change (block_marks L b !!! S n) with (replicate (length b - 1) (-1) !!! n). rewrite lookup_total_replicate_2 by lia.
      change (level _) with L. rewrite (proj2 (Z.eqb_neq (-1) L)) by lia. rewrite Nat.add_succ_r. apply IH. lia. }
  assert (Hl : (0 < length b)%nat) by (destruct b; [done|cbn; lia]). specialize (Hn (length b - 1)%nat ltac:(lia)).
  by replace (S (length b - 1)) with (length b) in Hn by lia.
Qed.
Lemma negate_last L ms0 p l0 b : p_insn p = l0 ++ b -> length l0 = length ms0 -> 0 <= L -> b <> [] ->
  negate_subtree false (p, L :: ms0 ++ block_marks L b) =
  (set_insn (l0 ++ map (negate_insn false) b) p, L :: ms0 ++ block_marks L (map (negate_insn false) b)).
Proof.
  intros Hp Hl HL Hb. unfold negate_subtree. rewrite Hp, length_app, Hl, last_subtree_block by done.
  rewrite <- Hl, take_app_length, drop_app_length. unfold block_marks. by rewrite length_map.
Qed.
