(* ===== verification/ClassifyDom.v ===== *)
(** * The dominator optimisation of packet classification programs
    ([DominatorOptimizer] in [elements/standard/classification.cc])

    The optimizer keeps, for every state, up to four lists of branches such that every path to
    the state takes all the branches of one of them, and moves the branches whose next test
    those lists decide.  [_dom], [_dom_start] and [_domlist_start] are the code's arrays, since
    it writes into the lists of other states; the linked lists of [_pred_first], [_pred_next]
    and [_pred_prev] are lists.  A branch is a number, twice its state plus one for yes. *)
From Stdlib Require Import ZArith Lia.
From stdpp Require Import base list numbers option.
From S2P Require Import Prelude Qsort Classify.
#[local] Open Scope Z_scope.

Record Dom : Type := MkDom {
  d_insn : list Insn;
  d_known_length : list Z;
  d_insn_id : list Z;
  d_dom : list Z;
  d_dom_start : list nat;
  d_domlist_start : list nat;
  d_pred : list (list Z)
}.
Definition brno (state : Z) (br : bool) : Z := 2 * state + Z.b2z br.
Definition stateno (br : Z) : Z := Z.shiftr br 1.
Definition br_yes (br : Z) : bool := Z.odd br.
Definition MAX_DOMLIST : nat := 4.

(** An element of a [Vector], with its assertion. *)
Definition at_index {A} (l : list A) (i : nat) : res A := opt_res AssertFailed (l !! i).
Definition passert (b : bool) : res unit := if b then Ok tt else Fault AssertFailed.

(** ** The constructor *)
(** [Insn::compare]: [memcmp] of the first 12 bytes, the tests. *)
Definition le_bytes (n : nat) (x : Z) : list Z := map (fun k => Z.land (Z.shiftr x (8 * Z.of_nat k)) 255) (seq 0 n).
Definition test_bytes (t : Test) : list Z :=
  le_bytes 2 (i_offset t) ++ [0; Z.b2z (i_short t)] ++ le_bytes 4 (i_mask t) ++ le_bytes 4 (i_value t).
Fixpoint memcmp (a b : list Z) : Z :=
  match a, b with
  | x :: a, y :: b => if x =? y then memcmp a b else x - y
  | _, _ => 0
  end.
Definition insn_compare (a b : Insn) : Z := memcmp (test_bytes (i_test a)) (test_bytes (i_test b)).
Definition insn_permute_compare (l : list Insn) (a b : Z) : Z :=
  let cmp := insn_compare (l !!! Z.to_nat a) (l !!! Z.to_nat b) in
  if cmp =? 0 then a - b else cmp.

Definition known_step (l : list Insn) (known : list Z) (i : nat) : list Z :=
  let insn := l !!! i in
  let t := i_test insn in
  let here := known !!! i in
  let tested_length := Z.max (required_length t) here in
  let so := i_short t in
  let lower j len known :=
    if (0 <? j) && (len <? known !!! Z.to_nat j) then <[Z.to_nat j := len]> known else known in
  lower (in_j insn so) here (lower (in_j insn (negb so)) tested_length known).
Definition known_lengths (l : list Insn) : list Z :=
  foldl (known_step l) (<[0%nat := 0]> (replicate (length l) 0x7FFFFFFF)) (seq 0 (length l)).
(** The identifiers, from the permutation that sorts the instructions. *)
Fixpoint number_insns (l : list Insn) (previous : option Z) (permute : list Z) (ids : list Z) : list Z :=
  match permute with
  | [] => ids
  | i :: permute =>
      let id := match previous with
                | Some h => if insn_compare (l !!! Z.to_nat i) (l !!! Z.to_nat h) =? 0
                            then ids !!! Z.to_nat h else i
                | None => i
                end in
      number_insns l (Some i) permute (<[Z.to_nat i := id]> ids)
  end.
Definition initial_pred (l : list Insn) : list (list Z) :=
  foldl (fun pred '(i, j, k) =>
           if 0 <? j then alter (cons (brno (Z.of_nat i) k)) (Z.to_nat j) pred else pred)
    (replicate (length l) [])
    (concat (imap (fun i e => [(i, i_no e, false); (i, i_yes e, true)]) l)).
Definition DominatorOptimizer (l : list Insn) : res Dom :=
  permute ← click_qsort (insn_permute_compare l) (map Z.of_nat (seq 0 (length l)));
  Ok (MkDom l (known_lengths l) (number_insns l None permute (replicate (length l) 0)) [] [0%nat] [0%nat]
        (initial_pred l)).

Definition set_dom (dom : list Z) (d : Dom) : Dom :=
  MkDom (d_insn d) (d_known_length d) (d_insn_id d) dom (d_dom_start d) (d_domlist_start d) (d_pred d).
Definition insn_id (d : Dom) (s : Z) : Z := d_insn_id d !!! Z.to_nat s.
Definition br_implies (d : Dom) (br state : Z) : bool :=
  let from := Z.to_nat (stateno br) in
  let f := if br_yes br then implies else not_implies in
  f (i_test (d_insn d !!! from)) (i_test (d_insn d !!! Z.to_nat state)) (d_known_length d !!! from).
Definition br_implies_not (d : Dom) (br state : Z) : bool :=
  let from := Z.to_nat (stateno br) in
  let f := if br_yes br then implies_not else not_implies_not in
  f (i_test (d_insn d !!! from)) (i_test (d_insn d !!! Z.to_nat state)) (d_known_length d !!! from).

(** The predecessors of a state: a branch goes in before the first that is not smaller. *)
Fixpoint insert_pred (br : Z) (l : list Z) : list Z :=
  match l with
  | [] => [br]
  | x :: l' => if x <? br then x :: insert_pred br l' else br :: l
  end.
Definition remove_pred (br : Z) (l : list Z) : list Z := List.filter (fun x => negb (x =? br)) l.
Definition set_branch (from_state : Z) (branch : bool) (to_state : Z) (d : Dom) : Dom :=
  let br := brno from_state branch in
  let old := in_j (d_insn d !!! Z.to_nat from_state) branch in
  let pred := if 0 <? old then alter (remove_pred br) (Z.to_nat old) (d_pred d) else d_pred d in
  let pred := if 0 <? to_state then alter (insert_pred br) (Z.to_nat to_state) pred else pred in
  MkDom (alter (set_j branch to_state) (Z.to_nat from_state) (d_insn d)) (d_known_length d) (d_insn_id d)
    (d_dom d) (d_dom_start d) (d_domlist_start d) pred.

(** ** [calculate_dom] *)
(** One dominator list of a predecessor: it is passed over if it holds the other branch, and
    otherwise ends with the branch to this state. *)
Definition push_list (d : Dom) (s pred_brid : Z) (acc : list Z * list nat * list nat) (j : nat)
  : res (list Z * list nat * list nat) :=
  let '(dom, pdom, pdom_end) := acc in
  pos1 ← at_index (d_dom_start d) j;
  pos2 ← at_index (d_dom_start d) (S j);
  if existsb (fun k => Z.lxor (dom !!! k) pred_brid =? 1) (seq pos1 (pos2 - 1 - pos1)) then Ok acc
  else
    last_br ← at_index dom (pos2 - 1);
    _ ← passert (stateno last_br =? insn_id d s);
    Ok (<[(pos2 - 1)%nat := pred_brid]> dom, pdom ++ [pos1], pdom_end ++ [pos2]).
Fixpoint push_lists (d : Dom) (s pred_brid : Z) (js : list nat) (acc : list Z * list nat * list nat)
  : res (list Z * list nat * list nat) :=
  match js with
  | [] => Ok acc
  | j :: js => acc ← push_list d s pred_brid acc j; push_lists d s pred_brid js acc
  end.
Definition domlists (d : Dom) (s : Z) : res (list nat) :=
  first ← at_index (d_domlist_start d) (Z.to_nat s);
  last_ ← at_index (d_domlist_start d) (S (Z.to_nat s));
  Ok (seq first (last_ - first)).
(** [pdom.back()] and [pdom_end.back()] *)
Definition back (l : list nat) : res nat := at_index l (length l - 1).
(** The branch [br] into the state, after one of state [prev] and before [rest]: if both
    branches of its state lead here, the second one takes the state off the list. *)
Definition collect_pred (d : Dom) (prev : option Z) (rest : list Z) (br : Z) (acc : list Z * list nat * list nat)
  : res (list Z * list nat * list nat) :=
  let s := stateno br in
  if decide (prev = Some s) then
    let '(dom, pdom, pdom_end) := acc in
    _ ← passert (match rest with [] => true | next :: _ => negb (stateno next =? insn_id d s) end);
    b ← back pdom; e ← back pdom_end;
    _ ← passert (b <? e)%nat;
    last_br ← at_index dom (e - 1);
    _ ← passert (stateno last_br =? insn_id d s);
    Ok (dom, pdom, <[(length pdom_end - 1)%nat := (e - 1)%nat]> pdom_end)
  else
    js ← domlists d s;
    push_lists d s (brno (insn_id d s) (br_yes br)) js acc.
Fixpoint collect_preds (d : Dom) (prev : option Z) (preds : list Z) (acc : list Z * list nat * list nat)
  : res (list Z * list nat * list nat) :=
  match preds with
  | [] => Ok acc
  | br :: rest =>
      acc ← collect_pred d prev rest br acc;
      collect_preds d (Some (stateno br)) rest acc
  end.

(** Copying a list for the new state: branches of the state that comes last are kept only
    there; the second result is the last branch of the new state's own test. *)
Definition copy_branch (dom : list Z) (mybr last_pdom_br : Z) (endpos : nat) (acc : list Z * Z) (i : nat)
  : list Z * Z :=
  let '(out, pred_mybr) := acc in
  let thisbr := dom !!! i in
  if (i <? endpos)%nat && (Z.lxor thisbr last_pdom_br <=? 1) then acc
  else (out ++ [thisbr], if Z.lxor thisbr mybr <=? 1 then thisbr else pred_mybr).
Definition copy_list (dom : list Z) (mybr : Z) (pos pos_end : nat) : res (list Z * Z) :=
  _ ← passert (0 <? pos_end)%nat;
  last_pdom_br ← at_index dom (pos_end - 1);
  Ok (foldl (copy_branch dom mybr last_pdom_br (pos_end - 1)) ([], -1) (seq pos (pos_end - pos))).
Fixpoint copy_lists (pdoms : list (nat * nat)) (dom : list Z) (dom_start : list nat) (mybr num_mybr : Z)
  : res (list Z * list nat * Z * Z) :=
  match pdoms with
  | [] => Ok (dom, dom_start, mybr, num_mybr)
  | (pos, pos_end) :: pdoms =>
      '(out, pred_mybr) ← copy_list dom mybr pos pos_end;
      let same := (0 <=? num_mybr) && (0 <=? pred_mybr) && ((num_mybr =? 0) || (mybr =? pred_mybr)) in
      let mybr := if same then pred_mybr else mybr in
      let num_mybr := if same then num_mybr + 1 else -1 in
      let dom := dom ++ out ++ [mybr] in
      copy_lists pdoms dom (dom_start ++ [length dom]) mybr num_mybr
  end.

(** [intersect_lists], for all the lists [[start, end)] of [inp]. *)
Fixpoint skip_below (n : nat) (inp : list Z) (pos : nat) (x : Z) : nat :=
  match n with
  | O => pos
  | S n => if inp !!! pos <? x then skip_below n inp (S pos) x else pos
  end.
Fixpoint intersect_loop (fuel : nat) (inp : list Z) (ends : list nat) (x : Z) (pos : list nat) (p k : nat)
    (out : list Z) : res (list Z) :=
  match fuel with
  | O => Fault Diverges
  | S fuel =>
      if (k <? length ends)%nat then
        let q := skip_below (ends !!! p - pos !!! p) inp (pos !!! p) x in
        if (ends !!! p <=? q)%nat then Ok out
        else
          let x' := inp !!! q in
          let next_p := if (S p =? length ends)%nat then 0%nat else S p in
          if x <? x' then intersect_loop fuel inp ends x' (<[p := q]> pos) next_p 1 out
          else intersect_loop fuel inp ends x (<[p := q]> pos) next_p (S k) out
      else intersect_loop fuel inp ends (x + 1) pos 0 0 (out ++ [x])
  end.
Definition slice {A} (l : list A) (first last : nat) : list A := take (last - first) (drop first l).
Definition intersect_fuel (starts ends : list nat) : nat :=
  (2 * foldr (fun '(a, b) n => (b - a + n)%nat) 0%nat (zip starts ends) + 2) * (length ends + 1).
Definition intersect_lists (inp : list Z) (starts ends : list nat) : res (list Z) :=
  match starts with
  | [] => Ok []
  | [s] => Ok (slice inp s (ends !!! 0%nat))
  | _ => intersect_loop (intersect_fuel starts ends) inp ends (-1) starts 0 0 []
  end.

Definition set_branches (preds : list Z) (to_state : Z) (d : Dom) : Dom :=
  foldl (fun d br => set_branch (stateno br) (br_yes br) to_state d) d preds.
Definition set_lists (dom : list Z) (dom_start : list nat) (d : Dom) : Dom :=
  MkDom (d_insn d) (d_known_length d) (d_insn_id d) dom dom_start (d_domlist_start d) (d_pred d).
Definition end_domlist (d : Dom) : Dom :=
  MkDom (d_insn d) (d_known_length d) (d_insn_id d) (d_dom d) (d_dom_start d)
    (d_domlist_start d ++ [(length (d_dom_start d) - 1)%nat]) (d_pred d).
(** The branches of a state that cannot be reached. *)
Definition impossible (state : nat) (d : Dom) : Dom :=
  if (state =? 0)%nat
  then let dom := d_dom d ++ [brno 0 false] in set_lists dom (d_dom_start d ++ [length dom]) d
  else set_branch (Z.of_nat state) true j_never (set_branch (Z.of_nat state) false j_never d).
Definition calculate_dom (state : nat) (d : Dom) : res Dom :=
  _ ← passert (length (d_domlist_start d) =? S state)%nat;
  lists ← back (d_domlist_start d);
  _ ← passert (length (d_dom_start d) - 1 =? lists)%nat;
  entries ← back (d_dom_start d);
  _ ← passert (length (d_dom d) =? entries)%nat;
  let predecessors := d_pred d !!! state in
  '(dom, pdom, pdom_end) ← collect_preds d None predecessors (d_dom d, [], []);
  let mybr := brno (insn_id d (Z.of_nat state)) false in
  let d1 := set_dom dom d in
  d ← (if (MAX_DOMLIST <? length pdom)%nat then
         out ← intersect_lists dom pdom pdom_end;
         let dom := dom ++ out ++ [mybr] in
         Ok (set_lists dom (d_dom_start d ++ [length dom]) d1)
       else if (length pdom =? 0)%nat then Ok (impossible state d1)
       else
         '(dom', dom_start, mybr', num_mybr) ← copy_lists (zip pdom pdom_end) dom (d_dom_start d) mybr 0;
         if 0 <? num_mybr then
           let new_state := in_j (d_insn d !!! state) (br_yes mybr') in
           Ok (impossible state (set_branches predecessors new_state d1))
         else Ok (set_lists dom' dom_start d1));
  Ok (end_domlist d).

(** ** [shift_branch] *)
(** The first branch of the list, from its end, that decides the test of [to_state]. *)
Fixpoint decided (d : Dom) (to_state : Z) (brs : list Z) : option bool :=
  match brs with
  | [] => None
  | br :: brs =>
      if br_implies d br to_state then Some true
      else if br_implies_not d br to_state then Some false
      else decided d to_state brs
  end.
(** The states the branch is shifted through, the last one its destination. *)
Fixpoint shift_states (fuel : nat) (d : Dom) (to_state : Z) (brs : list Z) : list Z :=
  match fuel with
  | O => [to_state]
  | S fuel =>
      if 0 <? to_state then
        match decided d to_state brs with
        | Some b => to_state :: shift_states fuel d (in_j (d_insn d !!! Z.to_nat to_state) b) brs
        | None => [to_state]
        end
      else [to_state]
  end.
Definition dom_shift_branch (d : Dom) (br to_state : Z) (dom dom_end : nat) : res (list Z * Dom) :=
  let br := brno (insn_id d (stateno br)) (br_yes br) in
  _ ← passert (dom <? dom_end)%nat;
  last_br ← at_index (d_dom d) (dom_end - 1);
  _ ← passert (stateno last_br =? stateno br);
  let d := set_dom (<[(dom_end - 1)%nat := br]> (d_dom d)) d in
  Ok (shift_states (length (d_insn d)) d to_state (rev (slice (d_dom d) dom dom_end)), d).
Definition last_or (x : Z) (l : list Z) : Z := List.last l x.
Fixpoint shift_lists (d : Dom) (br nexts : Z) (js : list nat) (vals : list Z) (starts ends : list nat)
  : res (Dom * list Z * list nat * list nat) :=
  match js with
  | [] => Ok (d, vals, starts, ends)
  | j :: js =>
      first ← at_index (d_dom_start d) j;
      last_ ← at_index (d_dom_start d) (S j);
      '(states, d) ← dom_shift_branch d br nexts first last_;
      shift_lists d br nexts js (vals ++ states) (starts ++ [length vals]) (ends ++ [length (vals ++ states)])
  end.
Definition last_common_state_in_lists (inp : list Z) (starts ends : list nat) : res Z :=
  let s := inp !!! (ends !!! 0%nat - 1)%nat in
  if (s <=? 0) && forallb (fun e => inp !!! (e - 1)%nat =? s) ends then Ok s
  else
    intersection ← intersect_lists inp starts ends;
    at_index intersection (length intersection - 1).
Definition shift_branch (state : nat) (branch : bool) (d : Dom) : res Dom :=
  let nexts := in_j (d_insn d !!! state) branch in
  let br := brno (Z.of_nat state) branch in
  js ← domlists d (Z.of_nat state);
  '(d, new_nexts) ←
    (if (length js =? 0)%nat || (nexts <=? 0) then Ok (d, nexts)
     else if (length js =? 1)%nat then
       '(d, vals, _, _) ← shift_lists d br nexts js [] [] [];
       Ok (d, last_or nexts vals)
     else
       '(d, vals, starts, ends) ← shift_lists d br nexts js [] [] [];
       s ← last_common_state_in_lists vals starts ends;
       Ok (d, s));
  Ok (if new_nexts =? nexts then d else set_branch (Z.of_nat state) branch new_nexts d).
Definition run_state (state : nat) (d : Dom) : res Dom :=
  _ ← passert (length (d_domlist_start d) =? S state)%nat;
  d ← calculate_dom state d;
  d ← shift_branch state true d;
  shift_branch state false d.
Fixpoint run_states (states : list nat) (d : Dom) : res Dom :=
  match states with
  | [] => Ok d
  | s :: states => d ← run_state s d; run_states states d
  end.
Definition optimize_dominators (l : list Insn) : res (list Insn) :=
  d ← DominatorOptimizer l;
  d ← run_states (seq 0 (length l)) d;
  Ok (d_insn d).

(** ** [optimize] *)
Definition optimize (offset_map : list (Z * Z)) (last_offset : Z) (pr : Program) : res Program :=
  l ← opt_res Diverges (bubble_sort_and_exprs offset_map last_offset (p_insn pr));
  l ← optimize_dominators l;
  l ← opt_res Diverges (combine_compatible_states l);
  Ok (finish_program (p_align_offset pr) (remove_unused_states l (p_output_everything pr))).
