(* ===== verification/DomWays.v ===== *)
(** * Ways through a classification program

    What the dominator optimisation of [ClassifyDom] relies on: the implications between tests
    hold for packets that are long enough; a branch can be moved when the way through it leads
    to the same place; and the lists collected from the predecessors of a state hold on one of
    the ways to it.  [exact] runs the optimizer and checks where the code can lose a way: a
    state whose two branches both lead to the next must have a single list, and must not come
    up again among the predecessors.  It is false as well when an assertion fails in that run. *)
From Stdlib Require Import ZArith Lia.
From stdpp Require Import base list numbers option.
From S2P Require Import Prelude Qsort Classify ClassifyDom.
#[local] Open Scope Z_scope.

(** ** Implications between tests *)
Section Sound.
Context (al : Z) (p : packet_mem).
Let T := data_test al p.
Lemma implies_sound t x kl : test_ok t -> test_ok x -> implies t x kl = true -> T t = true -> T x = true.
Proof.
  intros Ht Hx. unfold implies. destruct (Z.eqb_spec (i_mask x) 0) as [E|_]; [intros _ _; by apply data_test_no_mask|].
  destruct (Z.eqb_spec (i_offset x) (i_offset t)) as [Ho|]; [|done]. cbn [negb orb]. destruct (negb _); [done|].
  rewrite andb_true_iff, !Z.eqb_eq. intros [Hm Hv]. unfold T. rewrite !data_test_bits by done. intros H n Hn Hb. rewrite Ho.
  assert (Hbt : Z.testbit (i_mask t) n = true) by (rewrite <- Hm, Z.land_spec in Hb; by apply andb_true_iff in Hb as []).
  rewrite H by done. rewrite <- Hv, !Z.land_spec, Hbt, Hb. by rewrite andb_true_r.
Qed.
Lemma implies_not_sound t x kl : test_ok t -> test_ok x -> implies_not t x kl = true -> T t = true -> T x = false.
Proof.
  intros Ht Hx. unfold implies_not. destruct (Z.eqb_spec (i_offset x) (i_offset t)) as [Ho|]; [|by rewrite orb_true_r].
  destruct (_ || _); [done|]. rewrite andb_true_iff, negb_true_iff, Z.eqb_eq, Z.eqb_neq. intros [Hm Hv].
  unfold T. intros H. destruct (data_test al p x) eqn:E; [|done]. exfalso. apply Hv.
  rewrite data_test_bits in H, E by done. rewrite Ho in E. apply Z.bits_inj'. intros n Hn. rewrite !Z.land_spec.
  destruct (Z.testbit (i_mask x) n) eqn:Hb.
  - assert (Hbt : Z.testbit (i_mask t) n = true) by (rewrite <- Hm, Z.land_spec in Hb; by apply andb_true_iff in Hb as []).
    rewrite Hbt. rewrite <- H, E by done. by rewrite andb_true_r.
  - rewrite (value_bit x n Hx Hn Hb). by rewrite !andb_false_r.
Qed.
Lemma not_implies_sound t x kl : test_ok t -> test_ok x -> not_implies t x kl = true -> T t = false -> T x = true.
Proof.
  intros Ht Hx. unfold not_implies. destruct (Z.eqb_spec (i_mask x) 0) as [E|Hmx]; [intros _ _; by apply data_test_no_mask|].
  destruct (Z.eqb_spec (i_offset x) (i_offset t)) as [Ho|]; [|done]. cbn [negb orb]. destruct (negb _); [done|].
  rewrite !andb_true_iff, negb_true_iff, Z.eqb_eq, Z.eqb_neq. intros [[H1 Hm] Hv] HT.
  assert (Hfl : flippable (i_test (MkInsn t 0 0)) = true).
  { unfold flippable. cbn [i_test]. rewrite H1, Hm. by rewrite (proj2 (Z.eqb_neq _ 0) Hmx). }
  pose proof (flippable_power t Ht Hfl) as (k & Hk & Ek).
  pose proof Ht as (Hmt & _ & Hvt). pose proof Hx as (_ & _ & Hvx).
  assert (Hbit : forall w, Z.land w (i_mask t) = w -> w = if Z.testbit w k then 2 ^ k else 0).
  { intros w Hw. apply Z.bits_inj'. intros n Hn. rewrite <- Hw, Ek, !Z.land_spec. rewrite Z.pow2_bits_eqb by done.
    destruct (Z.eqb_spec k n) as [->|Hne]; [rewrite Z.pow2_bits_true, !andb_true_r by done|rewrite andb_false_r].
    - destruct (Z.testbit w n); [by rewrite Z.pow2_bits_true|by rewrite Z.bits_0].
    - destruct (Z.testbit w k && _); [by rewrite Z.pow2_bits_false|by rewrite Z.bits_0]. }
  unfold T in *. unfold data_test in *. rewrite Ho, <- Hm. apply Z.eqb_eq. apply Z.eqb_neq in HT.
  set (w := Z.land (word p (i_offset t - al)) (i_mask t)) in *.
  assert (Hw : Z.land w (i_mask t) = w) by (unfold w; rewrite <- Z.land_assoc, Z.land_diag; done).
  rewrite <- Hm in Hvx. rewrite (Hbit w Hw), (Hbit (i_value x) Hvx) in *. rewrite (Hbit (i_value t) Hvt) in *.
  by destruct (Z.testbit w k), (Z.testbit (i_value x) k), (Z.testbit (i_value t) k).
Qed.
Lemma not_implies_not_sound t x kl : test_ok t -> test_ok x -> not_implies_not t x kl = true -> T t = false -> T x = false.
Proof.
  intros Ht Hx. unfold not_implies_not. destruct (Z.eqb_spec (i_mask t) 0) as [E|_].
  { intros _. unfold T. by rewrite data_test_no_mask. }
  destruct (Z.eqb_spec (i_offset x) (i_offset t)) as [Ho|]; [|done]. cbn [negb orb]. destruct (negb _); [done|].
  rewrite andb_true_iff, !Z.eqb_eq. intros [Hm Hv] HT. destruct (T x) eqn:E; [|done]. exfalso.
  assert (T t = true); [|congruence]. clear HT. unfold T in *. rewrite data_test_bits in E |- * by done.
  intros n Hn Hb. rewrite <- Ho.
  assert (Hbx : Z.testbit (i_mask x) n = true) by (rewrite <- Hm, Z.land_spec in Hb; by apply andb_true_iff in Hb as []).
  rewrite E by done. rewrite Hv, !Z.land_spec, Hb, Hbx. by rewrite !andb_true_r.
Qed.
End Sound.

(** ** Ways through a program *)
Section Ways.
Context (test : Test -> bool).
Inductive visits (l : list Insn) : nat -> Prop :=
| visits_start : visits l 0
| visits_jump i e j : visits l i -> l !! i = Some e -> in_j e (test (i_test e)) = Z.of_nat j -> (0 < j)%nat -> visits l j.

Lemma visits_prev l j : (0 < j)%nat -> visits l j ->
  exists i e, visits l i /\ l !! i = Some e /\ in_j e (test (i_test e)) = Z.of_nat j.
Proof. intros Hj H. destruct H as [|i e j Hi He Hx _]; [lia|]. by exists i, e. Qed.
(** Programs that differ only in jumps to states from [m] on. *)
Definition same_below (m : nat) (l l' : list Insn) : Prop :=
  forall i e', l' !! i = Some e' -> exists e, l !! i = Some e /\ i_test e = i_test e' /\
    forall k, in_j e' k = in_j e k \/ ~ (0 < in_j e' k < Z.of_nat m).
Lemma visits_below m l l' s : forward l' -> same_below m l l' -> visits l' s -> (s < m)%nat -> visits l s.
Proof.
  intros Hf Hsame H. induction H as [|i e' j Hi IH He Hx Hj]; intros Hlt; [constructor|].
  destruct (Hf i e' He (test (i_test e'))) as [Hc|Hc]; [lia|].
  destruct (Hsame i e' He) as (e & He0 & Ht & Hk). apply (visits_jump l i e j); [apply IH; lia|done| |done].
  rewrite Ht. destruct (Hk (test (i_test e'))) as [E|E]; [congruence|lia].
Qed.
Lemma same_below_refl m l : same_below m l l.
Proof. intros i e He. exists e. split_and!; try done. by left. Qed.
Lemma same_below_trans m l1 l2 l3 : same_below m l1 l2 -> same_below m l2 l3 -> same_below m l1 l3.
Proof.
  intros H12 H23 i e3 He3. destruct (H23 i e3 He3) as (e2 & He2 & T2 & K2). destruct (H12 i e2 He2) as (e1 & He1 & T1 & K1).
  exists e1. split; [done|]. split; [congruence|]. intros k. destruct (K2 k) as [E|E]; [|by right].
  rewrite E. destruct (K1 k) as [E1|E1]; [by left|by right].
Qed.
Lemma lands_above l l' i j r : (forall m, (i < m)%nat -> l' !! m = l !! m) -> forward l -> jump_ok (length l) i j ->
  lands test l j r -> lands test l' j r.
Proof.
  intros Hsame Hf Hj H. revert i Hsame Hj. induction H as [j Hj0|j e r Hj0 He H IH]; intros i Hsame Hj; [by apply lands_out|].
  destruct Hj as [|Hj]; [lia|]. eapply lands_step; [done|rewrite Hsame by lia; exact He|].
  apply (IH (Z.to_nat j)); [intros m Hm; apply Hsame; lia|]. by apply Hf.
Qed.

(** Changing one branch. *)
Section Branch.
Context (l : list Insn) (i : nat) (e : Insn) (b : bool) (to : Z).
Context (Hf : forward l) (He : l !! i = Some e) (Hto : jump_ok (length l) i to).
Let l' := alter (set_j b to) i l.
Lemma branch_lookup m : l' !! m = if decide (m = i) then Some (set_j b to e) else l !! m.
Proof.
  unfold l'. destruct (decide (m = i)) as [-> |Hne]; [|by rewrite list_lookup_alter_ne].
  by rewrite list_lookup_alter_eq, He.
Qed.
Lemma branch_length : length l' = length l.
Proof. apply length_alter. Qed.
Lemma branch_forward : forward l'.
Proof.
  intros m em Hem k. rewrite branch_length. rewrite branch_lookup in Hem. destruct (decide (m = i)) as [-> |]; [|by apply Hf].
  injection Hem as <-. rewrite in_j_set. destruct (Bool.eqb k b); [done|by apply Hf].
Qed.
Lemma branch_same_below m : (0 < to -> Z.of_nat m <= to) -> same_below m l l'.
Proof.
  intros Hm x ex Hex. rewrite branch_lookup in Hex. destruct (decide (x = i)) as [-> |]; [|exists ex; split_and!; try done; by left].
  injection Hex as <-. exists e. rewrite set_j_test. split_and!; try done. intros k. rewrite in_j_set.
  destruct (Bool.eqb k b); [right; lia|by left].
Qed.
(** Enough that the branch, when it is taken, leads where it did. *)
Lemma branch_runs :
  (visits l i -> test (i_test e) = b -> forall r, lands test l (in_j e b) r -> lands test l to r) ->
  forall r, runs test l 0 r -> runs test l' 0 r.
Proof.
  intros Hsound. assert (Hall : forall pos, (pos < length l)%nat -> visits l pos -> forall r, runs test l pos r -> runs test l' pos r).
  { apply (backward_ind _ (fun pos => visits l pos -> forall r, runs test l pos r -> runs test l' pos r)). intros pos Hlt IH Hv r (em & Hem & Hr).
    assert (Hnext : forall em', l' !! pos = Some em' -> i_test em' = i_test em ->
       in_j em' (test (i_test em)) = in_j em (test (i_test em)) -> runs test l' pos r).
    { intros em' Hem' Ht Hj. exists em'. rewrite Ht, Hj. split; [done|]. apply (lands_mono test l); [|done].
      intros Hx r'. destruct (Hf pos em Hem (test (i_test em))) as [|Hok]; [lia|]. apply IH; [lia|].
      eapply visits_jump; [done|done| |]; [rewrite Z2Nat.id by lia; done|lia]. }
    pose proof (branch_lookup pos) as Hl. destruct (decide (pos = i)) as [-> |].
    - rewrite He in Hem. injection Hem as <-. destruct (Bool.bool_dec (test (i_test e)) b) as [Hb|Hb].
      + exists (set_j b to e). split; [done|]. rewrite set_j_test, Hb, in_j_set_same. rewrite Hb in Hr.
        apply (lands_above l l' i); [|done|done|by apply Hsound].
        intros m Hm. rewrite branch_lookup, decide_False by lia. done.
      + apply (Hnext (set_j b to e)); [done|by rewrite set_j_test|]. rewrite in_j_set.
        by destruct (test (i_test e)), b.
    - apply (Hnext em); [by rewrite Hl|done|done]. }
  intros r Hr. apply Hall; [|constructor|done]. destruct Hr as (e0 & He0 & _). by eapply lookup_lt_Some.
Qed.
End Branch.
End Ways.

(** ** The predecessors *)
Definition is_pred (l : list Insn) (br to : Z) : Prop :=
  exists i e k, l !! i = Some e /\ br = brno (Z.of_nat i) k /\ in_j e k = to.
Definition preds_ok (l : list Insn) (pred : list (list Z)) : Prop :=
  length pred = length l /\ forall to, (to < length l)%nat -> forall br, br ∈ pred !!! to <-> (0 < to)%nat /\ is_pred l br (Z.of_nat to).
Lemma stateno_brno s b : stateno (brno s b) = s.
Proof. unfold stateno, brno. rewrite Z.shiftr_div_pow2 by lia. change (2 ^ 1) with 2. rewrite Z.mul_comm, Z.div_add_l by lia. destruct b; apply Z.add_0_r. Qed.
Lemma br_yes_brno s b : br_yes (brno s b) = b.
Proof. unfold br_yes, brno. rewrite Z.add_comm, Z.odd_add_mul_2. by destruct b. Qed.
Lemma brno_inj s b s' b' : brno s b = brno s' b' -> s = s' /\ b = b'.
Proof. intros E. split; [by rewrite <- (stateno_brno s b), E, stateno_brno|by rewrite <- (br_yes_brno s b), E, br_yes_brno]. Qed.
Lemma brno_stateno br : brno (stateno br) (br_yes br) = br.
Proof.
  unfold brno, stateno, br_yes. rewrite Z.shiftr_div_pow2 by lia. change (2 ^ 1) with 2.
  pose proof (Z.div_mod br 2 ltac:(lia)). rewrite Zmod_odd in H. destruct (Z.odd br); cbn; lia.
Qed.
Lemma elem_of_insert_pred br x l : x ∈ insert_pred br l <-> x = br \/ x ∈ l.
Proof.
  induction l as [|y l IH]; cbn [insert_pred].
  - rewrite list_elem_of_singleton, elem_of_nil. tauto.
  - destruct (y <? br); rewrite !list.elem_of_cons, ?IH; tauto.
Qed.
Lemma elem_of_remove_pred br x l : x ∈ remove_pred br l <-> x <> br /\ x ∈ l.
Proof.
  unfold remove_pred. rewrite !list_elem_of_In, List.filter_In, negb_true_iff, Z.eqb_neq. tauto.
Qed.

Lemma lookup_total_alter_case {A} `{!Inhabited A} (f : A -> A) (l : list A) i j : (i < length l)%nat ->
  alter f i l !!! j = if decide (j = i) then f (l !!! i) else l !!! j.
Proof.
  intros Hi. rewrite !list_lookup_total_alt. destruct (decide (j = i)) as [-> |Hne].
  - rewrite list_lookup_alter_eq. destruct (lookup_lt_is_Some_2 l i Hi) as [x ->]. done.
  - by rewrite list_lookup_alter_ne.
Qed.
Lemma set_branch_insn d i b to : d_insn (set_branch (Z.of_nat i) b to d) = alter (set_j b to) i (d_insn d).
Proof. cbn. by rewrite Nat2Z.id. Qed.
Lemma set_branch_preds d i e b to : preds_ok (d_insn d) (d_pred d) -> forward (d_insn d) -> d_insn d !! i = Some e ->
  jump_ok (length (d_insn d)) i to ->
  preds_ok (d_insn (set_branch (Z.of_nat i) b to d)) (d_pred (set_branch (Z.of_nat i) b to d)).
Proof.
  intros [Hlen Hp] Hf He Hto. rewrite set_branch_insn. unfold set_branch. cbn [d_pred]. rewrite Nat2Z.id, (list_lookup_total_correct _ _ _ He).
  set (br := brno (Z.of_nat i) b). set (old := in_j e b).
  set (p1 := if 0 <? old then alter (remove_pred br) (Z.to_nat old) (d_pred d) else d_pred d).
  assert (Hold : forall t, (t < length (d_insn d))%nat -> br ∈ d_pred d !!! t -> Z.of_nat t = old).
  { intros t Ht Hin. apply Hp in Hin as [_ (i' & e' & k & He' & Hb & Hj)]; [|done]. apply brno_inj in Hb as [Hi <-].
    assert (i' = i) as -> by lia. rewrite He in He'. injection He' as <-. done. }
  assert (Hl1 : length p1 = length (d_insn d)) by (unfold p1; destruct (0 <? old); by rewrite ?length_alter).
  assert (Hp1 : forall t x, (t < length (d_insn d))%nat -> x ∈ p1 !!! t <-> x <> br /\ x ∈ d_pred d !!! t).
  { intros t x Ht. unfold p1. destruct (Z.ltb_spec 0 old) as [H0|H0].
    - destruct (Hf i e He b) as [|Hj]; [unfold old in *; lia|]. fold old in Hj. rewrite lookup_total_alter_case by lia.
      destruct (decide (t = Z.to_nat old)) as [-> |Hne]; [apply elem_of_remove_pred|]. split; [|tauto].
      intros Hin. split; [|done]. intros ->. specialize (Hold t Ht Hin). lia.
    - split; [|tauto]. intros Hin. split; [|done]. intros ->. pose proof (Hold t Ht Hin).
      apply Hp in Hin as [? _]; [|done]. lia. }
  split; [destruct (0 <? to); by rewrite ?length_alter|]. rewrite length_alter. intros t Ht x.
  assert (Hx : x ∈ (if 0 <? to then alter (insert_pred br) (Z.to_nat to) p1 else p1) !!! t <-> (x = br /\ 0 < to /\ to = Z.of_nat t) \/ x ∈ p1 !!! t).
  { destruct (Z.ltb_spec 0 to) as [H0|H0]; [|split; [tauto|intros [[_ [? _]]|]; [lia|done]]].
    destruct Hto as [|Hto]; [lia|]. rewrite lookup_total_alter_case by lia.
    destruct (decide (t = Z.to_nat to)) as [-> |Hne].
    - rewrite elem_of_insert_pred. split; [intros [-> |]; [left; split; [done|lia]|by right]|tauto].
    - split; [tauto|]. intros [(_ & _ & E)|]; [lia|done]. }
  rewrite Hx, Hp1 by done. rewrite Hp by done. split.
  - intros [(-> & H0 & E)|(Hne & Ht0 & i' & e' & k & He' & Hb & Hj)].
    + split; [lia|]. exists i, (set_j b to e), b. rewrite list_lookup_alter_eq, He, in_j_set_same. done.
    + split; [done|]. exists i', (if decide (i' = i) then set_j b to e else e'), k.
      destruct (decide (i' = i)) as [-> |Hi].
      * rewrite list_lookup_alter_eq, He. rewrite He in He'. injection He' as <-. split; [done|]. split; [done|].
        rewrite in_j_set. destruct (Bool.eqb_spec k b) as [-> |]; [done|done].
      * by rewrite list_lookup_alter_ne by done.
  - intros (Ht0 & i' & e' & k & He' & Hb & Hj). destruct (decide (i' = i)) as [-> |Hi].
    + rewrite list_lookup_alter_eq, He in He'. injection He' as <-. rewrite in_j_set in Hj. destruct (Bool.eqb_spec k b) as [-> |Hk].
      * left. split; [done|]. lia.
      * right. split; [intros E; rewrite Hb in E; apply brno_inj in E as [_ E]; done|]. split; [done|]. by exists i, e, k.
    + rewrite list_lookup_alter_ne in He' by done. right. split; [|split; [done|by exists i', e', k]].
      intros E. rewrite Hb in E. apply brno_inj in E as [E _]. lia.
Qed.

(** ** [intersect_lists] *)
Definition in_slice (inp : list Z) (a b : nat) (x : Z) : Prop := exists i, (a <= i < b)%nat /\ inp !!! i = x.
Lemma skip_below_range n inp pos x : (pos <= skip_below n inp pos x <= pos + n)%nat.
Proof. revert pos. induction n as [|n IH]; intros pos; cbn [skip_below]; [lia|]. destruct (_ <? x); [specialize (IH (S pos)); lia|lia]. Qed.
Lemma skip_below_stop n inp pos x : (skip_below n inp pos x < pos + n)%nat -> x <= inp !!! skip_below n inp pos x.
Proof.
  revert pos. induction n as [|n IH]; intros pos; cbn [skip_below]; [lia|].
  destruct (Z.ltb_spec (inp !!! pos) x) as [H|H]; intros Hlt; [apply IH; lia|done].
Qed.
Section Intersect.
Context (inp : list Z) (starts ends : list nat) (Hlen : length starts = length ends) (Hn : (0 < length ends)%nat).
Let n := length ends.
(** [i] steps after [p], cyclically. *)
Definition after (p q : nat) : nat := if (p <=? q)%nat then (q - p)%nat else (q + length ends - p)%nat.
Lemma intersect_loop_subset fuel x pos p k out res :
  length pos = n -> (forall q, (q < n)%nat -> (starts !!! q <= pos !!! q)%nat) -> (p < n)%nat -> (k <= n)%nat ->
  (forall q, (q < n)%nat -> (n - k <= after p q)%nat -> in_slice inp (starts !!! q) (ends !!! q) x) ->
  (forall y q, y ∈ out -> (q < n)%nat -> in_slice inp (starts !!! q) (ends !!! q) y) ->
  intersect_loop fuel inp ends x pos p k out = Ok res ->
  forall y q, y ∈ res -> (q < n)%nat -> in_slice inp (starts !!! q) (ends !!! q) y.
Proof.
  revert x pos p k out. induction fuel as [|fuel IH]; intros x pos p k out Hl Hpos Hp Hk Hx Hout; [done|]. cbn [intersect_loop]. fold n.
  destruct (Nat.ltb_spec k n) as [Hkn|Hkn].
  - set (q := skip_below _ _ _ _). destruct (Nat.leb_spec (ends !!! p) q) as [Hq|Hq]; [by intros [= <-]|].
    pose proof (skip_below_range (ends !!! p - pos !!! p) inp (pos !!! p) x) as Hr.
    pose proof (skip_below_stop (ends !!! p - pos !!! p) inp (pos !!! p) x) as Hstop. fold q in Hr, Hstop.
    pose proof (Hpos p Hp) as Hpp. specialize (Hstop ltac:(lia)).
    assert (Hin : in_slice inp (starts !!! p) (ends !!! p) (inp !!! q)) by (exists q; split; [lia|done]).
    set (np := if (S p =? n)%nat then 0%nat else S p).
    assert (Hnp : (np < n)%nat) by (unfold np; destruct (Nat.eqb_spec (S p) n); lia).
    assert (Hpos' : forall q', (q' < n)%nat -> (starts !!! q' <= <[p := q]> pos !!! q')%nat).
    { intros q' Hq'. destruct (decide (q' = p)) as [-> |Hne]; [rewrite list_lookup_total_insert_eq by lia; lia|].
      rewrite list_lookup_total_insert_ne by done. by apply Hpos. }
    assert (Hafter : forall q', (q' < n)%nat -> q' <> p -> after np q' = (after p q' - 1)%nat /\ (0 < after p q')%nat).
    { intros q' Hq' Hne. unfold after, np. fold n. destruct (Nat.eqb_spec (S p) n) as [E|E], (Nat.leb_spec p q');
        repeat match goal with |- context [(?a <=? ?b)%nat] => destruct (Nat.leb_spec a b) end; lia. }
    assert (Hp0 : after p p = 0%nat) by (unfold after; rewrite Nat.leb_refl; lia).
    destruct (Z.ltb_spec x (inp !!! q)) as [Hgt|Hle]; apply IH; try done; rewrite ?length_insert; try done; try lia.
    + intros q' Hq' Ha. destruct (decide (q' = p)) as [-> |Hne]; [done|]. destruct (Hafter q' Hq' Hne) as [E1 E2].
      assert (after p q' < n)%nat by (unfold after; fold n; destruct (Nat.leb_spec p q'); lia). lia.
    + intros q' Hq' Ha. destruct (decide (q' = p)) as [-> |Hne]; [by replace x with (inp !!! q) by lia|].
      destruct (Hafter q' Hq' Hne) as [E1 E2]. apply Hx; [done|]. lia.
  - apply IH; try done; try lia.
    + intros q Hq Ha. unfold after in Ha. cbn in Ha. lia.
    + intros y q [Hy| ->%list_elem_of_singleton]%elem_of_app Hq; [by apply Hout|]. apply Hx; [done|lia].
Qed.
Lemma intersect_lists_subset res : intersect_lists inp starts ends = Ok res ->
  forall y q, y ∈ res -> (q < n)%nat -> in_slice inp (starts !!! q) (ends !!! q) y.
Proof.
  intros H y q Hy Hq.
  assert (Hcase : (exists a, starts = [a]) \/
    intersect_lists inp starts ends = intersect_loop (intersect_fuel starts ends) inp ends (-1) starts 0 0 []).
  { clear - Hlen Hn. destruct starts as [|a [|a' rest]]; [cbn in Hlen; lia|left; by exists a|by right]. }
  destruct Hcase as [[a Ea]|E].
  - assert (q = 0)%nat as -> by (pose proof (f_equal length Ea) as El; cbn in El; unfold n in Hq; lia).
    rewrite Ea in H |- *. injection H as <-. unfold slice in Hy. apply list_elem_of_lookup in Hy as [i Hi].
    apply lookup_take_Some in Hi as [Hi Hlt]. rewrite lookup_drop in Hi. exists (a + i)%nat. cbn. split; [lia|].
    by apply list_lookup_total_correct.
  - rewrite E in H. eapply (intersect_loop_subset _ (-1) starts 0 0 []); try done; try lia.
    + intros q' Hq' Ha. unfold after in Ha. cbn in Ha. unfold n in *. lia.
    + intros y' q' Hy'. by apply elem_of_nil in Hy'.
Qed.
End Intersect.

(** ** Exactness *)
(** The optimizer's merges are exact: [single] says that the state before had one list, and it
    was taken over. *)
Definition single_list (d : Dom) (s : Z) (acc acc' : list Z * list nat * list nat) : bool :=
  (length (snd (fst acc')) =? S (length (snd (fst acc))))%nat && match domlists d s with Ok [_] => true | _ => false end.
Fixpoint exact_preds (d : Dom) (prev : option (Z * bool)) (seen : list Z) (preds : list Z)
    (acc : list Z * list nat * list nat) : bool :=
  match preds with
  | [] => true
  | br :: rest =>
      let s := stateno br in
      match collect_pred d (fst <$> prev) rest br acc with
      | Fault _ => false
      | Ok acc' =>
          if decide (fst <$> prev = Some s)
          then default false (snd <$> prev) && exact_preds d (Some (s, false)) seen rest acc'
          else bool_decide (s ∉ seen) && exact_preds d (Some (s, single_list d s acc acc')) (s :: seen) rest acc'
      end
  end.
Fixpoint exact_states (states : list nat) (d : Dom) : bool :=
  match states with
  | [] => true
  | s :: states =>
      exact_preds d None [] (d_pred d !!! s) (d_dom d, [], []) &&
      match run_state s d with Ok d => exact_states states d | Fault _ => false end
  end.
Definition exact (l : list Insn) : bool :=
  match DominatorOptimizer l with Ok d => exact_states (seq 0 (length l)) d | Fault _ => false end.

(** ** The arrays *)
Lemma at_index_ok {A} `{!Inhabited A} (l : list A) i x : at_index l i = Ok x <-> (i < length l)%nat /\ l !!! i = x.
Proof.
  unfold at_index. rewrite list_lookup_total_alt. split.
  - intros H. destruct (l !! i) as [y|] eqn:E; [|done]. injection H as ->. split; [by eapply lookup_lt_Some|done].
  - intros [Hi E]. destruct (lookup_lt_is_Some_2 l i Hi) as [y Hy]. rewrite Hy in *. cbn in *. by subst.
Qed.
Lemma passert_ok b u : passert b = Ok u -> b = true.
Proof. by destruct b. Qed.

(** The arrays when the states below [k] have their lists. *)
Record arrays_ok (k : nat) (d : Dom) : Prop := {
  ar_states : length (d_domlist_start d) = S k;
  ar_lists : d_domlist_start d !!! k = (length (d_dom_start d) - 1)%nat;
  ar_mono : forall s s', (s <= s' <= k)%nat -> (d_domlist_start d !!! s <= d_domlist_start d !!! s')%nat;
  ar_some : (0 < length (d_dom_start d))%nat;
  ar_strict : forall j j', (j < j' < length (d_dom_start d))%nat -> (d_dom_start d !!! j < d_dom_start d !!! j')%nat;
  ar_end : d_dom_start d !!! (length (d_dom_start d) - 1)%nat = length (d_dom d);
  ar_nonneg : Forall (fun x => 0 <= x) (d_dom d)
}.
(** List [j] belongs to state [s]. *)
Definition list_of (d : Dom) (s j : nat) : Prop := (d_domlist_start d !!! s <= j < d_domlist_start d !!! S s)%nat.
Lemma domlists_ok d s js : domlists d (Z.of_nat s) = Ok js -> forall j, j ∈ js <-> list_of d s j.
Proof.
  unfold domlists. rewrite Nat2Z.id. intros (f & Ef & (e & Ee & [= <-])%res_bind_ok)%res_bind_ok j.
  apply at_index_ok in Ef as [_ <-]. apply at_index_ok in Ee as [_ <-]. rewrite elem_of_seq. unfold list_of. lia.
Qed.
Lemma domlists_nodup d s js : domlists d s = Ok js -> NoDup js.
Proof. unfold domlists. intros (f & _ & (e & _ & [= <-])%res_bind_ok)%res_bind_ok. apply NoDup_seq. Qed.

Section Lists.
Context (k : nat) (d : Dom) (A : arrays_ok k d).
#[local] Abbreviation ds := (d_dom_start d).
Lemma list_bound s j : (s < k)%nat -> list_of d s j -> (S j < length ds)%nat.
Proof.
  intros Hs [_ Hj]. pose proof (ar_mono _ _ A (S s) k ltac:(lia)). rewrite (ar_lists _ _ A) in *. 
  pose proof (ar_some _ _ A).  lia.
Qed.
Lemma list_disjoint s s' j : (s < k)%nat -> (s' < k)%nat -> s <> s' -> list_of d s j -> ~ list_of d s' j.
Proof.
  intros Hs Hs' Hne [H1 H2] [H3 H4]. destruct (decide (s < s')%nat).
  - pose proof (ar_mono _ _ A (S s) s' ltac:(lia)). lia.
  - pose proof (ar_mono _ _ A (S s') s ltac:(lia)). lia.
Qed.
Lemma list_nonempty j : (S j < length ds)%nat -> (ds !!! j < ds !!! S j <= length (d_dom d))%nat.
Proof.
  intros Hj. split; [apply (ar_strict _ _ A); lia|]. rewrite <- (ar_end _ _ A). 
  destruct (decide (S j = length ds - 1)%nat) as [-> |]; [lia|]. pose proof (ar_strict _ _ A (S j) (length ds - 1)%nat ltac:(lia)).  lia.
Qed.
(** The last place of a list is in no other. *)
Lemma last_outside j j' i : (S j < length ds)%nat -> (S j' < length ds)%nat -> j <> j' ->
  (ds !!! j <= i < ds !!! S j)%nat -> i <> (ds !!! S j' - 1)%nat.
Proof.
  intros Hj Hj' Hne Hi. pose proof (list_nonempty j Hj). pose proof (list_nonempty j' Hj'). destruct (decide (j < j')%nat).
  - destruct (decide (S j = j')) as [<- |]; [lia|]. pose proof (ar_strict _ _ A (S j) j' ltac:(lia)).  lia.
  - destruct (decide (S j' = j)) as [<- |]; [lia|]. pose proof (ar_strict _ _ A (S j') j ltac:(lia)).  lia.
Qed.
End Lists.

(** ** Collecting the lists of the predecessors *)
Lemma lxor_one x y : 0 <= x -> 0 <= y -> Z.lxor x y = 1 -> stateno x = stateno y /\ br_yes x = negb (br_yes y).
Proof.
  intros Hx Hy E. assert (Ex : x = Z.lxor y 1) by (rewrite <- E, Z.lxor_comm, Z.lxor_assoc, Z.lxor_nilpotent, Z.lxor_0_r; done).
  split.
  - unfold stateno. rewrite Ex, Z.shiftr_lxor. change (Z.shiftr 1 1) with 0. by rewrite Z.lxor_0_r.
  - unfold br_yes. rewrite <- !Z.bit0_odd, Ex, Z.lxor_spec. by destruct (Z.testbit y 0).
Qed.
Lemma lxor_le_one x y : 0 <= x -> 0 <= y -> Z.lxor x y <= 1 -> stateno x = stateno y.
Proof.
  intros Hx Hy H. assert (H0 : 0 <= Z.lxor x y) by (apply Z.lxor_nonneg; lia).
  assert (Z.lxor x y = 0 \/ Z.lxor x y = 1) as [E|E] by lia; [|by apply lxor_one].
  apply Z.lxor_eq in E. by subst.
Qed.
Lemma brno_nonneg s b : 0 <= s -> 0 <= brno s b.
Proof. unfold brno. destruct b; cbn; lia. Qed.

Abbreviation pdoms := (list Z * list nat * list nat)%type.
Section Collect.
Context (T : Test -> bool) (k : nat) (d : Dom) (A : arrays_ok k d).
#[local] Abbreviation ds := (d_dom_start d).
(** The branch was taken, going by the test of its state. *)
Definition holds (br : Z) : Prop := T (i_test (d_insn d !!! Z.to_nat (stateno br))) = br_yes br.
Lemma holds_opposite x y : 0 <= x -> 0 <= y -> holds x -> holds y -> Z.lxor x y <> 1.
Proof. intros Hx Hy H1 H2 E. destruct (lxor_one x y Hx Hy E) as [Es Eb]. unfold holds in *. rewrite Es, H2 in H1. by destruct (br_yes x), (br_yes y). Qed.
(** All of list [j] but its last branch. *)
Definition valid_list (dom : list Z) (j : nat) : Prop := forall i, (ds !!! j <= i < ds !!! S j - 1)%nat -> holds (dom !!! i).
(** One of the lists collected is a part of list [j] and holds. *)
Definition covered (acc : pdoms) (j : nat) : Prop :=
  let '(dom, pdom, pdom_end) := acc in
  exists q b, pdom !! q = Some (ds !!! j) /\ pdom_end !! q = Some b /\ (b <= ds !!! S j)%nat /\
    forall i, (ds !!! j <= i < b)%nat -> holds (dom !!! i).
(** What collecting leaves alone: only the last places of lists change. *)
Definition acc_ok (acc : pdoms) : Prop :=
  let '(dom, pdom, pdom_end) := acc in
  length pdom = length pdom_end /\ length dom = length (d_dom d) /\ Forall (fun x => 0 <= x) dom /\
  (forall q b, pdom_end !! q = Some b -> (b <= length dom)%nat) /\
  forall i, (i < length dom)%nat -> dom !!! i = d_dom d !!! i \/ exists j, (S j < length ds)%nat /\ i = (ds !!! S j - 1)%nat.

Lemma push_list_cases s brid acc j acc' : push_list d s brid acc j = Ok acc' ->
  let '(dom, pdom, pdom_end) := acc in
  (acc' = acc /\ exists i, (ds !!! j <= i < ds !!! S j - 1)%nat /\ Z.lxor (dom !!! i) brid = 1) \/
  acc' = (<[(ds !!! S j - 1)%nat := brid]> dom, pdom ++ [ds !!! j], pdom_end ++ [ds !!! S j]).
Proof.
  destruct acc as [[dom pdom] pdom_end]. unfold push_list. intros (a & Ea & (b & Eb & H)%res_bind_ok)%res_bind_ok.
  apply at_index_ok in Ea as [_ <-]. apply at_index_ok in Eb as [_ <-]. destruct (existsb _ _) eqn:Ex.
  - injection H as <-. left. split; [done|]. apply existsb_exists in Ex as (i & Hi & E). apply in_seq in Hi. apply Z.eqb_eq in E.
    exists i. split; [lia|done].
  - right. apply res_bind_ok in H as (x & _ & H). apply res_bind_ok in H as (u & _ & H). by injection H as <-.
Qed.
Lemma push_list_ok s brid acc j acc' : 0 <= brid -> (S j < length ds)%nat -> acc_ok acc -> push_list d s brid acc j = Ok acc' -> acc_ok acc'.
Proof.
  destruct acc as [[dom pdom] pdom_end]. intros Hb Hj Hok E. apply push_list_cases in E as [[-> _]| ->]; [done|].
  destruct Hok as (H1 & H2 & H3 & H4 & H5). pose proof (list_nonempty k d A j Hj).
  split_and!; rewrite ?length_insert, ?length_app; [cbn; lia|done|by apply Forall_insert| |].
  - intros q b E. apply lookup_snoc_Some in E as [[_ E]|[_ <-]]; [by eapply H4|lia].
  - intros i Hi. destruct (decide (i = ds !!! S j - 1)%nat) as [->|Hne]; [right; by exists j|].
    rewrite list_lookup_total_insert_ne by done. by apply H5.
Qed.
Lemma push_list_keeps s brid acc j0 acc' j : (S j < length ds)%nat -> (S j0 < length ds)%nat -> j <> j0 ->
  push_list d s brid acc j0 = Ok acc' ->
  (covered acc j -> covered acc' j) /\ (valid_list (fst (fst acc)) j -> valid_list (fst (fst acc')) j).
Proof.
  destruct acc as [[dom pdom] pdom_end]. intros Hj Hj0 Hne E. apply push_list_cases in E as [[-> _]| ->]; [done|].
  assert (Hsame : forall i, (ds !!! j <= i < ds !!! S j)%nat -> <[(ds !!! S j0 - 1)%nat := brid]> dom !!! i = dom !!! i).
  { intros i Hi. apply list_lookup_total_insert_ne. intros E. by apply (last_outside k d A j j0 i). }
  split.
  - intros (q & b & E1 & E2 & Hb & Hh). exists q, b. split_and!; [by apply lookup_app_l_Some|by apply lookup_app_l_Some|done|].
    intros i Hi. rewrite Hsame by lia. by apply Hh.
  - intros Hv i Hi. cbn [fst]. rewrite Hsame by lia. by apply Hv.
Qed.
Lemma push_list_self s brid acc j acc' : (S j < length ds)%nat -> push_list d s brid acc j = Ok acc' ->
  valid_list (fst (fst acc)) j -> valid_list (fst (fst acc')) j.
Proof.
  destruct acc as [[dom pdom] pdom_end]. intros Hj E. apply push_list_cases in E as [[-> _]| ->]; [done|].
  intros Hv i Hi. cbn [fst]. rewrite list_lookup_total_insert_ne by lia. by apply Hv.
Qed.
Lemma push_list_new s brid acc j acc' : (S j < length ds)%nat -> acc_ok acc -> 0 <= brid -> valid_list (fst (fst acc)) j -> holds brid ->
  push_list d s brid acc j = Ok acc' -> covered acc' j.
Proof.
  destruct acc as [[dom pdom] pdom_end]. cbn [fst]. intros Hj (H1 & H2 & H3 & _) Hb Hv Hh E. pose proof (list_nonempty k d A j Hj).
  apply push_list_cases in E as [[_ (i & Hi & E)]| ->].
  - exfalso. apply (holds_opposite (dom !!! i) brid); [|done|by apply Hv|done|done].
    rewrite list.Forall_lookup in H3. apply (H3 i). apply list_lookup_lookup_total_lt. lia.
  - exists (length pdom), (ds !!! S j). split_and!; [by apply list_lookup_middle|rewrite H1; by apply list_lookup_middle|lia|].
    intros i Hi. destruct (decide (i = ds !!! S j - 1)%nat) as [->|Hne]; [by rewrite list_lookup_total_insert_eq by lia|].
    rewrite list_lookup_total_insert_ne by done. apply Hv. lia.
Qed.

(** All the lists of a state. *)
Lemma push_lists_ok s brid js acc acc' : 0 <= brid -> (forall j, j ∈ js -> S j < length ds)%nat -> acc_ok acc -> push_lists d s brid js acc = Ok acc' -> acc_ok acc'.
Proof.
  intros Hb. revert acc. induction js as [|j js IH]; intros acc Hjs Hok; cbn [push_lists]; [by intros [= <-]|].
  intros (acc1 & E1 & E)%res_bind_ok. apply (IH acc1); [intros j' Hj'; apply Hjs; by apply list_elem_of_further| |done].
  eapply push_list_ok; [done|apply Hjs, list_elem_of_here|done|done].
Qed.
Lemma push_lists_keeps s brid js acc acc' j : (S j < length ds)%nat -> (forall j, j ∈ js -> S j < length ds)%nat ->
  push_lists d s brid js acc = Ok acc' -> (valid_list (fst (fst acc)) j -> valid_list (fst (fst acc')) j) /\
  (j ∉ js -> covered acc j -> covered acc' j).
Proof.
  intros Hj. revert acc. induction js as [|j0 js IH]; intros acc Hjs; cbn [push_lists]; [by intros [= <-]|].
  intros (acc1 & E1 & E)%res_bind_ok.
  destruct (IH acc1) as [IH1 IH2]; [intros j' Hj'; apply Hjs; by apply list_elem_of_further|done|].
  pose proof (Hjs j0 ltac:(apply list_elem_of_here)) as Hj0. split.
  - intros Hv. apply IH1. destruct (decide (j = j0)) as [-> |Hne]; [by eapply push_list_self|].
    by eapply (push_list_keeps _ _ _ j0).
  - intros Hn Hc. apply IH2; [intros H; apply Hn; by apply list_elem_of_further|].
    eapply (push_list_keeps _ _ _ j0); [done|done| |done|done]. intros ->. apply Hn, list_elem_of_here.
Qed.
Lemma push_lists_new s brid js acc acc' j : (forall j, j ∈ js -> S j < length ds)%nat -> NoDup js -> j ∈ js ->
  acc_ok acc -> 0 <= brid -> valid_list (fst (fst acc)) j -> holds brid -> push_lists d s brid js acc = Ok acc' -> covered acc' j.
Proof.
  revert acc. induction js as [|j0 js IH]; intros acc Hjs Hnd Hin Hok Hb Hv Hh; [by apply elem_of_nil in Hin|].
  cbn [push_lists]. intros (acc1 & E1 & E)%res_bind_ok. apply list.NoDup_cons in Hnd as [Hn0 Hnd].
  pose proof (Hjs j0 ltac:(apply list_elem_of_here)) as Hj0.
  assert (Hjs' : forall j, j ∈ js -> (S j < length ds)%nat) by (intros j' Hj'; apply Hjs; by apply list_elem_of_further).
  apply list.elem_of_cons in Hin as [-> |Hin].
  - eapply (push_lists_keeps _ _ js acc1 acc' j0); [done..|]. by eapply push_list_new.
  - apply (IH acc1); try done; [by eapply push_list_ok|].
    eapply (push_list_keeps _ _ _ j0); [by apply Hjs'|done|by intros ->|done|done].
Qed.
End Collect.

(** *** Both branches of a state *)
Section Exact.
Context (T : Test -> bool) (k : nat) (d : Dom) (A : arrays_ok k d) (Hid : forall s, 0 <= insn_id d s).
#[local] Abbreviation ds := (d_dom_start d).
Lemma merge_case s rest br acc acc' : stateno br = s -> collect_pred d (Some s) rest br acc = Ok acc' ->
  let '(dom, pdom, pdom_end) := acc in
  exists b e, pdom !! (length pdom - 1)%nat = Some b /\ pdom_end !! (length pdom_end - 1)%nat = Some e /\ (b < e)%nat /\
    acc' = (dom, pdom, <[(length pdom_end - 1)%nat := (e - 1)%nat]> pdom_end).
Proof.
  intros Es. destruct acc as [[dom pdom] pdom_end]. unfold collect_pred. rewrite Es, decide_True by done.
  intros (u1 & _ & (b & Eb & (e & Ee & (u2 & Hbe%passert_ok & (x & _ & (u3 & _ & [= <-])%res_bind_ok)%res_bind_ok)%res_bind_ok)%res_bind_ok)%res_bind_ok)%res_bind_ok.
  apply Nat.ltb_lt in Hbe. unfold back, at_index, opt_res in Eb, Ee.
  destruct (pdom !! _) as [b'|] eqn:E1; [|done]. destruct (pdom_end !! _) as [e'|] eqn:E2; [|done].
  injection Eb as ->. injection Ee as ->. by exists b, e.
Qed.
Lemma merge_keeps s rest br acc acc' j : stateno br = s -> collect_pred d (Some s) rest br acc = Ok acc' ->
  acc_ok d acc -> acc_ok d acc' /\ (covered T d acc j -> covered T d acc' j) /\ fst (fst acc') = fst (fst acc).
Proof.
  intros Es E. apply merge_case in E; [|done]. destruct acc as [[dom pdom] pdom_end]. destruct E as (b & e & E1 & E2 & Hbe & ->).
  intros (H1 & H2 & H3 & H4 & H5). split; [unfold acc_ok; split_and!; try done; [by rewrite length_insert|]|split; [|done]].
  - intros q b' E. destruct (decide (q = length pdom_end - 1)%nat) as [-> |Hne].
    + rewrite list_lookup_insert_eq in E by (by eapply lookup_lt_Some). injection E as <-. specialize (H4 _ _ E2). lia.
    + rewrite list_lookup_insert_ne in E by done. by eapply H4.
  - intros (q & b' & Eq & Eb' & Hb' & Hh). destruct (decide (q = length pdom_end - 1)%nat) as [-> |Hne].
    + exists (length pdom_end - 1)%nat, (e - 1)%nat. rewrite list_lookup_insert_eq by (by eapply lookup_lt_Some).
      rewrite E2 in Eb'. injection Eb' as <-. split_and!; try done; [lia|]. intros i Hi. apply Hh. lia.
    + exists q, b'. by rewrite list_lookup_insert_ne.
Qed.
Definition real_pred (br : Z) : Prop := exists i b, br = brno (Z.of_nat i) b /\ (i < k)%nat.
Lemma new_case s prev rest br acc acc' : prev <> Some (stateno br) -> real_pred br -> stateno br = Z.of_nat s ->
  collect_pred d prev rest br acc = Ok acc' -> acc_ok d acc ->
  exists js, domlists d (Z.of_nat s) = Ok js /\ (forall j, j ∈ js <-> list_of d s j) /\ NoDup js /\
    (forall j, j ∈ js -> S j < length ds)%nat /\ acc_ok d acc' /\
    push_lists d (Z.of_nat s) (brno (insn_id d (Z.of_nat s)) (br_yes br)) js acc = Ok acc'.
Proof.
  intros Hp (i & b & -> & Hi) Es. rewrite stateno_brno in Es. assert (i = s) as -> by lia. unfold collect_pred.
  destruct (decide _) as [Ed|_]; [by destruct Hp|]. rewrite stateno_brno. intros (js & Ejs & E)%res_bind_ok Hok.
  pose proof (domlists_ok _ _ _ Ejs) as Hin. pose proof (domlists_nodup _ _ _ Ejs) as Hnd.
  assert (Hb : forall j, j ∈ js -> (S j < length ds)%nat) by (intros j Hj; apply (list_bound k d A s j Hi); by apply Hin).
  exists js. split_and!; try done. eapply (push_lists_ok k d A); [|exact Hb|exact Hok|exact E]. by apply brno_nonneg.
Qed.

(** Once a list is taken over it stays, if its state does not come up again. *)
Lemma exact_keeps s j prev seen preds acc acc' : (s < k)%nat -> list_of d s j -> Forall real_pred preds ->
  Z.of_nat s ∈ seen -> acc_ok d acc ->
  exact_preds d prev seen preds acc = true -> collect_preds d (fst <$> prev) preds acc = Ok acc' ->
  acc_ok d acc' /\ (covered T d acc j -> covered T d acc' j).
Proof.
  intros Hs Hj Hreal. revert prev seen acc. induction Hreal as [|br preds Hbr _ IH]; intros prev seen acc Hseen Hok Hex E.
  { injection E as <-. done. }
  cbn [exact_preds collect_preds] in *. apply res_bind_ok in E as (acc1 & E1 & E). rewrite E1 in Hex.
  destruct (decide (fst <$> prev = Some (stateno br))) as [Hm|Hm].
  - apply andb_true_iff in Hex as [_ Hex]. rewrite Hm in E1.
    destruct (merge_keeps _ _ _ _ _ j eq_refl E1 Hok) as (Hok1 & Hc1 & _).
    destruct (IH (Some (stateno br, false)) seen acc1 Hseen Hok1 Hex E) as [Hok' Hc']. split; [done|]. intros Hc. by apply Hc', Hc1.
  - apply andb_true_iff in Hex as [Hns Hex]. apply bool_decide_eq_true in Hns.
    pose proof Hbr as (i & b & Ebr & Hi). assert (Es : stateno br = Z.of_nat i) by (by rewrite Ebr, stateno_brno).
    destruct (new_case i _ _ _ _ _ Hm Hbr Es E1 Hok) as (js & Ejs & Hin & Hnd & Hb & Hok1 & Epush).
    destruct (IH (Some (stateno br, single_list d (stateno br) acc acc1)) (stateno br :: seen) acc1) as [Hok' Hc'];
      [by apply list_elem_of_further|done|done|done|]. split; [done|]. intros Hc. apply Hc'.
    eapply (push_lists_keeps T k d A); [exact (list_bound k d A s j Hs Hj)|exact Hb|exact Epush| |done].
    intros Hj'. apply Hin in Hj'. assert (i <> s) by (intros ->; apply Hns; by rewrite Es).
    by apply (list_disjoint k d A i s j).
Qed.
(** A state that was left does not come back. *)
Lemma exact_gone s prev seen preds acc : Z.of_nat s ∈ seen -> fst <$> prev <> Some (Z.of_nat s) ->
  exact_preds d prev seen preds acc = true -> forall br, br ∈ preds -> stateno br <> Z.of_nat s.
Proof.
  revert prev seen acc. induction preds as [|x preds IH]; intros prev seen acc Hseen Hprev Hex br Hbr; [by apply elem_of_nil in Hbr|].
  cbn [exact_preds] in Hex. destruct (collect_pred d (fst <$> prev) preds x acc) as [acc1|]; [|done].
  assert (Hx : stateno x <> Z.of_nat s).
  { intros Ex. rewrite decide_False in Hex by (by rewrite Ex). apply andb_true_iff in Hex as [Hns _].
    apply bool_decide_eq_true in Hns. apply Hns. by rewrite Ex. }
  apply list.elem_of_cons in Hbr as [-> |Hbr]; [done|]. destruct (decide (fst <$> prev = Some (stateno x))).
  - apply andb_true_iff in Hex as [_ Hex]. eapply (IH _ seen); [done| |exact Hex|done]. cbn. congruence.
  - apply andb_true_iff in Hex as [_ Hex]. eapply (IH _ (_ :: seen)); [by apply list_elem_of_further| |exact Hex|done]. cbn. congruence.
Qed.
Lemma single_new s acc acc1 js j brid : acc_ok d acc -> domlists d (Z.of_nat s) = Ok js -> j ∈ js ->
  single_list d (Z.of_nat s) acc acc1 = true -> push_lists d (Z.of_nat s) brid js acc = Ok acc1 ->
  snd (fst acc1) = snd (fst acc) ++ [ds !!! j] /\ snd acc1 = snd acc ++ [ds !!! S j].
Proof.
  intros Hok Ejs Hj Hs E. unfold single_list in Hs. rewrite Ejs in Hs. apply andb_true_iff in Hs as [Hl Hone].
  destruct js as [|j0 [|]]; [done| |done]. apply list_elem_of_singleton in Hj as ->. cbn [push_lists] in E.
  apply res_bind_ok in E as (acc2 & E & [= ->]). apply push_list_cases in E. destruct acc as [[dom pdom] pdom_end].
  destruct E as [[-> _]| ->]; [|done]. apply Nat.eqb_eq in Hl. cbn in Hl. lia.
Qed.
(** A way to the state through a branch of [s] gives a list that holds. *)
Lemma exact_finds s b j prev seen preds acc acc' : (s < k)%nat -> list_of d s j -> Forall real_pred preds ->
  Z.of_nat s ∉ seen -> (forall x, fst <$> prev = Some x -> x ∈ seen) -> acc_ok d acc ->
  valid_list T d (fst (fst acc)) j -> holds T d (brno (insn_id d (Z.of_nat s)) b) -> brno (Z.of_nat s) b ∈ preds ->
  exact_preds d prev seen preds acc = true -> collect_preds d (fst <$> prev) preds acc = Ok acc' ->
  covered T d acc' j.
Proof.
  intros Hs Hj Hreal. revert prev seen acc. induction Hreal as [|br preds Hbr Hreal IH]; intros prev seen acc Hseen Hprev Hok Hv Hh Hin Hex E.
  { by apply elem_of_nil in Hin. }
  cbn [exact_preds collect_preds] in *. apply res_bind_ok in E as (acc1 & E1 & E). rewrite E1 in Hex.
  pose proof Hbr as (i & b' & Ebr & Hi). assert (Es : stateno br = Z.of_nat i) by (by rewrite Ebr, stateno_brno).
  pose proof (list_bound k d A s j Hs Hj) as Hjb.
  destruct (decide (i = s)) as [-> |Hne].
  - assert (Hm : fst <$> prev <> Some (stateno br)) by (intros Hm; apply Hseen; rewrite <- Es; by apply Hprev).
    rewrite decide_False in Hex by done. apply andb_true_iff in Hex as [_ Hex].
    destruct (new_case s _ _ _ _ _ Hm Hbr Es E1 Hok) as (js & Ejs & Hjs & Hnd & Hb & Hok1 & Epush).
    pose proof (proj2 (Hjs j) Hj) as Hjin. rewrite Ebr, br_yes_brno in Epush.
    rewrite Es in *. assert (Hs1 : Z.of_nat s ∈ Z.of_nat s :: seen) by apply list_elem_of_here.
    destruct (decide (b' = b)) as [-> |Hb'].
    + assert (Hc : covered T d acc1 j) by (eapply (push_lists_new T k d A); [exact Hb|exact Hnd|exact Hjin|exact Hok| |exact Hv|exact Hh|exact Epush]; by apply brno_nonneg).
      by eapply (exact_keeps s j _ _ _ acc1 acc' Hs Hj Hreal Hs1 Hok1 Hex E).
    + apply list.elem_of_cons in Hin as [E0|Hin]; [rewrite Ebr in E0; apply brno_inj in E0 as [_ E0]; by destruct Hb'|].
      destruct Hreal as [|br2 preds Hbr2 Hreal]; [by apply elem_of_nil in Hin|].
      cbn [exact_preds collect_preds] in *. apply res_bind_ok in E as (acc2 & E2 & E). cbn [fmap option_fmap option_map fst] in *. rewrite E2 in Hex.
      destruct (decide (Some (Z.of_nat s) = Some (stateno br2))) as [E3|E3].
      * apply andb_true_iff in Hex as [Hsingle Hex]. cbn in Hsingle. injection E3 as E3. rewrite <- E3 in *.
        destruct (single_new s acc acc1 js j _ Hok Ejs Hjin Hsingle Epush) as [Ep Ee].
        destruct (merge_keeps _ _ _ _ _ j (eq_sym E3) E2 Hok1) as (Hok2 & _ & Edom).
        assert (Hc : covered T d acc2 j).
        { apply merge_case in E2; [|done].
          assert (Hv1 : valid_list T d (fst (fst acc1)) j) by (by apply (push_lists_keeps T k d A _ _ _ _ _ j Hjb Hb Epush)).
          destruct acc1 as [[dom1 pdom1] pend1]. cbn [fst snd] in *. destruct E2 as (b2 & e2 & Eb2 & Ee2 & Hbe & ->).
          pose proof Hok as Hok0. destruct acc as [[dom0 pdom0] pend0]. destruct Hok0 as (Hl0 & _). cbn [fst snd] in *. subst pdom1 pend1.
          exists (length pdom0), (ds !!! S j - 1)%nat. rewrite length_app in *. cbn [length] in *.
          split_and!; [by apply list_lookup_middle| |lia|exact Hv1].
          replace (length pend0 + 1 - 1)%nat with (length pdom0) in * by lia.
          rewrite list_lookup_insert_eq by (rewrite length_app; cbn; lia). rewrite Hl0 in Ee2.
          rewrite list_lookup_middle in Ee2 by done. by injection Ee2 as <-. }
        by eapply (exact_keeps s j _ _ _ acc2 acc' Hs Hj Hreal Hs1 Hok2 Hex E).
      * exfalso. apply andb_true_iff in Hex as [_ Hex]. apply list.elem_of_cons in Hin as [<-|Hin]; [by rewrite stateno_brno in E3|].
        eapply (exact_gone s _ _ preds acc2); [| |exact Hex|exact Hin|by apply stateno_brno]; [by apply list_elem_of_further|].
        cbn. congruence.
  - apply list.elem_of_cons in Hin as [E0|Hin]; [rewrite Ebr in E0; apply brno_inj in E0 as [E0 _]; lia|].
    destruct (decide (fst <$> prev = Some (stateno br))) as [Hm|Hm].
    + apply andb_true_iff in Hex as [_ Hex]. rewrite Hm in E1. destruct (merge_keeps _ _ _ _ _ j eq_refl E1 Hok) as (Hok1 & _ & Edom).
      apply (IH (Some (stateno br, false)) seen acc1); try done; [|by rewrite Edom]. cbn. intros x [= <-]. by apply Hprev.
    + apply andb_true_iff in Hex as [_ Hex].
      destruct (new_case i _ _ _ _ _ Hm Hbr Es E1 Hok) as (js & Ejs & Hjs & Hnd & Hb & Hok1 & Epush).
      eapply (IH (Some (stateno br, _)) (stateno br :: seen) acc1); [| |done| |done|done|exact Hex|done].
      * rewrite list.elem_of_cons, Es. intros [E0|E0]; [lia|done].
      * cbn. intros x [= <-]. apply list_elem_of_here.
      * by apply (push_lists_keeps T k d A _ _ _ _ _ j Hjb Hb Epush).
Qed.
End Exact.
