(* ===== verification/Dominators.v ===== *)
(** * Correctness of the dominator optimisation

    The invariant of [DominatorOptimizer] ([elements/standard/classification.cc]): below the
    current state, every state's lists cover the ways to it.  [calculate_dom] and
    [shift_branch] keep it for programs that pass [exact], so that the new program sends the
    packets that hold all the bytes it looks at the same way; packets that end earlier, where
    the optimizer goes by [known_length], are not covered.  [Classifier] has configurations
    that do not pass, and what happens to them. *)
From Stdlib Require Import ZArith Lia.
From stdpp Require Import base list numbers option.
From S2P Require Import Prelude Qsort Classify ClassifyDom DomWays.
#[local] Open Scope Z_scope.

(** ** The invariant *)
Section Invariant.
Context (T : Test -> bool) (l0 : list Insn).
Record dom_inv (k : nat) (d : Dom) : Prop := {
  inv_arrays : arrays_ok k d;
  inv_forward : forward (d_insn d);
  inv_preds : preds_ok (d_insn d) (d_pred d);
  inv_tests : map i_test (d_insn d) = map i_test l0;
  inv_nonneg : forall s, 0 <= insn_id d s;
  inv_ids : forall s, (s < length l0)%nat -> i_test (d_insn d !!! Z.to_nat (insn_id d (Z.of_nat s))) = i_test (d_insn d !!! s);
  inv_ways : forall s, (s < k)%nat -> visits T (d_insn d) s -> exists j, list_of d s j /\ valid_list T d (d_dom d) j;
  inv_runs : forall r, runs T l0 0 r -> runs T (d_insn d) 0 r
}.
Lemma inv_length k d : dom_inv k d -> length (d_insn d) = length l0.
Proof. intros I. pose proof (f_equal length (inv_tests _ _ I)) as E. by rewrite !length_map in E. Qed.
Lemma same_test (l l' : list Insn) i : map i_test l = map i_test l' -> i_test (l !!! i) = i_test (l' !!! i).
Proof.
  intros E. pose proof (f_equal (fun m => m !! i) E) as Ei. cbv beta in Ei.
  change (map i_test l) with (i_test <$> l) in Ei. change (map i_test l') with (i_test <$> l') in Ei.
  rewrite !list_lookup_fmap in Ei. rewrite !list_lookup_total_alt. destruct (l !! i), (l' !! i); try done. by injection Ei.
Qed.
Lemma alter_tests b to i l : map i_test (alter (set_j b to) i l) = map i_test l.
Proof.
  apply list_eq. intros m. change (map i_test ?x) with (i_test <$> x). rewrite !list_lookup_fmap.
  destruct (decide (m = i)) as [-> |]; [|by rewrite list_lookup_alter_ne].
  rewrite list_lookup_alter_eq. destruct (l !! i); [|done]. cbn. by rewrite set_j_test.
Qed.
Lemma valid_list_tests d d' dom j : map i_test (d_insn d') = map i_test (d_insn d) -> d_dom_start d' = d_dom_start d ->
  valid_list T d dom j -> valid_list T d' dom j.
Proof. intros Et Es Hv i Hi. rewrite Es in Hi. specialize (Hv i Hi). unfold holds in *. by rewrite (same_test _ _ _ Et). Qed.

Lemma set_branch_inv k d i e b to : dom_inv k d -> d_insn d !! i = Some e -> jump_ok (length l0) i to ->
  (0 < to -> Z.of_nat k <= to) ->
  (visits T (d_insn d) i -> T (i_test e) = b -> forall r, lands T (d_insn d) (in_j e b) r -> lands T (d_insn d) to r) ->
  dom_inv k (set_branch (Z.of_nat i) b to d).
Proof.
  intros I He Hto Hk Hsound. pose proof (inv_forward _ _ I) as Hf. rewrite <- (inv_length _ _ I) in Hto.
  assert (Et : map i_test (d_insn (set_branch (Z.of_nat i) b to d)) = map i_test (d_insn d)) by (rewrite set_branch_insn; apply alter_tests).
  constructor.
  - destruct (inv_arrays _ _ I). by constructor.
  - rewrite set_branch_insn. by eapply branch_forward.
  - by eapply set_branch_preds; [apply (inv_preds _ _ I)|..].
  - by rewrite Et, (inv_tests _ _ I).
  - apply (inv_nonneg _ _ I).
  - intros s Hs. rewrite !(same_test _ _ _ Et). by apply (inv_ids _ _ I).
  - intros s Hs Hv. rewrite set_branch_insn in Hv. eapply visits_below in Hv; [|by eapply branch_forward|by eapply branch_same_below|done].
    destruct (inv_ways _ _ I s Hs Hv) as (j & Hj & Hvj). exists j. split; [done|]. by eapply valid_list_tests.
  - intros r Hr. rewrite set_branch_insn. eapply branch_runs; [done|exact He|done|done|]. by apply (inv_runs _ _ I).
Qed.
Lemma set_dom_inv k d dom pdom pend : dom_inv k d -> acc_ok d (dom, pdom, pend) -> dom_inv k (set_dom dom d).
Proof.
  intros I (_ & Hl & Hn & _ & Hsame). pose proof (inv_arrays _ _ I) as A. constructor; try by destruct I.
  - destruct A. constructor; cbn [set_dom d_dom d_dom_start d_domlist_start]; try done. congruence.
  - intros s Hs Hv. destruct (inv_ways _ _ I s Hs Hv) as (j & Hj & Hvj). exists j. split; [done|].
    pose proof (list_bound k d A s j Hs Hj) as Hb. pose proof (list_nonempty k d A j Hb).
    intros i Hi. cbn [set_dom d_dom d_dom_start] in *. destruct (Hsame i ltac:(lia)) as [-> |(j' & Hj' & ->)]; [by apply Hvj|].
    destruct (decide (j = j')) as [-> |Hne]; [lia|]. exfalso. by apply (last_outside k d A j j' (d_dom_start d !!! S j' - 1)%nat); [..|lia|].
Qed.

(** *** New lists *)
Fixpoint list_ends (q : nat) (news : list (list Z)) : list nat :=
  match news with [] => [] | l :: news => (q + length l)%nat :: list_ends (q + length l) news end.
Lemma list_ends_length q news : length (list_ends q news) = length news.
Proof. revert q. induction news as [|l news IH]; intros q; [done|]. cbn. by rewrite IH. Qed.
Definition add_lists (news : list (list Z)) (d : Dom) : Dom :=
  end_domlist (set_lists (d_dom d ++ concat news) (d_dom_start d ++ list_ends (length (d_dom d)) news) d).
(** Where list [q] of the new ones is: the starts are [s0] and the ends of the lists before. *)
Lemma list_ends_spec s0 news q l : news !! q = Some l ->
  (s0 :: list_ends s0 news) !!! S q = ((s0 :: list_ends s0 news) !!! q + length l)%nat /\
  forall i dom, length dom = s0 -> (i < length l)%nat -> (dom ++ concat news) !!! ((s0 :: list_ends s0 news) !!! q + i)%nat = l !!! i.
Proof.
  revert s0 q. induction news as [|l1 news IH]; intros s0 q Hq; [done|]. destruct q as [|q]; cbn [lookup list_lookup] in Hq.
  - injection Hq as ->. split; [done|]. intros i dom Hd Hi. cbn [concat]. change ((s0 :: _) !!! 0%nat) with s0.
    rewrite lookup_total_app_r by lia. replace (s0 + i - length dom)%nat with i by lia. by apply lookup_total_app_l.
  - destruct (IH (s0 + length l1)%nat q Hq) as [E H]. cbn [list_ends]. split.
    + exact E.
    + intros i dom Hd Hi. cbn [concat]. rewrite app_assoc. apply (H i (dom ++ l1)); [rewrite length_app; lia|done].
Qed.
Lemma list_ends_strict s0 news j j' : Forall (fun l => l <> []) news -> (j < j' < S (length news))%nat ->
  ((s0 :: list_ends s0 news) !!! j < (s0 :: list_ends s0 news) !!! j')%nat.
Proof.
  intros Hne Hj. remember (j' - j)%nat as m. revert j j' Heqm Hj. induction m as [|m IH]; intros j j' E Hj; [lia|].
  destruct j' as [|j']; [lia|]. destruct (lookup_lt_is_Some_2 news j' ltac:(lia)) as [l Hl].
  destruct (list_ends_spec s0 news j' l Hl) as [E1 _]. rewrite E1.
  assert (0 < length l)%nat by (rewrite list.Forall_lookup in Hne; specialize (Hne _ _ Hl); destruct l; [done|cbn; lia]).
  destruct (decide (j = j')) as [-> |]; [lia|]. specialize (IH j j' ltac:(lia) ltac:(lia)). lia.
Qed.
Lemma list_ends_last s0 news : (s0 :: list_ends s0 news) !!! length news = (s0 + length (concat news))%nat.
Proof.
  revert s0. induction news as [|l news IH]; intros s0; [cbn; lia|]. cbn [list_ends concat length]. rewrite length_app.
  change ((s0 :: ?x) !!! S ?n) with (x !!! n). rewrite IH. lia.
Qed.
End Invariant.

Section AddLists.
Context (T : Test -> bool) (l0 : list Insn) (k : nat) (d : Dom) (A : arrays_ok k d).
Context (news : list (list Z)) (Hne : Forall (fun l => l <> []) news) (Hnn : Forall (Forall (fun x => 0 <= x)) news).
#[local] Abbreviation ds := (d_dom_start d).
#[local] Abbreviation d' := (add_lists news d).
#[local] Abbreviation m := (length ds - 1)%nat.
Lemma added_old j : (j < length ds)%nat -> d_dom_start d' !!! j = ds !!! j.
Proof. intros Hj. cbn. by apply lookup_total_app_l. Qed.
Lemma added_new q : d_dom_start d' !!! (m + q)%nat = (length (d_dom d) :: list_ends (length (d_dom d)) news) !!! q.
Proof.
  pose proof (ar_some _ _ A) as H0. cbn. destruct q as [|q].
  - rewrite Nat.add_0_r, lookup_total_app_l by lia. apply (ar_end _ _ A).
  - rewrite lookup_total_app_r by lia. by replace (m + S q - length ds)%nat with q by lia.
Qed.
Lemma added_length : length (d_dom_start d') = (length ds + length news)%nat.
Proof. cbn. by rewrite length_app, list_ends_length. Qed.
Lemma added_states s : (s <= k)%nat -> d_domlist_start d' !!! s = d_domlist_start d !!! s.
Proof. intros Hs. cbn. apply lookup_total_app_l. rewrite (ar_states _ _ A). lia. Qed.
Lemma added_last : d_domlist_start d' !!! S k = (m + length news)%nat.
Proof.
  pose proof (ar_some _ _ A). cbn. rewrite lookup_total_app_r by (rewrite (ar_states _ _ A); lia). rewrite (ar_states _ _ A), Nat.sub_diag. change ([?x] !!! 0%nat) with x.
  rewrite length_app, list_ends_length. lia.
Qed.
Lemma added_dom i : (i < length (d_dom d))%nat -> d_dom d' !!! i = d_dom d !!! i.
Proof. intros Hi. cbn. by apply lookup_total_app_l. Qed.
Lemma added_arrays : arrays_ok (S k) d'.
Proof.
  pose proof (ar_some _ _ A) as H0. constructor.
  - cbn. rewrite length_app, (ar_states _ _ A). cbn. lia.
  - rewrite added_last, added_length. lia.
  - intros s s' Hs. destruct (decide (s' = S k)) as [-> |]; [destruct (decide (s = S k)) as [-> |]; [done|]|].
    + rewrite added_last, added_states by lia. pose proof (ar_mono _ _ A s k ltac:(lia)) as Hm. rewrite (ar_lists _ _ A) in Hm. lia.
    + rewrite !added_states by lia. apply (ar_mono _ _ A). lia.
  - rewrite added_length. lia.
  - intros j j' Hj. rewrite added_length in Hj.
    assert (Hhi : forall q q', (q < q' < S (length news))%nat -> (d_dom_start d' !!! (m + q) < d_dom_start d' !!! (m + q'))%nat).
    { intros q q' Hq. rewrite !added_new. by apply list_ends_strict. }
    destruct (decide (m <= j)%nat) as [Hlo|Hlo].
    { specialize (Hhi (j - m)%nat (j' - m)%nat ltac:(lia)). by replace (m + (j - m))%nat with j in Hhi by lia; replace (m + (j' - m))%nat with j' in Hhi by lia. }
    rewrite added_old by lia. destruct (decide (j' < length ds)%nat) as [Hlt|Hge].
    { rewrite added_old by lia. apply (ar_strict _ _ A). lia. }
    pose proof (ar_strict _ _ A j m ltac:(lia)) as Hs. specialize (Hhi 0%nat (j' - m)%nat ltac:(lia)).
    rewrite Nat.add_0_r, added_old in Hhi by lia. replace (m + (j' - m))%nat with j' in Hhi by lia. lia.
  - rewrite added_length. replace (length ds + length news - 1)%nat with (m + length news)%nat by lia.
    rewrite added_new, list_ends_last. cbn. by rewrite length_app.
  - cbn. apply list.Forall_app. split; [apply (ar_nonneg _ _ A)|]. clear - Hnn. induction Hnn as [|l news Hl _ IH]; [constructor|].
    cbn [concat]. apply list.Forall_app. split; [exact Hl|]. apply IH. by apply list.Forall_cons in Hnn as [].
Qed.
Lemma added_list_of s j : (s < k)%nat -> list_of d' s j <-> list_of d s j.
Proof. intros Hs. unfold list_of. rewrite !added_states by lia. done. Qed.
Lemma added_valid j : (S j < length ds)%nat -> valid_list T d (d_dom d) j -> valid_list T d' (d_dom d') j.
Proof.
  intros Hj Hv i Hi. pose proof (list_nonempty k d A j Hj). rewrite !added_old in Hi by lia. rewrite added_dom by lia.
  by apply (Hv i).
Qed.
Lemma add_lists_inv : dom_inv T l0 k d ->
  (visits T (d_insn d) k -> exists q l, news !! q = Some l /\ forall i, (i < length l - 1)%nat -> holds T d (l !!! i)) ->
  dom_inv T l0 (S k) d'.
Proof.
  intros I Hway. constructor; try by destruct I.
  - exact added_arrays.
  - intros s Hs Hv. change (d_insn d') with (d_insn d) in Hv. destruct (decide (s = k)) as [-> |Hsk].
    + destruct (Hway Hv) as (q & l & Hq & Hh). pose proof (lookup_lt_Some _ _ _ Hq) as Hlt.
      exists (m + q)%nat. pose proof (ar_some _ _ A). split.
      { unfold list_of. rewrite added_last, added_states, (ar_lists _ _ A) by lia. lia. }
      intros i Hi. change (holds T d' ?x) with (holds T d x). rewrite <- Nat.add_succ_r, !added_new in Hi.
      destruct (list_ends_spec (length (d_dom d)) news q l Hq) as [E Hget]. rewrite E in Hi. set (s0 := (_ :: _) !!! q) in *.
      specialize (Hget (i - s0)%nat (d_dom d) eq_refl ltac:(lia)). replace (s0 + (i - s0))%nat with i in Hget by lia.
      change (d_dom d' !!! i) with ((d_dom d ++ concat news) !!! i). rewrite Hget. apply Hh. lia.
    + destruct (inv_ways _ _ _ _ I s ltac:(lia) Hv) as (j & Hj & Hvj). exists j. split; [apply added_list_of; [lia|done]|].
      apply added_valid; [|done]. apply (list_bound k d A s); [lia|done].
Qed.
End AddLists.

(** ** Copying the lists *)
Lemma in_slice_app dom1 extra a b x : (b <= length dom1)%nat -> in_slice (dom1 ++ extra) a b x -> in_slice dom1 a b x.
Proof. intros Hb (i & Hi & <-). exists i. split; [done|]. by rewrite lookup_total_app_l by lia. Qed.
Lemma in_slice_nonneg dom a b x : Forall (fun x => 0 <= x) dom -> (b <= length dom)%nat -> in_slice dom a b x -> 0 <= x.
Proof. intros H Hb (i & Hi & <-). rewrite list.Forall_lookup in H. apply (H i), list_lookup_lookup_total_lt. lia. Qed.
Lemma copy_list_spec dom mybr pos pos_end out pm : copy_list dom mybr pos pos_end = Ok (out, pm) ->
  (forall x, x ∈ out -> in_slice dom pos pos_end x) /\
  (pm = -1 \/ in_slice dom pos pos_end pm /\ Z.lxor pm mybr <= 1).
Proof.
  unfold copy_list. intros (u & _ & (br & _ & [= E])%res_bind_ok)%res_bind_ok.
  set (P := fun acc : list Z * Z => (forall x, x ∈ fst acc -> in_slice dom pos pos_end x) /\
    (snd acc = -1 \/ in_slice dom pos pos_end (snd acc) /\ Z.lxor (snd acc) mybr <= 1)).
  assert (Hfold : forall js acc, (forall i, i ∈ js -> (pos <= i < pos_end)%nat) -> P acc -> P (foldl (copy_branch dom mybr br (pos_end - 1)) acc js)).
  { induction js as [|i js IH]; intros [o m] Hi [H1 H2]; [by split|]. cbn [foldl]. apply IH; [intros; apply Hi; by apply list_elem_of_further|].
    pose proof (Hi i ltac:(apply list_elem_of_here)) as Hii. cbn [fst snd] in *. unfold copy_branch.
    destruct (_ && _); [by split|]. split; cbn [fst snd].
    - intros x [Hx| ->%list_elem_of_singleton]%elem_of_app; [by apply H1|]. by exists i.
    - destruct (Z.leb_spec (Z.lxor (dom !!! i) mybr) 1); [|done]. right. split; [by exists i|done]. }
  specialize (Hfold (seq pos (pos_end - pos)) ([], -1)). rewrite E in Hfold. apply Hfold.
  - intros i Hi. apply elem_of_seq in Hi. lia.
  - split; [intros x Hx; by apply elem_of_nil in Hx|by left].
Qed.
Lemma copy_lists_spec dom1 pdoms extra ds mybr num dom' ds' mybr' num' :
  copy_lists pdoms (dom1 ++ extra) ds mybr num = Ok (dom', ds', mybr', num') ->
  Forall (fun x => 0 <= x) dom1 -> 0 <= mybr -> Forall (fun '(a, b) => (b <= length dom1)%nat) pdoms ->
  exists news, dom' = dom1 ++ extra ++ concat news /\ ds' = ds ++ list_ends (length (dom1 ++ extra)) news /\
    length news = length pdoms /\ Forall (fun l => l <> []) news /\ Forall (Forall (fun x => 0 <= x)) news /\
    (forall q l, news !! q = Some l -> exists a b, pdoms !! q = Some (a, b) /\
       forall i, (i < length l - 1)%nat -> in_slice dom1 a b (l !!! i)) /\
    stateno mybr' = stateno mybr /\
    (0 < num' -> 0 <= num /\ (0 < num -> mybr' = mybr) /\ forall q a b, pdoms !! q = Some (a, b) -> in_slice dom1 a b mybr').
Proof.
  intros H Hn. revert extra ds mybr num H. induction pdoms as [|[pos pos_end] pdoms IH]; intros extra ds mybr num H Hmy Hb.
  { injection H as <- <- <- <-. exists []. cbn. rewrite !app_nil_r. split_and!; try done. intros ?. split_and!; try done. lia. }
  cbn [copy_lists] in H. apply res_bind_ok in H as ([out pm] & Ecopy & H). apply list.Forall_cons in Hb as [Hb0 Hb].
  destruct (copy_list_spec _ _ _ _ _ _ Ecopy) as [Hout Hpm].
  assert (Hout1 : forall x, x ∈ out -> in_slice dom1 pos pos_end x) by (intros x Hx; by eapply in_slice_app, Hout).
  assert (Hpm1 : pm = -1 \/ (in_slice dom1 pos pos_end pm /\ Z.lxor pm mybr <= 1))
    by (destruct Hpm as [|[Hp1 Hp2]]; [by left|right; split; [by eapply in_slice_app|done]]).
  set (same := _ && _ && _) in H. set (mybr1 := if same then pm else mybr) in *.
  assert (Hmy1 : 0 <= mybr1 /\ stateno mybr1 = stateno mybr).
  { unfold mybr1. destruct same eqn:Es; [|done]. unfold same in Es. rewrite !andb_true_iff, !Z.leb_le in Es. destruct Es as [[_ Hpm0] _].
    split; [done|]. destruct Hpm1 as [|[_ Hx]]; [lia|]. by apply lxor_le_one. }
  rewrite <- !app_assoc in H. change (extra ++ out ++ [mybr1]) with (extra ++ (out ++ [mybr1])) in H.
  apply IH in H as (news & E1 & E2 & E3 & E4 & E5 & E6 & E7 & E8); [|apply Hmy1|done].
  exists ((out ++ [mybr1]) :: news). split; [rewrite E1; cbn [concat]; by rewrite <- !app_assoc|].
  split. { rewrite E2. cbn [list_ends]. rewrite <- app_assoc. cbn [app]. 
    assert (El : length (dom1 ++ extra ++ out ++ [mybr1]) = (length (dom1 ++ extra) + length (out ++ [mybr1]))%nat) by (rewrite !length_app; lia).
    rewrite El. done. }
  split; [cbn; lia|]. split; [constructor; [by destruct out|done]|]. split.
  { constructor; [|done]. apply list.Forall_app. split; [|apply list.Forall_singleton, Hmy1].
    apply list.Forall_forall. intros x Hx. eapply (in_slice_nonneg dom1 pos pos_end); [done|exact Hb0|by apply Hout1]. }
  split.
  { intros [|q] l Hl; cbn [lookup list_lookup] in *; [|by apply E6]. injection Hl as <-. exists pos, pos_end. split; [done|].
    intros i Hi. rewrite length_app in Hi. cbn in Hi. apply Hout1. rewrite lookup_total_app_l by lia. apply list_elem_of_lookup_total_2. lia. }
  split; [by rewrite E7; apply Hmy1|]. intros Hnum. destruct (E8 Hnum) as (N1 & N2 & N3). destruct same eqn:Es; [|lia].
  unfold same in Es. rewrite !andb_true_iff, orb_true_iff, !Z.leb_le, !Z.eqb_eq in Es. destruct Es as [[Hnum0 Hpm0] Hor].
  assert (Epm : mybr' = pm) by (apply N2; lia). split; [done|]. split; [intros; destruct Hor as [|E]; [lia|congruence]|].
  intros [|q] a b E; cbn [lookup list_lookup] in *; [|by eapply N3]. injection E as <- <-. rewrite Epm.
  destruct Hpm1 as [|[]]; [lia|done].
Qed.

(** ** [calculate_dom] *)
Section Calculate.
Context (T : Test -> bool) (l0 : list Insn).
#[local] Abbreviation dom_inv := (dom_inv T l0).
Lemma collect_ok k d prev preds acc acc' : arrays_ok k d -> (forall s, 0 <= insn_id d s) -> Forall (real_pred k) preds -> acc_ok d acc ->
  collect_preds d prev preds acc = Ok acc' -> acc_ok d acc'.
Proof.
  intros A Hid H. revert prev acc. induction H as [|br preds Hbr _ IH]; intros prev acc Hok E; [by injection E as <-|].
  cbn [collect_preds] in E. apply res_bind_ok in E as (acc1 & E1 & E). apply (IH (Some (stateno br)) acc1); [|done].
  pose proof Hbr as (i & b & Ebr & Hi). destruct (decide (prev = Some (stateno br))) as [->|Hne].
  - by destruct (merge_keeps T d (stateno br) preds br acc acc1 0%nat eq_refl E1 Hok).
  - destruct (new_case k d A Hid i prev preds br acc acc1) as (js & _ & _ & _ & _ & Hok1 & _); try done. by rewrite Ebr, stateno_brno.
Qed.
Lemma preds_real k d br : dom_inv k d -> (k < length l0)%nat -> br ∈ d_pred d !!! k ->
  exists i e b, br = brno (Z.of_nat i) b /\ d_insn d !! i = Some e /\ in_j e b = Z.of_nat k /\ (i < k)%nat /\ (0 < k)%nat.
Proof.
  intros I Hk Hbr. destruct (inv_preds _ _ _ _ I) as [_ Hp]. rewrite (inv_length _ _ _ _ I) in Hp.
  apply Hp in Hbr as (Hk0 & i & e & b & He & -> & Hj); [|done]. exists i, e, b. split_and!; try done.
  destruct (inv_forward _ _ _ _ I i e He b) as [|]; lia.
Qed.
Lemma collect_covers k d acc : dom_inv k d -> (k < length l0)%nat ->
  exact_preds d None [] (d_pred d !!! k) (d_dom d, [], []) = true ->
  collect_preds d None (d_pred d !!! k) (d_dom d, [], []) = Ok acc ->
  acc_ok d acc /\ ((0 < k)%nat -> visits T (d_insn d) k -> exists j, covered T d acc j).
Proof.
  intros I Hk Hex E. pose proof (inv_arrays _ _ _ _ I) as A. pose proof (inv_nonneg _ _ _ _ I) as Hid.
  assert (Hok0 : acc_ok d (d_dom d, [], [])) by (split_and!; try done; [apply (ar_nonneg _ _ A)|by left]).
  assert (Hreal : Forall (real_pred k) (d_pred d !!! k)).
  { apply list.Forall_forall. intros br Hbr. destruct (preds_real k d br I Hk Hbr) as (i & e & b & -> & _ & _ & Hi & _). by exists i, b. }
  split; [by eapply collect_ok|]. intros Hk0 Hv.
  destruct (visits_prev T _ k Hk0 Hv) as (s & e & Hvs & He & Hj).
  assert (Hs : (s < k)%nat) by (destruct (inv_forward _ _ _ _ I s e He (T (i_test e))) as [|]; lia).
  destruct (inv_ways _ _ _ _ I s Hs Hvs) as (j & Hlist & Hvalid). exists j.
  eapply (exact_finds T k d A Hid s (T (i_test e)) j None []); try done; [by apply not_elem_of_nil| | ].
  - unfold holds. rewrite stateno_brno, br_yes_brno. rewrite (inv_ids _ _ _ _ I s) by lia. by rewrite (list_lookup_total_correct _ _ _ He).
  - destruct (inv_preds _ _ _ _ I) as [_ Hp]. apply Hp; [rewrite (inv_length _ _ _ _ I); lia|]. split; [done|]. by exists s, e, (T (i_test e)).
Qed.

(** A state without ways loses its branches. *)
Lemma impossible_inv k d : dom_inv k d -> (k < length l0)%nat -> ((0 < k)%nat -> ~ visits T (d_insn d) k) ->
  dom_inv (S k) (end_domlist (impossible k d)).
Proof.
  intros I Hk Hv. unfold impossible. destruct (Nat.eqb_spec k 0) as [->|Hk0].
  - pose proof (add_lists_inv T l0 0 d (inv_arrays _ _ _ _ I) [[brno 0 false]]) as Hadd. unfold add_lists in Hadd. cbn [concat app list_ends length] in Hadd.
    rewrite length_app. apply Hadd; [by repeat constructor|by repeat constructor|done|]. intros _. exists 0%nat, [brno 0 false]. split; [done|].
    cbn. lia.
  - specialize (Hv ltac:(lia)). rewrite <- (inv_length _ _ _ _ I) in Hk. destruct (lookup_lt_is_Some_2 _ k Hk) as [e He].
    set (d1 := set_branch (Z.of_nat k) false j_never d).
    assert (I1 : dom_inv k d1) by (apply (set_branch_inv T l0 k d k e false j_never); try done; by left).
    assert (He1 : d_insn d1 !! k = Some (set_j false j_never e)) by (unfold d1; by rewrite set_branch_insn, list_lookup_alter_eq, He).
    assert (Hv1 : ~ visits T (d_insn d1) k).
    { intros Hv1. apply Hv. unfold d1 in Hv1. rewrite set_branch_insn in Hv1.
      apply (visits_below T (S k) (d_insn d) (alter (set_j false j_never) k (d_insn d))); [|by apply (branch_same_below _ _ e)|done|lia].
      eapply branch_forward; [apply (inv_forward _ _ _ _ I)|exact He|by left]. }
    set (d2 := set_branch (Z.of_nat k) true j_never d1).
    assert (I2 : dom_inv k d2) by (eapply (set_branch_inv T l0 k d1 k); try done; by left).
    assert (Hv2 : ~ visits T (d_insn d2) k).
    { intros Hv2. apply Hv1. unfold d2 in Hv2. rewrite set_branch_insn in Hv2.
      apply (visits_below T (S k) (d_insn d1) (alter (set_j true j_never) k (d_insn d1))); [|by eapply branch_same_below|done|lia].
      eapply branch_forward; [apply (inv_forward _ _ _ _ I1)|exact He1|by left]. }
    pose proof (add_lists_inv T l0 k d2 (inv_arrays _ _ _ _ I2) []) as Hadd. unfold add_lists in Hadd. cbn [concat list_ends] in Hadd.
    rewrite !app_nil_r in Hadd. apply Hadd; [constructor|constructor|done|]. intros H. by destruct Hv2.
Qed.
(** The predecessors of a state whose test is decided skip it: [l] is [l1] with some of the
    branches into [k] redirected. *)
Definition redirected (k : nat) (new : Z) (l1 l : list Insn) : Prop :=
  forall i e, l !! i = Some e -> exists e1, l1 !! i = Some e1 /\ i_test e = i_test e1 /\ ((k <= i)%nat -> e = e1) /\
    forall c, in_j e c = in_j e1 c \/ in_j e1 c = Z.of_nat k /\ in_j e c = new.
Lemma redirected_below k new l1 l : (0 < new -> Z.of_nat k < new) -> redirected k new l1 l -> same_below (S k) l1 l.
Proof.
  intros Hnew H i e He. destruct (H i e He) as (e1 & He1 & Ht & _ & Hc). exists e1. split; [done|]. split; [done|].
  intros c. destruct (Hc c) as [|[_ ->]]; [by left|right; lia].
Qed.
Lemma redirect_one k d1 d b new i c : dom_inv k d1 -> dom_inv k d -> (0 < k < length l0)%nat ->
  (visits T (d_insn d1) k -> T (i_test (d_insn d1 !!! k)) = b) -> new = in_j (d_insn d1 !!! k) b -> jump_ok (length l0) k new ->
  redirected k new (d_insn d1) (d_insn d) -> brno (Z.of_nat i) c ∈ d_pred d1 !!! k ->
  let d' := set_branch (Z.of_nat i) c new d in
  dom_inv k d' /\ redirected k new (d_insn d1) (d_insn d') /\ (forall e, d_insn d' !! i = Some e -> in_j e c = new).
Proof.
  intros I1 I Hk Hb Hnew Hj Hred Hbr. destruct (preds_real k d1 _ I1 ltac:(lia) Hbr) as (i' & e1 & c' & Ebr & He1 & Hj1 & Hi & _).
  apply brno_inj in Ebr as [Ei <-]. assert (i' = i) as -> by lia. clear Ei.
  assert (Hlt : (i < length (d_insn d))%nat) by (rewrite (inv_length _ _ _ _ I); lia).
  destruct (lookup_lt_is_Some_2 _ i Hlt) as [e He]. destruct (Hred i e He) as (e1' & He1' & Ht & _ & Hc).
  rewrite He1 in He1'. injection He1' as <-. cbv zeta. rewrite set_branch_insn.
  assert (Hnk : 0 < new -> Z.of_nat k < new) by (destruct Hj; lia). split; [|split].
  - apply (set_branch_inv T l0 k d i e c new); [done|done| | |].
    + destruct Hj as [|Hj]; [by left|right; lia].
    + lia.
    + intros Hv HT r Hr. destruct (Hc c) as [Ec|[_ Ec]]; [|by rewrite Ec in Hr]. rewrite Ec, Hj1 in Hr.
      assert (Hvk : visits T (d_insn d1) k).
      { eapply (visits_below T (S k)); [apply (inv_forward _ _ _ _ I)|by apply (redirected_below k new)|eapply visits_jump; [exact Hv|exact He| |lia]|lia].
        by rewrite HT, Ec. }
      apply lands_runs in Hr as (ek & Hek & Hr); [|lia]. rewrite Nat2Z.id in Hek.
      destruct (Hred k ek Hek) as (ek1 & Hek1 & _ & Heq & _). rewrite (Heq ltac:(lia)) in Hr.
      specialize (Hb Hvk). rewrite (list_lookup_total_correct _ _ _ Hek1) in *. by rewrite Hb, <- Hnew in Hr.
  - intros m em Hem. destruct (decide (m = i)) as [-> |Hne].
    + rewrite list_lookup_alter_eq, He in Hem. injection Hem as <-. exists e1. rewrite set_j_test. split_and!; try done; [lia|].
      intros c'. rewrite in_j_set. destruct (Bool.eqb_spec c' c) as [-> |]; [by right|]. apply Hc.
    + rewrite list_lookup_alter_ne in Hem by done. by apply Hred.
  - intros e' He'. rewrite list_lookup_alter_eq, He in He'. injection He' as <-. apply in_j_set_same.
Qed.
Lemma set_branches_inv k d1 b new ps : dom_inv k d1 -> (0 < k < length l0)%nat ->
  (visits T (d_insn d1) k -> T (i_test (d_insn d1 !!! k)) = b) -> new = in_j (d_insn d1 !!! k) b -> jump_ok (length l0) k new ->
  (forall br, br ∈ ps -> br ∈ d_pred d1 !!! k) ->
  forall d, dom_inv k d -> redirected k new (d_insn d1) (d_insn d) ->
  let d' := set_branches ps new d in
  dom_inv k d' /\ redirected k new (d_insn d1) (d_insn d') /\
  (forall i c e, brno (Z.of_nat i) c ∈ ps \/ (forall e, d_insn d !! i = Some e -> in_j e c = new) -> d_insn d' !! i = Some e -> in_j e c = new) /\
  d_dom d' = d_dom d /\ d_dom_start d' = d_dom_start d /\ d_domlist_start d' = d_domlist_start d.
Proof.
  intros I1 Hk Hb Hnew Hj. induction ps as [|br ps IH]; intros Hps d I Hred.
  { cbn. split_and!; try done. intros i c e [H|H] He; [by apply elem_of_nil in H|by apply H]. }
  pose proof (Hps br ltac:(apply list_elem_of_here)) as Hbr.
  destruct (preds_real k d1 _ I1 ltac:(lia) Hbr) as (i & e1 & c & Ebr & He1 & Hj1 & Hi & _). subst br.
  cbn [set_branches foldl]. rewrite stateno_brno, br_yes_brno.
  destruct (redirect_one k d1 d b new i c I1 I Hk Hb Hnew Hj Hred Hbr) as (I' & Hred' & Hset).
  destruct (IH ltac:(intros br' Hbr'; apply Hps; by apply list_elem_of_further) _ I' Hred') as (IA & IB & IC & ID).
  split; [exact IA|]. split; [exact IB|]. split; [|exact ID]. intros i' c' e' H He'. eapply IC; [|exact He'].
  destruct H as [H|H]; [apply list.elem_of_cons in H as [H|H]; [|by left]|].
  - apply brno_inj in H as [Ei ->]. assert (i' = i) as -> by lia. by right.
  - right. intros e2 He2. rewrite set_branch_insn in He2. destruct (decide (i' = i)) as [-> |Hne].
    + destruct (d_insn d !! i) as [e3|] eqn:E3; rewrite list_lookup_alter_eq, E3 in He2; [|done]. injection He2 as <-. rewrite in_j_set.
      destruct (Bool.eqb c' c); [done|by apply H].
    + rewrite list_lookup_alter_ne in He2 by done. by apply H.
Qed.
Lemma redirected_refl k new l : redirected k new l l.
Proof. intros i e He. exists e. split_and!; try done. by left. Qed.
Lemma redirected_gone k d1 b new : dom_inv k d1 -> (0 < k < length l0)%nat ->
  (visits T (d_insn d1) k -> T (i_test (d_insn d1 !!! k)) = b) -> new = in_j (d_insn d1 !!! k) b ->
  dom_inv (S k) (end_domlist (impossible k (set_branches (d_pred d1 !!! k) new d1))).
Proof.
  intros I1 Hk Hb Hnew.
  assert (Hj : jump_ok (length l0) k new).
  { destruct (lookup_lt_is_Some_2 (d_insn d1) k ltac:(rewrite (inv_length _ _ _ _ I1); lia)) as [e He].
    rewrite Hnew, (list_lookup_total_correct _ _ _ He), <- (inv_length _ _ _ _ I1). by apply (inv_forward _ _ _ _ I1). }
  destruct (set_branches_inv k d1 b new (d_pred d1 !!! k) I1 Hk Hb Hnew Hj ltac:(done) d1 I1 (redirected_refl _ _ _)) as (I2 & Hred & Hset & _).
  apply impossible_inv; [done|lia|]. intros Hk0 Hv. destruct (visits_prev T _ k Hk0 Hv) as (i & e & _ & He & Hik).
  destruct (Hred i e He) as (e1 & He1 & _ & _ & Hc). assert (Hne : new <> Z.of_nat k) by (destruct Hj; lia).
  destruct (Hc (T (i_test e))) as [Ec|[_ Ec]]; [|congruence]. apply Hne. rewrite <- Hik. symmetry. eapply Hset; [left|exact He].
  destruct (inv_preds _ _ _ _ I1) as [_ Hp]. apply Hp; [rewrite (inv_length _ _ _ _ I1); lia|]. split; [done|].
  exists i, e1, (T (i_test e)). split_and!; try done. by rewrite <- Ec.
Qed.

Theorem calculate_dom_inv k d d' : dom_inv k d -> (k < length l0)%nat ->
  exact_preds d None [] (d_pred d !!! k) (d_dom d, [], []) = true -> calculate_dom k d = Ok d' -> dom_inv (S k) d'.
Proof.
  intros I Hk Hex. unfold calculate_dom.
  intros (u1 & _ & (x1 & _ & (u2 & _ & (x2 & _ & (u3 & _ & ([[dom pdom] pend] & Ecol & (d2 & Ed & [= <-])%res_bind_ok)%res_bind_ok)%res_bind_ok)%res_bind_ok)%res_bind_ok)%res_bind_ok)%res_bind_ok.
  destruct (collect_covers k d _ I Hk Hex Ecol) as [Hok Hcov]. pose proof (set_dom_inv T l0 k d dom pdom pend I Hok) as I1.
  pose proof Hok as (Hlen & _ & Hnn & Hends & _). set (d1 := set_dom dom d) in *.
  set (mybr := brno (insn_id d (Z.of_nat k)) false) in *. assert (Hmy : 0 <= mybr) by (apply brno_nonneg, (inv_nonneg _ _ _ _ I)).
  assert (Hk0 : pdom <> [] -> (0 < k)%nat).
  { intros Hne. destruct k as [|k']; [|lia]. exfalso. destruct (d_pred d !!! 0%nat) as [|br preds] eqn:Ep; [injection Ecol as _ <- _; done|].
    destruct (preds_real 0 d br I Hk) as (i & e & b & _ & _ & _ & Hi & _); [rewrite Ep; apply list_elem_of_here|lia]. }
  (** A visit of the state gives one of the lists, all of which holds. *)
  assert (Hway : (0 < k)%nat -> visits T (d_insn d1) k -> exists q a b, pdom !! q = Some a /\ pend !! q = Some b /\ forall x, in_slice dom a b x -> holds T d1 x).
  { intros H0 Hv. destruct (Hcov H0 Hv) as (j & q & b & Eq & Eb & _ & Hh). exists q, (d_dom_start d !!! j), b. split_and!; try done.
    intros x (i & Hi & <-). by apply (Hh i). }
  destruct (Nat.ltb_spec MAX_DOMLIST (length pdom)) as [Hmax|Hmax].
  - apply res_bind_ok in Ed as (out & Eout & [= <-]). unfold MAX_DOMLIST in Hmax.
    assert (Hne : pdom <> []) by (intros ->; cbn in Hmax; lia).
    pose proof (intersect_lists_subset dom pdom pend Hlen ltac:(lia) out Eout) as Hsub.
    pose proof (add_lists_inv T l0 k d1 (inv_arrays _ _ _ _ I1) [out ++ [mybr]]) as Hadd. unfold add_lists in Hadd. cbn [concat app list_ends] in Hadd.
    rewrite app_nil_r in Hadd. rewrite (length_app dom). apply Hadd; [by apply list.Forall_singleton; destruct out| |done|].
    + apply list.Forall_singleton, list.Forall_app. split; [|by apply list.Forall_singleton]. apply list.Forall_forall. intros x Hx.
      specialize (Hsub x 0%nat Hx ltac:(lia)). eapply in_slice_nonneg; [exact Hnn| |exact Hsub].
      apply (Hends 0%nat). apply list_lookup_lookup_total_lt. lia.
    + intros Hv. destruct (Hway (Hk0 Hne) Hv) as (q & a & b & Eq & Eb & Hh). exists 0%nat, (out ++ [mybr]). split; [done|].
      intros i Hi. rewrite length_app in Hi. cbn in Hi. rewrite lookup_total_app_l by lia. apply Hh.
      specialize (Hsub (out !!! i) q ltac:(apply list_elem_of_lookup_total_2; lia) ltac:(by eapply lookup_lt_Some)).
      by rewrite (list_lookup_total_correct _ _ _ Eq), (list_lookup_total_correct _ _ _ Eb) in Hsub.
  - destruct (Nat.eqb_spec (length pdom) 0) as [H0|H0].
    + injection Ed as <-. apply impossible_inv; [done|done|]. intros Hkp Hv. destruct (Hway Hkp Hv) as (q & a & b & Eq & _).
      apply lookup_lt_Some in Eq. lia.
    + assert (Hne : pdom <> []) by (intros ->; done). specialize (Hk0 Hne).
      apply res_bind_ok in Ed as ([[[dom' ds'] mybr'] num] & Ecopy & Ed). rewrite <- (app_nil_r dom) in Ecopy.
      assert (Hzip : forall q a b, zip pdom pend !! q = Some (a, b) <-> pdom !! q = Some a /\ pend !! q = Some b).
      { intros q a b. rewrite lookup_zip_with. destruct (pdom !! q) as [a'|], (pend !! q) as [b'|]; cbn; (split; [intros H; try done; by injection H as -> ->|intros [H H']; try done; by injection H as ->; injection H' as ->]). }
      destruct (copy_lists_spec _ _ _ _ _ _ _ _ _ _ Ecopy Hnn Hmy) as (news & E1 & E2 & E3 & E4 & E5 & E6 & E7 & E8).
      { apply list.Forall_lookup. intros q [a b] Eq. apply Hzip in Eq as [_ Eb]. by eapply Hends. }
      destruct (Z.ltb_spec 0 num) as [Hnum|Hnum]; injection Ed as <-.
      * destruct (E8 Hnum) as (_ & _ & Hall). apply (redirected_gone k d1 (br_yes mybr')); [done|lia| |done].
        intros Hv. destruct (Hway Hk0 Hv) as (q & a & b & Eq & Eb & Hh). specialize (Hh mybr' (Hall q a b (proj2 (Hzip _ _ _) (conj Eq Eb)))).
        unfold holds in Hh. rewrite E7 in Hh. unfold mybr in Hh. rewrite stateno_brno in Hh.
        pose proof (inv_ids _ _ _ _ I1 k Hk) as Eid. change (insn_id d1) with (insn_id d) in Eid. by rewrite Eid in Hh.
      * subst dom' ds'. rewrite app_nil_r in *. cbn [app]. apply (add_lists_inv T l0 k d1 (inv_arrays _ _ _ _ I1) news E4 E5 I1).
        intros Hv. destruct (Hway Hk0 Hv) as (q & a & b & Eq & Eb & Hh).
        destruct (lookup_lt_is_Some_2 news q) as [l Hl].
        { rewrite E3, length_zip_with_l_eq by done. by eapply lookup_lt_Some. }
        exists q, l. split; [done|]. destruct (E6 q l Hl) as (a' & b' & Eab & Hin). apply Hzip in Eab as [Ea' Eb'].
        rewrite Eq in Ea'. rewrite Eb in Eb'. injection Ea' as <-. injection Eb' as <-. intros i Hi. by apply Hh, Hin.
Qed.
End Calculate.

(** ** [shift_branch] *)
Fixpoint list_starts (q : nat) (news : list (list Z)) : list nat :=
  match news with [] => [] | l :: news => q :: list_starts (q + length l) news end.
Lemma list_starts_length q news : length (list_starts q news) = length news.
Proof. revert q. induction news as [|l news IH]; intros q; [done|]. cbn. by rewrite IH. Qed.
Lemma list_starts_ends s0 news q : (q < length news)%nat ->
  list_starts s0 news !!! q = (s0 :: list_ends s0 news) !!! q /\ list_ends s0 news !!! q = (s0 :: list_ends s0 news) !!! S q.
Proof.
  intros Hq. split; [|done]. revert s0 q Hq. induction news as [|l news IH]; intros s0 q Hq; [cbn in Hq; lia|].
  destruct q as [|q]; [done|]. cbn [list_starts list_ends length] in *. change ((?x :: ?y) !!! S ?n) with (y !!! n).
  apply IH. lia.
Qed.
Lemma in_slice_lists sts q l x : sts !! q = Some l -> in_slice (concat sts) (list_starts 0 sts !!! q) (list_ends 0 sts !!! q) x -> x ∈ l.
Proof.
  intros Hq (i & Hi & <-). pose proof (lookup_lt_Some _ _ _ Hq) as Hlt. destruct (list_starts_ends 0 sts q Hlt) as [E1 E2].
  destruct (list_ends_spec 0 sts q l Hq) as [E H]. rewrite E1, E2, E in Hi. set (a := (_ :: _) !!! q) in *.
  specialize (H (i - a)%nat [] eq_refl ltac:(lia)). cbn [app] in H. replace (a + (i - a))%nat with i in H by lia.
  rewrite H. apply list_elem_of_lookup_total_2. lia.
Qed.
Lemma last_common_in inp sts s : Forall (fun l => l <> []) sts -> sts <> [] -> inp = concat sts ->
  last_common_state_in_lists inp (list_starts 0 sts) (list_ends 0 sts) = Ok s -> forall q l, sts !! q = Some l -> s ∈ l.
Proof.
  intros Hne Hn -> H q l Hq. pose proof (lookup_lt_Some _ _ _ Hq) as Hlt. apply (in_slice_lists sts q l); [done|].
  unfold last_common_state_in_lists in H. destruct (_ && _) eqn:E.
  - injection H as <-. apply andb_true_iff in E as [_ Hall]. rewrite forallb_forall in Hall.
    destruct (list_starts_ends 0 sts q Hlt) as [E1 E2]. destruct (list_ends_spec 0 sts q l Hq) as [E _].
    assert (0 < length l)%nat by (rewrite list.Forall_lookup in Hne; specialize (Hne _ _ Hq); destruct l; [done|cbn; lia]).
    exists (list_ends 0 sts !!! q - 1)%nat. split; [lia|]. apply Z.eqb_eq, Hall. apply list_elem_of_In, list_elem_of_lookup_total_2.
    by rewrite list_ends_length.
  - apply res_bind_ok in H as (out & Eout & H). apply at_index_ok in H as [Hl <-].
    assert (Hlen : length (list_starts 0 sts) = length (list_ends 0 sts)) by (by rewrite list_starts_length, list_ends_length).
    assert (Hpos : (0 < length (list_ends 0 sts))%nat) by (rewrite list_ends_length; lia).
    apply (intersect_lists_subset _ _ _ Hlen Hpos out Eout); [apply list_elem_of_lookup_total_2; lia|by rewrite list_ends_length].
Qed.

(** The states a branch is shifted through. *)
Section Shift.
Context (al : Z) (p : packet_mem).
#[local] Abbreviation T := (data_test al p).
Definition tests_ok (d : Dom) : Prop := forall i, test_ok (i_test (d_insn d !!! i)).
Lemma br_implies_sound d br state : tests_ok d -> holds T d br -> br_implies d br state = true -> T (i_test (d_insn d !!! Z.to_nat state)) = true.
Proof.
  intros Ht Hh H. unfold br_implies, holds in *. destruct (br_yes br).
  - by eapply implies_sound; [| |exact H|].
  - by eapply not_implies_sound; [| |exact H|].
Qed.
Lemma br_implies_not_sound d br state : tests_ok d -> holds T d br -> br_implies_not d br state = true -> T (i_test (d_insn d !!! Z.to_nat state)) = false.
Proof.
  intros Ht Hh H. unfold br_implies_not, holds in *. destruct (br_yes br).
  - by eapply implies_not_sound; [| |exact H|].
  - by eapply not_implies_not_sound; [| |exact H|].
Qed.
Lemma decided_sound d to brs b : tests_ok d -> (forall x, x ∈ brs -> holds T d x) -> decided d to brs = Some b ->
  T (i_test (d_insn d !!! Z.to_nat to)) = b.
Proof.
  intros Ht. induction brs as [|br brs IH]; intros Hh H; [done|]. cbn [decided] in H. pose proof (Hh br ltac:(apply list_elem_of_here)) as Hbr.
  destruct (br_implies d br to) eqn:E1; [injection H as <-; by eapply br_implies_sound|].
  destruct (br_implies_not d br to) eqn:E2; [injection H as <-; by eapply br_implies_not_sound|].
  apply IH; [|done]. intros x Hx. apply Hh. by apply list_elem_of_further.
Qed.
Lemma shift_states_jumps fuel d to brs i x : forward (d_insn d) -> jump_ok (length (d_insn d)) i to -> x ∈ shift_states fuel d to brs ->
  jump_ok (length (d_insn d)) i x.
Proof.
  intros Hf. revert to. induction fuel as [|fuel IH]; intros to Hto Hx; cbn [shift_states] in Hx; [by apply list_elem_of_singleton in Hx as ->|].
  destruct (Z.ltb_spec 0 to) as [H0|H0]; [|by apply list_elem_of_singleton in Hx as ->].
  destruct (decided d to brs) as [b|]; [|by apply list_elem_of_singleton in Hx as ->].
  apply list.elem_of_cons in Hx as [-> |Hx]; [done|]. destruct Hto as [|Hto]; [lia|].
  destruct (lookup_lt_is_Some_2 (d_insn d) (Z.to_nat to) ltac:(lia)) as [e He]. rewrite (list_lookup_total_correct _ _ _ He) in Hx.
  eapply IH; [|exact Hx]. destruct (Hf _ e He b) as [|Hj]; [by left|right; lia].
Qed.
Lemma shift_states_sound fuel d to brs x r : forward (d_insn d) -> tests_ok d -> (forall x, x ∈ brs -> holds T d x) ->
  lands T (d_insn d) to r -> x ∈ shift_states fuel d to brs -> lands T (d_insn d) x r.
Proof.
  intros Hf Ht Hh. revert to. induction fuel as [|fuel IH]; intros to Hr Hx; cbn [shift_states] in Hx; [by apply list_elem_of_singleton in Hx as ->|].
  destruct (Z.ltb_spec 0 to) as [H0|H0]; [|by apply list_elem_of_singleton in Hx as ->].
  destruct (decided d to brs) as [b|] eqn:Ed; [|by apply list_elem_of_singleton in Hx as ->].
  apply list.elem_of_cons in Hx as [-> |Hx]; [done|]. eapply IH; [|exact Hx].
  apply lands_runs in Hr as (e & He & Hr); [|done]. pose proof (decided_sound d to brs b Ht Hh Ed) as Hb.
  rewrite (list_lookup_total_correct _ _ _ He) in *. by rewrite Hb in Hr.
Qed.
Lemma shift_states_nonempty fuel d to brs : shift_states fuel d to brs <> [].
Proof. destruct fuel; [done|]. cbn [shift_states]. destruct (0 <? to); [|done]. by destruct (decided d to brs). Qed.
End Shift.

Lemma decided_dom dom d to brs : decided (set_dom dom d) to brs = decided d to brs.
Proof. induction brs as [|br brs IH]; [done|]. cbn [decided]. by rewrite IH. Qed.
Lemma shift_states_dom dom d fuel to brs : shift_states fuel (set_dom dom d) to brs = shift_states fuel d to brs.
Proof.
  revert to. induction fuel as [|fuel IH]; intros to; [done|]. cbn [shift_states]. rewrite decided_dom.
  destruct (0 <? to); [|done]. destruct (decided d to brs); [|done]. f_equal. apply IH.
Qed.

(** *** All the lists of a state *)
(** What is in a list once its last branch has been set. *)
Definition set_last (d : Dom) (br : Z) (j : nat) : list Z :=
  slice (d_dom d) (d_dom_start d !!! j) (d_dom_start d !!! S j - 1)%nat ++ [br].
Lemma slice_set_last (dom : list Z) a b x : (a < b)%nat -> (b <= length dom)%nat -> slice (<[(b - 1)%nat := x]> dom) a b = slice dom a (b - 1) ++ [x].
Proof.
  intros Hab Hb. unfold slice. rewrite drop_insert_ge by lia. replace (b - a)%nat with (S (b - 1 - a)) by lia.
  rewrite (take_S_r _ _ x).
  - by rewrite take_insert_ge by lia.
  - rewrite list_lookup_insert_eq; [done|]. rewrite length_drop. lia.
Qed.
Lemma slice_insert_outside (dom : list Z) a b i x : ~ (a <= i < b)%nat -> slice (<[i := x]> dom) a b = slice dom a b.
Proof.
  intros Hi. unfold slice. destruct (decide (i < a)%nat).
  - by rewrite drop_insert_lt by lia.
  - rewrite drop_insert_ge by lia. apply take_insert_ge. lia.
Qed.
Section ShiftLists.
Context (k : nat) (br nexts : Z).
#[local] Abbreviation brid d := (brno (insn_id d (stateno br)) (br_yes br)).
Lemma shift_lists_spec d js vals starts ends d' vals' starts' ends' : arrays_ok k d -> 0 <= brid d ->
  (forall j, j ∈ js -> S j < length (d_dom_start d))%nat ->
  shift_lists d br nexts js vals starts ends = Ok (d', vals', starts', ends') ->
  (exists dom, d' = set_dom dom d /\ acc_ok d (dom, [], [])) /\
  exists sts, vals' = vals ++ concat sts /\ starts' = starts ++ list_starts (length vals) sts /\ ends' = ends ++ list_ends (length vals) sts /\
    length sts = length js /\ Forall (fun l => l <> []) sts /\
    forall q j, js !! q = Some j -> sts !! q = Some (shift_states (length (d_insn d)) d nexts (rev (set_last d (brid d) j))).
Proof.
  intros A Hb. revert d vals starts ends A Hb. induction js as [|j js IH]; intros d vals starts ends A Hb Hjs H.
  { injection H as <- <- <- <-. split.
    - exists (d_dom d). split; [by destruct d|]. split_and!; try done; [apply (ar_nonneg _ _ A)|by left].
    - exists []. cbn. rewrite !app_nil_r. split_and!; try done. }
  cbn [shift_lists] in H. apply res_bind_ok in H as (a & Ea & (b & Eb & ([states d1] & Es & H)%res_bind_ok)%res_bind_ok).
  apply at_index_ok in Ea as [_ <-]. apply at_index_ok in Eb as [_ <-]. unfold dom_shift_branch in Es.
  apply res_bind_ok in Es as (u1 & _ & (x & _ & (u2 & _ & [= <- <-])%res_bind_ok)%res_bind_ok).
  pose proof (Hjs j ltac:(apply list_elem_of_here)) as Hj. pose proof (list_nonempty k d A j Hj) as Hr.
  set (dom1 := <[(d_dom_start d !!! S j - 1)%nat := brid d]> (d_dom d)) in *.
  assert (A1 : arrays_ok k (set_dom dom1 d)).
  { destruct A. constructor; cbn [set_dom d_dom d_dom_start d_domlist_start]; unfold dom1; rewrite ?length_insert; try done.
    by apply Forall_insert. }
  apply IH in H as [(dom & -> & Hdom) (sts & E1 & E2 & E3 & E4 & E5 & E6)]; [|done|done|intros j' Hj'; apply Hjs; by apply list_elem_of_further].
  cbn [set_dom d_dom d_insn d_insn_id d_dom_start] in *. split.
  - exists dom. split; [done|]. destruct Hdom as (H1 & H2 & H3 & H4 & H5). cbn [set_dom d_dom d_dom_start] in *. unfold dom1 in *. rewrite length_insert in H2.
    split_and!; try done. intros i Hi. destruct (H5 i Hi) as [->|]; [|by right].
    destruct (decide (i = d_dom_start d !!! S j - 1)%nat) as [->|Hne]; [right; by exists j|left; by apply list_lookup_total_insert_ne].
  - set (st := shift_states (length (d_insn d)) (set_dom dom1 d) nexts (rev (slice dom1 (d_dom_start d !!! j) (d_dom_start d !!! S j)))) in *.
    exists (st :: sts). rewrite length_app in E2, E3.
    split; [by rewrite E1, <- app_assoc|]. split; [by rewrite E2, <- app_assoc|].
    split; [by rewrite E3, <- app_assoc|]. split; [cbn; lia|].
    split; [constructor; [apply shift_states_nonempty|done]|]. intros [|q] j' Hj'.
    + injection Hj' as <-. change ((st :: sts) !! 0%nat) with (Some st). unfold st, dom1. rewrite slice_set_last by lia. by rewrite shift_states_dom.
    + change ((st :: sts) !! S q) with (sts !! q). change (js !! q = Some j') in Hj'. rewrite (E6 q j' Hj'). rewrite shift_states_dom. do 3 f_equal. unfold set_last. cbn [set_dom d_dom d_dom_start]. f_equal.
      apply slice_insert_outside. intros Hi.
      assert (Hj'b : (S j' < length (d_dom_start d))%nat) by (apply Hjs, list_elem_of_further; by eapply list_elem_of_lookup_2).
      destruct (decide (j' = j)) as [-> |Hne]; [lia|]. by apply (last_outside k d A j' j (d_dom_start d !!! S j - 1)%nat Hj'b Hj Hne); [lia|].
Qed.
End ShiftLists.


Section ShiftBranch.
Context (al : Z) (p : packet_mem) (l0 : list Insn) (Htests : forall i, test_ok (i_test (l0 !!! i))).
#[local] Abbreviation T := (data_test al p).
#[local] Abbreviation dom_inv := (dom_inv T l0).
Lemma inv_tests_ok k d : dom_inv k d -> tests_ok d.
Proof. intros I i. rewrite (same_test _ _ _ (inv_tests _ _ _ _ I)). apply Htests. Qed.
Lemma last_in (l : list Z) x : l <> [] -> List.last l x ∈ l.
Proof. intros Hl. apply list_elem_of_In. destruct (exists_last Hl) as (l' & y & ->). rewrite last_last. apply in_or_app. right. by left. Qed.

(** A branch of state [k] moved to a state that is on the way from all its lists. *)
Lemma shifted_inv k b d dom (sts : list (list Z)) (js : list nat) new : dom_inv (S k) d -> (k < length l0)%nat ->
  let br := brno (insn_id d (Z.of_nat k)) b in
  let nexts := in_j (d_insn d !!! k) b in
  acc_ok d (dom, [], []) -> (forall j, j ∈ js <-> list_of d k j) -> js <> [] ->
  (forall q j, js !! q = Some j -> sts !! q = Some (shift_states (length (d_insn d)) d nexts (rev (set_last d br j)))) ->
  (forall q l, sts !! q = Some l -> new ∈ l) ->
  let d1 := set_dom dom d in
  dom_inv (S k) (if new =? nexts then d1 else set_branch (Z.of_nat k) b new d1).
Proof.
  intros I Hk br nexts Hdom Hjs Hne Hsts Hnew d1. pose proof (set_dom_inv T l0 (S k) d dom [] [] I Hdom) as I1. fold d1 in I1.
  destruct (Z.eqb_spec new nexts) as [|Hdiff]; [done|]. pose proof (inv_length _ _ _ _ I) as Hlen. pose proof (inv_forward _ _ _ _ I) as Hf.
  destruct (lookup_lt_is_Some_2 (d_insn d) k ltac:(lia)) as [e He].
  assert (Hn : nexts = in_j e b) by (unfold nexts; by rewrite (list_lookup_total_correct _ _ _ He)).
  assert (Hjump : jump_ok (length l0) k new).
  { destruct js as [|j0 js]; [done|]. rewrite <- Hlen. eapply shift_states_jumps; [exact Hf| |apply (Hnew 0%nat), (Hsts 0%nat j0); done].
    rewrite Hn. by apply Hf. }
  apply (set_branch_inv T l0 (S k) d1 k e b new); [done|done|done|destruct Hjump; lia|].
  intros Hv HT r Hr. change (d_insn d1) with (d_insn d) in *. destruct (inv_ways _ _ _ _ I k ltac:(lia) Hv) as (j & Hj & Hvalid).
  apply Hjs in Hj as Hin. apply list_elem_of_lookup in Hin as [q Hq]. pose proof (inv_arrays _ _ _ _ I) as A.
  pose proof (list_bound (S k) d A k j ltac:(lia) Hj) as Hjb. pose proof (list_nonempty (S k) d A j Hjb).
  eapply shift_states_sound; [done|by eapply inv_tests_ok| |rewrite <- Hn in Hr; exact Hr|by eapply Hnew, Hsts].
  intros x Hx. rewrite <- List.in_rev in Hx || apply list_elem_of_In, List.in_rev, list_elem_of_In in Hx.
  unfold set_last in Hx. apply elem_of_app in Hx as [Hx| ->%list_elem_of_singleton].
  - unfold slice in Hx. apply list_elem_of_lookup in Hx as [i Hi]. apply lookup_take_Some in Hi as [Hi Hlt]. rewrite lookup_drop in Hi.
    rewrite <- (list_lookup_total_correct _ _ _ Hi). apply Hvalid. lia.
  - unfold holds, br. rewrite stateno_brno, br_yes_brno, (inv_ids _ _ _ _ I k Hk). by rewrite (list_lookup_total_correct _ _ _ He).
Qed.
Lemma shift_branch_inv k b d d' : dom_inv (S k) d -> (k < length l0)%nat -> shift_branch k b d = Ok d' -> dom_inv (S k) d'.
Proof.
  intros I Hk H. unfold shift_branch in H. apply res_bind_ok in H as (js & Ejs & ([d1 new] & E & [= <-])%res_bind_ok).
  pose proof (inv_arrays _ _ _ _ I) as A. pose proof (domlists_ok _ _ _ Ejs) as Hjs.
  assert (Hjsb : forall j, j ∈ js -> (S j < length (d_dom_start d))%nat) by (intros j Hj; apply (list_bound (S k) d A k j); [lia|by apply Hjs]).
  set (nexts := in_j (d_insn d !!! k) b) in *. set (br := brno (Z.of_nat k) b) in *.
  assert (Hbrid : brno (insn_id d (stateno br)) (br_yes br) = brno (insn_id d (Z.of_nat k)) b) by (unfold br; by rewrite stateno_brno, br_yes_brno).
  assert (Hb0 : 0 <= brno (insn_id d (stateno br)) (br_yes br)) by (rewrite Hbrid; apply brno_nonneg, (inv_nonneg _ _ _ _ I)).
  destruct (_ || _) eqn:Eor; [injection E as <- <-; by rewrite Z.eqb_refl|].
  apply orb_false_iff in Eor as [Hjs0 _]. assert (Hne : js <> []) by (by intros ->).
  assert (Hshift : forall d1 vals starts ends, shift_lists d br nexts js [] [] [] = Ok (d1, vals, starts, ends) ->
    exists (dom : list Z) (sts : list (list Z)), d1 = set_dom dom d /\ vals = concat sts /\ starts = list_starts 0 sts /\ ends = list_ends 0 sts /\ length sts = length js /\
      Forall (fun l => l <> []) sts /\
      forall new, (forall q l, sts !! q = Some l -> new ∈ l) -> dom_inv (S k) (if new =? nexts then d1 else set_branch (Z.of_nat k) b new d1)).
  { intros d2 vals starts ends Es. destruct (shift_lists_spec (S k) br nexts d js [] [] [] _ _ _ _ A Hb0 Hjsb Es)
      as [(dom & -> & Hdom) (sts & -> & -> & -> & Hl & Hnes & Hsts)].
    exists dom, sts. split_and!; try done. intros new' Hnew. rewrite Hbrid in Hsts. by apply (shifted_inv k b d dom sts js new'). }
  destruct (Nat.eqb_spec (length js) 1) as [H1|H1].
  - apply res_bind_ok in E as ([[[d2 vals] starts] ends] & Es & [= <- <-]). destruct (Hshift _ _ _ _ Es) as (dom & sts & -> & -> & _ & _ & Hl & Hnes & Hinv).
    destruct sts as [|st [|]]; [cbn in Hl; lia| |cbn in Hl; lia]. apply Hinv. intros [|[]] l Hlk; try done. injection Hlk as <-.
    cbn [concat]. rewrite app_nil_r. apply last_in. by apply list.Forall_cons in Hnes as [].
  - apply res_bind_ok in E as ([[[d2 vals] starts] ends] & Es & (s & Elast & [= <- <-])%res_bind_ok).
    destruct (Hshift _ _ _ _ Es) as (dom & sts & -> & -> & -> & -> & Hl & Hnes & Hinv). apply Hinv.
    eapply last_common_in; [exact Hnes| |reflexivity|exact Elast]. intros ->. cbn in Hl. by destruct js.
Qed.
Lemma run_state_inv k d d' : dom_inv k d -> (k < length l0)%nat -> exact_preds d None [] (d_pred d !!! k) (d_dom d, [], []) = true ->
  run_state k d = Ok d' -> dom_inv (S k) d'.
Proof.
  intros I Hk Hex H. unfold run_state in H. apply res_bind_ok in H as (u & _ & (d1 & E1 & (d2 & E2 & E3)%res_bind_ok)%res_bind_ok).
  eapply shift_branch_inv; [|exact Hk|exact E3]. eapply shift_branch_inv; [|exact Hk|exact E2]. by eapply calculate_dom_inv.
Qed.
Lemma run_states_inv n k d : dom_inv k d -> (k + n = length l0)%nat -> exact_states (seq k n) d = true ->
  exists d', run_states (seq k n) d = Ok d' /\ dom_inv (length l0) d'.
Proof.
  revert k d. induction n as [|n IH]; intros k d I Hn Hex.
  { exists d. split; [done|]. by replace (length l0) with k by lia. }
  cbn [seq exact_states run_states] in *. apply andb_true_iff in Hex as [Hp Hex].
  destruct (run_state k d) as [d1|] eqn:E1; [|done]. cbn [mbind res_bind]. apply IH; [|lia|done].
  eapply run_state_inv; [exact I|lia|exact Hp|exact E1].
Qed.
End ShiftBranch.

(** ** The initial state *)
Lemma le_bytes_inj n x y : 0 <= x < 2 ^ (8 * Z.of_nat n) -> 0 <= y < 2 ^ (8 * Z.of_nat n) -> le_bytes n x = le_bytes n y -> x = y.
Proof.
  intros Hx Hy E. assert (Hhigh : forall z m, 0 <= z < 2 ^ (8 * Z.of_nat n) -> 8 * Z.of_nat n <= m -> Z.testbit z m = false).
  { intros z m Hz Hm. rewrite <- (Z.mod_small z (2 ^ (8 * Z.of_nat n))) by done. apply Z.mod_pow2_bits_high. lia. }
  apply Z.bits_inj'. intros m Hm. destruct (Z.lt_ge_cases m (8 * Z.of_nat n)) as [Hlt|]; [|by rewrite !Hhigh by done].
  pose proof (Z.div_mod m 8 ltac:(lia)) as Hdm. pose proof (Z.mod_pos_bound m 8 ltac:(lia)) as Hmod.
  set (q := Z.to_nat (m / 8)). assert (Hq : (q < n)%nat) by (unfold q; lia).
  assert (Eq : Z.land (Z.shiftr x (8 * Z.of_nat q)) 255 = Z.land (Z.shiftr y (8 * Z.of_nat q)) 255).
  { apply (f_equal (fun l => l !! q)) in E. unfold le_bytes in E. change (map ?f ?l) with (f <$> l) in E.
    rewrite !list_lookup_fmap, (proj2 (lookup_seq 0 n q q)) in E by lia. by injection E. }
  apply (f_equal (fun z => Z.testbit z (m mod 8))) in Eq. rewrite !Z.land_spec, !Z.shiftr_spec in Eq by lia.
  change 255 with (Z.ones 8) in Eq. rewrite !Z.ones_spec_low, !andb_true_r in Eq by lia.
  by replace (m mod 8 + 8 * Z.of_nat q) with m in Eq by (unfold q; lia).
Qed.
Lemma memcmp_zero a b : length a = length b -> memcmp a b = 0 -> a = b.
Proof.
  revert b. induction a as [|x a IH]; intros [|y b] Hl H; try done. cbn [memcmp] in H. revert H.
  destruct (Z.eqb_spec x y) as [->|]; intros H; [|lia]. f_equal. apply IH; [by injection Hl|done].
Qed.
Definition dom_test (t : Test) : Prop := test_ok t /\ 0 <= i_offset t < 65536.
Lemma value_range t : test_ok t -> 0 <= i_value t < 4294967296.
Proof.
  intros (Hm & Hv & E). apply range32_bits in Hm as [_ Hm]. apply range32_bits. split; [done|]. intros n Hn.
  by rewrite <- E, Z.land_spec, Hm, andb_false_r.
Qed.
Lemma insn_compare_zero a b : dom_test (i_test a) -> dom_test (i_test b) -> insn_compare a b = 0 -> i_test a = i_test b.
Proof.
  intros [Ha Hoa] [Hb Hob] H. pose proof (value_range _ Ha) as Hva. pose proof (value_range _ Hb) as Hvb. destruct Ha as (Hma & _), Hb as (Hmb & _).
  apply memcmp_zero in H; [|done]. unfold test_bytes in H.
  apply app_inj_1 in H as [Ho H]; [|done]. apply app_inj_1 in H as [Hs H]; [|done]. apply app_inj_1 in H as [Hm Hv]; [|done].
  apply le_bytes_inj in Ho; [|done..]. apply le_bytes_inj in Hm; [|done..]. apply le_bytes_inj in Hv; [|done..].
  injection Hs as Hs. destruct (i_test a) as [o1 s1 m1 v1], (i_test b) as [o2 s2 m2 v2]. cbn in *. subst. f_equal. by destruct s1, s2.
Qed.

Section Initial.
Context (l : list Insn) (Hf : forward l) (Ht : forall e, e ∈ l -> dom_test (i_test e)).
Lemma default_dom_test i : dom_test (i_test (l !!! i)).
Proof.
  rewrite list_lookup_total_alt. destruct (l !! i) as [e|] eqn:E; [by eapply Ht, list_elem_of_lookup_2|].
  change (dom_test (MkTest 0 false 0 0)). by repeat split.
Qed.
Definition id_ok (ids : list Z) (i : nat) : Prop := i_test (l !!! Z.to_nat (ids !!! i)) = i_test (l !!! i).
Lemma number_insns_ok permute previous ids : Forall (fun x => 0 <= x) ids -> length ids = length l ->
  (forall i, i ∈ permute -> 0 <= i < Z.of_nat (length l)) ->
  (forall h, previous = Some h -> 0 <= h < Z.of_nat (length l) /\ id_ok ids (Z.to_nat h)) ->
  let ids' := number_insns l previous permute ids in
  Forall (fun x => 0 <= x) ids' /\ forall i, Z.of_nat i ∈ permute \/ id_ok ids i -> id_ok ids' i.
Proof.
  revert previous ids. induction permute as [|i permute IH]; intros previous ids Hn Hl Hp Hprev.
  { split; [done|]. intros i [H|H]; [by apply elem_of_nil in H|done]. }
  cbn [number_insns]. set (id := match previous with Some h => _ | None => i end).
  pose proof (Hp i ltac:(apply list_elem_of_here)) as Hi.
  assert (Hid : 0 <= id /\ i_test (l !!! Z.to_nat id) = i_test (l !!! Z.to_nat i)).
  { unfold id. destruct previous as [h|]; [|split; [lia|done]]. destruct (Hprev h eq_refl) as [Hh Hok].
    destruct (Z.eqb_spec (insn_compare (l !!! Z.to_nat i) (l !!! Z.to_nat h)) 0) as [E|]; [|split; [lia|done]].
    apply insn_compare_zero in E; [|apply default_dom_test..]. split; [|by rewrite Hok].
    rewrite list.Forall_lookup in Hn. apply (Hn (Z.to_nat h)), list_lookup_lookup_total_lt. lia. }
  assert (Hok : forall m, m = Z.to_nat i \/ id_ok ids m -> id_ok (<[Z.to_nat i := id]> ids) m).
  { intros m Hm. unfold id_ok. destruct (decide (m = Z.to_nat i)) as [-> |Hne]; [rewrite list_lookup_total_insert_eq by lia; apply Hid|].
    rewrite list_lookup_total_insert_ne by done. by destruct Hm. }
  destruct (IH (Some i) (<[Z.to_nat i := id]> ids)) as [IH1 IH2].
  - apply Forall_insert; [done|apply Hid].
  - by rewrite length_insert.
  - intros x Hx. apply Hp. by apply list_elem_of_further.
  - intros h [= <-]. split; [done|]. apply Hok. by left.
  - split; [done|]. intros m [Hm|Hm]; apply IH2; [|right; apply Hok; by right].
    apply list.elem_of_cons in Hm as [Hm|Hm]; [right; apply Hok; left; lia|by left].
Qed.
Lemma insn_branch i j k : (i, j, k) ∈ concat (imap (fun i e => [(i, i_no e, false); (i, i_yes e, true)]) l) <->
  exists e, l !! i = Some e /\ j = in_j e k.
Proof.
  rewrite list_elem_of_In, in_concat. split.
  - intros (x & Hx & H). apply list_elem_of_In, elem_of_lookup_imap in Hx as (i' & e & -> & He).
    destruct H as [[= <- <- <-]|[[= <- <- <-]|[]]]; by exists e.
  - intros (e & He & ->). exists [(i, i_no e, false); (i, i_yes e, true)]. split.
    + apply list_elem_of_In, elem_of_lookup_imap. by exists i, e.
    + destruct k; cbn; tauto.
Qed.
Lemma initial_pred_fold (bs : list (nat * Z * bool)) : (forall i j k, (i, j, k) ∈ bs -> j < Z.of_nat (length l)) ->
  let pred := foldl (fun pred '(i, j, k) => if 0 <? j then alter (cons (brno (Z.of_nat i) k)) (Z.to_nat j) pred else pred)
    (replicate (length l) []) bs in
  length pred = length l /\
  forall to br, (to < length l)%nat -> br ∈ pred !!! to <-> exists i k, (i, Z.of_nat to, k) ∈ bs /\ br = brno (Z.of_nat i) k /\ (0 < to)%nat.
Proof.
  induction bs as [|[[i j] k] bs IH] using rev_ind; intros Hbs; cbv zeta.
  { cbn. split; [apply length_replicate|]. intros to br Hto. rewrite lookup_total_replicate_2 by done. split; [by intros H%elem_of_nil|].
    intros (? & ? & H & _). by apply elem_of_nil in H. }
  rewrite foldl_app. cbn [foldl]. destruct IH as [IHl IH]; [intros i' j' k' H; apply (Hbs i' j' k'), elem_of_app; by left|].
  pose proof (Hbs i j k ltac:(apply elem_of_app; right; apply list_elem_of_here)) as Hj. set (pred := foldl _ _ bs) in *.
  split; [destruct (0 <? j); by rewrite ?length_alter|]. intros to br Hto.
  assert (Hsplit : (exists i' k', (i', Z.of_nat to, k') ∈ bs ++ [(i, j, k)] /\ br = brno (Z.of_nat i') k' /\ (0 < to)%nat) <->
    br ∈ pred !!! to \/ j = Z.of_nat to /\ br = brno (Z.of_nat i) k /\ (0 < to)%nat).
  { rewrite IH by done. split.
    - intros (i' & k' & [H|H]%elem_of_app & Hb & H0); [left; by exists i', k'|]. apply list_elem_of_singleton in H as [= -> <- ->]. by right.
    - intros [(i' & k' & H & Hb & H0)|(-> & Hb & H0)]; [exists i', k'|exists i, k]; (split; [apply elem_of_app; (by left) || (right; apply list_elem_of_here)|done]). }
  rewrite Hsplit. destruct (Z.ltb_spec 0 j) as [H0|H0]; [|split; [by left|intros [|(? & _ & ?)]; [done|lia]]].
  rewrite lookup_total_alter_case by lia. destruct (decide (to = Z.to_nat j)) as [-> |Hne].
  - rewrite list.elem_of_cons. split; [intros [-> |]; [right; split_and!; (lia || done)|by left]|tauto].
  - split; [by left|intros [|(? & _)]; [done|lia]].
Qed.
Lemma initial_pred_ok : preds_ok l (initial_pred l).
Proof.
  unfold initial_pred. set (bs := concat _).
  assert (Hbs : forall i j k, (i, j, k) ∈ bs -> j < Z.of_nat (length l)).
  { intros i j k (e & He & ->)%insn_branch. pose proof (lookup_lt_Some _ _ _ He). destruct (Hf i e He k); lia. }
  destruct (initial_pred_fold bs Hbs) as [Hl H]. split; [done|]. intros to Hto br. rewrite H by done. unfold is_pred. split.
  - intros (i & k & (e & He & Hj)%insn_branch & Hb & H0). split; [done|]. by exists i, e, k.
  - intros (H0 & i & e & k & He & Hb & Hj). exists i, k. split; [apply insn_branch; by exists e|done].
Qed.
Lemma initial_inv T d : Z.of_nat (length l) < 2 ^ 64 -> DominatorOptimizer l = Ok d -> dom_inv T l 0 d.
Proof.
  intros Hlen H. unfold DominatorOptimizer in H. apply res_bind_ok in H as (permute & Ep & [= <-]).
  destruct (click_qsort_run (insn_permute_compare l) (map Z.of_nat (seq 0 (length l)))) as (h & E & Hperm & _).
  { by rewrite length_map, length_seq. }
  rewrite E in Ep. injection Ep as ->.
  assert (Hin : forall i, i ∈ permute <-> 0 <= i < Z.of_nat (length l)).
  { intros i. rewrite Hperm, list_elem_of_In, in_map_iff. split.
    - intros (x & <- & Hx%in_seq). lia.
    - intros Hi. exists (Z.to_nat i). split; [lia|]. apply in_seq. lia. }
  destruct (number_insns_ok permute None (replicate (length l) 0)) as [Hn Hok]; [by apply Forall_replicate|apply length_replicate|intros i; by rewrite Hin|done|].
  constructor; cbn [d_insn d_insn_id d_pred]; try done.
  - constructor; cbn; try done; try lia. intros s s' Hs. assert (s = 0 /\ s' = 0)%nat as [-> ->] by lia. done.
  - apply initial_pred_ok.
  - intros s. unfold insn_id. cbn [d_insn_id]. rewrite list_lookup_total_alt. destruct (_ !! Z.to_nat s) as [x|] eqn:Ex; [|done].
    rewrite list.Forall_lookup in Hn. by apply (Hn _ _ Ex).
  - intros s Hs. unfold insn_id. cbn [d_insn_id]. rewrite Nat2Z.id. apply Hok. left. apply Hin. lia.
  - intros s Hs. lia.
Qed.
End Initial.

Lemma dominators_run l : forward l -> (forall e, e ∈ l -> dom_test (i_test e)) -> Z.of_nat (length l) < 2 ^ 64 ->
  exact l = true ->
  exists l', optimize_dominators l = Ok l' /\ forward l' /\ map i_test l' = map i_test l /\
    forall al p, sends (data_test al p) l l'.
Proof.
  intros Hf Ht Hlen Hex. unfold exact in Hex. unfold optimize_dominators. destruct (DominatorOptimizer l) as [d|] eqn:Ed; [|done].
  cbn [mbind res_bind]. assert (Htests : forall i, test_ok (i_test (l !!! i))) by (intros i; by apply default_dom_test).
  assert (Hinv : forall al p, exists d', run_states (seq 0 (length l)) d = Ok d' /\ dom_inv (data_test al p) l (length l) d').
  { intros al p. apply run_states_inv; [done|by apply initial_inv|lia|done]. }
  destruct (Hinv 0 (Mem 0 (fun _ => 0))) as (d' & E & I). rewrite E. cbn [mbind res_bind]. exists (d_insn d'). split; [done|].
  split; [apply (inv_forward _ _ _ _ I)|]. split; [apply (inv_tests _ _ _ _ I)|]. intros al p.
  destruct (Hinv al p) as (d2 & E2 & I2). assert (d2 = d') as -> by congruence. exact (inv_runs _ _ _ _ I2).
Qed.
(** C38: for a program that passes [exact] (a run of the optimizer that checks its merges, and
    so includes that no assertion fails), the dominator optimisation only moves jumps, forward,
    and keeps where the program sends packets, every test being decided by the bytes it looks
    at ([data_test]): that is how packets behave that hold all those bytes.  Packets that end
    before them are not covered. *)
Theorem dominators_preserve l : forward l -> (forall e, e ∈ l -> dom_test (i_test e)) -> Z.of_nat (length l) < 2 ^ 64 ->
  exact l = true ->
  exists l', optimize_dominators l = Ok l' /\ forward l' /\ map i_test l' = map i_test l /\
    forall al p, sends (data_test al p) l l'.
Proof. apply dominators_run. Qed.

(** ** [optimize] *)
(** The dominator optimisation is exact for the program as [bubble_sort_and_exprs] leaves it. *)
Definition optimize_exact (om : list (Z * Z)) (last_offset : Z) (l : list Insn) : bool :=
  match bubble_sort_and_exprs om last_offset l with Some l' => exact l' | None => false end.
(** The packet holds every word that the program looks at. *)
Definition long_enough (al : Z) (l : list Insn) (p : packet_mem) : Prop :=
  forall e, e ∈ l -> i_offset (i_test e) + 4 <= m_length p + al.
Lemma long_packet_test al p t : test_ok t -> 0 <= i_offset t -> i_offset t + 4 <= m_length p + al ->
  data_test al p t = packet_test al p t.
Proof.
  intros Ht Ho Hl. destruct (Z.eq_dec (i_mask t) 0) as [E|E].
  - rewrite data_test_no_mask by done. by rewrite packet_test_no_mask.
  - apply long_test_packet; [done|]. pose proof (required_length_range t Ho). lia.
Qed.
Lemma map_test_elem (l l' : list Insn) e : map i_test l' ≡ₚ map i_test l -> e ∈ l' -> exists e0, e0 ∈ l /\ i_test e = i_test e0.
Proof.
  intros Hp He. assert (Hin : i_test e ∈ map i_test l') by (apply list_elem_of_In, in_map; by apply list_elem_of_In).
  rewrite Hp in Hin. apply list_elem_of_In, in_map_iff in Hin as (e0 & E & Hin). exists e0. split; [by apply list_elem_of_In|done].
Qed.
Lemma optimize_run om lo pr : forward (p_insn pr) -> (forall e, e ∈ p_insn pr -> dom_test (i_test e)) ->
  Z.of_nat (length (p_insn pr)) < 2 ^ 64 -> 0 <= p_align_offset pr < 65536 -> optimize_exact om lo (p_insn pr) = true ->
  exists pr', optimize om lo pr = Ok pr' /\
    forall p r, long_enough (p_align_offset pr) (p_insn pr) p ->
      runs (data_test (p_align_offset pr) p) (p_insn pr) 0 r -> match_packet pr' p = Some (- r).
Proof.
  destruct pr as [l oe sl al]. cbn [p_insn p_align_offset]. intros Hf Ht Hlen Hal Hex. unfold optimize. cbn [p_insn p_align_offset p_output_everything].
  destruct (bubble_sort_run om lo l Hf) as (l1 & E1 & Hf1 & Hl1 & Hp1 & Hr1). unfold optimize_exact in Hex. rewrite E1 in Hex |- *. cbn [opt_res mbind res_bind].
  assert (Ht1 : forall e, e ∈ l1 -> exists e0, e0 ∈ l /\ i_test e = i_test e0) by (intros e; by apply map_test_elem).
  destruct (dominators_run l1) as (l2 & E2 & Hf2 & Hp2 & Hr2); [done| |by rewrite Hl1|done|].
  { intros e He. destruct (Ht1 e He) as (e0 & He0 & ->). by apply Ht. }
  rewrite E2. cbn [mbind res_bind].
  assert (Ht2 : forall e, e ∈ l2 -> exists e0, e0 ∈ l /\ i_test e = i_test e0).
  { intros e He. destruct (map_test_elem l1 l2 e ltac:(by rewrite Hp2) He) as (e1 & He1 & ->). by apply Ht1. }
  assert (Hgood : forall Q : Z -> Prop, (forall e, e ∈ l -> Q (i_offset (i_test e))) -> good Q l2).
  { intros Q HQ i e He. destruct (Ht2 e ltac:(by eapply list_elem_of_lookup_2)) as (e0 & He0 & ->). split; [by apply Ht|by apply HQ]. }
  destruct (combine_preserves (fun o => 0 <= o < 65536) l2 Hf2) as (l3 & E3 & _ & Hf3 & _); [apply Hgood; intros; by apply Ht|].
  rewrite E3. cbn [opt_res mbind res_bind]. eexists. split; [reflexivity|]. intros p r Hlong Hr.
  destruct (combine_preserves (fun o => 0 <= o < 65536 /\ o + 4 <= m_length p + al) l2 Hf2) as (l3' & E3' & _ & _ & Hg3 & Hr3).
  { apply Hgood. intros e He. split; [by apply Ht|by apply Hlong]. }
  assert (l3' = l3) as -> by congruence.
  assert (Hin3 : forall e, e ∈ l3 -> test_ok (i_test e) /\ 0 <= i_offset (i_test e) < 65536 /\ i_offset (i_test e) + 4 <= m_length p + al).
  { intros e [i He]%list_elem_of_lookup. by apply (Hg3 i). }
  assert (Hruns3 : runs (packet_test al p) l3 0 r).
  { eapply runs_test; [|apply Hr3, Hr2, Hr1; exact Hr]. intros e He. destruct (Hin3 e He) as (? & ? & ?). apply long_packet_test; (done || lia). }
  pose proof (remove_unused_states_run l3 oe (packet_test al p) r Hf3) as Hrem.
  specialize (Hrem (packet_test_no_mask al p) Hruns3). destruct (remove_unused_states l3 oe) as [l4 oe4].
  apply (finish_program_match al p l3); [done|intros e He; by apply Hin3| |done].
  destruct Hruns3 as (e & _ & Hl). by eapply lands_end.
Qed.

Example dominators_preserve_witness :
  exists l', optimize_dominators arp_program = Ok l' /\ forward l' /\ map i_test l' = map i_test arp_program /\
    forall al p, sends (data_test al p) arp_program l'.
Proof.
  apply dominators_preserve; [exact arp_program_forward| |vm_compute; reflexivity|vm_compute; reflexivity].
  apply list.Forall_forall. repeat (apply list.Forall_cons; split; [vm_compute; intuition discriminate|]). constructor.
Defined.
