(* ===== verification/SimpleQueue.v ===== *)
(** * Packet queues ([elements/standard/simplequeue.cc], [standard/storage.hh])

    [SimpleQueue] keeps its packets in a ring of [_capacity + 1] slots.  A packet is a value of
    a type [A]; a slot no packet has been stored in is uninitialised, and a slot whose packet
    has left keeps the pointer.  Allocation is an argument.

    The lemmas say what each operation does to a ring that holds a list; [QueueSpec] has the
    theorem. *)
From Stdlib Require Import ZArith Lia.
From stdpp Require Import base list numbers option.
From S2P Require Import Prelude.
#[local] Open Scope Z_scope.

(** ** Indices ([Storage]) *)
Definition next_i (c i : Z) : Z := if i =? c then 0 else u32 (i + 1).
Definition prev_i (c i : Z) : Z := if i =? 0 then c else u32 (i - 1).
(** [size(head, tail)] *)
Definition storage_size (c head tail : Z) : Z :=
  let x := u32 (tail - head) in
  if x <? 2147483648 then x else s32 (u32 (c + x + 1)).

Section SimpleQueue.
Context {A : Type}.

(** What an operation does with packets: sends them to an output or kills them. *)
Inductive qevent : Type := QPush (port : nat) (p : A) | QKill (p : A).
Definition qpush (noutputs port : nat) (p : A) : qevent :=
  if (port <? noutputs)%nat then QPush port p else QKill p.

Record Queue : Type := MkQueue {
  q_capacity : Z;
  q_head : Z;
  q_tail : Z;
  q_q : option (list (option A));
  q_drops : Z;
  q_highwater : Z
}.
Definition set_head (h : Z) (q : Queue) : Queue :=
  MkQueue (q_capacity q) h (q_tail q) (q_q q) (q_drops q) (q_highwater q).
Definition set_tail (t : Z) (q : Queue) : Queue :=
  MkQueue (q_capacity q) (q_head q) t (q_q q) (q_drops q) (q_highwater q).
Definition set_highwater (n : Z) (q : Queue) : Queue :=
  MkQueue (q_capacity q) (q_head q) (q_tail q) (q_q q) (q_drops q) n.
Definition set_drops (n : Z) (q : Queue) : Queue :=
  MkQueue (q_capacity q) (q_head q) (q_tail q) (q_q q) n (q_highwater q).
Definition q_size (q : Queue) : Z := storage_size (q_capacity q) (q_head q) (q_tail q).
(** [_q[i]], and a store to it *)
Definition get_slot (i : Z) (q : Queue) : res A :=
  arr ← opt_res NullDeref (q_q q); o ← opt_res OutOfBounds (arr !! Z.to_nat i); opt_res Uninitialised o.
Definition set_slot (i : Z) (p : A) (q : Queue) : res Queue :=
  arr ← opt_res NullDeref (q_q q);
  if (Z.to_nat i <? length arr)%nat
  then Ok (MkQueue (q_capacity q) (q_head q) (q_tail q) (Some (<[Z.to_nat i := Some p]> arr)) (q_drops q) (q_highwater q))
  else Fault OutOfBounds.
Definition note_highwater (s : Z) (q : Queue) : Queue := if q_highwater q <? s then set_highwater s q else q.
Definition drop_one (q : Queue) : Queue := set_drops (s32 (q_drops q + 1)) q.

(** After the constructor and [configure] (the counters are set by [initialize]). *)
Definition SimpleQueue_new (capacity : Z) : Queue := MkQueue capacity 0 0 None 0 0.
(** [initialize]: [None] is the error that there is no memory. *)
Definition ring_memory (capacity : Z) : list (option A) := replicate (Z.to_nat (u32 (capacity + 1))) None.
Definition initialize (mem : bool) (q : Queue) : res (option Queue) :=
  if negb (match q_q q with None => true | Some _ => false end) || negb (q_head q =? 0) || negb (q_tail q =? 0)
  then Fault AssertFailed
  else if mem then Ok (Some (MkQueue (q_capacity q) 0 0 (Some (ring_memory (q_capacity q))) 0 0)) else Ok None.

(** ** Packets in and out *)
Definition enq (p : A) : handler Queue qevent bool :=
  q <-- hget ;;
  let h := q_head q in
  let t := q_tail q in
  let nt := next_i (q_capacity q) t in
  if negb (nt =? h) then
    q <-? set_slot t p q ;;
    hput (note_highwater (storage_size (q_capacity q) h nt) (set_tail nt q)) ;;;
    hret true
  else hemit (QKill p) ;;; hmodify drop_one ;;; hret false.
Definition lifo_enq (p : A) : handler Queue qevent unit :=
  q <-- hget ;;
  let t := q_tail q in
  let ph := prev_i (q_capacity q) (q_head q) in
  (if ph =? t then
     let t := prev_i (q_capacity q) t in
     old <-? get_slot t q ;; hemit (QKill old) ;;; hmodify (set_tail t)
   else hret tt) ;;;
  q <-- hget ;;
  q <-? set_slot ph p q ;;
  hput (set_head ph q).
Definition deq : handler Queue qevent (option A) :=
  q <-- hget ;;
  let h := q_head q in
  if negb (h =? q_tail q) then
    p <-? get_slot h q ;; hput (set_head (next_i (q_capacity q) h) q) ;;; hret (Some p)
  else hret None.
Definition SimpleQueue_push (noutputs : nat) (p : A) : handler Queue qevent unit :=
  q <-- hget ;;
  let h := q_head q in
  let t := q_tail q in
  let nt := next_i (q_capacity q) t in
  if negb (nt =? h) then
    q <-? set_slot t p q ;;
    hput (note_highwater (storage_size (q_capacity q) h nt) (set_tail nt q))
  else hmodify drop_one ;;; hemit (qpush noutputs 1 p).
Definition SimpleQueue_pull : handler Queue qevent (option A) := deq.
(** The loops below visit each packet of the ring at most once. *)
Definition ring_fuel (q : Queue) : nat := S (Z.to_nat (q_capacity q)).
Fixpoint reset_loop (fuel : nat) (noutputs : nat) : handler Queue qevent unit :=
  match fuel with
  | O => hlift (Fault Diverges)
  | S fuel =>
      mp <-- SimpleQueue_pull ;;
      match mp with
      | Some p => hemit (qpush noutputs 1 p) ;;; reset_loop fuel noutputs
      | None => hret tt
      end
  end.
Definition reset (noutputs : nat) : handler Queue qevent unit :=
  q <-- hget ;; reset_loop (ring_fuel q) noutputs.
Definition reset_counts (q : Queue) : Queue := set_highwater (q_size q) (set_drops 0 q).

(** ** Yanking *)
(** [while (trav != head()) { _q[trav] = _q[prev]; ... }] *)
Fixpoint shift_loop (fuel : nat) (trav : Z) (q : Queue) : res Queue :=
  match fuel with
  | O => Fault Diverges
  | S fuel =>
      if trav =? q_head q then Ok q
      else
        let prev := prev_i (q_capacity q) trav in
        p ← get_slot prev q;
        q ← set_slot trav p q;
        shift_loop fuel prev q
  end.
Fixpoint yank1_loop (fuel : nat) (filter : A -> bool) (trav : Z) (q : Queue) : res (option (Z * A)) :=
  match fuel with
  | O => Fault Diverges
  | S fuel =>
      if trav =? q_tail q then Ok None
      else
        p ← get_slot trav q;
        if filter p then Ok (Some (trav, p)) else yank1_loop fuel filter (next_i (q_capacity q) trav) q
  end.
Definition yank1 (filter : A -> bool) (q : Queue) : res (option A * Queue) :=
  found ← yank1_loop (ring_fuel q) filter (q_head q) q;
  match found with
  | Some (trav, p) =>
      q ← shift_loop (ring_fuel q) trav q;
      Ok (Some p, set_head (next_i (q_capacity q) (q_head q)) q)
  | None => Ok (None, q)
  end.
Definition yank1_peek (filter : A -> bool) (q : Queue) : res (option A) :=
  found ← yank1_loop (ring_fuel q) filter (q_head q) q;
  Ok (match found with Some (_, p) => Some p | None => None end).
(** From the tail back; the packets that stay move towards the tail. *)
Fixpoint yank_loop (fuel : nat) (filter : A -> bool) (trav write_ptr : Z) (yanked : list A) (q : Queue)
  : res (list A * Queue) :=
  match fuel with
  | O => Fault Diverges
  | S fuel =>
      if trav =? q_head q then Ok (yanked, set_head write_ptr q)
      else
        let trav := prev_i (q_capacity q) trav in
        p ← get_slot trav q;
        if filter p then yank_loop fuel filter trav write_ptr (yanked ++ [p]) q
        else
          let write_ptr := prev_i (q_capacity q) write_ptr in
          q ← set_slot write_ptr p q;
          yank_loop fuel filter trav write_ptr yanked q
  end.
(** The packets yanked, in the order they are added to [yank_vec]. *)
Definition yank (filter : A -> bool) (q : Queue) : res (list A * Queue) :=
  yank_loop (ring_fuel q) filter (q_tail q) (q_tail q) [] q.

(** ** Reconfiguration *)
(** The packets from [i] to the tail. *)
Fixpoint collect_loop (fuel : nat) (i : Z) (q : Queue) : res (list A) :=
  match fuel with
  | O => Fault Diverges
  | S fuel =>
      if i =? q_tail q then Ok []
      else p ← get_slot i q; l ← collect_loop fuel (next_i (q_capacity q) i) q; Ok (p :: l)
  end.
(** [while (... && j != n) new_q[j++] = _q[i]]: the packets copied and where it stops. *)
Fixpoint copy_loop (fuel : nat) (i : Z) (n : nat) (q : Queue) : res (list A * Z) :=
  match fuel with
  | O => Fault Diverges
  | S fuel =>
      if (i =? q_tail q) || (n =? 0)%nat then Ok ([], i)
      else
        p ← get_slot i q;
        '(l, i) ← copy_loop fuel (next_i (q_capacity q) i) (n - 1) q;
        Ok (p :: l, i)
  end.
(** [new_capacity] is what [configure] reads, [None] if it fails; the result is whether
    [live_reconfigure] succeeds. *)
Definition live_reconfigure (mem : bool) (new_capacity : option Z) : handler Queue qevent bool :=
  q <-- hget ;;
  match new_capacity with
  | None => hret false
  | Some n =>
      if n =? q_capacity q then hret true
      else
        match q_q q with
        | None => hput (MkQueue n (q_head q) (q_tail q) None (q_drops q) (q_highwater q)) ;;; hret true
        | Some _ =>
            if negb mem then hret false
            else
              kept <-? copy_loop (ring_fuel q) (q_head q) (Z.to_nat n) q ;;
              let '(l, i) := kept in
              killed <-? collect_loop (ring_fuel q) i q ;;
              (fun s => Ok (tt, s, map QKill killed)) ;;;
              let ring := ring_memory n in
              if (length ring <? length l)%nat then hlift (Fault OutOfBounds)
              else
                hput (MkQueue n 0 (Z.of_nat (length l)) (Some (map Some l ++ drop (length l) ring)) (q_drops q) (q_highwater q)) ;;;
                hret true
        end
  end.
(** [take_state]: [None] if this queue already holds packets; otherwise this queue, the other
    queue, and the packets killed. *)
Definition take_state (other q : Queue) : res (option (Queue * Queue * list A)) :=
  if negb (q_tail q =? q_head q) || negb (q_head q =? 0) then Ok None
  else
    '(l, j) ← copy_loop (ring_fuel other) (q_head other) (Z.to_nat (q_capacity q)) other;
    ring ← match q_q q with
           | Some ring => Ok ring
           | None => if (length l =? 0)%nat then Ok [] else Fault NullDeref
           end;
    if (length ring <? length l)%nat then Fault OutOfBounds
    else
      let t := Z.of_nat (length l) in
      let q := MkQueue (q_capacity q) 0 t
                 (match q_q q with Some _ => Some (map Some l ++ drop (length l) ring) | None => None end)
                 (q_drops q) (q_highwater q) in
      killed ← collect_loop (ring_fuel other) j other;
      Ok (Some (set_highwater (q_size q) q, set_tail 0 (set_head 0 other), killed)).
Definition cleanup (q : Queue) : res (Queue * list A) :=
  killed ← collect_loop (ring_fuel q) (q_head q) q;
  Ok (MkQueue (q_capacity q) (q_head q) (q_tail q) None (q_drops q) (q_highwater q), killed).
(** The read handlers [length], [highwater_length], [capacity] and [drops]. *)
Definition read_handler (which : Z) (q : Queue) : option Z :=
  if which =? 0 then Some (q_size q)
  else if which =? 1 then Some (q_highwater q)
  else if which =? 2 then Some (s32 (q_capacity q))
  else if which =? 3 then Some (q_drops q)
  else None.
End SimpleQueue.
Arguments qevent A : clear implicits.
Arguments Queue A : clear implicits.

(** ** A ring that holds a list *)
(** The slot of the [k]-th packet. *)
Definition idx (c h : Z) (k : nat) : Z := (h + Z.of_nat k) mod (c + 1).
Lemma next_i_mod c i : 0 <= i <= c -> c < 2147483648 -> next_i c i = (i + 1) mod (c + 1).
Proof.
  intros Hi Hc. unfold next_i. destruct (Z.eqb_spec i c) as [-> |]; [by rewrite Z_mod_same_full|].
  rewrite u32_small by lia. symmetry. apply Z.mod_small. lia.
Qed.
Lemma prev_i_mod c i : 0 <= i <= c -> c < 2147483648 -> prev_i c i = (i - 1) mod (c + 1).
Proof.
  intros Hi Hc. unfold prev_i. destruct (Z.eqb_spec i 0) as [-> |].
  - apply (Z.mod_unique _ _ (-1)); lia.
  - rewrite u32_small by lia. symmetry. apply Z.mod_small. lia.
Qed.
Lemma idx_range c h k : 0 <= c -> 0 <= idx c h k <= c.
Proof. intros. unfold idx. pose proof (Z.mod_pos_bound (h + Z.of_nat k) (c + 1)). lia. Qed.
Lemma idx_0 c h : 0 <= h <= c -> idx c h 0 = h.
Proof. intros. unfold idx. rewrite Z.add_0_r. apply Z.mod_small. lia. Qed.
Lemma idx_inj c h j k : 0 <= c -> Z.of_nat j <= c -> Z.of_nat k <= c -> idx c h j = idx c h k -> j = k.
Proof.
  unfold idx. intros Hc Hj Hk E. pose proof (Z.div_mod (h + Z.of_nat j) (c + 1)). pose proof (Z.div_mod (h + Z.of_nat k) (c + 1)).
  assert ((h + Z.of_nat j) / (c + 1) = (h + Z.of_nat k) / (c + 1)) by nia. lia.
Qed.
Lemma next_idx c h k : 0 <= c < 2147483648 -> next_i c (idx c h k) = idx c h (S k).
Proof.
  intros Hc. rewrite next_i_mod; [|apply idx_range; lia|lia]. unfold idx. rewrite Zplus_mod_idemp_l. f_equal. lia.
Qed.
Lemma prev_idx c h k : 0 <= c < 2147483648 -> prev_i c (idx c h (S k)) = idx c h k.
Proof.
  intros Hc. rewrite prev_i_mod; [|apply idx_range; lia|lia]. unfold idx. rewrite Zminus_mod_idemp_l. f_equal. lia.
Qed.
Lemma idx_idx c h j k : 0 <= c -> idx c (idx c h j) k = idx c h (j + k).
Proof. intros. unfold idx. rewrite Zplus_mod_idemp_l. f_equal. lia. Qed.
Lemma idx_prev c h k : 0 <= c < 2147483648 -> 0 <= h <= c -> idx c (prev_i c h) (S k) = idx c h k.
Proof. intros Hc Hh. rewrite prev_i_mod by lia. unfold idx. rewrite Zplus_mod_idemp_l. f_equal. lia. Qed.
Lemma prev_i_range c h : 0 <= c < 2147483648 -> 0 <= h <= c -> 0 <= prev_i c h <= c.
Proof. intros Hc Hh. rewrite prev_i_mod by lia. pose proof (Z.mod_pos_bound (h - 1) (c + 1)). lia. Qed.
(** [size] is right for capacities that are [int]s. *)
Lemma storage_size_idx c h n :
  0 <= c < 2147483648 -> 0 <= h <= c -> Z.of_nat n <= c -> storage_size c h (idx c h n) = Z.of_nat n.
Proof.
  intros Hc Hh Hn. unfold storage_size, idx. destruct (Z_lt_le_dec (h + Z.of_nat n) (c + 1)) as [Hw|Hw].
  - rewrite (Z.mod_small (h + Z.of_nat n)), u32_small by lia. destruct (Z.ltb_spec (h + Z.of_nat n - h) 2147483648); lia.
  - assert (E : (h + Z.of_nat n) mod (c + 1) = h + Z.of_nat n - (c + 1)) by (symmetry; apply (Z.mod_unique _ _ 1); lia).
    rewrite E. unfold u32, s32.
    assert (E1 : (h + Z.of_nat n - (c + 1) - h) mod 4294967296 = Z.of_nat n - (c + 1) + 4294967296) by (symmetry; apply (Z.mod_unique _ _ (-1)); lia).
    rewrite E1. destruct (Z.ltb_spec (Z.of_nat n - (c + 1) + 4294967296) 2147483648); [lia|].
    replace (c + (Z.of_nat n - (c + 1) + 4294967296) + 1) with (Z.of_nat n + 1 * 4294967296) by lia.
    rewrite Z_mod_plus_full, (Z.mod_small (Z.of_nat n)) by lia. rewrite Z.mod_small by lia. lia.
Qed.

Section Holds.
Context {A : Type}.
Implicit Types (q : Queue A) (l : list A).

Record holds q l : Prop := Holds {
  hl_capacity : 0 <= q_capacity q < 2147483648;
  hl_head : 0 <= q_head q <= q_capacity q;
  hl_length : Z.of_nat (length l) <= q_capacity q;
  hl_tail : q_tail q = idx (q_capacity q) (q_head q) (length l);
  hl_slots : exists arr, q_q q = Some arr /\ length arr = Z.to_nat (q_capacity q + 1) /\
    forall k x, l !! k = Some x -> arr !! Z.to_nat (idx (q_capacity q) (q_head q) k) = Some (Some x)
}.
(** What stays when only slots and indices change. *)
Definition same_counts q q' : Prop :=
  q_capacity q' = q_capacity q /\ q_drops q' = q_drops q /\ q_highwater q' = q_highwater q.
Lemma same_counts_refl q : same_counts q q.
Proof. done. Qed.
Lemma same_counts_trans q q1 q2 : same_counts q q1 -> same_counts q1 q2 -> same_counts q q2.
Proof. unfold same_counts. intros (?&?&?) (?&?&?). split_and!; congruence. Qed.

Lemma holds_get q l k x : holds q l -> l !! k = Some x -> get_slot (idx (q_capacity q) (q_head q) k) q = Ok x.
Proof. intros [_ _ _ _ (arr & E & _ & H)] Hk. unfold get_slot. rewrite E. cbn. by rewrite (H k x Hk). Qed.
(** A store to the slot of position [k], in the list or the next one behind it. *)
Lemma holds_store q l k p : holds q l -> (k <= length l)%nat -> Z.of_nat k <= q_capacity q ->
  exists q', set_slot (idx (q_capacity q) (q_head q) k) p q = Ok q' /\ same_counts q q' /\
    q_head q' = q_head q /\ q_tail q' = q_tail q /\ holds q' (<[k := p]> l) /\
    (exists arr, q_q q' = Some arr /\ length arr = Z.to_nat (q_capacity q + 1) /\
       arr !! Z.to_nat (idx (q_capacity q) (q_head q) k) = Some (Some p)).
Proof.
  intros [Hc Hh Hl Ht (arr & E & Ha & Hs)] Hk Hkc. pose proof (idx_range (q_capacity q) (q_head q) k ltac:(lia)) as Hi.
  unfold set_slot. rewrite E. cbn [opt_res mbind res_bind]. rewrite (proj2 (Nat.ltb_lt _ _)) by lia.
  eexists. split; [reflexivity|]. split; [done|]. split; [done|]. split; [done|]. cbn. split.
  2:{ eexists. split; [done|]. split; [by rewrite length_insert|]. apply list_lookup_insert_eq. lia. }
  split; cbn; rewrite ?length_insert; [lia..|done|]. eexists. split; [done|]. split; [by rewrite length_insert|].
  intros j x Hj. destruct (decide (j = k)) as [-> |Hne].
  - rewrite list_lookup_insert_eq in Hj by (apply lookup_lt_Some in Hj; by rewrite length_insert in Hj).
    injection Hj as ->. apply list_lookup_insert_eq. lia.
  - rewrite list_lookup_insert_ne in Hj by done. pose proof (lookup_lt_Some _ _ _ Hj).
    pose proof (idx_range (q_capacity q) (q_head q) j ltac:(lia)).
    rewrite list_lookup_insert_ne; [by apply Hs|]. intros Ei. apply Hne, (idx_inj (q_capacity q) (q_head q)); lia.
Qed.
Lemma holds_next_tail q l : holds q l -> next_i (q_capacity q) (q_tail q) = idx (q_capacity q) (q_head q) (S (length l)).
Proof. intros [Hc Hh Hl Ht _]. rewrite Ht. by apply next_idx. Qed.
(** The ring is full when the slot behind the tail is the head. *)
Lemma holds_full q l : holds q l ->
  (next_i (q_capacity q) (q_tail q) =? q_head q) = (q_capacity q <=? Z.of_nat (length l)).
Proof.
  intros H. pose proof H as [Hc Hh Hl _ _]. rewrite (holds_next_tail q l H).
  assert (E0 : q_head q = idx (q_capacity q) (q_head q) 0) by (symmetry; by apply idx_0).
  destruct (Z.leb_spec (q_capacity q) (Z.of_nat (length l))) as [Hf|Hf].
  - apply Z.eqb_eq. unfold idx. symmetry. apply (Z.mod_unique _ _ 1); lia.
  - apply Z.eqb_neq. intros E. rewrite E0 in E at 2. apply idx_inj in E; lia.
Qed.
Lemma holds_empty q l : holds q l -> (q_head q =? q_tail q) = (length l =? 0)%nat.
Proof.
  intros [Hc Hh Hl Ht _]. rewrite Ht. destruct (Nat.eqb_spec (length l) 0) as [E|E].
  - rewrite E, idx_0 by done. apply Z.eqb_refl.
  - apply Z.eqb_neq. intros Ei. rewrite <- (idx_0 (q_capacity q) (q_head q)) in Ei at 1 by done. apply idx_inj in Ei; lia.
Qed.
Lemma holds_at_head q l k : holds q l -> (k <= length l)%nat -> (idx (q_capacity q) (q_head q) k =? q_head q) = (k =? 0)%nat.
Proof.
  intros [Hc Hh Hl _ _] Hk. destruct (Nat.eqb_spec k 0) as [-> |E]; [rewrite idx_0 by done; apply Z.eqb_refl|].
  apply Z.eqb_neq. intros Ei. rewrite <- (idx_0 (q_capacity q) (q_head q)) in Ei at 2 by done. apply idx_inj in Ei; lia.
Qed.
Lemma holds_at_tail q l k : holds q l -> (k <= length l)%nat -> (idx (q_capacity q) (q_head q) k =? q_tail q) = (k =? length l)%nat.
Proof.
  intros [Hc Hh Hl Ht _] Hk. rewrite Ht. destruct (Nat.eqb_spec k (length l)) as [-> |E]; [apply Z.eqb_refl|].
  apply Z.eqb_neq. intros Ei. apply idx_inj in Ei; lia.
Qed.
Lemma holds_size q l : holds q l -> q_size q = Z.of_nat (length l).
Proof. intros [Hc Hh Hl Ht _]. unfold q_size. rewrite Ht. by apply storage_size_idx. Qed.
(** The first [w] packets leave. *)
Lemma holds_drop q l w : holds q l -> (w <= length l)%nat -> holds (set_head (idx (q_capacity q) (q_head q) w) q) (drop w l).
Proof.
  intros [Hc Hh Hl Ht (arr & E & Ha & Hs)] Hw. split; cbn; rewrite ?length_drop.
  - done.
  - apply idx_range. lia.
  - lia.
  - rewrite Ht, idx_idx by lia. f_equal. lia.
  - exists arr. split; [done|]. split; [done|]. intros k x Hk. rewrite lookup_drop in Hk. rewrite idx_idx by lia. by apply Hs.
Qed.
(** The last packet leaves. *)
Lemma holds_removelast q l : holds q l -> l <> [] ->
  holds (set_tail (prev_i (q_capacity q) (q_tail q)) q) (take (length l - 1) l).
Proof.
  intros [Hc Hh Hl Ht (arr & E & Ha & Hs)] Hne. destruct l as [|y l]; [done|]. clear Hne.
  split; cbn [set_tail q_capacity q_head q_tail q_q q_drops q_highwater]; rewrite ?length_take.
  - done.
  - done.
  - lia.
  - rewrite Ht. cbn [length]. rewrite prev_idx by done. f_equal. lia.
  - exists arr. split; [done|]. split; [done|]. intros k x Hk. apply lookup_take_Some in Hk as [Hk _]. by apply Hs.
Qed.
End Holds.

(** ** The operations on a list *)
Section Operations.
Context {A : Type}.
Implicit Types (q : Queue A) (l : list A).

Lemma holds_push q l p : holds q l -> Z.of_nat (length l) < q_capacity q ->
  exists q', set_slot (q_tail q) p q = Ok q' /\ same_counts q q' /\ q_head q' = q_head q /\
    holds (set_tail (next_i (q_capacity q) (q_tail q)) q') (l ++ [p]).
Proof.
  intros H Hl. pose proof (holds_next_tail q l H) as Hn. pose proof (hl_tail _ _ H) as Ht.
  destruct (holds_store q l (length l) p H ltac:(lia) ltac:(lia)) as (q' & E & Hq & Eh & Et & Hs' & (arr & Ea & Hla & Hp)).
  rewrite Ht. exists q'. split; [done|]. split; [done|]. split; [done|]. destruct Hq as (Ec & _ & _).
  destruct H as [Hc Hh Hlen _ _]. destruct Hs' as [_ _ _ _ (arr' & Ea' & _ & Hs')].
  rewrite Ea' in Ea. injection Ea as ->. rewrite list_insert_ge in Hs' by lia. rewrite <- Ht, Hn. rewrite Ec, Eh in Hs'.
  split; cbn; rewrite ?length_app; cbn [length]; rewrite ?Ec, ?Eh; [lia..| |].
  - f_equal. lia.
  - exists arr. split; [done|]. split; [done|]. intros k x Hk. destruct (decide (k = length l)) as [-> |Hne].
    + rewrite lookup_app_r, Nat.sub_diag in Hk by lia. by injection Hk as <-.
    + apply Hs'. apply lookup_app_Some in Hk as [Hk|[? Hk]]; [done|]. apply lookup_lt_Some in Hk. cbn in Hk. lia.
Qed.
Lemma holds_push_front q l p : holds q l -> Z.of_nat (length l) < q_capacity q ->
  exists q', set_slot (prev_i (q_capacity q) (q_head q)) p q = Ok q' /\ same_counts q q' /\
    holds (set_head (prev_i (q_capacity q) (q_head q)) q') (p :: l).
Proof.
  intros [Hc Hh Hlen Ht (arr & Ea & Hla & Hs)] Hl. pose proof (prev_i_range (q_capacity q) (q_head q) Hc Hh) as Hp.
  unfold set_slot. rewrite Ea. cbn [opt_res mbind res_bind]. rewrite (proj2 (Nat.ltb_lt _ _)) by lia.
  eexists. split; [reflexivity|]. split; [done|].
  split; cbn [set_head q_capacity q_head q_tail q_q q_drops q_highwater length]; [done|done|lia| |].
  - by rewrite idx_prev.
  - eexists. split; [done|]. split; [by rewrite length_insert|]. intros [|k] x Hk.
    + injection Hk as <-. rewrite idx_0 by done. apply list_lookup_insert_eq. lia.
    + cbn in Hk. rewrite idx_prev by done. pose proof (lookup_lt_Some _ _ _ Hk).
      pose proof (idx_range (q_capacity q) (q_head q) k ltac:(lia)).
      rewrite list_lookup_insert_ne; [by apply Hs|]. intros E. apply Z2Nat.inj in E; [|lia..].
      rewrite <- (idx_prev _ _ k) in E by done. rewrite <- (idx_0 (q_capacity q) (prev_i (q_capacity q) (q_head q))) in E at 1 by done.
      apply idx_inj in E; lia.
Qed.

Lemma deq_run q l : holds q l ->
  exists q', deq q = Ok (hd_error l, q', []) /\ same_counts q q' /\ holds q' (tl l).
Proof.
  intros H. unfold deq. rewrite hbind_get. rewrite (holds_empty q l H). destruct l as [|p l].
  - cbn. exists q. done.
  - cbn [length Nat.eqb negb]. pose proof (hl_capacity _ _ H) as Hcap. pose proof (hl_head _ _ H) as Hh.
    pose proof (holds_get q (p :: l) 0 p H eq_refl) as Hg. rewrite idx_0 in Hg by done.
    erewrite hbind_lift_ok by exact Hg. rewrite hbind_put. eexists. split; [reflexivity|]. split; [done|].
    pose proof (holds_drop q (p :: l) 1 H ltac:(cbn; lia)) as Hd. cbn [drop] in Hd.
    rewrite <- (idx_0 (q_capacity q) (q_head q)) at 1 by done. by rewrite next_idx.
Qed.
Lemma reset_loop_run noutputs fuel q l : holds q l -> (length l < fuel)%nat ->
  exists q', reset_loop fuel noutputs q = Ok (tt, q', map (qpush noutputs 1) l) /\ same_counts q q' /\ holds q' [].
Proof.
  revert q l. induction fuel as [|fuel IH]; intros q l H Hf; [lia|]. cbn [reset_loop]. unfold SimpleQueue_pull.
  destruct (deq_run q l H) as (q1 & E & Hq & H1). erewrite hbind_silent by exact E. destruct l as [|p l]; cbn [hd_error].
  - exists q1. done.
  - destruct (IH q1 l H1 ltac:(cbn in Hf; lia)) as (q2 & E2 & Hq2 & H2). exists q2. split.
    + cbn [map]. apply hbind_emit. exact E2.
    + split; [by eapply same_counts_trans|done].
Qed.

Lemma shift_loop_run fuel k q l : holds q l -> (k < length l)%nat -> (k < fuel)%nat ->
  exists q', shift_loop fuel (idx (q_capacity q) (q_head q) k) q = Ok q' /\ same_counts q q' /\ q_head q' = q_head q /\
    holds q' (take 1 l ++ take k l ++ drop (S k) l).
Proof.
  revert k q l. induction fuel as [|fuel IH]; intros k q l H Hk Hf; [lia|]. cbn [shift_loop].
  rewrite (holds_at_head q l k H) by lia. destruct k as [|k].
  - cbn [Nat.eqb]. exists q. split; [done|]. split; [done|]. split; [done|]. destruct l as [|x l]; done.
  - cbn [Nat.eqb]. pose proof (hl_capacity _ _ H) as Hcap. pose proof (hl_length _ _ H) as Hlen. rewrite prev_idx by done.
    destruct (lookup_lt_is_Some_2 l k) as [p Hp]; [lia|]. rewrite (holds_get q l k p H Hp). cbn [mbind res_bind].
    destruct (holds_store q l (S k) p H ltac:(lia) ltac:(lia)) as (q1 & E & Hq & Eh & _ & H1 & _). rewrite E. cbn [mbind res_bind].
    destruct (IH k q1 (<[S k := p]> l) H1) as (q2 & E2 & Hq2 & Eh2 & H2); [rewrite length_insert; lia|lia|].
    destruct Hq as (Ec & Ed & Ew). rewrite Ec, Eh in E2. exists q2. split; [done|]. split; [by eapply same_counts_trans|].
    split; [congruence|]. replace (take 1 l ++ take (S k) l ++ drop (S (S k)) l)
      with (take 1 (<[S k := p]> l) ++ take k (<[S k := p]> l) ++ drop (S k) (<[S k := p]> l)); [done|].
    rewrite (take_S_r l k p Hp). rewrite !take_insert_ge by lia. rewrite (drop_S (<[S k := p]> l) p (S k)).
    + rewrite drop_insert_lt by lia. by rewrite <- app_assoc.
    + apply list_lookup_insert_eq. lia.
Qed.
Lemma yank1_loop_run f fuel k q l : holds q l -> (k <= length l)%nat -> (length l - k < fuel)%nat ->
  yank1_loop fuel f (idx (q_capacity q) (q_head q) k) q =
    Ok ((fun '(i, x) => (idx (q_capacity q) (q_head q) (k + i), x)) <$> list_find (fun x => f x = true) (drop k l)).
Proof.
  revert k. induction fuel as [|fuel IH]; intros k H Hk Hf; [lia|]. cbn [yank1_loop].
  rewrite (holds_at_tail q l k H) by lia. destruct (Nat.eqb_spec k (length l)) as [-> |Hne]; [by rewrite drop_all|].
  destruct (lookup_lt_is_Some_2 l k) as [p Hp]; [lia|]. rewrite (holds_get q l k p H Hp). cbn [mbind res_bind].
  rewrite (drop_S l p k Hp). cbn [list_find]. destruct (f p) eqn:Ef.
  - rewrite decide_True by done. cbn. by rewrite Nat.add_0_r.
  - rewrite decide_False by done. rewrite next_idx by apply H. rewrite IH by (done || lia). f_equal.
    destruct (list_find _ (drop (S k) l)) as [[i x]|]; [|done]. cbn. do 3 f_equal. lia.
Qed.
Lemma yank_loop_run f fuel k w q l y : holds q l -> (k <= w <= length l)%nat -> (k < fuel)%nat ->
  exists q', yank_loop fuel f (idx (q_capacity q) (q_head q) k) (idx (q_capacity q) (q_head q) w) y q =
      Ok (y ++ List.filter f (rev (take k l)), q') /\ same_counts q q' /\
    holds q' (List.filter (fun x => negb (f x)) (take k l) ++ drop w l).
Proof.
  revert k w q l y. induction fuel as [|fuel IH]; intros k w q l y H Hk Hf; [lia|]. cbn [yank_loop].
  rewrite (holds_at_head q l k H) by lia. destruct k as [|k].
  - cbn [Nat.eqb]. rewrite take_0. cbn. eexists. split; [by rewrite app_nil_r|]. split; [done|]. apply holds_drop; [done|lia].
  - cbn [Nat.eqb]. pose proof (hl_capacity _ _ H) as Hcap. pose proof (hl_length _ _ H) as Hlen. rewrite prev_idx by done.
    destruct (lookup_lt_is_Some_2 l k) as [p Hp]; [lia|]. rewrite (holds_get q l k p H Hp). cbn [mbind res_bind].
    rewrite (take_S_r l k p Hp), rev_app_distr, !List.filter_app. cbn [rev app List.filter]. destruct (f p) eqn:Ef; cbn [negb].
    + destruct (IH k w q l (y ++ [p]) H) as (q' & E & Hq & H'); [lia..|]. exists q'. rewrite E. split; [by rewrite <- app_assoc|].
      split; [done|]. by rewrite app_nil_r.
    + destruct w as [|w]; [lia|]. rewrite prev_idx by done.
      destruct (holds_store q l w p H ltac:(lia) ltac:(lia)) as (q1 & E & Hq & Eh & _ & H1 & _). rewrite E. cbn [mbind res_bind].
      destruct (IH k w q1 (<[w := p]> l) y H1) as (q2 & E2 & Hq2 & H2); [rewrite length_insert; lia|lia|].
      destruct Hq as (Ec & Ed & Ew). rewrite Ec, Eh in E2. exists q2. split.
      * rewrite E2. by rewrite take_insert_ge by lia.
      * split; [by eapply same_counts_trans|]. rewrite take_insert_ge in H2 by lia.
        rewrite (drop_S (<[w := p]> l) p w), drop_insert_lt in H2 by (lia || (apply list_lookup_insert_eq; lia)).
        by rewrite <- app_assoc.
Qed.
Lemma collect_loop_run fuel k q l : holds q l -> (k <= length l)%nat -> (length l - k < fuel)%nat ->
  collect_loop fuel (idx (q_capacity q) (q_head q) k) q = Ok (drop k l).
Proof.
  revert k. induction fuel as [|fuel IH]; intros k H Hk Hf; [lia|]. cbn [collect_loop].
  rewrite (holds_at_tail q l k H) by lia. destruct (Nat.eqb_spec k (length l)) as [-> |Hne]; [by rewrite drop_all|].
  destruct (lookup_lt_is_Some_2 l k) as [p Hp]; [lia|]. rewrite (holds_get q l k p H Hp). cbn [mbind res_bind].
  rewrite next_idx by apply H. rewrite IH by (done || lia). cbn. by rewrite (drop_S l p k Hp).
Qed.
Lemma copy_loop_run fuel k n q l : holds q l -> (k <= length l)%nat -> (length l - k < fuel)%nat ->
  copy_loop fuel (idx (q_capacity q) (q_head q) k) n q =
    Ok (take n (drop k l), idx (q_capacity q) (q_head q) (k + Nat.min n (length l - k))).
Proof.
  revert k n. induction fuel as [|fuel IH]; intros k n H Hk Hf; [lia|]. cbn [copy_loop].
  rewrite (holds_at_tail q l k H) by lia. destruct (Nat.eqb_spec k (length l)) as [-> |Hne].
  { rewrite drop_all, take_nil. cbn [orb]. do 3 f_equal. lia. }
  destruct n as [|n]; cbn [orb Nat.eqb]; [do 3 f_equal; lia|].
  destruct (lookup_lt_is_Some_2 l k) as [p Hp]; [lia|]. rewrite (holds_get q l k p H Hp). cbn [mbind res_bind].
  rewrite next_idx by apply H. cbn [Nat.sub]. rewrite Nat.sub_0_r, IH by (done || lia). cbn [mbind res_bind].
  rewrite (drop_S l p k Hp). do 3 f_equal. lia.
Qed.
End Operations.
