(* ===== verification/QueueSpec.v ===== *)
(** * A queue is a bounded list

    The operations of [SimpleQueue] against a list of packets with a capacity and two
    counters; taking over another queue's packets; capacities the code does not survive. *)
From Stdlib Require Import ZArith Lia.
From stdpp Require Import base list numbers option.
From S2P Require Import Prelude SimpleQueue.
#[local] Open Scope Z_scope.

(** ** What a queue is *)
Section Fifo.
Context {A : Type} (noutputs : nat).

(** The packets, the capacity, and the two counters. *)
Record fifo : Type := Fifo { f_list : list A; f_capacity : Z; f_drops : Z; f_highwater : Z }.
Inductive qop : Type :=
| OEnq (p : A) | OLifo (p : A) | ODeq | OPush (p : A) | OPull | OReset | OResetCounts
| OYank1 (f : A -> bool) | OYank1Peek (f : A -> bool) | OYank (f : A -> bool)
| OReconfigure (mem : bool) (capacity : option Z) | ORead (which : Z).
Inductive answer : Type :=
| ANone | ABool (b : bool) | APacket (p : option A) | APackets (l : list A) | ANumber (n : option Z).

Definition hres {S R} (f : S -> res (R * S)) : handler S (qevent A) R :=
  fun s => match f s with Ok (r, s) => Ok (r, s, []) | Fault e => Fault e end.
Definition run_op (op : qop) : handler (Queue A) (qevent A) answer :=
  match op with
  | OEnq p => b <-- enq p ;; hret (ABool b)
  | OLifo p => lifo_enq p ;;; hret ANone
  | ODeq => p <-- deq ;; hret (APacket p)
  | OPush p => SimpleQueue_push noutputs p ;;; hret ANone
  | OPull => p <-- SimpleQueue_pull ;; hret (APacket p)
  | OReset => reset noutputs ;;; hret ANone
  | OResetCounts => hmodify reset_counts ;;; hret ANone
  | OYank1 f => p <-- hres (yank1 f) ;; hret (APacket p)
  | OYank1Peek f => q <-- hget ;; p <-? yank1_peek f q ;; hret (APacket p)
  | OYank f => l <-- hres (yank f) ;; hret (APackets l)
  | OReconfigure mem n => b <-- live_reconfigure mem n ;; hret (ABool b)
  | ORead which => q <-- hget ;; hret (ANumber (read_handler which q))
  end.

Definition with_list (l : list A) (s : fifo) : fifo := Fifo l (f_capacity s) (f_drops s) (f_highwater s).
Definition count_drop (s : fifo) : fifo := Fifo (f_list s) (f_capacity s) (s32 (f_drops s + 1)) (f_highwater s).
Definition append (p : A) (s : fifo) : fifo :=
  Fifo (f_list s ++ [p]) (f_capacity s) (f_drops s) (Z.max (f_highwater s) (Z.of_nat (length (f_list s)) + 1)).
Definition first_such (f : A -> bool) (l : list A) : option (nat * A) := list_find (fun x => f x = true) l.
Definition full (s : fifo) : bool := f_capacity s <=? Z.of_nat (length (f_list s)).
(** What each operation does: its answer, the new state, and what becomes of packets. *)
Definition spec_op (op : qop) (s : fifo) : answer * fifo * list (qevent A) :=
  let l := f_list s in
  match op with
  | OEnq p => if full s then (ABool false, count_drop s, [QKill p]) else (ABool true, append p s, [])
  | OLifo p =>
      if full s then (ANone, with_list (p :: take (length l - 1) l) s, map QKill (drop (length l - 1) l))
      else (ANone, with_list (p :: l) s, [])
  | ODeq | OPull => (APacket (hd_error l), with_list (tl l) s, [])
  | OPush p => if full s then (ANone, count_drop s, [qpush noutputs 1 p]) else (ANone, append p s, [])
  | OReset => (ANone, with_list [] s, map (qpush noutputs 1) l)
  | OResetCounts => (ANone, Fifo l (f_capacity s) 0 (Z.of_nat (length l)), [])
  | OYank1 f =>
      match first_such f l with
      | Some (k, p) => (APacket (Some p), with_list (take k l ++ drop (S k) l) s, [])
      | None => (APacket None, s, [])
      end
  | OYank1Peek f => (APacket (match first_such f l with Some (_, p) => Some p | None => None end), s, [])
  | OYank f => (APackets (List.filter f (rev l)), with_list (List.filter (fun x => negb (f x)) l) s, [])
  | OReconfigure mem None => (ABool false, s, [])
  | OReconfigure mem (Some n) =>
      if n =? f_capacity s then (ABool true, s, [])
      else if mem then
        (ABool true, Fifo (take (Z.to_nat n) l) n (f_drops s) (f_highwater s), map QKill (drop (Z.to_nat n) l))
      else (ABool false, s, [])
  | ORead which =>
      (ANumber (if which =? 0 then Some (Z.of_nat (length l)) else if which =? 1 then Some (f_highwater s)
                else if which =? 2 then Some (f_capacity s) else if which =? 3 then Some (f_drops s) else None), s, [])
  end.
(** Capacities are positive [int]s. *)
Definition op_ok (op : qop) : Prop :=
  match op with OReconfigure _ (Some n) => 0 < n < 2147483648 | _ => True end.
Definition models (q : Queue A) (s : fifo) : Prop :=
  holds q (f_list s) /\ 0 < q_capacity q /\
  f_capacity s = q_capacity q /\ f_drops s = q_drops q /\ f_highwater s = q_highwater q.

Lemma models_full q s : models q s -> (next_i (q_capacity q) (q_tail q) =? q_head q) = full s.
Proof. intros (H & _ & Hc & _). unfold full. rewrite Hc. by apply holds_full. Qed.
Lemma models_list q q' s l : models q s -> same_counts q q' -> holds q' l -> models q' (with_list l s).
Proof.
  intros (_ & Hp & Hc & Hd & Hw) (Ec & Ed & Ew) H'. split; [done|]. cbn. split; [by rewrite Ec|]. split_and!; congruence.
Qed.
Lemma models_drop q s : models q s -> models (drop_one q) (count_drop s).
Proof.
  intros ([Hc Hh Hl Ht Hs] & Hp & Ec & Ed & Ew). split; [by split|]. split; [done|]. cbn. split_and!; congruence.
Qed.
(** The tail end of [enq] and [push] when there is room. *)
Lemma models_append q s p : models q s -> full s = false ->
  exists q', set_slot (q_tail q) p q = Ok q' /\
    models (note_highwater (storage_size (q_capacity q') (q_head q) (next_i (q_capacity q) (q_tail q)))
              (set_tail (next_i (q_capacity q) (q_tail q)) q')) (append p s).
Proof.
  intros (H & Hp & Ec & Ed & Ew) Hf. unfold full in Hf. rewrite Ec in Hf. apply Z.leb_gt in Hf.
  destruct (holds_push q (f_list s) p H Hf) as (q' & E & (Ec' & Ed' & Ew') & Eh & H'). exists q'. split; [done|].
  rewrite Ec', (holds_next_tail q (f_list s) H), storage_size_idx by (apply H || lia).
  rewrite (holds_next_tail q (f_list s) H) in H'. unfold models, note_highwater, append. cbn [set_tail q_highwater f_list f_capacity f_drops f_highwater].
  rewrite Ew'. destruct (Z.ltb_spec (q_highwater q) (Z.of_nat (S (length (f_list s))))).
  - destruct H' as [? ? ? ? ?]. split; [by split|]. cbn. rewrite Ec'. split_and!; [lia|congruence|congruence|lia].
  - split; [done|]. cbn. rewrite Ec'. split_and!; [lia|congruence|congruence|lia].
Qed.

Lemma enq_run q s p : models q s ->
  exists q', enq p q = (if full s then Ok (false, q', [QKill p]) else Ok (true, q', [])) /\
    models q' (if full s then count_drop s else append p s).
Proof.
  intros H. unfold enq. rewrite hbind_get, (models_full q s H). destruct (full s) eqn:Hf; cbn [negb].
  - eexists. split; [reflexivity|]. by apply models_drop.
  - destruct (models_append q s p H Hf) as (q' & E & H'). erewrite hbind_lift_ok by exact E. rewrite hbind_put.
    eexists. split; [reflexivity|done].
Qed.
Lemma push_run q s p : models q s ->
  exists q', SimpleQueue_push noutputs p q = Ok (tt, q', if full s then [qpush noutputs 1 p] else []) /\
    models q' (if full s then count_drop s else append p s).
Proof.
  intros H. unfold SimpleQueue_push. rewrite hbind_get, (models_full q s H). destruct (full s) eqn:Hf; cbn [negb].
  - eexists. split; [reflexivity|]. by apply models_drop.
  - destruct (models_append q s p H Hf) as (q' & E & H'). erewrite hbind_lift_ok by exact E.
    eexists. split; [reflexivity|done].
Qed.
(** The slot before the head is the tail when the ring is full. *)
Lemma holds_full_prev (q : Queue A) (l : list A) : holds q l -> 0 < q_capacity q ->
  (prev_i (q_capacity q) (q_head q) =? q_tail q) = (q_capacity q <=? Z.of_nat (length l)).
Proof.
  intros [Hc Hh Hl Ht _] Hp. rewrite Ht. set (h' := prev_i (q_capacity q) (q_head q)).
  assert (Hh' : 0 <= h' <= q_capacity q) by (by apply prev_i_range).
  rewrite <- (idx_prev (q_capacity q) (q_head q) (length l)) by done. fold h'.
  rewrite <- (idx_0 (q_capacity q) h') at 1 by done. destruct (Z.leb_spec (q_capacity q) (Z.of_nat (length l))) as [Hf|Hf].
  - apply Z.eqb_eq. unfold idx. rewrite Z.add_0_r. replace (h' + Z.of_nat (S (length l))) with (h' + 1 * (q_capacity q + 1)) by lia.
    by rewrite Z_mod_plus_full.
  - apply Z.eqb_neq. intros E. apply idx_inj in E; lia.
Qed.
Lemma lifo_run q s p : models q s ->
  exists q', lifo_enq p q = Ok (tt, q', (spec_op (OLifo p) s).2) /\ models q' (spec_op (OLifo p) s).1.2.
Proof.
  intros Hm. pose proof Hm as (H & Hp & Ec & Ed & Ew). unfold lifo_enq. rewrite hbind_get, (holds_full_prev q _ H Hp).
  unfold spec_op, full. rewrite Ec. destruct (Z.leb_spec (q_capacity q) (Z.of_nat (length (f_list s)))) as [Hf|Hf].
  - set (l := f_list s) in *. pose proof (hl_length _ _ H) as Hl. pose proof (hl_capacity _ _ H) as Hcap.
    assert (Hne : l <> []) by (intros E; rewrite E in Hf; cbn in Hf; lia).
    destruct (lookup_lt_is_Some_2 l (length l - 1)) as [old Hold]; [lia|].
    assert (Hprev : prev_i (q_capacity q) (q_tail q) = idx (q_capacity q) (q_head q) (length l - 1)).
    { rewrite (hl_tail _ _ H). replace (length l) with (S (length l - 1)) at 1 by lia. by apply prev_idx. }
    rewrite hbind_assoc, (hbind_lift_ok _ old) by (rewrite Hprev; by eapply holds_get).
    pose proof (holds_removelast q l H Hne) as H1. set (q1 := set_tail (prev_i (q_capacity q) (q_tail q)) q) in *.
    destruct (holds_push_front q1 _ p H1) as (q2 & E2 & Hq & H2); [rewrite length_take; cbn [q1 set_tail q_capacity]; lia|].
    eexists. split.
    + rewrite hbind_assoc. rewrite (drop_S l old _ Hold). replace (S (length l - 1)) with (length l) by lia. rewrite drop_all. cbn [map].
      apply hbind_emit. rewrite hbind_modify. fold q1. rewrite hbind_get. erewrite hbind_lift_ok by exact E2. reflexivity.
    + cbn. eapply models_list; [exact Hm| |exact H2]. exact Hq.
  - rewrite hbind_ret_l, hbind_get. destruct (holds_push_front q _ p H Hf) as (q2 & E2 & Hq & H2).
    erewrite hbind_lift_ok by exact E2. eexists. split; [reflexivity|]. cbn. eapply models_list; [exact Hm| |exact H2]. exact Hq.
Qed.
Lemma first_such_run f (q : Queue A) l : holds q l ->
  yank1_loop (ring_fuel q) f (q_head q) q =
    Ok ((fun '(i, x) => (idx (q_capacity q) (q_head q) i, x)) <$> first_such f l).
Proof.
  intros H. pose proof (hl_capacity _ _ H) as Hcap. pose proof (hl_length _ _ H) as Hl.
  pose proof (yank1_loop_run f (ring_fuel q) 0 q l H ltac:(lia) ltac:(unfold ring_fuel; lia)) as E.
  by rewrite idx_0, drop_0 in E by apply H.
Qed.
Lemma yank1_run f q s : models q s ->
  exists q', yank1 f q = Ok (match first_such f (f_list s) with Some (_, p) => Some p | None => None end, q') /\
    models q' (spec_op (OYank1 f) s).1.2.
Proof.
  intros Hm. pose proof Hm as (H & _). pose proof (hl_capacity _ _ H) as Hcap. pose proof (hl_length _ _ H) as Hl. unfold yank1.
  rewrite (first_such_run f q (f_list s) H). cbn [mbind res_bind spec_op].
  unfold first_such.
  destruct (list_find _ (f_list s)) as [[k p]|] eqn:E; cbn [fmap option_fmap option_map]; [|by exists q].
  apply list_find_Some in E as (Hk & _). apply lookup_lt_Some in Hk. cbn [Nat.add].
  destruct (shift_loop_run (ring_fuel q) k q (f_list s) H Hk) as (q' & E' & Hq & Eh & H'); [unfold ring_fuel; lia|].
  rewrite E'. cbn [mbind res_bind]. eexists. split; [reflexivity|]. cbn.
  destruct (f_list s) as [|x l] eqn:El; [cbn in Hk; lia|]. pose proof Hq as (Eq & _ & _).
  pose proof (holds_drop q' _ 1 H' ltac:(cbn; lia)) as Hd. rewrite <- next_idx in Hd by (by rewrite Eq). rewrite idx_0 in Hd by apply H'.
  eapply models_list; [exact Hm|exact Hq|]. exact Hd.
Qed.
Lemma yank_run f q s : models q s ->
  exists q', yank f q = Ok (List.filter f (rev (f_list s)), q') /\ models q' (spec_op (OYank f) s).1.2.
Proof.
  intros Hm. pose proof Hm as (H & _). pose proof (hl_capacity _ _ H) as Hcap. pose proof (hl_length _ _ H) as Hl. unfold yank. rewrite (hl_tail _ _ H).
  destruct (yank_loop_run f (ring_fuel q) (length (f_list s)) (length (f_list s)) q (f_list s) [] H) as (q' & E & Hq & H');
    [lia|unfold ring_fuel; lia|].
  rewrite E, firstn_all. exists q'. split; [done|]. rewrite firstn_all, drop_all, app_nil_r in H'. by eapply models_list.
Qed.
Lemma length_ring_memory n : 0 <= n < 2147483648 -> length (ring_memory (A := A) n) = Z.to_nat (n + 1).
Proof. intros. unfold ring_memory. by rewrite length_replicate, u32_small by lia. Qed.
(** A fresh ring with packets in front. *)
Lemma holds_fresh n drops high (l : list A) : 0 <= n < 2147483648 -> Z.of_nat (length l) <= n ->
  holds (MkQueue n 0 (Z.of_nat (length l)) (Some (map Some l ++ drop (length l) (ring_memory n))) drops high) l.
Proof.
  intros Hn Hl. split; cbn; [done|lia|done| |].
  - unfold idx. symmetry. apply Z.mod_small. lia.
  - eexists. split; [done|]. split; [rewrite length_app, length_map, length_drop, length_ring_memory by done; lia|].
    intros k x Hk. pose proof (lookup_lt_Some _ _ _ Hk). unfold idx. rewrite Z.mod_small by lia.
    replace (Z.to_nat (0 + Z.of_nat k)) with k by lia. rewrite lookup_app_l by (rewrite length_map; lia).
    rewrite list_lookup_fmap. by rewrite Hk.
Qed.
Lemma reconfigure_run mem n q s : models q s -> op_ok (OReconfigure mem n) ->
  exists q' b, live_reconfigure mem n q = Ok (b, q', (spec_op (OReconfigure mem n) s).2) /\
    (spec_op (OReconfigure mem n) s).1.1 = ABool b /\ models q' (spec_op (OReconfigure mem n) s).1.2.
Proof.
  intros Hm Hn. pose proof Hm as (H & Hp & Ec & Ed & Ew). unfold live_reconfigure. rewrite hbind_get.
  destruct n as [n|]; [|exists q, false; done]. cbn [spec_op]. rewrite Ec. destruct (n =? q_capacity q); [exists q, true; done|].
  pose proof H as [Hc Hh Hl _ (arr & -> & _)]. destruct mem; cbn [negb]; [|exists q, false; done].
  set (l := f_list s) in *. rewrite (hbind_lift_ok _ (take (Z.to_nat n) l, idx (q_capacity q) (q_head q) (Nat.min (Z.to_nat n) (length l)))).
  2:{ pose proof (copy_loop_run (ring_fuel q) 0 (Z.to_nat n) q l H ltac:(lia) ltac:(unfold ring_fuel; lia)) as E.
      by rewrite idx_0, drop_0, Nat.sub_0_r in E by done. }
  cbn beta iota. rewrite (hbind_lift_ok _ (drop (Z.to_nat n) l)).
  2:{ rewrite (collect_loop_run _ _ q l H) by (unfold ring_fuel; lia). f_equal.
      destruct (Nat.min_spec (Z.to_nat n) (length l)) as [[? ->]|[? ->]]; [done|]. rewrite drop_all, drop_ge by lia. done. }
  cbn in Hn. rewrite length_ring_memory by lia. rewrite (proj2 (Nat.ltb_ge _ _)) by (rewrite length_take; lia).
  eexists _, true. split; [|split; [done|]].
  - unfold hbind. cbn. by rewrite app_nil_r.
  - cbn. split; [|split_and!; cbn; [lia|done|congruence|congruence]]. apply (holds_fresh n _ _ (take (Z.to_nat n) l)); [lia|]. rewrite length_take. lia.
Qed.

Lemma run_op_spec op q s : models q s -> op_ok op ->
  exists q', run_op op q = Ok ((spec_op op s).1.1, q', (spec_op op s).2) /\ models q' (spec_op op s).1.2.
Proof.
  intros Hm Hok. pose proof Hm as (H & Hp & Ec & Ed & Ew).
  assert (Hdeq : exists q', deq q = Ok (hd_error (f_list s), q', []) /\ models q' (with_list (tl (f_list s)) s)).
  { destruct (deq_run q _ H) as (q' & E & Hq & H'). exists q'. split; [done|]. by eapply models_list. }
  destruct op as [p|p| |p| | | |f|f|f|mem n|which]; cbn [run_op].
  - destruct (enq_run q s p Hm) as (q' & E & H'). exists q'. cbn [spec_op]. unfold hbind. rewrite E. by destruct (full s).
  - destruct (lifo_run q s p Hm) as (q' & E & H'). exists q'. unfold hbind. rewrite E. cbn [hret]. rewrite app_nil_r. split; [|done].
    cbn [spec_op]. by destruct (full s).
  - destruct Hdeq as (q' & E & H'). exists q'. unfold hbind. rewrite E. done.
  - destruct (push_run q s p Hm) as (q' & E & H'). exists q'. unfold hbind. rewrite E. cbn [spec_op]. by destruct (full s).
  - destruct Hdeq as (q' & E & H'). exists q'. unfold SimpleQueue_pull, hbind. rewrite E. done.
  - unfold reset. rewrite hbind_assoc, hbind_get. destruct (reset_loop_run noutputs (ring_fuel q) q _ H) as (q' & E & Hq & H').
    { unfold ring_fuel. pose proof (hl_length _ _ H). lia. }
    exists q'. unfold hbind. rewrite E. cbn. rewrite app_nil_r. split; [done|]. by eapply models_list.
  - eexists. split; [reflexivity|]. cbn. unfold reset_counts. rewrite (holds_size q _ H). split; [|done]. destruct H. by split.
  - destruct (yank1_run f q s Hm) as (q' & E & H'). exists q'. unfold hbind, hres. rewrite E. split; [|done]. cbn [spec_op].
    by destruct (first_such f (f_list s)) as [[k p]|].
  - exists q. rewrite hbind_get. unfold yank1_peek. rewrite (first_such_run f q (f_list s) H). cbn [mbind res_bind spec_op]. unfold first_such.
    split; [|done]. by destruct (list_find _ (f_list s)) as [[k p]|].
  - destruct (yank_run f q s Hm) as (q' & E & H'). exists q'. unfold hbind, hres. rewrite E. done.
  - destruct (reconfigure_run mem n q s Hm Hok) as (q' & b & E & Ea & H'). exists q'. unfold hbind. rewrite E. cbn [hret].
    by rewrite app_nil_r, Ea.
  - exists q. split; [|done]. rewrite hbind_get. cbn [spec_op]. unfold read_handler, hret. rewrite (holds_size q _ H).
    assert (Es : s32 (q_capacity q) = q_capacity q).
    { pose proof (hl_capacity _ _ H). unfold s32. rewrite Z.mod_small; lia. }
    by rewrite Ec, Ed, Ew, Es.
Qed.

(** Sequences of operations. *)
Fixpoint run_ops (ops : list qop) (q : Queue A) : res (list answer * list (qevent A) * Queue A) :=
  match ops with
  | [] => Ok ([], [], q)
  | op :: ops =>
      '(a, q, t) ← run_op op q;
      '(l, t', q) ← run_ops ops q;
      Ok (a :: l, t ++ t', q)
  end.
Fixpoint spec_ops (ops : list qop) (s : fifo) : list answer * list (qevent A) * fifo :=
  match ops with
  | [] => ([], [], s)
  | op :: ops =>
      let '(a, s, t) := spec_op op s in
      let '(l, t', s) := spec_ops ops s in
      (a :: l, t ++ t', s)
  end.
Lemma run_ops_spec ops q s : models q s -> Forall op_ok ops ->
  exists q', run_ops ops q = Ok ((spec_ops ops s).1, q') /\ models q' (spec_ops ops s).2.
Proof.
  revert q s. induction ops as [|op ops IH]; intros q s Hm Hok; [by exists q|].
  apply list.Forall_cons in Hok as [Hop Hok]. destruct (run_op_spec op q s Hm Hop) as (q1 & E1 & H1).
  cbn [run_ops spec_ops]. rewrite E1. cbn [mbind res_bind]. destruct (spec_op op s) as [[a s1] t].
  destruct (IH q1 s1 H1 Hok) as (q2 & E2 & H2). cbn [fst snd] in *. exists q2. rewrite E2. cbn [mbind res_bind].
  by destruct (spec_ops ops s1) as [[l t'] s2].
Qed.
(** [take_state] moves as many packets as there is room for and kills the others. *)
Theorem take_state_moves (other q : Queue A) lo s :
  holds other lo -> models q s -> f_list s = [] -> q_head q = 0 ->
  let l := take (Z.to_nat (q_capacity q)) lo in
  exists q' other', take_state other q = Ok (Some (q', other', drop (Z.to_nat (q_capacity q)) lo)) /\
    models q' (Fifo l (f_capacity s) (f_drops s) (Z.of_nat (length l))) /\ holds other' [].
Proof.
  intros Ho (H & Hp & Ec & Ed & Ew) El Eh. cbv zeta. unfold take_state. set (n := Z.to_nat (q_capacity q)).
  pose proof H as [Hc Hh Hl Ht (ring & Er & Hr & _)]. rewrite El in Ht. cbn [length] in Ht. rewrite idx_0 in Ht by done.
  rewrite Ht, Eh. cbn [Z.eqb negb orb]. pose proof (hl_capacity _ _ Ho) as Hco. pose proof (hl_length _ _ Ho) as Hlo.
  pose proof (copy_loop_run (ring_fuel other) 0 n other lo Ho ltac:(lia) ltac:(unfold ring_fuel; lia)) as E.
  rewrite idx_0, drop_0 in E by apply Ho. rewrite E, Er. cbn [mbind res_bind]. clear E.
  rewrite (proj2 (Nat.ltb_ge _ _)) by (rewrite length_take; lia). cbn [Nat.add]. rewrite Nat.sub_0_r.
  rewrite (collect_loop_run _ (Nat.min n (length lo)) other lo Ho) by (unfold ring_fuel; lia). cbn [mbind res_bind].
  replace (drop (Nat.min n (length lo)) lo) with (drop n lo).
  2:{ destruct (Nat.min_spec n (length lo)) as [[? ->]|[? ->]]; [done|]. by rewrite drop_all, drop_ge by lia. }
  assert (Hq : holds (MkQueue (q_capacity q) 0 (Z.of_nat (length (take n lo))) (Some (map Some (take n lo) ++ drop (length (take n lo)) ring))
                       (q_drops q) (q_highwater q)) (take n lo)).
  { assert (Hn : (length (take n lo) <= n)%nat) by (rewrite length_take; lia). unfold n in Hn at 2.
    split; cbn [q_capacity q_head q_tail q_q]; [done|lia|lia| |].
    - unfold idx. symmetry. apply Z.mod_small. lia.
    - eexists. split; [done|]. split; [rewrite length_app, length_map, length_drop; lia|].
      intros k x Hk. pose proof (lookup_lt_Some _ _ _ Hk). unfold idx. rewrite Z.mod_small by lia.
      replace (Z.to_nat (0 + Z.of_nat k)) with k by lia. rewrite lookup_app_l by (rewrite length_map; lia).
      rewrite list_lookup_fmap. by rewrite Hk. }
  eexists _, _. split; [reflexivity|]. split.
  - rewrite (holds_size _ _ Hq). split; [destruct Hq; by split|]. cbn. by split_and!.
  - destruct Ho as [Hoc Hoh _ _ (arr & Ea & Hla & _)]. split; cbn; [done|lia|lia|by rewrite idx_0 by lia|].
    exists arr. split; [done|]. split; [done|]. by intros [] ?.
Qed.
(** [cleanup] kills what is in the queue. *)
Lemma cleanup_kills (q : Queue A) l : holds q l -> exists q', cleanup q = Ok (q', l) /\ q_q q' = None.
Proof.
  intros H. unfold cleanup. pose proof (hl_capacity _ _ H). pose proof (hl_length _ _ H).
  pose proof (collect_loop_run (ring_fuel q) 0 q l H ltac:(lia) ltac:(unfold ring_fuel; lia)) as E.
  rewrite idx_0, drop_0 in E by apply H. rewrite E. cbn [mbind res_bind]. by eexists.
Qed.
End Fifo.

Example SimpleQueue_answers :
  (spec_ops 1 [OPush 1; OPush 2; OLifo 3; OPush 4; OPull; ORead 3%Z]%nat (Fifo [] 2 0 0)).1 =
    ([ANone; ANone; ANone; ANone; APacket (Some 3%nat); ANumber (Some 1)], [QKill 2%nat; QKill 4%nat]).
Proof. reflexivity. Qed.
(** [Queue(0)]: [lifo_enq] kills a packet although there is none. *)
Example lifo_enq_empty_ring :
  (q ← initialize true (SimpleQueue_new (A := nat) 0); q ← opt_res NullDeref q; lifo_enq 1%nat q) = Fault Uninitialised.
Proof. reflexivity. Qed.
(** [Queue(4294967295)]: the number of slots wraps to zero, and the first packet is stored behind
    the memory. *)
Example push_no_slots :
  (q ← initialize true (SimpleQueue_new (A := nat) 4294967295); q ← opt_res NullDeref q; SimpleQueue_push 1 1%nat q) = Fault OutOfBounds.
Proof. reflexivity. Qed.
(** A queue of 3000000000 slots that holds 2500000000 packets says that it holds 1205032705. *)
Example size_of_large_queue : storage_size 3000000000 0 2500000000 = 1205032705.
Proof. reflexivity. Qed.
