(* ===== verification/Notifier.v ===== *)
(** * Activity signals ([include/click/notifier.hh], [lib/notifier.cc])

    A signal is a set of bits of words in memory and is active if one of them is set; the
    signals that are always or never active are bits of the word [static_value].  A word is
    known by its address.  Signals are combined with [operator+=]; the library shows what the
    comments of the header say of it, and where it is not so. *)
From Stdlib Require Import ZArith Lia Sorting.Sorted.
From stdpp Require Import base list numbers option.
From S2P Require Import Prelude.
#[local] Open Scope Z_scope.

Section Signals.
(** The address of [static_value], and whether [new] gives memory. *)
Context (static_value : Z) (mem : bool).

Definition true_mask : Z := 1.
Definition false_mask : Z := 2.
Definition overderived_mask : Z := 4.
Definition uninitialized_mask : Z := 8.

(** [_mask] and [_v]: a mask that is not zero and the word's address, or, if [_mask] is zero, an
    array of both. *)
Record vmpair : Type := Vm { vm_value : Z; vm_mask : Z }.
Inductive NotifierSignal : Type := Basic (v1 mask : Z) | Derived (vm : list vmpair).
#[export] Instance vmpair_eq_dec : EqDecision vmpair.
Proof. solve_decision. Defined.
#[export] Instance signal_eq_dec : EqDecision NotifierSignal.
Proof. solve_decision. Defined.

Definition idle_signal : NotifierSignal := Basic static_value false_mask.
Definition busy_signal : NotifierSignal := Basic static_value true_mask.
Definition overderived_signal : NotifierSignal := Basic static_value (Z.lor overderived_mask true_mask).
Definition uninitialized_signal : NotifierSignal := Basic static_value uninitialized_mask.
(** [static_initialize]: what the word holds. *)
Definition static_initialize : Z := Z.lor true_mask overderived_mask.

Definition test_bits (word mask : Z) : bool := negb (Z.land word mask =? 0).
Definition active (memory : Z -> Z) (s : NotifierSignal) : bool :=
  match s with
  | Basic v1 mask => test_bits (memory v1) mask
  | Derived vm => existsb (fun x => test_bits (memory (vm_value x)) (vm_mask x)) vm
  end.
Definition idle (s : NotifierSignal) : bool :=
  match s with Basic v1 mask => (mask =? false_mask) && (v1 =? static_value) | Derived _ => false end.
Definition busy (s : NotifierSignal) : bool :=
  match s with Basic v1 mask => test_bits mask true_mask && (v1 =? static_value) | Derived _ => false end.
Definition overderived (s : NotifierSignal) : bool :=
  match s with Basic v1 mask => test_bits mask overderived_mask && (v1 =? static_value) | Derived _ => false end.
Definition initialized (s : NotifierSignal) : bool :=
  match s with Basic v1 mask => negb (test_bits mask uninitialized_mask) || negb (v1 =? static_value) | Derived _ => true end.
(** [operator==]; [hard_equals] compares the arrays. *)
Fixpoint hard_equals (a b : list vmpair) : bool :=
  match a, b with
  | x :: a, y :: b => (vm_mask x =? vm_mask y) && (vm_value x =? vm_value y) && hard_equals a b
  | [], [] => true
  | _, _ => false
  end.
Definition signal_eq (a b : NotifierSignal) : bool :=
  match a, b with
  | Basic v m, Basic v' m' => (m =? m') && (v =? v')
  | Derived a, Derived b => hard_equals a b
  | _, _ => false
  end.

(** The array with the word in its place: [None] if there is no memory for another entry. *)
Fixpoint insert_vm (value mask : Z) (vm : list vmpair) : option (list vmpair) :=
  match vm with
  | x :: vm' =>
      if vm_value x <? value then cons x <$> insert_vm value mask vm'
      else if vm_value x =? value then Some (Vm value (Z.lor (vm_mask x) mask) :: vm')
      else if mem then Some (Vm value mask :: vm) else None
  | [] => if mem then Some [Vm value mask] else None
  end.
Definition hard_derive_array (value mask : Z) (vm : list vmpair) : NotifierSignal :=
  match insert_vm value mask vm with Some vm => Derived vm | None => overderived_signal end.
Definition hard_derive_one (value mask : Z) (s : NotifierSignal) : NotifierSignal :=
  match s with
  | Basic v1 m =>
      if busy s then s
      else if v1 =? value then Basic v1 (Z.lor m mask)
      else if mem then hard_derive_array value mask [Vm v1 m] else overderived_signal
  | Derived vm => hard_derive_array value mask vm
  end.
(** [operator+=], for two objects *)
Definition signal_add (a x : NotifierSignal) : NotifierSignal :=
  if idle a || (busy x && negb (signal_eq a busy_signal)) || negb (initialized x) then x
  else if busy a || negb (initialized a) || idle x then a
  else
    match x with
    | Basic v' m' =>
        match a with
        | Basic v m => if v =? v' then Basic v (Z.lor m m') else hard_derive_one v' m' a
        | Derived _ => hard_derive_one v' m' a
        end
    | Derived vm => foldl (fun a x => hard_derive_one (vm_value x) (vm_mask x) a) a vm
    end.

(** [set_active] of a basic signal: the new word and whether it was active.  A multithreaded
    build repeats a compare-and-swap until the word is the one it has read; the asserts are on
    the signal. *)
Definition set_bits (mask : Z) (on : bool) (word : Z) : Z := if on then Z.lor word mask else Z.ldiff word mask.
Definition set_active (memory : Z -> Z) (s : NotifierSignal) (on : bool) : res ((Z -> Z) * bool) :=
  match s with
  | Basic v1 mask =>
      if (v1 =? static_value) || negb (Z.land mask (u32 (mask - 1)) =? 0) then Fault AssertFailed
      else Ok (fun a => if a =? v1 then set_bits mask on (memory a) else memory a, test_bits (memory v1) mask)
  | Derived _ => Fault AssertFailed
  end.

(** ** Well-formed signals *)
(** The entries of a signal that is not static, and the mask it has for a word. *)
Definition entry_ok (x : vmpair) : Prop := vm_value x <> static_value /\ 0 < vm_mask x.
Definition ascending (vm : list vmpair) : Prop := StronglySorted (fun x y => vm_value x < vm_value y) vm.
Definition entries_ok (vm : list vmpair) : Prop := vm <> [] /\ Forall entry_ok vm /\ ascending vm.
Definition of_entries (vm : list vmpair) : NotifierSignal := match vm with [Vm v m] => Basic v m | _ => Derived vm end.
Fixpoint mask_of (a : Z) (vm : list vmpair) : Z :=
  match vm with [] => 0 | x :: vm => Z.lor (if vm_value x =? a then vm_mask x else 0) (mask_of a vm) end.
(** What a signal can be: one of the static ones, bits of one word, or bits of several words in
    the order of their addresses. *)
Inductive signal_ok : NotifierSignal -> Prop :=
| ok_idle : signal_ok idle_signal
| ok_busy : signal_ok busy_signal
| ok_overderived : signal_ok overderived_signal
| ok_real vm : entries_ok vm -> signal_ok (of_entries vm).

(** *** Entries *)
Lemma mask_of_above a vm : Forall (fun x => a < vm_value x) vm -> mask_of a vm = 0.
Proof.
  induction 1 as [|x vm Hx _ IH]; [done|]. cbn [mask_of]. rewrite IH. destruct (Z.eqb_spec (vm_value x) a); [lia|done].
Qed.
Lemma ascending_ext vm vm' : Forall entry_ok vm -> Forall entry_ok vm' -> ascending vm -> ascending vm' ->
  (forall a, mask_of a vm = mask_of a vm') -> vm = vm'.
Proof.
  intros H H' Ha Ha'. revert vm' H' Ha'. unfold ascending in *.
  assert (Hhead : forall x vm, Forall entry_ok (x :: vm) -> StronglySorted (fun x y => vm_value x < vm_value y) (x :: vm) ->
      mask_of (vm_value x) (x :: vm) = vm_mask x /\ 0 < vm_mask x /\
      forall a, mask_of a (x :: vm) <> 0 -> vm_value x <= a).
  { intros x l Hl Hs. apply StronglySorted_inv in Hs as [_ Hs]. apply list.Forall_cons in Hl as [[_ Hx] _].
    split; [|split; [done|]].
    - cbn [mask_of]. by rewrite Z.eqb_refl, (mask_of_above _ l Hs), Z.lor_0_r.
    - intros a. cbn [mask_of]. destruct (Z.eqb_spec (vm_value x) a); [lia|]. rewrite Z.lor_0_l. intros Hne.
      apply Z.le_ngt. intros Hlt. apply Hne, mask_of_above. eapply list.Forall_impl; [exact Hs|]. cbn. lia. }
  induction vm as [|x vm IH]; intros [|y vm'] H' Ha' E; [done| | |].
  - destruct (Hhead y vm' H' Ha') as (Ey & Hy & _). specialize (E (vm_value y)). rewrite Ey in E. cbn in E. lia.
  - destruct (Hhead x vm H Ha) as (Ex & Hx & _). specialize (E (vm_value x)). rewrite Ex in E. cbn in E. lia.
  - destruct (Hhead x vm H Ha) as (Ex & Hx & Hlx). destruct (Hhead y vm' H' Ha') as (Ey & Hy & Hly).
    assert (Hv : vm_value x = vm_value y).
    { pose proof (Hlx (vm_value y)) as H1. pose proof (Hly (vm_value x)) as H2. rewrite E, Ey in H1. rewrite <- E, Ex in H2. lia. }
    assert (Hm : vm_mask x = vm_mask y) by (rewrite <- Ex, <- Ey, E; by rewrite Hv).
    assert (x = y) as <- by (destruct x, y; cbn in *; congruence). f_equal.
    pose proof (StronglySorted_inv Ha) as [Hs Hf]. pose proof (StronglySorted_inv Ha') as [Hs' Hf'].
    apply list.Forall_cons in H as [_ H]. apply list.Forall_cons in H' as [_ H']. apply IH; [done..|].
    intros a. specialize (E a). cbn [mask_of] in E. destruct (Z.eqb_spec (vm_value x) a) as [Ea|]; [|done].
    by rewrite !mask_of_above by (by rewrite <- Ea).
Qed.
Lemma mask_of_nonneg a vm : Forall entry_ok vm -> 0 <= mask_of a vm.
Proof.
  induction 1 as [|x vm [_ Hx] _ IH]; [done|]. cbn [mask_of]. apply Z.lor_nonneg. split; [|done]. destruct (_ =? _); lia.
Qed.
Lemma lor_positive a b : 0 < a -> 0 < b -> 0 < Z.lor a b.
Proof. intros. assert (0 <= Z.lor a b) by (apply Z.lor_nonneg; lia). destruct (Z.eq_dec (Z.lor a b) 0) as [E|]; [|lia]. apply Z.lor_eq_0_iff in E. lia. Qed.
(** An entry added, when there is memory. *)
Lemma insert_vm_ok v m vm : mem = true -> v <> static_value -> 0 < m -> Forall entry_ok vm -> ascending vm ->
  exists vm', insert_vm v m vm = Some vm' /\ entries_ok vm' /\
    (forall a, mask_of a vm' = Z.lor (mask_of a vm) (if v =? a then m else 0)) /\
    Forall (fun x => x = v \/ exists y, y ∈ vm /\ x = vm_value y) (map vm_value vm') /\ (length vm <= length vm')%nat.
Proof.
  intros Hmem Hv Hm. induction vm as [|x vm IH]; intros Hok Hs; cbn [insert_vm].
  - rewrite Hmem. eexists. split; [done|]. split; [split; [done|split; [by repeat constructor|by repeat constructor]]|].
    split; [intros a; cbn; by rewrite Z.lor_0_r|]. split; [|cbn; lia]. cbn. constructor; [by left|constructor].
  - apply list.Forall_cons in Hok as [[Hxv Hxm] Hok]. pose proof (StronglySorted_inv Hs) as [Hs' Hf].
    destruct (Z.ltb_spec (vm_value x) v) as [Hlt|Hge].
    + destruct (IH Hok Hs') as (vm' & -> & (_ & Ho' & Ha') & Hmask & Hval & Hlen). eexists. split; [done|].
      split; [split; [done|split; [by constructor|]]|split; [|split]].
      * constructor; [done|]. apply list.Forall_forall. intros y Hy. rewrite list.Forall_forall in Hval.
        destruct (Hval (vm_value y)) as [-> |(z & Hz & ->)]; [by apply list_elem_of_fmap_2|done|].
        rewrite list.Forall_forall in Hf. by apply Hf.
      * intros a. cbn [mask_of]. rewrite Hmask. by rewrite Z.lor_assoc.
      * cbn [map]. constructor; [right; exists x; split; [apply list_elem_of_here|done]|].
        eapply list.Forall_impl; [exact Hval|]. intros z [-> |(y & Hy & ->)]; [by left|right]. exists y. split; [by apply list_elem_of_further|done].
      * cbn. lia.
    + destruct (Z.eqb_spec (vm_value x) v) as [Heq|Hne].
      * eexists. split; [done|]. split; [split; [done|split]|split; [|split; [|done]]].
        -- constructor; [split; [done|by apply lor_positive]|done].
        -- constructor; [done|]. cbn. by rewrite <- Heq.
        -- intros a. cbn [mask_of vm_value vm_mask]. rewrite Heq. destruct (v =? a).
           ++ rewrite <- !Z.lor_assoc. f_equal. apply Z.lor_comm.
           ++ by rewrite Z.lor_0_r.
        -- cbn [map vm_value]. constructor; [by left|]. apply list.Forall_forall. intros z (y & -> & Hy)%list_elem_of_fmap_1.
           right. exists y. split; [by apply list_elem_of_further|done].
      * rewrite Hmem. eexists. split; [done|]. split; [split; [done|split]|split; [|split; [|cbn; lia]]].
        -- constructor; [done|by constructor].
        -- constructor; [done|]. constructor; [cbn; lia|]. eapply list.Forall_impl; [exact Hf|]. cbn. lia.
        -- intros a. cbn [mask_of vm_value vm_mask]. rewrite Z.lor_comm. done.
        -- constructor; [by left|]. apply list.Forall_forall. intros z Hz. change (z ∈ vm_value <$> (x :: vm)) in Hz.
           apply list_elem_of_fmap_1 in Hz as (y & -> & Hy). right. by exists y.
Qed.

(** *** Signals of entries *)
Lemma of_entries_long vm : (2 <= length vm)%nat -> of_entries vm = Derived vm.
Proof. intros H. destruct vm as [|x [|]]; [cbn in H; lia..|]. by destruct x. Qed.
Lemma real_cases vm : entries_ok vm ->
  (exists v m, vm = [Vm v m] /\ v <> static_value /\ 0 < m) \/ (2 <= length vm)%nat.
Proof.
  intros (Hne & Hok & _). destruct vm as [|[v m] [|]]; [done| |cbn; right; lia]. left. exists v, m.
  apply list.Forall_cons in Hok as [[? ?] _]. done.
Qed.
(** A signal of entries is none of the static ones. *)
Lemma real_not_static vm : entries_ok vm ->
  idle (of_entries vm) = false /\ busy (of_entries vm) = false /\ initialized (of_entries vm) = true /\
  signal_eq (of_entries vm) busy_signal = false.
Proof.
  intros [(v & m & -> & Hv & Hm)|Hl]%real_cases.
  - cbn. rewrite (proj2 (Z.eqb_neq v static_value)) by done. rewrite !andb_false_r. cbn. by rewrite orb_true_r.
  - by rewrite of_entries_long.
Qed.
Lemma active_entries memory vm : vm <> [] ->
  active memory (of_entries vm) = existsb (fun x => test_bits (memory (vm_value x)) (vm_mask x)) vm.
Proof. intros Hne. destruct vm as [|[v m] [|]]; [done| |done]. cbn. by rewrite orb_false_r. Qed.
Lemma test_lor word a b : test_bits word (Z.lor a b) = test_bits word a || test_bits word b.
Proof.
  unfold test_bits. rewrite Z.land_lor_distr_r. destruct (Z.eqb_spec (Z.land word a) 0) as [->|Ha]; [by rewrite Z.lor_0_l|].
  rewrite (proj2 (Z.eqb_neq _ _)); [done|]. intros E. apply Z.lor_eq_0_iff in E. tauto.
Qed.
Lemma insert_active memory v m vm vm' : insert_vm v m vm = Some vm' ->
  existsb (fun x => test_bits (memory (vm_value x)) (vm_mask x)) vm' =
  existsb (fun x => test_bits (memory (vm_value x)) (vm_mask x)) vm || test_bits (memory v) m.
Proof.
  revert vm'. induction vm as [|x vm IH]; intros vm'; cbn [insert_vm].
  - destruct mem; [|done]. intros [= <-]. cbn. by rewrite orb_false_r.
  - destruct (vm_value x <? v).
    + destruct (insert_vm v m vm) as [l|] eqn:E; [|done]. intros [= <-]. cbn [existsb]. rewrite (IH l eq_refl). by rewrite orb_assoc.
    + destruct (Z.eqb_spec (vm_value x) v) as [<-|].
      * intros [= <-]. cbn [existsb vm_value vm_mask]. rewrite test_lor. rewrite <- !orb_assoc. f_equal. apply orb_comm.
      * destruct mem; [|done]. intros [= <-]. cbn [existsb vm_value vm_mask]. by rewrite orb_comm.
Qed.
Lemma hard_derive_entries v m vm : mem = true -> v <> static_value -> 0 < m -> entries_ok vm ->
  exists vm', hard_derive_one v m (of_entries vm) = of_entries vm' /\ insert_vm v m vm = Some vm' /\ entries_ok vm' /\
    forall a, mask_of a vm' = Z.lor (mask_of a vm) (if v =? a then m else 0).
Proof.
  intros Hmem Hv Hm Hok. pose proof Hok as (Hne & Ho & Ha).
  destruct (insert_vm_ok v m vm Hmem Hv Hm Ho Ha) as (vm' & E & Hok' & Hmask & _ & Hlen). exists vm'. split; [|done].
  destruct (real_cases vm Hok) as [(v1 & m1 & -> & Hv1 & Hm1)|Hl].
  - cbn [of_entries hard_derive_one]. pose proof (proj1 (proj2 (real_not_static [Vm v1 m1] Hok))) as Hb. cbn [of_entries] in Hb. rewrite Hb.
    cbn [insert_vm vm_value vm_mask] in E. unfold hard_derive_array. rewrite Hmem in *. destruct (Z.eqb_spec v1 v) as [-> |Hne'].
    + rewrite Z.ltb_irrefl in E. by injection E as <-.
    + cbn [insert_vm vm_value vm_mask]. rewrite (proj2 (Z.eqb_neq v1 v)) by done. destruct (v1 <? v); cbn in E; injection E as <-; by rewrite Hmem.
  - rewrite of_entries_long by done. cbn [hard_derive_one]. unfold hard_derive_array. rewrite E. rewrite of_entries_long; [done|lia].
Qed.
Lemma fold_entries vm' vm : mem = true -> entries_ok vm -> Forall entry_ok vm' ->
  exists vm'', foldl (fun a x => hard_derive_one (vm_value x) (vm_mask x) a) (of_entries vm) vm' = of_entries vm'' /\
    entries_ok vm'' /\ (forall a, mask_of a vm'' = Z.lor (mask_of a vm) (mask_of a vm')) /\
    forall memory, active memory (of_entries vm'') =
      active memory (of_entries vm) || existsb (fun x => test_bits (memory (vm_value x)) (vm_mask x)) vm'.
Proof.
  intros Hmem. revert vm. induction vm' as [|x vm' IH]; intros vm Hok Ho'.
  - exists vm. split; [done|]. split; [done|]. split; [intros a; cbn; by rewrite Z.lor_0_r|]. intros memory. cbn. by rewrite orb_false_r.
  - apply list.Forall_cons in Ho' as [[Hv Hm] Ho']. destruct (hard_derive_entries _ _ vm Hmem Hv Hm Hok) as (vm1 & E & Ei & Hok1 & Hm1).
    cbn [foldl]. rewrite E. destruct (IH vm1 Hok1 Ho') as (vm2 & E2 & Hok2 & Hm2 & Hact). exists vm2. split; [done|]. split; [done|]. split.
    + intros a. rewrite Hm2, Hm1. cbn [mask_of]. by rewrite Z.lor_assoc.
    + intros memory. rewrite Hact, !active_entries by (apply Hok1 || apply Hok). rewrite (insert_active _ _ _ _ _ Ei).
      cbn [existsb]. by rewrite orb_assoc.
Qed.
(** The sum of two such signals has the bits of both. *)
Lemma add_entries vm vm' : mem = true -> entries_ok vm -> entries_ok vm' ->
  exists vm'', signal_add (of_entries vm) (of_entries vm') = of_entries vm'' /\ entries_ok vm'' /\
    (forall a, mask_of a vm'' = Z.lor (mask_of a vm) (mask_of a vm')) /\
    forall memory, active memory (of_entries vm'') = active memory (of_entries vm) || active memory (of_entries vm').
Proof.
  intros Hmem Hok Hok'. unfold signal_add. destruct (real_not_static vm Hok) as (-> & -> & -> & ->).
  destruct (real_not_static vm' Hok') as (-> & -> & -> & _). cbn [orb andb negb].
  destruct (real_cases vm' Hok') as [(v' & m' & -> & Hv' & Hm')|Hl'].
  - destruct (hard_derive_entries v' m' vm Hmem Hv' Hm' Hok) as (vm'' & E & Ei & Hok'' & Hmask). exists vm''. split; [|split; [done|split]].
    + cbn [of_entries]. rewrite <- E. destruct (of_entries vm) as [v m|] eqn:Ev; [|done]. destruct (Z.eqb_spec v v') as [-> |Hne]; [|done].
      cbn [hard_derive_one]. pose proof (proj1 (proj2 (real_not_static vm Hok))) as Hb. rewrite Ev in Hb. by rewrite Hb, Z.eqb_refl.
    + intros a. rewrite Hmask. cbn. by rewrite Z.lor_0_r.
    + intros memory. rewrite !active_entries by (apply Hok'' || apply Hok || apply Hok'). rewrite (insert_active _ _ _ _ _ Ei).
      cbn. by rewrite orb_false_r.
  - rewrite (of_entries_long vm') by done. destruct (fold_entries vm' vm Hmem Hok) as (vm'' & E & H); [apply Hok'|]. exists vm''. by rewrite E.
Qed.
Lemma of_entries_ext vm vm' : entries_ok vm -> entries_ok vm' -> (forall a, mask_of a vm = mask_of a vm') -> of_entries vm = of_entries vm'.
Proof. intros (_ & H1 & H2) (_ & H1' & H2') E. f_equal. by apply ascending_ext. Qed.

(** *** The table of [operator+=] *)
Ltac static_table := unfold signal_add; cbn; rewrite ?Z.eqb_refl; reflexivity.
Lemma add_idle_l x : signal_add idle_signal x = x.
Proof. unfold signal_add. cbn. by rewrite Z.eqb_refl. Qed.
Lemma add_busy_r a : signal_add a busy_signal = busy_signal.
Proof.
  unfold signal_add. replace (busy busy_signal) with true by (cbn; by rewrite Z.eqb_refl). cbn [andb].
  destruct (signal_eq a busy_signal) eqn:E; [|by rewrite orb_true_r].
  assert (a = busy_signal) as ->.
  { destruct a as [v m|vm]; [|done]. cbn in E. apply andb_true_iff in E as [->%Z.eqb_eq ->%Z.eqb_eq]. done. }
  static_table.
Qed.
Lemma add_busy_l x : signal_ok x -> signal_add busy_signal x = busy_signal.
Proof.
  intros [| | |vm Hok]; [static_table..|]. unfold signal_add. destruct (real_not_static vm Hok) as (-> & -> & -> & _). static_table.
Qed.
Lemma add_idle_r a : signal_ok a -> signal_add a idle_signal = a.
Proof.
  intros [| | |vm Hok]; [static_table..|]. unfold signal_add. destruct (real_not_static vm Hok) as (-> & -> & -> & ->). static_table.
Qed.
Lemma add_over_over : signal_add overderived_signal overderived_signal = overderived_signal.
Proof. static_table. Qed.
Lemma add_over_real vm : entries_ok vm -> signal_add overderived_signal (of_entries vm) = overderived_signal.
Proof. intros Hok. unfold signal_add. destruct (real_not_static vm Hok) as (-> & -> & -> & _). static_table. Qed.
Lemma add_real_over vm : entries_ok vm -> signal_add (of_entries vm) overderived_signal = overderived_signal.
Proof. intros Hok. unfold signal_add. destruct (real_not_static vm Hok) as (-> & -> & -> & ->). static_table. Qed.
Lemma signal_add_ok a x : mem = true -> signal_ok a -> signal_ok x -> signal_ok (signal_add a x).
Proof.
  intros Hmem Ha Hx. destruct Ha as [| | |vm Hok].
  - by rewrite add_idle_l.
  - rewrite add_busy_l by done. constructor.
  - destruct Hx as [| | |vm Hok]; [rewrite add_idle_r|rewrite add_busy_r|rewrite add_over_over|rewrite add_over_real]; try done; constructor.
  - destruct Hx as [| | |vm' Hok']; [rewrite add_idle_r|rewrite add_busy_r|rewrite add_real_over|]; try done; try by constructor.
    destruct (add_entries vm vm' Hmem Hok Hok') as (vm'' & -> & Hok'' & _). by constructor.
Qed.
Ltac sig := solve [assumption | constructor; assumption | apply ok_idle | apply ok_busy | apply ok_overderived].
Lemma signal_add_comm a b : mem = true -> signal_ok a -> signal_ok b -> signal_add a b = signal_add b a.
Proof.
  intros Hmem Ha Hb. destruct Ha as [| | |vm Hok].
  - by rewrite add_idle_l, add_idle_r.
  - by rewrite add_busy_l, add_busy_r.
  - destruct Hb as [| | |vm Hok];
      [by rewrite add_idle_l, add_idle_r by sig|by rewrite add_busy_l, add_busy_r by sig|done|by rewrite add_over_real, add_real_over].
  - destruct Hb as [| | |vm' Hok'];
      [by rewrite add_idle_l, add_idle_r by sig|by rewrite add_busy_l, add_busy_r by sig|by rewrite add_over_real, add_real_over|].
    destruct (add_entries vm vm' Hmem Hok Hok') as (l1 & -> & H1 & E1 & _). destruct (add_entries vm' vm Hmem Hok' Hok) as (l2 & -> & H2 & E2 & _).
    apply of_entries_ext; [done..|]. intros x. rewrite E1, E2. apply Z.lor_comm.
Qed.
Lemma signal_add_assoc a b c : mem = true -> signal_ok a -> signal_ok b -> signal_ok c ->
  signal_add (signal_add a b) c = signal_add a (signal_add b c).
Proof.
  intros Hmem Ha Hb Hc. pose proof (signal_add_ok b c Hmem Hb Hc) as Hbc. pose proof (signal_add_ok a b Hmem Ha Hb) as Hab.
  destruct Ha as [| | |va Hva]; [by rewrite !add_idle_l|by rewrite !add_busy_l| |].
  - destruct Hb as [| | |vb Hvb]; [by rewrite add_idle_l, add_idle_r by sig|by rewrite add_busy_r, add_busy_l, add_busy_r| |].
    + rewrite add_over_over. destruct Hc as [| | |vc Hvc]; [by rewrite !add_idle_r, add_over_over by sig|by rewrite !add_busy_r|by rewrite !add_over_over|].
      by rewrite add_over_real, add_over_over by done.
    + rewrite add_over_real by done. destruct Hc as [| | |vc Hvc];
        [by rewrite !add_idle_r, add_over_real by sig|by rewrite !add_busy_r|by rewrite add_real_over|].
      destruct (add_entries vb vc Hmem Hvb Hvc) as (l & -> & Hl & _). by rewrite !add_over_real.
  - destruct Hb as [| | |vb Hvb]; [by rewrite add_idle_l, add_idle_r by sig|by rewrite add_busy_l, !add_busy_r, add_busy_l| |].
    + rewrite add_real_over by done. destruct Hc as [| | |vc Hvc];
        [by rewrite !add_idle_r, add_real_over by sig|by rewrite !add_busy_r|by rewrite add_over_over, add_real_over|].
      by rewrite add_over_real, add_real_over by done.
    + destruct (add_entries va vb Hmem Hva Hvb) as (l1 & E1 & Hl1 & M1 & _). rewrite E1.
      destruct Hc as [| | |vc Hvc]; [by rewrite !add_idle_r by sig|by rewrite !add_busy_r|by rewrite !add_real_over|].
      destruct (add_entries vb vc Hmem Hvb Hvc) as (l2 & -> & Hl2 & M2 & _). destruct (add_entries l1 vc Hmem Hl1 Hvc) as (l3 & -> & Hl3 & M3 & _).
      destruct (add_entries va l2 Hmem Hva Hl2) as (l4 & -> & Hl4 & M4 & _). apply of_entries_ext; [done..|].
      intros x. rewrite M3, M1, M4, M2. symmetry. apply Z.lor_assoc.
Qed.
Lemma signal_add_same a : mem = true -> signal_ok a -> signal_add a a = a.
Proof.
  intros Hmem [| | |vm Hok]; [by rewrite add_idle_l|by rewrite add_busy_r|apply add_over_over|].
  destruct (add_entries vm vm Hmem Hok Hok) as (l & -> & Hl & M & _). apply of_entries_ext; [done..|]. intros x. rewrite M. apply Z.lor_diag.
Qed.

(** *** What a sum is active for *)
Lemma active_static memory : memory static_value = static_initialize ->
  active memory idle_signal = false /\ active memory busy_signal = true /\ active memory overderived_signal = true.
Proof. cbn. by intros ->. Qed.
Lemma hard_derive_active memory v m s : memory static_value = static_initialize ->
  active memory s || test_bits (memory v) m = true -> active memory (hard_derive_one v m s) = true.
Proof.
  intros Hs. destruct (active_static memory Hs) as (_ & _ & Hover).
  assert (Harr : forall vm, existsb (fun x => test_bits (memory (vm_value x)) (vm_mask x)) vm || test_bits (memory v) m = true ->
      active memory (hard_derive_array v m vm) = true).
  { intros vm H. unfold hard_derive_array. destruct (insert_vm v m vm) as [vm'|] eqn:E; [|done]. cbn [active].
    by rewrite (insert_active memory v m vm vm' E). }
  destruct s as [v1 m1|vm]; [|apply Harr]. cbn [hard_derive_one]. destruct (busy (Basic v1 m1)) eqn:Eb.
  { intros _. cbn in Eb. apply andb_true_iff in Eb as [Ht ->%Z.eqb_eq]. cbn. rewrite Hs. unfold test_bits in *.
    unfold static_initialize. rewrite Z.land_lor_distr_l. apply negb_true_iff, Z.eqb_neq. apply negb_true_iff, Z.eqb_neq in Ht.
    intros E. apply Z.lor_eq_0_iff in E as [E _]. rewrite Z.land_comm in E. done. }
  destruct (Z.eqb_spec v1 v) as [-> |]; [cbn; by rewrite test_lor|].
  destruct mem; [|done]. intros H. apply Harr. cbn in *. by rewrite orb_false_r.
Qed.
Lemma fold_active memory vm s : memory static_value = static_initialize ->
  active memory s || existsb (fun x => test_bits (memory (vm_value x)) (vm_mask x)) vm = true ->
  active memory (foldl (fun a x => hard_derive_one (vm_value x) (vm_mask x) a) s vm) = true.
Proof.
  intros Hs. revert s. induction vm as [|x vm IH]; intros s; cbn [foldl existsb]; [by rewrite orb_false_r|].
  intros H. apply IH. rewrite orb_assoc in H. apply orb_true_iff in H as [H|H]; [|by rewrite H, orb_true_r].
  by rewrite hard_derive_active.
Qed.
(** signals that are initialised form a semilattice under [operator+=] if there is memory:
    commutative, associative and idempotent, with the idle signal as its unit and the busy
    signal on top, and a sum is active exactly if one of its parts is. *)
Theorem signals_semilattice memory a b c : mem = true -> memory static_value = static_initialize ->
  signal_ok a -> signal_ok b -> signal_ok c ->
  signal_ok (signal_add a b) /\ signal_add a b = signal_add b a /\
  signal_add (signal_add a b) c = signal_add a (signal_add b c) /\ signal_add a a = a /\
  signal_add idle_signal a = a /\ signal_add a busy_signal = busy_signal /\
  active memory (signal_add a b) = active memory a || active memory b.
Proof.
  intros Hmem Hs Ha Hb Hc. destruct (active_static memory Hs) as (Hi & Hbu & Ho).
  split; [by apply signal_add_ok|]. split; [by apply signal_add_comm|]. split; [by apply signal_add_assoc|].
  split; [by apply signal_add_same|]. split; [apply add_idle_l|]. split; [apply add_busy_r|].
  destruct Ha as [| | |va Hva]; [by rewrite add_idle_l, Hi|by rewrite add_busy_l, Hbu| |].
  - destruct Hb as [| | |vb Hvb];
      [by rewrite add_idle_r, Hi, orb_false_r by sig|by rewrite add_busy_r, Hbu, orb_true_r|by rewrite add_over_over, Ho|by rewrite add_over_real, Ho].
  - destruct Hb as [| | |vb Hvb];
      [by rewrite add_idle_r, Hi, orb_false_r by sig|by rewrite add_busy_r, Hbu, orb_true_r|by rewrite add_real_over, Ho, orb_true_r|].
    destruct (add_entries va vb Hmem Hva Hvb) as (l & -> & _ & _ & H). apply H.
Qed.
(** Without memory, too, a sum is active if one of its parts is. *)
Lemma signal_add_conservative memory a x : memory static_value = static_initialize -> signal_ok a -> signal_ok x ->
  active memory a || active memory x = true -> active memory (signal_add a x) = true.
Proof.
  intros Hs Ha Hx H. destruct (active_static memory Hs) as (Hi & Hbu & Ho).
  destruct Ha as [| | |va Hva]; [by rewrite Hi in H; rewrite add_idle_l|by rewrite add_busy_l| |].
  - destruct Hx as [| | |vb Hvb]; [by rewrite add_idle_r by sig|by rewrite add_busy_r|by rewrite add_over_over|by rewrite add_over_real].
  - destruct Hx as [| | |vb Hvb]; [|by rewrite add_busy_r|by rewrite add_real_over|].
    + rewrite add_idle_r by sig. by rewrite Hi, orb_false_r in H.
    + unfold signal_add. destruct (real_not_static va Hva) as (-> & -> & -> & ->).
      destruct (real_not_static vb Hvb) as (-> & -> & -> & _). cbn [orb andb negb].
      destruct (real_cases vb Hvb) as [(v' & m' & -> & _)|Hl].
      * cbn [of_entries] in *. change (active memory (Basic v' m')) with (test_bits (memory v') m') in H.
        destruct (of_entries va) as [v m|vm] eqn:E; [|by apply hard_derive_active].
        destruct (Z.eqb_spec v v') as [-> |]; [cbn in *; by rewrite test_lor|by apply hard_derive_active].
      * rewrite (of_entries_long vb) in * by done. by apply fold_active.
Qed.
End Signals.

(** ** Router signals *)
(** [Router::new_notifier_signal] keeps blocks of [capacity] bits for each name; a block is known
    by the address of its first word. *)
Definition block_capacity : Z := 4096.
Record signal_block : Type := Block { sb_name : Z; sb_nsig : Z; sb_sig : Z }.
Definition block_signal (b : signal_block) (n : Z) : NotifierSignal :=
  Basic (sb_sig b + 4 * (n / 32)) (Z.shiftl 1 (n mod 32)).
Fixpoint find_block (name : Z) (l : list signal_block) : option nat :=
  match l with
  | [] => None
  | b :: l => if (sb_name b =? name) && negb (sb_nsig b =? block_capacity) then Some O else S <$> find_block name l
  end.
(** [fresh] is the address of a new block, [None] if there is no memory. *)
Definition new_notifier_signal (static_value name : Z) (fresh : option Z) (l : list signal_block) (memory : Z -> Z)
  : res (option (NotifierSignal * list signal_block * (Z -> Z))) :=
  let take (i : nat) (l : list signal_block) memory :=
    b ← opt_res NullDeref (l !! i);
    let signal := block_signal b (sb_nsig b) in
    '(memory, _) ← set_active static_value memory signal true;
    Ok (Some (signal, <[i := Block (sb_name b) (sb_nsig b + 1) (sb_sig b)]> l, memory)) in
  match find_block name l with
  | Some i => take i l memory
  | None =>
      match fresh with
      | None => Ok None
      | Some a => take O (Block name 0 a :: l) (fun x => if (a <=? x) && (x <? a + block_capacity / 8) then 0 else memory x)
      end
  end.
(** No two signals of a block share a bit. *)
Lemma block_signals_apart b n n' : 0 <= n -> 0 <= n' -> n <> n' ->
  match block_signal b n, block_signal b n' with
  | Basic v m, Basic v' m' => v <> v' \/ Z.land m m' = 0
  | _, _ => False
  end.
Proof.
  intros Hn Hn' Hne. cbn. destruct (Z.eq_dec (n / 32) (n' / 32)) as [E|E]; [right|left; lia].
  pose proof (Z.div_mod n 32). pose proof (Z.div_mod n' 32). pose proof (Z.mod_pos_bound n 32). pose proof (Z.mod_pos_bound n' 32).
  apply Z.bits_inj'. intros k Hk. rewrite Z.land_spec, !Z.shiftl_spec, Z.bits_0 by lia.
  destruct (Z.eq_dec k (n mod 32)) as [-> |]; [rewrite andb_comm|].
  - destruct (Z.lt_ge_cases (n mod 32 - n' mod 32) 0); [by rewrite Z.testbit_neg_r|].
    rewrite (Z.bits_above_log2 1 (n mod 32 - n' mod 32)); [done|lia|cbn; lia].
  - destruct (Z.lt_ge_cases (k - n mod 32) 0); [by rewrite Z.testbit_neg_r|].
    rewrite (Z.bits_above_log2 1 (k - n mod 32)); [done|lia|cbn; lia].
Qed.
(** A new signal is active. *)
Lemma new_signal_active static_value name fresh l memory s l' memory' :
  (forall b, b ∈ l -> 0 <= sb_nsig b) ->
  new_notifier_signal static_value name fresh l memory = Ok (Some (s, l', memory')) -> active memory' s = true.
Proof.
  intros Hl. unfold new_notifier_signal.
  assert (Htake : forall i l1 m1, (forall b, b ∈ l1 -> 0 <= sb_nsig b) ->
      (b ← opt_res NullDeref (l1 !! i);
       '(memory, _) ← set_active static_value m1 (block_signal b (sb_nsig b)) true;
       Ok (Some (block_signal b (sb_nsig b), <[i := Block (sb_name b) (sb_nsig b + 1) (sb_sig b)]> l1, memory))) = Ok (Some (s, l', memory')) ->
      active memory' s = true).
  { intros i l1 m1 Hl1 (b & Hb & ([m2 w] & Hset & [= <- _ <-])%res_bind_ok)%res_bind_ok. destruct (l1 !! i) as [b'|] eqn:E; [|done].
    injection Hb as ->. apply list_elem_of_lookup_2, Hl1 in E. unfold block_signal in *. cbn in Hset.
    destruct (_ || _); [done|]. injection Hset as <- _. cbn. rewrite Z.eqb_refl. unfold test_bits, set_bits. rewrite Z.land_lor_distr_l, Z.land_diag.
    apply negb_true_iff, Z.eqb_neq. intros Ez. apply Z.lor_eq_0_iff in Ez as [_ Ez]. rewrite Z.shiftl_1_l in Ez.
    pose proof (Z.mod_pos_bound (sb_nsig b) 32). pose proof (Z.pow_pos_nonneg 2 (sb_nsig b mod 32)). lia. }
  destruct (find_block name l) as [i|]; [by apply Htake|]. destruct fresh as [a|]; [|done]. apply (Htake O).
  intros b [-> |Hb]%list.elem_of_cons; [done|by apply Hl].
Qed.

(** ** Examples *)
Example signals_semilattice_witness :
  let memory a := if a =? 0 then static_initialize else 8 in
  let a := Basic 4 8 in let b := Derived [Vm 4 1; Vm 12 2] in let c := overderived_signal 0 in
  signal_ok 0 (signal_add 0 true a b) /\ signal_add 0 true a b = signal_add 0 true b a /\
  signal_add 0 true (signal_add 0 true a b) c = signal_add 0 true a (signal_add 0 true b c) /\ signal_add 0 true a a = a /\
  signal_add 0 true (idle_signal 0) a = a /\ signal_add 0 true a (busy_signal 0) = busy_signal 0 /\
  active memory (signal_add 0 true a b) = active memory a || active memory b.
Proof.
  cbv zeta. apply (signals_semilattice 0 true); [done|done| | |apply ok_overderived].
  - apply (ok_real 0 [Vm 4 8]). repeat constructor; cbn; done.
  - apply (ok_real 0 [Vm 4 1; Vm 12 2]). repeat constructor; cbn; done.
Defined.
(** The comment says that an uninitialised signal plus any other is uninitialised; a busy signal
    that comes second wins, and the sum depends on the order. *)
Example uninitialized_plus_busy static_value :
  signal_add static_value true (uninitialized_signal static_value) (busy_signal static_value) = busy_signal static_value /\
  signal_add static_value true (busy_signal static_value) (uninitialized_signal static_value) = uninitialized_signal static_value.
Proof. unfold signal_add. cbn. rewrite !Z.eqb_refl. done. Qed.
