(* ===== verification/QueueRace.v ===== *)
(** * [Queue] between two threads ([elements/standard/fullnotequeue.cc])

    [FullNoteQueue] (the element [Queue]) is a [SimpleQueue] with two activity signals: the
    empty note is to be active when there are packets, the full note when there is room.  One
    thread may push while another pulls.  A step here is one access to memory the threads
    share; the steps of the two threads, and changes other elements make to the other bits of
    the words that hold the signals, come in any order.  The memory is sequentially consistent:
    on the hosts a store to an index is followed by the compare-and-swap of a signal, which is a
    full fence.

    What a step does is a function; a thread is the place where it is and its local variables. *)
From Stdlib Require Import ZArith Lia.
From stdpp Require Import base list numbers option relations.
From S2P Require Import Prelude SimpleQueue Notifier.
#[local] Open Scope Z_scope.

Section QueueRace.
Context {A : Type}.
(** The capacity, the masks of the two signals, and whether the build is multithreaded: if it is
    not, the signals are not looked at again after going to sleep. *)
Context (c empty_mask full_mask : Z) (multithread : bool).

Record shared : Type := Shared {
  s_head : Z;
  s_tail : Z;
  s_ring : list (option A);
  s_empty_word : Z;
  s_full_word : Z;
  s_drops : Z;
  s_highwater : Z;
  s_sleepiness : Z
}.
Definition put_head (h : Z) (s : shared) : shared :=
  Shared h (s_tail s) (s_ring s) (s_empty_word s) (s_full_word s) (s_drops s) (s_highwater s) (s_sleepiness s).
Definition put_tail (t : Z) (s : shared) : shared :=
  Shared (s_head s) t (s_ring s) (s_empty_word s) (s_full_word s) (s_drops s) (s_highwater s) (s_sleepiness s).
Definition put_slot (i : Z) (p : A) (s : shared) : shared :=
  Shared (s_head s) (s_tail s) (<[Z.to_nat i := Some p]> (s_ring s)) (s_empty_word s) (s_full_word s) (s_drops s) (s_highwater s) (s_sleepiness s).
Definition put_words (e f : Z) (s : shared) : shared :=
  Shared (s_head s) (s_tail s) (s_ring s) e f (s_drops s) (s_highwater s) (s_sleepiness s).
Definition put_drops (n : Z) (s : shared) : shared :=
  Shared (s_head s) (s_tail s) (s_ring s) (s_empty_word s) (s_full_word s) n (s_highwater s) (s_sleepiness s).
Definition put_highwater (n : Z) (s : shared) : shared :=
  Shared (s_head s) (s_tail s) (s_ring s) (s_empty_word s) (s_full_word s) (s_drops s) n (s_sleepiness s).
Definition put_sleepiness (n : Z) (s : shared) : shared :=
  Shared (s_head s) (s_tail s) (s_ring s) (s_empty_word s) (s_full_word s) (s_drops s) (s_highwater s) n.
Definition shared_size (s : shared) : Z := storage_size c (s_head s) (s_tail s).
Definition ring_store (i : Z) (p : A) (s : shared) : res shared :=
  if (Z.to_nat i <? length (s_ring s))%nat then Ok (put_slot i p s) else Fault OutOfBounds.
Definition ring_load (i : Z) (s : shared) : res A :=
  o ← opt_res OutOfBounds (s_ring s !! Z.to_nat i); opt_res Uninitialised o.

(** ** [ActiveNotifier::set_active] *)
(** Reading the word, and then compare-and-swap with what was read until it succeeds. *)
Inductive note : Type := EmptyNote | FullNote.
Definition note_word (n : note) (s : shared) : Z := match n with EmptyNote => s_empty_word s | FullNote => s_full_word s end.
Definition note_mask (n : note) : Z := match n with EmptyNote => empty_mask | FullNote => full_mask end.
Definition put_note (n : note) (w : Z) (s : shared) : shared :=
  match n with EmptyNote => put_words w (s_full_word s) s | FullNote => put_words (s_empty_word s) w s end.
Definition note_active (n : note) (s : shared) : bool := test_bits (note_word n s) (note_mask n).
Inductive setting : Type := SRead | SSwap (expected : Z).
(** The next setting, or, when the swap has been made, whether the signal was active before. *)
Definition set_step (n : note) (on : bool) (st : setting) (s : shared) : (setting + bool) * shared :=
  match st with
  | SRead => (inl (SSwap (note_word n s)), s)
  | SSwap expected =>
      if note_word n s =? expected
      then (inr (test_bits expected (note_mask n)), put_note n (set_bits (note_mask n) on expected) s)
      else (inl (SSwap (note_word n s)), s)
  end.

(** What the world sees. *)
Inductive qtrace : Type :=
| Accepted (p : A) | Rejected (p : A) | Pulled (p : A) | PulledNone
| Notified (n : note)    (* the listeners are rescheduled *).

(** ** [push] *)
Inductive pusher : Type :=
| PIdle
| PHead (p : A)                      (* h = head() *)
| PTail (p : A) (h : Z)              (* t = tail(), nt = next_i(t) *)
| PStore (p : A) (h t nt : Z)        (* _q[t] = p *)
| PSetTail (p : A) (h nt : Z)        (* set_tail(nt) *)
| PSize (h nt : Z)                   (* s = size(h, nt), _highwater_length *)
| PWake (s : Z) (st : setting)       (* _empty_note.wake() *)
| PNotify (s : Z)                    (* ... its listeners *)
| PFull (s : Z)                      (* s == capacity() *)
| PSleep (st : setting)              (* _full_note.sleep() *)
| PCheck                             (* size() < capacity() *)
| PWakeFull (st : setting)           (* _full_note.wake() *)
| PNotifyFull
| PFail (p : A)                      (* _drops++ *)
| PDrop (p : A)                      (* checked_output_push(1, p) *).
Definition pusher_step (pu : pusher) (s : shared) : res (pusher * shared * list qtrace) :=
  match pu with
  | PIdle => Ok (PIdle, s, [])
  | PHead p => Ok (PTail p (s_head s), s, [])
  | PTail p h =>
      let t := s_tail s in
      let nt := next_i c t in
      Ok (if negb (nt =? h) then PStore p h t nt else PFail p, s, [])
  | PStore p h t nt => s ← ring_store t p s; Ok (PSetTail p h nt, s, [])
  | PSetTail p h nt => Ok (PSize h nt, put_tail nt s, [Accepted p])
  | PSize h nt =>
      let n := storage_size c h nt in
      Ok (PWake n SRead, if s_highwater s <? n then put_highwater n s else s, [])
  | PWake n st =>
      let '(r, s) := set_step EmptyNote true st s in
      Ok (match r with inl st => PWake n st | inr was => if was : bool then PFull n else PNotify n end, s, [])
  | PNotify n => Ok (PFull n, s, [Notified EmptyNote])
  | PFull n => Ok (if n =? s32 c then PSleep SRead else PIdle, s, [])
  | PSleep st =>
      let '(r, s) := set_step FullNote false st s in
      Ok (match r with inl st => PSleep st | inr _ => if multithread then PCheck else PIdle end, s, [])
  | PCheck => Ok (if shared_size s <? s32 c then PWakeFull SRead else PIdle, s, [])
  | PWakeFull st =>
      let '(r, s) := set_step FullNote true st s in
      Ok (match r with inl st => PWakeFull st | inr was => if was : bool then PIdle else PNotifyFull end, s, [])
  | PNotifyFull => Ok (PIdle, s, [Notified FullNote])
  | PFail p => Ok (PDrop p, put_drops (s32 (s_drops s + 1)) s, [])
  | PDrop p => Ok (PIdle, s, [Rejected p])
  end.

(** ** [pull] *)
Definition SLEEPINESS_TRIGGER : Z := 9.
Inductive puller : Type :=
| LIdle
| LHead                              (* h = head() *)
| LTail (h : Z)                      (* t = tail(), nh = next_i(h) *)
| LLoad (h nh : Z)                   (* p = _q[h] *)
| LSetHead (p : A) (nh : Z)          (* set_head(nh) *)
| LSleepy (p : A)                    (* _sleepiness = 0 *)
| LWakeFull (p : A) (st : setting)   (* _full_note.wake() *)
| LNotifyFull (p : A)
| LReturn (p : A)
| LFail                              (* _sleepiness >= SLEEPINESS_TRIGGER *)
| LSleep (st : setting)              (* _empty_note.sleep() *)
| LCheck                             (* size() *)
| LWake (st : setting)               (* _empty_note.wake() *)
| LNotify
| LNone                              (* return 0 *).
Definition puller_step (pl : puller) (s : shared) : res (puller * shared * list qtrace) :=
  match pl with
  | LIdle => Ok (LIdle, s, [])
  | LHead => Ok (LTail (s_head s), s, [])
  | LTail h => Ok (if negb (h =? s_tail s) then LLoad h (next_i c h) else LFail, s, [])
  | LLoad h nh => p ← ring_load h s; Ok (LSetHead p nh, s, [])
  | LSetHead p nh => Ok (LSleepy p, put_head nh s, [Pulled p])
  | LSleepy p => Ok (LWakeFull p SRead, put_sleepiness 0 s, [])
  | LWakeFull p st =>
      let '(r, s) := set_step FullNote true st s in
      Ok (match r with inl st => LWakeFull p st | inr was => if was : bool then LReturn p else LNotifyFull p end, s, [])
  | LNotifyFull p => Ok (LReturn p, s, [Notified FullNote])
  | LReturn p => Ok (LIdle, s, [])
  | LFail =>
      Ok (if SLEEPINESS_TRIGGER <=? s_sleepiness s then (LSleep SRead, s, [])
          else (LNone, put_sleepiness (s_sleepiness s + 1) s, []))
  | LSleep st =>
      let '(r, s) := set_step EmptyNote false st s in
      Ok (match r with inl st => LSleep st | inr _ => if multithread then LCheck else LNone end, s, [])
  | LCheck => Ok (if negb (shared_size s =? 0) then LWake SRead else LNone, s, [])
  | LWake st =>
      let '(r, s) := set_step EmptyNote true st s in
      Ok (match r with inl st => LWake st | inr was => if was : bool then LNone else LNotify end, s, [])
  | LNotify => Ok (LNone, s, [Notified EmptyNote])
  | LNone => Ok (LIdle, s, [PulledNone])
  end.

(** ** Both at once *)
Record config : Type := Config { c_pusher : pusher; c_puller : puller; c_shared : shared; c_trace : list qtrace }.
(** Other elements change the other bits of the words. *)
Definition same_bit (mask w w' : Z) : Prop := Z.land w' mask = Z.land w mask.
Inductive race_step : config -> config -> Prop :=
| step_arrives p pl s t : race_step (Config PIdle pl s t) (Config (PHead p) pl s t)
| step_pull pu s t : race_step (Config pu LIdle s t) (Config pu LHead s t)
| step_pusher pu pl s t pu' s' e : pu <> PIdle -> pusher_step pu s = Ok (pu', s', e) ->
    race_step (Config pu pl s t) (Config pu' pl s' (t ++ e))
| step_puller pu pl s t pl' s' e : pl <> LIdle -> puller_step pl s = Ok (pl', s', e) ->
    race_step (Config pu pl s t) (Config pu pl' s' (t ++ e))
| step_others pu pl s t e f : same_bit empty_mask (s_empty_word s) e -> same_bit full_mask (s_full_word s) f ->
    race_step (Config pu pl s t) (Config pu pl (put_words e f s) t).
(** After [initialize]: [new_notifier_signal] and [configure] have made both signals active. *)
Definition race_start (e f : Z) : config :=
  Config PIdle LIdle (Shared 0 0 (ring_memory c) e f 0 0 0) [].
Definition start_words (e f : Z) : Prop := test_bits e empty_mask = true /\ test_bits f full_mask = true.
Definition reachable (cf : config) : Prop := exists e f, start_words e f /\ rtc race_step (race_start e f) cf.

Definition accepted (t : list qtrace) : list A := omap (fun e => match e with Accepted p => Some p | _ => None end) t.
Definition pulled_packets (t : list qtrace) : list A := omap (fun e => match e with Pulled p => Some p | _ => None end) t.
(** The packets from the head to the tail. *)
Definition ring_holds (s : shared) (l : list A) : Prop :=
  holds (MkQueue c (s_head s) (s_tail s) (Some (s_ring s)) (s_drops s) (s_highwater s)) l.

(** ** The invariant *)
Hypothesis capacity_ok : 0 <= c < 2147483648.
Hypothesis masks_ok : empty_mask <> 0 /\ full_mask <> 0.

Lemma set_bits_on mask w : mask <> 0 -> test_bits (set_bits mask true w) mask = true.
Proof.
  intros Hm. unfold test_bits, set_bits. rewrite Z.land_lor_distr_l, Z.land_diag. apply negb_true_iff, Z.eqb_neq.
  intros E. apply Z.lor_eq_0_iff in E as [_ E]. done.
Qed.
Lemma note_mask_ok n : note_mask n <> 0.
Proof. destruct n; apply masks_ok. Qed.
(** Reading, a swap that fails, and one that succeeds. *)
Definition same_notes (s s' : shared) : Prop := s_empty_word s' = s_empty_word s /\ s_full_word s' = s_full_word s.
Definition same_queue (s s' : shared) : Prop :=
  s_head s' = s_head s /\ s_tail s' = s_tail s /\ s_ring s' = s_ring s.
Lemma set_step_cases n on st s r s' : set_step n on st s = (r, s') ->
  same_queue s s' /\
  match r with
  | inl _ => s' = s
  | inr _ => (on = true -> note_active n s' = true) /\ forall n', n' <> n -> note_active n' s' = note_active n' s
  end.
Proof.
  unfold set_step. destruct st as [|expected]; [by intros [= <- <-]|].
  destruct (_ =? _); intros [= <- <-]; [|done]. split; [by destruct n|]. split.
  - intros ->. destruct n; apply set_bits_on, masks_ok.
  - by destruct n, n'.
Qed.

(** [h] was the head [k] packets ago. *)
Definition stale (h : Z) (l : list A) (s : shared) : Prop :=
  0 <= h <= c /\ exists k, s_head s = idx c h k /\ Z.of_nat (k + length l) <= c.
Definition pusher_ok (pu : pusher) (l : list A) (s : shared) : Prop :=
  match pu with
  | PTail _ h => stale h l s
  | PStore _ h t nt => stale h l s /\ t = s_tail s /\ nt = next_i c t /\ nt <> h
  | PSetTail p h nt =>
      stale h l s /\ nt = next_i c (s_tail s) /\ nt <> h /\ s_ring s !! Z.to_nat (s_tail s) = Some (Some p)
  | _ => True
  end.
Definition puller_ok (pl : puller) (l : list A) (s : shared) : Prop :=
  match pl with
  | LTail h => h = s_head s
  | LLoad h nh => h = s_head s /\ nh = next_i c h /\ l <> []
  | LSetHead p nh => nh = next_i c (s_head s) /\ hd_error l = Some p
  | _ => True
  end.
(** Who is about to make a signal active. *)
Definition wakes_empty (pu : pusher) (pl : puller) : bool :=
  match pu with PSize _ _ | PWake _ _ => true | _ => false end ||
  match pl with LCheck | LWake _ => true | _ => false end.
Definition wakes_full (pu : pusher) (pl : puller) : bool :=
  match pu with PCheck | PWakeFull _ => true | _ => false end ||
  match pl with LSleepy _ | LWakeFull _ _ => true | _ => false end.
Definition notes_ok (pu : pusher) (pl : puller) (l : list A) (s : shared) : Prop :=
  (l <> [] -> note_active EmptyNote s || wakes_empty pu pl = true) /\
  (Z.of_nat (length l) < c -> note_active FullNote s || wakes_full pu pl = true).
Record race_inv (cf : config) (l : list A) : Prop := RaceInv {
  ri_ring : ring_holds (c_shared cf) l;
  ri_trace : accepted (c_trace cf) = pulled_packets (c_trace cf) ++ l;
  ri_pusher : pusher_ok (c_pusher cf) l (c_shared cf);
  ri_puller : puller_ok (c_puller cf) l (c_shared cf);
  ri_notes : multithread = true -> notes_ok (c_pusher cf) (c_puller cf) l (c_shared cf)
}.

(** *** What does not touch the queue *)
Lemma ring_holds_same s s' l : same_queue s s' -> ring_holds s l -> ring_holds s' l.
Proof. unfold ring_holds. intros (Eh & Et & Er) [H1 H2 H3 H4 H5]. cbn in *. split; cbn; by rewrite ?Eh, ?Et, ?Er. Qed.
Lemma pusher_ok_same pu s s' l : same_queue s s' -> pusher_ok pu l s -> pusher_ok pu l s'.
Proof. unfold pusher_ok, stale. intros (Eh & Et & Er). destruct pu; rewrite ?Eh, ?Et, ?Er; done. Qed.
Lemma puller_ok_same pl s s' l : same_queue s s' -> puller_ok pl l s -> puller_ok pl l s'.
Proof. unfold puller_ok. intros (Eh & Et & Er). destruct pl; rewrite ?Eh, ?Et, ?Er; done. Qed.
Lemma accepted_app t e : accepted (t ++ e) = accepted t ++ accepted e.
Proof. apply omap_app. Qed.
Lemma pulled_app t e : pulled_packets (t ++ e) = pulled_packets t ++ pulled_packets e.
Proof. apply omap_app. Qed.
Lemma trace_silent t e l : accepted e = [] -> pulled_packets e = [] ->
  accepted t = pulled_packets t ++ l -> accepted (t ++ e) = pulled_packets (t ++ e) ++ l.
Proof. intros Ea Ep H. by rewrite accepted_app, pulled_app, Ea, Ep, !app_nil_r. Qed.

(** *** The tail and the head *)
Lemma stale_full h l s : ring_holds s l -> stale h l s -> next_i c (s_tail s) <> h -> Z.of_nat (length l) < c.
Proof.
  intros Hr (Hh & k & Ek & Hk) Hne. destruct (Z.eq_dec (Z.of_nat (length l)) c) as [E|]; [|pose proof (hl_length _ _ Hr); cbn in *; lia].
  exfalso. apply Hne. pose proof (holds_next_tail _ _ Hr) as Hn. cbn in Hn. rewrite Hn, Ek.
  assert (k = O) as -> by lia. rewrite idx_0 by done. unfold idx. symmetry. apply (Z.mod_unique _ _ 1); lia.
Qed.
Lemma advance_tail s l p :
  ring_holds s l -> Z.of_nat (length l) < c -> s_ring s !! Z.to_nat (s_tail s) = Some (Some p) ->
  ring_holds (put_tail (next_i c (s_tail s)) s) (l ++ [p]).
Proof.
  intros Hr Hl Hp. destruct (holds_push _ l p Hr Hl) as (q' & E & (Ec & Ed & Ew) & Eh & H).
  unfold set_slot in E. cbn [q_q q_tail opt_res mbind res_bind] in E. pose proof Hr as [_ _ _ _ (arr & Ea & _)]. cbn in Ea. injection Ea as <-.
  pose proof (lookup_lt_Some _ _ _ Hp) as Hlt. rewrite (proj2 (Nat.ltb_lt _ _) Hlt) in E. injection E as <-.
  rewrite list_insert_id in H by done. unfold ring_holds. cbn in *. exact H.
Qed.
Lemma advance_head s x l : ring_holds s (x :: l) -> ring_holds (put_head (next_i c (s_head s)) s) l.
Proof.
  intros Hr. pose proof (holds_drop _ _ 1 Hr ltac:(cbn; lia)) as H. cbn in H.
  rewrite <- next_idx, idx_0 in H by apply Hr. exact H.
Qed.

(** *** Steps that leave the queue alone *)
Lemma silent_inv pu pl s t l pu' pl' s' e :
  race_inv (Config pu pl s t) l -> same_queue s s' -> accepted e = [] -> pulled_packets e = [] ->
  pusher_ok pu' l s' -> puller_ok pl' l s' -> (multithread = true -> notes_ok pu pl l s -> notes_ok pu' pl' l s') ->
  race_inv (Config pu' pl' s' (t ++ e)) l.
Proof.
  intros [Hr Ht Hu Hl Hn] Hq Ea Ep Hu' Hl' Hn'. cbn in *. split; cbn; [by eapply ring_holds_same|by apply trace_silent|done|done|].
  intros Hm. by apply Hn', Hn.
Qed.
(** The signals when they are not touched, or made active, and nobody stops being about to wake
    one. *)
Lemma notes_keep pu pl pu' pl' l s s' :
  (note_active EmptyNote s || wakes_empty pu pl = true -> note_active EmptyNote s' || wakes_empty pu' pl' = true) ->
  (note_active FullNote s || wakes_full pu pl = true -> note_active FullNote s' || wakes_full pu' pl' = true) ->
  notes_ok pu pl l s -> notes_ok pu' pl' l s'.
Proof. intros H1 H2 [He Hf]. split; auto. Qed.
Lemma same_queue_refl s : same_queue s s.
Proof. done. Qed.
#[local] Hint Resolve same_queue_refl : core.
(** A step that keeps both signals: nobody who is about to wake one stops without doing it. *)
Ltac keep := intros _; apply notes_keep; unfold wakes_empty, wakes_full; cbn; rewrite ?orb_true_r, ?orb_false_r; try done.
Ltac silent H :=
  eexists _, _, _, _; split; [reflexivity|]; eapply silent_inv;
    [exact H|done|reflexivity|reflexivity|try done|try done|keep].

(** A step that has set a signal. *)
Lemma set_inv pu pl s t l pu' pl' s' n (on : bool) :
  race_inv (Config pu pl s t) l -> same_queue s s' ->
  (on = true -> note_active n s' = true) -> (forall n', n' <> n -> note_active n' s' = note_active n' s) ->
  pusher_ok pu' l s -> puller_ok pl' l s ->
  (note_active EmptyNote s || wakes_empty pu pl = true -> (on = true /\ n = EmptyNote) \/ wakes_empty pu' pl' = true \/
     (n <> EmptyNote /\ wakes_empty pu pl = wakes_empty pu' pl')) ->
  (note_active FullNote s || wakes_full pu pl = true -> (on = true /\ n = FullNote) \/ wakes_full pu' pl' = true \/
     (n <> FullNote /\ wakes_full pu pl = wakes_full pu' pl')) ->
  race_inv (Config pu' pl' s' (t ++ [])) l.
Proof.
  intros H Hq Hon Hoff Hu Hl He Hf. eapply silent_inv; [exact H|done..|by eapply pusher_ok_same|by eapply puller_ok_same|].
  intros _. apply notes_keep; intros Hw.
  - destruct (He Hw) as [[-> ->]|[-> |[Hne E]]]; [by rewrite Hon|by rewrite orb_true_r|]. rewrite (Hoff EmptyNote) by congruence. by rewrite <- E.
  - destruct (Hf Hw) as [[-> ->]|[-> |[Hne E]]]; [by rewrite Hon|by rewrite orb_true_r|]. rewrite (Hoff FullNote) by congruence. by rewrite <- E.
Qed.
Lemma store_tail s l p : ring_holds s l ->
  exists s', ring_store (s_tail s) p s = Ok s' /\ s_head s' = s_head s /\ s_tail s' = s_tail s /\ same_notes s s' /\
    ring_holds s' l /\ s_ring s' !! Z.to_nat (s_tail s) = Some (Some p).
Proof.
  intros Hr. destruct (holds_store _ l (length l) p Hr) as (q' & E & (Ec & Ed & Ew) & Eh & Et & H & (arr & Ea & _ & Hp)); [lia|apply (hl_length _ _ Hr)|].
  cbn [q_capacity q_head] in *. pose proof (hl_tail _ _ Hr) as Htl. cbn [q_tail q_capacity q_head] in Htl. rewrite <- Htl in *.
  unfold set_slot in E. cbn [q_q opt_res mbind res_bind] in E. unfold ring_store. destruct (_ <? _)%nat; [|done]. injection E as <-.
  eexists. split; [reflexivity|]. do 3 (split; [done|]). rewrite (list_insert_ge l (length l) p) in H by lia. split; [exact H|]. cbn in Ea. by injection Ea as <-.
Qed.
Ltac set_done := unfold wakes_empty, wakes_full; cbn; try done; try (by left); try (right; left; rewrite ?orb_true_r; done); try (right; right; done).

Lemma pusher_inv pu pl s t l : race_inv (Config pu pl s t) l ->
  exists pu' s' e l', pusher_step pu s = Ok (pu', s', e) /\ race_inv (Config pu' pl s' (t ++ e)) l'.
Proof.
  intros H. pose proof H as [Hr Ht Hu Hl Hn]. cbn [c_pusher c_puller c_shared c_trace] in *.
  destruct pu as [|p|p h|p h tl nt|p h nt|h nt|n st|n|n|st| |st| |p|p]; cbn [pusher_step].
  - silent H.
  - silent H. cbn. split; [apply (hl_head _ _ Hr)|]. exists O. rewrite idx_0 by apply (hl_head _ _ Hr). split; [done|apply (hl_length _ _ Hr)].
  - cbn in Hu. destruct (Z.eqb_spec (next_i c (s_tail s)) h); cbn [negb]; silent H.
  - destruct Hu as (Hst & -> & -> & Hne). destruct (store_tail s l p Hr) as (s' & E & Eh & Et & (Ee & Ef) & Hr' & Hp).
    rewrite E. cbn [mbind res_bind]. eexists _, _, _, l. split; [reflexivity|].
    split; cbn [c_pusher c_puller c_shared c_trace]; [done|by rewrite app_nil_r| | |].
    + unfold pusher_ok, stale. by rewrite Eh, Et.
    + destruct pl; cbn in *; rewrite ?Eh; done.
    + intros Hm. destruct (Hn Hm) as [He Hf]. unfold notes_ok, note_active, note_word in *. by rewrite Ee, Ef.
  - destruct Hu as (Hst & -> & Hne & Hp). pose proof (stale_full h l s Hr Hst Hne) as Hlen. eexists _, _, _, (l ++ [p]). split; [reflexivity|].
    split; cbn [c_pusher c_puller c_shared c_trace]; [by apply advance_tail| |done| |].
    + rewrite accepted_app, pulled_app, Ht. cbn. by rewrite app_nil_r, app_assoc.
    + destruct pl; cbn in *; try done.
      * destruct Hl as (? & ? & ?). split_and!; [done..|]. by destruct l.
      * destruct l; [by destruct Hl|done].
    + intros Hm. destruct (Hn Hm) as [He Hf]. split; [intros _; cbn; by rewrite orb_true_r|]. rewrite length_app. cbn [length]. intros Hl'.
      apply Hf. lia.
  - destruct (s_highwater s <? storage_size c h nt); silent H.
  - destruct (set_step EmptyNote true st s) as [r s1] eqn:E. pose proof (set_step_cases _ _ _ _ _ _ E) as (Hq & Hr').
    destruct r as [st'|was]; [subst s1; silent H|]. destruct Hr' as [Hon Hoff]. eexists _, _, _, l. split; [reflexivity|].
    apply (set_inv _ _ _ _ _ _ _ _ EmptyNote true H); try done; [by destruct was|by left|destruct was; set_done].
  - silent H.
  - destruct (n =? s32 c); silent H.
  - destruct (set_step FullNote false st s) as [r s1] eqn:E. pose proof (set_step_cases _ _ _ _ _ _ E) as (Hq & Hr').
    destruct r as [st'|was]; [subst s1; silent H|]. destruct Hr' as [Hon Hoff]. eexists _, _, _, l. split; [reflexivity|].
    destruct multithread eqn:Em.
    + apply (set_inv _ _ _ _ _ _ _ _ FullNote false H); set_done.
    + split; cbn; [by eapply ring_holds_same|by rewrite app_nil_r|done|by eapply puller_ok_same|by rewrite Em].
  - pose proof (holds_size _ _ Hr) as Hsize. unfold q_size in Hsize. cbn in Hsize.
    assert (Es : s32 c = c) by (unfold s32; rewrite Z.mod_small; lia). unfold shared_size. rewrite Hsize, Es.
    destruct (Z.ltb_spec (Z.of_nat (length l)) c); [silent H|]. eexists _, _, _, l. split; [reflexivity|].
    eapply silent_inv; [exact H|done..|]. intros _ [He Hf]. split; [exact He|lia].
  - destruct (set_step FullNote true st s) as [r s1] eqn:E. pose proof (set_step_cases _ _ _ _ _ _ E) as (Hq & Hr').
    destruct r as [st'|was]; [subst s1; silent H|]. destruct Hr' as [Hon Hoff]. eexists _, _, _, l. split; [reflexivity|].
    apply (set_inv _ _ _ _ _ _ _ _ FullNote true H); try done; [by destruct was|destruct was; set_done|by left].
  - silent H.
  - silent H.
  - silent H.
Qed.
Lemma puller_inv pu pl s t l : race_inv (Config pu pl s t) l ->
  exists pl' s' e l', puller_step pl s = Ok (pl', s', e) /\ race_inv (Config pu pl' s' (t ++ e)) l'.
Proof.
  intros H. pose proof H as [Hr Ht Hu Hl Hn]. cbn [c_pusher c_puller c_shared c_trace] in *.
  pose proof (holds_size _ _ Hr) as Hsize. unfold q_size in Hsize. cbn in Hsize.
  destruct pl as [| |h|h nh|p nh|p|p st|p|p| |st| |st| |]; cbn [puller_step].
  - silent H.
  - silent H.
  - cbn in Hl. subst h. pose proof (holds_empty _ _ Hr) as He. cbn in He. rewrite He.
    destruct l as [|x l]; cbn [length Nat.eqb negb]; silent H.
  - destruct Hl as (-> & -> & Hne). destruct l as [|x l]; [done|]. pose proof (holds_get _ _ 0 x Hr eq_refl) as Hg.
    cbn [q_capacity q_head] in Hg. rewrite idx_0 in Hg by apply (hl_head _ _ Hr). unfold get_slot in Hg. cbn [q_q opt_res mbind res_bind] in Hg.
    unfold ring_load. rewrite Hg. cbn [mbind res_bind]. silent H.
  - destruct Hl as (-> & Hhd). destruct l as [|x l]; [done|]. injection Hhd as ->. eexists _, _, _, l. split; [reflexivity|].
    split; cbn [c_pusher c_puller c_shared c_trace]; [by eapply advance_head| | |done|].
    + rewrite accepted_app, pulled_app, Ht. cbn. by rewrite app_nil_r, <- app_assoc.
    + assert (Hst : forall h, stale h (p :: l) s -> stale h l (put_head (next_i c (s_head s)) s)).
      { intros h (Hh & k & Ek & Hk). split; [done|]. exists (S k). cbn in *. rewrite Ek, next_idx by done. split; [done|lia]. }
      destruct pu; cbn in Hu |- *; try done; [by apply Hst|by destruct Hu as (?%Hst & ?)|by destruct Hu as (?%Hst & ?)].
    + intros Hm. destruct (Hn Hm) as [He _]. split; [|intros _; unfold wakes_full; by rewrite !orb_true_r]. intros _.
      specialize (He ltac:(done)). revert He. unfold wakes_empty. cbn. done.
  - silent H.
  - destruct (set_step FullNote true st s) as [r s1] eqn:E. pose proof (set_step_cases _ _ _ _ _ _ E) as (Hq & Hr').
    destruct r as [st'|was]; [subst s1; silent H|]. destruct Hr' as [Hon Hoff]. eexists _, _, _, l. split; [reflexivity|].
    apply (set_inv _ _ _ _ _ _ _ _ FullNote true H); try done; [by destruct was|destruct was; set_done|by left].
  - silent H.
  - silent H.
  - destruct (SLEEPINESS_TRIGGER <=? s_sleepiness s); silent H.
  - destruct (set_step EmptyNote false st s) as [r s1] eqn:E. pose proof (set_step_cases _ _ _ _ _ _ E) as (Hq & Hr').
    destruct r as [st'|was]; [subst s1; silent H|]. destruct Hr' as [Hon Hoff]. eexists _, _, _, l. split; [reflexivity|].
    destruct multithread eqn:Em.
    + apply (set_inv _ _ _ _ _ _ _ _ EmptyNote false H); set_done.
    + split; cbn; [by eapply ring_holds_same|by rewrite app_nil_r|by eapply pusher_ok_same|done|by rewrite Em].
  - unfold shared_size. rewrite Hsize. destruct l as [|x l].
    + cbn. eexists _, _, _, []. split; [reflexivity|]. eapply silent_inv; [exact H|done..|]. intros _ [_ Hf]. split; [done|exact Hf].
    + rewrite (proj2 (Z.eqb_neq _ _)) by (cbn; lia). silent H.
  - destruct (set_step EmptyNote true st s) as [r s1] eqn:E. pose proof (set_step_cases _ _ _ _ _ _ E) as (Hq & Hr').
    destruct r as [st'|was]; [subst s1; silent H|]. destruct Hr' as [Hon Hoff]. eexists _, _, _, l. split; [reflexivity|].
    apply (set_inv _ _ _ _ _ _ _ _ EmptyNote true H); try done; [by destruct was|by left|destruct was; set_done].
  - silent H.
  - silent H.
Qed.

Lemma start_inv e f : start_words e f -> race_inv (race_start e f) [].
Proof.
  intros [He Hf]. split; cbn; [|done|done|done|].
  - unfold ring_holds. cbn. split; cbn; [done|lia|lia|by rewrite idx_0 by lia|]. eexists. split; [done|].
    split; [|by intros [] ?]. unfold ring_memory. by rewrite length_replicate, u32_small by lia.
  - intros _. split; [done|]. intros _. unfold note_active. cbn. by rewrite Hf.
Qed.
Lemma step_inv cf cf' l : race_step cf cf' -> race_inv cf l -> exists l', race_inv cf' l'.
Proof.
  intros Hs H. destruct Hs as [p pl s t|pu s t|pu pl s t pu' s' e _ E|pu pl s t pl' s' e _ E|pu pl s t e f He Hf].
  - exists l. rewrite <- (app_nil_r t). eapply silent_inv; [exact H|done..|apply H|]. intros _. apply notes_keep; done.
  - exists l. rewrite <- (app_nil_r t). eapply silent_inv; [exact H|done..|apply H|done|]. intros _. apply notes_keep; done.
  - destruct (pusher_inv _ _ _ _ _ H) as (pu1 & s1 & e1 & l' & E1 & H1). rewrite E in E1. injection E1 as <- <- <-. by exists l'.
  - destruct (puller_inv _ _ _ _ _ H) as (pl1 & s1 & e1 & l' & E1 & H1). rewrite E in E1. injection E1 as <- <- <-. by exists l'.
  - exists l. rewrite <- (app_nil_r t). eapply silent_inv; [exact H|done|done|done|eapply pusher_ok_same; [|apply H]; done|
      eapply puller_ok_same; [|apply H]; done|].
    intros _. unfold same_bit in *. apply notes_keep; unfold note_active, test_bits; cbn; by rewrite ?He, ?Hf.
Qed.
Lemma reachable_inv cf : reachable cf -> exists l, race_inv cf l.
Proof.
  intros (e & f & Hw & Hrtc). assert (Hi : exists l, race_inv (race_start e f) l) by (exists []; by apply start_inv).
  induction Hrtc as [|x y z Hs _ IH]; [done|]. apply IH. destruct Hi as (l & Hl). by eapply step_inv.
Qed.

(** ** What the threads can rely on *)
(** Neither thread goes wrong, and the ring holds what was accepted and not pulled. *)
Lemma race_fifo cf : reachable cf ->
  (exists r, pusher_step (c_pusher cf) (c_shared cf) = Ok r) /\ (exists r, puller_step (c_puller cf) (c_shared cf) = Ok r) /\
  exists l, ring_holds (c_shared cf) l /\ Z.of_nat (length l) <= c /\ accepted (c_trace cf) = pulled_packets (c_trace cf) ++ l.
Proof.
  intros (l & H)%reachable_inv. destruct cf as [pu pl s t]. destruct (pusher_inv _ _ _ _ _ H) as (? & ? & ? & _ & E & _).
  destruct (puller_inv _ _ _ _ _ H) as (? & ? & ? & _ & E' & _). split; [by eexists|]. split; [by eexists|]. exists l.
  split; [apply H|]. split; [apply (hl_length _ _ (ri_ring _ _ H))|apply H].
Qed.
(** Between operations the signals tell what is in the queue. *)
Lemma race_notes cf l : multithread = true -> reachable cf -> c_pusher cf = PIdle -> c_puller cf = LIdle ->
  ring_holds (c_shared cf) l ->
  (l <> [] -> note_active EmptyNote (c_shared cf) = true) /\
  (Z.of_nat (length l) < c -> note_active FullNote (c_shared cf) = true).
Proof.
  intros Hm (l' & H)%reachable_inv Hpu Hpl Hl. destruct (ri_notes _ _ H Hm) as [He Hf]. rewrite Hpu, Hpl in *.
  assert (Hlen : length l' = length l).
  { pose proof (holds_size _ _ (ri_ring _ _ H)) as E1. pose proof (holds_size _ _ Hl) as E2. unfold q_size in *. cbn in *. lia. }
  unfold wakes_empty, wakes_full in *. rewrite !orb_false_r in *. split.
  - intros Hne. apply He. intros ->. by destruct l.
  - intros Hlt. apply Hf. by rewrite Hlen.
Qed.

(** C40: a [Queue] between a thread that pushes and one that pulls is a FIFO that loses no
    wakeup.  Whatever the order of their steps and of the changes others make to other bits of
    the signals' words, neither thread goes wrong, and the packets accepted so far are, in
    order, those pulled and those in the ring, which are never more than the capacity.  In a
    multithreaded build, whenever neither thread is in the middle of an operation, the empty
    note is active if there are packets, and the full note if there is room: nobody sleeps who
    has something to do. *)
Theorem Queue_race_safe cf : reachable cf ->
  (exists r, pusher_step (c_pusher cf) (c_shared cf) = Ok r) /\ (exists r, puller_step (c_puller cf) (c_shared cf) = Ok r) /\
  exists l, ring_holds (c_shared cf) l /\ Z.of_nat (length l) <= c /\ accepted (c_trace cf) = pulled_packets (c_trace cf) ++ l /\
    (multithread = true -> c_pusher cf = PIdle -> c_puller cf = LIdle ->
     (l <> [] -> note_active EmptyNote (c_shared cf) = true) /\
     (Z.of_nat (length l) < c -> note_active FullNote (c_shared cf) = true)).
Proof.
  intros H. destruct (race_fifo cf H) as (H1 & H2 & l & Hl & Hc & Ht). split; [done|]. split; [done|].
  exists l. split_and!; try done. intros Hm Hpu Hpl. by apply race_notes.
Qed.

(** *** Nobody waits for the other thread *)
Fixpoint push_steps (n : nat) (pu : pusher) (s : shared) : res (pusher * shared) :=
  match n with O => Ok (pu, s) | S n => '(pu, s, _) ← pusher_step pu s; push_steps n pu s end.
Fixpoint pull_steps (n : nat) (pl : puller) (s : shared) : res (puller * shared) :=
  match n with O => Ok (pl, s) | S n => '(pl, s, _) ← puller_step pl s; pull_steps n pl s end.
(** An upper bound for what is left of an operation that is not disturbed. *)
Definition swaps_left (n : note) (st : setting) (s : shared) : nat :=
  match st with SRead => 2 | SSwap e => if note_word n s =? e then 1 else 2 end.
Definition push_left (pu : pusher) (s : shared) : nat :=
  match pu with
  | PIdle => 0
  | PHead _ => 16 | PTail _ _ => 15 | PStore _ _ _ _ => 14 | PSetTail _ _ _ => 13 | PSize _ _ => 12
  | PWake _ st => 9 + swaps_left EmptyNote st s | PNotify _ => 9 | PFull _ => 8
  | PSleep st => 5 + swaps_left FullNote st s | PCheck => 4
  | PWakeFull st => 1 + swaps_left FullNote st s | PNotifyFull => 1
  | PFail _ => 2 | PDrop _ => 1
  end.
Definition pull_left (pl : puller) (s : shared) : nat :=
  match pl with
  | LIdle => 0
  | LHead => 11 | LTail _ => 10 | LLoad _ _ => 8 | LSetHead _ _ => 7 | LSleepy _ => 6
  | LWakeFull _ st => 2 + swaps_left FullNote st s | LNotifyFull _ => 2 | LReturn _ => 1
  | LFail => 9 | LSleep st => 6 + swaps_left EmptyNote st s | LCheck => 5
  | LWake st => 2 + swaps_left EmptyNote st s | LNotify => 2 | LNone => 1
  end.
Lemma swaps_left_2 n st s : (1 <= swaps_left n st s <= 2)%nat.
Proof. unfold swaps_left. destruct st; [lia|]. destruct (_ =? _); lia. Qed.
Lemma set_step_left n on st s st' s' : set_step n on st s = (inl st', s') -> (swaps_left n st' s' < swaps_left n st s)%nat.
Proof.
  unfold set_step, swaps_left. destruct st as [|e]; [|destruct (note_word n s =? e)]; intros [= <- <-]; rewrite Z.eqb_refl; lia.
Qed.
Lemma pusher_step_left pu s pu' s' e : pusher_step pu s = Ok (pu', s', e) -> pu <> PIdle -> (push_left pu' s' < push_left pu s)%nat.
Proof.
  destruct pu as [|p|p h|p h tl nt|p h nt|h nt|n st|n|n|st| |st| |p|p]; cbn [pusher_step]; intros H Hne; try done.
  - injection H as <- <- <-. cbn. lia.
  - injection H as <- <- <-. destruct (negb _); cbn; lia.
  - apply res_bind_ok in H as (s1 & _ & [= <- <- <-]). cbn. lia.
  - injection H as <- <- <-. cbn. lia.
  - injection H as <- <- <-. cbn. lia.
  - destruct (set_step EmptyNote true st s) as [[st'|[]] s1] eqn:E; injection H as <- <- <-; cbn [push_left].
    + apply set_step_left in E. lia.
    + pose proof (swaps_left_2 EmptyNote st s). lia.
    + pose proof (swaps_left_2 EmptyNote st s). lia.
  - injection H as <- <- <-. cbn. lia.
  - injection H as <- <- <-. destruct (n =? s32 c); cbn; lia.
  - destruct (set_step FullNote false st s) as [[st'|was] s1] eqn:E; injection H as <- <- <-; cbn [push_left].
    + apply set_step_left in E. lia.
    + pose proof (swaps_left_2 FullNote st s). destruct multithread; cbn [push_left]; lia.
  - injection H as <- <- <-. destruct (_ <? _); cbn; lia.
  - destruct (set_step FullNote true st s) as [[st'|[]] s1] eqn:E; injection H as <- <- <-; cbn [push_left].
    + apply set_step_left in E. lia.
    + lia.
    + pose proof (swaps_left_2 FullNote st s). lia.
  - injection H as <- <- <-. cbn. lia.
  - injection H as <- <- <-. cbn. lia.
  - injection H as <- <- <-. cbn. lia.
Qed.
Lemma puller_step_left pl s pl' s' e : puller_step pl s = Ok (pl', s', e) -> pl <> LIdle -> (pull_left pl' s' < pull_left pl s)%nat.
Proof.
  destruct pl as [| |h|h nh|p nh|p|p st|p|p| |st| |st| |]; cbn [puller_step]; intros H Hne; try done.
  - injection H as <- <- <-. cbn. lia.
  - injection H as <- <- <-. destruct (negb _); cbn; lia.
  - apply res_bind_ok in H as (p & _ & [= <- <- <-]). cbn. lia.
  - injection H as <- <- <-. cbn. lia.
  - injection H as <- <- <-. cbn. lia.
  - destruct (set_step FullNote true st s) as [[st'|[]] s1] eqn:E; injection H as <- <- <-; cbn [pull_left].
    + apply set_step_left in E. lia.
    + lia.
    + pose proof (swaps_left_2 FullNote st s). lia.
  - injection H as <- <- <-. cbn. lia.
  - injection H as <- <- <-. cbn. lia.
  - destruct (SLEEPINESS_TRIGGER <=? _); injection H as <- <- <-; cbn; lia.
  - destruct (set_step EmptyNote false st s) as [[st'|was] s1] eqn:E; injection H as <- <- <-; cbn [pull_left].
    + apply set_step_left in E. lia.
    + pose proof (swaps_left_2 EmptyNote st s). destruct multithread; cbn [pull_left]; lia.
  - injection H as <- <- <-. destruct (negb _); cbn; lia.
  - destruct (set_step EmptyNote true st s) as [[st'|[]] s1] eqn:E; injection H as <- <- <-; cbn [pull_left].
    + apply set_step_left in E. lia.
    + lia.
    + pose proof (swaps_left_2 EmptyNote st s). lia.
  - injection H as <- <- <-. cbn. lia.
  - injection H as <- <- <-. cbn. lia.
Qed.
(** a thread never waits for the other: from every reachable configuration, a push ends
    within 16 of its own steps, and a pull within 11, if the other thread stands still, wherever
    that is. *)
Theorem Queue_obstruction_free cf : reachable cf ->
  (exists s, push_steps 16 (c_pusher cf) (c_shared cf) = Ok (PIdle, s)) /\
  (exists s, pull_steps 11 (c_puller cf) (c_shared cf) = Ok (LIdle, s)).
Proof.
  intros (l & H)%reachable_inv. destruct cf as [pu pl s t]. cbn [c_pusher c_puller c_shared]. split.
  - assert (Hle : (push_left pu s <= 16)%nat).
    { pose proof (swaps_left_2 EmptyNote). pose proof (swaps_left_2 FullNote).
      destruct pu as [| | | | | |n st| | |st| |st| | |]; cbn [push_left]; try lia;
        match goal with |- context [swaps_left ?n st s] => pose proof (swaps_left_2 n st s) end; lia. }
    revert Hle. generalize 16%nat as n. intros n. revert pu s t l H. induction n as [|n IH]; intros pu s t l H Hle.
    + exists s. destruct pu; cbn in Hle; try lia; try done; pose proof (swaps_left_2 EmptyNote); lia.
    + destruct (pusher_inv _ _ _ _ _ H) as (pu' & s' & e & l' & E & H'). cbn [push_steps]. rewrite E. cbn [mbind res_bind].
      apply (IH _ _ _ _ H'). destruct pu; [injection E as <- <- <-; cbn; lia|..]; apply pusher_step_left in E; try done; lia.
  - assert (Hle : (pull_left pl s <= 11)%nat).
    { destruct pl as [| | | | | |p st| | | |st| |st| |]; cbn [pull_left]; try lia;
        match goal with |- context [swaps_left ?n st s] => pose proof (swaps_left_2 n st s) end; lia. }
    revert Hle. generalize 11%nat as n. intros n. revert pl s t l H. induction n as [|n IH]; intros pl s t l H Hle.
    + exists s. destruct pl; cbn in Hle; try lia; done.
    + destruct (puller_inv _ _ _ _ _ H) as (pl' & s' & e & l' & E & H'). cbn [pull_steps]. rewrite E. cbn [mbind res_bind].
      apply (IH _ _ _ _ H'). destruct pl; [injection E as <- <- <-; cbn; lia|..]; apply puller_step_left in E; try done; lia.
Qed.
End QueueRace.

(** ** Schedules *)
Inductive move (A : Type) : Type := MArrive (p : A) | MPush | MCall | MPull.
Arguments MArrive {A} p.
Arguments MPush {A}.
Arguments MCall {A}.
Arguments MPull {A}.
(** A schedule's steps; [None] where a step cannot be made. *)
Definition move_step {A} (c em fm : Z) (mt : bool) (m : move A) (cf : config (A := A)) : option config :=
  let '(Config pu pl s t) := cf in
  match m, pu, pl with
  | MArrive p, PIdle, _ => Some (Config (PHead p) pl s t)
  | MArrive _, _, _ => None
  | MCall, _, LIdle => Some (Config pu LHead s t)
  | MCall, _, _ => None
  | MPush, PIdle, _ => None
  | MPush, _, _ => match pusher_step c em fm mt pu s with Ok (pu, s, e) => Some (Config pu pl s (t ++ e)) | Fault _ => None end
  | MPull, _, LIdle => None
  | MPull, _, _ => match puller_step c em fm mt pl s with Ok (pl, s, e) => Some (Config pu pl s (t ++ e)) | Fault _ => None end
  end.
Fixpoint run_moves {A} (c em fm : Z) (mt : bool) (ms : list (move A)) (cf : config (A := A)) : option config :=
  match ms with [] => Some cf | m :: ms => cf ← move_step c em fm mt m cf; run_moves c em fm mt ms cf end.
Lemma run_moves_steps {A} c em fm mt (ms : list (move A)) cf cf' :
  run_moves c em fm mt ms cf = Some cf' -> rtc (race_step c em fm mt) cf cf'.
Proof.
  revert cf. induction ms as [|m ms IH]; intros [pu pl s t]; cbn [run_moves]; [by intros [= <-]|].
  destruct (move_step c em fm mt m (Config pu pl s t)) as [cf1|] eqn:E; [|done]. cbn [mbind option_bind]. intros H. eapply rtc_l; [|by apply IH].
  unfold move_step in E. destruct m as [p| | |].
  - destruct pu; try done. injection E as <-. constructor.
  - assert (pu <> PIdle) by (by intros ->). assert (E' : match pusher_step c em fm mt pu s with Ok (pu, s, e) => Some (Config pu pl s (t ++ e)) | Fault _ => None end = Some cf1) by (by destruct pu).
    destruct (pusher_step c em fm mt pu s) as [[[pu' s'] e]|] eqn:Ep; [|done]. injection E' as <-. by constructor.
  - destruct pl; try done. injection E as <-. constructor.
  - assert (pl <> LIdle) by (intros ->; by destruct pu). assert (E' : match puller_step c em fm mt pl s with Ok (pl, s, e) => Some (Config pu pl s (t ++ e)) | Fault _ => None end = Some cf1) by (by destruct pu, pl).
    destruct (puller_step c em fm mt pl s) as [[[pl' s'] e]|] eqn:Ep; [|done]. injection E' as <-. by constructor.
Qed.
(** Nine pulls find the queue empty; the tenth is about to put the note to sleep when a packet
    is pushed. *)
Definition late_push : list (move nat) :=
  concat (replicate 9 [MCall; MPull; MPull; MPull; MPull]) ++ [MCall; MPull; MPull; MPull; MPull] ++
  MArrive 7%nat :: replicate 8 MPush ++ [MPull; MPull].
Definition late_config (mt : bool) : config :=
  default (race_start 2 1 1) (run_moves 2 1 1 mt (late_push ++ if mt then replicate 4 MPull else []) (race_start 2 1 1)).
Lemma late_reachable mt : reachable 2 1 1 mt (late_config mt).
Proof.
  exists 1, 1. split; [done|]. apply (run_moves_steps _ _ _ _ (late_push ++ if mt then replicate 4 MPull else [])).
  destruct mt; vm_compute; reflexivity.
Qed.
Lemma late_ring mt : ring_holds 2 (c_shared (late_config mt)) [7%nat].
Proof.
  destruct mt.
  all: split; [done|done|done|vm_compute; reflexivity|]; eexists; split; [vm_compute; reflexivity|]; split; [done|].
  all: intros [|[|k]] x Hx; [injection Hx as <-; vm_compute; reflexivity|discriminate Hx|discriminate Hx].
Qed.
Example Queue_race_safe_witness :
  exists l, ring_holds 2 (c_shared (late_config true)) l /\ Z.of_nat (length l) <= 2 /\
    accepted (c_trace (late_config true)) = pulled_packets (c_trace (late_config true)) ++ l /\
    (l <> [] -> note_active 1 1 EmptyNote (c_shared (late_config true)) = true).
Proof.
  destruct (Queue_race_safe 2 1 1 true ltac:(done) ltac:(done) (late_config true) (late_reachable true))
    as (_ & _ & l & Hl & Hc & Ht & Hn).
  exists l. split; [exact Hl|]. split; [exact Hc|]. split; [exact Ht|].
  apply Hn; vm_compute; reflexivity.
Defined.
Example Queue_obstruction_free_witness :
  (exists s, push_steps 2 1 1 true 16 (c_pusher (late_config true)) (c_shared (late_config true)) = Ok (PIdle, s)) /\
  (exists s, pull_steps 2 1 1 true 11 (c_puller (late_config true)) (c_shared (late_config true)) = Ok (LIdle, s)).
Proof. apply (Queue_obstruction_free 2 1 1 true); [done|done|apply late_reachable]. Defined.
(** Without the second look at the queue, the packet stays and the note is asleep: the listeners
    are not told of it. *)
Theorem wakeup_lost_without_check :
  reachable 2 1 1 false (late_config false) /\ c_pusher (late_config false) = PIdle /\ c_puller (late_config false) = LIdle /\
  ring_holds 2 (c_shared (late_config false)) [7%nat] /\ note_active 1 1 EmptyNote (c_shared (late_config false)) = false.
Proof. split; [apply late_reachable|]. split; [vm_compute; reflexivity|]. split; [vm_compute; reflexivity|]. split; [apply late_ring|vm_compute; reflexivity]. Qed.
