(* ===== verification/HashMap.v ===== *)
(** * [HashMap<K, T *>]: [include/click/hashmap.hh] and [hashmap.cc]

    The chained hash table behind [MNInfo::_advertisements] (the [HashMap<K, void *>]
    specialisation, to which [HashMap<K, T *>] forwards): buckets are chains, an insertion goes
    to the head of its chain, and the table doubles when it holds twice as many elements as
    buckets.  The table refines a finite map; [AssocMap] is the interface the elements use. *)
From Stdlib Require Import ZArith Lia.
From stdpp Require Import base list numbers option gmap fin_maps.
From S2P Require Import Prelude.

(** ** The interface the elements program against *)

(** Operations on a map from addresses to values.  [am_wf] is the representation invariant. *)
Class AssocMap (V M : Type) : Type := {
  am_find : Z -> M -> option V;          (* [find_pair(k)], null or the pair's value *)
  am_insert : Z -> V -> M -> M;
  am_erase : Z -> M -> M;
  am_size : M -> nat;
  am_elems : M -> list (Z * V);          (* what iterating from [begin()] visits *)
  am_wf : M -> Prop
}.

(** What an implementation promises. *)
Class AssocMapLaws (V M : Type) `{AssocMap V M} : Prop := {
  am_wf_insert k v m : am_wf m -> am_wf (am_insert k v m);
  am_wf_erase k m : am_wf m -> am_wf (am_erase k m);
  am_find_insert k v m : am_wf m -> am_find k (am_insert k v m) = Some v;
  am_find_insert_ne k k' v m : am_wf m -> k <> k' -> am_find k' (am_insert k v m) = am_find k' m;
  am_find_erase k m : am_wf m -> am_find k (am_erase k m) = None;
  am_find_erase_ne k k' m : am_wf m -> k <> k' -> am_find k' (am_erase k m) = am_find k' m;
  am_size_elems m : am_wf m -> am_size m = length (am_elems m);
  am_elems_find m k v : am_wf m -> (k, v) ∈ am_elems m <-> am_find k m = Some v
}.

Section AssocMap.
Context {V M : Type} `{AssocMap V M}.

Definition am_empty (m : M) : bool := (am_size m =? 0)%nat.
(** [begin().pair()], null at [end()]. *)
Definition am_begin (m : M) : option (Z * V) := head (am_elems m).

Context `{!AssocMapLaws V M}.

Lemma am_begin_find m k v : am_wf m -> am_begin m = Some (k, v) -> am_find k m = Some v.
Proof.
  unfold am_begin. intros Hwf Hb. apply am_elems_find; [done|].
  destruct (am_elems m); [done|]. injection Hb as ->. by constructor.
Qed.
Lemma am_empty_spec m : am_wf m -> am_empty m = true <-> forall k, am_find k m = None.
Proof.
  intros Hwf. unfold am_empty. rewrite Nat.eqb_eq, am_size_elems by done.
  rewrite length_zero_iff_nil. split.
  - intros E k. destruct (am_find k m) eqn:F; [|done]. apply am_elems_find in F; [|done].
    rewrite E in F. by apply elem_of_nil in F.
  - intros Hf. destruct (am_elems m) as [|[k v] l] eqn:E; [done|].
    assert (F : am_find k m = Some v) by (apply am_elems_find; [done|]; rewrite E; by constructor).
    by rewrite Hf in F.
Qed.
End AssocMap.

(** ** The table *)
Record hashmap (K V : Type) : Type := HashMap {
  hm_buckets : list (list (K * V)); hm_n : nat; hm_capacity : Z
}.
Arguments HashMap {K V} _ _ _.
Arguments hm_buckets {K V} _.
Arguments hm_n {K V} _.
Arguments hm_capacity {K V} _.

Definition MAX_NBUCKETS : nat := Z.to_nat 32767.
Definition DEFAULT_INITIAL_NBUCKETS : nat := 127.
Definition DEFAULT_RESIZE_THRESHOLD : nat := 2.

(** ** Chains *)
Section Chain.
Context {K V : Type} `{EqDecision K}.

Fixpoint chain_find (k : K) (l : list (K * V)) : option (K * V) :=
  match l with
  | [] => None
  | e :: l' => if decide (fst e = k) then Some e else chain_find k l'
  end.
(** [e->value = value] at the first element whose key matches *)
Fixpoint chain_set (k : K) (v : V) (l : list (K * V)) : list (K * V) :=
  match l with
  | [] => []
  | e :: l' => if decide (fst e = k) then (fst e, v) :: l' else e :: chain_set k v l'
  end.
Fixpoint chain_unlink (k : K) (l : list (K * V)) : list (K * V) :=
  match l with
  | [] => []
  | e :: l' => if decide (fst e = k) then l' else e :: chain_unlink k l'
  end.
End Chain.

Section HashMap.
Context {K V : Type} `{EqDecision K} (hashcode : K -> Z).
Implicit Types m : hashmap K V.

Definition hm_nbuckets m : nat := length (hm_buckets m).
Definition hm_elems m : list (K * V) := concat (hm_buckets m).
Definition bucket_of (nb : nat) (k : K) : nat := Z.to_nat (hashcode k mod Z.of_nat nb).
Definition hm_bucket m (k : K) : nat := bucket_of (hm_nbuckets m) k.

(** [set_dynamic_resizing(on)]: the capacity for [nb] buckets. *)
Definition hm_resizing_capacity (on : bool) (nb : nat) : Z :=
  if negb on then 2147483647
  else if (MAX_NBUCKETS <=? nb)%nat then 2147483646
  else Z.of_nat (DEFAULT_RESIZE_THRESHOLD * nb).
Definition hm_set_dynamic_resizing (on : bool) m : hashmap K V :=
  HashMap (hm_buckets m) (hm_n m) (hm_resizing_capacity on (hm_nbuckets m)).
Definition hm_dynamic_resizing m : bool := hm_capacity m <? 2147483647.

(** [initialize(factory, initial_nbuckets)] *)
Definition hm_initialize (initial_nbuckets : nat) : hashmap K V :=
  HashMap (replicate initial_nbuckets []) 0 (hm_resizing_capacity true initial_nbuckets).
Definition hm_new : hashmap K V := hm_initialize DEFAULT_INITIAL_NBUCKETS.

Definition hm_size m : nat := hm_n m.
Definition hm_empty m : bool := (hm_n m =? 0)%nat.

Definition hm_find_pair (k : K) m : option (K * V) :=
  chain_find k (default [] (hm_buckets m !! hm_bucket m k)).
Definition hm_find (k : K) (default_value : option V) m : option V :=
  match hm_find_pair k m with Some p => Some (snd p) | None => default_value end.

(** [resize0]: every element moves to the head of its new chain. *)
Definition hm_rehash (nb : nat) (l : list (K * V)) (bs : list (list (K * V)))
  : list (list (K * V)) :=
  fold_left (fun bs e => alter (cons e) (bucket_of nb (fst e)) bs) l bs.
Definition hm_resize0 (new_nbuckets : nat) m : hashmap K V :=
  HashMap (hm_rehash new_nbuckets (hm_elems m) (replicate new_nbuckets []))
    (hm_n m)
    (if hm_dynamic_resizing m then hm_resizing_capacity true new_nbuckets
     else hm_capacity m).

(** The [while] loop of [resize]: [1, 3, 7, ..., 32767]; 15 rounds reach [MAX_NBUCKETS]. *)
Fixpoint hm_grow (fuel : nat) (want nb : nat) : nat :=
  match fuel with
  | O => nb
  | S fuel' =>
      if (nb <? want)%nat && (nb <? MAX_NBUCKETS)%nat then hm_grow fuel' want ((nb + 1) * 2 - 1)%nat
      else nb
  end.
Definition hm_resize (want_nbuckets : nat) m : hashmap K V :=
  let new_nbuckets := hm_grow 15 want_nbuckets 1 in
  if (hm_nbuckets m =? new_nbuckets)%nat then m else hm_resize0 new_nbuckets m.

Definition hm_make_room m : hashmap K V :=
  if hm_capacity m <=? Z.of_nat (hm_n m) then hm_resize (hm_nbuckets m + 1) m else m.
Definition hm_link (k : K) (v : V) m : hashmap K V :=
  HashMap (alter (cons (k, v)) (hm_bucket m k) (hm_buckets m)) (S (hm_n m)) (hm_capacity m).

(** [insert]; [mem] tells whether [_arena->alloc()] succeeds. *)
Definition hm_insert (mem : bool) (k : K) (v : V) m : hashmap K V * bool :=
  match hm_find_pair k m with
  | Some _ =>
      (HashMap (alter (chain_set k v) (hm_bucket m k) (hm_buckets m)) (hm_n m) (hm_capacity m),
       false)
  | None => let m := hm_make_room m in (if mem then hm_link k v m else m, true)
  end.

Definition hm_find_pair_force (mem : bool) (k : K) (default_value : V) m
  : hashmap K V * option (K * V) :=
  match hm_find_pair k m with
  | Some e => (m, Some e)
  | None =>
      let m := hm_make_room m in
      if mem then (hm_link k default_value m, Some (k, default_value)) else (m, None)
  end.

Definition hm_erase (k : K) m : hashmap K V * bool :=
  match hm_find_pair k m with
  | Some _ =>
      (HashMap (alter (chain_unlink k) (hm_bucket m k) (hm_buckets m)) (hm_n m - 1)
         (hm_capacity m), true)
  | None => (m, false)
  end.

Definition hm_clear m : hashmap K V :=
  HashMap (replicate (hm_nbuckets m) []) 0 (hm_capacity m).

(** The iterator: [(bucket, rest of the chain)], [None] at [end()]. *)
Fixpoint next_bucket (i : nat) (bs : list (list (K * V))) : option (nat * list (K * V)) :=
  match bs with
  | [] => None
  | [] :: bs' => next_bucket (S i) bs'
  | c :: _ => Some (i, c)
  end.
Definition hm_begin m : option (nat * list (K * V)) := next_bucket 0 (hm_buckets m).
Definition hm_next m (it : nat * list (K * V)) : option (nat * list (K * V)) :=
  match it with
  | (b, _ :: e :: c) => Some (b, e :: c)
  | (b, _) => next_bucket (S b) (drop (S b) (hm_buckets m))
  end.
Definition hm_pair (it : option (nat * list (K * V))) : option (K * V) :=
  match it with Some (_, e :: _) => Some e | _ => None end.
End HashMap.

(** ** Chain lemmas *)
Section ChainLemmas.
Context {K V : Type} `{Countable K}.
Implicit Types (l : list (K * V)) (k : K).

Lemma chain_find_map k l :
  chain_find k l = (fun v => (k, v)) <$> (list_to_map l : gmap K V) !! k.
Proof.
  induction l as [|[k' v] l IH]; simpl; [by rewrite lookup_empty|].
  case_decide as E; simpl in E.
  - subst. by rewrite lookup_insert_eq.
  - by rewrite lookup_insert_ne, IH.
Qed.
Lemma chain_set_map k v l :
  is_Some (chain_find k l) ->
  (list_to_map (chain_set k v l) : gmap K V) = <[k := v]> (list_to_map l).
Proof.
  induction l as [|[k' v'] l IH]; simpl; intros Hk; [by apply is_Some_None in Hk|].
  case_decide as E; simpl in *.
  - subst. by rewrite insert_insert_eq.
  - rewrite IH by done. by rewrite insert_insert_ne.
Qed.
Lemma chain_set_keys k v l : (chain_set k v l).*1 = l.*1.
Proof. induction l as [|e l IH]; csimpl; [done|]. case_decide; csimpl; [done|by f_equal]. Qed.
Lemma chain_set_Forall (P : K -> Prop) k v l :
  Forall (fun e => P (fst e)) l -> Forall (fun e => P (fst e)) (chain_set k v l).
Proof. induction 1; simpl; [done|]. case_decide; by constructor. Qed.
Lemma chain_unlink_map k l :
  NoDup l.*1 -> (list_to_map (chain_unlink k l) : gmap K V) = delete k (list_to_map l).
Proof.
  induction l as [|[k' v'] l IH]; simpl; [by rewrite delete_empty|].
  intros [Hk Hl]%NoDup_cons. case_decide as E; simpl in *.
  - subst. rewrite delete_insert_id; [done|]. by apply not_elem_of_list_to_map.
  - rewrite IH by done. by rewrite delete_insert_ne.
Qed.
Lemma chain_unlink_sublist k l : chain_unlink k l `sublist_of` l.
Proof.
  induction l as [|e l IH]; simpl; [constructor|]. case_decide; by constructor.
Qed.
Lemma chain_unlink_Forall (P : K * V -> Prop) k l : Forall P l -> Forall P (chain_unlink k l).
Proof. induction 1; simpl; [done|]. case_decide; by try constructor. Qed.
Lemma chain_unlink_length k l :
  is_Some (chain_find k l) -> S (length (chain_unlink k l)) = length l.
Proof.
  induction l as [|e l IH]; simpl; intros Hk; [by apply is_Some_None in Hk|].
  case_decide; simpl; [done|]. by rewrite IH.
Qed.
Lemma chain_set_length k v l : length (chain_set k v l) = length l.
Proof. rewrite <- !(length_fmap fst). by rewrite chain_set_keys. Qed.
Lemma chain_find_none k l : chain_find k l = None <-> k ∉ l.*1.
Proof.
  rewrite chain_find_map, fmap_None. symmetry. apply not_elem_of_list_to_map.
Qed.
End ChainLemmas.

(** ** The table refines a finite map *)
Section Refinement.
Context {K V : Type} `{Countable K} (hashcode : K -> Z).
Implicit Types m : hashmap K V.

(** The abstract value of a table. *)
Definition hm_abs m : gmap K V := list_to_map (hm_elems m).

Definition hm_placed (nb : nat) (bs : list (list (K * V))) : Prop :=
  forall i l, bs !! i = Some l -> Forall (fun e => bucket_of hashcode nb (fst e) = i) l.

(** The representation invariant: every element is in its hash bucket, keys are distinct,
    [_n] counts the elements. *)
Record hm_wf m : Prop := {
  wf_buckets : (0 < hm_nbuckets m)%nat;
  wf_placed : hm_placed (hm_nbuckets m) (hm_buckets m);
  wf_nodup : NoDup (hm_elems m).*1;
  wf_n : hm_n m = length (hm_elems m)
}.

Lemma bucket_of_lt nb k : (0 < nb)%nat -> (bucket_of hashcode nb k < nb)%nat.
Proof.
  intros. unfold bucket_of. pose proof (Z.mod_pos_bound (hashcode k) (Z.of_nat nb)). lia.
Qed.

(** The elements around one bucket: no other bucket holds its keys. *)
Lemma hm_split bs nb k :
  nb = length bs -> (0 < nb)%nat -> hm_placed nb bs ->
  exists a l b, bs !! bucket_of hashcode nb k = Some l /\
    concat bs = a ++ l ++ b /\ (k ∉ a.*1) /\ (k ∉ b.*1) /\
    (forall f, concat (alter f (bucket_of hashcode nb k) bs) = a ++ f l ++ b).
Proof.
  intros -> Hnb Hp. pose proof (bucket_of_lt _ k Hnb) as Hi.
  set (i := bucket_of hashcode (length bs) k) in *.
  destruct (lookup_lt_is_Some_2 bs i Hi) as [l Hl].
  assert (Hne : forall j c, j <> i -> bs !! j = Some c -> k ∉ c.*1).
  { intros j c Hj Hc Hk. apply list_elem_of_fmap in Hk as ([k' v] & -> & Hin).
    pose proof (Hp j c Hc) as Hall. rewrite Forall_forall in Hall.
    by specialize (Hall _ Hin). }
  assert (Hcat : forall cs : list (list (K * V)), (forall j c, cs !! j = Some c -> k ∉ c.*1) -> k ∉ (concat cs).*1).
  { intros cs Hcs Hk. apply list_elem_of_fmap in Hk as (e & -> & Hin).
    apply list_elem_of_In, in_concat in Hin as (c & Hc & Hin).
    apply list_elem_of_In in Hc, Hin. apply list_elem_of_lookup in Hc as [j Hj].
    apply (Hcs j c Hj). apply list_elem_of_fmap. by exists e. }
  exists (concat (take i bs)), l, (concat (drop (S i) bs)). split; [done|].
  split; [|split; [|split]].
  - rewrite <- (take_drop_middle bs i l Hl) at 1. by rewrite concat_app.
  - apply Hcat. intros j c Hc. pose proof (lookup_lt_Some _ _ _ Hc) as Hj.
    rewrite length_take in Hj. rewrite lookup_take_lt in Hc by lia. apply (Hne j); [lia|done].
  - apply Hcat. intros j c Hc. rewrite lookup_drop in Hc. apply (Hne (S i + j)%nat); [lia|done].
  - intros f. rewrite <- (take_drop_middle (alter f i bs) i (f l))
      by (by rewrite list_lookup_alter_eq, Hl).
    rewrite concat_app. simpl. rewrite take_alter_ge by lia. by rewrite drop_alter_lt by lia.
Qed.

Lemma list_to_map_around (a l b : list (K * V)) k :
  k ∉ a.*1 -> k ∉ b.*1 ->
  (list_to_map (a ++ l ++ b) : gmap K V) !! k = (list_to_map l : gmap K V) !! k.
Proof.
  intros Ha%not_elem_of_list_to_map Hb%not_elem_of_list_to_map.
  rewrite !list_to_map_app, !lookup_union, Ha. rewrite (left_id_L None _).
  rewrite Hb. by rewrite (right_id_L None _).
Qed.

Lemma hm_find_pair_spec k m :
  hm_wf m -> hm_find_pair hashcode k m = (fun v => (k, v)) <$> hm_abs m !! k.
Proof.
  intros []. destruct (hm_split (hm_buckets m) (hm_nbuckets m) k)
    as (a & l & b & Hl & Hc & Ha & Hb & _); try done.
  unfold hm_find_pair, hm_bucket. rewrite Hl. simpl. rewrite chain_find_map.
  unfold hm_abs, hm_elems. by rewrite Hc, list_to_map_around.
Qed.

Lemma hm_find_spec k m : hm_wf m -> hm_find hashcode k None m = hm_abs m !! k.
Proof.
  intros Hwf. unfold hm_find. rewrite hm_find_pair_spec by done.
  by destruct (hm_abs m !! k).
Qed.

Lemma hm_placed_alter m k f :
  hm_wf m ->
  (forall l, Forall (fun e => bucket_of hashcode (hm_nbuckets m) (fst e) = hm_bucket hashcode m k) l ->
             Forall (fun e => bucket_of hashcode (hm_nbuckets m) (fst e) = hm_bucket hashcode m k) (f l)) ->
  hm_placed (hm_nbuckets m) (alter f (hm_bucket hashcode m k) (hm_buckets m)).
Proof.
  intros Hwf Hf i l. rewrite list_lookup_alter. case_decide as E; [subst|by apply Hwf].
  intros Hl. apply fmap_Some in Hl as (l0 & Hl0 & ->). apply Hf. by apply (wf_placed m Hwf).
Qed.

(** Replacing the chain [k] hashes to. *)
Lemma hm_wf_alter m k f n c :
  hm_wf m ->
  (forall l, Forall (fun e => bucket_of hashcode (hm_nbuckets m) (fst e) = hm_bucket hashcode m k) l ->
             Forall (fun e => bucket_of hashcode (hm_nbuckets m) (fst e) = hm_bucket hashcode m k) (f l)) ->
  let m' := HashMap (alter f (hm_bucket hashcode m k) (hm_buckets m)) n c in
  NoDup (hm_elems m').*1 -> n = length (hm_elems m') -> hm_wf m'.
Proof.
  intros Hwf Hf m' Hnd Hn. split; [..|done|done].
  - unfold hm_nbuckets. simpl. rewrite length_alter. apply Hwf.
  - unfold hm_nbuckets. simpl. rewrite length_alter. by apply hm_placed_alter.
Qed.

Lemma hm_wf_new nb : (0 < nb)%nat -> hm_wf (hm_initialize nb : hashmap K V) .
Proof.
  intros Hnb. assert (Hc : forall n, concat (replicate n ([] : list (K * V))) = [])
    by (intros n; induction n; simpl; done).
  split; unfold hm_nbuckets, hm_elems; simpl; rewrite ?length_replicate, ?Hc; try done.
  - intros i l [-> _]%lookup_replicate. constructor.
  - constructor.
Qed.

Lemma hm_link_spec k v m :
  hm_wf m -> hm_abs m !! k = None ->
  hm_wf (hm_link hashcode k v m) /\ hm_abs (hm_link hashcode k v m) = <[k := v]> (hm_abs m).
Proof.
  intros Hwf Hk. destruct (hm_split (hm_buckets m) (hm_nbuckets m) k)
    as (a & l & b & Hl & Hc & Ha & Hb & Hf); [done|apply Hwf|apply Hwf|].
  assert (He : hm_elems (hm_link hashcode k v m) = a ++ ((k, v) :: l) ++ b) by (apply Hf).
  split.
  - apply hm_wf_alter; try done.
    + intros l' Hl'. by constructor.
    + change (NoDup (hm_elems (hm_link hashcode k v m)).*1). rewrite He.
      assert (Hp : a ++ ((k, v) :: l) ++ b ≡ₚ (k, v) :: hm_elems m)
        by (unfold hm_elems; rewrite Hc; symmetry; apply Permutation_middle).
      rewrite Hp. csimpl. constructor; [|apply Hwf].
      unfold hm_abs in Hk. by apply not_elem_of_list_to_map in Hk.
    + change (S (hm_n m) = length (hm_elems (hm_link hashcode k v m))).
      rewrite He, (wf_n m Hwf). unfold hm_elems. rewrite Hc, !length_app. simpl.
      lia.
  - unfold hm_abs. rewrite He. unfold hm_elems. rewrite Hc, !list_to_map_app. simpl.
    rewrite insert_union_r by (by apply not_elem_of_list_to_map).
    f_equal. by rewrite <- insert_union_l.
Qed.

Lemma hm_set_spec k v m c :
  hm_wf m -> is_Some (hm_abs m !! k) ->
  let m' := HashMap (alter (chain_set k v) (hm_bucket hashcode m k) (hm_buckets m)) (hm_n m) c in
  hm_wf m' /\ hm_abs m' = <[k := v]> (hm_abs m).
Proof.
  intros Hwf Hk m'. destruct (hm_split (hm_buckets m) (hm_nbuckets m) k)
    as (a & l & b & Hl & Hc & Ha & Hb & Hf); [done|apply Hwf|apply Hwf|].
  assert (He : hm_elems m' = a ++ chain_set k v l ++ b) by (apply Hf).
  assert (Hlk : is_Some (chain_find k l)).
  { rewrite chain_find_map. apply fmap_is_Some. unfold hm_abs, hm_elems in Hk.
    by rewrite Hc, list_to_map_around in Hk. }
  assert (Hkeys : (hm_elems m').*1 = (hm_elems m).*1).
  { rewrite He. unfold hm_elems. rewrite Hc, !fmap_app. by rewrite chain_set_keys. }
  split.
  - apply hm_wf_alter; try done.
    + intros l' Hl'. by apply (chain_set_Forall
        (fun k' => bucket_of hashcode (hm_nbuckets m) k' = hm_bucket hashcode m k)).
    + change (NoDup (hm_elems m').*1). rewrite Hkeys. apply Hwf.
    + change (hm_n m = length (hm_elems m')). rewrite (wf_n m Hwf).
      rewrite <- !(length_fmap fst). by rewrite Hkeys.
  - unfold hm_abs. rewrite He. unfold hm_elems. rewrite Hc, !list_to_map_app.
    rewrite chain_set_map by done.
    rewrite insert_union_r by (by apply not_elem_of_list_to_map).
    by rewrite <- insert_union_l.
Qed.

Lemma hm_unlink_spec k m c :
  hm_wf m -> is_Some (hm_abs m !! k) ->
  let m' := HashMap (alter (chain_unlink k) (hm_bucket hashcode m k) (hm_buckets m))
              (hm_n m - 1) c in
  hm_wf m' /\ hm_abs m' = delete k (hm_abs m).
Proof.
  intros Hwf Hk m'. destruct (hm_split (hm_buckets m) (hm_nbuckets m) k)
    as (a & l & b & Hl & Hc & Ha & Hb & Hf); [done|apply Hwf|apply Hwf|].
  assert (He : hm_elems m' = a ++ chain_unlink k l ++ b) by (apply Hf).
  assert (Hlk : is_Some (chain_find k l)).
  { rewrite chain_find_map. apply fmap_is_Some. unfold hm_abs, hm_elems in Hk.
    by rewrite Hc, list_to_map_around in Hk. }
  assert (Hsub : hm_elems m' `sublist_of` hm_elems m).
  { rewrite He. unfold hm_elems. rewrite Hc.
    apply sublist_app; [done|]. apply sublist_app; [apply chain_unlink_sublist|done]. }
  assert (Hnd : NoDup l.*1).
  { pose proof (wf_nodup m Hwf) as Hn. unfold hm_elems in Hn. rewrite Hc, !fmap_app in Hn.
    by apply NoDup_app in Hn as (_ & _ & (Hn & _)%NoDup_app). }
  split.
  - apply hm_wf_alter; try done.
    + intros l' Hl'. by apply chain_unlink_Forall.
    + change (NoDup (hm_elems m').*1). eapply sublist_NoDup; [apply Hwf|].
      by apply fmap_sublist.
    + change (hm_n m - 1 = length (hm_elems m'))%nat. rewrite (wf_n m Hwf), He.
      unfold hm_elems. rewrite Hc, !length_app. pose proof (chain_unlink_length k l Hlk). lia.
  - unfold hm_abs. rewrite He. unfold hm_elems. rewrite Hc, !list_to_map_app.
    rewrite chain_unlink_map by done. rewrite !delete_union.
    rewrite (delete_id (list_to_map a)), (delete_id (list_to_map b))
      by (by apply not_elem_of_list_to_map).
    done.
Qed.

(** Growing the table keeps its content. *)
Lemma hm_rehash_elems nb l bs :
  (0 < nb)%nat -> length bs = nb ->
  length (hm_rehash hashcode nb l bs) = nb /\
  concat (hm_rehash hashcode nb l bs) ≡ₚ l ++ concat bs /\
  (hm_placed nb bs -> hm_placed nb (hm_rehash hashcode nb l bs)).
Proof.
  intros Hnb. revert bs. induction l as [|e l IH]; intros bs Hbs; [done|]. simpl.
  destruct (IH (alter (cons e) (bucket_of hashcode nb (fst e)) bs)) as (Hl & Hp & Hpl);
    [by rewrite length_alter|].
  split; [done|]. split.
  - rewrite Hp. destruct (lookup_lt_is_Some_2 bs (bucket_of hashcode nb (fst e))) as [c Hc];
      [rewrite Hbs; by apply bucket_of_lt|].
    rewrite <- (take_drop_middle _ _ _ Hc) at 2.
    rewrite <- (take_drop_middle (alter (cons e) _ bs) (bucket_of hashcode nb (fst e)) (e :: c))
      by (by rewrite list_lookup_alter_eq, Hc).
    rewrite take_alter_ge, drop_alter_lt by lia. rewrite !concat_app. simpl.
    rewrite !app_assoc. symmetry. rewrite <- !app_assoc. simpl.
    rewrite (app_assoc l). rewrite (app_assoc l). apply Permutation_middle.
  - intros Hpb. apply Hpl. intros i c. rewrite list_lookup_alter. case_decide as E.
    + intros Hc. apply fmap_Some in Hc as (c0 & Hc0 & ->). constructor; [done|].
      subst. by apply Hpb.
    + apply Hpb.
Qed.

Lemma hm_resize0_spec nb m :
  (0 < nb)%nat -> hm_wf m ->
  hm_wf (hm_resize0 hashcode nb m) /\ hm_abs (hm_resize0 hashcode nb m) = hm_abs m.
Proof.
  intros Hnb Hwf.
  destruct (hm_rehash_elems nb (hm_elems m) (replicate nb [])) as (Hl & Hp & Hpl);
    [done|by rewrite length_replicate|].
  assert (He : hm_elems (hm_resize0 hashcode nb m) ≡ₚ hm_elems m).
  { unfold hm_elems at 1. simpl. rewrite Hp.
    change (concat (replicate nb [])) with (hm_elems (hm_initialize nb : hashmap K V)).
    pose proof (wf_n _ (hm_wf_new nb Hnb)) as Hz. simpl in Hz.
    symmetry in Hz. apply nil_length_inv in Hz. by rewrite Hz, app_nil_r. }
  assert (Hnd : NoDup (hm_elems (hm_resize0 hashcode nb m)).*1) by (rewrite He; apply Hwf).
  split; [split|].
  - unfold hm_nbuckets. simpl. by rewrite Hl.
  - unfold hm_nbuckets. simpl. rewrite Hl. apply Hpl. intros i c [-> _]%lookup_replicate.
    constructor.
  - done.
  - simpl. rewrite He. apply Hwf.
  - unfold hm_abs. symmetry. by apply list_to_map_proper; [apply Hwf|].
Qed.

Lemma hm_grow_pos fuel want nb : (0 < nb)%nat -> (0 < hm_grow fuel want nb)%nat.
Proof.
  revert nb. induction fuel as [|fuel IH]; intros nb Hnb; simpl; [done|].
  destruct (_ && _); [|done]. apply IH. lia.
Qed.

Lemma hm_make_room_spec m :
  hm_wf m ->
  hm_wf (hm_make_room hashcode m) /\ hm_abs (hm_make_room hashcode m) = hm_abs m.
Proof.
  intros Hwf. unfold hm_make_room, hm_resize. destruct (_ <=? _); [|done].
  destruct (_ =? _)%nat; [done|]. apply hm_resize0_spec; [|done]. apply hm_grow_pos. lia.
Qed.

Lemma hm_insert_spec k v m :
  hm_wf m ->
  hm_wf (fst (hm_insert hashcode true k v m)) /\
  hm_abs (fst (hm_insert hashcode true k v m)) = <[k := v]> (hm_abs m) /\
  snd (hm_insert hashcode true k v m) = bool_decide (hm_abs m !! k = None).
Proof.
  intros Hwf. unfold hm_insert. rewrite hm_find_pair_spec by done.
  destruct (hm_abs m !! k) as [v0|] eqn:E; simpl.
  - destruct (hm_set_spec k v m (hm_capacity m)) as [? ?]; [done|by eexists|done].
  - destruct (hm_make_room_spec m Hwf) as [Hw Ha].
    destruct (hm_link_spec k v (hm_make_room hashcode m)) as [? Hl]; [done|by rewrite Ha|].
    by rewrite Hl, Ha.
Qed.

Lemma hm_erase_spec k m :
  hm_wf m ->
  hm_wf (fst (hm_erase hashcode k m)) /\
  hm_abs (fst (hm_erase hashcode k m)) = delete k (hm_abs m) /\
  snd (hm_erase hashcode k m) = bool_decide (is_Some (hm_abs m !! k)).
Proof.
  intros Hwf. unfold hm_erase. rewrite hm_find_pair_spec by done.
  destruct (hm_abs m !! k) as [v0|] eqn:E; simpl.
  - destruct (hm_unlink_spec k m (hm_capacity m)) as [? ?]; [done|by eexists|done].
  - by rewrite delete_id.
Qed.

Lemma hm_size_spec m : hm_wf m -> hm_size m = size (hm_abs m).
Proof.
  intros Hwf. unfold hm_size, hm_abs. rewrite (wf_n m Hwf).
  by rewrite map_size_list_to_map by apply Hwf.
Qed.

Lemma hm_begin_spec m :
  hm_wf m -> hm_pair (hm_begin m) = head (hm_elems m).
Proof.
  intros _. unfold hm_begin, hm_elems. generalize 0%nat.
  induction (hm_buckets m) as [|[|e c] bs IH]; intros i; [done|apply IH|done].
Qed.
End Refinement.

(** ** Iteration *)
Section Iteration.
Context {K V : Type}.
Implicit Types m : hashmap K V.

(** The elements an iterator still has to visit. *)
Definition hm_rest m (it : option (nat * list (K * V))) : list (K * V) :=
  match it with Some (b, c) => c ++ concat (drop (S b) (hm_buckets m)) | None => [] end.

Lemma next_bucket_rest m i bs :
  bs = drop i (hm_buckets m) ->
  hm_rest m (next_bucket i bs) = concat bs /\
  (forall b c, next_bucket i bs = Some (b, c) -> c <> []).
Proof.
  revert i. induction bs as [|c bs IH]; intros i Hbs; [done|].
  assert (Hd : bs = drop (S i) (hm_buckets m)).
  { rewrite <- (drop_drop _ 1 i) || replace (S i) with (i + 1)%nat by lia.
    rewrite <- drop_drop, <- Hbs. done. }
  destruct c as [|e c].
  - by apply IH.
  - simpl. rewrite <- Hd. split; [done|]. by intros ? ? [= <- <-].
Qed.

Lemma hm_next_rest m b e c :
  hm_rest m (Some (b, e :: c)) = e :: hm_rest m (hm_next m (b, e :: c)).
Proof.
  unfold hm_next. destruct c as [|e' c]; [|done].
  by rewrite (proj1 (next_bucket_rest m (S b) _ eq_refl)).
Qed.
End Iteration.

(** The list an iteration loop [for (it = begin(); it; ++it)] visits, with [fuel] rounds. *)
Fixpoint hm_iterate {K V} (fuel : nat) (m : hashmap K V) (it : option (nat * list (K * V)))
  : list (K * V) :=
  match fuel, it with
  | S fuel', Some (b, e :: c) => e :: hm_iterate fuel' m (hm_next m (b, e :: c))
  | _, _ => []
  end.

Lemma hm_next_nonempty {K V} (m : hashmap K V) b e c b' c' :
  hm_next m (b, e :: c) = Some (b', c') -> c' <> [].
Proof.
  unfold hm_next. destruct c as [|e' c]; [|by intros [= <- <-]].
  apply (next_bucket_rest m (S b)). done.
Qed.

Lemma hm_iterate_rest {K V} (m : hashmap K V) fuel it :
  (forall b c, it = Some (b, c) -> c <> []) ->
  (length (hm_rest m it) <= fuel)%nat -> hm_iterate fuel m it = hm_rest m it.
Proof.
  revert it. induction fuel as [|fuel IH]; intros it Hne Hf.
  - destruct (hm_rest m it) eqn:E; [done|]. simpl in Hf. lia.
  - destruct it as [[b [|e c]]|]; [exfalso; exact (Hne b [] eq_refl eq_refl)| |reflexivity].
    rewrite (hm_next_rest m b e c) in Hf. rewrite (hm_next_rest m b e c).
    simpl. f_equal. apply IH.
    + intros b' c' Hn. exact (hm_next_nonempty m b e c b' c' Hn).
    + simpl in Hf. lia.
Qed.

(** ** The refinement *)

(** [IPAddress::hashcode()] is the address. *)
Definition IPAddress_hashcode (a : Z) : Z := a.

#[export] Instance hashmap_assoc {V} : AssocMap V (hashmap Z V) := {
  am_find k m := hm_find IPAddress_hashcode k None m;
  am_insert k v m := fst (hm_insert IPAddress_hashcode true k v m);
  am_erase k m := fst (hm_erase IPAddress_hashcode k m);
  am_size m := hm_size m;
  am_elems m := hm_iterate (hm_size m) m (hm_begin m);
  am_wf m := hm_wf IPAddress_hashcode m
}.

Lemma hm_iterate_elems {K V} `{Countable K} (h : K -> Z) (m : hashmap K V) :
  hm_wf h m -> hm_iterate (hm_size m) m (hm_begin m) = hm_elems m.
Proof.
  intros Hwf. destruct (next_bucket_rest m 0 (hm_buckets m) eq_refl) as [Hr Hne].
  rewrite hm_iterate_rest; unfold hm_begin; rewrite ?Hr; [done|done|].
  unfold hm_size. by rewrite (wf_n h).
Qed.

#[export] Instance hashmap_assoc_laws {V} : AssocMapLaws V (hashmap Z V).
Proof.
  split; cbn; intros.
  - by apply hm_insert_spec.
  - by apply hm_erase_spec.
  - rewrite hm_find_spec by (by apply hm_insert_spec).
    destruct (hm_insert_spec IPAddress_hashcode k v m) as (_ & -> & _); [done|].
    by rewrite lookup_insert_eq.
  - rewrite !hm_find_spec by (first [done|by apply hm_insert_spec]).
    destruct (hm_insert_spec IPAddress_hashcode k v m) as (_ & -> & _); [done|].
    by rewrite lookup_insert_ne.
  - rewrite hm_find_spec by (by apply hm_erase_spec).
    destruct (hm_erase_spec IPAddress_hashcode k m) as (_ & -> & _); [done|].
    by rewrite lookup_delete_eq.
  - rewrite !hm_find_spec by (first [done|by apply hm_erase_spec]).
    destruct (hm_erase_spec IPAddress_hashcode k m) as (_ & -> & _); [done|].
    by rewrite lookup_delete_ne.
  - rewrite (hm_iterate_elems IPAddress_hashcode) by done.
    unfold hm_size. by apply (wf_n IPAddress_hashcode).
  - rewrite (hm_iterate_elems IPAddress_hashcode), hm_find_spec by done. unfold hm_abs.
    rewrite <- elem_of_list_to_map; [done|by apply (wf_nodup IPAddress_hashcode)].
Qed.

(** C12: the hash table is a finite map.  Under its representation invariant, which the
    constructor establishes and every operation preserves (also when it rehashes), [find],
    [insert], [erase] and [size] act on the abstract map as lookup, insertion, deletion and
    cardinality, the returned flags tell whether the key was new or present, and iterating
    from [begin] visits the map's bindings, each once. *)
Theorem hashmap_refines_map {V} (k : Z) (v : V) (m : hashmap Z V) :
  let h := IPAddress_hashcode in
  hm_wf h (hm_new : hashmap Z V) /\ hm_abs (hm_new : hashmap Z V) = ∅ /\
  (hm_wf h m ->
   hm_find h k None m = hm_abs m !! k /\
   (let '(m', b) := hm_insert h true k v m in
    hm_wf h m' /\ hm_abs m' = <[k := v]> (hm_abs m) /\ b = bool_decide (hm_abs m !! k = None)) /\
   (let '(m', b) := hm_erase h k m in
    hm_wf h m' /\ hm_abs m' = delete k (hm_abs m) /\ b = bool_decide (is_Some (hm_abs m !! k))) /\
   hm_size m = size (hm_abs m) /\
   hm_iterate (hm_size m) m (hm_begin m) ≡ₚ map_to_list (hm_abs m)).
Proof.
  intros h. split; [apply hm_wf_new; cbv; lia|]. split; [reflexivity|]. intros Hwf.
  split; [by apply hm_find_spec|].
  split; [destruct (hm_insert h true k v m) eqn:E; pose proof (hm_insert_spec h k v m Hwf) as Hi;
          by rewrite E in Hi|].
  split; [destruct (hm_erase h k m) eqn:E; pose proof (hm_erase_spec h k m Hwf) as He;
          by rewrite E in He|].
  split; [by apply (hm_size_spec h)|].
  rewrite (hm_iterate_elems h) by done.
  symmetry. apply map_to_list_to_map. by apply (wf_nodup h).
Qed.

Theorem hashmap_refines_map_witness :
  hm_find IPAddress_hashcode 5 None (hm_new : hashmap Z Z) = (∅ : gmap Z Z) !! 5.
Proof.
  apply (proj2 (proj2 (hashmap_refines_map 5 7 (hm_new : hashmap Z Z)))).
  apply (proj1 (hashmap_refines_map 5 7 (hm_new : hashmap Z Z))).
Defined.
