(* ===== verification/HashContainer.v ===== *)
(** * [HashContainer<T>] ([include/click/hashcontainer.hh])

    The intrusive hash table under Click's newer containers: buckets of chains linked through
    the elements themselves, iterators that hold the place an element is linked at, and a
    cached index below which every bucket is empty.  An element is its key and its address
    [P]; the key does not change while the element is in the table.  Division by the number
    of buckets (done with a multiplication in the source) is [mod].  The chains are those of
    [HashMap], whose lemmas carry the refinement to a finite map. *)
From Stdlib Require Import ZArith Lia.
From stdpp Require Import base list numbers option gmap.
From S2P Require Import Prelude HashMap.

Record hashcontainer (K P : Type) : Type := HashContainer {
  hc_buckets : list (list (K * P)); hc_first_bucket : nat; hc_n : nat
}.
Arguments HashContainer {K P} _ _ _.
Arguments hc_buckets {K P} _.
Arguments hc_first_bucket {K P} _.
Arguments hc_n {K P} _.

(** An iterator: its element, null at the end, and [_pprev], the place in the chain of a
    bucket that points at it. *)
Record hc_iter (K P : Type) : Type := HcIter {
  it_element : option (K * P); it_pos : nat; it_bucket : nat
}.
Arguments HcIter {K P} _ _ _.
Arguments it_element {K P} _.
Arguments it_pos {K P} _.
Arguments it_bucket {K P} _.

Definition max_bucket_count : Z := 4294967295.
Definition initial_bucket_count : nat := 63.

Section HashContainer.
Context {K P : Type} `{EqDecision K, EqDecision P} (hashcode : K -> Z).
Implicit Types (c : hashcontainer K P) (it : hc_iter K P) (e : K * P).

Definition hc_nbuckets c : nat := length (hc_buckets c).
Definition hc_size c : nat := hc_n c.
Definition hc_empty c : bool := (hc_n c =? 0)%nat.
Definition hc_chain c (b : nat) : list (K * P) := default [] (hc_buckets c !! b).
Definition hc_bucket_size c (b : nat) : nat := length (hc_chain c b).
Definition hc_bucket c (k : K) : nat := bucket_of hashcode (hc_nbuckets c) k.

(** [HashContainer()] *)
Definition hc_new : hashcontainer K P :=
  HashContainer (replicate initial_bucket_count []) initial_bucket_count 0.

(** [unbalanced()]; [2 * nbuckets] is 32 bits wide. *)
Definition hc_unbalanced c : bool :=
  (u32 (2 * Z.of_nat (hc_nbuckets c)) <? Z.of_nat (hc_n c))
  && (Z.of_nat (hc_nbuckets c) <? max_bucket_count).

(** The position of the first element with key [k] in a chain. *)
Fixpoint chain_pos (k : K) (l : list (K * P)) : option nat :=
  match l with
  | [] => None
  | e :: l => if decide (fst e = k) then Some 0%nat else S <$> chain_pos k l
  end.

Definition hc_find c (k : K) : hc_iter K P :=
  let b := hc_bucket c k in
  match chain_pos k (hc_chain c b) with
  | Some i => HcIter (hc_chain c b !! i) i b
  | None => HcIter None 0 b
  end.
Definition hc_get c (k : K) : option (K * P) := it_element (hc_find c k).
Definition hc_contains c (k : K) : bool := bool_decide (is_Some (chain_pos k (hc_chain c (hc_bucket c k)))).
Definition hc_count c (k : K) : nat :=
  length (filter (fun e => fst e = k) (hc_chain c (hc_bucket c k))).

(** The first element of the buckets from [i] on, [bs]. *)
Fixpoint hc_scan (i : nat) (bs : list (list (K * P))) : hc_iter K P :=
  match bs with
  | [] => HcIter None 0 i
  | [] :: bs => hc_scan (S i) bs
  | (e :: _) :: _ => HcIter (Some e) 0 i
  end.
(** [++it] *)
Definition hc_next c it : hc_iter K P :=
  let b := it_bucket it in
  match it_element it, hc_chain c b !! S (it_pos it) with
  | Some _, Some e => HcIter (Some e) (S (it_pos it)) b
  | _, _ =>
      if (b =? hc_nbuckets c)%nat then HcIter None (it_pos it) b
      else hc_scan (S b) (drop (S b) (hc_buckets c))
  end.
(** [begin()], which also moves the cached first bucket. *)
Definition hc_begin c : hc_iter K P * hashcontainer K P :=
  let b := hc_first_bucket c in
  if (b =? hc_nbuckets c)%nat then (HcIter None 0 b, c)
  else
    match hc_chain c b with
    | e :: _ => (HcIter (Some e) 0 b, c)
    | [] =>
        let it := hc_next c (HcIter None 0 b) in
        (it, HashContainer (hc_buckets c) (it_bucket it) (hc_n c))
    end.

(** The [while] loop of [rehash]: [1, 3, 7, ..., 2^32 - 1]. *)
Fixpoint hc_grow (fuel : nat) (n new_nbuckets : Z) : Z :=
  match fuel with
  | O => new_nbuckets
  | S fuel =>
      if (new_nbuckets <? n) && (new_nbuckets <? max_bucket_count)
      then hc_grow fuel n (u32 (Z.shiftl (new_nbuckets + 1) 1 - 1)) else new_nbuckets
  end.
Definition hc_rehash (n : Z) c : hashcontainer K P :=
  let new_nbuckets := Z.to_nat (hc_grow 31 n 1) in
  if (hc_nbuckets c =? new_nbuckets)%nat then c
  else HashContainer
         (hm_rehash hashcode new_nbuckets (concat (hc_buckets c)) (replicate new_nbuckets []))
         0 (hc_n c).
Definition hc_balance c : hashcontainer K P :=
  if hc_unbalanced c then hc_rehash (Z.of_nat (hc_nbuckets c) + 1) c else c.

Definition hc_insert_chain (i : nat) e (l : list (K * P)) : list (K * P) :=
  take i l ++ e :: drop i l.
Definition hc_remove_chain (i : nat) (l : list (K * P)) : list (K * P) :=
  take i l ++ drop (S i) l.

(** Linking [e] where [it] points; an element put at the end of its chain clears the cache. *)
Definition hc_link it e c : hashcontainer K P :=
  let b := it_bucket it in
  HashContainer (alter (hc_insert_chain (it_pos it) e) b (hc_buckets c))
    (match drop (it_pos it) (hc_chain c b) with [] => 0%nat | _ => hc_first_bucket c end)
    (S (hc_n c)).

(** [set(it, element, balance)]: the old element, the table and the iterator. *)
Definition hc_set it (element : option (K * P)) (balance : bool) c
  : option (K * P) * hashcontainer K P * hc_iter K P :=
  let b := it_bucket it in
  if decide (it_element it = element) then (it_element it, c, it)
  else
    match element with
    | None =>
        let c' := HashContainer (alter (hc_remove_chain (it_pos it)) b (hc_buckets c))
                    (hc_first_bucket c) (hc_n c - 1) in
        let it' := HcIter (hc_chain c' b !! it_pos it) (it_pos it) b in
        (it_element it, c', match it_element it' with Some _ => it' | None => hc_next c' it' end)
    | Some e =>
        match it_element it with
        | Some _ =>
            (it_element it,
             HashContainer (alter (fun l => <[it_pos it := e]> l) b (hc_buckets c))
               (hc_first_bucket c) (hc_n c),
             HcIter (Some e) (it_pos it) b)
        | None =>
            let grown := HashContainer (hc_buckets c) (hc_first_bucket c) (S (hc_n c)) in
            let '(c, it) :=
              if hc_unbalanced grown && balance then
                let c := hc_rehash (Z.of_nat (hc_nbuckets c) + 1) c in
                (c, HcIter None 0 (hc_bucket c (fst e)))
              else (c, it) in
            (None, hc_link it e c, HcIter (Some e) (it_pos it) (it_bucket it))
        end
    end.

(** [set(element)], [erase(it)], [erase(key)] *)
Definition hc_put e c : option (K * P) * hashcontainer K P :=
  let '(old, c, _) := hc_set (hc_find c (fst e)) (Some e) false c in (old, c).
Definition hc_erase_at it c : option (K * P) * hashcontainer K P * hc_iter K P :=
  hc_set it None false c.
Definition hc_erase (k : K) c : option (K * P) * hashcontainer K P :=
  let '(old, c, _) := hc_erase_at (hc_find c k) c in (old, c).

(** [insert_at(it, element)] *)
Definition hc_insert_at it e c : hashcontainer K P * hc_iter K P :=
  (hc_link it e c, HcIter (it_element it) (S (it_pos it)) (it_bucket it)).

(** [find_prefer(key)]: the element found moves to the front of its chain. *)
Definition hc_find_prefer c (k : K) : hc_iter K P * hashcontainer K P :=
  let b := hc_bucket c k in
  match chain_pos k (hc_chain c b) with
  | Some i =>
      (HcIter (hc_chain c b !! i) 0 b,
       HashContainer
         (alter (fun l => option_list (l !! i) ++ hc_remove_chain i l) b (hc_buckets c))
         (hc_first_bucket c) (hc_n c))
  | None => (HcIter None 0 b, c)
  end.

Definition hc_clear c : hashcontainer K P :=
  HashContainer (replicate (hc_nbuckets c) []) (hc_first_bucket c) 0.

(** The elements a loop [for (it = begin(); it; ++it)] visits, with [fuel] rounds. *)
Fixpoint hc_iterate (fuel : nat) c it : list (K * P) :=
  match fuel, it_element it with
  | S fuel, Some e => e :: hc_iterate fuel c (hc_next c it)
  | _, _ => []
  end.
End HashContainer.

(** ** The table refines a finite map *)
Section HcLemmas.
Context {K P : Type} `{Countable K, EqDecision P} (hashcode : K -> Z).
Implicit Types (c : hashcontainer K P) (it : hc_iter K P) (l : list (K * P)).

Lemma chain_pos_spec k l :
  match chain_pos k l with
  | Some i => exists v, l !! i = Some (k, v) /\ chain_find k l = Some (k, v) /\
      (forall w, chain_set k w l = <[i := (k, w)]> l) /\ chain_unlink k l = hc_remove_chain i l
  | None => chain_find k l = None
  end.
Proof.
  induction l as [|[k' v] l IH]; [done|]. simpl. case_decide as E; simpl in E.
  - subst k'. exists v. by split_and!.
  - destruct (chain_pos k l) as [i|]; simpl; [|done].
    destruct IH as (w & Hi & Hf & Hs & Hu). exists w. split_and!; [done|done| |].
    + intros w'. by rewrite Hs.
    + by rewrite Hu.
Qed.

(** The buckets seen as a [HashMap]. *)
Definition hc_map c : hashmap K P := HashMap (hc_buckets c) (hc_n c) 0.
Definition hc_abs c : gmap K P := hm_abs (hc_map c).
Definition hc_elems c : list (K * P) := concat (hc_buckets c).

Record hc_wf c : Prop := {
  hcw_map : hm_wf hashcode (hc_map c);
  hcw_first : (hc_first_bucket c <= hc_nbuckets c)%nat;
  hcw_empty : forall i, (i < hc_first_bucket c)%nat -> hc_chain c i = []
}.

Lemma hc_find_spec c k :
  hc_wf c ->
  match hc_abs c !! k with
  | Some v => exists i, hc_find hashcode c k = HcIter (Some (k, v)) i (hc_bucket hashcode c k) /\
      hc_chain c (hc_bucket hashcode c k) !! i = Some (k, v) /\
      (forall w, chain_set k w (hc_chain c (hc_bucket hashcode c k)) =
         <[i := (k, w)]> (hc_chain c (hc_bucket hashcode c k))) /\
      chain_unlink k (hc_chain c (hc_bucket hashcode c k)) =
        hc_remove_chain i (hc_chain c (hc_bucket hashcode c k))
  | None => hc_find hashcode c k = HcIter None 0 (hc_bucket hashcode c k)
  end.
Proof.
  intros [Hm _ _]. pose proof (hm_find_pair_spec hashcode k (hc_map c) Hm) as E.
  unfold hm_find_pair in E. change (default [] (hm_buckets (hc_map c) !! _)) with
    (hc_chain c (hc_bucket hashcode c k)) in E. unfold hc_find, hc_abs.
  pose proof (chain_pos_spec k (hc_chain c (hc_bucket hashcode c k))) as Hp.
  destruct (chain_pos k _) as [i|].
  - destruct Hp as (v & Hi & Hf & Hs & Hu). rewrite Hf in E.
    destruct (hm_abs (hc_map c) !! k); [|done]. injection E as <-. exists i.
    by rewrite Hi.
  - rewrite Hp in E. by destruct (hm_abs (hc_map c) !! k).
Qed.

Lemma hc_get_spec c k :
  hc_wf c -> hc_get hashcode c k = (fun v => (k, v)) <$> hc_abs c !! k.
Proof.
  intros Hwf. pose proof (hc_find_spec c k Hwf) as Hf. unfold hc_get.
  destruct (hc_abs c !! k); [destruct Hf as (i & -> & _)|rewrite Hf]; done.
Qed.

Lemma hc_bucket_lt c k : hc_wf c -> (hc_bucket hashcode c k < hc_nbuckets c)%nat.
Proof. intros [Hm _ _]. by apply bucket_of_lt, (wf_buckets hashcode (hc_map c)). Qed.

Lemma hc_chain_alter f b c fb n i :
  (b < hc_nbuckets c)%nat ->
  hc_chain (HashContainer (alter f b (hc_buckets c)) fb n) i =
  if decide (i = b) then f (hc_chain c b) else hc_chain c i.
Proof.
  intros Hb. unfold hc_chain. simpl. rewrite list_lookup_alter.
  destruct (decide (i = b)) as [-> |]; case_decide; try done.
  by destruct (lookup_lt_is_Some_2 (hc_buckets c) b Hb) as [l ->].
Qed.

Lemma hc_chain_buckets c b l : hc_buckets c !! b = Some l -> hc_chain c b = l.
Proof. unfold hc_chain. by intros ->. Qed.

(** Changing one chain into what [f] makes of it. *)
Lemma hc_alter_ext (f g : list (K * P) -> list (K * P)) b c :
  f (hc_chain c b) = g (hc_chain c b) ->
  alter f b (hc_buckets c) = alter g b (hc_buckets c).
Proof.
  intros E. apply list_eq. intros i. rewrite !list_lookup_alter. case_decide; [|done]. subst i.
  destruct (hc_buckets c !! b) as [l|] eqn:El; [|done]. simpl. rewrite (hc_chain_buckets c b l El) in E.
  by rewrite E.
Qed.

Lemma hc_wf_intro c c' b f :
  hc_wf c -> hm_wf hashcode (hc_map c') -> (b < hc_nbuckets c)%nat ->
  hc_buckets c' = alter f b (hc_buckets c) ->
  (hc_first_bucket c' = hc_first_bucket c /\ (hc_chain c b = [] -> f [] = [])) \/
    hc_first_bucket c' = 0%nat ->
  hc_wf c'.
Proof.
  intros [_ Hf He] Hm Hb Eb Hfb. split; [done|..].
  - unfold hc_nbuckets in *. rewrite Eb, length_alter. destruct Hfb as [[-> _]| ->]; lia.
  - intros i Hi. destruct Hfb as [[Efb Hnil]|Efb]; rewrite Efb in Hi; [|lia].
    unfold hc_chain. rewrite Eb. change (hc_chain (HashContainer (alter f b (hc_buckets c)) 0 0) i = []).
    rewrite hc_chain_alter by done. case_decide; [subst i|by apply He].
    rewrite (He b Hi). by apply Hnil, He.
Qed.

Lemma hc_link_spec c k v :
  hc_wf c -> hc_abs c !! k = None ->
  let c' := hc_link (HcIter None 0 (hc_bucket hashcode c k)) (k, v) c in
  hc_wf c' /\ hc_abs c' = <[k := v]> (hc_abs c).
Proof.
  intros Hwf Hk c'. destruct (hm_link_spec hashcode k v (hc_map c)) as [Hm Ha]; [apply Hwf|done|].
  split; [|exact Ha].
  apply (hc_wf_intro c c' (hc_bucket hashcode c k) (cons (k, v))); try done.
  - by apply hc_bucket_lt.
  - unfold c', hc_link. simpl. destruct (hc_chain c (hc_bucket hashcode c k)); [by right|by left].
Qed.

Lemma hc_replace_spec c k v w i :
  hc_wf c -> hc_abs c !! k = Some v -> 
  hc_find hashcode c k = HcIter (Some (k, v)) i (hc_bucket hashcode c k) ->
  let c' := HashContainer (alter (fun l => <[i := (k, w)]> l) (hc_bucket hashcode c k) (hc_buckets c))
              (hc_first_bucket c) (hc_n c) in
  hc_wf c' /\ hc_abs c' = <[k := w]> (hc_abs c).
Proof.
  intros Hwf Hk Hf c'. pose proof (hc_find_spec c k Hwf) as Hp. rewrite Hk in Hp.
  destruct Hp as (i' & Hf' & _ & Hs & _). rewrite Hf in Hf'. injection Hf' as <-.
  destruct (hm_set_spec hashcode k w (hc_map c) 0) as [Hm Ha]; [apply Hwf|by exists v|].
  assert (alter (chain_set k w) (hc_bucket hashcode c k) (hc_buckets c) = hc_buckets c') as Eb
    by (by apply hc_alter_ext).
  assert (HashMap (alter (chain_set k w) (hm_bucket hashcode (hc_map c) k) (hm_buckets (hc_map c)))
    (hm_n (hc_map c)) 0 = hc_map c') as E by (unfold hc_map at 4; by rewrite <- Eb).
  rewrite E in Hm, Ha. split; [|exact Ha].
  apply (hc_wf_intro c c' (hc_bucket hashcode c k) (fun l => <[i := (k, w)]> l)); try done.
  - by apply hc_bucket_lt.
  - by left.
Qed.

Lemma hc_unlink_spec c k v i :
  hc_wf c -> hc_abs c !! k = Some v ->
  hc_find hashcode c k = HcIter (Some (k, v)) i (hc_bucket hashcode c k) ->
  let c' := HashContainer (alter (hc_remove_chain i) (hc_bucket hashcode c k) (hc_buckets c))
              (hc_first_bucket c) (hc_n c - 1) in
  hc_wf c' /\ hc_abs c' = delete k (hc_abs c).
Proof.
  intros Hwf Hk Hf c'. pose proof (hc_find_spec c k Hwf) as Hp. rewrite Hk in Hp.
  destruct Hp as (i' & Hf' & _ & _ & Hu). rewrite Hf in Hf'. injection Hf' as <-.
  destruct (hm_unlink_spec hashcode k (hc_map c) 0) as [Hm Ha]; [apply Hwf|by exists v|].
  assert (alter (chain_unlink k) (hc_bucket hashcode c k) (hc_buckets c) = hc_buckets c') as Eb
    by (by apply hc_alter_ext).
  assert (HashMap (alter (chain_unlink k) (hm_bucket hashcode (hc_map c) k) (hm_buckets (hc_map c)))
    (hm_n (hc_map c) - 1) 0 = hc_map c') as E by (unfold hc_map at 4; by rewrite <- Eb).
  rewrite E in Hm, Ha. split; [|exact Ha].
  apply (hc_wf_intro c c' (hc_bucket hashcode c k) (hc_remove_chain i)); try done.
  - by apply hc_bucket_lt.
  - left. split; [done|]. intros _. by destruct i.
Qed.

Lemma hm_wf_fields (m m' : hashmap K P) :
  hm_buckets m' = hm_buckets m -> hm_n m' = hm_n m -> hm_wf hashcode m -> hm_wf hashcode m'.
Proof.
  intros Eb En [H1 H2 H3 H4]. destruct m as [bs n cap], m' as [bs' n' cap']. simpl in Eb, En.
  subst. by split.
Qed.

Lemma hc_grow_pos fuel n b : 0 < b -> 0 < hc_grow fuel n b.
Proof.
  revert b. induction fuel as [|fuel IH]; intros b Hb; simpl; [done|].
  destruct (_ && _); [|done]. apply IH. rewrite Z.shiftl_mul_pow2 by lia.
  unfold u32. change (2 ^ 1) with 2. zdm.
Qed.

(** 31 rounds are enough: the loop ends because one of its conditions fails. *)
Lemma hc_grow_enough n : n <= max_bucket_count -> n <= hc_grow 31 n 1 <= max_bucket_count.
Proof.
  intros Hn. assert (forall j b, (j <= 31)%nat -> b = 2 ^ Z.of_nat (32 - j) - 1 ->
    n <= hc_grow j n b <= max_bucket_count) as Hgen.
  { induction j as [|j IH]; intros b Hj ->.
    - simpl. unfold max_bucket_count in *. lia.
    - cbn [hc_grow]. destruct (Z.ltb_spec (2 ^ Z.of_nat (32 - S j) - 1) n); cbn [andb].
      2: { split; [done|]. unfold max_bucket_count.
           assert (2 ^ Z.of_nat (32 - S j) <= 2 ^ 32) as Hle by (apply Z.pow_le_mono_r; lia).
           change (2 ^ 32) with 4294967296 in Hle. lia. }
      assert (2 ^ Z.of_nat (32 - S j) <= 2 ^ 31) as Hle by (apply Z.pow_le_mono_r; lia).
      change (2 ^ 31) with 2147483648 in Hle.
      destruct (Z.ltb_spec (2 ^ Z.of_nat (32 - S j) - 1) max_bucket_count);
        [|unfold max_bucket_count in *; lia].
      apply IH; [lia|]. rewrite Z.shiftl_mul_pow2 by lia.
      replace (Z.of_nat (32 - j)) with (Z.of_nat (32 - S j) + 1) by lia.
      rewrite Z.pow_add_r by lia. change (2 ^ 1) with 2.
      assert (0 < 2 ^ Z.of_nat (32 - S j)) by (apply Z.pow_pos_nonneg; lia).
      rewrite u32_small by lia. lia. }
  by apply (Hgen 31%nat).
Qed.

Lemma hc_rehash_spec n c :
  hc_wf c -> hc_wf (hc_rehash hashcode n c) /\ hc_abs (hc_rehash hashcode n c) = hc_abs c.
Proof.
  intros Hwf. unfold hc_rehash. case_match; [done|].
  set (nb := Z.to_nat (hc_grow 31 n 1)).
  destruct (hm_resize0_spec hashcode nb (hc_map c)) as [Hm Ha];
    [pose proof (hc_grow_pos 31 n 1); lia|apply Hwf|].
  split; [|exact Ha]. split.
  - by eapply hm_wf_fields; [| |exact Hm].
  - apply Nat.le_0_l.
  - intros i Hi. by apply Nat.nlt_0_r in Hi.
Qed.

Lemma hc_balance_spec c :
  hc_wf c -> hc_wf (hc_balance hashcode c) /\ hc_abs (hc_balance hashcode c) = hc_abs c.
Proof. intros Hwf. unfold hc_balance. case_match; [by apply hc_rehash_spec|done]. Qed.

Lemma hc_chain_replicate n fb sz i : hc_chain (HashContainer (replicate n []) fb sz : hashcontainer K P) i = [].
Proof.
  unfold hc_chain. simpl. destruct (Nat.lt_ge_cases i n) as [Hi|Hi].
  - by rewrite lookup_replicate_2.
  - rewrite lookup_ge_None_2; [done|]. by rewrite length_replicate.
Qed.

Lemma hc_new_spec : hc_wf (hc_new : hashcontainer K P) /\ hc_abs (hc_new : hashcontainer K P) = ∅.
Proof.
  split; [split|].
  - eapply hm_wf_fields; [| |apply (hm_wf_new hashcode initial_bucket_count)]; [done|done|].
    unfold initial_bucket_count. lia.
  - done.
  - intros i _. apply hc_chain_replicate.
  - done.
Qed.

Lemma hc_clear_spec c : hc_wf c -> hc_wf (hc_clear c) /\ hc_abs (hc_clear c) = ∅.
Proof.
  intros Hwf. assert (concat (replicate (hc_nbuckets c) ([] : list (K * P))) = []) as Hnil
    by (generalize (hc_nbuckets c) as n; induction n; done).
  split; [split|].
  - eapply hm_wf_fields; [| |apply (hm_wf_new hashcode (hc_nbuckets c))]; [done|done|].
    apply (wf_buckets hashcode (hc_map c)), Hwf.
  - unfold hc_nbuckets, hc_clear. simpl. rewrite length_replicate. apply Hwf.
  - intros i _. apply hc_chain_replicate.
  - unfold hc_abs, hm_abs, hm_elems. simpl. by rewrite Hnil.
Qed.

Lemma hc_set_spec c k v balance :
  hc_wf c ->
  let '(old, c', it) := hc_set hashcode (hc_find hashcode c k) (Some (k, v)) balance c in
  hc_wf c' /\ hc_abs c' = <[k := v]> (hc_abs c) /\
  old = (fun v => (k, v)) <$> hc_abs c !! k /\ it_element it = Some (k, v).
Proof.
  intros Hwf. pose proof (hc_find_spec c k Hwf) as Hf. unfold hc_set.
  destruct (hc_abs c !! k) as [v0|] eqn:Hk.
  - destruct Hf as (i & Ef & _). rewrite Ef. cbn [it_element it_pos it_bucket].
    case_decide as E; [injection E as ->; by rewrite insert_id|].
    destruct (hc_replace_spec c k v0 v i) as [? ?]; [done..|]. by split_and!.
  - rewrite Hf. cbn [it_element it_pos it_bucket fst]. case_decide as E; [done|].
    destruct (_ && balance); cbn [it_element it_pos it_bucket fst].
    + destruct (hc_rehash_spec (Z.of_nat (hc_nbuckets c) + 1) c Hwf) as [Hw Ha].
      destruct (hc_link_spec (hc_rehash hashcode (Z.of_nat (hc_nbuckets c) + 1) c) k v)
        as [Hw' Ha']; [done|by rewrite Ha|]. rewrite Ha in Ha'. by split_and!.
    + destruct (hc_link_spec c k v) as [? ?]; [done..|]. by split_and!.
Qed.

Lemma hc_erase_spec c k :
  hc_wf c ->
  let '(old, c') := hc_erase hashcode k c in
  hc_wf c' /\ hc_abs c' = delete k (hc_abs c) /\ old = (fun v => (k, v)) <$> hc_abs c !! k.
Proof.
  intros Hwf. pose proof (hc_find_spec c k Hwf) as Hf. unfold hc_erase, hc_erase_at, hc_set.
  destruct (hc_abs c !! k) as [v|] eqn:Hk.
  - destruct Hf as (i & Ef & _). rewrite Ef. cbn [it_element it_pos it_bucket].
    case_decide; [done|]. destruct (hc_unlink_spec c k v i) as [? ?]; done.
  - rewrite Hf. cbn [it_element it_pos it_bucket]. rewrite decide_True by done.
    by rewrite delete_id.
Qed.

Lemma hc_size_spec c : hc_wf c -> hc_size c = size (hc_abs c).
Proof. intros Hwf. apply (hm_size_spec hashcode (hc_map c)), Hwf. Qed.

Lemma hc_elems_abs c : hc_wf c -> hc_elems c ≡ₚ map_to_list (hc_abs c).
Proof.
  intros Hwf. symmetry. apply map_to_list_to_map.
  apply (wf_nodup hashcode (hc_map c)), Hwf.
Qed.

(** ** Iteration *)

(** The elements from [it] on. *)
Definition hc_rest c it : list (K * P) :=
  match it_element it with
  | Some _ => drop (it_pos it) (hc_chain c (it_bucket it)) ++ concat (drop (S (it_bucket it)) (hc_buckets c))
  | None => []
  end.
(** [it] points at its element. *)
Definition hc_valid c it : Prop :=
  forall e, it_element it = Some e -> hc_chain c (it_bucket it) !! it_pos it = Some e.

Lemma hc_scan_rest c i bs :
  bs = drop i (hc_buckets c) ->
  hc_rest c (hc_scan i bs) = concat bs /\ hc_valid c (hc_scan i bs) /\
  (i <= it_bucket (hc_scan i bs))%nat /\ (it_bucket (hc_scan i bs) <= i + length bs)%nat /\
  (forall j, (i <= j < it_bucket (hc_scan i bs))%nat -> hc_chain c j = []).
Proof.
  revert i. induction bs as [|l bs IH]; intros i Hbs.
  { split_and!; simpl; try done; try lia. }
  assert (Hl : hc_buckets c !! i = Some l).
  { replace i with (i + 0)%nat by lia. by rewrite <- lookup_drop, <- Hbs. }
  assert (Hd : bs = drop (S i) (hc_buckets c)).
  { rewrite (drop_S _ _ _ Hl) in Hbs. by injection Hbs. }
  destruct l as [|e l].
  - destruct (IH (S i) Hd) as (H1 & H2 & H3 & H4 & H5). cbn [hc_scan]. split_and!; try done; try lia.
    + simpl. lia.
    + intros j Hj. destruct (decide (j = i)) as [-> |]; [by apply hc_chain_buckets|apply H5; lia].
  - cbn [hc_scan]. unfold hc_rest, hc_valid. cbn [it_element it_pos it_bucket].
    rewrite (hc_chain_buckets c i (e :: l) Hl), <- Hd. split_and!; simpl; try done; try lia.
Qed.

Lemma hc_valid_lt c it e :
  hc_valid c it -> it_element it = Some e -> (it_bucket it < hc_nbuckets c)%nat.
Proof.
  intros Hv He. specialize (Hv e He). unfold hc_chain in Hv.
  destruct (hc_buckets c !! it_bucket it) eqn:E; [by eapply lookup_lt_Some|done].
Qed.

Lemma hc_next_rest c it e :
  hc_valid c it -> it_element it = Some e ->
  hc_rest c it = e :: hc_rest c (hc_next c it) /\ hc_valid c (hc_next c it).
Proof.
  intros Hv He. pose proof (hc_valid_lt c it e Hv He) as Hlt. pose proof (Hv e He) as Hp.
  unfold hc_rest at 1. rewrite He. rewrite (drop_S _ _ _ Hp). unfold hc_next. rewrite He.
  destruct (hc_chain c (it_bucket it) !! S (it_pos it)) as [e'|] eqn:E'.
  - split; [|by intros ? [= <-]]. done.
  - destruct (Nat.eqb_spec (it_bucket it) (hc_nbuckets c)); [lia|].
    destruct (hc_scan_rest c (S (it_bucket it)) _ eq_refl) as (Hr & Hv' & _). rewrite Hr.
    split; [|done]. apply lookup_ge_None_1 in E'. by rewrite (drop_ge _ (S (it_pos it))) by done.
Qed.

Lemma hc_iterate_rest c it fuel :
  hc_valid c it -> (length (hc_rest c it) <= fuel)%nat -> hc_iterate fuel c it = hc_rest c it.
Proof.
  revert it. induction fuel as [|fuel IH]; intros it Hv Hf.
  - destruct (hc_rest c it); [done|]. simpl in Hf. lia.
  - simpl. destruct (it_element it) as [e|] eqn:He; [|unfold hc_rest; by rewrite He].
    destruct (hc_next_rest c it e Hv He) as [E Hv']. rewrite E in Hf |- *. f_equal.
    apply IH; [done|]. simpl in Hf. lia.
Qed.

Lemma hc_begin_spec c :
  hc_wf c ->
  let '(it, c') := hc_begin c in
  hc_rest c' it = hc_elems c /\ hc_valid c' it /\ hc_wf c' /\ hc_buckets c' = hc_buckets c /\
  hc_n c' = hc_n c.
Proof.
  intros Hwf. pose proof Hwf as [Hm Hf He]. unfold hc_begin.
  assert (Hpre : forall i, (i <= hc_nbuckets c)%nat -> (forall j, (j < i)%nat -> hc_chain c j = []) ->
    hc_elems c = concat (drop i (hc_buckets c))).
  { intros i Hi. induction i as [|i IH]; intros Hj; [done|].
    rewrite IH by (first [lia|intros; apply Hj; lia]).
    destruct (lookup_lt_is_Some_2 (hc_buckets c) i) as [l Hl]; [unfold hc_nbuckets in *; lia|].
    rewrite (drop_S _ _ _ Hl). simpl. specialize (Hj i ltac:(lia)).
    rewrite (hc_chain_buckets _ _ _ Hl) in Hj. by subst. }
  destruct (Nat.eqb_spec (hc_first_bucket c) (hc_nbuckets c)) as [E|E].
  { split_and!; try done. unfold hc_rest. simpl. rewrite (Hpre (hc_nbuckets c)); [|lia|].
    - by rewrite drop_ge.
    - by rewrite <- E. }
  destruct (lookup_lt_is_Some_2 (hc_buckets c) (hc_first_bucket c)) as [l Hl];
    [unfold hc_nbuckets in *; lia|].
  pose proof (hc_chain_buckets _ _ _ Hl) as Hc. rewrite Hc. destruct l as [|e l].
  - unfold hc_next. cbn [it_element it_pos it_bucket].
    destruct (Nat.eqb_spec (hc_first_bucket c) (hc_nbuckets c)); [done|].
    destruct (hc_scan_rest c (S (hc_first_bucket c)) _ eq_refl) as (Hr & Hv & Hlo & Hhi & Hnil).
    set (it := hc_scan _ _) in *. rewrite length_drop in Hhi. split_and!; try done.
    + change (hc_rest c it = hc_elems c). rewrite Hr.
      rewrite (Hpre (hc_first_bucket c)) by (first [done|lia]). by rewrite (drop_S _ _ _ Hl).
    + split; [done| |].
      * unfold hc_nbuckets in *. simpl. lia.
      * intros i Hi. simpl in Hi. change (hc_chain c i = []).
        destruct (Nat.lt_ge_cases i (S (hc_first_bucket c))).
        -- destruct (decide (i = hc_first_bucket c)) as [-> |]; [done|apply He; lia].
        -- apply Hnil. lia.
  - split_and!; try done.
    + unfold hc_rest. cbn [it_element it_pos it_bucket]. rewrite Hc.
      rewrite (Hpre (hc_first_bucket c)) by (first [done|lia]). by rewrite (drop_S _ _ _ Hl).
    + intros e' [= <-]. cbn [it_pos it_bucket]. by rewrite Hc.
Qed.

Lemma hc_valid_find c it k v :
  hc_wf c -> hc_valid c it -> it_element it = Some (k, v) ->
  hc_abs c !! k = Some v /\ it = hc_find hashcode c k.
Proof.
  intros Hwf Hv He. pose proof (hc_valid_lt c it _ Hv He) as Hlt. pose proof (Hv _ He) as Hp.
  destruct (lookup_lt_is_Some_2 (hc_buckets c) (it_bucket it) Hlt) as [l Hl].
  pose proof (hc_chain_buckets _ _ _ Hl) as Hc. rewrite Hc in Hp.
  pose proof (wf_nodup hashcode _ (hcw_map _ Hwf)) as Hnd.
  assert (Ee : hc_elems c = concat (take (it_bucket it) (hc_buckets c)) ++ l ++
    concat (drop (S (it_bucket it)) (hc_buckets c))).
  { unfold hc_elems. rewrite <- (take_drop_middle _ _ _ Hl) at 1. by rewrite concat_app. }
  assert (Hk : hc_abs c !! k = Some v).
  { apply elem_of_list_to_map; [done|]. change (hm_elems (hc_map c)) with (hc_elems c). rewrite Ee.
    rewrite !elem_of_app. right; left. by eapply list_elem_of_lookup_2. }
  split; [done|]. pose proof (hc_find_spec c k Hwf) as Hf. rewrite Hk in Hf.
  destruct Hf as (i & -> & Hi & _).
  assert (Hb : hc_bucket hashcode c k = it_bucket it).
  { pose proof (wf_placed hashcode _ (hcw_map _ Hwf) _ _ Hl) as Hall.
    rewrite list.Forall_forall in Hall. apply (Hall (k, v)). by eapply list_elem_of_lookup_2. }
  rewrite Hb in Hi |- *. rewrite Hc in Hi.
  assert (i = it_pos it) as ->.
  { change (hm_elems (hc_map c)) with (hc_elems c) in Hnd. rewrite Ee, !fmap_app in Hnd.
    apply list.NoDup_app in Hnd as (_ & _ & (Hnd & _)%list.NoDup_app).
    eapply (NoDup_lookup _ _ _ k Hnd); rewrite list_lookup_fmap; [by rewrite Hi|by rewrite Hp]. }
  destruct it as [e p b]. simpl in *. by subst e.
Qed.

(** Erasing while iterating: the iterator moves on to the next element. *)
Lemma hc_erase_at_spec c it k v :
  hc_wf c -> hc_valid c it -> it_element it = Some (k, v) ->
  let '(old, c', it') := hc_erase_at hashcode it c in
  old = Some (k, v) /\ hc_wf c' /\ hc_abs c !! k = Some v /\ hc_abs c' = delete k (hc_abs c) /\
  hc_valid c' it' /\ hc_rest c it = (k, v) :: hc_rest c' it'.
Proof.
  intros Hwf Hv He. destruct (hc_valid_find c it k v Hwf Hv He) as [Hk Hit].
  pose proof (hc_valid_lt c it _ Hv He) as Hlt. pose proof (Hv _ He) as Hp.
  pose proof (hc_find_spec c k Hwf) as Hf. rewrite Hk in Hf. destruct Hf as (i & Ef & _).
  rewrite Ef in Hit. destruct (hc_unlink_spec c k v i) as [Hw Ha]; [done..|].
  subst it. unfold hc_erase_at, hc_set. cbn [it_element it_pos it_bucket] in *.
  rewrite decide_False by done. set (b := hc_bucket hashcode c k) in *.
  set (c' := HashContainer _ _ _) in *.
  assert (Hch : hc_chain c' b = hc_remove_chain i (hc_chain c b)).
  { unfold c'. rewrite hc_chain_alter by done. by rewrite decide_True. }
  assert (Hnext : hc_chain c' b !! i = hc_chain c b !! S i).
  { rewrite Hch. unfold hc_remove_chain. pose proof (lookup_lt_Some _ _ _ Hp).
    rewrite lookup_app_r by (rewrite length_take; lia). rewrite length_take, lookup_drop.
    f_equal. lia. }
  assert (Hdr : drop i (hc_chain c' b) = drop (S i) (hc_chain c b)).
  { rewrite Hch. unfold hc_remove_chain. pose proof (lookup_lt_Some _ _ _ Hp).
    rewrite drop_app_ge by (rewrite length_take; lia). rewrite length_take.
    by replace (i - i `min` length (hc_chain c b))%nat with 0%nat by lia. }
  assert (Hbs : drop (S b) (hc_buckets c') = drop (S b) (hc_buckets c))
    by (unfold c'; simpl hc_buckets; by rewrite drop_alter_lt by lia).
  unfold hc_rest at 1. cbn [it_element it_pos it_bucket]. rewrite (drop_S _ _ _ Hp), <- Hdr, <- Hbs.
  rewrite Hnext. destruct (hc_chain c b !! S i) as [e'|] eqn:E'.
  - split_and!; try done. intros ? [= <-]. cbn [it_pos it_bucket]. by rewrite Hnext.
  - unfold hc_next. cbn [it_element it_pos it_bucket].
    destruct (Nat.eqb_spec b (hc_nbuckets c')) as [E|E].
    { exfalso. unfold hc_nbuckets, c' in E. simpl in E. rewrite length_alter in E.
      unfold hc_nbuckets in Hlt. lia. }
    destruct (hc_scan_rest c' (S b) _ eq_refl) as (Hr & Hv' & _). rewrite Hr.
    split_and!; try done. apply lookup_ge_None_1 in E'. by rewrite Hdr, drop_ge by done.
Qed.
End HcLemmas.

#[export] Instance hashcontainer_assoc {P} `{EqDecision P} : AssocMap P (hashcontainer Z P) := {
  am_find k c := snd <$> hc_get IPAddress_hashcode c k;
  am_insert k v c := snd (hc_put IPAddress_hashcode (k, v) c);
  am_erase k c := snd (hc_erase IPAddress_hashcode k c);
  am_size c := hc_size c;
  am_elems c := hc_iterate (hc_size c) (snd (hc_begin c)) (fst (hc_begin c));
  am_wf c := hc_wf IPAddress_hashcode c
}.

Lemma hc_find_abs {P} `{EqDecision P} k (c : hashcontainer Z P) :
  hc_wf IPAddress_hashcode c -> snd <$> hc_get IPAddress_hashcode c k = hc_abs c !! k.
Proof. intros Hwf. rewrite hc_get_spec by done. by destruct (hc_abs c !! k). Qed.

Lemma hc_put_spec {P} `{EqDecision P} k v (c : hashcontainer Z P) :
  hc_wf IPAddress_hashcode c ->
  let '(old, c') := hc_put IPAddress_hashcode (k, v) c in
  hc_wf IPAddress_hashcode c' /\ hc_abs c' = <[k := v]> (hc_abs c) /\
  old = (fun v => (k, v)) <$> hc_abs c !! k.
Proof.
  intros Hwf. pose proof (hc_set_spec IPAddress_hashcode c k v false Hwf) as Hs.
  unfold hc_put. cbn [fst]. destruct (hc_set _ _ _ _ _) as [[old c'] it]. tauto.
Qed.

Lemma hc_iterate_elems {P} `{EqDecision P} (c : hashcontainer Z P) :
  hc_wf IPAddress_hashcode c ->
  hc_iterate (hc_size c) (snd (hc_begin c)) (fst (hc_begin c)) = hc_elems c.
Proof.
  intros Hwf. pose proof (hc_begin_spec IPAddress_hashcode c Hwf) as Hb.
  destruct (hc_begin c) as [it c']. destruct Hb as (Hr & Hv & _). cbn [fst snd].
  rewrite hc_iterate_rest; rewrite ?Hr; [done|done|].
  change (length (hm_elems (hc_map c)) <= hm_n (hc_map c))%nat.
  by rewrite (wf_n IPAddress_hashcode (hc_map c)) by apply Hwf.
Qed.

(** [HashContainer] keeps the promises [HashMap] keeps. *)
#[export] Instance hashcontainer_assoc_laws {P} `{EqDecision P} : AssocMapLaws P (hashcontainer Z P).
Proof.
  split; cbn; intros.
  - pose proof (hc_put_spec k v m) as Hp. destruct (hc_put _ _ _). by apply Hp.
  - pose proof (hc_erase_spec IPAddress_hashcode m k) as Hp. destruct (hc_erase _ _ _). by apply Hp.
  - pose proof (hc_put_spec k v m) as Hp. destruct (hc_put _ _ _) as [old c']. cbn [snd].
    destruct Hp as (Hw & Ha & _); [done|]. rewrite hc_find_abs, Ha by done. by rewrite lookup_insert_eq.
  - pose proof (hc_put_spec k v m) as Hp. destruct (hc_put _ _ _) as [old c']. cbn [snd].
    destruct Hp as (Hw & Ha & _); [done|]. rewrite !hc_find_abs, Ha by done.
    by rewrite lookup_insert_ne.
  - pose proof (hc_erase_spec IPAddress_hashcode m k) as Hp. destruct (hc_erase _ _ _) as [old c'].
    destruct Hp as (Hw & Ha & _); [done|]. cbn [snd]. rewrite hc_find_abs, Ha by done.
    by rewrite lookup_delete_eq.
  - pose proof (hc_erase_spec IPAddress_hashcode m k) as Hp. destruct (hc_erase _ _ _) as [old c'].
    destruct Hp as (Hw & Ha & _); [done|]. cbn [snd]. rewrite !hc_find_abs, Ha by done.
    by rewrite lookup_delete_ne.
  - rewrite hc_iterate_elems by done. exact (wf_n IPAddress_hashcode (hc_map m) (hcw_map _ m ltac:(done))).
  - rewrite hc_iterate_elems, hc_find_abs by done. unfold hc_abs, hm_abs.
    rewrite <- elem_of_list_to_map; [done|]. exact (wf_nodup IPAddress_hashcode (hc_map m) (hcw_map _ m ltac:(done))).
Qed.

(** The intrusive hash table is a finite map from keys to elements.  Under its
    representation invariant, which includes that every bucket below the cached first one is
    empty, [find] and [get] look up, [set] at an iterator from [find] inserts and returns the
    element it replaces, also when it makes the table grow, [erase] deletes, [balance]
    changes nothing, an iteration from [begin] visits every element once, and erasing at the
    iterator removes the element it points at and moves it to the next. *)
Theorem HashContainer_refines_map {P} `{EqDecision P} (c : hashcontainer Z P) (k : Z) (v : P)
    (balance : bool) :
  let h := IPAddress_hashcode in
  hc_wf h (hc_new : hashcontainer Z P) /\ hc_abs (hc_new : hashcontainer Z P) = ∅ /\
  (hc_wf h c ->
   hc_get h c k = (fun v => (k, v)) <$> hc_abs c !! k /\ hc_size c = size (hc_abs c) /\
   (let '(old, c', it) := hc_set h (hc_find h c k) (Some (k, v)) balance c in
    hc_wf h c' /\ hc_abs c' = <[k := v]> (hc_abs c) /\
    old = (fun v => (k, v)) <$> hc_abs c !! k /\ it_element it = Some (k, v)) /\
   (let '(old, c') := hc_erase h k c in
    hc_wf h c' /\ hc_abs c' = delete k (hc_abs c) /\ old = (fun v => (k, v)) <$> hc_abs c !! k) /\
   (hc_wf h (hc_balance h c) /\ hc_abs (hc_balance h c) = hc_abs c) /\
   (let '(it, c') := hc_begin c in
    hc_wf h c' /\ hc_abs c' = hc_abs c /\ hc_valid c' it /\
    hc_iterate (hc_size c) c' it ≡ₚ map_to_list (hc_abs c)) /\
   (forall it k v, hc_valid c it -> it_element it = Some (k, v) ->
    let '(old, c', it') := hc_erase_at h it c in
    old = Some (k, v) /\ hc_wf h c' /\ hc_abs c' = delete k (hc_abs c) /\ hc_valid c' it' /\
    hc_rest c it = (k, v) :: hc_rest c' it')).
Proof.
  intros h. split; [apply hc_new_spec|]. split; [done|]. intros Hwf.
  split; [by apply hc_get_spec|]. split; [by apply (hc_size_spec h)|].
  split; [by apply hc_set_spec|]. split; [by apply hc_erase_spec|].
  split; [by apply hc_balance_spec|]. split.
  - pose proof (hc_iterate_elems c Hwf) as Hit. pose proof (hc_begin_spec h c Hwf) as Hb.
    destruct (hc_begin c) as [it c']. destruct Hb as (_ & Hv & Hw & Eb & En). cbn [fst snd] in Hit.
    split_and!; [done| |done|].
    + unfold hc_abs, hm_abs, hm_elems. simpl. by rewrite Eb.
    + rewrite Hit. by apply (hc_elems_abs h).
  - intros it k' v' Hv He. pose proof (hc_erase_at_spec h c it k' v' Hwf Hv He) as Hs.
    destruct (hc_erase_at h it c) as [[old c'] it']. tauto.
Qed.

Theorem HashContainer_refines_map_witness :
  hc_size (hc_new : hashcontainer Z nat) = size (∅ : gmap Z nat).
Proof.
  apply (proj2 (proj2 (HashContainer_refines_map (hc_new : hashcontainer Z nat) 5 7%nat true))).
  apply (proj1 (HashContainer_refines_map (hc_new : hashcontainer Z nat) 5 7%nat true)).
Defined.
