(* ===== verification/Packet.v ===== *)
(** * Packets: [lib/packet.cc] and the inline operations of [include/click/packet.hh]

    A packet owns a buffer [[_head, _end)] split by [_data] and [_tail] into headroom, data
    and tailroom; here the three are lists of bytes.  Header pointers are kept as offsets from
    [_head].  Allocation takes the memory the allocator returns as an argument: [None] when it
    fails, else the (arbitrary) initial content of the block.  Lengths are natural numbers: the
    code's are [uint32_t], and a buffer is shorter than 2^31 bytes; the amounts that [push] and
    [put] ask [expensive_uniqueify] for are computed with their wrap-around. *)
From Stdlib Require Import ZArith Lia.
From stdpp Require Import base list numbers option.
From S2P Require Import Prelude.

(** [Packet::PacketType] *)
Inductive packet_type : Type :=
| HOST | BROADCAST | MULTICAST | OTHERHOST | OUTGOING | LOOPBACK | FASTROUTE.

#[global] Instance packet_type_eq_dec : EqDecision packet_type.
Proof. solve_decision. Defined.

Record packet : Type := MkPacket {
  pk_head : list Z;        (* [[_head, _data)] *)
  pk_data : list Z;        (* [[_data, _tail)] *)
  pk_tail : list Z;        (* [[_tail, _end)] *)
  pk_shared : bool;        (* [shared()]: a clone refers to the same buffer *)
  pk_anno : list Z;        (* the 48 bytes of [Anno] *)
  pk_ptype : packet_type;
  pk_mac : option Z;       (* [_aa.mac], [_aa.nh], [_aa.h], from [_head] *)
  pk_nh : option Z;
  pk_h : option Z
}.

Definition memory : Type := option (nat -> Z).

Definition junk (m : nat -> Z) (start n : nat) : list Z :=
  map (fun i => m i mod 256) (seq start n).

Definition anno_size : nat := 48.
Definition DST_IP_ANNO_OFFSET : nat := 0.
Definition PAINT_ANNO_OFFSET : nat := 16.
Definition ICMP_PARAMPROB_ANNO_OFFSET : nat := 17.
Definition FIX_IP_SRC_ANNO_OFFSET : nat := 19.

(** ** Sizes *)
Definition headroom (p : packet) : nat := length (pk_head p).
Definition plength (p : packet) : nat := length (pk_data p).
Definition tailroom (p : packet) : nat := length (pk_tail p).
Definition buffer_length (p : packet) : nat := headroom p + plength p + tailroom p.

(** ** Allocation *)
Definition CLICK_PACKET_POOL_BUFSIZ : nat := 2048.
Definition min_buffer_length : nat := 64.
(** [Packet::default_headroom] *)
Definition default_headroom : nat := 28.

(** [WritablePacket::pool_allocate(headroom, length, tailroom)], with [initialize()]. *)
Definition pool_allocate (mem : memory) (hroom len troom : nat) : option packet :=
  m ← mem;
  let n := Nat.max (hroom + len + troom) CLICK_PACKET_POOL_BUFSIZ in
  Some (MkPacket (junk m 0 hroom) (junk m hroom len) (junk m (hroom + len) (n - hroom - len))
          false (replicate anno_size 0) HOST None None None).

(** [Packet::make(headroom, data, length, tailroom)]; [data = None] is the null pointer. *)
Definition make (mem : memory) (hroom : nat) (data : option (list Z)) (len troom : nat)
  : res (option packet) :=
  match pool_allocate mem hroom len troom, data with
  | Some p, Some d =>
      if (len <=? length d)%nat then
        Ok (Some (MkPacket (pk_head p) (take len d) (pk_tail p) (pk_shared p) (pk_anno p)
                    (pk_ptype p) (pk_mac p) (pk_nh p) (pk_h p)))
      else Fault OutOfBounds
  | o, _ => Ok o
  end.

(** [memset(p->data(), 0, p->length())] *)
Definition memset0 (p : packet) : packet :=
  MkPacket (pk_head p) (replicate (plength p) 0) (pk_tail p) (pk_shared p) (pk_anno p)
    (pk_ptype p) (pk_mac p) (pk_nh p) (pk_h p).

Definition set_shared (b : bool) (p : packet) : packet :=
  MkPacket (pk_head p) (pk_data p) (pk_tail p) b (pk_anno p) (pk_ptype p) (pk_mac p) (pk_nh p)
    (pk_h p).

(** The packet [Packet::clone()] fills in, once its header is allocated: both the packet and
    its clone become shared. *)
Definition clone (p : packet) : packet := set_shared true p.
(** [Packet::clone()], null without memory for the header. *)
Definition packet_clone (mem : memory) (p : packet) : option packet :=
  match mem with Some _ => Some (clone p) | None => None end.

(** [Packet::expensive_uniqueify]: a new buffer with the old one copied into it.
    [None] when the allocation fails (the packet is then freed). *)
Definition expensive_uniqueify (mem : memory) (extra_headroom extra_tailroom : Z) (p : packet)
  : res (option packet) :=
  if (- Z.of_nat (headroom p) <=? extra_headroom) && (- Z.of_nat (tailroom p) <=? extra_tailroom)
  then
    match mem with
    | None => Ok None
    | Some m =>
        let head := if 0 <=? extra_headroom
                    then junk m 0 (Z.to_nat extra_headroom) ++ pk_head p
                    else drop (Z.to_nat (- extra_headroom)) (pk_head p) in
        let tail := if 0 <=? extra_tailroom
                    then pk_tail p ++ junk m (length head + plength p + tailroom p)
                                        (Z.to_nat extra_tailroom)
                    else take (tailroom p - Z.to_nat (- extra_tailroom)) (pk_tail p) in
        let n := (length head + plength p + length tail)%nat in
        let shift := option_map (fun o => o + extra_headroom) in
        Ok (Some (MkPacket head (pk_data p) (tail ++ junk m n (min_buffer_length - n)) false
                    (pk_anno p) (pk_ptype p)
                    (shift (pk_mac p)) (shift (pk_nh p)) (shift (pk_h p))))
    end
  else Fault AssertFailed.

Definition uniqueify (mem : memory) (p : packet) : res (option packet) :=
  if pk_shared p then expensive_uniqueify mem 0 0 p else Ok (Some p).

(** [_data -= len] *)
Definition data_back (len : nat) (p : packet) : packet :=
  let k := (headroom p - len)%nat in
  MkPacket (take k (pk_head p)) (drop k (pk_head p) ++ pk_data p) (pk_tail p) (pk_shared p)
    (pk_anno p) (pk_ptype p) (pk_mac p) (pk_nh p) (pk_h p).

(** [(nbytes + 128) & ~3] is computed on [uint32_t] and passed as an [int32_t]; a pointer that
    leaves the buffer is a fault. *)
Definition expensive_push (mem : memory) (nbytes : nat) (p : packet) : res (option packet) :=
  mq ← expensive_uniqueify mem (s32 (Z.land (u32 (Z.of_nat nbytes + 128)) (Z.lnot 3))) 0 p;
  match mq with
  | Some q => if (nbytes <=? headroom q)%nat then Ok (Some (data_back nbytes q)) else Fault OutOfBounds
  | None => Ok None
  end.

Definition push (mem : memory) (len : nat) (p : packet) : res (option packet) :=
  if (len <=? headroom p)%nat && negb (pk_shared p) then Ok (Some (data_back len p))
  else expensive_push mem len p.

Definition nonunique_push (mem : memory) (len : nat) (p : packet) : res (option packet) :=
  if (len <=? headroom p)%nat then Ok (Some (data_back len p)) else expensive_push mem len p.

Definition pull (len : nat) (p : packet) : packet :=
  let len := if (plength p <? len)%nat then plength p else len in
  MkPacket (pk_head p ++ take len (pk_data p)) (drop len (pk_data p)) (pk_tail p) (pk_shared p)
    (pk_anno p) (pk_ptype p) (pk_mac p) (pk_nh p) (pk_h p).

(** [_tail += len] *)
Definition tail_forth (len : nat) (p : packet) : packet :=
  MkPacket (pk_head p) (pk_data p ++ take len (pk_tail p)) (drop len (pk_tail p)) (pk_shared p)
    (pk_anno p) (pk_ptype p) (pk_mac p) (pk_nh p) (pk_h p).

Definition expensive_put (mem : memory) (nbytes : nat) (p : packet) : res (option packet) :=
  mq ← expensive_uniqueify mem 0 (s32 (u32 (Z.of_nat nbytes + 128))) p;
  match mq with
  | Some q => if (nbytes <=? tailroom q)%nat then Ok (Some (tail_forth nbytes q)) else Fault OutOfBounds
  | None => Ok None
  end.

Definition put (mem : memory) (len : nat) (p : packet) : res (option packet) :=
  if (len <=? tailroom p)%nat && negb (pk_shared p) then Ok (Some (tail_forth len p))
  else expensive_put mem len p.

Definition ptake (len : nat) (p : packet) : packet :=
  let len := if (plength p <? len)%nat then plength p else len in
  let k := (plength p - len)%nat in
  MkPacket (pk_head p) (take k (pk_data p)) (drop k (pk_data p) ++ pk_tail p) (pk_shared p)
    (pk_anno p) (pk_ptype p) (pk_mac p) (pk_nh p) (pk_h p).

(** ** Annotations *)
Definition set_anno (a : list Z) (p : packet) : packet :=
  MkPacket (pk_head p) (pk_data p) (pk_tail p) (pk_shared p) a (pk_ptype p) (pk_mac p) (pk_nh p)
    (pk_h p).
Definition anno_u8 (i : nat) (p : packet) : res Z :=
  if (i <? anno_size)%nat then ld 1 (pk_anno p) i else Fault AssertFailed.
Definition set_anno_u8 (i : nat) (x : Z) (p : packet) : res packet :=
  if (i <? anno_size)%nat then Ok (set_anno (wrn 1 (pk_anno p) i x) p) else Fault AssertFailed.
Definition dst_ip_anno (p : packet) : option Z := rdn 4 (pk_anno p) DST_IP_ANNO_OFFSET.
Definition set_dst_ip_anno (a : Z) (p : packet) : packet :=
  set_anno (wrn 4 (pk_anno p) DST_IP_ANNO_OFFSET a) p.
Definition set_packet_type_anno (t : packet_type) (p : packet) : packet :=
  MkPacket (pk_head p) (pk_data p) (pk_tail p) (pk_shared p) (pk_anno p) t (pk_mac p) (pk_nh p)
    (pk_h p).

(** ** Header pointers: [pos] counts from [_head] *)
Definition set_network_header (pos len : Z) (p : packet) : res packet :=
  if (0 <=? pos) && (pos + len <=? Z.of_nat (buffer_length p)) then
    Ok (MkPacket (pk_head p) (pk_data p) (pk_tail p) (pk_shared p) (pk_anno p) (pk_ptype p)
          (pk_mac p) (Some pos) (Some (pos + len)))
  else Fault AssertFailed.
Definition set_mac_header (pos len : Z) (p : packet) : res packet :=
  if (0 <=? pos) && (pos + len <=? Z.of_nat (buffer_length p)) then
    Ok (MkPacket (pk_head p) (pk_data p) (pk_tail p) (pk_shared p) (pk_anno p) (pk_ptype p)
          (Some pos) (Some (pos + len)) (pk_h p))
  else Fault AssertFailed.
Definition has_network_header (p : packet) : bool := bool_decide (is_Some (pk_nh p)).
Definition network_header_offset (p : packet) : res Z :=
  o ← opt_res NullDeref (pk_nh p); Ok (o - Z.of_nat (headroom p)).
Definition transport_header_offset (p : packet) : res Z :=
  o ← opt_res NullDeref (pk_h p); Ok (o - Z.of_nat (headroom p)).

(** ** Loads and stores

    [pld n p off] is an [n]-byte load at [data() + off]; it may run into the tailroom but not
    past [_end].  [pst] is the store.  [pldh] and [psth] take an offset from [_head]. *)
Definition pld (n : nat) (p : packet) (off : nat) : res Z := ld n (pk_data p ++ pk_tail p) off.
Definition pmem (p : packet) : list Z := pk_head p ++ pk_data p ++ pk_tail p.
Definition pldh (n : nat) (p : packet) (pos : nat) : res Z := ld n (pmem p) pos.

(** The [n] bytes at [data() + off]. *)
Definition pbytes (p : packet) (off n : nat) : res (list Z) :=
  if (off + n <=? plength p + tailroom p)%nat
  then Ok (take n (drop off (pk_data p ++ pk_tail p))) else Fault OutOfBounds.
Definition pbytesh (p : packet) (pos n : nat) : res (list Z) :=
  if (pos + n <=? buffer_length p)%nat then Ok (take n (drop pos (pmem p)))
  else Fault OutOfBounds.

(** Replace the buffer content, keeping the pointers. *)
Definition set_mem (m : list Z) (p : packet) : packet :=
  MkPacket (take (headroom p) m) (take (plength p) (drop (headroom p) m))
    (drop (headroom p + plength p) m) (pk_shared p) (pk_anno p) (pk_ptype p) (pk_mac p)
    (pk_nh p) (pk_h p).
Definition psth (n : nat) (p : packet) (pos : nat) (v : Z) : res packet :=
  if (pos + n <=? buffer_length p)%nat then Ok (set_mem (wrn n (pmem p) pos v) p)
  else Fault OutOfBounds.
Definition pst (n : nat) (p : packet) (off : nat) (v : Z) : res packet :=
  if (off + n <=? plength p + tailroom p)%nat then psth n p (headroom p + off) v
  else Fault OutOfBounds.

Definition set_data (d : list Z) (p : packet) : packet :=
  MkPacket (pk_head p) d (pk_tail p) (pk_shared p) (pk_anno p) (pk_ptype p) (pk_mac p) (pk_nh p)
    (pk_h p).

(** ** Lemmas *)

(** A well-formed packet: bytes in the buffer, 48 annotation bytes. *)
Record pk_wf (p : packet) : Prop := {
  wf_head : bytes_ok (pk_head p);
  wf_data : bytes_ok (pk_data p);
  wf_tail : bytes_ok (pk_tail p);
  wf_anno_len : length (pk_anno p) = anno_size;
  wf_anno : bytes_ok (pk_anno p)
}.

Lemma length_junk m s n : length (junk m s n) = n.
Proof. unfold junk. by rewrite length_map, length_seq. Qed.
Lemma junk_ok m s n : bytes_ok (junk m s n).
Proof.
  unfold bytes_ok, junk. apply Forall_map, List.Forall_forall. intros i _.
  apply Z.mod_pos_bound. lia.
Qed.
#[export] Hint Resolve junk_ok : bytes.
#[export] Hint Rewrite length_junk : bytes.

Lemma pk_eq p q :
  pk_head p = pk_head q -> pk_data p = pk_data q -> pk_tail p = pk_tail q ->
  pk_shared p = pk_shared q -> pk_anno p = pk_anno q -> pk_ptype p = pk_ptype q ->
  pk_mac p = pk_mac q -> pk_nh p = pk_nh q -> pk_h p = pk_h q -> p = q.
Proof. destruct p, q; simpl; congruence. Qed.

Lemma pull_data_back len p : (len <= headroom p)%nat -> pull len (data_back len p) = p.
Proof.
  intros H. unfold headroom in H.
  assert (Hd : length (drop (headroom p - len) (pk_head p)) = len)
    by (rewrite length_drop; unfold headroom; lia).
  assert (Hlt : (plength (data_back len p) <? len)%nat = false).
  { apply Nat.ltb_ge. unfold plength, data_back. simpl. rewrite length_app. lia. }
  unfold pull. rewrite Hlt. apply pk_eq; try done; simpl.
  - rewrite take_app_length' by done. apply take_drop.
  - by rewrite drop_app_length' by done.
Qed.

Lemma data_back_pull len p : (len <= plength p)%nat -> data_back len (pull len p) = p.
Proof.
  intros H. unfold plength in H.
  assert (Hlt : (plength p <? len)%nat = false) by (apply Nat.ltb_ge; done).
  assert (Ht : length (take len (pk_data p)) = len) by (rewrite length_take; lia).
  assert (Hk : (headroom (pull len p) - len = headroom p)%nat).
  { unfold headroom, pull. rewrite Hlt. simpl. rewrite length_app, Ht. lia. }
  unfold data_back. rewrite Hk. unfold pull. rewrite Hlt. apply pk_eq; try done; simpl;
    unfold headroom.
  - by rewrite take_app_length.
  - rewrite drop_app_length. apply take_drop.
Qed.

Lemma plength_data_back len p :
  (len <= headroom p)%nat -> plength (data_back len p) = (len + plength p)%nat.
Proof.
  intros. unfold plength, data_back. simpl. rewrite length_app, length_drop.
  unfold headroom in *. lia.
Qed.

Lemma plength_pull len p : (len <= plength p)%nat -> plength (pull len p) = (plength p - len)%nat.
Proof.
  intros H. unfold pull. destruct (Nat.ltb_spec (plength p) len); [lia|].
  unfold plength. simpl. by rewrite length_drop.
Qed.

Lemma pull_data len p : pk_data (pull len p) = drop len (pk_data p).
Proof.
  unfold pull. simpl. destruct (Nat.ltb_spec (plength p) len); [|done].
  unfold plength in *. by rewrite !drop_ge by lia.
Qed.

(** Loads and stores that stay inside the data. *)
Lemma pld_data n p off :
  (off + n <= plength p)%nat -> pld n p off = ld n (pk_data p) off.
Proof. intros. unfold pld, ld. by rewrite rdn_app_l. Qed.

Lemma pst_data n p off v :
  (off + n <= plength p)%nat -> pst n p off v = Ok (set_data (wrn n (pk_data p) off v) p).
Proof.
  intros H. unfold plength in H. unfold pst, psth, buffer_length, plength, tailroom, headroom.
  destruct (Nat.leb_spec (off + n) (length (pk_data p) + length (pk_tail p))); [|lia].
  destruct (Nat.leb_spec (length (pk_head p) + off + n)
    (length (pk_head p) + length (pk_data p) + length (pk_tail p))); [|lia].
  unfold pmem. rewrite wrn_app_r, wrn_app_l by done. f_equal.
  apply pk_eq; try done; simpl; unfold headroom, plength.
  - by rewrite take_app_length.
  - rewrite drop_app_length. apply take_app_length'. by rewrite length_wrn.
  - rewrite <- drop_drop, drop_app_length. apply drop_app_length'. by rewrite length_wrn.
Qed.

Lemma pbytes_data p off n :
  (off + n <= plength p)%nat -> pbytes p off n = Ok (take n (drop off (pk_data p))).
Proof.
  intros H. unfold pbytes. destruct (Nat.leb_spec (off + n) (plength p + tailroom p)); [|lia].
  unfold plength in H. f_equal. rewrite drop_app_le by lia. apply take_app_le.
  rewrite length_drop. lia.
Qed.

(** ** Uniqueification and growth *)

(** The network header's offset from the data, the quantity a client sees. *)
Definition nh_rel (p : packet) : option Z :=
  option_map (fun o => o - Z.of_nat (headroom p)) (pk_nh p).

Lemma expensive_uniqueify_spec m eh et p :
  0 <= eh -> 0 <= et ->
  exists q, expensive_uniqueify (Some m) eh et p = Ok (Some q) /\
    pk_shared q = false /\ pk_data q = pk_data p /\ pk_anno q = pk_anno p /\
    pk_ptype q = pk_ptype p /\ nh_rel q = nh_rel p /\
    headroom q = (headroom p + Z.to_nat eh)%nat /\
    drop (Z.to_nat eh) (pk_head q) = pk_head p /\
    (exists t, pk_tail q = pk_tail p ++ t /\ (Z.to_nat et <= length t)%nat) /\
    (pk_wf p -> pk_wf q).
Proof.
  intros Heh Het. unfold expensive_uniqueify.
  destruct (Z.leb_spec (- Z.of_nat (headroom p)) eh); [|lia].
  destruct (Z.leb_spec (- Z.of_nat (tailroom p)) et); [|lia]. simpl.
  destruct (Z.leb_spec 0 eh); [|lia]. destruct (Z.leb_spec 0 et); [|lia].
  eexists. split; [done|]. simpl. repeat split; try done.
  - unfold nh_rel, headroom. simpl. rewrite length_app, length_junk.
    destruct (pk_nh p); simpl; [f_equal; lia|done].
  - unfold headroom. simpl. rewrite length_app, length_junk. lia.
  - apply drop_app_length'. by rewrite length_junk.
  - rewrite <- app_assoc. eexists. split; [done|]. rewrite length_app, !length_junk. lia.
  - apply bytes_ok_app. split; [auto with bytes|by destruct H3].
  - by destruct H3.
  - simpl. rewrite !bytes_ok_app. repeat split; auto with bytes; by destruct H3.
  - by destruct H3.
  - by destruct H3.
Qed.

Lemma uniqueify_unshared mem p : pk_shared p = false -> uniqueify mem p = Ok (Some p).
Proof. unfold uniqueify. by intros ->. Qed.

Lemma uniqueify_spec m p :
  exists q, uniqueify (Some m) p = Ok (Some q) /\
    pk_shared q = false /\ pk_data q = pk_data p /\ pk_anno q = pk_anno p /\
    pk_ptype q = pk_ptype p /\ nh_rel q = nh_rel p /\ headroom q = headroom p /\
    pk_head q = pk_head p.
Proof.
  unfold uniqueify. destruct (pk_shared p) eqn:E; [|by exists p].
  destruct (expensive_uniqueify_spec m 0 0 p) as (q & ? & ? & ? & ? & ? & ? & Hh & Hd & _);
    [lia..|]. exists q. simpl in *. repeat split; try done. by rewrite Hh, Nat.add_0_r.
Qed.

(** The extra headroom [(nbytes + 128) & ~3] always covers [nbytes]. *)
Lemma push_extra_headroom n :
  0 <= n -> n + 125 <= Z.land (n + 128) (Z.lnot 3) <= n + 128.
Proof.
  intros. change (Z.lnot 3) with (Z.lnot (Z.ones 2)).
  rewrite <- Z.ldiff_land, Z.ldiff_ones_r by lia.
  rewrite Z.shiftl_mul_pow2, Z.shiftr_div_pow2 by lia. change (2 ^ 2) with 4. zdm.
Qed.

Lemma nh_rel_data_back len p :
  (len <= headroom p)%nat -> nh_rel (data_back len p) = (fun o => o + Z.of_nat len) <$> nh_rel p.
Proof.
  intros. unfold nh_rel, data_back, headroom in *. simpl. rewrite length_take.
  destruct (pk_nh p); simpl; [f_equal; lia|done].
Qed.

(** Requests that [int32_t] holds are not changed by the conversions. *)
Lemma push_request n : 0 <= n < 2147483520 ->
  s32 (Z.land (u32 (n + 128)) (Z.lnot 3)) = Z.land (n + 128) (Z.lnot 3).
Proof.
  intros. rewrite u32_small by lia. pose proof (push_extra_headroom n).
  rewrite s32_small; [done|lia].
Qed.
Lemma put_request n : 0 <= n < 2147483520 -> s32 (u32 (n + 128)) = n + 128.
Proof. intros. rewrite u32_small, s32_small by lia. done. Qed.

Lemma expensive_push_run m len p :
  Z.of_nat len < 2147483520 ->
  exists q, expensive_uniqueify (Some m) (Z.land (Z.of_nat len + 128) (Z.lnot 3)) 0 p = Ok (Some q) /\
    expensive_push (Some m) len p = Ok (Some (data_back len q)) /\
    (len <= headroom q)%nat.
Proof.
  intros Hl. pose proof (push_extra_headroom (Z.of_nat len)) as He. unfold expensive_push.
  rewrite push_request by lia.
  destruct (expensive_uniqueify_spec m (Z.land (Z.of_nat len + 128) (Z.lnot 3)) 0 p)
    as (q & Hq & _ & _ & _ & _ & _ & Hh & _); [lia..|].
  exists q. rewrite Hq. cbn [mbind res_bind].
  assert (Hr : (len <= headroom q)%nat) by lia.
  by rewrite (proj2 (Nat.leb_le _ _) Hr).
Qed.

(** [push] never loses data.  Whenever memory is available and the request fits an [int32_t], it
    returns an unshared packet whose data is [len] new bytes followed by the old data; the new bytes are the headroom's
    own when there were that many (so [Unstrip] brings a stripped header back, also from a
    shared packet), and header pointers keep pointing at the same bytes. *)
Theorem push_spec m len p :
  Z.of_nat len < 2147483520 ->
  exists q h, push (Some m) len p = Ok (Some q) /\
    pk_data q = h ++ pk_data p /\ length h = len /\
    ((len <= headroom p)%nat -> h = drop (headroom p - len) (pk_head p)) /\
    pk_shared q = false /\ pk_anno q = pk_anno p /\ pk_ptype q = pk_ptype p /\
    nh_rel q = (fun o => o + Z.of_nat len) <$> nh_rel p.
Proof.
  intros Hsm. unfold push. destruct (Nat.leb_spec len (headroom p)) as [Hl|Hl];
    destruct (pk_shared p) eqn:Hs; simpl;
    try (exists (data_back len p), (drop (headroom p - len) (pk_head p));
         repeat split; try done;
         [rewrite length_drop; unfold headroom in *; lia|by apply nh_rel_data_back]).
  all: pose proof (push_extra_headroom (Z.of_nat len)) as He;
    destruct (expensive_push_run m len p Hsm) as (q & Hq & -> & Hhq);
    destruct (expensive_uniqueify_spec m (Z.land (Z.of_nat len + 128) (Z.lnot 3)) 0 p)
      as (q' & Hq' & Hsh & Hd & Ha & Hp & Hn & Hh & Hdr & _ & _); [lia..|];
    rewrite Hq in Hq'; injection Hq' as <-;
    exists (data_back len q), (drop (headroom q - len) (pk_head q)); simpl;
    rewrite Hd, Ha, Hp, nh_rel_data_back, Hn by lia;
    repeat split; try done; try (rewrite length_drop; unfold headroom in *; lia).
  all: intros ?; try lia; rewrite <- Hdr, drop_drop; f_equal; lia.
Qed.

Lemma data_back_wf len p : pk_wf p -> pk_wf (data_back len p).
Proof.
  intros []. split; cbn [data_back pk_head pk_data pk_tail pk_anno]; try done; [by apply bytes_ok_take|].
  apply bytes_ok_app. split; [by apply bytes_ok_drop|done].
Qed.
Lemma push_wf m len p q :
  Z.of_nat len < 2147483520 -> push (Some m) len p = Ok (Some q) -> pk_wf p -> pk_wf q.
Proof.
  unfold push. intros Hsm E Hw. destruct (_ && _).
  { injection E as <-. by apply data_back_wf. }
  pose proof (push_extra_headroom (Z.of_nat len)).
  destruct (expensive_push_run m len p Hsm) as (u' & Hu' & Ep & _).
  destruct (expensive_uniqueify_spec m (Z.land (Z.of_nat len + 128) (Z.lnot 3)) 0 p)
    as (u & Hu & _ & _ & _ & _ & _ & _ & _ & _ & Hwf); [lia..|].
  rewrite Hu in Hu'. injection Hu' as <-. rewrite Ep in E. injection E as <-. by apply data_back_wf, Hwf.
Qed.

(** Stripping [len] bytes and pushing them back is the identity on an unshared packet,
    and pushing then pulling is too. *)
Theorem push_pull_roundtrip mem len p :
  pk_shared p = false ->
  ((len <= plength p)%nat -> push mem len (pull len p) = Ok (Some p)) /\
  ((len <= headroom p)%nat -> exists q, push mem len p = Ok (Some q) /\ pull len q = p).
Proof.
  intros Hs. split; intros H.
  - unfold push. replace (pk_shared (pull len p)) with false.
    assert (len <= headroom (pull len p))%nat.
    { unfold pull. destruct (Nat.ltb_spec (plength p) len); [lia|].
      unfold headroom, plength in *. simpl. rewrite length_app, length_take. lia. }
    destruct (Nat.leb_spec len (headroom (pull len p))); [|lia]. simpl.
    by rewrite data_back_pull.
  - exists (data_back len p). split; [|by apply pull_data_back].
    unfold push. destruct (Nat.leb_spec len (headroom p)); [|lia]. by rewrite Hs.
Qed.

Definition sample_packet : packet :=
  MkPacket [1; 2; 3] [4; 5; 6; 7] [8] false (replicate 48 0) HOST None None None.

Theorem push_pull_roundtrip_witness :
  push None 2 (pull 2 sample_packet) = Ok (Some sample_packet).
Proof.
  assert (H : pk_shared sample_packet = false) by reflexivity.
  apply (proj1 (push_pull_roundtrip None 2 sample_packet H)).
  apply Nat.leb_le. reflexivity.
Defined.
