(* ===== verification/PacketOps.v ===== *)
(** * More of [Packet] ([include/click/packet.hh], [lib/packet.cc]) and [Align]

    The operations on whole packets that [Packet.v] leaves out, an invariant that all of them but
    [copy] and [shift_data] keep, and [shift_data] with the element that uses it ([elements/standard/align.cc]). *)
From Stdlib Require Import ZArith Lia.
From stdpp Require Import base list numbers option.
From S2P Require Import Prelude Packet.

(** ** Views of the buffer *)

(** The buffer [m] with [_data] at [h] and [_tail] at [h + len]. *)
Definition reframe (m : list Z) (h len : nat) (p : packet) : packet :=
  MkPacket (take h m) (take len (drop h m)) (drop (h + len) m) (pk_shared p) (pk_anno p)
    (pk_ptype p) (pk_mac p) (pk_nh p) (pk_h p).
(** The sum of the arguments is 32 bits wide. *)
Definition change_headroom_and_length (h len : nat) (p : packet) : res packet :=
  if u32 (Z.of_nat h + Z.of_nat len) <=? Z.of_nat (buffer_length p) then
    if (h + len <=? buffer_length p)%nat then Ok (reframe (pmem p) h len p) else Fault OutOfBounds
  else Ok p.

Definition nonunique_put (mem : memory) (len : nat) (p : packet) : res (option packet) :=
  if (len <=? tailroom p)%nat then Ok (Some (tail_forth len p)) else expensive_put mem len p.
Definition push_mac_header (mem : memory) (len : nat) (p : packet) : res (option packet) :=
  mq ← (if (len <=? headroom p)%nat && negb (pk_shared p) then Ok (Some (data_back len p))
        else expensive_push mem len p);
  match mq with
  | Some q => q ← set_mac_header (Z.of_nat (headroom q)) (Z.of_nat len) q; Ok (Some q)
  | None => Ok None
  end.

(** ** Header pointers *)
Definition set_headers (mac nh h : option Z) (p : packet) : packet :=
  MkPacket (pk_head p) (pk_data p) (pk_tail p) (pk_shared p) (pk_anno p) (pk_ptype p) mac nh h.
Definition clear_mac_header (p : packet) : packet := set_headers None (pk_nh p) (pk_h p) p.
Definition clear_network_header (p : packet) : packet := set_headers (pk_mac p) None (pk_h p) p.
Definition clear_transport_header (p : packet) : packet := set_headers (pk_mac p) (pk_nh p) None p.
Definition set_mac_header_only (pos : Z) (p : packet) : res packet :=
  if (0 <=? pos) && (pos <=? Z.of_nat (buffer_length p))
  then Ok (set_headers (Some pos) (pk_nh p) (pk_h p) p) else Fault AssertFailed.
Definition set_network_header_length (len : Z) (p : packet) : res packet :=
  nh ← opt_res NullDeref (pk_nh p);
  if nh + len <=? Z.of_nat (buffer_length p)
  then Ok (set_headers (pk_mac p) (pk_nh p) (Some (nh + len)) p) else Fault AssertFailed.
Definition mac_header_offset (p : packet) : res Z :=
  o ← opt_res NullDeref (pk_mac p); Ok (o - Z.of_nat (headroom p)).
Definition network_header_length (p : packet) : res Z :=
  nh ← opt_res NullDeref (pk_nh p); h ← opt_res NullDeref (pk_h p); Ok (u32 (h - nh)).
(** [shift_header_annotations(old_head, extra_headroom)], seen from [_head]. *)
Definition shift_header_annotations (by_ : Z) (p : packet) : packet :=
  let shift := option_map (fun o => o + by_) in
  set_headers (shift (pk_mac p)) (shift (pk_nh p)) (shift (pk_h p)) p.

(** [clear_annotations(all)] *)
Definition clear_annotations (all : bool) (p : packet) : packet :=
  let p := set_anno (replicate anno_size 0) p in
  if all then set_packet_type_anno HOST (set_headers None None None p) else p.
(** [copy_annotations(p)] *)
Definition copy_annotations (p q : packet) : packet :=
  set_packet_type_anno (pk_ptype p) (set_anno (pk_anno p) q).

(** [copy(p, headroom)]: whether it fits, and the packet; a null header pointer is below every
    buffer. *)
Definition packet_copy (src : packet) (h : nat) (q : packet) : res (bool * packet) :=
  if Z.of_nat (buffer_length q) <? u32 (Z.of_nat h + Z.of_nat (plength src)) then Ok (false, q)
  else if (buffer_length q <? h + plength src)%nat then Fault OutOfBounds
  else
    let m := take h (pmem q) ++ pk_data src ++ drop (h + plength src) (pmem q) in
    let q := copy_annotations src (reframe m h (plength src) q) in
    q ← match pk_mac src with
        | Some _ => o ← mac_header_offset src; set_mac_header_only (Z.of_nat h + o) q
        | None => Fault AssertFailed
        end;
    q ← match pk_nh src with
        | Some _ =>
            o ← network_header_offset src;
            len ← network_header_length src;
            set_network_header (Z.of_nat h + o) len q
        | None => Fault AssertFailed
        end;
    Ok (true, q).

(** ** [shift_data] *)
Definition before (p : packet) (o : option Z) (dp : Z) : bool :=
  match o with
  | Some o => (0 <=? o) && (o <=? Z.of_nat (buffer_length p)) && (o <? dp)
  | None => false
  end.
(** [dp], from [_head]; [None] is the null pointer. *)
Definition shift_start (p : packet) : option Z :=
  let dp := Z.of_nat (headroom p) in
  let dp := if before p (pk_mac p) dp then default dp (pk_mac p) else dp in
  let dp := if before p (pk_nh p) dp then default dp (pk_nh p) else dp in
  if before p (pk_h p) dp then pk_nh p else Some dp.
(** [memmove(dp + offset, dp, end_data() - dp)] *)
Definition memmove (m : list Z) (dp len : nat) (offset : Z) : res (list Z) :=
  let dst := Z.of_nat dp + offset in
  if (dp + len <=? length m)%nat && (0 <=? dst) && (dst + Z.of_nat len <=? Z.of_nat (length m)) then
    let dst := Z.to_nat dst in
    Ok (take dst m ++ take len (drop dp m) ++ drop (dst + len) m)
  else Fault OutOfBounds.

(** [addr] is the address of the buffer and [new_addr] the one a new buffer gets; the result
    comes with the address of its buffer. *)
Definition shift_data (mem : memory) (new_addr addr offset : Z) (p : packet)
  : res (option (packet * Z)) :=
  if offset =? 0 then Ok (Some (p, addr))
  else
    let dp := shift_start p in
    let end_data := Z.of_nat (headroom p + plength p) in
    if negb (pk_shared p)
       && (if offset <? 0 then match dp with Some dp => - offset <=? dp | None => false end
           else offset <=? Z.of_nat (tailroom p))
    then
      dp ← opt_res NullDeref dp;
      if (dp <? 0) || (end_data <? dp) then Fault OutOfBounds
      else
        m ← memmove (pmem p) (Z.to_nat dp) (Z.to_nat (end_data - dp)) offset;
        Ok (Some (shift_header_annotations offset
                    (reframe m (Z.to_nat (Z.of_nat (headroom p) + offset)) (plength p) p), addr))
    else
      let tailroom_offset := if offset <? 0 then - offset else 0 in
      let offset :=
        if (offset <? 0) && (Z.of_nat (headroom p) <? - offset)
        then - Z.of_nat (headroom p) + (addr + Z.of_nat (headroom p) + offset) mod 8
        else offset + addr mod 8 in
      q ← expensive_uniqueify mem offset tailroom_offset p;
      Ok (option_map (fun q => (q, new_addr)) q).

(** ** [Align] *)
Record align_conf : Type := AlignConf { align_mask : Z; align_offset : Z }.
Definition Align_configure (modulus offset : Z) : option align_conf :=
  if negb (modulus =? 2) && negb (modulus =? 4) && negb (modulus =? 8) then None
  else if modulus <=? offset then None
  else Some (AlignConf (modulus - 1) offset).
Definition Align_smaction (c : align_conf) (mem : memory) (new_addr addr : Z) (p : packet)
  : res (option (packet * Z)) :=
  let delta := align_offset c - Z.land (addr + Z.of_nat (headroom p)) (align_mask c) in
  if delta =? 0 then Ok (Some (p, addr))
  else shift_data mem new_addr addr (if delta <? 0 then delta + (align_mask c + 1) else delta) p.

(** ** What every operation keeps *)
Definition in_buffer (p : packet) (o : option Z) : Prop :=
  match o with Some o => 0 <= o <= Z.of_nat (buffer_length p) | None => True end.
(** Bytes in the buffer, 48 annotation bytes, header pointers into the buffer or null. *)
Record pk_ok (p : packet) : Prop := {
  pko_bytes : bytes_ok (pmem p);
  pko_anno_len : length (pk_anno p) = anno_size;
  pko_anno : bytes_ok (pk_anno p);
  pko_mac : in_buffer p (pk_mac p);
  pko_nh : in_buffer p (pk_nh p);
  pko_h : in_buffer p (pk_h p)
}.

Lemma length_pmem p : length (pmem p) = buffer_length p.
Proof. unfold pmem, buffer_length, headroom, plength, tailroom. rewrite !length_app. lia. Qed.
Lemma pk_ok_wf p : pk_ok p -> pk_wf p.
Proof.
  intros [Hb Hl Ha _ _ _]. unfold pmem in Hb. rewrite !bytes_ok_app in Hb. destruct Hb as (? & ? & ?).
  by split.
Qed.
Lemma in_buffer_le p q o : (buffer_length p <= buffer_length q)%nat -> in_buffer p o -> in_buffer q o.
Proof. destruct o; simpl; lia. Qed.

(** Moving [_data] and [_tail] about in the same buffer. *)
Lemma pk_ok_moved p q :
  pmem q = pmem p -> pk_anno q = pk_anno p -> pk_mac q = pk_mac p -> pk_nh q = pk_nh p ->
  pk_h q = pk_h p -> pk_ok p -> pk_ok q.
Proof.
  intros Hm Ha H1 H2 H3 []. assert (buffer_length q = buffer_length p) as Hl by (by rewrite <- !length_pmem, Hm).
  split; unfold in_buffer in *; rewrite ?Hm, ?Ha, ?H1, ?H2, ?H3, ?Hl; done.
Qed.
Lemma pmem_data_back len p : pmem (data_back len p) = pmem p.
Proof. unfold pmem, data_back. simpl. by rewrite <- app_assoc, (app_assoc (take _ _)), take_drop. Qed.
Lemma pmem_pull len p : pmem (pull len p) = pmem p.
Proof. unfold pmem, pull. simpl. by rewrite <- app_assoc, (app_assoc (take _ _)), take_drop. Qed.
Lemma pmem_tail_forth len p : pmem (tail_forth len p) = pmem p.
Proof. unfold pmem, tail_forth. simpl. by rewrite <- app_assoc, take_drop. Qed.
Lemma pmem_ptake len p : pmem (ptake len p) = pmem p.
Proof. unfold pmem, ptake. simpl. by rewrite (app_assoc (take _ _)), take_drop. Qed.
Lemma pmem_reframe m h len p : pmem (reframe m h len p) = m.
Proof. unfold pmem, reframe. simpl. by rewrite <- drop_drop, take_drop, take_drop. Qed.
Lemma set_mem_reframe m p : set_mem m p = reframe m (headroom p) (plength p) p.
Proof. done. Qed.

Lemma pk_ok_uniqueify m eh et p :
  0 <= eh -> 0 <= et -> pk_ok p ->
  exists q, expensive_uniqueify (Some m) eh et p = Ok (Some q) /\ pk_ok q /\
    headroom q = (headroom p + Z.to_nat eh)%nat /\ (Z.to_nat et <= tailroom q)%nat.
Proof.
  intros Heh Het [Hb Hl Ha H1 H2 H3]. unfold expensive_uniqueify.
  destruct (Z.leb_spec (- Z.of_nat (headroom p)) eh); [|lia].
  destruct (Z.leb_spec (- Z.of_nat (tailroom p)) et); [|lia]. cbn [andb].
  destruct (Z.leb_spec 0 eh); [|lia]. destruct (Z.leb_spec 0 et); [|lia].
  eexists. split; [reflexivity|].
  set (q := MkPacket _ _ _ _ _ _ _ _ _).
  assert (Hbl : (Z.to_nat eh + buffer_length p <= buffer_length q)%nat).
  { unfold buffer_length, headroom, plength, tailroom, q. cbn [pk_head pk_data pk_tail].
    rewrite !length_app, !length_junk. lia. }
  assert (Hsh : forall o, in_buffer p o -> in_buffer q (option_map (fun o => o + eh) o))
    by (intros [o|]; simpl; lia).
  split; [split|].
  - unfold pmem in *. rewrite !bytes_ok_app in Hb. destruct Hb as (? & ? & ?). unfold q.
    cbn [pk_head pk_data pk_tail]. rewrite !bytes_ok_app. auto 10 with bytes.
  - done.
  - done.
  - by apply Hsh.
  - by apply Hsh.
  - by apply Hsh.
  - unfold headroom, tailroom, q. cbn [pk_head pk_tail]. rewrite !length_app, !length_junk. lia.
Qed.

(** A store keeps the buffer's size. *)
Lemma pk_ok_reframe m h len p :
  length m = buffer_length p -> bytes_ok m -> pk_ok p -> pk_ok (reframe m h len p).
Proof.
  intros Hm Hb [_ Hl Ha H1 H2 H3].
  assert (Hbl : buffer_length (reframe m h len p) = buffer_length p)
    by (by rewrite <- length_pmem, pmem_reframe).
  split; unfold in_buffer in *; rewrite ?pmem_reframe, ?Hbl; done.
Qed.

Lemma pk_ok_anno a p : length a = anno_size -> bytes_ok a -> pk_ok p -> pk_ok (set_anno a p).
Proof. intros Hl Hb []. by split. Qed.
Lemma pk_ok_headers mac nh h p :
  in_buffer p mac -> in_buffer p nh -> in_buffer p h -> pk_ok p -> pk_ok (set_headers mac nh h p).
Proof. intros H1 H2 H3 []. by split. Qed.

(** ** The operations as one type

    All but [copy] and [shift_data], which can fail an assertion or leave header pointers outside
    the buffer. *)
Inductive packet_op : Type :=
| Op_push (mem : memory) (len : nat) | Op_nonunique_push (mem : memory) (len : nat)
| Op_push_mac_header (mem : memory) (len : nat)
| Op_pull (len : nat) | Op_take (len : nat)
| Op_put (mem : memory) (len : nat) | Op_nonunique_put (mem : memory) (len : nat)
| Op_uniqueify (mem : memory) | Op_clone (mem : memory)
| Op_view (h len : nat)
| Op_store (n off : nat) (v : Z) | Op_store_buffer (n pos : nat) (v : Z)
| Op_anno (i : nat) (x : Z) | Op_dst_ip_anno (a : Z) | Op_packet_type (t : packet_type)
| Op_clear_annotations (all : bool)
| Op_mac_header (pos : Z) (len : nat) | Op_mac_header_only (pos : Z) | Op_network_header (pos : Z) (len : nat)
| Op_network_header_length (len : nat)
| Op_clear_mac | Op_clear_network | Op_clear_transport.

Definition run_packet_op (op : packet_op) (p : packet) : res (option packet) :=
  let some r := q ← r; Ok (Some q) in
  match op with
  | Op_push mem len => push mem len p
  | Op_nonunique_push mem len => nonunique_push mem len p
  | Op_push_mac_header mem len => push_mac_header mem len p
  | Op_pull len => Ok (Some (pull len p))
  | Op_take len => Ok (Some (ptake len p))
  | Op_put mem len => put mem len p
  | Op_nonunique_put mem len => nonunique_put mem len p
  | Op_uniqueify mem => uniqueify mem p
  | Op_clone mem => Ok (packet_clone mem p)
  | Op_view h len => some (change_headroom_and_length h len p)
  | Op_store n off v => some (pst n p off v)
  | Op_store_buffer n pos v => some (psth n p pos v)
  | Op_anno i x => some (set_anno_u8 i x p)
  | Op_dst_ip_anno a => Ok (Some (set_dst_ip_anno a p))
  | Op_packet_type t => Ok (Some (set_packet_type_anno t p))
  | Op_clear_annotations all => Ok (Some (clear_annotations all p))
  | Op_mac_header pos len => some (set_mac_header pos (Z.of_nat len) p)
  | Op_mac_header_only pos => some (set_mac_header_only pos p)
  | Op_network_header pos len => some (set_network_header pos (Z.of_nat len) p)
  | Op_network_header_length len => some (set_network_header_length (Z.of_nat len) p)
  | Op_clear_mac => Ok (Some (clear_mac_header p))
  | Op_clear_network => Ok (Some (clear_network_header p))
  | Op_clear_transport => Ok (Some (clear_transport_header p))
  end.
(** Memory for the operations that may allocate. *)
Definition op_memory (op : packet_op) : option memory :=
  match op with
  | Op_push mem _ | Op_nonunique_push mem _ | Op_push_mac_header mem _ | Op_put mem _
  | Op_nonunique_put mem _ | Op_uniqueify mem | Op_clone mem => Some mem
  | _ => None
  end.
(** Requests for room that an [int32_t] holds. *)
Definition op_small (op : packet_op) : Prop :=
  match op with
  | Op_push _ len | Op_nonunique_push _ len | Op_push_mac_header _ len | Op_put _ len
  | Op_nonunique_put _ len => Z.of_nat len < 2147483520
  | _ => True
  end.
(** What the operations ask of their arguments. *)
Definition op_in_range (op : packet_op) (p : packet) : Prop :=
  match op with
  | Op_view h len => (h + len <= buffer_length p)%nat \/
      Z.of_nat (buffer_length p) < u32 (Z.of_nat h + Z.of_nat len)
  | Op_store n off _ => (off + n <= plength p + tailroom p)%nat
  | Op_store_buffer n pos _ => (pos + n <= buffer_length p)%nat
  | Op_anno i _ => (i < anno_size)%nat
  | Op_mac_header pos len | Op_network_header pos len =>
      0 <= pos /\ pos + Z.of_nat len <= Z.of_nat (buffer_length p)
  | Op_mac_header_only pos => 0 <= pos <= Z.of_nat (buffer_length p)
  | Op_network_header_length len =>
      exists nh, pk_nh p = Some nh /\ nh + Z.of_nat len <= Z.of_nat (buffer_length p)
  | _ => True
  end.

(** What an operation may end in on a well-formed packet. *)
Definition op_outcome (op : packet_op) (p : packet) (r : res (option packet)) : Prop :=
  match r with
  | Ok (Some q) => pk_ok q
  | Ok None => op_memory op = Some None
  | Fault _ => ~ op_in_range op p
  end.

Lemma grown_ok op p mem eh et (f : packet -> packet) :
  op_memory op = Some mem -> 0 <= eh -> 0 <= et -> pk_ok p -> (forall q, pk_ok q -> pk_ok (f q)) ->
  op_outcome op p (q ← expensive_uniqueify mem eh et p; Ok (option_map f q)).
Proof.
  intros Hop Heh Het Hp Hf. destruct mem as [m|].
  - destruct (pk_ok_uniqueify m eh et p Heh Het Hp) as (q & E & Hq & _). rewrite E. simpl. by apply Hf.
  - unfold expensive_uniqueify. destruct (Z.leb_spec (- Z.of_nat (headroom p)) eh); [|lia].
    destruct (Z.leb_spec (- Z.of_nat (tailroom p)) et); [|lia]. done.
Qed.
Lemma pk_ok_data_back len p : pk_ok p -> pk_ok (data_back len p).
Proof. by apply pk_ok_moved; [apply pmem_data_back|..]. Qed.
Lemma pk_ok_tail_forth len p : pk_ok p -> pk_ok (tail_forth len p).
Proof. by apply pk_ok_moved; [apply pmem_tail_forth|..]. Qed.
Lemma expensive_push_ok op mem len p :
  op_memory op = Some mem -> Z.of_nat len < 2147483520 -> pk_ok p ->
  op_outcome op p (expensive_push mem len p).
Proof.
  intros Hop Hl Hp. pose proof (push_extra_headroom (Z.of_nat len)) as He.
  destruct mem as [m|].
  - destruct (pk_ok_uniqueify m (Z.land (Z.of_nat len + 128) (Z.lnot 3)) 0 p)
      as (q & Hq & Hok & _); [lia..|done|].
    destruct (expensive_push_run m len p Hl) as (u & Hu & -> & _). rewrite Hq in Hu.
    injection Hu as <-. by apply pk_ok_data_back.
  - unfold expensive_push. rewrite push_request by lia. unfold expensive_uniqueify.
    destruct (Z.leb_spec (- Z.of_nat (headroom p)) (Z.land (Z.of_nat len + 128) (Z.lnot 3))); [|lia].
    destruct (Z.leb_spec (- Z.of_nat (tailroom p)) 0); [done|lia].
Qed.
Lemma expensive_put_ok op mem len p :
  op_memory op = Some mem -> Z.of_nat len < 2147483520 -> pk_ok p ->
  op_outcome op p (expensive_put mem len p).
Proof.
  intros Hop Hl Hp. unfold expensive_put. rewrite put_request by lia.
  destruct mem as [m|].
  - destruct (pk_ok_uniqueify m 0 (Z.of_nat len + 128) p) as (q & -> & Hq & _ & Ht); [lia..|done|].
    rewrite bind_ok, (proj2 (Nat.leb_le _ _)) by lia. by apply pk_ok_tail_forth.
  - unfold expensive_uniqueify. destruct (Z.leb_spec (- Z.of_nat (headroom p)) 0); [|lia].
    destruct (Z.leb_spec (- Z.of_nat (tailroom p)) (Z.of_nat len + 128)); [|lia]. done.
Qed.

(** Stores: [psth] inside the buffer keeps its size, and so do the stores relative to the data. *)
Lemma psth_ok op n p pos v :
  pk_ok p -> ((pos + n <= buffer_length p)%nat <-> op_in_range op p) ->
  op_outcome op p (q ← psth n p pos v; Ok (Some q)).
Proof.
  intros Hp Hr. unfold psth. destruct (Nat.leb_spec (pos + n) (buffer_length p)) as [Hle|Hgt]; simpl.
  - rewrite set_mem_reframe. apply pk_ok_reframe; [by rewrite length_wrn, length_pmem| |done].
    apply wrn_bytes_ok, Hp.
  - rewrite <- Hr. lia.
Qed.

Lemma expensive_push_back mem len p q :
  Z.of_nat len < 2147483520 -> expensive_push mem len p = Ok (Some q) -> (len <= plength q)%nat.
Proof.
  intros Hl E. destruct mem as [m|].
  - destruct (expensive_push_run m len p Hl) as (u & _ & Hu & Hr). rewrite Hu in E.
    injection E as <-. rewrite plength_data_back; lia.
  - unfold expensive_push, expensive_uniqueify in E. destruct (_ && _) in E; done.
Qed.

Lemma set_mac_header_ok op pos len p :
  pk_ok p -> (0 <= pos /\ pos + Z.of_nat len <= Z.of_nat (buffer_length p) <-> op_in_range op p) ->
  op_outcome op p (q ← set_mac_header pos (Z.of_nat len) p; Ok (Some q)).
Proof.
  intros Hp Hr. unfold set_mac_header.
  destruct (Z.leb_spec 0 pos), (Z.leb_spec (pos + Z.of_nat len) (Z.of_nat (buffer_length p))); simpl;
    [|rewrite <- Hr; lia..].
  apply (pk_ok_headers (Some pos) (Some (pos + Z.of_nat len)) (pk_h p) p); simpl; try lia; [|done].
  apply Hp.
Qed.

Lemma push_mac_header_ok mem len p :
  Z.of_nat len < 2147483520 -> pk_ok p ->
  op_outcome (Op_push_mac_header mem len) p (push_mac_header mem len p).
Proof.
  intros Hsm Hp. unfold push_mac_header.
  assert (Hfin : forall q, pk_ok q -> (len <= plength q)%nat ->
    op_outcome (Op_push_mac_header mem len) p
      (q ← set_mac_header (Z.of_nat (headroom q)) (Z.of_nat len) q; Ok (Some q))).
  { intros q Hq Hl. pose proof (set_mac_header_ok (Op_mac_header (Z.of_nat (headroom q)) len)
      (Z.of_nat (headroom q)) len q Hq ltac:(reflexivity)) as H.
    destruct (set_mac_header _ _ q) as [r|f]; [exact H|]. destruct H. simpl.
    unfold buffer_length. lia. }
  destruct (Nat.leb_spec len (headroom p)) as [Hl|Hl]; [destruct (pk_shared p)|]; cbn [andb negb].
  2: { apply Hfin; [by apply pk_ok_data_back|]. rewrite plength_data_back by done. lia. }
  all: pose proof (expensive_push_ok (Op_push_mac_header mem len) mem len p eq_refl Hsm Hp) as He;
    destruct (expensive_push mem len p) as [[q|]|f] eqn:E; [|exact He|exact He];
    rewrite bind_ok; apply Hfin; [exact He|by eapply expensive_push_back].
Qed.

(** Each of these operations takes a well-formed packet to a well-formed packet (bytes in the buffer,
    48 annotation bytes, header pointers null or into the buffer), whatever memory holds; it
    gives no packet only when an allocation fails, and it faults only on an argument out of
    range. *)
Theorem packet_ops_typed (op : packet_op) (p : packet) (Hop : op_small op) (Hp : pk_ok p) :
  op_outcome op p (run_packet_op op p).
Proof.
  destruct op as [mem len|mem len|mem len|len|len|mem len|mem len|mem|mem|h len|n off v|n pos v|i x|a|t|all
                 |pos len|pos|pos len|len| | |]; cbn [run_packet_op].
  - unfold push. destruct (_ && _); [by apply pk_ok_data_back|by apply expensive_push_ok].
  - unfold nonunique_push. destruct (_ <=? _)%nat; [by apply pk_ok_data_back|by apply expensive_push_ok].
  - by apply push_mac_header_ok.
  - simpl. by apply (pk_ok_moved p); [apply pmem_pull|..].
  - simpl. by apply (pk_ok_moved p); [apply pmem_ptake|..].
  - unfold put. destruct (_ && _); [by apply pk_ok_tail_forth|by apply expensive_put_ok].
  - unfold nonunique_put. destruct (_ <=? _)%nat; [by apply pk_ok_tail_forth|by apply expensive_put_ok].
  - unfold uniqueify. destruct (pk_shared p); [|exact Hp].
    pose proof (grown_ok (Op_uniqueify mem) p mem 0 0 id eq_refl ltac:(lia) ltac:(lia) Hp ltac:(done)) as H.
    destruct (expensive_uniqueify mem 0 0 p) as [[q|]|f]; exact H.
  - destruct mem; simpl; [|done]. destruct Hp. by split.
  - unfold change_headroom_and_length. destruct (Z.leb_spec (u32 (Z.of_nat h + Z.of_nat len)) (Z.of_nat (buffer_length p))).
    + destruct (Nat.leb_spec (h + len) (buffer_length p)); simpl; [|lia].
      apply pk_ok_reframe; [apply length_pmem|apply Hp|done].
    + exact Hp.
  - unfold pst. destruct (Nat.leb_spec (off + n) (plength p + tailroom p)); simpl; [|lia].
    apply psth_ok; [done|]. simpl. unfold buffer_length. lia.
  - by apply psth_ok.
  - unfold set_anno_u8. destruct (Nat.ltb_spec i anno_size); simpl; [|lia].
    apply pk_ok_anno; [rewrite length_wrn; apply Hp|apply wrn_bytes_ok, Hp|done].
  - simpl. apply pk_ok_anno; [rewrite length_wrn; apply Hp|apply wrn_bytes_ok, Hp|done].
  - simpl. destruct Hp. by split.
  - simpl. assert (Ha : pk_ok (set_anno (replicate anno_size 0) p))
      by (apply pk_ok_anno; [apply length_replicate|apply bytes_ok_zero|done]).
    unfold clear_annotations. destruct all; [|exact Ha].
    apply (pk_ok_headers None None None) in Ha; [|done..]. destruct Ha. by split.
  - by apply set_mac_header_ok.
  - unfold set_mac_header_only. destruct (Z.leb_spec 0 pos), (Z.leb_spec pos (Z.of_nat (buffer_length p))); simpl; try lia.
    apply pk_ok_headers; simpl; try lia; try done; apply Hp.
  - unfold set_network_header.
    destruct (Z.leb_spec 0 pos), (Z.leb_spec (pos + Z.of_nat len) (Z.of_nat (buffer_length p))); simpl; try lia.
    apply (pk_ok_headers (pk_mac p) (Some pos) (Some (pos + Z.of_nat len)) p); simpl; try lia; [|done]. apply Hp.
  - unfold set_network_header_length. destruct (pk_nh p) as [nh|] eqn:Enh; simpl; [|intros (x & Ex & _); congruence].
    destruct (Z.leb_spec (nh + Z.of_nat len) (Z.of_nat (buffer_length p))) as [Hle|Hgt]; simpl.
    + pose proof (pko_nh _ Hp) as Hnh. rewrite Enh in Hnh. simpl in Hnh.
      apply pk_ok_headers; simpl; try lia; try done; apply Hp.
    + intros (x & Ex & Hx). rewrite Enh in Ex. injection Ex as <-. lia.
  - simpl. apply pk_ok_headers; try done; apply Hp.
  - simpl. apply pk_ok_headers; try done; apply Hp.
  - simpl. apply pk_ok_headers; try done; apply Hp.
Qed.

Theorem packet_ops_typed_witness :
  exists q, run_packet_op (Op_push_mac_header (Some (fun i => Z.of_nat i)) 14)
    (set_shared true sample_packet) = Ok (Some q) /\ pk_ok q.
Proof.
  assert (Hp : pk_ok (set_shared true sample_packet))
    by (split; [solve_bytes|done|apply bytes_ok_zero|done..]).
  pose proof (packet_ops_typed (Op_push_mac_header (Some (fun i => Z.of_nat i)) 14) _ ltac:(cbn; lia) Hp) as H.
  eexists. split; [vm_compute; reflexivity|exact H].
Defined.

(** ** What [shift_data] keeps *)

(** [q] holds the bytes of [p] from [dp] to the end of the data, and its header pointers,
    [delta] further on (where that is in the buffer). *)
Record moved (p q : packet) (dp : nat) (delta : Z) : Prop := {
  mv_headroom : Z.of_nat (headroom q) = Z.of_nat (headroom p) + delta;
  mv_length : plength q = plength p;
  mv_bytes i : (dp <= i < headroom p + plength p)%nat -> 0 <= Z.of_nat i + delta ->
    pmem q !! Z.to_nat (Z.of_nat i + delta) = pmem p !! i;
  mv_mac : pk_mac q = option_map (fun o => o + delta) (pk_mac p);
  mv_nh : pk_nh q = option_map (fun o => o + delta) (pk_nh p);
  mv_h : pk_h q = option_map (fun o => o + delta) (pk_h p);
  mv_anno : pk_anno q = pk_anno p
}.

Lemma data_lookup p i : (i < plength p)%nat -> pk_data p !! i = pmem p !! (headroom p + i)%nat.
Proof.
  intros Hi. unfold pmem, headroom, plength in *. rewrite lookup_app_r by lia.
  rewrite lookup_app_l by lia. f_equal. lia.
Qed.
Lemma moved_data p q dp delta : moved p q dp delta -> (dp <= headroom p)%nat -> pk_data q = pk_data p.
Proof.
  intros Hm Hdp. pose proof (mv_headroom _ _ _ _ Hm) as Hh. pose proof (mv_length _ _ _ _ Hm) as Hl.
  apply list_eq_same_length with (n := plength p); [done|done|]. intros i x y Hi Hx Hy.
  rewrite data_lookup in Hx by lia. rewrite data_lookup in Hy by lia.
  pose proof (mv_bytes _ _ _ _ Hm (headroom p + i) ltac:(lia) ltac:(lia)) as Hb.
  replace (Z.to_nat (Z.of_nat (headroom p + i) + delta)) with (headroom q + i)%nat in Hb by lia.
  congruence.
Qed.

Lemma expensive_moved m eh et p q dp :
  - Z.of_nat (headroom p) <= eh -> 0 <= et ->
  expensive_uniqueify (Some m) eh et p = Ok (Some q) -> moved p q dp eh.
Proof.
  intros Heh Het E. unfold expensive_uniqueify in E.
  destruct (Z.leb_spec (- Z.of_nat (headroom p)) eh); [|lia].
  destruct (Z.leb_spec (- Z.of_nat (tailroom p)) et); [|lia]. cbn [andb] in E.
  destruct (Z.leb_spec 0 et); [|lia].
  set (head := if 0 <=? eh then _ else _) in E.
  set (tl := pk_tail p ++ _) in E. injection E as <-.
  assert (Hlen : Z.of_nat (length head) = Z.of_nat (headroom p) + eh).
  { unfold head, headroom in *. destruct (Z.leb_spec 0 eh).
    - rewrite length_app, length_junk. lia.
    - rewrite length_drop. lia. }
  split; try done. cbn [pk_head pk_data pk_tail pmem]. intros i Hi Hpos.
  unfold pmem at 2. rewrite (app_assoc (pk_head p)), lookup_app_l
    by (rewrite length_app; unfold headroom, plength in *; lia).
  unfold pmem. cbn [pk_head pk_data pk_tail]. rewrite (app_assoc head), lookup_app_l.
  2: { rewrite length_app. unfold headroom, plength in *. lia. }
  unfold head in *. destruct (Z.leb_spec 0 eh).
  - rewrite <- app_assoc, lookup_app_r by (rewrite length_junk; lia). f_equal. rewrite length_junk. lia.
  - rewrite <- drop_app_le by (unfold headroom in *; lia). rewrite lookup_drop. f_equal. lia.
Qed.

Lemma memmove_run m dp len offset :
  (dp + len <= length m)%nat -> 0 <= Z.of_nat dp + offset ->
  Z.of_nat dp + offset + Z.of_nat len <= Z.of_nat (length m) ->
  exists m', memmove m dp len offset = Ok m' /\ length m' = length m /\
    forall i, (dp <= i < dp + len)%nat -> m' !! Z.to_nat (Z.of_nat i + offset) = m !! i.
Proof.
  intros H1 H2 H3. unfold memmove. destruct (Nat.leb_spec (dp + len) (length m)); [|lia].
  destruct (Z.leb_spec 0 (Z.of_nat dp + offset)); [|lia].
  destruct (Z.leb_spec (Z.of_nat dp + offset + Z.of_nat len) (Z.of_nat (length m))); [|lia].
  eexists. split; [reflexivity|]. split.
  - rewrite !length_app, !length_take, !length_drop. lia.
  - intros i Hi. rewrite lookup_app_r by (rewrite length_take; lia).
    rewrite lookup_app_l by (rewrite !length_take, length_drop; lia).
    rewrite lookup_take_lt by (rewrite length_take; lia). rewrite lookup_drop, length_take. f_equal. lia.
Qed.

(** The transport header does not lie before the data, unlike what [shift_data] mistakes. *)
Definition transport_in_data (p : packet) : Prop :=
  match pk_h p with Some h => Z.of_nat (headroom p) <= h | None => True end.

Lemma before_inv p o dp : before p o dp = true -> exists x, o = Some x /\ 0 <= x < dp.
Proof.
  destruct o as [x|]; [|done]. simpl. rewrite !andb_true_iff, !Z.leb_le, Z.ltb_lt. intros [[? ?] ?].
  exists x. split; [done|lia].
Qed.
Lemma shift_start_run p : transport_in_data p ->
  exists dp : nat, shift_start p = Some (Z.of_nat dp) /\ (dp <= headroom p)%nat /\
    (forall o, (pk_mac p = Some o \/ pk_nh p = Some o) -> 0 <= o <= Z.of_nat (buffer_length p) -> Z.of_nat dp <= o).
Proof.
  intros Ht. unfold shift_start. set (d1 := if before p (pk_mac p) _ then _ else _).
  set (d2 := if before p (pk_nh p) d1 then _ else _).
  assert (H1 : 0 <= d1 <= Z.of_nat (headroom p) /\
    forall o, pk_mac p = Some o -> 0 <= o <= Z.of_nat (buffer_length p) -> d1 <= o).
  { unfold d1. destruct (before p (pk_mac p) (Z.of_nat (headroom p))) eqn:E.
    - apply before_inv in E as (x & -> & Hx). simpl. split; [lia|]. intros o [= <-]. lia.
    - split; [lia|]. intros o Ho Hr. rewrite Ho in E. simpl in E.
      apply andb_false_iff in E as [E|E]; [apply andb_false_iff in E as [E|E]; apply Z.leb_gt in E; lia|].
      apply Z.ltb_ge in E. lia. }
  assert (H2 : 0 <= d2 <= d1 /\
    forall o, pk_nh p = Some o -> 0 <= o <= Z.of_nat (buffer_length p) -> d2 <= o).
  { unfold d2. destruct (before p (pk_nh p) d1) eqn:E.
    - apply before_inv in E as (x & -> & Hx). simpl. split; [lia|]. intros o [= <-]. lia.
    - split; [lia|]. intros o Ho Hr. rewrite Ho in E. simpl in E.
      apply andb_false_iff in E as [E|E]; [apply andb_false_iff in E as [E|E]; apply Z.leb_gt in E; lia|].
      apply Z.ltb_ge in E. lia. }
  assert (before p (pk_h p) d2 = false) as ->.
  { destruct (before p (pk_h p) d2) eqn:E; [|done]. apply before_inv in E as (x & Ex & Hx).
    unfold transport_in_data in Ht. rewrite Ex in Ht. lia. }
  exists (Z.to_nat d2). rewrite Z2Nat.id by lia. split; [done|]. split; [lia|].
  intros o [Ho|Ho] Hr; [apply H1 in Ho|apply H2 in Ho]; lia.
Qed.

Lemma shift_data_run m new_addr addr offset p :
  0 <= addr -> new_addr mod 8 = 0 -> transport_in_data p ->
  exists q addr' dp delta, shift_data (Some m) new_addr addr offset p = Ok (Some (q, addr')) /\
    shift_start p = Some (Z.of_nat dp) /\ (dp <= headroom p)%nat /\ moved p q dp delta /\
    (addr' + Z.of_nat (headroom q)) mod 8 = (addr + Z.of_nat (headroom p) + offset) mod 8.
Proof.
  intros Haddr Hnew Ht. destruct (shift_start_run p Ht) as (dp & Edp & Hdp & _).
  unfold shift_data. destruct (Z.eqb_spec offset 0) as [-> |Hne].
  { exists p, addr, dp, 0. split; [done|]. split; [done|]. split; [done|]. split; [|f_equal; lia].
    split; try done; [lia|intros i Hi _; f_equal; lia|..].
    - destruct (pk_mac p) as [o|]; simpl; [f_equal; lia|done].
    - destruct (pk_nh p) as [o|]; simpl; [f_equal; lia|done].
    - destruct (pk_h p) as [o|]; simpl; [f_equal; lia|done]. }
  rewrite Edp. destruct (negb (pk_shared p) && _) eqn:Eplace.
  - apply andb_true_iff in Eplace as [_ Hroom]. rewrite opt_res_some, bind_ok.
    rewrite (proj2 (Z.ltb_ge (Z.of_nat dp) 0)) by lia.
    rewrite (proj2 (Z.ltb_ge (Z.of_nat (headroom p + plength p)) (Z.of_nat dp))) by lia. cbn [orb].
    rewrite Nat2Z.id.
    assert (Hfit : 0 <= Z.of_nat dp + offset /\ offset <= Z.of_nat (tailroom p)).
    { destruct (Z.ltb_spec offset 0); apply Z.leb_le in Hroom; lia. }
    destruct (memmove_run (pmem p) dp (Z.to_nat (Z.of_nat (headroom p + plength p) - Z.of_nat dp)) offset)
      as (m' & -> & Hlen & Hbytes).
    { rewrite length_pmem. unfold buffer_length. lia. }
    { lia. }
    { rewrite length_pmem. unfold buffer_length. lia. }
    rewrite bind_ok. eexists _, addr, dp, offset. split; [reflexivity|]. split; [done|]. split; [done|].
    rewrite length_pmem in Hlen. unfold buffer_length in Hlen.
    match goal with |- moved p ?q _ _ /\ _ => set (qq := q) end.
    assert (Hh : Z.of_nat (headroom qq) = Z.of_nat (headroom p) + offset).
    { unfold qq, headroom at 1. cbn [shift_header_annotations set_headers reframe pk_head].
      rewrite length_take. lia. }
    split; [|rewrite Hh; f_equal; lia].
    split; try done.
    + unfold qq, plength at 1. cbn [shift_header_annotations set_headers reframe pk_data].
      rewrite length_take, length_drop. lia.
    + intros i Hi Hpos. change (pmem qq) with (pmem (reframe m' (Z.to_nat (Z.of_nat (headroom p) + offset)) (plength p) p)).
      rewrite pmem_reframe. apply Hbytes. lia.
  - clear Eplace. match goal with |- context [expensive_uniqueify _ ?a ?b _] => set (eh := a); set (et := b) end.
    assert (Heh : - Z.of_nat (headroom p) <= eh /\ (Z.of_nat (headroom p) + eh) mod 8 = (addr + Z.of_nat (headroom p) + offset) mod 8).
    { unfold eh. destruct (Z.ltb_spec offset 0); cbn [andb];
        [destruct (Z.ltb_spec (Z.of_nat (headroom p)) (- offset))|]; split; zdm. }
    assert (Het : 0 <= et) by (unfold et; destruct (Z.ltb_spec offset 0); lia).
    destruct Heh as [Heh Hmod].
    assert (exists q, expensive_uniqueify (Some m) eh et p = Ok (Some q)) as [q Eq].
    { unfold expensive_uniqueify. destruct (Z.leb_spec (- Z.of_nat (headroom p)) eh); [|lia].
      destruct (Z.leb_spec (- Z.of_nat (tailroom p)) et); [|lia]. by eexists. }
    rewrite Eq, bind_ok. exists q, new_addr, dp, eh. split; [reflexivity|].
    pose proof (expensive_moved m eh et p q dp Heh Het Eq) as Hm.
    split; [done|]. split; [done|]. split; [done|]. rewrite (mv_headroom _ _ _ _ Hm).
    rewrite <- Hmod, Z.add_mod, Hnew, Z.add_0_l, Z.mod_mod by lia. done.
Qed.

Lemma Align_configure_inv modulus offset c : Align_configure modulus offset = Some c ->
  (modulus = 2 \/ modulus = 4 \/ modulus = 8) /\ offset < modulus /\ c = AlignConf (modulus - 1) offset.
Proof.
  unfold Align_configure. destruct (negb (modulus =? 2) && _ && _) eqn:E; [done|].
  destruct (Z.leb_spec modulus offset); [done|]. intros [= <-]. split; [|by split].
  rewrite !andb_false_iff, !negb_false_iff, !Z.eqb_eq in E. tauto.
Qed.
Lemma mod_of_mod8 modulus a b :
  modulus = 2 \/ modulus = 4 \/ modulus = 8 -> a mod 8 = b mod 8 -> a mod modulus = b mod modulus.
Proof. intros [-> |[-> | ->]] H; zdm. Qed.
Lemma mask_mod modulus x : modulus = 2 \/ modulus = 4 \/ modulus = 8 -> Z.land x (modulus - 1) = x mod modulus.
Proof.
  intros [-> |[-> | ->]].
  - apply (Z.land_ones x 1). lia.
  - apply (Z.land_ones x 2). lia.
  - apply (Z.land_ones x 3). lia.
Qed.

(** [Align] leaves every packet at the alignment it is configured with, whether the packet
    is shared or not and wherever its buffer is, with the same data and annotations; the header
    pointers that are set, and the bytes from the first MAC or network header before the data
    on, move with the data. *)
Theorem Align_aligns (c : align_conf) (modulus offset : Z) (m : nat -> Z) (new_addr addr : Z) (p : packet)
    (Hc : Align_configure modulus offset = Some c) (Haddr : 0 <= addr) (Hnew : new_addr mod 8 = 0)
    (Ht : transport_in_data p) :
  exists q addr' dp delta, Align_smaction c (Some m) new_addr addr p = Ok (Some (q, addr')) /\
    (addr' + Z.of_nat (headroom q)) mod modulus = offset mod modulus /\
    pk_data q = pk_data p /\ shift_start p = Some (Z.of_nat dp) /\ moved p q dp delta.
Proof.
  apply Align_configure_inv in Hc as (Hmod & Hoff & ->). unfold Align_smaction. cbn [align_offset align_mask].
  rewrite (mask_mod modulus _ Hmod).
  set (x := addr + Z.of_nat (headroom p)). set (delta := offset - x mod modulus).
  destruct (shift_data_run m new_addr addr (if delta =? 0 then 0 else if delta <? 0 then delta + (modulus - 1 + 1) else delta) p Haddr Hnew Ht)
    as (q & addr' & dp & d & E & Edp & Hdp & Hm & Ha).
  exists q, addr', dp, d. split.
  { destruct (delta =? 0); [|exact E]. exact E. }
  clear E. split; [|split; [by eapply moved_data|by split]].
  apply (mod_of_mod8 modulus) in Ha; [|done]. rewrite Ha. fold x.
  assert (Hx : (x + delta) mod modulus = offset mod modulus).
  { unfold delta. rewrite Z.add_sub_assoc, Zminus_mod_idemp_r. f_equal. lia. }
  destruct (Z.eqb_spec delta 0) as [E0|_]; [rewrite <- Hx; f_equal; lia|].
  destruct (delta <? 0); [|done]. rewrite <- Hx.
  replace (x + (delta + (modulus - 1 + 1))) with (x + delta + 1 * modulus) by lia.
  apply Z.mod_add. lia.
Qed.

(** A shared packet at an odd address. *)
Theorem Align_aligns_witness :
  exists q addr' dp delta,
    Align_smaction (AlignConf 3 2) (Some (fun _ => 9)) 64 1001 (set_shared true sample_packet) =
      Ok (Some (q, addr')) /\
    (addr' + Z.of_nat (headroom q)) mod 4 = 2 mod 4 /\ pk_data q = [4; 5; 6; 7] /\
    shift_start (set_shared true sample_packet) = Some (Z.of_nat dp) /\
    moved (set_shared true sample_packet) q dp delta.
Proof.
  apply (Align_aligns (AlignConf 3 2) 4 2 (fun _ => 9) 64 1001 (set_shared true sample_packet));
    [reflexivity|lia|reflexivity|exact I].
Defined.

(** A packet whose transport header lies before its data and whose network header lies behind
    the data's first byte (after a tunnel header was stripped, say): [shift_data] takes the
    network header for the start of what it moves, and the data changes. *)
Definition stripped_packet : packet :=
  MkPacket [1; 2; 3] [4; 5; 6; 7] [8; 9] false (replicate 48 0) HOST None (Some 5) (Some 2).
Example shift_data_corrupts :
  pk_ok stripped_packet /\
  exists q, shift_data None 0 0 2 stripped_packet = Ok (Some (q, 0)) /\ pk_data q = [6; 7; 6; 7].
Proof.
  split; [split; [unfold pmem; cbn; solve_bytes|done|apply bytes_ok_zero|done|cbn; lia|cbn; lia]|].
  eexists. split; reflexivity.
Qed.

(** [copy] of a packet without a MAC header fails an assertion. *)
Lemma packet_copy_no_mac src h q :
  pk_mac src = None -> Z.of_nat h + Z.of_nat (plength src) < 4294967296 ->
  (h + plength src <= buffer_length q)%nat -> packet_copy src h q = Fault AssertFailed.
Proof.
  intros Hm Hr Hl. unfold packet_copy. rewrite u32_small by lia.
  destruct (Z.ltb_spec (Z.of_nat (buffer_length q)) (Z.of_nat h + Z.of_nat (plength src))); [lia|].
  destruct (Nat.ltb_spec (buffer_length q) (h + plength src)); [lia|]. by rewrite Hm.
Qed.
