(* ===== verification/Wire.v ===== *)
(** * Wire formats: the header structs the elements overlay on packet bytes

    [field] gives the offset and width of a struct member; [getf] and [setf] load and store a
    member of the struct at [data() + base].  Every value is the one the host loads, so 16- and
    32-bit members hold network-order values as the C++ sees them.  For each struct there is
    also a record with an encoder, which the theorems use to describe whole headers. *)
From Stdlib Require Import ZArith Lia.
From stdpp Require Import base list numbers option.
From S2P Require Import Prelude Checksum Packet.

Record field : Type := Field { f_off : nat; f_width : nat }.

Definition getf (p : packet) (base : nat) (f : field) : res Z :=
  pld (f_width f) p (base + f_off f).
Definition setf (base : nat) (f : field) (v : Z) (p : packet) : res packet :=
  pst (f_width f) p (base + f_off f) v.

(** ** [struct click_ip] (little-endian bit-field layout) *)
Definition ip_vhl : field := Field 0 1.
Definition ip_tos : field := Field 1 1.
Definition ip_len : field := Field 2 2.
Definition ip_id : field := Field 4 2.
Definition ip_off : field := Field 6 2.
Definition ip_ttl : field := Field 8 1.
Definition ip_p : field := Field 9 1.
Definition ip_sum : field := Field 10 2.
Definition ip_src : field := Field 12 4.
Definition ip_dst : field := Field 16 4.
Definition sizeof_click_ip : nat := 20.
Definition get_ip_hl (p : packet) (base : nat) : res Z :=
  b ← getf p base ip_vhl; Ok (Z.land b 15).
Definition get_ip_v (p : packet) (base : nat) : res Z :=
  b ← getf p base ip_vhl; Ok (Z.shiftr b 4).
Definition set_ip_hl (base : nat) (v : Z) (p : packet) : res packet :=
  b ← getf p base ip_vhl; setf base ip_vhl (Z.lor (Z.land b 240) (Z.land v 15)) p.
Definition set_ip_v (base : nat) (v : Z) (p : packet) : res packet :=
  b ← getf p base ip_vhl; setf base ip_vhl (Z.lor (Z.land b 15) (Z.shiftl (Z.land v 15) 4)) p.

(** ** [struct click_udp] *)
Definition uh_sport : field := Field 0 2.
Definition uh_dport : field := Field 2 2.
Definition uh_ulen : field := Field 4 2.
Definition uh_sum : field := Field 6 2.
Definition sizeof_click_udp : nat := 8.

Definition sizeof_click_ether : nat := 14.

(** ** [struct regreq_h] (24 bytes: [identification] is 8-aligned) *)
Definition req_type : field := Field 0 1.
Definition req_flags : field := Field 1 1.
Definition req_lifetime : field := Field 2 2.
Definition req_home_address : field := Field 4 4.
Definition req_home_agent : field := Field 8 4.
Definition req_care_of_address : field := Field 12 4.
Definition req_identification : field := Field 16 8.
Definition sizeof_regreq_h : nat := 24.

(** ** [struct regrep_h] (packed, 20 bytes) *)
Definition rep_type : field := Field 0 1.
Definition rep_code : field := Field 1 1.
Definition rep_lifetime : field := Field 2 2.
Definition rep_home_address : field := Field 4 4.
Definition rep_home_agent : field := Field 8 4.
Definition rep_identification : field := Field 12 8.
Definition sizeof_regrep_h : nat := 20.

(** ** [struct advertisement_h] and [struct advertisement_h_e] *)
Definition adv_type : field := Field 0 1.
Definition adv_code : field := Field 1 1.
Definition adv_checksum : field := Field 2 2.
Definition adv_addresses : field := Field 4 1.
Definition adv_addr_size : field := Field 5 1.
Definition adv_lifetime : field := Field 6 2.
Definition adv_address : field := Field 8 4.
Definition adv_preferences : field := Field 12 4.
Definition sizeof_advertisement_h : nat := 16.
Definition ext_type : field := Field 0 1.
Definition ext_length : field := Field 1 1.
Definition ext_seq_nr : field := Field 2 2.
Definition ext_lifetime : field := Field 4 2.
Definition ext_flags : field := Field 6 1.
Definition ext_reserved : field := Field 7 1.
Definition ext_address : field := Field 8 4.
Definition sizeof_advertisement_h_e : nat := 12.

(** ** [struct solicitation_h] (6 bytes) *)
Definition sol_type : field := Field 0 1.
Definition sol_code : field := Field 1 1.
Definition sol_checksum : field := Field 2 2.
Definition sol_addresses : field := Field 4 1.
Definition sizeof_solicitation_h : nat := 6.

(** ** [struct click_icmp] *)
Definition icmp_type : field := Field 0 1.
Definition icmp_code : field := Field 1 1.
Definition icmp_cksum : field := Field 2 2.
Definition sizeof_click_icmp : nat := 8.

(** [click_in_cksum_pseudohdr(click_in_cksum(udp, n), ip, n)] with [ip] at offset [ip] and
    [udp] right after an option-free header, as the elements cast it. *)
Definition transport_sum (p : packet) (ip n : nat) : res Z :=
  dgram ← pbytes p (ip + sizeof_click_ip) n;
  iph ← pbytes p ip (plength p + tailroom p - ip);
  click_in_cksum_pseudohdr (click_in_cksum dgram) iph (Z.of_nat n).

(** ** Little-endian encodings *)
Fixpoint le (n : nat) (v : Z) : list Z :=
  match n with O => [] | S n' => v mod 256 :: le n' (v / 256) end.

Lemma length_le n v : length (le n v) = n.
Proof. revert v. induction n as [|n IH]; intros; simpl; [done|]. by rewrite IH. Qed.
Lemma le_ok n v : bytes_ok (le n v).
Proof.
  revert v. induction n as [|n IH]; intros v; simpl; [constructor|].
  apply bytes_ok_cons. split; [|apply IH]. apply Z.mod_pos_bound. lia.
Qed.
#[export] Hint Resolve le_ok : bytes.
#[export] Hint Rewrite length_le : bytes.

Lemma rdn_le n v l : rdn n (le n v ++ l) 0 = Some (v mod pow256 n).
Proof.
  revert v l. induction n as [|n IH]; intros v l; [by rewrite Z.mod_1_r|].
  change (rdn (S n) (le (S n) v ++ l) 0) with
    (x ← (v mod 256 :: le n (v / 256) ++ l) !! 0%nat;
     r ← rdn n ([v mod 256] ++ le n (v / 256) ++ l) (length [v mod 256] + 0);
     Some (x + 256 * r)).
  rewrite rdn_app_r, IH. simpl. pose proof (pow256_pos n).
  rewrite Z.rem_mul_r by lia. done.
Qed.

(** What a load of adjacent bytes of an encoded value gives back. *)
Lemma join1 x : x mod 256 + 256 * 0 = u8 x.
Proof. unfold u8. lia. Qed.
Lemma join2 x : x mod 256 + 256 * ((x / 256) mod 256 + 256 * 0) = u16 x.
Proof. pose proof (rdn_le 2 x []) as H. injection H as H. exact H. Qed.
Lemma join4 x :
  x mod 256 + 256 * ((x / 256) mod 256 + 256 * ((x / 256 / 256) mod 256 +
    256 * ((x / 256 / 256 / 256) mod 256 + 256 * 0))) = u32 x.
Proof. pose proof (rdn_le 4 x []) as H. injection H as H. exact H. Qed.
Lemma join8 x :
  x mod 256 + 256 * ((x / 256) mod 256 + 256 * ((x / 256 / 256) mod 256 +
    256 * ((x / 256 / 256 / 256) mod 256 + 256 * ((x / 256 / 256 / 256 / 256) mod 256 +
    256 * ((x / 256 / 256 / 256 / 256 / 256) mod 256 +
    256 * ((x / 256 / 256 / 256 / 256 / 256 / 256) mod 256 +
    256 * ((x / 256 / 256 / 256 / 256 / 256 / 256 / 256) mod 256 + 256 * 0))))))) = u64 x.
Proof. pose proof (rdn_le 8 x []) as H. injection H as H. exact H. Qed.
Create Rewrite HintDb wire.
#[export] Hint Rewrite join8 join4 join2 join1 : wire.

(** ** Whole headers as records *)
Record ip_hdr : Type := IpHdr {
  i_vhl : Z; i_tos : Z; i_len : Z; i_id : Z; i_off : Z; i_ttl : Z; i_p : Z; i_sum : Z;
  i_src : Z; i_dst : Z
}.
Definition enc_ip (i : ip_hdr) : list Z :=
  le 1 (i_vhl i) ++ le 1 (i_tos i) ++ le 2 (i_len i) ++ le 2 (i_id i) ++ le 2 (i_off i) ++
  le 1 (i_ttl i) ++ le 1 (i_p i) ++ le 2 (i_sum i) ++ le 4 (i_src i) ++ le 4 (i_dst i).

Record udp_hdr : Type := UdpHdr { u_sport : Z; u_dport : Z; u_ulen : Z; u_sum : Z }.
Definition enc_udp (u : udp_hdr) : list Z :=
  le 2 (u_sport u) ++ le 2 (u_dport u) ++ le 2 (u_ulen u) ++ le 2 (u_sum u).

Record regreq : Type := RegreqH {
  rq_type : Z; rq_flags : Z; rq_lifetime : Z; rq_home_address : Z; rq_home_agent : Z;
  rq_care_of_address : Z; rq_identification : Z
}.
Definition enc_regreq (r : regreq) : list Z :=
  le 1 (rq_type r) ++ le 1 (rq_flags r) ++ le 2 (rq_lifetime r) ++ le 4 (rq_home_address r) ++
  le 4 (rq_home_agent r) ++ le 4 (rq_care_of_address r) ++ le 8 (rq_identification r).

Record regrep : Type := RegrepH {
  rp_type : Z; rp_code : Z; rp_lifetime : Z; rp_home_address : Z; rp_home_agent : Z;
  rp_identification : Z
}.
Definition enc_regrep (r : regrep) : list Z :=
  le 1 (rp_type r) ++ le 1 (rp_code r) ++ le 2 (rp_lifetime r) ++ le 4 (rp_home_address r) ++
  le 4 (rp_home_agent r) ++ le 8 (rp_identification r).

Record adv : Type := AdvH {
  a_type : Z; a_code : Z; a_checksum : Z; a_addresses : Z; a_addr_size : Z; a_lifetime : Z;
  a_address : Z; a_preferences : Z
}.
Definition enc_adv (a : adv) : list Z :=
  le 1 (a_type a) ++ le 1 (a_code a) ++ le 2 (a_checksum a) ++ le 1 (a_addresses a) ++
  le 1 (a_addr_size a) ++ le 2 (a_lifetime a) ++ le 4 (a_address a) ++ le 4 (a_preferences a).

Record adv_ext : Type := AdvExt {
  x_type : Z; x_length : Z; x_seq_nr : Z; x_lifetime : Z; x_flags : Z; x_reserved : Z;
  x_address : Z
}.
Definition enc_adv_ext (x : adv_ext) : list Z :=
  le 1 (x_type x) ++ le 1 (x_length x) ++ le 2 (x_seq_nr x) ++ le 2 (x_lifetime x) ++
  le 1 (x_flags x) ++ le 1 (x_reserved x) ++ le 4 (x_address x).

(** The solicitation, with its byte of padding. *)
Record sol : Type := SolH { s_type : Z; s_code : Z; s_checksum : Z; s_addresses : Z; s_pad : Z }.
Definition enc_sol (h : sol) : list Z :=
  le 1 (s_type h) ++ le 1 (s_code h) ++ le 2 (s_checksum h) ++ le 1 (s_addresses h) ++
  le 1 (s_pad h).

(** ** Members in range *)
Definition in8 (z : Z) : Prop := 0 <= z < 256.
Definition in16 (z : Z) : Prop := 0 <= z < 65536.
Definition in32 (z : Z) : Prop := 0 <= z < 4294967296.
Definition in64 (z : Z) : Prop := 0 <= z < 18446744073709551616.

Record ip_ok (i : ip_hdr) : Prop := {
  iok_vhl : in8 (i_vhl i); iok_tos : in8 (i_tos i); iok_len : in16 (i_len i);
  iok_id : in16 (i_id i); iok_off : in16 (i_off i); iok_ttl : in8 (i_ttl i);
  iok_p : in8 (i_p i); iok_sum : in16 (i_sum i); iok_src : in32 (i_src i);
  iok_dst : in32 (i_dst i)
}.
Record udp_ok (u : udp_hdr) : Prop := {
  uok_sport : in16 (u_sport u); uok_dport : in16 (u_dport u); uok_ulen : in16 (u_ulen u);
  uok_sum : in16 (u_sum u)
}.
Record regreq_ok (r : regreq) : Prop := {
  rqok_type : in8 (rq_type r); rqok_flags : in8 (rq_flags r);
  rqok_lifetime : in16 (rq_lifetime r); rqok_ha : in32 (rq_home_address r);
  rqok_agent : in32 (rq_home_agent r); rqok_coa : in32 (rq_care_of_address r);
  rqok_id : in64 (rq_identification r)
}.
Record regrep_ok (r : regrep) : Prop := {
  rpok_type : in8 (rp_type r); rpok_code : in8 (rp_code r);
  rpok_lifetime : in16 (rp_lifetime r); rpok_ha : in32 (rp_home_address r);
  rpok_agent : in32 (rp_home_agent r); rpok_id : in64 (rp_identification r)
}.
