(* ===== verification/Build.v ===== *)
(** * Reading and building headers

    How the elements' field-by-field reads and writes act on a packet whose data is an encoded
    header: each write replaces one member of the record, each read returns one.  These are
    the steps by which the handlers' packet-building code is executed symbolically. *)
From Stdlib Require Import ZArith Lia.
From stdpp Require Import base list numbers option.
From S2P Require Import Prelude Checksum Packet Wire.

Lemma set_data_twice d1 d2 p : set_data d1 (set_data d2 p) = set_data d1 p.
Proof. done. Qed.
Lemma set_data_id p : set_data (pk_data p) p = p.
Proof. by destruct p. Qed.
Lemma set_dst_ip_anno_data a d p :
  set_dst_ip_anno a (set_data d p) = set_data d (set_dst_ip_anno a p).
Proof. done. Qed.

Lemma getf_val p base f v :
  rdn (f_width f) (pk_data p) (base + f_off f) = Some v ->
  (0 < f_width f)%nat -> getf p base f = Ok v.
Proof.
  intros H Hw. unfold getf. rewrite pld_data by (by eapply rdn_length in H; [|done]).
  by apply ld_ok.
Qed.

(** Loads from a packet's whole memory. *)
Lemma pbytes_all p : pbytes p 0 (plength p + tailroom p) = Ok (pk_data p ++ pk_tail p).
Proof.
  unfold pbytes. rewrite Nat.leb_refl. rewrite drop_0, take_ge; [done|].
  rewrite length_app. done.
Qed.
Lemma ld_app n d t i v : rdn n d i = Some v -> (0 < n)%nat -> ld n (d ++ t) i = Ok v.
Proof.
  intros H Hn. pose proof (rdn_length _ _ _ _ Hn H). apply ld_ok. by rewrite rdn_app_l.
Qed.

(** A freshly made packet, before and after [memset]. *)
Definition made (m : nat -> Z) (hroom len : nat) : packet :=
  MkPacket (junk m 0 hroom) (replicate len 0)
    (junk m (hroom + len) (Nat.max (hroom + len + 0) CLICK_PACKET_POOL_BUFSIZ - hroom - len))
    false (replicate anno_size 0) HOST None None None.
Lemma make_some {B} m h n (k : option packet -> res B) :
  (make (Some m) h None n 0 ≫= k) =
  k (Some (MkPacket (junk m 0 h) (junk m h n) (pk_tail (made m h n)) false
             (replicate anno_size 0) HOST None None None)).
Proof. done. Qed.
Lemma memset0_made m h n :
  memset0 (MkPacket (junk m 0 h) (junk m h n) (pk_tail (made m h n)) false
             (replicate anno_size 0) HOST None None None) = set_data (replicate n 0) (made m h n).
Proof. unfold memset0, set_data, plength. simpl. by rewrite length_junk. Qed.

(** ** Reads *)

(** [wire_eval] computes a load from an encoded header down to the member it hits. *)
Ltac join_bytes :=
  repeat rewrite join8; repeat rewrite join4; repeat rewrite join2; repeat rewrite join1.
Ltac in_range :=
  unfold in8, in16, in32, in64 in *; lia.
Ltac small_words :=
  repeat match goal with
  | |- context [u8 ?x] => rewrite (u8_small x) by in_range
  | |- context [u16 ?x] => rewrite (u16_small x) by in_range
  | |- context [u32 ?x] => rewrite (u32_small x) by in_range
  | |- context [u64 ?x] => rewrite (u64_small x) by in_range
  end.
Ltac wire_eval :=
  cbv [enc_ip enc_udp enc_regreq enc_regrep enc_adv enc_adv_ext le app];
  unfold rdn; cbn -[Z.modulo Z.div Z.add Z.mul]; join_bytes.

(** A packet whose data holds, from offset [base] on, an IP header without options, a UDP
    header and a message [msg], then anything. *)
Record carries (base : nat) (q : packet) (i : ip_hdr) (u : udp_hdr) (msg : list Z) : Prop := {
  ca_data : exists pre rest,
    length pre = base /\ pk_data q = pre ++ enc_ip i ++ enc_udp u ++ msg ++ rest;
  ca_ip : ip_ok i; ca_udp : udp_ok u
}.
Definition carries_req base q i u r : Prop := carries base q i u (enc_regreq r) /\ regreq_ok r.
Definition carries_rep base q i u r : Prop := carries base q i u (enc_regrep r) /\ regrep_ok r.

Lemma getf_pre pre l q base k f v :
  length pre = base -> pk_data q = pre ++ l -> (0 < f_width f)%nat ->
  rdn (f_width f) l (k + f_off f) = Some v -> getf q (base + k) f = Ok v.
Proof.
  intros Hl Hd Hw Hv. apply getf_val; [|done].
  rewrite Hd, <- Hl, <- Nat.add_assoc. by rewrite rdn_app_r.
Qed.

Ltac getf_carried :=
  first
    [ lazymatch goal with |- carries _ _ _ _ _ -> _ => intros [(pre & rest & Hl & Hd) [] []] end
    | intros [[(pre & rest & Hl & Hd) [] []] []] ];
  eapply getf_pre; [eassumption|eassumption|simpl; lia|];
  wire_eval; small_words; reflexivity.

Section Carries.
Context (base : nat) (q : packet) (i : ip_hdr) (u : udp_hdr) (msg : list Z).
Lemma ca_vhl : carries base q i u msg -> getf q (base + 0) ip_vhl = Ok (i_vhl i).
Proof. getf_carried. Qed.
Lemma ca_tos : carries base q i u msg -> getf q (base + 0) ip_tos = Ok (i_tos i).
Proof. getf_carried. Qed.
Lemma ca_len : carries base q i u msg -> getf q (base + 0) ip_len = Ok (i_len i).
Proof. getf_carried. Qed.
Lemma ca_p : carries base q i u msg -> getf q (base + 0) ip_p = Ok (i_p i).
Proof. getf_carried. Qed.
Lemma ca_src : carries base q i u msg -> getf q (base + 0) ip_src = Ok (i_src i).
Proof. getf_carried. Qed.
Lemma ca_dst : carries base q i u msg -> getf q (base + 0) ip_dst = Ok (i_dst i).
Proof. getf_carried. Qed.
Lemma ca_sport : carries base q i u msg -> getf q (base + 20) uh_sport = Ok (u_sport u).
Proof. getf_carried. Qed.
Lemma ca_dport : carries base q i u msg -> getf q (base + 20) uh_dport = Ok (u_dport u).
Proof. getf_carried. Qed.
Lemma ca_sum : carries base q i u msg -> getf q (base + 20) uh_sum = Ok (u_sum u).
Proof. getf_carried. Qed.
End Carries.

Section CarriesReq.
Context (base : nat) (q : packet) (i : ip_hdr) (u : udp_hdr) (r : regreq).
Context (H : carries_req base q i u r).
Lemma cq_type : getf q (base + 28) req_type = Ok (rq_type r).
Proof using H. revert H. getf_carried. Qed.
Lemma cq_flags : getf q (base + 28) req_flags = Ok (rq_flags r).
Proof using H. revert H. getf_carried. Qed.
Lemma cq_lifetime : getf q (base + 28) req_lifetime = Ok (rq_lifetime r).
Proof using H. revert H. getf_carried. Qed.
Lemma cq_home : getf q (base + 28) req_home_address = Ok (rq_home_address r).
Proof using H. revert H. getf_carried. Qed.
Lemma cq_agent : getf q (base + 28) req_home_agent = Ok (rq_home_agent r).
Proof using H. revert H. getf_carried. Qed.
Lemma cq_coa : getf q (base + 28) req_care_of_address = Ok (rq_care_of_address r).
Proof using H. revert H. getf_carried. Qed.
Lemma cq_id : getf q (base + 28) req_identification = Ok (rq_identification r).
Proof using H. revert H. getf_carried. Qed.
End CarriesReq.

Section CarriesRep.
Context (base : nat) (q : packet) (i : ip_hdr) (u : udp_hdr) (r : regrep).
Context (H : carries_rep base q i u r).
Lemma cp_type : getf q (base + 28) rep_type = Ok (rp_type r).
Proof using H. revert H. getf_carried. Qed.
Lemma cp_code : getf q (base + 28) rep_code = Ok (rp_code r).
Proof using H. revert H. getf_carried. Qed.
Lemma cp_lifetime : getf q (base + 28) rep_lifetime = Ok (rp_lifetime r).
Proof using H. revert H. getf_carried. Qed.
Lemma cp_home : getf q (base + 28) rep_home_address = Ok (rp_home_address r).
Proof using H. revert H. getf_carried. Qed.
Lemma cp_id : getf q (base + 28) rep_identification = Ok (rp_identification r).
Proof using H. revert H. getf_carried. Qed.
End CarriesRep.


(** ** Writes *)
Ltac build_set := unfold setf; rewrite pst_data by (cbn; lia); reflexivity.

Section BuildIp.
Context (x0 x1 x2 x3 x4 x5 x6 x7 x8 x9 : Z) (l : list Z) (p : packet).
Abbreviation hdr y0 y1 y2 y3 y4 y5 y6 y7 y8 y9 :=
  (set_data (enc_ip (IpHdr y0 y1 y2 y3 y4 y5 y6 y7 y8 y9) ++ l) p).
Lemma set_ip_vhl v :
  setf 0 ip_vhl v (hdr x0 x1 x2 x3 x4 x5 x6 x7 x8 x9) = Ok (hdr v x1 x2 x3 x4 x5 x6 x7 x8 x9).
Proof. build_set. Qed.
Lemma set_ip_tos v :
  setf 0 ip_tos v (hdr x0 x1 x2 x3 x4 x5 x6 x7 x8 x9) = Ok (hdr x0 v x2 x3 x4 x5 x6 x7 x8 x9).
Proof. build_set. Qed.
Lemma set_ip_len v :
  setf 0 ip_len v (hdr x0 x1 x2 x3 x4 x5 x6 x7 x8 x9) = Ok (hdr x0 x1 v x3 x4 x5 x6 x7 x8 x9).
Proof. build_set. Qed.
Lemma set_ip_id v :
  setf 0 ip_id v (hdr x0 x1 x2 x3 x4 x5 x6 x7 x8 x9) = Ok (hdr x0 x1 x2 v x4 x5 x6 x7 x8 x9).
Proof. build_set. Qed.
Lemma set_ip_off v :
  setf 0 ip_off v (hdr x0 x1 x2 x3 x4 x5 x6 x7 x8 x9) = Ok (hdr x0 x1 x2 x3 v x5 x6 x7 x8 x9).
Proof. build_set. Qed.
Lemma set_ip_ttl v :
  setf 0 ip_ttl v (hdr x0 x1 x2 x3 x4 x5 x6 x7 x8 x9) = Ok (hdr x0 x1 x2 x3 x4 v x6 x7 x8 x9).
Proof. build_set. Qed.
Lemma set_ip_p v :
  setf 0 ip_p v (hdr x0 x1 x2 x3 x4 x5 x6 x7 x8 x9) = Ok (hdr x0 x1 x2 x3 x4 x5 v x7 x8 x9).
Proof. build_set. Qed.
Lemma set_ip_sum v :
  setf 0 ip_sum v (hdr x0 x1 x2 x3 x4 x5 x6 x7 x8 x9) = Ok (hdr x0 x1 x2 x3 x4 x5 x6 v x8 x9).
Proof. build_set. Qed.
Lemma set_ip_src v :
  setf 0 ip_src v (hdr x0 x1 x2 x3 x4 x5 x6 x7 x8 x9) = Ok (hdr x0 x1 x2 x3 x4 x5 x6 x7 v x9).
Proof. build_set. Qed.
Lemma set_ip_dst v :
  setf 0 ip_dst v (hdr x0 x1 x2 x3 x4 x5 x6 x7 x8 x9) = Ok (hdr x0 x1 x2 x3 x4 x5 x6 x7 x8 v).
Proof. build_set. Qed.
Lemma set_ip_v_4 :
  set_ip_v 0 4 (hdr 0 x1 x2 x3 x4 x5 x6 x7 x8 x9) = Ok (hdr 64 x1 x2 x3 x4 x5 x6 x7 x8 x9).
Proof. unfold set_ip_v, getf. rewrite pld_data, (ld_ok _ _ _ 0) by (done || cbn; lia). cbn [mbind res_bind]. build_set. Qed.
Lemma set_ip_hl_5 :
  set_ip_hl 0 5 (hdr 64 x1 x2 x3 x4 x5 x6 x7 x8 x9) = Ok (hdr 69 x1 x2 x3 x4 x5 x6 x7 x8 x9).
Proof. unfold set_ip_hl, getf. rewrite pld_data, (ld_ok _ _ _ 64) by (done || cbn; lia). cbn [mbind res_bind]. build_set. Qed.
End BuildIp.
Section BuildUdp.
Context (x0 x1 x2 x3 : Z) (i : ip_hdr) (l : list Z) (p : packet).
Abbreviation hdr y0 y1 y2 y3 :=
  (set_data (enc_ip i ++ enc_udp (UdpHdr y0 y1 y2 y3) ++ l) p).
Lemma set_uh_sport v :
  setf 20 uh_sport v (hdr x0 x1 x2 x3) = Ok (hdr v x1 x2 x3).
Proof. build_set. Qed.
Lemma set_uh_dport v :
  setf 20 uh_dport v (hdr x0 x1 x2 x3) = Ok (hdr x0 v x2 x3).
Proof. build_set. Qed.
Lemma set_uh_ulen v :
  setf 20 uh_ulen v (hdr x0 x1 x2 x3) = Ok (hdr x0 x1 v x3).
Proof. build_set. Qed.
Lemma set_uh_sum v :
  setf 20 uh_sum v (hdr x0 x1 x2 x3) = Ok (hdr x0 x1 x2 v).
Proof. build_set. Qed.
End BuildUdp.
Section BuildReq.
Context (x0 x1 x2 x3 x4 x5 x6 : Z) (i : ip_hdr) (u : udp_hdr) (l : list Z) (p : packet).
Abbreviation hdr y0 y1 y2 y3 y4 y5 y6 :=
  (set_data (enc_ip i ++ enc_udp u ++ enc_regreq (RegreqH y0 y1 y2 y3 y4 y5 y6) ++ l) p).
Lemma set_req_type v :
  setf 28 req_type v (hdr x0 x1 x2 x3 x4 x5 x6) = Ok (hdr v x1 x2 x3 x4 x5 x6).
Proof. build_set. Qed.
Lemma set_req_flags v :
  setf 28 req_flags v (hdr x0 x1 x2 x3 x4 x5 x6) = Ok (hdr x0 v x2 x3 x4 x5 x6).
Proof. build_set. Qed.
Lemma set_req_lifetime v :
  setf 28 req_lifetime v (hdr x0 x1 x2 x3 x4 x5 x6) = Ok (hdr x0 x1 v x3 x4 x5 x6).
Proof. build_set. Qed.
Lemma set_req_home_address v :
  setf 28 req_home_address v (hdr x0 x1 x2 x3 x4 x5 x6) = Ok (hdr x0 x1 x2 v x4 x5 x6).
Proof. build_set. Qed.
Lemma set_req_home_agent v :
  setf 28 req_home_agent v (hdr x0 x1 x2 x3 x4 x5 x6) = Ok (hdr x0 x1 x2 x3 v x5 x6).
Proof. build_set. Qed.
Lemma set_req_care_of_address v :
  setf 28 req_care_of_address v (hdr x0 x1 x2 x3 x4 x5 x6) = Ok (hdr x0 x1 x2 x3 x4 v x6).
Proof. build_set. Qed.
Lemma set_req_identification v :
  setf 28 req_identification v (hdr x0 x1 x2 x3 x4 x5 x6) = Ok (hdr x0 x1 x2 x3 x4 x5 v).
Proof. build_set. Qed.
End BuildReq.
Section BuildRep.
Context (x0 x1 x2 x3 x4 x5 : Z) (i : ip_hdr) (u : udp_hdr) (l : list Z) (p : packet).
Abbreviation hdr y0 y1 y2 y3 y4 y5 :=
  (set_data (enc_ip i ++ enc_udp u ++ enc_regrep (RegrepH y0 y1 y2 y3 y4 y5) ++ l) p).
Lemma set_rep_type v :
  setf 28 rep_type v (hdr x0 x1 x2 x3 x4 x5) = Ok (hdr v x1 x2 x3 x4 x5).
Proof. build_set. Qed.
Lemma set_rep_code v :
  setf 28 rep_code v (hdr x0 x1 x2 x3 x4 x5) = Ok (hdr x0 v x2 x3 x4 x5).
Proof. build_set. Qed.
Lemma set_rep_lifetime v :
  setf 28 rep_lifetime v (hdr x0 x1 x2 x3 x4 x5) = Ok (hdr x0 x1 v x3 x4 x5).
Proof. build_set. Qed.
Lemma set_rep_home_address v :
  setf 28 rep_home_address v (hdr x0 x1 x2 x3 x4 x5) = Ok (hdr x0 x1 x2 v x4 x5).
Proof. build_set. Qed.
Lemma set_rep_home_agent v :
  setf 28 rep_home_agent v (hdr x0 x1 x2 x3 x4 x5) = Ok (hdr x0 x1 x2 x3 v x5).
Proof. build_set. Qed.
Lemma set_rep_identification v :
  setf 28 rep_identification v (hdr x0 x1 x2 x3 x4 x5) = Ok (hdr x0 x1 x2 x3 x4 v).
Proof. build_set. Qed.
End BuildRep.
Section BuildAdv.
Context (x0 x1 x2 x3 x4 x5 x6 x7 : Z) (i : ip_hdr) (l : list Z) (p : packet).
Abbreviation hdr y0 y1 y2 y3 y4 y5 y6 y7 :=
  (set_data (enc_ip i ++ enc_adv (AdvH y0 y1 y2 y3 y4 y5 y6 y7) ++ l) p).
Lemma set_adv_type v :
  setf 20 adv_type v (hdr x0 x1 x2 x3 x4 x5 x6 x7) = Ok (hdr v x1 x2 x3 x4 x5 x6 x7).
Proof. build_set. Qed.
Lemma set_adv_code v :
  setf 20 adv_code v (hdr x0 x1 x2 x3 x4 x5 x6 x7) = Ok (hdr x0 v x2 x3 x4 x5 x6 x7).
Proof. build_set. Qed.
Lemma set_adv_checksum v :
  setf 20 adv_checksum v (hdr x0 x1 x2 x3 x4 x5 x6 x7) = Ok (hdr x0 x1 v x3 x4 x5 x6 x7).
Proof. build_set. Qed.
Lemma set_adv_addresses v :
  setf 20 adv_addresses v (hdr x0 x1 x2 x3 x4 x5 x6 x7) = Ok (hdr x0 x1 x2 v x4 x5 x6 x7).
Proof. build_set. Qed.
Lemma set_adv_addr_size v :
  setf 20 adv_addr_size v (hdr x0 x1 x2 x3 x4 x5 x6 x7) = Ok (hdr x0 x1 x2 x3 v x5 x6 x7).
Proof. build_set. Qed.
Lemma set_adv_lifetime v :
  setf 20 adv_lifetime v (hdr x0 x1 x2 x3 x4 x5 x6 x7) = Ok (hdr x0 x1 x2 x3 x4 v x6 x7).
Proof. build_set. Qed.
Lemma set_adv_address v :
  setf 20 adv_address v (hdr x0 x1 x2 x3 x4 x5 x6 x7) = Ok (hdr x0 x1 x2 x3 x4 x5 v x7).
Proof. build_set. Qed.
Lemma set_adv_preferences v :
  setf 20 adv_preferences v (hdr x0 x1 x2 x3 x4 x5 x6 x7) = Ok (hdr x0 x1 x2 x3 x4 x5 x6 v).
Proof. build_set. Qed.
End BuildAdv.
Section BuildExt.
Context (x0 x1 x2 x3 x4 x5 x6 : Z) (i : ip_hdr) (a : adv) (l : list Z) (p : packet).
Abbreviation hdr y0 y1 y2 y3 y4 y5 y6 :=
  (set_data (enc_ip i ++ enc_adv a ++ enc_adv_ext (AdvExt y0 y1 y2 y3 y4 y5 y6) ++ l) p).
Lemma set_ext_type v :
  setf 36 ext_type v (hdr x0 x1 x2 x3 x4 x5 x6) = Ok (hdr v x1 x2 x3 x4 x5 x6).
Proof. build_set. Qed.
Lemma set_ext_length v :
  setf 36 ext_length v (hdr x0 x1 x2 x3 x4 x5 x6) = Ok (hdr x0 v x2 x3 x4 x5 x6).
Proof. build_set. Qed.
Lemma set_ext_seq_nr v :
  setf 36 ext_seq_nr v (hdr x0 x1 x2 x3 x4 x5 x6) = Ok (hdr x0 x1 v x3 x4 x5 x6).
Proof. build_set. Qed.
Lemma set_ext_lifetime v :
  setf 36 ext_lifetime v (hdr x0 x1 x2 x3 x4 x5 x6) = Ok (hdr x0 x1 x2 v x4 x5 x6).
Proof. build_set. Qed.
Lemma set_ext_flags v :
  setf 36 ext_flags v (hdr x0 x1 x2 x3 x4 x5 x6) = Ok (hdr x0 x1 x2 x3 v x5 x6).
Proof. build_set. Qed.
Lemma set_ext_reserved v :
  setf 36 ext_reserved v (hdr x0 x1 x2 x3 x4 x5 x6) = Ok (hdr x0 x1 x2 x3 x4 v x6).
Proof. build_set. Qed.
Lemma set_ext_address v :
  setf 36 ext_address v (hdr x0 x1 x2 x3 x4 x5 x6) = Ok (hdr x0 x1 x2 x3 x4 x5 v).
Proof. build_set. Qed.
End BuildExt.

Section BuildSol.
Context (x0 x1 x2 x3 x4 : Z) (i : ip_hdr) (l : list Z) (p : packet).
Abbreviation hdr y0 y1 y2 :=
  (set_data (enc_ip i ++ enc_sol (SolH y0 y1 y2 x3 x4) ++ l) p).
Lemma set_sol_type v : setf 20 sol_type v (hdr x0 x1 x2) = Ok (hdr v x1 x2).
Proof. build_set. Qed.
Lemma set_sol_code v : setf 20 sol_code v (hdr x0 x1 x2) = Ok (hdr x0 v x2).
Proof. build_set. Qed.
Lemma set_sol_checksum v : setf 20 sol_checksum v (hdr x0 x1 x2) = Ok (hdr x0 x1 v).
Proof. build_set. Qed.
End BuildSol.

Create Rewrite HintDb build.
#[export] Hint Rewrite set_ip_vhl set_ip_tos set_ip_len set_ip_id set_ip_off set_ip_ttl set_ip_p set_ip_sum set_ip_src set_ip_dst set_ip_v_4 set_ip_hl_5 set_uh_sport set_uh_dport set_uh_ulen set_uh_sum set_req_type set_req_flags set_req_lifetime set_req_home_address set_req_home_agent set_req_care_of_address set_req_identification set_rep_type set_rep_code set_rep_lifetime set_rep_home_address set_rep_home_agent set_rep_identification set_adv_type set_adv_code set_adv_checksum set_adv_addresses set_adv_addr_size set_adv_lifetime set_adv_address set_adv_preferences set_ext_type set_ext_length set_ext_seq_nr set_ext_lifetime set_ext_flags set_ext_reserved set_ext_address set_sol_type set_sol_code set_sol_checksum : build.


(** ** Reading back what was built *)
Section Readback.
Context (i : ip_hdr) (l : list Z) (p : packet).

Lemma get_built_dst :
  getf (set_data (enc_ip i ++ l) p) 0 ip_dst = Ok (u32 (i_dst i)).
Proof. apply getf_val; [|simpl; lia]. wire_eval. done. Qed.
Lemma get_built_src :
  getf (set_data (enc_ip i ++ l) p) 0 ip_src = Ok (u32 (i_src i)).
Proof. apply getf_val; [|simpl; lia]. wire_eval. done. Qed.
Lemma pbytes_built_ip :
  pbytes (set_data (enc_ip i ++ l) p) 0 sizeof_click_ip = Ok (enc_ip i).
Proof. rewrite pbytes_data by (unfold sizeof_click_ip, plength; cbn; lia). reflexivity. Qed.
Lemma pbytes_built_rest n :
  n = length l -> pbytes (set_data (enc_ip i ++ l) p) 20 n = Ok l.
Proof.
  intros ->. rewrite pbytes_data by (cbn; lia). simpl. by rewrite firstn_all.
Qed.
Lemma pbytes_built_all :
  pbytes (set_data (enc_ip i ++ l) p) 0 (plength (set_data (enc_ip i ++ l) p)) =
  Ok (enc_ip i ++ l).
Proof. rewrite pbytes_data by lia. simpl pk_data. by rewrite drop_0, take_ge. Qed.
End Readback.

(** Without options the pseudo-header is read off the header itself. *)
Lemma pseudohdr_built c i l n :
  i_vhl i = 69 -> ip_ok i ->
  click_in_cksum_pseudohdr c (enc_ip i ++ l) n =
  click_in_cksum_pseudohdr_raw c (i_src i) (i_dst i) (i_p i) n.
Proof.
  intros Hv []. unfold click_in_cksum_pseudohdr.
  rewrite (ld_ok 1 _ 0 69), (ld_ok 4 _ 12 (i_src i)), (ld_ok 4 _ 16 (i_dst i)),
    (ld_ok 1 _ 9 (i_p i)); [done|wire_eval; small_words; by rewrite ?Hv..].
Qed.

Lemma enc_ip_ok i : bytes_ok (enc_ip i).
Proof. unfold enc_ip. rewrite !bytes_ok_app. auto 12 with bytes. Qed.
Lemma enc_udp_ok u : bytes_ok (enc_udp u).
Proof. unfold enc_udp. rewrite !bytes_ok_app. auto 12 with bytes. Qed.
Lemma enc_regreq_ok r : bytes_ok (enc_regreq r).
Proof. unfold enc_regreq. rewrite !bytes_ok_app. auto 12 with bytes. Qed.
Lemma enc_regrep_ok r : bytes_ok (enc_regrep r).
Proof. unfold enc_regrep. rewrite !bytes_ok_app. auto 12 with bytes. Qed.
Lemma enc_adv_ok a : bytes_ok (enc_adv a).
Proof. unfold enc_adv. rewrite !bytes_ok_app. auto 12 with bytes. Qed.
Lemma enc_adv_ext_ok x : bytes_ok (enc_adv_ext x).
Proof. unfold enc_adv_ext. rewrite !bytes_ok_app. auto 12 with bytes. Qed.
Lemma enc_sol_ok h : bytes_ok (enc_sol h).
Proof. unfold enc_sol. rewrite !bytes_ok_app. auto 12 with bytes. Qed.
#[export] Hint Resolve enc_ip_ok enc_udp_ok enc_regreq_ok enc_regrep_ok enc_adv_ok
  enc_adv_ext_ok enc_sol_ok : bytes.

(** The checksum fields, filled from the headers they are zero in, verify. *)
Definition ip_with_sum (s : Z) (i : ip_hdr) : ip_hdr :=
  IpHdr (i_vhl i) (i_tos i) (i_len i) (i_id i) (i_off i) (i_ttl i) (i_p i) s (i_src i) (i_dst i).
Definition udp_with_sum (s : Z) (u : udp_hdr) : udp_hdr :=
  UdpHdr (u_sport u) (u_dport u) (u_ulen u) s.

(** [ip_verifies i]: [CheckIPHeader] accepts the header checksum. *)
Definition ip_verifies (i : ip_hdr) : Prop := click_in_cksum (enc_ip i) = 0.
(** [udp_verifies i u msg]: the receiver's check of the UDP datagram gives 0. *)
Definition udp_verifies (i : ip_hdr) (u : udp_hdr) (msg : list Z) : Prop :=
  click_in_cksum_pseudohdr_raw (click_in_cksum (enc_udp u ++ msg)) (i_src i) (i_dst i) (i_p i)
    (Z.of_nat (length (enc_udp u ++ msg))) = Ok 0.

Lemma enc_ip_with_sum c i : enc_ip (ip_with_sum c i) = wrn 2 (enc_ip i) 10 c.
Proof. by destruct i. Qed.

Lemma ip_fill i : i_sum i = 0 -> ip_verifies (ip_with_sum (click_in_cksum (enc_ip i)) i).
Proof.
  intros H. unfold ip_verifies. rewrite enc_ip_with_sum.
  apply fill_verifies; [auto with bytes|reflexivity|reflexivity|cbn; lia|].
  wire_eval. by rewrite H.
Qed.

Lemma udp_fill i u msg :
  u_sum u = 0 -> bytes_ok msg -> Z.of_nat (length msg) < 65536 -> ip_ok i ->
  exists c, click_in_cksum_pseudohdr_raw (click_in_cksum (enc_udp u ++ msg)) (i_src i) (i_dst i)
      (i_p i) (Z.of_nat (length (enc_udp u ++ msg))) = Ok c /\
    0 <= c < 65536 /\ udp_verifies i (udp_with_sum c u) msg.
Proof.
  intros H Hm Hl []. 
  assert (Hlen : Z.of_nat (length (enc_udp u ++ msg)) < 131072)
    by (rewrite length_app, Nat2Z.inj_add; simpl length; lia).
  assert (Hb : bytes_ok (enc_udp u ++ msg)) by (apply bytes_ok_app; auto with bytes).
  pose proof (transport_cksum_spec (enc_udp u ++ msg) (i_src i) (i_dst i) (i_p i)
    (Z.of_nat (length (enc_udp u ++ msg))) Hb Hlen) as E.
  specialize (E ltac:(done) ltac:(done)). rewrite E. eexists. split; [done|].
  apply (transport_fill_verifies (enc_udp u ++ msg) 6 _ _ _ _ _ Hb Hlen) in E; try done.
  - rewrite length_app. cbn. lia.
  - wire_eval. by rewrite H.
Qed.

(** ** Well-formed UDP datagrams

    What every registration message the elements emit must be: an option-free IPv4 header and
    a UDP header with consistent lengths, both checksums verifying, the destination
    annotation set for the routing table behind the element. *)
Record datagram (p : packet) (i : ip_hdr) (u : udp_hdr) (msg : list Z) : Prop := {
  dg_data : pk_data p = enc_ip i ++ enc_udp u ++ msg;
  dg_ip : ip_ok i;
  dg_udp : udp_ok u;
  dg_vhl : i_vhl i = 69;
  dg_off : i_off i = 0;
  dg_p : i_p i = 17;
  dg_len : i_len i = htons (Z.of_nat (plength p));
  dg_ulen : u_ulen u = htons (Z.of_nat (plength p) - 20);
  dg_ipsum : ip_verifies i;
  dg_udpsum : udp_verifies i u msg;
  dg_anno : dst_ip_anno p = Some (i_dst i);
  dg_unshared : pk_shared p = false
}.

Lemma datagram_carries p i u msg : datagram p i u msg -> carries 0 p i u msg.
Proof. intros []. split; [|done..]. exists [], []. by rewrite app_nil_r. Qed.

Lemma dst_ip_anno_set a p :
  length (pk_anno p) = anno_size -> dst_ip_anno (set_dst_ip_anno a p) = Some (u32 a).
Proof. intros H. unfold dst_ip_anno. simpl. rewrite rdn_wrn_eq; [done|]. rewrite H. unfold anno_size. cbn. lia. Qed.

Lemma dst_ip_anno_made a d m h n :
  dst_ip_anno (set_data d (set_dst_ip_anno a (made m h n))) = Some (u32 a).
Proof. apply (dst_ip_anno_set a (made m h n)). done. Qed.

(** The transport checksum of an option-free header followed by [dg], on any packet. *)
Lemma transport_sum_data d i dg l p ip n :
  pk_data p = d ++ enc_ip i ++ dg ++ l -> length d = ip -> length dg = n ->
  i_vhl i = 69 -> ip_ok i ->
  transport_sum p ip n =
  click_in_cksum_pseudohdr_raw (click_in_cksum dg) (i_src i) (i_dst i) (i_p i) (Z.of_nat n).
Proof.
  intros Hd <- <- Hv Hi. assert (Hl : plength p = (length d + (20 + (length dg + length l)))%nat).
  { unfold plength. by rewrite Hd, !length_app. }
  unfold transport_sum, sizeof_click_ip. rewrite (pbytes_data p (length d + 20)) by lia.
  cbn [mbind res_bind]. unfold pbytes. rewrite (proj2 (Nat.leb_le _ _)) by lia. cbn [mbind res_bind].
  rewrite Hd, <- !app_assoc, <- drop_drop, !drop_app_length.
  rewrite (take_ge (enc_ip i ++ _)) by
    (rewrite !length_app; unfold tailroom; change (length (enc_ip i)) with 20%nat; lia).
  replace (take (length dg) (drop 20 (enc_ip i ++ dg ++ l))) with dg; [by apply pseudohdr_built|].
  change (drop 20 (enc_ip i ++ dg ++ l)) with (dg ++ l). by rewrite take_app_length.
Qed.

(** Filling in the UDP checksum of a datagram whose field is zero. *)
Lemma udp_sum_step p i u msg l n :
  i_vhl i = 69 -> ip_ok i -> u_sum u = 0 -> bytes_ok msg -> Z.of_nat (length msg) < 65536 ->
  n = (8 + length msg)%nat ->
  exists c, 0 <= c < 65536 /\ udp_verifies i (udp_with_sum c u) msg /\
    transport_sum (set_data (enc_ip i ++ enc_udp u ++ msg ++ l) p) 0 n = Ok c.
Proof.
  intros Hv Hi Hu Hm Hl ->. destruct (udp_fill i u msg) as (c & Hc & Hr & Hok); try done.
  exists c. split; [done|]. split; [done|].
  erewrite (transport_sum_data [] i (enc_udp u ++ msg)); try done.
Qed.

Lemma plength_set_data d p : plength (set_data d p) = length d.
Proof. done. Qed.
Lemma length_built_rep i u r :
  length (enc_ip i ++ enc_udp u ++ enc_regrep r ++ []) = 48%nat.
Proof. done. Qed.
Lemma length_built_req i u r :
  length (enc_ip i ++ enc_udp u ++ enc_regreq r ++ []) = 52%nat.
Proof. done. Qed.
#[export] Hint Rewrite plength_set_data length_built_rep length_built_req : build.

(** Runs a builder as far as it goes: hypotheses [getf q b f = Ok v] give the values read. *)
Ltac build_step :=
  first
    [ progress (autorewrite with build)
    | rewrite get_built_dst; cbn [i_dst]
    | rewrite get_built_src; cbn [i_src]
    | rewrite pbytes_built_ip
    | rewrite pbytes_built_all
    | rewrite set_dst_ip_anno_data
    | match goal with
      | H : getf ?q ?b ?f = Ok ?v |- context [getf ?q ?b ?f] => rewrite H
      end ]; rewrite ?bind_ok; cbv beta.
Ltac build := repeat build_step.

Lemma zero_ip : replicate 20 0 = enc_ip (IpHdr 0 0 0 0 0 0 0 0 0 0).
Proof. reflexivity. Qed.
(** A new packet, zeroed, seen as empty headers followed by nothing. *)
Lemma zero_rep : replicate 48 0 =
  enc_ip (IpHdr 0 0 0 0 0 0 0 0 0 0) ++ enc_udp (UdpHdr 0 0 0 0) ++
  enc_regrep (RegrepH 0 0 0 0 0 0) ++ [].
Proof. reflexivity. Qed.
Lemma zero_req : replicate 52 0 =
  enc_ip (IpHdr 0 0 0 0 0 0 0 0 0 0) ++ enc_udp (UdpHdr 0 0 0 0) ++
  enc_regreq (RegreqH 0 0 0 0 0 0 0) ++ [].
Proof. reflexivity. Qed.

Lemma zero_adv : replicate 48 0 =
  enc_ip (IpHdr 0 0 0 0 0 0 0 0 0 0) ++ enc_adv (AdvH 0 0 0 0 0 0 0 0) ++
  enc_adv_ext (AdvExt 0 0 0 0 0 0 0) ++ [].
Proof. reflexivity. Qed.
Lemma zero_sol : replicate 26 0 =
  enc_ip (IpHdr 0 0 0 0 0 0 0 0 0 0) ++ enc_sol (SolH 0 0 0 0 0) ++ [].
Proof. reflexivity. Qed.

(** ICMP messages: the checksum field, filled from the message it is zero in, verifies. *)
Definition adv_with_sum (c : Z) (a : adv) : adv :=
  AdvH (a_type a) (a_code a) c (a_addresses a) (a_addr_size a) (a_lifetime a) (a_address a)
    (a_preferences a).
Definition sol_with_sum (c : Z) (h : sol) : sol :=
  SolH (s_type h) (s_code h) c (s_addresses h) (s_pad h).

Lemma adv_fill a l :
  a_checksum a = 0 -> bytes_ok l -> Z.of_nat (length l) < 65536 ->
  click_in_cksum (enc_adv (adv_with_sum (click_in_cksum (enc_adv a ++ l)) a) ++ l) = 0.
Proof.
  intros Ha Hl Hlen. set (c := click_in_cksum (enc_adv a ++ l)).
  replace (enc_adv (adv_with_sum c a) ++ l) with (wrn 2 (enc_adv a ++ l) 2 c)
    by (by rewrite wrn_app_l by (cbn; lia)).
  apply fill_verifies; rewrite ?length_app; try (cbn; lia).
  - apply bytes_ok_app. auto with bytes.
  - rewrite rdn_app_l by (cbn; lia). wire_eval. by rewrite Ha.
Qed.
Lemma sol_fill h :
  s_checksum h = 0 -> click_in_cksum (enc_sol (sol_with_sum (click_in_cksum (enc_sol h)) h)) = 0.
Proof.
  intros Hh. set (c := click_in_cksum (enc_sol h)).
  change (enc_sol (sol_with_sum c h)) with (wrn 2 (enc_sol h) 2 c).
  apply fill_verifies; [auto with bytes|reflexivity|reflexivity|cbn; lia|].
  unfold enc_sol. wire_eval. by rewrite Hh.
Qed.

(** The last lines of every builder: filling in the UDP checksum makes a [datagram]. *)
Lemma datagram_finish p i u msg n :
  ip_ok i -> udp_ok u -> i_vhl i = 69 -> i_off i = 0 -> i_p i = 17 -> ip_verifies i ->
  u_sum u = 0 -> bytes_ok msg -> Z.of_nat (length msg) < 65536 -> n = (8 + length msg)%nat ->
  i_len i = htons (Z.of_nat (20 + n)) -> u_ulen u = htons (Z.of_nat n) ->
  dst_ip_anno p = Some (i_dst i) -> pk_shared p = false ->
  exists c q,
    (sum ← transport_sum (set_data (enc_ip i ++ enc_udp u ++ msg ++ []) p) 0 n;
     q ← setf 20 uh_sum sum (set_data (enc_ip i ++ enc_udp u ++ msg ++ []) p); Ok (Some q))
    = Ok (Some q) /\ datagram q i (udp_with_sum c u) msg.
Proof.
  intros Hi Hu Hv Hoff Hp Hip Hs Hm Hl -> Hlen Hulen Ha Hsh.
  destruct (udp_sum_step p i u msg [] (8 + length msg)) as (c & Hc & Hok & ->); try done.
  exists c, (set_data (enc_ip i ++ enc_udp (udp_with_sum c u) ++ msg ++ []) p).
  cbn [mbind res_bind]. destruct u as [sp dp ul sm]. cbn in Hs. subst sm.
  rewrite set_uh_sum. split; [done|]. destruct Hu.
  assert (Hpl : plength (set_data (enc_ip i ++ enc_udp (udp_with_sum c (UdpHdr sp dp ul 0)) ++ msg ++ []) p)
    = (20 + (8 + length msg))%nat) by (cbn; rewrite app_nil_r; lia).
  split; try done.
  - simpl pk_data. by rewrite app_nil_r.
  - by rewrite Hpl.
  - rewrite Hpl. cbn in *. rewrite Hulen. f_equal. lia.
Qed.

Lemma in16_htons z : in16 (htons z).
Proof. apply htons_range. Qed.
Lemma in16_cksum l : in16 (click_in_cksum l).
Proof. apply cksum_range. Qed.
Lemma in8_const z : (0 <=? z) && (z <? 256) = true -> in8 z.
Proof. unfold in8. intros. apply andb_true_iff in H as [?%Z.leb_le ?%Z.ltb_lt]. lia. Qed.
Lemma in16_const z : (0 <=? z) && (z <? 65536) = true -> in16 z.
Proof. unfold in16. intros. apply andb_true_iff in H as [?%Z.leb_le ?%Z.ltb_lt]. lia. Qed.
Create HintDb wire.
#[export] Hint Resolve in16_htons in16_cksum : wire.
#[export] Hint Extern 3 (in8 _) => apply in8_const; reflexivity : wire.
#[export] Hint Extern 3 (in16 _) => apply in16_const; reflexivity : wire.

(** Discharges the side conditions of [datagram_finish] for concrete headers. *)
Ltac headers_ok :=
  match goal with
  | |- ip_ok _ => constructor; cbn; auto with wire
  | |- udp_ok _ => constructor; cbn; auto with wire
  | |- ip_verifies (IpHdr ?a ?b ?c ?d ?e ?f ?g _ ?s ?t) =>
      exact (ip_fill (IpHdr a b c d e f g 0 s t) eq_refl)
  | |- bytes_ok _ => auto with bytes
  | |- dst_ip_anno _ = _ =>
      rewrite dst_ip_anno_set by reflexivity; cbn [i_dst];
      rewrite ?u32_idem, ?u32_small by in_range; reflexivity
  | |- _ => first [reflexivity | cbn; lia]
  end.

(** ** IP packets *)

(** The packet's data is an option-free IP header and a payload. *)
Record ip_packet (p : packet) (i : ip_hdr) (l : list Z) : Prop := {
  ipp_data : pk_data p = enc_ip i ++ l;
  ipp_ok : ip_ok i
}.

Ltac getf_ip_packet :=
  intros [Hd []]; apply getf_val; [|simpl; lia]; rewrite Hd; wire_eval; small_words; reflexivity.
Section IpPacket.
Context (p : packet) (i : ip_hdr) (l : list Z).
Lemma ipp_vhl : ip_packet p i l -> getf p 0 ip_vhl = Ok (i_vhl i).
Proof. getf_ip_packet. Qed.
Lemma ipp_tos : ip_packet p i l -> getf p 0 ip_tos = Ok (i_tos i).
Proof. getf_ip_packet. Qed.
Lemma ipp_len : ip_packet p i l -> getf p 0 ip_len = Ok (i_len i).
Proof. getf_ip_packet. Qed.
Lemma ipp_p : ip_packet p i l -> getf p 0 ip_p = Ok (i_p i).
Proof. getf_ip_packet. Qed.
Lemma ipp_src : ip_packet p i l -> getf p 0 ip_src = Ok (i_src i).
Proof. getf_ip_packet. Qed.
Lemma ipp_dst : ip_packet p i l -> getf p 0 ip_dst = Ok (i_dst i).
Proof. getf_ip_packet. Qed.
End IpPacket.

Lemma datagram_ip_packet p i u msg :
  datagram p i u msg -> ip_packet p i (enc_udp u ++ msg).
Proof. by intros []. Qed.
Lemma carries_ip_packet p i u msg :
  carries 0 p i u msg -> exists l, ip_packet p i (enc_udp u ++ msg ++ l).
Proof.
  intros [(pre & rest & Hl & Hd) Hi _]. exists rest. split; [|done].
  by destruct pre.
Qed.

(** ** Sample packets, for the concrete instances of the theorems *)
Definition bare (d : list Z) : packet :=
  MkPacket [] d [] false (replicate anno_size 0) HOST None None None.

Lemma bare_carries i u msg :
  ip_ok i -> udp_ok u -> carries 0 (bare (enc_ip i ++ enc_udp u ++ msg)) i u msg.
Proof. intros. split; try done. exists [], []. by rewrite app_nil_r. Qed.

(** 10.0.0.1:1000 asks agent 11.0.0.1 for a 100 s binding to care-of address 12.0.0.1. *)
Definition sample_ip : ip_hdr := IpHdr 69 0 (htons 52) 0 0 64 17 0 16777226 16777227.
Definition sample_udp : udp_hdr := UdpHdr (htons 1000) (htons 434) (htons 32) 0.
Definition sample_req : regreq := RegreqH 1 0 (htons 100) 16777226 16777227 16777228 77.
Definition sample_request : packet :=
  bare (enc_ip sample_ip ++ enc_udp sample_udp ++ enc_regreq sample_req).

Ltac sample_ok := repeat split; cbv; congruence.
Lemma sample_ip_ok : ip_ok sample_ip.
Proof. sample_ok. Qed.
Lemma sample_udp_ok : udp_ok sample_udp.
Proof. sample_ok. Qed.
Lemma sample_request_carries : carries_req 0 sample_request sample_ip sample_udp sample_req.
Proof.
  split; [|sample_ok]. apply bare_carries; [apply sample_ip_ok|apply sample_udp_ok].
Qed.

(** The agent 11.0.0.1 grants 10.0.0.1 a 100 s registration. *)
Definition sample_reply_ip : ip_hdr :=
  let i := IpHdr 69 0 (htons 48) 0 0 64 17 0 16777227 16777226 in
  ip_with_sum (click_in_cksum (enc_ip i)) i.
Definition sample_rep : regrep := RegrepH 3 0 (htons 100) 16777226 16777227 77.
Definition sample_reply_udp : udp_hdr :=
  UdpHdr (htons 434) (htons 1000) (htons 28)
    (match transport_sum (bare (enc_ip sample_reply_ip ++
             enc_udp (UdpHdr (htons 434) (htons 1000) (htons 28) 0) ++ enc_regrep sample_rep)) 0 28 with
     | Ok c => c | Fault _ => 0 end).
Definition sample_reply : packet :=
  set_dst_ip_anno 16777226
    (bare (enc_ip sample_reply_ip ++ enc_udp sample_reply_udp ++ enc_regrep sample_rep)).

Lemma sample_rep_ok : regrep_ok sample_rep.
Proof. sample_ok. Qed.
Lemma sample_reply_datagram :
  datagram sample_reply sample_reply_ip sample_reply_udp (enc_regrep sample_rep).
Proof.
  constructor; try (vm_compute; reflexivity).
  - repeat split; vm_compute; congruence.
  - repeat split; vm_compute; congruence.
Qed.

(** ** Agent advertisements: an IP header, the ICMP router advertisement and its extension *)
Record adv_ok (a : adv) : Prop := {
  aok_type : in8 (a_type a); aok_code : in8 (a_code a); aok_checksum : in16 (a_checksum a);
  aok_addresses : in8 (a_addresses a); aok_addr_size : in8 (a_addr_size a);
  aok_lifetime : in16 (a_lifetime a); aok_address : in32 (a_address a);
  aok_preferences : in32 (a_preferences a)
}.
Record adv_ext_ok (x : adv_ext) : Prop := {
  xok_type : in8 (x_type x); xok_length : in8 (x_length x); xok_seq_nr : in16 (x_seq_nr x);
  xok_lifetime : in16 (x_lifetime x); xok_flags : in8 (x_flags x);
  xok_reserved : in8 (x_reserved x); xok_address : in32 (x_address x)
}.
Record carries_adv (p : packet) (i : ip_hdr) (a : adv) (x : adv_ext) : Prop := {
  cadv_data : exists rest, pk_data p = enc_ip i ++ enc_adv a ++ enc_adv_ext x ++ rest;
  cadv_ip : ip_ok i; cadv_adv : adv_ok a; cadv_ext : adv_ext_ok x
}.

Ltac getf_adv :=
  intros [(rest & Hd) [] [] []]; apply getf_val; [|simpl; lia]; rewrite Hd; wire_eval;
  small_words; reflexivity.
Section CarriesAdv.
Context (p : packet) (i : ip_hdr) (a : adv) (x : adv_ext).
Lemma cadv_src : carries_adv p i a x -> getf p 0 ip_src = Ok (i_src i).
Proof. getf_adv. Qed.
Lemma cadv_p : carries_adv p i a x -> getf p 0 ip_p = Ok (i_p i).
Proof. getf_adv. Qed.
Lemma cadv_type : carries_adv p i a x -> getf p 20 adv_type = Ok (a_type a).
Proof. getf_adv. Qed.
Lemma cadv_lifetime : carries_adv p i a x -> getf p 20 adv_lifetime = Ok (a_lifetime a).
Proof. getf_adv. Qed.
Lemma cadv_address : carries_adv p i a x -> getf p 20 adv_address = Ok (a_address a).
Proof. getf_adv. Qed.
Lemma cadv_ext_type : carries_adv p i a x -> getf p 36 ext_type = Ok (x_type x).
Proof. getf_adv. Qed.
Lemma cadv_seq : carries_adv p i a x -> getf p 36 ext_seq_nr = Ok (x_seq_nr x).
Proof. getf_adv. Qed.
Lemma cadv_flags : carries_adv p i a x -> getf p 36 ext_flags = Ok (x_flags x).
Proof. getf_adv. Qed.
Lemma cadv_ext_lifetime : carries_adv p i a x -> getf p 36 ext_lifetime = Ok (x_lifetime x).
Proof. getf_adv. Qed.
Lemma cadv_ext_address : carries_adv p i a x -> getf p 36 ext_address = Ok (x_address x).
Proof. getf_adv. Qed.
End CarriesAdv.

(** Reads members off header records, leaving encodings alone. *)
Ltac hdr_cbn :=
  cbn [i_vhl i_tos i_len i_id i_off i_ttl i_p i_sum i_src i_dst
       u_sport u_dport u_ulen u_sum Nat.add] in *.

(** Rewrites loads the context knows. *)
Ltac use_reads :=
  repeat match goal with
  | H : getf ?q ?b ?f = Ok ?v |- context [getf ?q ?b ?f] => rewrite H; cbn [mbind res_bind]
  end.
