(* ===== verification/Mobility.v ===== *)
(** * Shared state of the Mobile IP elements ([elements/local/custom/*.hh])

    The information elements [MNInfo] (mobile node), [HA] (home agent) and [FA] (foreign
    agent) hold state that other elements reach through a pointer; it is the state a handler
    runs on.  An [IPAddress] is the 32-bit value [addr()] returns, in network byte order. *)
From Stdlib Require Import ZArith Lia.
From stdpp Require Import base list numbers option.
From S2P Require Import Prelude Vector Packet Wire.

(** What a handler does to the world, in program order. *)
Inductive event : Type :=
| Push (port : nat) (p : packet)      (* [output(port).push(p)] *)
| Kill (p : packet)                   (* [p->kill()] *)
| Schedule (msec : Z)                 (* [_timer.schedule_after_msec] *)
| Reschedule (msec : Z)               (* [timer->reschedule_after_msec] *)
| ClearTimer.                         (* [_timer.clear()] *)

(** The packets a trace pushes to an output port. *)
Definition pushed (port : nat) (t : list event) : list packet :=
  omap (fun e => match e with Push n p => if (n =? port)%nat then Some p else None | _ => None end) t.

(** [(flags >> n) & 1] as a condition. *)
Definition flag (flags n : Z) : bool := negb (Z.land (Z.shiftr flags n) 1 =? 0).

Lemma flag_testbit flags n : flag flags n = Z.testbit flags n.
Proof.
  unfold flag. change 1 with (Z.ones 1). rewrite Z.land_ones by lia. change (2 ^ 1) with 2.
  rewrite Zmod_odd, <- (Z.bit0_odd (Z.shiftr flags n)).
  destruct (Z.le_gt_cases 0 n).
  - rewrite Z.shiftr_spec by lia. rewrite Z.add_0_l. by destruct (Z.testbit flags n).
  - rewrite (Z.testbit_neg_r flags) by lia. rewrite Z.shiftr_spec by lia.
    rewrite Z.testbit_neg_r by lia. done.
Qed.

Definition broadcast : Z := 4294967295.       (* [IPAddress("255.255.255.255")] *)

(** [struct request] of [mninfo.hh]; [id] is an [int]. *)
Record request : Type := Request {
  r_dest : Z; r_coaddress : Z; r_id : Z; r_req_lt : Z; r_rem_lt : Z; r_port : Z
}.

(** [class MNInfo]; [M] is the type of the [_advertisements] map. *)
Record mninfo (M : Type) : Type := MNInfo {
  mn_home_agent : Z; mn_home_address : Z; mn_gateway : Z;
  mn_connected : bool; mn_foreign_agent : Z; mn_lifetime : Z;
  mn_advertisements : M; mn_pending : list request
}.
Arguments MNInfo {M} _ _ _ _ _ _ _ _.
Arguments mn_home_agent {M} _.
Arguments mn_home_address {M} _.
Arguments mn_gateway {M} _.
Arguments mn_connected {M} _.
Arguments mn_foreign_agent {M} _.
Arguments mn_lifetime {M} _.
Arguments mn_advertisements {M} _.
Arguments mn_pending {M} _.

Section Updates.
Context {M : Type}.
Implicit Types s : mninfo M.
Definition set_connected (b : bool) s := MNInfo (mn_home_agent s) (mn_home_address s)
  (mn_gateway s) b (mn_foreign_agent s) (mn_lifetime s) (mn_advertisements s) (mn_pending s).
Definition set_foreign_agent (a : Z) s := MNInfo (mn_home_agent s) (mn_home_address s)
  (mn_gateway s) (mn_connected s) a (mn_lifetime s) (mn_advertisements s) (mn_pending s).
Definition set_lifetime (l : Z) s := MNInfo (mn_home_agent s) (mn_home_address s)
  (mn_gateway s) (mn_connected s) (mn_foreign_agent s) l (mn_advertisements s) (mn_pending s).
Definition set_advertisements (m : M) s := MNInfo (mn_home_agent s) (mn_home_address s)
  (mn_gateway s) (mn_connected s) (mn_foreign_agent s) (mn_lifetime s) m (mn_pending s).
Definition set_pending (p : list request) s := MNInfo (mn_home_agent s) (mn_home_address s)
  (mn_gateway s) (mn_connected s) (mn_foreign_agent s) (mn_lifetime s) (mn_advertisements s) p.
End Updates.

(** [struct mobile_info] of [ha.hh]; [remainingLifetime] is a [uint8_t]. *)
Record mobile_info : Type := MobileInfo {
  mi_address : Z; mi_careOfAddress : Z; mi_identification : Z; mi_remainingLifetime : Z
}.

(** [class HA] *)
Record ha : Type := HA { ha_address : Z; ha_mobility_bindings : list mobile_info }.

(** [struct vEntry] of [fa.hh] *)
Record vEntry : Type := VEntry {
  ve_eth_src : list Z; ve_ip_src : Z; ve_ip_dst : Z; ve_udp_src : Z; ve_home_agent : Z;
  ve_id : Z; ve_requested_lifetime : Z; ve_remaining_lifetime : Z
}.
Definition set_remaining_lifetime (l : Z) (e : vEntry) : vEntry :=
  VEntry (ve_eth_src e) (ve_ip_src e) (ve_ip_dst e) (ve_udp_src e) (ve_home_agent e) (ve_id e)
    (ve_requested_lifetime e) l.

(** [class FA] *)
Record fa : Type := FA {
  fa_requests : vector vEntry; fa_registrations : list (Z * vEntry); fa_address : Z
}.
Definition set_requests (r : vector vEntry) (s : fa) : fa :=
  FA r (fa_registrations s) (fa_address s).
Definition set_registrations (r : list (Z * vEntry)) (s : fa) : fa :=
  FA (fa_requests s) r (fa_address s).
