(* ===== verification/ARPTable.v ===== *)
(** * [ARPTable] ([elements/ethernet/arptable.{cc,hh}])

    The table of IP-to-Ethernet mappings behind [ARPQuerier]: entries in a hash table and on a
    list ordered by age, each with a queue of the packets that wait for the address.  Entries
    live in memory the table allocates and frees itself, so the model keeps that memory:
    an entry's address is the index of its slot, and reading a slot that is not allocated is a
    fault.  The clock and whether the allocator gets memory are arguments; the lock is not
    modelled (a single thread runs). *)
From Stdlib Require Import ZArith Lia.
From stdpp Require Import base list numbers option gmap.
From S2P Require Import Prelude TimerSet HashMap HashContainer Packet Wire Mobility.

(** ** Ethernet addresses and jiffies *)

(** The six bytes as a number, the first byte lowest. *)
Definition eth_broadcast : Z := 281474976710655.
(** [_data[0] + _data[1] + _data[2] == 0x2FFFD] *)
Definition is_broadcast (eth : Z) : bool :=
  eth mod 65536 + (eth / 65536) mod 65536 + (eth / 4294967296) mod 65536 =? 0x2FFFD.
Definition is_group (eth : Z) : bool := negb (Z.land (eth mod 256) 1 =? 0).

Definition CLICK_HZ : Z := 1000.
Definition click_jiffies_less (a b : Z) : bool := s32 (a - b) <? 0.
(** [Timestamp::jiffies()] of a time that is not negative. *)
Definition jiffies (t : Z) : Z := u32 (t / (subsec_per_sec / CLICK_HZ)).

Definition ENOMEM : Z := 12.
Definition EAGAIN : Z := 11.

(** ** State *)
Record ARPEntry : Type := MkARPEntry {
  ae_ip : Z; ae_eth : Z; ae_known : bool; ae_num_polls_since_reply : Z;
  ae_live_at_j : Z; ae_polled_at_j : Z;
  ae_queue : list packet;                (* from [_head] to [_tail] *)
  ae_entry_packet_count : Z
}.
Definition set_live_at (z : Z) (e : ARPEntry) : ARPEntry :=
  MkARPEntry (ae_ip e) (ae_eth e) (ae_known e) (ae_num_polls_since_reply e) z
    (ae_polled_at_j e) (ae_queue e) (ae_entry_packet_count e).
Definition set_polled (n z : Z) (e : ARPEntry) : ARPEntry :=
  MkARPEntry (ae_ip e) (ae_eth e) (ae_known e) n (ae_live_at_j e) z (ae_queue e)
    (ae_entry_packet_count e).
Definition set_queue (q : list packet) (n : Z) (e : ARPEntry) : ARPEntry :=
  MkARPEntry (ae_ip e) (ae_eth e) (ae_known e) (ae_num_polls_since_reply e) (ae_live_at_j e)
    (ae_polled_at_j e) q n.
Definition set_eth (eth : Z) (known : bool) (e : ARPEntry) : ARPEntry :=
  MkARPEntry (ae_ip e) eth known (ae_num_polls_since_reply e) (ae_live_at_j e)
    (ae_polled_at_j e) (ae_queue e) (ae_entry_packet_count e).

(** [ARPEntry(ip)] and the two times [ensure] gives it. *)
Definition ARPEntry_new (ip now : Z) : ARPEntry :=
  MkARPEntry ip eth_broadcast false 0 now (u32 (now - CLICK_HZ)) [] 0.

Definition expired (e : ARPEntry) (now timeout_j : Z) : bool :=
  click_jiffies_less (u32 (ae_live_at_j e + timeout_j)) now && negb (timeout_j =? 0).
Definition known (e : ARPEntry) (now timeout_j : Z) : bool :=
  ae_known e && negb (expired e now timeout_j).
Definition allow_poll (e : ARPEntry) (now : Z) : bool :=
  let thresh_j := u32 (ae_polled_at_j e +
    (if 10 <=? ae_num_polls_since_reply e then CLICK_HZ * 2 else CLICK_HZ / 10)) in
  negb (click_jiffies_less now thresh_j).
Definition mark_poll (now : Z) (e : ARPEntry) : ARPEntry :=
  set_polled (if ae_num_polls_since_reply e <? 255 then ae_num_polls_since_reply e + 1
              else ae_num_polls_since_reply e) now e.

(** [HashAllocator]: the freed slots, last freed first, and the slots carved so far. *)
Record HashAllocator : Type := MkHashAllocator { al_free : list nat; al_next : nat }.
Definition allocate (mem : bool) (al : HashAllocator) : option (nat * HashAllocator) :=
  match al_free al with
  | x :: l => Some (x, MkHashAllocator l (al_next al))
  | [] => if mem then Some (al_next al, MkHashAllocator [] (S (al_next al))) else None
  end.
Definition deallocate (x : nat) (al : HashAllocator) : HashAllocator :=
  MkHashAllocator (x :: al_free al) (al_next al).

Record ARPConf : Type := MkARPConf {
  c_entry_capacity : Z; c_packet_capacity : Z; c_entry_packet_capacity : Z;
  c_capacity_slim_factor : Z; c_timeout_j : Z
}.
(** [at_entries] is the memory of the allocated slots. *)
Record ARPTable : Type := MkARPTable {
  at_table : hashcontainer Z nat; at_age : list nat; at_entries : gmap nat ARPEntry;
  at_alloc : HashAllocator;
  at_entry_count : Z; at_packet_count : Z; at_drops : Z; at_conf : ARPConf
}.
Definition set_table t s := MkARPTable t (at_age s) (at_entries s) (at_alloc s)
  (at_entry_count s) (at_packet_count s) (at_drops s) (at_conf s).
Definition set_age a s := MkARPTable (at_table s) a (at_entries s) (at_alloc s)
  (at_entry_count s) (at_packet_count s) (at_drops s) (at_conf s).
Definition set_entries m s := MkARPTable (at_table s) (at_age s) m (at_alloc s)
  (at_entry_count s) (at_packet_count s) (at_drops s) (at_conf s).
Definition set_alloc al s := MkARPTable (at_table s) (at_age s) (at_entries s) al
  (at_entry_count s) (at_packet_count s) (at_drops s) (at_conf s).
Definition set_counts n k d s := MkARPTable (at_table s) (at_age s) (at_entries s) (at_alloc s)
  n k d (at_conf s).
Definition set_conf c s := MkARPTable (at_table s) (at_age s) (at_entries s) (at_alloc s)
  (at_entry_count s) (at_packet_count s) (at_drops s) c.
Definition add_entries (z : Z) s :=
  set_counts (u32 (at_entry_count s + z)) (at_packet_count s) (at_drops s) s.
Definition add_packets (z : Z) s :=
  set_counts (at_entry_count s) (u32 (at_packet_count s + z)) (at_drops s) s.
Definition add_drop s :=
  set_counts (at_entry_count s) (at_packet_count s) (u32 (at_drops s + 1)) s.
Definition at_timeout_j s : Z := c_timeout_j (at_conf s).

(** [set_timeout(timeout)] for a timeout of [t] microseconds. *)
Definition timeout_jiffies (t : Z) : Z :=
  if 4294967295 / CLICK_HZ <=? u32 (sec t) then 0 else jiffies t.
Definition default_conf : ARPConf := MkARPConf 0 2048 0 2 (timeout_jiffies 300000000).
Definition ARPTable_new (c : ARPConf) : ARPTable :=
  MkARPTable hc_new [] ∅ (MkHashAllocator [] 0) 0 0 0 c.

Definition table_handler (A : Type) : Type := handler ARPTable event A.

(** [*ae] and an assignment through [ae]. *)
Definition aget (a : nat) : table_handler ARPEntry :=
  s <-- hget ;; hlift (opt_res UseAfterFree (at_entries s !! a)).
Definition amod (a : nat) (f : ARPEntry -> ARPEntry) : table_handler unit :=
  e <-- aget a ;; hmodify (fun s => set_entries (<[a := f e]> (at_entries s)) s).
Definition free_entry (a : nat) (s : ARPTable) : ARPTable :=
  set_alloc (deallocate a (at_alloc s)) (set_entries (delete a (at_entries s)) s).

(** [while (Packet *p = ae->_head)]: [count] is what happens to the counters. *)
Fixpoint kill_queue (count : ARPTable -> ARPTable) (q : list packet) : table_handler unit :=
  match q with
  | [] => hret tt
  | p :: q => hemit (Kill p) ;;; hmodify count ;;; kill_queue count q
  end.

(** ** [slim] *)
Fixpoint slim_entries (fuel : nat) (now : Z) : table_handler unit :=
  s <-- hget ;;
  match at_age s with
  | [] => hret tt
  | a :: rest =>
      e <-- aget a ;;
      let cap := c_entry_capacity (at_conf s) in
      if expired e now (at_timeout_j s) || (negb (cap =? 0) && (cap <? at_entry_count s)) then
        match fuel with
        | O => hlift (Fault Diverges)
        | S fuel =>
            hmodify (fun s =>
              set_table (snd (hc_erase IPAddress_hashcode (ae_ip e) (at_table s))) s) ;;;
            hmodify (set_age rest) ;;;
            kill_queue (fun s => add_drop (add_packets (-1) s)) (ae_queue e) ;;;
            hmodify (free_entry a) ;;;
            hmodify (add_entries (-1)) ;;;
            slim_entries fuel now
        end
      else hret tt
  end.

(** The inner loop over the queue of [a], the outer loop over the entries from the front. *)
Fixpoint slim_queue (a : nat) (slim_capacity : Z) (q : list packet) : table_handler unit :=
  match q with
  | [] => hret tt
  | p :: q =>
      s <-- hget ;;
      if slim_capacity <? at_packet_count s then
        amod a (fun e => set_queue q (u32 (ae_entry_packet_count e - 1)) e) ;;;
        hemit (Kill p) ;;;
        hmodify (fun s => add_drop (add_packets (-1) s)) ;;;
        slim_queue a slim_capacity q
      else hret tt
  end.
Fixpoint slim_walk (slim_capacity : Z) (l : list nat) : table_handler unit :=
  s <-- hget ;;
  if slim_capacity <? at_packet_count s then
    match l with
    | [] => hlift (Fault NullDeref)
    | a :: l => e <-- aget a ;; slim_queue a slim_capacity (ae_queue e) ;;; slim_walk slim_capacity l
    end
  else hret tt.

Definition slim_capacity (c : ARPConf) : Z :=
  let z := u32 (c_packet_capacity c - c_packet_capacity c / c_capacity_slim_factor c) in
  if z =? 0 then 1 else z.
Definition slim (now : Z) : table_handler unit :=
  s <-- hget ;;
  slim_entries (length (at_age s)) now ;;;
  s <-- hget ;;
  let cap := c_packet_capacity (at_conf s) in
  if negb (cap =? 0) && (cap <? at_packet_count s)
  then slim_walk (slim_capacity (at_conf s)) (at_age s) else hret tt.

(** [run_timer], at time [now]. *)
Definition ARPTable_run_timer (now : Z) : table_handler unit :=
  slim now ;;;
  s <-- hget ;;
  if at_timeout_j s =? 0 then hret tt
  else hemit (Schedule (1000 * u32 (at_timeout_j s / CLICK_HZ + 1))).

(** ** Entries *)

(** [ensure(ip, now)]: the entry of [ip], null if there is no memory for a new one. *)
Definition ensure (mem : bool) (ip now : Z) : table_handler (option nat) :=
  s <-- hget ;;
  let it := hc_find IPAddress_hashcode (at_table s) ip in
  match it_element it with
  | Some (_, a) => hret (Some a)
  | None =>
      match allocate mem (at_alloc s) with
      | None => hret None
      | Some (a, al) =>
          hmodify (set_alloc al) ;;;
          hmodify (add_entries 1) ;;;
          s <-- hget ;;
          let cap := c_entry_capacity (at_conf s) in
          (if negb (cap =? 0) && (cap <? at_entry_count s) then slim now else hret tt) ;;;
          hmodify (fun s => set_entries (<[a := ARPEntry_new ip now]> (at_entries s)) s) ;;;
          hmodify (fun s =>
            let '(_, t, _) := hc_set IPAddress_hashcode it (Some (ip, a)) false (at_table s) in
            set_table t s) ;;;
          hmodify (fun s => set_age (at_age s ++ [a]) s) ;;;
          hret (Some a)
      end
  end.

(** [_age]: what follows [a], [erase(a)] and [insert(pos, a)] ([pos] null is the end). *)
Fixpoint age_after (a : nat) (l : list nat) : list nat :=
  match l with [] => [] | b :: l => if decide (b = a) then l else age_after a l end.
Fixpoint age_erase (a : nat) (l : list nat) : list nat :=
  match l with [] => [] | b :: l => if decide (b = a) then l else b :: age_erase a l end.
Fixpoint age_insert (pos : option nat) (a : nat) (l : list nat) : list nat :=
  match l with
  | [] => [a]
  | b :: l => if decide (Some b = pos) then a :: b :: l else b :: age_insert pos a l
  end.

(** [insert(ip, eth, head)] at time [now]: the result and what [*head] is set to. *)
Definition ARPTable_insert (mem : bool) (ip eth : Z) (want_head : bool) (now : Z)
  : table_handler (Z * list packet) :=
  oa <-- ensure mem ip now ;;
  match oa with
  | None => hret (- ENOMEM, [])
  | Some a =>
      amod a (set_eth eth (negb (is_broadcast eth))) ;;;
      amod a (set_live_at now) ;;;
      amod a (set_polled 0 (u32 (now - CLICK_HZ))) ;;;
      hmodify (fun s => match age_after a (at_age s) with
                        | [] => s
                        | _ => set_age (age_erase a (at_age s) ++ [a]) s
                        end) ;;;
      head <-- (if want_head then
                  e <-- aget a ;;
                  hmodify (add_packets (- ae_entry_packet_count e)) ;;;
                  amod a (set_queue [] 0) ;;;
                  hret (ae_queue e)
                else hret []) ;;
      hmodify (fun s => set_table (hc_balance IPAddress_hashcode (at_table s)) s) ;;;
      hret (0, head)
  end.

(** [while (next && click_jiffies_less(next->_live_at_j, ae->_live_at_j))] *)
Fixpoint age_advance (live : Z) (l : list nat) : table_handler (option nat) :=
  match l with
  | [] => hret None
  | b :: l =>
      e <-- aget b ;;
      if click_jiffies_less (ae_live_at_j e) live then age_advance live l else hret (Some b)
  end.
(** Keep the entry just this side of expiring. *)
Definition refresh_live (a : nat) (now : Z) : table_handler unit :=
  s <-- hget ;;
  if at_timeout_j s =? 0 then hret tt
  else
    let live_at_j_min := u32 (now - at_timeout_j s) in
    e <-- aget a ;;
    if click_jiffies_less (ae_live_at_j e) live_at_j_min then
      amod a (set_live_at live_at_j_min) ;;;
      let after := age_after a (at_age s) in
      next <-- age_advance live_at_j_min after ;;
      if decide (head after = next) then hret tt
      else hmodify (fun s => set_age (age_insert next a (age_erase a (at_age s))) s)
    else hret tt.

(** [append_query(ip, p)] at time [now]. *)
Definition append_query (mem : bool) (ip : Z) (p : packet) (now : Z) : table_handler Z :=
  oa <-- ensure mem ip now ;;
  match oa with
  | None => hret (- ENOMEM)
  | Some a =>
      e <-- aget a ;;
      s <-- hget ;;
      if known e now (at_timeout_j s) then hret (- EAGAIN)
      else
        refresh_live a now ;;;
        e <-- aget a ;;
        let ecap := c_entry_packet_capacity (at_conf s) in
        if negb (ecap =? 0) && (ecap <=? ae_entry_packet_count e) then
          hmodify add_drop ;;; hret (- ENOMEM)
        else
          hmodify (add_packets 1) ;;;
          s <-- hget ;;
          let cap := c_packet_capacity (at_conf s) in
          (if negb (cap =? 0) && (cap <? at_packet_count s) then slim now else hret tt) ;;;
          amod a (fun e => set_queue (ae_queue e ++ [p]) (u32 (ae_entry_packet_count e + 1)) e) ;;;
          e <-- aget a ;;
          r <-- (if allow_poll e now then amod a (mark_poll now) ;;; hret 1 else hret 0) ;;
          hmodify (fun s => set_table (hc_balance IPAddress_hashcode (at_table s)) s) ;;;
          hret r
  end.

(** [lookup(ip, eth, poll_timeout_j)]: the result and what [*eth] is set to. *)
Definition ARPTable_lookup (ip poll_timeout_j now : Z) : table_handler (Z * option Z) :=
  s <-- hget ;;
  match it_element (hc_find IPAddress_hashcode (at_table s) ip) with
  | None => hret (-1, None)
  | Some (_, a) =>
      e <-- aget a ;;
      if known e now (at_timeout_j s) then
        if negb (poll_timeout_j =? 0)
           && negb (click_jiffies_less now (u32 (ae_live_at_j e + poll_timeout_j)))
           && allow_poll e now
        then amod a (mark_poll now) ;;; hret (1, Some (ae_eth e))
        else hret (0, Some (ae_eth e))
      else hret (-1, None)
  end.
(** [lookup(ip)] *)
Definition ARPTable_lookup_eth (ip now : Z) : table_handler Z :=
  r <-- ARPTable_lookup ip 0 now ;;
  hret (if fst r <? 0 then eth_broadcast else default eth_broadcast (snd r)).

(** [reverse_lookup(eth)]: the loop over the table; [begin()] may move its cached bucket. *)
Fixpoint reverse_loop (fuel : nat) (eth : Z) (it : hc_iter Z nat) : table_handler Z :=
  match it_element it with
  | None => hret 0
  | Some (_, a) =>
      e <-- aget a ;;
      if ae_eth e =? eth then hret (ae_ip e)
      else
        match fuel with
        | O => hlift (Fault Diverges)
        | S fuel => s <-- hget ;; reverse_loop fuel eth (hc_next (at_table s) it)
        end
  end.
Definition reverse_lookup (eth : Z) : table_handler Z :=
  s <-- hget ;;
  let '(it, t) := hc_begin (at_table s) in
  hput (set_table t s) ;;;
  reverse_loop (hc_size t) eth it.

(** ** [clear], [take_state] and the write handlers *)
Fixpoint clear_loop (fuel : nat) (it : hc_iter Z nat) : table_handler unit :=
  match it_element it with
  | None => hret tt
  | Some (_, a) =>
      match fuel with
      | O => hlift (Fault Diverges)
      | S fuel =>
          s <-- hget ;;
          let '(_, t, it) := hc_erase_at IPAddress_hashcode it (at_table s) in
          hput (set_table t s) ;;;
          e <-- aget a ;;
          kill_queue add_drop (ae_queue e) ;;;
          hmodify (free_entry a) ;;;
          clear_loop fuel it
      end
  end.
Definition ARPTable_clear : table_handler unit :=
  s <-- hget ;;
  let '(it, t) := hc_begin (at_table s) in
  hput (set_table t s) ;;;
  clear_loop (hc_size t) it ;;;
  hmodify (fun s => set_counts 0 0 (at_drops s) s) ;;;
  hmodify (set_age []).

(** [take_state(e, errh)], when [e] is an [ARPTable]: both tables, or an error. *)
Definition take_state (s arpt : ARPTable) : option (ARPTable * ARPTable) :=
  if (0 <? hc_size (at_table s))%nat then None
  else Some (MkARPTable (at_table arpt) (at_age arpt) (at_entries arpt) (at_alloc arpt)
               (at_entry_count arpt) (at_packet_count arpt) (at_drops arpt) (at_conf s),
             MkARPTable (at_table s) (at_age s) (at_entries s) (at_alloc s) 0 0 (at_drops arpt)
               (at_conf arpt)).

(** The [insert], [delete] and [clear] write handlers, after parsing. *)
Inductive table_command : Type := HInsert (ip eth : Z) | HDelete (ip : Z) | HClear.
Definition table_write_handler (mem : bool) (c : table_command) (now : Z) : table_handler Z :=
  match c with
  | HInsert ip eth => ARPTable_insert mem ip eth false now ;;; hret 0
  | HDelete ip => ARPTable_insert mem ip eth_broadcast false now ;;; hret 0
  | HClear => ARPTable_clear ;;; hret 0
  end.

(** ** The representation invariant *)
Abbreviation hash := IPAddress_hashcode (only parsing).

(** The packets queued at the entries [l], in order. *)
Definition queue_of (m : gmap nat ARPEntry) (a : nat) : list packet :=
  match m !! a with Some e => ae_queue e | None => [] end.
Definition stored_in (m : gmap nat ARPEntry) (l : list nat) : list packet := l ≫= queue_of m.
Definition stored (s : ARPTable) : list packet := stored_in (at_entries s) (at_age s).

(** The invariant, inside an operation that has counted [de] entries and [dp] packets more
    than there are and holds the allocated slots [x]. *)
Record at_ok (de dp : Z) (x : list nat) (s : ARPTable) : Prop := {
  ok_table : hc_wf hash (at_table s);
  ok_age : NoDup (at_age s);
  ok_dom a : a ∈ at_age s <-> is_Some (at_entries s !! a);
  ok_find ip a : hc_abs (at_table s) !! ip = Some a <->
    exists e, at_entries s !! a = Some e /\ ae_ip e = ip;
  ok_entries : at_entry_count s = Z.of_nat (length (at_age s)) + de;
  ok_packets : at_packet_count s = Z.of_nat (length (stored s)) + dp;
  ok_queues a e : at_entries s !! a = Some e ->
    ae_entry_packet_count e = Z.of_nat (length (ae_queue e));
  ok_free : NoDup (x ++ al_free (at_alloc s));
  ok_fresh a : a ∈ x ++ al_free (at_alloc s) ->
    (a < al_next (at_alloc s))%nat /\ at_entries s !! a = None;
  ok_next a : is_Some (at_entries s !! a) -> (a < al_next (at_alloc s))%nat;
  ok_range : 0 <= at_entry_count s < 4294967296 /\ 0 <= at_packet_count s < 4294967296
}.

Lemma stored_in_app m l1 l2 : stored_in m (l1 ++ l2) = stored_in m l1 ++ stored_in m l2.
Proof. apply bind_app. Qed.
Lemma stored_in_ext m m' l :
  (forall a, a ∈ l -> queue_of m a = queue_of m' a) -> stored_in m l = stored_in m' l.
Proof.
  intros Hq. induction l as [|a l IH]; [done|].
  change (queue_of m a ++ stored_in m l = queue_of m' a ++ stored_in m' l).
  rewrite Hq by apply list_elem_of_here. f_equal. apply IH. intros b Hb. apply Hq. by right.
Qed.
Lemma queue_of_eq m a e : m !! a = Some e -> queue_of m a = ae_queue e.
Proof. unfold queue_of. by intros ->. Qed.
Lemma queue_of_ne m a b e : a <> b -> queue_of (<[a := e]> m) b = queue_of m b.
Proof. intros Hne. unfold queue_of. by rewrite lookup_insert_ne. Qed.

(** The rest of the queues, when one is set apart. *)
Lemma stored_in_split m l a :
  NoDup l -> a ∈ l ->
  exists rest, stored_in m l ≡ₚ queue_of m a ++ rest /\
    (forall e, stored_in (<[a := e]> m) l ≡ₚ ae_queue e ++ rest).
Proof.
  intros Hnd [l1 [l2 ->]]%list_elem_of_split.
  apply list.NoDup_app in Hnd as (_ & H1 & [H2 _]%list.NoDup_cons).
  exists (stored_in m l1 ++ stored_in m l2). split.
  - rewrite stored_in_app.
    change (stored_in m l1 ++ queue_of m a ++ stored_in m l2 ≡ₚ
            queue_of m a ++ stored_in m l1 ++ stored_in m l2).
    by rewrite (Permutation_app_swap_app (stored_in m l1)).
  - intros e. rewrite stored_in_app.
    change (stored_in (<[a := e]> m) l1 ++ queue_of (<[a := e]> m) a ++ stored_in (<[a := e]> m) l2
            ≡ₚ ae_queue e ++ stored_in m l1 ++ stored_in m l2).
    rewrite (Permutation_app_swap_app _ (queue_of _ a)).
    rewrite (queue_of_eq _ a e) by apply lookup_insert_eq. apply Permutation_app_head.
    rewrite (stored_in_ext _ m l1), (stored_in_ext _ m l2); [done|..]; intros b Hb;
      apply queue_of_ne; intros ->; [done|]. apply (H1 b Hb), list_elem_of_here.
Qed.

Lemma hc_nbuckets_erase ip (t : hashcontainer Z nat) :
  hc_nbuckets (snd (hc_erase hash ip t)) = hc_nbuckets t.
Proof.
  unfold hc_erase, hc_erase_at, hc_set. case_decide; [done|]. unfold hc_nbuckets. simpl.
  apply length_alter.
Qed.

(** ** Running the parts *)
Lemma aget_run a e s : at_entries s !! a = Some e -> aget a s = Ok (e, s, []).
Proof. intros He. unfold aget. rewrite hbind_get, He. done. Qed.
Lemma amod_run a f e s :
  at_entries s !! a = Some e ->
  amod a f s = Ok (tt, set_entries (<[a := f e]> (at_entries s)) s, []).
Proof. intros He. unfold amod. by rewrite (hbind_silent _ _ _ _ _ (aget_run _ _ _ He)). Qed.

Lemma kill_queue_run count q s :
  kill_queue count q s = Ok (tt, Nat.iter (length q) count s, map Kill q).
Proof.
  revert s. induction q as [|p q IH]; intros s; [done|]. cbn [kill_queue length map].
  apply hbind_emit. rewrite hbind_modify, IH. by rewrite Nat.iter_succ_r.
Qed.

Lemma kill_count_packets n s :
  Z.of_nat n <= at_packet_count s < 4294967296 ->
  exists d, Nat.iter n (fun s => add_drop (add_packets (-1) s)) s =
    set_counts (at_entry_count s) (at_packet_count s - Z.of_nat n) d s.
Proof.
  revert s. induction n as [|n IH]; intros s Hn.
  - exists (at_drops s). simpl. destruct s; unfold set_counts; simpl. f_equal. lia.
  - rewrite Nat.iter_succ_r. destruct (IH (add_drop (add_packets (-1) s))) as [d ->].
    { unfold add_drop, add_packets, set_counts; simpl. rewrite u32_small by lia. lia. }
    exists d. unfold add_drop, add_packets, set_counts; simpl. rewrite u32_small by lia.
    f_equal. lia.
Qed.

(** Changing an entry, but not its address. *)
Lemma at_ok_update de dp dp' x a e e' n s :
  at_ok de dp x s -> at_entries s !! a = Some e -> ae_ip e' = ae_ip e ->
  ae_entry_packet_count e' = Z.of_nat (length (ae_queue e')) ->
  n = at_packet_count s + Z.of_nat (length (ae_queue e')) - Z.of_nat (length (ae_queue e)) + dp' - dp ->
  0 <= n < 4294967296 ->
  forall d, at_ok de dp' x
    (set_counts (at_entry_count s) n d (set_entries (<[a := e']> (at_entries s)) s)).
Proof.
  intros [] He Hip Hq Hn Hr d.
  assert (Ha : a ∈ at_age s) by (apply ok_dom0; by exists e).
  destruct (stored_in_split (at_entries s) (at_age s) a) as (rest & H1 & H2); [done..|].
  specialize (H2 e'). rewrite (queue_of_eq _ _ _ He) in H1.
  split; unfold stored; simpl; try done.
  - intros b. rewrite ok_dom0. destruct (decide (b = a)) as [-> |].
    + rewrite lookup_insert_eq, He. split; by eexists.
    + by rewrite lookup_insert_ne.
  - intros ip b. rewrite ok_find0. destruct (decide (b = a)) as [-> |].
    + rewrite lookup_insert_eq, He. split; intros (e0 & [= <-] & Hi); eexists; split; try done; congruence.
    + by rewrite lookup_insert_ne.
  - unfold stored in ok_packets0. rewrite H1 in ok_packets0. rewrite H2.
    rewrite length_app in *. lia.
  - intros b e0. destruct (decide (b = a)) as [-> |].
    + rewrite lookup_insert_eq. by intros [= <-].
    + rewrite lookup_insert_ne by done. apply ok_queues0.
  - intros b Hb. destruct (ok_fresh0 b Hb) as [? Hbn]. split; [done|].
    destruct (decide (b = a)) as [-> |]; [congruence|by rewrite lookup_insert_ne].
  - intros b. destruct (decide (b = a)) as [-> |].
    + intros _. apply ok_next0. by exists e.
    + rewrite lookup_insert_ne by done. apply ok_next0.
  - lia.
Qed.

(** Dropping the oldest entry. *)
Lemma at_ok_drop_front de dp x a rest e s :
  at_ok de dp x s -> at_age s = a :: rest -> at_entries s !! a = Some e -> 0 <= de -> 0 <= dp ->
  forall d, 
  let s' := MkARPTable (snd (hc_erase hash (ae_ip e) (at_table s))) rest (delete a (at_entries s))
              (deallocate a (at_alloc s)) (at_entry_count s - 1)
              (at_packet_count s - Z.of_nat (length (ae_queue e))) d (at_conf s) in
  at_ok de dp x s' /\ stored s = ae_queue e ++ stored s'.
Proof.
  intros Hok Hage He Hde Hdp d s'. pose proof Hok as [].
  rewrite Hage in *. apply list.NoDup_cons in ok_age0 as [Har Hnd].
  pose proof (hc_erase_spec hash (at_table s) (ae_ip e) ok_table0) as Hes.
  destruct (hc_erase hash (ae_ip e) (at_table s)) as [old t']. destruct Hes as (Hw & Habs & _).
  cbn [snd] in s'.
  assert (Hst : stored s = ae_queue e ++ stored s').
  { unfold stored, s'. rewrite Hage. unfold stored_in at 1. cbn [mbind list_bind at_entries at_age].
    rewrite (queue_of_eq _ _ _ He). f_equal. apply stored_in_ext. intros b Hb.
    unfold queue_of. rewrite lookup_delete_ne; [done|]. by intros ->. }
  split; [|done]. split; unfold s'; simpl; try done.
  - intros b. destruct (decide (b = a)) as [-> |Hb].
    + rewrite lookup_delete_eq. split; [done|]. by intros [? [=]].
    + rewrite lookup_delete_ne by done. rewrite <- ok_dom0. rewrite list.elem_of_cons. tauto.
  - intros ip b. rewrite Habs. destruct (decide (b = a)) as [-> |Hb].
    + rewrite lookup_delete_eq. split; [|by intros (? & [=] & _)].
      intros [Hne Hl]%lookup_delete_Some. apply ok_find0 in Hl as (e0 & He0 & Hi). congruence.
    + rewrite (lookup_delete_ne (at_entries s)) by done. rewrite lookup_delete_Some, ok_find0. split; [tauto|].
      intros (e0 & He0 & Hi). split; [|by exists e0]. intros Hip.
      assert (hc_abs (at_table s) !! ip = Some a) as H1 by (apply ok_find0; exists e; by split).
      assert (hc_abs (at_table s) !! ip = Some b) as H2 by (apply ok_find0; exists e0; by split).
      congruence.
  - rewrite ok_entries0. cbn [length]. lia.
  - rewrite Hst, length_app in ok_packets0. unfold stored, s' in ok_packets0.
    unfold stored. cbn [at_age at_entries] in *. lia.
  - intros b e0 [_ Hb]%lookup_delete_Some. by apply (ok_queues0 b).
  - assert (Ha : a ∉ x ++ al_free (at_alloc s)).
    { intros Hin. destruct (ok_fresh0 a Hin) as [_ Hn]. congruence. }
    rewrite <- Permutation_middle. by constructor.
  - intros b. rewrite <- Permutation_middle, list.elem_of_cons. intros [-> |Hb].
    + rewrite lookup_delete_eq. split; [|done]. apply ok_next0. by exists e.
    + destruct (ok_fresh0 b Hb) as [? Hn]. split; [done|]. rewrite lookup_delete_None. by right.
  - intros b [e0 [_ Hb]%lookup_delete_Some]. apply ok_next0. by exists e0.
  - rewrite Hst, length_app in ok_packets0. cbn [length] in ok_entries0. lia.
Qed.

(** ** [slim] *)

Definition over_capacity (c : ARPConf) (n : Z) : bool :=
  negb (c_entry_capacity c =? 0) && (c_entry_capacity c <? n).

Lemma slim_entries_run fuel now de dp x s :
  at_ok de dp x s -> 0 <= de -> 0 <= dp -> (length (at_age s) <= fuel)%nat ->
  exists dropped s', slim_entries fuel now s = Ok (tt, s', map Kill (stored_in (at_entries s) dropped)) /\
    at_ok de dp x s' /\ at_age s = dropped ++ at_age s' /\ at_conf s' = at_conf s /\
    hc_nbuckets (at_table s') = hc_nbuckets (at_table s) /\
    (forall a, a ∈ at_age s' -> at_entries s' !! a = at_entries s !! a) /\
    (forall a, a ∈ dropped -> exists e, at_entries s !! a = Some e /\
       (expired e now (at_timeout_j s) = true \/ over_capacity (at_conf s) (at_entry_count s) = true)) /\
    (at_age s' = [] \/ over_capacity (at_conf s) (at_entry_count s') = false).
Proof.
  revert s. induction fuel as [|fuel IH]; intros s Hok Hde Hdp Hf; cbn [slim_entries];
    rewrite hbind_get; destruct (at_age s) as [|a rest] eqn:Hage.
  1, 3: exists [], s; split_and!; first [done|by rewrite Hage|by left|intros a Ha; by apply elem_of_nil in Ha].
  { simpl in Hf. lia. }
  assert (is_Some (at_entries s !! a)) as [e He].
  { apply (ok_dom _ _ _ _ Hok). rewrite Hage. apply list_elem_of_here. }
  rewrite (hbind_silent _ _ _ _ _ (aget_run _ _ _ He)).
  fold (over_capacity (at_conf s) (at_entry_count s)).
  destruct (expired e now (at_timeout_j s) || over_capacity (at_conf s) (at_entry_count s)) eqn:Eb.
  2: { apply orb_false_iff in Eb as [_ Eb]. exists [], s.
       split_and!; first [done|by rewrite Hage|by right|intros b Hb; by apply elem_of_nil in Hb]. }
  apply orb_true_iff in Eb. rewrite !hbind_modify.
  pose proof (ok_range _ _ _ _ Hok) as Hr. pose proof (ok_packets _ _ _ _ Hok) as Hpk.
  assert (Hst : stored s = ae_queue e ++ stored_in (at_entries s) rest).
  { unfold stored. rewrite Hage. unfold stored_in at 1. cbn [mbind list_bind].
    by rewrite (queue_of_eq _ _ _ He). }
  destruct (kill_count_packets (length (ae_queue e)) (set_age rest
    (set_table (snd (hc_erase hash (ae_ip e) (at_table s))) s))) as [d Ed].
  { cbn [at_packet_count set_age set_table]. rewrite Hst, length_app in Hpk. lia. }
  destruct (at_ok_drop_front de dp x a rest e s Hok Hage He Hde Hdp d) as [Hok1 Hst1].
  set (s1 := MkARPTable _ _ _ _ _ _ _ _) in Hok1, Hst1.
  destruct (IH s1) as (dropped & s' & E & Hok' & Ha & Hc & Hnb & Hk & Hd & Hcap);
    [done|done|done|simpl in Hf |- *; lia|].
  assert (Hcount : at_entry_count s = Z.of_nat (S (length rest)) + de)
    by (by rewrite (ok_entries _ _ _ _ Hok), Hage).
  exists (a :: dropped), s'. split_and!.
  - unfold stored_in at 1. cbn [mbind list_bind]. rewrite (queue_of_eq _ _ _ He), map_app.
    eapply hbind_run; [by rewrite kill_queue_run, Ed|].
    rewrite !hbind_modify. unfold free_entry, add_entries, set_alloc, set_entries, set_counts,
      set_age, set_table.
    cbn [at_table at_age at_entries at_alloc at_entry_count at_packet_count at_drops at_conf].
    rewrite u32_small by lia. change (at_entry_count s + -1) with (at_entry_count s - 1).
    fold s1. rewrite E. f_equal. f_equal. f_equal. unfold stored_in.
    assert (Hext : stored_in (at_entries s1) dropped = stored_in (at_entries s) dropped).
    { apply stored_in_ext. intros b Hb. unfold queue_of, s1. simpl. rewrite lookup_delete_ne; [done|].
      intros <-. pose proof (ok_age _ _ _ _ Hok) as Hnd. rewrite Hage in Hnd.
      apply list.NoDup_cons in Hnd as [Hnd _]. apply Hnd. change rest with (at_age s1).
      rewrite Ha. apply elem_of_app. by left. }
    exact Hext.
  - done.
  - simpl in Ha. by rewrite Ha.
  - done.
  - rewrite Hnb. unfold s1. cbn [at_table]. apply hc_nbuckets_erase.
  - intros b Hb. rewrite Hk by done. unfold s1. simpl. rewrite lookup_delete_ne; [done|].
    intros <-. pose proof (ok_age _ _ _ _ Hok) as Hnd. rewrite Hage in Hnd.
    apply list.NoDup_cons in Hnd as [Hnd _]. apply Hnd. change rest with (at_age s1).
    rewrite Ha. apply elem_of_app. by right.
  - intros b [-> |Hb]%list.elem_of_cons; [by exists e|].
    destruct (Hd b Hb) as (e' & He' & Hor). unfold s1 in He'. simpl in He'.
    apply lookup_delete_Some in He' as [_ He']. exists e'. split; [done|].
    destruct Hor as [|Hor]; [by left|right]. unfold over_capacity in *. unfold s1 in Hor.
    cbn [at_conf at_entry_count] in Hor. lia.
  - done.
Qed.

(** An entry after its queue lost packets at the front. *)
Definition trims (e e' : ARPEntry) : Prop :=
  e' = set_queue (ae_queue e') (ae_entry_packet_count e') e /\ ae_queue e' `suffix_of` ae_queue e.

Lemma trims_refl e : trims e e.
Proof. split; [by destruct e|done]. Qed.
Lemma trims_trans e1 e2 e3 : trims e1 e2 -> trims e2 e3 -> trims e1 e3.
Proof.
  intros [E1 S1] [E2 S2]. split; [|by etrans]. rewrite E2 at 1. rewrite E1 at 1. by destruct e1.
Qed.

Lemma slim_queue_run de dp x a cap q e s :
  at_ok de dp x s -> 0 <= dp -> at_entries s !! a = Some e -> ae_queue e = q ->
  exists killed e' d,
    let s' := set_counts (at_entry_count s) (at_packet_count s - Z.of_nat (length killed)) d
                (set_entries (<[a := e']> (at_entries s)) s) in
    slim_queue a cap q s = Ok (tt, s', map Kill killed) /\ at_ok de dp x s' /\ trims e e' /\
    q = killed ++ ae_queue e' /\ (at_packet_count s' <= cap \/ ae_queue e' = []).
Proof.
  revert e s. induction q as [|p q IH]; intros e s Hok Hdp He Hq.
  - exists [], e, (at_drops s). cbn [slim_queue].
    assert (set_counts (at_entry_count s) (at_packet_count s - 0) (at_drops s)
      (set_entries (<[a:=e]> (at_entries s)) s) = s) as E.
    { rewrite insert_id by done. destruct s; unfold set_counts; simpl. f_equal. lia. }
    cbv zeta. cbn [length]. change (Z.of_nat 0) with 0. rewrite E. split_and!; try done; [apply trims_refl|by right].
  - cbn [slim_queue]. rewrite hbind_get. destruct (Z.ltb_spec cap (at_packet_count s)) as [Hlt|Hge].
    2: { exists [], e, (at_drops s).
         assert (set_counts (at_entry_count s) (at_packet_count s - 0) (at_drops s)
           (set_entries (<[a:=e]> (at_entries s)) s) = s) as E.
         { rewrite insert_id by done. destruct s; unfold set_counts; simpl. f_equal. lia. }
         cbv zeta. cbn [length]. change (Z.of_nat 0) with 0. rewrite E. split_and!; try done; [apply trims_refl|by left]. }
    set (e1 := set_queue q (u32 (ae_entry_packet_count e - 1)) e).
    pose proof (ok_queues _ _ _ _ Hok a e He) as Hn. rewrite Hq in Hn. cbn [length] in Hn.
    pose proof (ok_range _ _ _ _ Hok) as Hr. pose proof (ok_packets _ _ _ _ Hok) as Hpk.
    assert (Hle : Z.of_nat (S (length q)) <= Z.of_nat (length (stored s))).
    { destruct (stored_in_split (at_entries s) (at_age s) a) as (rest & H1 & _);
        [apply Hok|apply (ok_dom _ _ _ _ Hok); by exists e|].
      unfold stored. rewrite H1, length_app, (queue_of_eq _ _ _ He), Hq. cbn [length]. lia. }
    assert (Hc1 : u32 (ae_entry_packet_count e - 1) = Z.of_nat (length q))
      by (rewrite u32_small; lia).
    set (s1 := set_counts (at_entry_count s) (at_packet_count s - 1) (u32 (at_drops s + 1))
                 (set_entries (<[a := e1]> (at_entries s)) s)).
    assert (Hok1 : at_ok de dp x s1).
    { apply (at_ok_update _ dp _ _ _ e); try done; unfold e1; cbn [ae_queue set_queue]; rewrite ?Hq;
        cbn [length]; lia. }
    destruct (IH e1 s1) as (killed & e' & d & E & Hok' & Ht & Hq' & Hcap);
      [done|done|by apply lookup_insert_eq|done|].
    assert (Es : set_counts (at_entry_count s1) (at_packet_count s1 - Z.of_nat (length killed)) d
      (set_entries (<[a := e']> (at_entries s1)) s1) =
      set_counts (at_entry_count s) (at_packet_count s - Z.of_nat (length (p :: killed))) d
      (set_entries (<[a := e']> (at_entries s)) s)).
    { unfold s1, set_counts, set_entries. simpl at_entries. rewrite insert_insert_eq.
      cbn [at_table at_age at_entries at_alloc at_entry_count at_packet_count at_drops at_conf length].
      f_equal. lia. }
    exists (p :: killed), e', d. rewrite Es in E, Hok', Hcap. cbv zeta. split_and!; try done.
    + rewrite (hbind_silent _ _ _ _ _ (amod_run _ _ _ _ He)). apply hbind_emit.
      rewrite hbind_modify. etrans; [|exact E]. f_equal. unfold s1, add_drop, add_packets, set_counts, set_entries.
      cbn [at_table at_age at_entries at_alloc at_entry_count at_packet_count at_drops at_conf].
      rewrite (u32_small (at_packet_count s + -1)) by lia. done.
    + eapply trims_trans; [|exact Ht]. split; [by destruct e|]. rewrite Hq. by exists [p].
    + by rewrite Hq'.
Qed.

(** What [slim] leaves of the entries: some of them, with shorter queues. *)
Definition thinned (m m' : gmap nat ARPEntry) : Prop :=
  forall a e', m' !! a = Some e' -> exists e, m !! a = Some e /\ trims e e'.

Lemma thinned_trans m1 m2 m3 : thinned m1 m2 -> thinned m2 m3 -> thinned m1 m3.
Proof.
  intros H12 H23 a e3 H3. destruct (H23 a e3 H3) as (e2 & H2 & T2).
  destruct (H12 a e2 H2) as (e1 & H1 & T1). exists e1. split; [done|]. by eapply trims_trans.
Qed.

Lemma slim_walk_run de dp x cap pre l s :
  at_ok de dp x s -> 0 <= dp <= cap -> at_age s = pre ++ l -> stored_in (at_entries s) pre = [] ->
  exists s' killed, slim_walk cap l s = Ok (tt, s', map Kill killed) /\ at_ok de dp x s' /\
    at_age s' = at_age s /\ at_entry_count s' = at_entry_count s /\ at_conf s' = at_conf s /\
    at_table s' = at_table s /\
    thinned (at_entries s) (at_entries s') /\ stored s = killed ++ stored s' /\
    at_packet_count s' <= cap.
Proof.
  revert pre s. induction l as [|a l IH]; intros pre s Hok Hdp Hage Hpre; cbn [slim_walk];
    rewrite hbind_get; pose proof (ok_packets _ _ _ _ Hok) as Hpk;
    destruct (Z.ltb_spec cap (at_packet_count s)) as [Hlt|Hge].
  - unfold stored in Hpk. rewrite app_nil_r in Hage. rewrite Hage, Hpre in Hpk. simpl in Hpk. lia.
  - exists s, []. split_and!; try done. intros a e He. exists e. split; [done|apply trims_refl].
  - assert (is_Some (at_entries s !! a)) as [e He].
    { apply (ok_dom _ _ _ _ Hok). rewrite Hage. apply elem_of_app. right. apply list_elem_of_here. }
    rewrite (hbind_silent _ _ _ _ _ (aget_run _ _ _ He)).
    destruct (slim_queue_run de dp x a cap (ae_queue e) e s) as (killed & e' & d & E & Hok1 & Ht & Hq & Hcap);
      [done|lia|done|done|].
    set (s1 := set_counts _ _ _ _) in *.
    pose proof (ok_age _ _ _ _ Hok) as Hnd. rewrite Hage in Hnd.
    apply list.NoDup_app in Hnd as (_ & Hdis & [Hal _]%list.NoDup_cons).
    assert (Hpre1 : stored_in (at_entries s1) pre = stored_in (at_entries s) pre).
    { apply stored_in_ext. intros b Hb. unfold s1. simpl. apply queue_of_ne. intros <-.
      apply (Hdis a Hb), list_elem_of_here. }
    assert (Hl1 : stored_in (at_entries s1) l = stored_in (at_entries s) l).
    { apply stored_in_ext. intros b Hb. unfold s1. simpl. apply queue_of_ne. by intros <-. }
    assert (Hqa : queue_of (at_entries s1) a = ae_queue e')
      by (apply queue_of_eq; unfold s1; simpl; apply lookup_insert_eq).
    assert (Hcons : forall m l, stored_in m (a :: l) = queue_of m a ++ stored_in m l) by done.
    assert (Hst : stored s = killed ++ stored s1).
    { unfold stored. change (at_age s1) with (at_age s). rewrite Hage, !stored_in_app, !Hcons.
      rewrite Hpre1, Hpre, Hl1, Hqa, (queue_of_eq _ _ _ He). simpl. rewrite Hq at 1.
      by rewrite app_assoc. }
    assert (Hth : thinned (at_entries s) (at_entries s1)).
    { intros b eb. unfold s1. simpl. destruct (decide (b = a)) as [-> |].
      - rewrite lookup_insert_eq. intros [= <-]. by exists e.
      - rewrite lookup_insert_ne by done. intros Hb. exists eb. split; [done|apply trims_refl]. }
    destruct (Z.ltb_spec cap (at_packet_count s1)) as [Hlt1|Hge1].
    + destruct (IH (pre ++ [a]) s1) as (s2 & killed2 & E2 & Hok2 & Ha2 & Hn2 & Hc2 & Ht2 & Hth2 & Hst2 & Hcap2).
      * done.
      * done.
      * change (at_age s1) with (at_age s). by rewrite Hage, <- app_assoc.
      * rewrite stored_in_app, Hpre1, Hpre, Hcons, Hqa. destruct Hcap as [|Hcap]; [lia|].
        by rewrite Hcap.
      * exists s2, (killed ++ killed2). rewrite map_app. split_and!; try done.
        -- by eapply hbind_run.
        -- by eapply thinned_trans.
        -- by rewrite Hst, Hst2, app_assoc.
    + exists s1, killed. split_and!; try done.
      assert (slim_walk cap l s1 = Ok (tt, s1, [])) as E2.
      { destruct l; cbn [slim_walk]; rewrite hbind_get;
          by rewrite (proj2 (Z.ltb_ge cap (at_packet_count s1)) Hge1). }
      rewrite <- (app_nil_r (map Kill killed)). by eapply hbind_run.
  - exists s, []. split_and!; try done. intros b eb Hb. exists eb. split; [done|apply trims_refl].
Qed.

(** Configurations [configure] accepts. *)
Record conf_ok (c : ARPConf) : Prop := {
  co_entry : 0 <= c_entry_capacity c < 4294967296;
  co_packet : 0 <= c_packet_capacity c < 4294967296;
  co_entry_packet : 0 <= c_entry_packet_capacity c < 4294967296;
  co_factor : 1 <= c_capacity_slim_factor c < 4294967296;
  co_timeout : 0 <= c_timeout_j c < 4294967296
}.

Lemma slim_capacity_bounds c :
  conf_ok c -> 1 <= slim_capacity c /\ (c_packet_capacity c <> 0 -> slim_capacity c <= c_packet_capacity c).
Proof.
  intros []. unfold slim_capacity.
  assert (0 <= c_packet_capacity c / c_capacity_slim_factor c <= c_packet_capacity c).
  { split; [apply Z.div_pos; lia|]. apply Z.div_le_upper_bound; [lia|]. nia. }
  rewrite u32_small by lia. destruct (Z.eqb_spec (c_packet_capacity c - c_packet_capacity c / c_capacity_slim_factor c) 0); lia.
Qed.

(** The packet capacity is respected. *)
Definition packets_fit (s : ARPTable) : Prop :=
  c_packet_capacity (at_conf s) = 0 \/ at_packet_count s <= c_packet_capacity (at_conf s).

Lemma slim_run de dp x now s :
  at_ok de dp x s -> conf_ok (at_conf s) -> 0 <= de -> 0 <= dp <= 1 ->
  exists s' killed, slim now s = Ok (tt, s', map Kill killed) /\ at_ok de dp x s' /\
    at_conf s' = at_conf s /\ hc_nbuckets (at_table s') = hc_nbuckets (at_table s) /\
    at_entry_count s' <= at_entry_count s /\
    at_packet_count s' <= at_packet_count s /\
    thinned (at_entries s) (at_entries s') /\ stored s = killed ++ stored s' /\
    (forall a e, at_entries s !! a = Some e -> expired e now (at_timeout_j s) = false ->
       over_capacity (at_conf s) (at_entry_count s) = false -> is_Some (at_entries s' !! a)) /\
    (at_age s' = [] \/ over_capacity (at_conf s) (at_entry_count s') = false) /\ packets_fit s'.
Proof.
  intros Hok Hc Hde Hdp. unfold slim. rewrite hbind_get.
  destruct (slim_entries_run (length (at_age s)) now de dp x s)
    as (dropped & s1 & E1 & Hok1 & Ha1 & Hc1 & Hnb1 & Hk1 & Hd1 & Hcap1); [done|done|lia|done|].
  assert (Hst1 : stored s = stored_in (at_entries s) dropped ++ stored s1).
  { unfold stored. rewrite Ha1, stored_in_app. f_equal. apply stored_in_ext. intros a Ha.
    unfold queue_of. by rewrite Hk1. }
  assert (Hth1 : thinned (at_entries s) (at_entries s1)).
  { intros a e He. exists e. split; [|apply trims_refl]. rewrite <- Hk1; [done|].
    apply (ok_dom _ _ _ _ Hok1). by exists e. }
  assert (Hkeep : forall a e, at_entries s !! a = Some e -> expired e now (at_timeout_j s) = false ->
    over_capacity (at_conf s) (at_entry_count s) = false -> is_Some (at_entries s1 !! a)).
  { intros a e He Hx Ho. assert (a ∈ at_age s) as Ha by (apply (ok_dom _ _ _ _ Hok); by exists e).
    rewrite Ha1 in Ha. apply elem_of_app in Ha as [Ha|Ha].
    - destruct (Hd1 a Ha) as (e' & He' & Hor). rewrite He in He'. injection He' as <-.
      rewrite Hx, Ho in Hor. by destruct Hor.
    - by apply (ok_dom _ _ _ _ Hok1). }
  assert (Hn1 : at_entry_count s1 <= at_entry_count s).
  { rewrite (ok_entries _ _ _ _ Hok), (ok_entries _ _ _ _ Hok1), Ha1, length_app. lia. }
  assert (Hp1 : at_packet_count s1 <= at_packet_count s).
  { rewrite (ok_packets _ _ _ _ Hok), (ok_packets _ _ _ _ Hok1), Hst1, length_app. lia. }
  destruct (slim_capacity_bounds _ Hc) as [Hsc1 Hsc2].
  destruct (negb (c_packet_capacity (at_conf s1) =? 0) &&
    (c_packet_capacity (at_conf s1) <? at_packet_count s1)) eqn:Eb.
  - destruct (slim_walk_run de dp x (slim_capacity (at_conf s1)) [] (at_age s1) s1)
      as (s2 & killed2 & E2 & Hok2 & Ha2 & Hn2 & Hc2 & Ht2 & Hth2 & Hst2 & Hcap2);
      [done|rewrite Hc1; lia|done|done|].
    exists s2, (stored_in (at_entries s) dropped ++ killed2). rewrite map_app. split_and!; try done.
    + eapply hbind_run; [exact E1|]. rewrite hbind_get. cbv zeta. by rewrite Eb.
    + congruence.
    + congruence.
    + lia.
    + rewrite (ok_packets _ _ _ _ Hok), (ok_packets _ _ _ _ Hok2), Hst1, Hst2, !length_app. lia.
    + by eapply thinned_trans.
    + by rewrite Hst1, Hst2, app_assoc.
    + intros a e He Hx Ho. destruct (Hkeep a e He Hx Ho) as [e1 He1].
      apply (ok_dom _ _ _ _ Hok2). rewrite Ha2. apply (ok_dom _ _ _ _ Hok1). by exists e1.
    + rewrite Ha2, Hn2. done.
    + right. rewrite Hc2, Hc1 in *. apply andb_true_iff in Eb as [Eb _].
      apply negb_true_iff, Z.eqb_neq in Eb. specialize (Hsc2 Eb). lia.
  - exists s1, (stored_in (at_entries s) dropped). split_and!; try done.
    + rewrite <- (app_nil_r (map Kill _)). eapply hbind_run; [exact E1|].
      rewrite hbind_get. cbv zeta. by rewrite Eb.
    + apply andb_false_iff in Eb as [Eb|Eb].
      * left. apply negb_false_iff, Z.eqb_eq in Eb. done.
      * right. apply Z.ltb_ge in Eb. done.
Qed.

(** ** [ensure] *)
Definition entries_fit (s : ARPTable) : Prop :=
  over_capacity (at_conf s) (at_entry_count s) = false.

Lemma at_ok_allocate dp s mem a al :
  at_ok 0 dp [] s -> allocate mem (at_alloc s) = Some (a, al) ->
  at_entry_count s + 1 < 4294967296 ->
  at_ok 1 dp [a] (add_entries 1 (set_alloc al s)).
Proof.
  intros [] Hal Hr.
  assert (Hcount : u32 (at_entry_count s + 1) = at_entry_count s + 1) by (apply u32_small; lia).
  assert (Hx : NoDup ([a] ++ al_free al) /\ (al_next (at_alloc s) <= al_next al)%nat /\
    forall b, b ∈ [a] ++ al_free al -> (b < al_next al)%nat /\ at_entries s !! b = None).
  { unfold allocate in Hal. destruct (al_free (at_alloc s)) as [|x l] eqn:E.
    - destruct mem; [|done]. injection Hal as <- <-. simpl. split; [|split; [lia|]].
      + apply NoDup_singleton.
      + intros b Hb. apply list_elem_of_singleton in Hb as ->. split; [lia|].
        destruct (at_entries s !! al_next (at_alloc s)) eqn:He; [|done].
        assert (al_next (at_alloc s) < al_next (at_alloc s))%nat by (apply ok_next0; by eexists). lia.
    - injection Hal as <- <-. simpl. by split_and!. }
  destruct Hx as (Hnd & Hle & Hfr).
  split; cbn [add_entries set_alloc set_counts at_table at_age at_entries at_alloc at_entry_count
    at_packet_count at_conf]; try done.
  - rewrite Hcount. lia.
  - intros b Hb. specialize (ok_next0 b Hb). lia.
  - rewrite Hcount. lia.
Qed.

(** The new entry enters the table, the memory and the list. *)
Definition add_entry (a : nat) (e : ARPEntry) (t : hashcontainer Z nat) (s : ARPTable) : ARPTable :=
  set_age (at_age s ++ [a]) (set_table t (set_entries (<[a := e]> (at_entries s)) s)).

Lemma at_ok_add dp a ip e t s :
  at_ok 1 dp [a] s -> ae_ip e = ip -> ae_queue e = [] -> ae_entry_packet_count e = 0 ->
  hc_abs (at_table s) !! ip = None -> hc_wf hash t ->
  hc_abs t = <[ip := a]> (hc_abs (at_table s)) ->
  at_ok 0 dp [] (add_entry a e t s) /\ stored (add_entry a e t s) = stored s.
Proof.
  intros [] Hip Hq Hn Hnone Hw Habs.
  destruct (ok_fresh0 a) as [Hlt Hfree]; [apply list_elem_of_here|].
  assert (Hage : a ∉ at_age s) by (rewrite ok_dom0, Hfree; by intros [? [=]]).
  assert (Hst : stored (add_entry a e t s) = stored s).
  { unfold stored, add_entry. cbn [set_age set_table set_entries at_age at_entries].
    rewrite stored_in_app.
    change (stored_in _ [a]) with (queue_of (<[a := e]> (at_entries s)) a ++ []).
    rewrite (queue_of_eq _ a e) by apply lookup_insert_eq. rewrite Hq, app_nil_r.
    apply stored_in_ext. intros b Hb. apply queue_of_ne. by intros ->. }
  split; [|done]. split; unfold add_entry in *;
    cbn [set_age set_table set_entries at_table at_age at_entries at_alloc at_entry_count at_packet_count] in *.
  - done.
  - apply list.NoDup_app. split; [done|]. split; [|apply NoDup_singleton].
    intros b Hb ->%list_elem_of_singleton. done.
  - intros b. rewrite elem_of_app, list_elem_of_singleton. destruct (decide (b = a)) as [-> |].
    + rewrite lookup_insert_eq. split; [by eexists|by right].
    + rewrite lookup_insert_ne by done. rewrite ok_dom0. tauto.
  - intros i b. rewrite Habs. destruct (decide (b = a)) as [-> |].
    + rewrite lookup_insert_eq. destruct (decide (ip = i)) as [-> |].
      * rewrite lookup_insert_eq. split; [|done]. intros _. by exists e.
      * rewrite lookup_insert_ne by done. rewrite ok_find0, Hfree. split; [by intros (? & [=] & _)|].
        intros (? & [= <-] & ?). congruence.
    + rewrite (lookup_insert_ne (at_entries s)) by done.
      destruct (decide (ip = i)) as [-> |].
      * rewrite lookup_insert_eq. split; [by intros [= ->]|]. intros Hb. apply ok_find0 in Hb. congruence.
      * by rewrite lookup_insert_ne.
  - rewrite length_app. simpl. lia.
  - rewrite Hst. done.
  - intros b e0. destruct (decide (b = a)) as [-> |].
    + rewrite lookup_insert_eq. intros [= <-]. by rewrite Hq, Hn.
    + rewrite lookup_insert_ne by done. apply ok_queues0.
  - simpl in ok_free0. by apply list.NoDup_cons in ok_free0 as [_ ?].
  - intros b Hb. destruct (ok_fresh0 b) as [? Hbn]; [by right|]. split; [done|].
    rewrite lookup_insert_ne; [done|]. intros <-. simpl in ok_free0.
    by apply list.NoDup_cons in ok_free0 as [? _].
  - intros b. destruct (decide (b = a)) as [-> |]; [done|].
    rewrite lookup_insert_ne by done. apply ok_next0.
  - done.
Qed.

Lemma hc_abs_thinned de dp x s de' dp' x' s' ip :
  at_ok de dp x s -> at_ok de' dp' x' s' -> thinned (at_entries s) (at_entries s') ->
  hc_abs (at_table s) !! ip = None -> hc_abs (at_table s') !! ip = None.
Proof.
  intros Hok Hok' Hth Hn. destruct (hc_abs (at_table s') !! ip) as [a|] eqn:E; [|done].
  apply (ok_find _ _ _ _ Hok') in E as (e' & He' & Hip).
  destruct (Hth a e' He') as (e & He & Ht & _). assert (hc_abs (at_table s) !! ip = Some a).
  { apply (ok_find _ _ _ _ Hok). exists e. split; [done|]. rewrite <- Hip, Ht. done. }
  congruence.
Qed.

Lemma ensure_run mem ip now s :
  at_ok 0 0 [] s -> conf_ok (at_conf s) -> packets_fit s -> entries_fit s ->
  at_entry_count s + 1 < 4294967296 ->
  exists r s' killed, ensure mem ip now s = Ok (r, s', map Kill killed) /\ at_ok 0 0 [] s' /\
    at_conf s' = at_conf s /\ stored s = killed ++ stored s' /\ packets_fit s' /\ entries_fit s' /\
    at_entry_count s' <= at_entry_count s + 1 /\ at_packet_count s' <= at_packet_count s /\
    match hc_abs (at_table s) !! ip, r with
    | Some a, Some b => b = a /\ s' = s
    | Some _, None => False
    | None, None => mem = false /\ s' = s
    | None, Some a => hc_abs (at_table s') !! ip = Some a /\
        at_entries s' !! a = Some (ARPEntry_new ip now) /\
        thinned (at_entries s) (delete a (at_entries s'))
    end.
Proof.
  intros Hok Hc Hpf Hef Hr. unfold ensure. rewrite hbind_get.
  pose proof (hc_find_spec hash (at_table s) ip (ok_table _ _ _ _ Hok)) as Hf.
  destruct (hc_abs (at_table s) !! ip) as [a|] eqn:Hk.
  { destruct Hf as (i & -> & _). cbn [it_element]. exists (Some a), s, []. split_and!; try done; lia. }
  rewrite Hf. cbn [it_element].
  destruct (allocate mem (at_alloc s)) as [[a al]|] eqn:Hal.
  2: { exists None, s, []. split_and!; try done; try lia. unfold allocate in Hal.
       destruct (al_free (at_alloc s)); [by destruct mem|done]. }
  rewrite !hbind_modify, hbind_get. pose proof (at_ok_allocate 0 s mem a al Hok Hal Hr) as Hok1.
  set (s1 := add_entries 1 (set_alloc al s)) in *.
  assert (Hslim : exists s2 killed,
    (if negb (c_entry_capacity (at_conf s1) =? 0) && (c_entry_capacity (at_conf s1) <? at_entry_count s1)
     then slim now else hret tt) s1 = Ok (tt, s2, map Kill killed) /\ at_ok 1 0 [a] s2 /\
    at_conf s2 = at_conf s /\ hc_nbuckets (at_table s2) = hc_nbuckets (at_table s) /\
    at_entry_count s2 <= at_entry_count s + 1 /\ at_packet_count s2 <= at_packet_count s /\
    thinned (at_entries s) (at_entries s2) /\ stored s = killed ++ stored s2 /\
    entries_fit s2 /\ packets_fit s2).
  { assert (at_entry_count s1 = at_entry_count s + 1) as Hn1.
    { unfold s1. cbn. apply u32_small. pose proof (ok_range _ _ _ _ Hok). lia. }
    fold (over_capacity (at_conf s1) (at_entry_count s1)).
    destruct (over_capacity (at_conf s1) (at_entry_count s1)) eqn:Eo.
    - destruct (slim_run 1 0 [a] now s1) as (s2 & killed & E & Hok2 & Hc2 & Hnb & Hn2 & Hp2 & Hth & Hst & _ & Hcap & Hfit);
        [done|done|lia|lia|].
      exists s2, killed. split_and!; try done; [lia|].
      unfold entries_fit. rewrite Hc2. destruct Hcap as [Hcap|Hcap]; [|done].
      rewrite (ok_entries _ _ _ _ Hok2), Hcap. unfold over_capacity.
      pose proof (co_entry _ Hc). change (at_conf s1) with (at_conf s).
      destruct (Z.eqb_spec (c_entry_capacity (at_conf s)) 0); [done|]. simpl. apply Z.ltb_ge. lia.
    - exists s1, []. split_and!; try done; [lia|]. intros b e Hb. exists e. split; [done|apply trims_refl]. }
  destruct Hslim as (s2 & killed & E & Hok2 & Hc2 & Hnb & Hn2 & Hp2 & Hth & Hst & Hef2 & Hpf2).
  assert (Hnone : hc_abs (at_table s2) !! ip = None) by (by apply (hc_abs_thinned 0 0 [] s 1 0 [a] s2 ip)).
  assert (Hb : hc_bucket hash (at_table s) ip = hc_bucket hash (at_table s2) ip)
    by (unfold hc_bucket; by rewrite Hnb).
  destruct (hc_link_spec hash (at_table s2) ip a (ok_table _ _ _ _ Hok2) Hnone) as [Hw Ha].
  set (t := hc_link _ _ _) in Hw, Ha.
  destruct (at_ok_add 0 a ip (ARPEntry_new ip now) t s2) as [Hok3 Hst3]; try done.
  assert (Hnew : at_entries (add_entry a (ARPEntry_new ip now) t s2) !! a = Some (ARPEntry_new ip now))
    by (apply (lookup_insert_eq (at_entries s2))).
  exists (Some a), (add_entry a (ARPEntry_new ip now) t s2), killed. split_and!; try done.
  - rewrite <- (app_nil_r (map Kill killed)). eapply hbind_run; [exact E|].
    rewrite !hbind_modify. unfold hc_set. cbn [it_element it_pos it_bucket].
    rewrite decide_False by done. rewrite andb_false_r. cbn [it_element it_pos it_bucket].
    rewrite Hb. done.
  - by rewrite Hst3.
  - apply (ok_find _ _ _ _ Hok3). by exists (ARPEntry_new ip now).
  - unfold add_entry. cbn [set_age set_table set_entries at_entries].
    rewrite delete_insert_id; [done|].
    apply (ok_fresh _ _ _ _ Hok2). apply list_elem_of_here.
Qed.

(** ** Small steps that keep the invariant *)
Lemma s32_congr x y : (exists k, x = y + k * 4294967296) -> s32 x = s32 y.
Proof.
  intros [k ->]. unfold s32. f_equal.
  replace (y + k * 4294967296 + 2147483648) with (y + 2147483648 + k * 4294967296) by lia.
  by apply Z.mod_add.
Qed.
Lemma u32_congr z : exists k, u32 z = z + k * 4294967296.
Proof. exists (- (z / 4294967296)). unfold u32. rewrite Z.mod_eq by done. lia. Qed.

Lemma stored_in_perm m l l' : l ≡ₚ l' -> stored_in m l ≡ₚ stored_in m l'.
Proof. intros Hp. unfold stored_in. by apply bind_Permutation. Qed.

Lemma age_erase_perm a l : a ∈ l -> a :: age_erase a l ≡ₚ l.
Proof.
  induction l as [|b l IH]; intros Ha; [by apply elem_of_nil in Ha|]. simpl.
  case_decide as E; [by subst|]. rewrite list.elem_of_cons in Ha. destruct Ha as [|Ha]; [done|].
  by rewrite perm_swap, IH.
Qed.
Lemma age_insert_perm pos a l : age_insert pos a l ≡ₚ a :: l.
Proof.
  induction l as [|b l IH]; [done|]. simpl. case_decide; [done|]. rewrite IH. apply perm_swap.
Qed.
Lemma age_after_sub a l b : b ∈ age_after a l -> b ∈ l.
Proof.
  induction l as [|c l IH]; [done|]. simpl. rewrite list.elem_of_cons. case_decide; [by right|].
  intros Hb. right. by apply IH.
Qed.

Lemma at_ok_reorder de dp x s l :
  at_ok de dp x s -> l ≡ₚ at_age s -> at_ok de dp x (set_age l s) /\ stored (set_age l s) ≡ₚ stored s.
Proof.
  intros [] Hl. assert (Hst : stored (set_age l s) ≡ₚ stored s) by (by apply stored_in_perm).
  split; [|done].
  split; cbn [set_age at_table at_age at_entries at_alloc at_entry_count at_packet_count]; try done.
  - by rewrite Hl.
  - intros a. by rewrite Hl.
  - by rewrite Hl.
  - by rewrite Hst.
Qed.

Lemma at_ok_table de dp x s t :
  at_ok de dp x s -> hc_wf hash t -> hc_abs t = hc_abs (at_table s) -> at_ok de dp x (set_table t s).
Proof. intros [] Hw Ha. split; try done. intros ip a. simpl. rewrite Ha. apply ok_find0. Qed.
Lemma at_ok_balance de dp x s :
  at_ok de dp x s -> at_ok de dp x (set_table (hc_balance hash (at_table s)) s).
Proof.
  intros Hok. destruct (hc_balance_spec hash (at_table s) (ok_table _ _ _ _ Hok)).
  by apply at_ok_table.
Qed.

(** An assignment that leaves the queue alone. *)
Lemma at_ok_mod de dp x a e e' s :
  at_ok de dp x s -> at_entries s !! a = Some e -> ae_ip e' = ae_ip e -> ae_queue e' = ae_queue e ->
  ae_entry_packet_count e' = ae_entry_packet_count e ->
  at_ok de dp x (set_entries (<[a := e']> (at_entries s)) s) /\
  stored (set_entries (<[a := e']> (at_entries s)) s) = stored s.
Proof.
  intros Hok He Hip Hq Hn. split.
  - apply (at_ok_update de dp dp x a e e' (at_packet_count s) s Hok He Hip); rewrite ?Hq; try lia.
    + rewrite Hn. by apply (ok_queues _ _ _ _ Hok a).
    + apply Hok.
  - unfold stored. cbn [set_entries at_age at_entries]. apply stored_in_ext. intros b _.
    unfold queue_of. destruct (decide (b = a)) as [-> |].
    + by rewrite lookup_insert_eq, He.
    + by rewrite lookup_insert_ne.
Qed.

(** ** The whole invariant *)
Definition queues_fit (s : ARPTable) : Prop :=
  forall a e, at_entries s !! a = Some e ->
    c_entry_packet_capacity (at_conf s) = 0 \/
    ae_entry_packet_count e <= c_entry_packet_capacity (at_conf s).

Record at_good (s : ARPTable) : Prop := {
  good_ok : at_ok 0 0 [] s;
  good_conf : conf_ok (at_conf s);
  good_packets : packets_fit s;
  good_entries : entries_fit s;
  good_queues : queues_fit s
}.

Lemma queues_fit_thinned de dp x de' dp' x' s s' :
  at_ok de dp x s -> at_ok de' dp' x' s' -> at_conf s' = at_conf s ->
  thinned (at_entries s) (at_entries s') -> queues_fit s -> queues_fit s'.
Proof.
  intros Hok Hok' Hc Hth Hq a e' He'. destruct (Hth a e' He') as (e & He & _ & [pre Hs]).
  rewrite Hc. destruct (Hq a e He) as [|Hle]; [by left|right].
  rewrite (ok_queues _ _ _ _ Hok' a e' He'). rewrite (ok_queues _ _ _ _ Hok a e He) in Hle.
  rewrite Hs, length_app in Hle. lia.
Qed.

(** Setting an entry apart, [queues_fit] is about each of them. *)
Lemma queues_fit_insert s a e :
  queues_fit s ->
  (c_entry_packet_capacity (at_conf s) = 0 \/ ae_entry_packet_count e <= c_entry_packet_capacity (at_conf s)) ->
  forall n k d, queues_fit (set_counts n k d (set_entries (<[a := e]> (at_entries s)) s)).
Proof.
  intros Hq He n k d b e0. cbn [set_counts set_entries at_entries at_conf].
  destruct (decide (b = a)) as [-> |]; [rewrite lookup_insert_eq; by intros [= <-]|].
  rewrite lookup_insert_ne by done. apply Hq.
Qed.

Lemma ensure_good mem ip now s :
  at_good s -> at_entry_count s + 1 < 4294967296 ->
  exists r s' killed, ensure mem ip now s = Ok (r, s', map Kill killed) /\ at_good s' /\
    at_conf s' = at_conf s /\ stored s = killed ++ stored s' /\
    at_entry_count s' <= at_entry_count s + 1 /\ at_packet_count s' <= at_packet_count s /\
    match hc_abs (at_table s) !! ip, r with
    | Some a, Some b => b = a /\ s' = s /\ killed = []
    | Some _, None => False
    | None, None => mem = false /\ s' = s /\ killed = []
    | None, Some a => hc_abs (at_table s') !! ip = Some a /\
        at_entries s' !! a = Some (ARPEntry_new ip now) /\
        thinned (at_entries s) (delete a (at_entries s'))
    end.
Proof.
  intros [Hok Hc Hp He Hq] Hr.
  destruct (ensure_run mem ip now s Hok Hc Hp He Hr)
    as (r & s' & killed & E & Hok' & Hc' & Hst & Hp' & He' & Hn & Hk & Hcase).
  assert (Hsame : s' = s -> killed = []).
  { intros ->. assert (length (stored s) = length (killed ++ stored s)) as Hl by congruence.
    rewrite length_app in Hl. destruct killed; [done|]. simpl in Hl. lia. }
  exists r, s', killed. split; [done|]. split; [split|]; try done.
  - by rewrite Hc'.
  - destruct (hc_abs (at_table s) !! ip); destruct r as [b|]; [|done| |].
    + by destruct Hcase as [_ ->].
    + destruct Hcase as (_ & Hb & Hth). intros a e Ha. destruct (decide (a = b)) as [-> |Hne].
      * rewrite Hb in Ha. injection Ha as <-. rewrite Hc'. cbn [ARPEntry_new ae_entry_packet_count].
        right. apply Hc.
      * destruct (Hth a e) as (e0 & He0 & _ & [pre Hs]); [by rewrite lookup_delete_ne|].
        rewrite Hc'. destruct (Hq a e0 He0) as [|Hle]; [by left|right].
        rewrite (ok_queues _ _ _ _ Hok' a e Ha). rewrite (ok_queues _ _ _ _ Hok a e0 He0) in Hle.
        rewrite Hs, length_app in Hle. lia.
    + by destruct Hcase as [_ ->].
  - split_and!; try done. destruct (hc_abs (at_table s) !! ip); destruct r; try done;
      destruct Hcase as [? ?]; split_and!; try done; by apply Hsame.
Qed.
