(* ===== verification/ARPTableOps.v ===== *)
(** * What [ARPTable] promises

    Its operations under the invariant of [ARPTable], one after the other, and what they do
    in any order: nothing is touched after it was freed, nothing is lost, capacities hold. *)
From Stdlib Require Import ZArith Lia.
From stdpp Require Import base list numbers option gmap.
From S2P Require Import Prelude TimerSet HashMap HashContainer Packet Wire Mobility ARPTable.

(** ** The operations keep the invariant *)

(** The entry [insert] leaves: known until it expires, its queue gone if it was asked for. *)
Definition inserted (eth : Z) (now : Z) (want_head : bool) (e e' : ARPEntry) : Prop :=
  ae_ip e' = ae_ip e /\ ae_eth e' = eth /\ ae_known e' = negb (is_broadcast eth) /\
  ae_live_at_j e' = now /\ ae_queue e' = (if want_head then [] else ae_queue e).

Lemma insert_tail_run mem ip eth (want : bool) now a e s s0 k :
  ensure mem ip now s0 = Ok (Some a, s, map Kill k) ->
  at_good s -> at_entries s !! a = Some e ->
  let head := if want then ae_queue e else [] in
  exists s' e', ARPTable_insert mem ip eth want now s0 = Ok ((0, head), s', map Kill k) /\
    at_good s' /\ at_conf s' = at_conf s /\ stored s ≡ₚ head ++ stored s' /\
    at_entry_count s' = at_entry_count s /\ at_packet_count s' <= at_packet_count s /\
    hc_abs (at_table s') = hc_abs (at_table s) /\
    at_entries s' = <[a := e']> (at_entries s) /\ inserted eth now want e e'.
Proof.
  intros E [Hok Hc Hp He Hq] Ha head. 
  set (e1 := set_polled 0 (u32 (now - CLICK_HZ)) (set_live_at now (set_eth eth (negb (is_broadcast eth)) e))).
  destruct (at_ok_mod 0 0 [] a e e1 s Hok Ha) as [Hok1 Hst1]; try done.
  set (s1 := set_entries (<[a := e1]> (at_entries s)) s) in *.
  assert (Ha1 : at_entries s1 !! a = Some e1) by apply lookup_insert_eq.
  set (l2 := match age_after a (at_age s1) with [] => at_age s1 | _ => age_erase a (at_age s1) ++ [a] end).
  assert (Hl2 : l2 ≡ₚ at_age s1).
  { unfold l2. destruct (age_after a (at_age s1)); [done|].
    rewrite <- Permutation_cons_append. apply age_erase_perm, (ok_dom _ _ _ _ Hok1). by exists e1. }
  destruct (at_ok_reorder _ _ _ _ _ Hok1 Hl2) as [Hok2 Hst2].
  set (s2 := set_age l2 s1) in *.
  set (e3 := if want then set_queue [] 0 e1 else e1).
  set (s3 := if want then set_entries (<[a := e3]> (at_entries s2)) (add_packets (- ae_entry_packet_count e1) s2) else s2).
  pose proof (ok_queues _ _ _ _ Hok a e Ha) as Hlen.
  pose proof (ok_packets _ _ _ _ Hok) as Hpk. pose proof (ok_range _ _ _ _ Hok) as Hr.
  assert (Hle : Z.of_nat (length (ae_queue e)) <= at_packet_count s).
  { destruct (stored_in_split (at_entries s) (at_age s) a) as (rest & H1 & _);
      [apply Hok|apply (ok_dom _ _ _ _ Hok); by exists e|].
    rewrite Hpk. unfold stored. rewrite H1, length_app, (queue_of_eq _ _ _ Ha). lia. }
  assert (H3 : at_ok 0 0 [] s3 /\ stored s2 ≡ₚ head ++ stored s3 /\ at_entries s3 = <[a := e3]> (at_entries s) /\
    at_packet_count s3 <= at_packet_count s).
  { unfold s3, e3, head. destruct want; [|split_and!; try done; lia].
    assert (Hcnt : u32 (at_packet_count s2 + - ae_entry_packet_count e1) =
                   at_packet_count s - Z.of_nat (length (ae_queue e))).
    { unfold s2, s1, e1. cbn [at_packet_count set_age set_entries ae_entry_packet_count set_polled set_live_at set_eth].
      rewrite Hlen. apply u32_small. lia. }
    pose proof (at_ok_update 0 0 0 [] a e1 (set_queue [] 0 e1) (at_packet_count s - Z.of_nat (length (ae_queue e))) s2
      Hok2 Ha1 eq_refl eq_refl) as Hup.
    destruct (stored_in_split (at_entries s2) (at_age s2) a) as (rest & H1 & H2);
      [apply Hok2|apply (ok_dom _ _ _ _ Hok2); by exists e1|].
    split_and!.
    - unfold add_packets. rewrite Hcnt. apply (Hup); cbn; lia.
    - unfold stored. cbn [set_entries add_packets set_counts at_age at_entries].
      rewrite (H2 (set_queue [] 0 e1)), H1, (queue_of_eq (at_entries s2) a e1 Ha1). done.
    - unfold s2, s1. cbn [set_entries add_packets set_counts at_entries set_age]. apply insert_insert_eq.
    - cbn [set_entries add_packets set_counts at_packet_count]. rewrite Hcnt. lia. }
  destruct H3 as (Hok3 & Hst3 & Hent3 & Hpk3).
  assert (Hc3 : at_conf s3 = at_conf s) by (unfold s3; by destruct want).
  assert (Hn3 : at_entry_count s3 = at_entry_count s) by (unfold s3; by destruct want).
  assert (Ht3 : at_table s3 = at_table s) by (unfold s3; by destruct want).
  exists (set_table (hc_balance hash (at_table s3)) s3), e3. split_and!.
  - unfold ARPTable_insert. rewrite <- (app_nil_r (map Kill k)). eapply hbind_run; [exact E|].
    cbv beta match. rewrite (hbind_silent _ _ _ _ _ (amod_run _ _ _ _ Ha)).
    erewrite hbind_silent by (apply amod_run, lookup_insert_eq).
    erewrite hbind_silent by (apply amod_run, lookup_insert_eq).
    cbn [set_entries at_entries]. rewrite !insert_insert_eq. 
    match goal with |- hbind _ _ ?st = _ => change st with s1 end. rewrite hbind_modify.
    assert (Hage : (match age_after a (at_age s1) with [] => s1
                    | _ => set_age (age_erase a (at_age s1) ++ [a]) s1 end) = s2).
    { unfold s2, l2. by destruct (age_after a (at_age s1)). }
    rewrite Hage. unfold head, s3. destruct want.
    + rewrite hbind_assoc. rewrite (hbind_silent _ _ _ _ _ (aget_run a e1 s2 Ha1)).
      rewrite hbind_assoc, hbind_modify, hbind_assoc.
      erewrite hbind_silent by (apply amod_run; exact Ha1). rewrite hbind_ret_l, hbind_modify. done.
    + rewrite hbind_ret_l, hbind_modify. done.
  - split.
    + by apply at_ok_balance.
    + cbn. by rewrite Hc3.
    + unfold packets_fit in *. cbn [set_table at_conf at_packet_count]. rewrite Hc3. lia.
    + unfold entries_fit in *. cbn [set_table at_conf at_entry_count]. by rewrite Hc3, Hn3.
    + intros b eb. cbn [set_table at_entries at_conf]. rewrite Hent3, Hc3.
      destruct (decide (b = a)) as [-> |]; [|rewrite lookup_insert_ne by done; apply Hq].
      rewrite lookup_insert_eq. intros [= <-]. pose proof (Hq a e Ha) as Hqa.
      pose proof (co_entry_packet _ Hc). unfold e3. destruct want; [right; cbn; lia|exact Hqa].
  - done.
  - rewrite <- Hst1, <- Hst2. exact Hst3.
  - done.
  - done.
  - cbn [set_table at_table]. rewrite (proj2 (hc_balance_spec hash (at_table s3) (ok_table _ _ _ _ Hok3))).
    by rewrite Ht3.
  - done.
  - unfold e3, inserted. by destruct want.
Qed.

Lemma insert_run mem ip eth (want : bool) now s :
  at_good s -> at_entry_count s + 1 < 4294967296 ->
  exists r head s' killed,
    ARPTable_insert mem ip eth want now s = Ok ((r, head), s', map Kill killed) /\
    at_good s' /\ at_conf s' = at_conf s /\ stored s ≡ₚ killed ++ head ++ stored s' /\
    at_entry_count s' <= at_entry_count s + 1 /\ at_packet_count s' <= at_packet_count s /\
    match hc_abs (at_table s) !! ip with
    | Some a => r = 0 /\ killed = [] /\ hc_abs (at_table s') = hc_abs (at_table s) /\
        exists e e', at_entries s !! a = Some e /\ at_entries s' = <[a := e']> (at_entries s) /\
          inserted eth now want e e' /\ head = (if want then ae_queue e else [])
    | None =>
        (r = 0 /\ head = [] /\ exists a e', hc_abs (at_table s') !! ip = Some a /\
          at_entries s' !! a = Some e' /\ inserted eth now want (ARPEntry_new ip now) e' /\
          thinned (at_entries s) (delete a (at_entries s'))) \/
        (r = - ENOMEM /\ mem = false /\ s' = s /\ head = [] /\ killed = [])
    end.
Proof.
  intros Hg Hr.
  destruct (ensure_good mem ip now s Hg Hr) as (oa & s1 & killed & E & Hg1 & Hc1 & Hst1 & Hn1 & Hp1 & Hcase).
  destruct oa as [a|].
  - assert (exists e, at_entries s1 !! a = Some e) as [e He].
    { destruct (hc_abs (at_table s) !! ip) as [b|] eqn:Eb.
      - destruct Hcase as (-> & -> & _). apply (ok_find _ _ _ _ (good_ok _ Hg)) in Eb as (e & ? & _).
        by exists e.
      - destruct Hcase as (_ & ? & _). by eexists. }
    destruct (insert_tail_run mem ip eth want now a e s1 s killed E Hg1 He)
      as (s2 & e2 & E2 & Hg2 & Hc2 & Hst2 & Hn2 & Hp2 & Ht2 & Hent2 & Hins).
    exists 0, (if want then ae_queue e else []), s2, killed. split_and!; try done; try lia; try congruence.
    + by rewrite Hst1, Hst2.
    + destruct (hc_abs (at_table s) !! ip) as [b|] eqn:Eb.
      * destruct Hcase as (-> & -> & ->). split_and!; try done. by exists e, e2.
      * left. destruct Hcase as (Hf & Hnew & Hth). rewrite He in Hnew. injection Hnew as ->.
        split_and!; [done|by destruct want|]. exists a, e2. split_and!; try done.
        -- by rewrite Ht2.
        -- rewrite Hent2. apply lookup_insert_eq.
        -- rewrite Hent2, delete_insert_eq. done.
  - destruct (hc_abs (at_table s) !! ip) as [b|] eqn:Eb; [done|]. destruct Hcase as (-> & -> & ->).
    exists (- ENOMEM), [], s, []. split_and!; try done; try lia; [|right; by split_and!].
    unfold ARPTable_insert. change (map Kill []) with ([] ++ [] : list event).
    by eapply hbind_run.
Qed.

Lemma expired_refreshed e now t :
  expired (set_live_at (u32 (now - t)) e) now t = false.
Proof.
  unfold expired, click_jiffies_less. cbn [ae_live_at_j set_live_at].
  rewrite (s32_congr _ 0); [done|]. destruct (u32_congr (now - t)) as [k1 ->].
  destruct (u32_congr (now - t + k1 * 4294967296 + t)) as [k2 ->]. exists (k1 + k2). lia.
Qed.
Lemma expired_not_old e now t :
  click_jiffies_less (ae_live_at_j e) (u32 (now - t)) = false -> expired e now t = false.
Proof.
  unfold expired, click_jiffies_less. intros E. rewrite (s32_congr _ (ae_live_at_j e - u32 (now - t))).
  - by rewrite E.
  - destruct (u32_congr (now - t)) as [k1 ->]. destruct (u32_congr (ae_live_at_j e + t)) as [k2 ->].
    exists (k1 + k2). lia.
Qed.

Lemma age_advance_run live l s :
  (forall b, b ∈ l -> is_Some (at_entries s !! b)) -> exists next, age_advance live l s = Ok (next, s, []).
Proof.
  induction l as [|b l IH]; intros Hl; cbn [age_advance]; [by exists None|].
  destruct (Hl b) as [e He]; [apply list_elem_of_here|].
  rewrite (hbind_silent _ _ _ _ _ (aget_run _ _ _ He)). case_match.
  - apply IH. intros c Hc. apply Hl. by right.
  - by exists (Some b).
Qed.

Lemma refresh_live_run a e now s :
  at_ok 0 0 [] s -> at_entries s !! a = Some e ->
  exists s' e', refresh_live a now s = Ok (tt, s', []) /\ at_ok 0 0 [] s' /\
    stored s' ≡ₚ stored s /\ at_conf s' = at_conf s /\ at_table s' = at_table s /\
    at_entry_count s' = at_entry_count s /\ at_packet_count s' = at_packet_count s /\
    at_entries s' = <[a := e']> (at_entries s) /\
    e' = set_live_at (ae_live_at_j e') e /\ expired e' now (at_timeout_j s) = false.
Proof.
  intros Hok He. unfold refresh_live. rewrite hbind_get.
  destruct (Z.eqb_spec (at_timeout_j s) 0) as [Ht|Ht].
  { exists s, e. rewrite insert_id by done. split_and!; try done; [by destruct e|].
    unfold expired. rewrite Ht. apply andb_false_r. }
  cbv zeta. rewrite (hbind_silent _ _ _ _ _ (aget_run _ _ _ He)).
  destruct (click_jiffies_less (ae_live_at_j e) (u32 (now - at_timeout_j s))) eqn:El.
  2: { exists s, e. rewrite insert_id by done. split_and!; try done; [by destruct e|].
       by apply expired_not_old. }
  rewrite (hbind_silent _ _ _ _ _ (amod_run _ _ _ _ He)).
  set (e1 := set_live_at (u32 (now - at_timeout_j s)) e).
  destruct (at_ok_mod 0 0 [] a e e1 s Hok He) as [Hok1 Hst1]; try done.
  set (s1 := set_entries (<[a := e1]> (at_entries s)) s) in *.
  destruct (age_advance_run (u32 (now - at_timeout_j s)) (age_after a (at_age s)) s1) as [next En].
  { intros b Hb. apply (ok_dom _ _ _ _ Hok1). by eapply age_after_sub. }
  rewrite (hbind_silent _ _ _ _ _ En). case_decide as Ed.
  - exists s1, e1. split_and!; try done; [by rewrite Hst1|apply expired_refreshed].
  - assert (Hperm : age_insert next a (age_erase a (at_age s1)) ≡ₚ at_age s1).
    { rewrite age_insert_perm. apply age_erase_perm, (ok_dom _ _ _ _ Hok1). exists e1.
      apply lookup_insert_eq. }
    destruct (at_ok_reorder _ _ _ _ _ Hok1 Hperm) as [Hok2 Hst2].
    exists (set_age (age_insert next a (age_erase a (at_age s1))) s1), e1.
    split_and!; try done; [by rewrite Hst2, Hst1|apply expired_refreshed].
Qed.

(** The entry [ensure] finds or makes. *)
Definition entry_for (s : ARPTable) (ip now : Z) (e : ARPEntry) : Prop :=
  match hc_abs (at_table s) !! ip with
  | Some a => at_entries s !! a = Some e
  | None => e = ARPEntry_new ip now
  end.

Lemma over_capacity_mono c n m : n <= m -> over_capacity c m = false -> over_capacity c n = false.
Proof.
  unfold over_capacity. intros Hnm. rewrite !andb_false_iff, !Z.ltb_ge. intros [|]; [by left|right; lia].
Qed.

Lemma at_ok_add_packet s :
  at_ok 0 0 [] s -> at_packet_count s + 1 < 4294967296 ->
  at_ok 0 1 [] (add_packets 1 s) /\ at_packet_count (add_packets 1 s) = at_packet_count s + 1.
Proof.
  intros [] Hr. assert (Hc : u32 (at_packet_count s + 1) = at_packet_count s + 1) by (apply u32_small; lia).
  split; [|exact Hc].
  split; cbn [add_packets set_counts at_table at_age at_entries at_alloc at_entry_count at_packet_count];
    try done; rewrite Hc; [|lia].
  change (stored (add_packets 1 s)) with (stored s). lia.
Qed.

(** The part of [append_query] after the capacity check. *)
Definition append_tail (a : nat) (p : packet) (now : Z) : table_handler Z :=
  hmodify (add_packets 1) ;;;
  s <-- hget ;;
  let cap := c_packet_capacity (at_conf s) in
  (if negb (cap =? 0) && (cap <? at_packet_count s) then slim now else hret tt) ;;;
  amod a (fun e => set_queue (ae_queue e ++ [p]) (u32 (ae_entry_packet_count e + 1)) e) ;;;
  e <-- aget a ;;
  r <-- (if allow_poll e now then amod a (mark_poll now) ;;; hret 1 else hret 0) ;;
  hmodify (fun s => set_table (hc_balance IPAddress_hashcode (at_table s)) s) ;;;
  hret r.

Lemma append_slim a e now s :
  at_ok 0 0 [] s -> conf_ok (at_conf s) -> packets_fit s -> entries_fit s ->
  at_entries s !! a = Some e -> expired e now (at_timeout_j s) = false ->
  at_packet_count s + 1 < 4294967296 ->
  let s3 := add_packets 1 s in
  let cap := c_packet_capacity (at_conf s3) in
  exists s4 killed e4,
    (if negb (cap =? 0) && (cap <? at_packet_count s3) then slim now else hret tt) s3 =
      Ok (tt, s4, map Kill killed) /\
    at_ok 0 1 [] s4 /\ at_conf s4 = at_conf s /\ at_entry_count s4 <= at_entry_count s /\
    at_packet_count s4 <= at_packet_count s + 1 /\
    stored s = killed ++ stored s4 /\ thinned (at_entries s) (at_entries s4) /\
    at_entries s4 !! a = Some e4 /\ trims e e4 /\ packets_fit s4 /\
    (c_packet_capacity (at_conf s) = 0 \/ at_packet_count s < c_packet_capacity (at_conf s) ->
     killed = [] /\ e4 = e).
Proof.
  intros Hok Hc Hp He Ha Hx Hr s3 cap.
  destruct (at_ok_add_packet s Hok Hr) as [Hok3 Hn3]. fold s3 in Hok3, Hn3.
  change (at_conf s3) with (at_conf s) in cap.
  destruct (negb (cap =? 0) && (cap <? at_packet_count s3)) eqn:Eb.
  - destruct (slim_run 0 1 [] now s3 Hok3 Hc ltac:(lia) ltac:(lia))
      as (s4 & killed & E & Hok4 & Hc4 & _ & Hn4 & Hp4 & Hth & Hst & Hkeep & _ & Hfit).
    destruct (Hkeep a e Ha Hx He) as [e4 He4]. destruct (Hth a e4 He4) as (e' & He' & Ht).
    assert (e' = e) as -> by (change (at_entries s3) with (at_entries s) in He'; congruence).
    exists s4, killed, e4. split_and!; try done; [lia|].
    apply andb_true_iff in Eb as [Eb1 Eb2]. apply negb_true_iff, Z.eqb_neq in Eb1.
    apply Z.ltb_lt in Eb2. unfold cap in *. intros [|]; lia.
  - exists s3, [], e. split_and!; try done; try lia.
    + intros b eb Hb. exists eb. split; [done|apply trims_refl].
    + apply trims_refl.
    + apply andb_false_iff in Eb as [Eb|Eb].
      * left. apply negb_false_iff, Z.eqb_eq in Eb. done.
      * right. apply Z.ltb_ge in Eb. done.
Qed.

Lemma append_tail_run a e p now s :
  at_good s -> at_entries s !! a = Some e -> expired e now (at_timeout_j s) = false ->
  c_entry_packet_capacity (at_conf s) = 0 \/ ae_entry_packet_count e < c_entry_packet_capacity (at_conf s) ->
  at_packet_count s + 1 < 4294967296 ->
  exists s' killed e',
    append_tail a p now s = Ok (Z.b2z (allow_poll e now), s', map Kill killed) /\
    at_good s' /\ at_conf s' = at_conf s /\ at_entry_count s' <= at_entry_count s /\
    at_packet_count s' <= at_packet_count s + 1 /\
    stored s ++ [p] ≡ₚ killed ++ stored s' /\
    at_entries s' !! a = Some e' /\ ae_ip e' = ae_ip e /\ ae_known e' = ae_known e /\
    exists q, ae_queue e' = q ++ [p] /\ q `suffix_of` ae_queue e /\
      (c_packet_capacity (at_conf s) = 0 \/ at_packet_count s < c_packet_capacity (at_conf s) ->
       killed = [] /\ q = ae_queue e).
Proof.
  intros [Hok Hc Hp He Hq] Ha Hx Hcap Hr.
  destruct (append_slim a e now s Hok Hc Hp He Ha Hx Hr)
    as (s4 & killed & e4 & E4 & Hok4 & Hc4 & Hn4 & Hpk4 & Hst4 & Hth4 & Ha4 & [Ht4 Hsuf] & Hpf4 & Hroom).
  pose proof (ok_queues _ _ _ _ Hok4 a e4 Ha4) as Hlen4.
  pose proof (ok_packets _ _ _ _ Hok4) as Hpkt4. pose proof (ok_range _ _ _ _ Hok4) as Hr4.
  destruct (stored_in_split (at_entries s4) (at_age s4) a) as (rest & H1 & H2);
    [apply Hok4|apply (ok_dom _ _ _ _ Hok4); by exists e4|].
  assert (Hle : Z.of_nat (length (ae_queue e4)) + 1 <= at_packet_count s4).
  { rewrite Hpkt4. unfold stored. rewrite H1, length_app, (queue_of_eq _ _ _ Ha4). lia. }
  set (e5 := set_queue (ae_queue e4 ++ [p]) (u32 (ae_entry_packet_count e4 + 1)) e4).
  assert (Hn5 : u32 (ae_entry_packet_count e4 + 1) = Z.of_nat (length (ae_queue e4)) + 1)
    by (rewrite u32_small; lia).
  assert (Hlen5 : ae_entry_packet_count e5 = Z.of_nat (length (ae_queue e5))).
  { unfold e5. cbn [set_queue ae_entry_packet_count ae_queue]. rewrite Hn5, length_app. simpl. lia. }
  assert (Hok5 : at_ok 0 0 [] (set_entries (<[a := e5]> (at_entries s4)) s4)).
  { apply (at_ok_update 0 1 0 [] a e4 e5 (at_packet_count s4) s4 Hok4 Ha4); try done; [|lia].
    unfold e5. cbn [set_queue ae_queue]. rewrite length_app. simpl. lia. }
  set (s5 := set_entries _ _) in Hok5.
  assert (Hst5 : stored s5 ≡ₚ stored s4 ++ [p]).
  { unfold stored, s5. cbn [set_entries at_age at_entries]. rewrite (H2 e5), H1, (queue_of_eq _ _ _ Ha4).
    unfold e5. cbn [set_queue ae_queue]. rewrite <- !app_assoc. apply Permutation_app_head.
    simpl. by rewrite Permutation_cons_append. }
  assert (Ha5 : at_entries s5 !! a = Some e5) by apply lookup_insert_eq.
  assert (Hpoll : allow_poll e5 now = allow_poll e now) by (unfold e5; by rewrite Ht4).
  set (e6 := if allow_poll e now then mark_poll now e5 else e5).
  set (s6 := if allow_poll e now then set_entries (<[a := e6]> (at_entries s5)) s5 else s5).
  assert (H6 : at_ok 0 0 [] s6 /\ stored s6 = stored s5 /\ at_entries s6 !! a = Some e6).
  { unfold s6, e6. destruct (allow_poll e now); [|done].
    destruct (at_ok_mod 0 0 [] a e5 (mark_poll now e5) s5 Hok5 Ha5) as [? ?]; try done.
    split_and!; [done|done|apply lookup_insert_eq]. }
  destruct H6 as (Hok6 & Hst6 & Ha6).
  assert (Hc6 : at_conf s6 = at_conf s) by (unfold s6; by destruct (allow_poll e now)).
  assert (Hn6 : at_entry_count s6 = at_entry_count s4) by (unfold s6; by destruct (allow_poll e now)).
  assert (Hp6 : at_packet_count s6 = at_packet_count s4) by (unfold s6; by destruct (allow_poll e now)).
  assert (Hent6 : forall b, b <> a -> at_entries s6 !! b = at_entries s4 !! b).
  { intros b Hb. unfold s6, s5. destruct (allow_poll e now); cbn [set_entries at_entries];
      by rewrite !lookup_insert_ne by done. }
  exists (set_table (hc_balance hash (at_table s6)) s6), killed, e6. split_and!.
  - unfold append_tail. rewrite hbind_modify, hbind_get. rewrite <- (app_nil_r (map Kill killed)).
    eapply hbind_run; [exact E4|]. rewrite (hbind_silent _ _ _ _ _ (amod_run _ _ _ _ Ha4)).
    fold e5. fold s5. rewrite (hbind_silent _ _ _ _ _ (aget_run a e5 s5 Ha5)). rewrite Hpoll.
    unfold s6, e6. destruct (allow_poll e now).
    + rewrite hbind_assoc. rewrite (hbind_silent _ _ _ _ _ (amod_run _ _ _ _ Ha5)).
      rewrite hbind_ret_l, hbind_modify. done.
    + rewrite hbind_ret_l, hbind_modify. done.
  - split.
    + by apply at_ok_balance.
    + cbn. by rewrite Hc6.
    + unfold packets_fit in *. cbn [set_table at_conf at_packet_count]. by rewrite Hc6, Hp6, <- Hc4.
    + unfold entries_fit in *. cbn [set_table at_conf at_entry_count]. rewrite Hc6, Hn6.
      by eapply over_capacity_mono.
    + intros b eb. cbn [set_table at_entries at_conf]. rewrite Hc6.
      destruct (decide (b = a)) as [-> |Hb].
      * rewrite Ha6. intros [= <-].
        assert (ae_entry_packet_count e6 = Z.of_nat (length (ae_queue e4)) + 1) as ->.
        { transitivity (ae_entry_packet_count e5); [unfold e6; by destruct (allow_poll e now)|]. exact Hn5. }
        destruct Hcap as [|Hcap]; [by left|right].
        rewrite (ok_queues _ _ _ _ Hok a e Ha) in Hcap. destruct Hsuf as [pre Hpre].
        rewrite Hpre, length_app in Hcap. lia.
      * rewrite Hent6 by done. rewrite <- Hc4. by apply (queues_fit_thinned 0 0 [] 0 1 [] s s4).
  - done.
  - cbn [set_table at_entry_count]. lia.
  - cbn [set_table at_packet_count]. lia.
  - change (stored (set_table _ s6)) with (stored s6). rewrite Hst6, Hst5, Hst4, <- app_assoc. done.
  - done.
  - unfold e6, e5. rewrite Ht4. by destruct (allow_poll e now).
  - unfold e6, e5. rewrite Ht4. by destruct (allow_poll e now).
  - exists (ae_queue e4). split_and!; [unfold e6; by destruct (allow_poll e now)|done|].
    intros Hrm. destruct (Hroom Hrm) as [-> ->]. done.
Qed.

Lemma append_run mem ip p now s :
  at_good s -> at_entry_count s + 1 < 4294967296 -> at_packet_count s + 1 < 4294967296 ->
  exists r s' killed,
    append_query mem ip p now s = Ok (r, s', map Kill killed) /\
    at_good s' /\ at_conf s' = at_conf s /\ at_entry_count s' <= at_entry_count s + 1 /\
    at_packet_count s' <= at_packet_count s + 1 /\
    ((r < 0 /\ stored s ≡ₚ killed ++ stored s' /\
      (r = - EAGAIN -> exists a e, hc_abs (at_table s) !! ip = Some a /\ at_entries s !! a = Some e /\
         known e now (at_timeout_j s) = true) /\
      (mem = false \/ exists e0, entry_for s ip now e0 /\
         (known e0 now (at_timeout_j s) = true \/
          c_entry_packet_capacity (at_conf s) <> 0 /\
          c_entry_packet_capacity (at_conf s) <= ae_entry_packet_count e0))) \/
     (exists e0, entry_for s ip now e0 /\ known e0 now (at_timeout_j s) = false /\
      r = Z.b2z (allow_poll e0 now) /\ stored s ++ [p] ≡ₚ killed ++ stored s' /\
      exists a e' q, hc_abs (at_table s') !! ip = Some a /\ at_entries s' !! a = Some e' /\
        ae_known e' = ae_known e0 /\ ae_queue e' = q ++ [p] /\ q `suffix_of` ae_queue e0 /\
        (c_packet_capacity (at_conf s) = 0 \/ at_packet_count s < c_packet_capacity (at_conf s) ->
         q = ae_queue e0 /\ (is_Some (hc_abs (at_table s) !! ip) -> killed = [])))).
Proof.
  intros Hg Hr Hrp.
  destruct (ensure_good mem ip now s Hg Hr) as (oa & s1 & k1 & E & Hg1 & Hc1 & Hst1 & Hn1 & Hp1 & Hcase).
  unfold append_query. destruct oa as [a|].
  2: { exists (- ENOMEM), s1, k1. split.
       { rewrite <- (app_nil_r (map Kill k1)). eapply hbind_run; [exact E|]. reflexivity. }
       clear E. split_and!; try done; try lia.
       left. split_and!; [done|by rewrite Hst1|intros [=]|left].
       destruct (hc_abs (at_table s) !! ip); tauto. }
  assert (exists e, at_entries s1 !! a = Some e /\ entry_for s ip now e /\
    hc_abs (at_table s1) !! ip = Some a /\ ae_ip e = ip) as (e & He & Hfor & Hf1 & Hip).
  { unfold entry_for. destruct (hc_abs (at_table s) !! ip) as [b|] eqn:Eb.
    - destruct Hcase as (-> & -> & _). pose proof Eb as Hf.
      apply (ok_find _ _ _ _ (good_ok _ Hg)) in Eb as (e & ? & ?). by exists e.
    - destruct Hcase as (? & ? & _). by eexists. }
  assert (Hbound : is_Some (hc_abs (at_table s) !! ip) -> k1 = []).
  { intros [b Hb]. rewrite Hb in Hcase. tauto. }
  destruct (known e now (at_timeout_j s1)) eqn:Ek.
  { exists (- EAGAIN), s1, k1. split.
    { rewrite <- (app_nil_r (map Kill k1)). eapply hbind_run; [exact E|]. cbv beta match.
      by rewrite (hbind_silent _ _ _ _ _ (aget_run _ _ _ He)), hbind_get, Ek. }
    clear E. split_and!; try done; try lia.
    left. split_and!; [done|by rewrite Hst1| |].
    - intros _. unfold entry_for in Hfor.
      destruct (hc_abs (at_table s) !! ip) as [b|] eqn:Eb.
      + exists b, e. split_and!; try done. unfold at_timeout_j in *. by rewrite <- Hc1.
      + subst e. done.
    - right. exists e. split; [exact Hfor|left]. unfold at_timeout_j in *. by rewrite <- Hc1. }
  destruct (refresh_live_run a e now s1 (good_ok _ Hg1) He)
    as (s2 & e2 & E2 & Hok2 & Hst2 & Hc2 & Ht2 & Hn2 & Hp2 & Hent2 & He2 & Hx2).
  assert (Ha2 : at_entries s2 !! a = Some e2) by (rewrite Hent2; apply lookup_insert_eq).
  assert (Hg2 : at_good s2).
  { destruct Hg1 as [_ Gc Gp Ge Gq]. split; [done|by rewrite Hc2| | |].
    - unfold packets_fit in *. by rewrite Hc2, Hp2.
    - unfold entries_fit in *. by rewrite Hc2, Hn2.
    - intros b eb. rewrite Hent2, Hc2. destruct (decide (b = a)) as [-> |].
      + rewrite lookup_insert_eq. intros [= <-]. rewrite He2. by apply (Gq a e).
      + rewrite lookup_insert_ne by done. apply Gq. }
  assert (Hpre : forall k, (e <-- aget a ;; s <-- hget ;;
      if known e now (at_timeout_j s) then hret (- EAGAIN)
      else
        refresh_live a now ;;;
        e <-- aget a ;;
        let ecap := c_entry_packet_capacity (at_conf s) in
        if negb (ecap =? 0) && (ecap <=? ae_entry_packet_count e) then
          hmodify add_drop ;;; hret (- ENOMEM)
        else k) s1 =
      (if negb (c_entry_packet_capacity (at_conf s1) =? 0) &&
          (c_entry_packet_capacity (at_conf s1) <=? ae_entry_packet_count e2)
       then Ok (- ENOMEM, add_drop s2, []) else k s2)).
  { intros k. rewrite (hbind_silent _ _ _ _ _ (aget_run _ _ _ He)), hbind_get, Ek.
    rewrite (hbind_silent _ _ _ _ _ E2), (hbind_silent _ _ _ _ _ (aget_run _ _ _ Ha2)).
    cbv zeta. destruct (_ && (_ <=? _)); [by rewrite hbind_modify|reflexivity]. }
  specialize (Hpre (append_tail a p now)). fold (append_tail a p now).
  destruct (negb (c_entry_packet_capacity (at_conf s1) =? 0) &&
          (c_entry_packet_capacity (at_conf s1) <=? ae_entry_packet_count e2)) eqn:Ecap.
  { exists (- ENOMEM), (add_drop s2), k1. split.
    { rewrite <- (app_nil_r (map Kill k1)). eapply hbind_run; [exact E|]. exact Hpre. }
    clear E Hpre E2. split_and!.
    - destruct Hg2 as [[] ? ? ? ?]. by split; [split|..].
    - change (at_conf (add_drop s2)) with (at_conf s2). by rewrite Hc2.
    - change (at_entry_count (add_drop s2)) with (at_entry_count s2). lia.
    - change (at_packet_count (add_drop s2)) with (at_packet_count s2). lia.
    - left. split_and!; [done| |intros [=]|].
      + change (stored (add_drop s2)) with (stored s2). by rewrite Hst1, Hst2.
      + right. exists e. split; [exact Hfor|right]. rewrite He2, Hc1 in Ecap.
        apply andb_true_iff in Ecap as [Ecap1 Ecap2]. apply negb_true_iff, Z.eqb_neq in Ecap1.
        apply Z.leb_le in Ecap2. split; [exact Ecap1|exact Ecap2]. }
  destruct (append_tail_run a e2 p now s2 Hg2 Ha2) as
    (s3 & k3 & e3 & E3 & Hg3 & Hc3 & Hn3 & Hp3 & Hst3 & Ha3 & Hip3 & Hkn3 & q & Hq3 & Hsuf & Hroom).
  { unfold at_timeout_j in *. by rewrite Hc2. }
  { rewrite Hc2. apply andb_false_iff in Ecap as [Ecap|Ecap].
    - left. apply negb_false_iff, Z.eqb_eq in Ecap. done.
    - right. by apply Z.leb_gt in Ecap. }
  { lia. }
  assert (Hpoll : allow_poll e2 now = allow_poll e now) by (by rewrite He2).
  assert (Hq2 : ae_queue e2 = ae_queue e) by (by rewrite He2).
  rewrite Hpoll in E3. rewrite Hq2 in Hsuf, Hroom.
  exists (Z.b2z (allow_poll e now)), s3, (k1 ++ k3). rewrite map_app. split.
  { eapply hbind_run; [exact E|]. cbv beta match. etrans; [exact Hpre|exact E3]. }
  clear E Hpre E2 E3. split_and!; [done| |..].
  - by rewrite Hc3, Hc2.
  - lia.
  - lia.
  - right. exists e. unfold at_timeout_j in *. rewrite <- Hc1.
    split; [exact Hfor|]. split; [exact Ek|]. split; [reflexivity|]. split.
    + rewrite Hst1, <- !app_assoc. apply Permutation_app_head. by rewrite <- Hst3, Hst2.
    + exists a, e3, q. split; [|split; [exact Ha3|split; [|split; [exact Hq3|split; [exact Hsuf|]]]]].
      * apply (ok_find _ _ _ _ (good_ok _ Hg3)). exists e3. split; [done|].
        rewrite Hip3, He2. done.
      * rewrite Hkn3, He2. done.
      * intros Hrm. destruct Hroom as [-> ->]; [rewrite Hc2, Hp2; lia|]. split; [done|].
        intros Hb. by rewrite (Hbound Hb).
Qed.

Lemma lookup_run ip poll now s :
  at_good s ->
  exists r o s', ARPTable_lookup ip poll now s = Ok ((r, o), s', []) /\ at_good s' /\
    at_conf s' = at_conf s /\ at_table s' = at_table s /\ at_entry_count s' = at_entry_count s /\
    at_packet_count s' = at_packet_count s /\ stored s' = stored s /\
    match hc_abs (at_table s) !! ip ≫= fun a => at_entries s !! a with
    | Some e =>
        if known e now (at_timeout_j s) then
          o = Some (ae_eth e) /\
          r = Z.b2z (negb (poll =? 0) && negb (click_jiffies_less now (u32 (ae_live_at_j e + poll)))
                     && allow_poll e now)
        else r = -1 /\ o = None
    | None => r = -1 /\ o = None
    end /\
    (forall a, (fun e => (ae_ip e, ae_eth e, ae_known e, ae_live_at_j e, ae_queue e)) <$> at_entries s' !! a =
               (fun e => (ae_ip e, ae_eth e, ae_known e, ae_live_at_j e, ae_queue e)) <$> at_entries s !! a).
Proof.
  intros Hg. pose proof Hg as [Hok Hc Hp He Hq]. unfold ARPTable_lookup. rewrite hbind_get.
  fold (hc_get hash (at_table s) ip).
  rewrite (hc_get_spec hash (at_table s) ip (ok_table _ _ _ _ Hok)).
  destruct (hc_abs (at_table s) !! ip) as [a|] eqn:Ea; simpl;
    [|by exists (-1), None, s; split_and!].
  pose proof Ea as (e & Ha & Hip)%(ok_find _ _ _ _ Hok). rewrite Ha. simpl.
  rewrite (hbind_silent _ _ _ _ _ (aget_run _ _ _ Ha)).
  destruct (known e now (at_timeout_j s)); [|by exists (-1), None, s; split_and!].
  destruct (negb (poll =? 0) && _ && allow_poll e now).
  2: { exists 0, (Some (ae_eth e)), s. by split_and!. }
  rewrite (hbind_silent _ _ _ _ _ (amod_run _ _ _ _ Ha)).
  destruct (at_ok_mod 0 0 [] a e (mark_poll now e) s Hok Ha) as [Hok1 Hst1]; try done.
  exists 1, (Some (ae_eth e)), (set_entries (<[a := mark_poll now e]> (at_entries s)) s).
  split_and!; try done.
  - split; try done. intros b eb. cbn [set_entries at_entries at_conf].
    destruct (decide (b = a)) as [-> |]; [|rewrite lookup_insert_ne by done; apply Hq].
    rewrite lookup_insert_eq. intros [= <-]. by apply (Hq a e).
  - intros b. cbn [set_entries at_entries]. destruct (decide (b = a)) as [-> |].
    + by rewrite lookup_insert_eq, Ha.
    + by rewrite lookup_insert_ne.
Qed.

Lemma kill_drops_run n s : exists d, Nat.iter n add_drop s = set_counts (at_entry_count s) (at_packet_count s) d s.
Proof.
  revert s. induction n as [|n IH]; intros s; [exists (at_drops s); by destruct s|].
  rewrite Nat.iter_succ_r. destruct (IH (add_drop s)) as [d ->]. by exists d.
Qed.

Lemma clear_loop_run fuel it s :
  hc_wf hash (at_table s) -> hc_valid (at_table s) it ->
  (length (hc_rest (at_table s) it) <= fuel)%nat ->
  (forall k a, (k, a) ∈ hc_rest (at_table s) it -> is_Some (at_entries s !! a)) ->
  NoDup (hc_rest (at_table s) it).*2 ->
  exists s', clear_loop fuel it s =
      Ok (tt, s', map Kill (stored_in (at_entries s) (hc_rest (at_table s) it).*2)) /\
    hc_wf hash (at_table s') /\
    (forall k a, hc_abs (at_table s') !! k = Some a ->
       hc_abs (at_table s) !! k = Some a /\ (k, a) ∉ hc_rest (at_table s) it) /\
    (forall a, at_entries s' !! a = if decide (a ∈ (hc_rest (at_table s) it).*2) then None else at_entries s !! a) /\
    al_free (at_alloc s') ≡ₚ (hc_rest (at_table s) it).*2 ++ al_free (at_alloc s) /\
    al_next (at_alloc s') = al_next (at_alloc s) /\ at_conf s' = at_conf s.
Proof.
  revert it s. induction fuel as [|fuel IH]; intros it s Hw Hv Hf Hin Hnd; cbn [clear_loop];
    destruct (it_element it) as [[k a]|] eqn:He.
  1: destruct (hc_next_rest _ it _ Hv He) as [Er _]; rewrite Er in Hf; simpl in Hf; lia.
  1, 3: assert (hc_rest (at_table s) it = []) as -> by (unfold hc_rest; by rewrite He).
  1, 2: exists s; split_and!; first [done | intros k a Hk; split; [exact Hk|apply not_elem_of_nil]
    | intros a; by rewrite decide_False by apply not_elem_of_nil].
  pose proof (hc_erase_at_spec hash (at_table s) it k a Hw Hv He) as Hes.
  rewrite hbind_get. destruct (hc_erase_at hash it (at_table s)) as [[old t'] it'].
  destruct Hes as (_ & Hw' & Hk & Ha & Hv' & Er). rewrite Er in *. cbn [fmap list_fmap fst snd] in *.
  rewrite hbind_put. destruct (Hin k a) as [e Hea]; [apply list_elem_of_here|].
  apply list.NoDup_cons in Hnd as [Hna Hnd].
  rewrite (hbind_silent _ _ _ _ _ (aget_run a e (set_table t' s) Hea)).
  destruct (kill_drops_run (length (ae_queue e)) (set_table t' s)) as [d Ed].
  set (s1 := free_entry a (Nat.iter (length (ae_queue e)) add_drop (set_table t' s))).
  assert (Ht1 : at_table s1 = t') by (unfold s1; by rewrite Ed).
  assert (Hent1 : at_entries s1 = delete a (at_entries s)) by (unfold s1; by rewrite Ed).
  assert (Hfr1 : al_free (at_alloc s1) = a :: al_free (at_alloc s)) by (unfold s1; by rewrite Ed).
  assert (Hnx1 : al_next (at_alloc s1) = al_next (at_alloc s)) by (unfold s1; by rewrite Ed).
  assert (Hc1 : at_conf s1 = at_conf s) by (unfold s1; by rewrite Ed).
  assert (Hext : forall b, b ∈ (hc_rest t' it').*2 -> at_entries s1 !! b = at_entries s !! b).
  { intros b Hb. rewrite Hent1. apply lookup_delete_ne. by intros <-. }
  destruct (IH it' s1) as (s' & E & Hw2 & Habs2 & Hent2 & Hfr2 & Hnx2 & Hc2); rewrite ?Ht1 in *; try done.
  { simpl in Hf. lia. }
  { intros k' b Hb. rewrite Hext; [apply (Hin k'); by right|]. by apply (list_elem_of_fmap_2 snd _ (k', b)). }
  exists s'. split; [|split_and!; try done].
  - change (stored_in (at_entries s) (a :: (hc_rest t' it').*2)) with
      (queue_of (at_entries s) a ++ stored_in (at_entries s) (hc_rest t' it').*2).
    rewrite (queue_of_eq _ _ _ Hea), map_app. eapply hbind_run; [apply kill_queue_run|].
    rewrite hbind_modify. fold s1. rewrite E. do 3 f_equal. apply stored_in_ext.
    intros b Hb. unfold queue_of. by rewrite Hext.
  - intros k' b Hb. destruct (Habs2 k' b Hb) as [Hb1 Hb2]. rewrite Ha in Hb1.
    apply lookup_delete_Some in Hb1 as [Hne Hb1]. split; [done|]. rewrite list.elem_of_cons.
    intros [[= -> ->]|]; done.
  - intros b. rewrite Hent2, Hent1. destruct (decide (b = a)) as [-> |Hba].
    + rewrite lookup_delete_eq. case_decide; by rewrite decide_True by (apply list_elem_of_here).
    + rewrite lookup_delete_ne by done. case_decide as Hd.
      * by rewrite decide_True by (by right).
      * rewrite decide_False; [done|]. rewrite list.elem_of_cons. tauto.
  - rewrite Hfr2, Hfr1. by rewrite <- Permutation_middle.
  - congruence.
  - congruence.
Qed.

Lemma hc_elems_length (t : hashcontainer Z nat) : hc_wf hash t -> (length (hc_elems t) <= hc_n t)%nat.
Proof.
  intros Hw. pose proof (wf_n hash _ (hcw_map hash _ Hw)) as E.
  change (hc_n t = length (hc_elems t)) in E. by rewrite E.
Qed.

Lemma clear_run s :
  at_good s ->
  exists s' killed, ARPTable_clear s = Ok (tt, s', map Kill killed) /\ at_good s' /\
    at_conf s' = at_conf s /\ stored s ≡ₚ killed /\ stored s' = [] /\
    at_entries s' = ∅ /\ at_entry_count s' = 0 /\ at_packet_count s' = 0.
Proof.
  intros [Hok Hc Hp He Hq].
  pose proof Hok as [ok_table0 ok_age0 ok_dom0 ok_find0 _ _ _ ok_free0 ok_fresh0 ok_next0 _].
  unfold ARPTable_clear. rewrite hbind_get.
  pose proof (hc_begin_spec hash (at_table s) ok_table0) as Hb.
  destruct (hc_begin (at_table s)) as [it t]. destruct Hb as (Hr & Hv & Hw & Hbk & Hn).
  rewrite hbind_put.
  assert (Habs : hc_abs t = hc_abs (at_table s)) by (unfold hc_abs, hm_abs, hm_elems; simpl; by rewrite Hbk).
  assert (Hel : forall k a, (k, a) ∈ hc_rest t it <-> hc_abs (at_table s) !! k = Some a).
  { intros k a. rewrite Hr, (hc_elems_abs hash _ ok_table0). apply elem_of_map_to_list. }
  assert (Hel2 : forall a, a ∈ (hc_rest t it).*2 <-> is_Some (at_entries s !! a)).
  { intros a. rewrite list_elem_of_fmap. split.
    - intros ([k b] & -> & Hin). apply Hel, ok_find0 in Hin as (e & ? & _). by exists e.
    - intros [e Hea]. exists (ae_ip e, a). split; [done|]. apply Hel, ok_find0. by exists e. }
  assert (Hnd : NoDup (hc_rest t it).*2).
  { apply NoDup_fmap_2_strong.
    - intros [k1 a1] [k2 a2] H1%Hel%ok_find0 H2%Hel%ok_find0. simpl. intros <-.
      destruct H1 as (e1 & E1 & <-), H2 as (e2 & E2 & <-). congruence.
    - rewrite Hr, (hc_elems_abs hash _ ok_table0). apply NoDup_map_to_list. }
  destruct (clear_loop_run (hc_size t) it (set_table t s)) as (s1 & E & Hw1 & Habs1 & Hent1 & Hfr1 & Hnx1 & Hc1);
    [done|done| |by intros k a Hin%Hel%ok_find0; destruct Hin as (e & ? & _); exists e|done|].
  { cbn [set_table at_table]. rewrite Hr. unfold hc_size. rewrite Hn. by apply hc_elems_length. }
  cbn [set_table at_table at_entries at_alloc at_conf] in *.
  assert (Hemp : forall a, at_entries s1 !! a = None).
  { intros a. rewrite Hent1. case_decide as Hd; [done|]. rewrite Hel2 in Hd.
    destruct (at_entries s !! a); [|done]. exfalso. apply Hd. by eexists. }
  assert (Habsn : forall k, hc_abs (at_table s1) !! k = None).
  { intros k. destruct (hc_abs (at_table s1) !! k) as [a|] eqn:Ek; [|done].
    destruct (Habs1 k a Ek) as [H1 H2]. rewrite Habs in H1. exfalso. by apply H2, Hel. }
  exists (set_age [] (set_counts 0 0 (at_drops s1) s1)), (stored_in (at_entries s) (hc_rest t it).*2).
  split.
  { rewrite <- (app_nil_r (map Kill _)). eapply hbind_run; [exact E|]. by rewrite hbind_modify. }
  split; [split|]; [split|..]; cbn [set_age set_counts at_table at_age at_entries at_alloc
    at_entry_count at_packet_count at_conf]; try done; try lia.
  - constructor.
  - intros a. rewrite Hemp. split; [intros Ha; by apply elem_of_nil in Ha|by intros [? [=]]].
  - intros ip a. rewrite Habsn, Hemp. split; [done|]. by intros (? & [=] & _).
  - intros a e. by rewrite Hemp.
  - simpl. rewrite Hfr1. apply list.NoDup_app. split; [done|]. split; [|done].
    intros a Ha Hf. apply Hel2 in Ha as [e Ha]. destruct (ok_fresh0 a Hf) as [_ Hn0]. congruence.
  - intros a Ha. split; [|by rewrite Hemp]. simpl in Ha. rewrite Hfr1, elem_of_app in Ha.
    rewrite Hnx1. destruct Ha as [Ha|Ha]; [by apply ok_next0, Hel2|by apply ok_fresh0].
  - intros a. rewrite Hemp. by intros [? [=]].
  - by rewrite Hc1.
  - unfold packets_fit. cbn. rewrite Hc1. pose proof (co_packet _ Hc). right. lia.
  - unfold entries_fit, over_capacity. cbn. rewrite Hc1. pose proof (co_entry _ Hc).
    destruct (_ =? 0); [done|]. simpl. apply Z.ltb_ge. lia.
  - intros a e. cbn. by rewrite Hemp.
  - split_and!; try done.
    + apply stored_in_perm. apply NoDup_Permutation; [done|done|]. intros a. by rewrite ok_dom0, Hel2.
    + apply map_empty. exact Hemp.
Qed.

Lemma reverse_loop_run fuel eth it s :
  at_good s -> hc_valid (at_table s) it -> (length (hc_rest (at_table s) it) <= fuel)%nat ->
  (forall k a, (k, a) ∈ hc_rest (at_table s) it -> is_Some (at_entries s !! a)) ->
  exists ip, reverse_loop fuel eth it s = Ok (ip, s, []) /\
    ((exists k a e, (k, a) ∈ hc_rest (at_table s) it /\ at_entries s !! a = Some e /\
        ae_eth e = eth /\ ip = ae_ip e) \/
     (ip = 0 /\ forall k a e, (k, a) ∈ hc_rest (at_table s) it -> at_entries s !! a = Some e -> ae_eth e <> eth)).
Proof.
  intros Hg. revert it. induction fuel as [|fuel IH]; intros it Hv Hf Hin; cbn [reverse_loop];
    destruct (it_element it) as [[k a]|] eqn:He.
  2, 4: assert (hc_rest (at_table s) it = []) as -> by (unfold hc_rest; by rewrite He);
    exists 0; split; [done|right; split; [done|]; intros k a e Ha; by apply elem_of_nil in Ha].
  all: destruct (hc_next_rest _ it _ Hv He) as [Er Hv']; rewrite Er in *.
  { simpl in Hf. lia. }
  destruct (Hin k a) as [e Hea]; [apply list_elem_of_here|].
  rewrite (hbind_silent _ _ _ _ _ (aget_run _ _ _ Hea)). destruct (Z.eqb_spec (ae_eth e) eth) as [E|E].
  { exists (ae_ip e). split; [done|]. left. exists k, a, e. split; [apply list_elem_of_here|done]. }
  rewrite hbind_get. destruct (IH (hc_next (at_table s) it) Hv') as (ip & Erun & Hres).
  { simpl in Hf. lia. }
  { intros k' b Hb. apply (Hin k'). by right. }
  exists ip. split; [done|]. destruct Hres as [(k' & b & e' & Hb & He')|[-> Hall]].
  - left. exists k', b, e'. split; [by right|done].
  - right. split; [done|]. intros k' b e' [[= -> ->]|Hb]%list.elem_of_cons Hb'; [congruence|by apply (Hall k' b)].
Qed.

Lemma reverse_lookup_run eth s :
  at_good s ->
  exists ip s', reverse_lookup eth s = Ok (ip, s', []) /\ at_good s' /\ at_conf s' = at_conf s /\
    at_entry_count s' = at_entry_count s /\ at_packet_count s' = at_packet_count s /\
    stored s' = stored s /\
    ((exists a e, at_entries s !! a = Some e /\ ae_eth e = eth /\ ip = ae_ip e) \/
     (ip = 0 /\ forall a e, at_entries s !! a = Some e -> ae_eth e <> eth)).
Proof.
  intros Hg. pose proof Hg as [Hok ? ? ? ?]. pose proof (ok_table _ _ _ _ Hok) as Hw0.
  unfold reverse_lookup. rewrite hbind_get. pose proof (hc_begin_spec hash (at_table s) Hw0) as Hb.
  destruct (hc_begin (at_table s)) as [it t]. destruct Hb as (Hr & Hv & Hw & Hbk & Hn).
  assert (Habs : hc_abs t = hc_abs (at_table s)) by (unfold hc_abs, hm_abs, hm_elems; simpl; by rewrite Hbk).
  assert (Hel : forall k a, (k, a) ∈ hc_rest t it <-> hc_abs (at_table s) !! k = Some a).
  { intros k a. rewrite Hr, (hc_elems_abs hash _ Hw0). apply elem_of_map_to_list. }
  assert (Hg' : at_good (set_table t s)) by (split; [by apply at_ok_table|done..]).
  destruct (reverse_loop_run (hc_size t) eth it (set_table t s) Hg' Hv) as (ip & E & Hres).
  { cbn [set_table at_table]. rewrite Hr. unfold hc_size. rewrite Hn. by apply hc_elems_length. }
  { by intros k a (e & ? & _)%Hel%(ok_find _ _ _ _ Hok); exists e. }
  exists ip, (set_table t s). rewrite hbind_put. split_and!; try done.
  destruct Hres as [(k & a & e & _ & Ha & ? & ?)|[-> Hall]]; [left; by exists a, e|right].
  split; [done|]. intros a e Ha. apply (Hall (ae_ip e) a); [|done]. apply Hel.
  apply (ok_find _ _ _ _ Hok). by exists e.
Qed.

Lemma run_timer_run now s :
  at_good s ->
  exists s' killed t, ARPTable_run_timer now s = Ok (tt, s', map Kill killed ++ t) /\
    pushed 0 t = [] /\ (forall p, Kill p ∉ t) /\ at_good s' /\ at_conf s' = at_conf s /\
    at_entry_count s' <= at_entry_count s /\ at_packet_count s' <= at_packet_count s /\
    stored s = killed ++ stored s'.
Proof.
  intros [Hok Hc Hp He Hq].
  destruct (slim_run 0 0 [] now s Hok Hc ltac:(lia) ltac:(lia))
    as (s' & killed & E & Hok' & Hc' & _ & Hn & Hpk & Hth & Hst & _ & Hcap & Hfit).
  exists s', killed, (if at_timeout_j s' =? 0 then [] else [Schedule (1000 * u32 (at_timeout_j s' / CLICK_HZ + 1))]).
  split_and!; try done.
  - unfold ARPTable_run_timer. eapply hbind_run; [exact E|]. rewrite hbind_get. by case_match.
  - by case_match.
  - intros p. case_match; [apply not_elem_of_nil|]. by intros Hs%list_elem_of_singleton.
  - split; [done|by rewrite Hc'|done| |by apply (queues_fit_thinned 0 0 [] 0 0 [] s s')].
    unfold entries_fit in *. rewrite Hc'. by eapply over_capacity_mono.
Qed.

(** ** Sequences of operations *)
Inductive table_op : Type :=
| OInsert (mem : bool) (ip eth : Z) (want_head : bool) (now : Z)
| OAppend (mem : bool) (ip : Z) (p : packet) (now : Z)
| OLookup (ip poll_timeout_j now : Z)
| OReverse (eth : Z)
| OClear
| OTimer (now : Z).

(** The packets an operation gives (back) to its caller: the queue [insert] hands over, and
    the packet [append_query] refuses. *)
Definition run_op (op : table_op) : table_handler (list packet) :=
  match op with
  | OInsert mem ip eth want_head now => r <-- ARPTable_insert mem ip eth want_head now ;; hret (snd r)
  | OAppend mem ip p now => r <-- append_query mem ip p now ;; hret (if r <? 0 then [p] else [])
  | OLookup ip poll now => ARPTable_lookup ip poll now ;;; hret []
  | OReverse eth => reverse_lookup eth ;;; hret []
  | OClear => ARPTable_clear ;;; hret []
  | OTimer now => ARPTable_run_timer now ;;; hret []
  end.
Fixpoint run_ops (ops : list table_op) : table_handler (list packet) :=
  match ops with
  | [] => hret []
  | op :: ops => out <-- run_op op ;; outs <-- run_ops ops ;; hret (out ++ outs)
  end.
Definition op_packets (op : table_op) : list packet :=
  match op with OAppend _ _ p _ => [p] | _ => [] end.
Definition killed_by (t : list event) : list packet :=
  omap (fun e => match e with Kill p => Some p | _ => None end) t.

Lemma killed_by_app t1 t2 : killed_by (t1 ++ t2) = killed_by t1 ++ killed_by t2.
Proof. apply omap_app. Qed.
Lemma killed_by_map q : killed_by (map Kill q) = q.
Proof. unfold killed_by. induction q as [|p q IH]; [done|]. simpl. by f_equal. Qed.

Lemma at_good_new c : conf_ok c -> at_good (ARPTable_new c).
Proof.
  intros Hc. destruct (hc_new_spec (P := nat) hash) as [Hw Ha].
  split; [split|..]; cbn [ARPTable_new at_table at_age at_entries at_alloc at_entry_count
    at_packet_count at_conf al_free al_next]; try done; try lia.
  - constructor.
  - intros a. rewrite lookup_empty. split; [intros Hin; by apply elem_of_nil in Hin|by intros [? [=]]].
  - intros ip a. rewrite Ha, !lookup_empty. split; [done|]. by intros (? & [=] & _).
  - constructor.
  - intros a Hin. by apply elem_of_nil in Hin.
  - intros a. rewrite lookup_empty. by intros [? [=]].
  - unfold packets_fit. cbn. pose proof (co_packet _ Hc). right. lia.
  - unfold entries_fit, over_capacity. cbn. pose proof (co_entry _ Hc).
    destruct (_ =? 0); [done|]. simpl. apply Z.ltb_ge. lia.
Qed.

Lemma run_op_good op s :
  at_good s -> at_entry_count s + 1 < 4294967296 -> at_packet_count s + 1 < 4294967296 ->
  exists out s' ev, run_op op s = Ok (out, s', ev) /\ at_good s' /\
    at_entry_count s' <= at_entry_count s + 1 /\ at_packet_count s' <= at_packet_count s + 1 /\
    op_packets op ++ stored s ≡ₚ out ++ killed_by ev ++ stored s'.
Proof.
  intros Hg Hr1 Hr2. destruct op as [mem ip eth want now|mem ip p now|ip poll now|eth| |now]; cbn [run_op op_packets app].
  - destruct (insert_run mem ip eth want now s Hg Hr1)
      as (r & head & s' & killed & E & Hg' & _ & Hst & Hn & Hp & _).
    exists head, s', (map Kill killed ++ []). split; [by eapply hbind_run|]. clear E.
    split; [done|]. split; [lia|]. split; [lia|].
    rewrite app_nil_r, killed_by_map, Hst. apply Permutation_app_swap_app.
  - destruct (append_run mem ip p now s Hg Hr1 Hr2)
      as (r & s' & killed & E & Hg' & _ & Hn & Hp & Hcase).
    exists (if r <? 0 then [p] else []), s', (map Kill killed ++ []). split; [by eapply hbind_run|]. clear E.
    split; [done|]. split; [lia|]. split; [lia|].
    rewrite app_nil_r, killed_by_map. destruct Hcase as [(Hr & Hst & _)|(e0 & _ & _ & -> & Hst & _)].
    + rewrite (proj2 (Z.ltb_lt r 0) Hr), Hst. done.
    + replace (Z.b2z (allow_poll e0 now) <? 0) with false by (by destruct (allow_poll e0 now)).
      simpl. rewrite <- Hst. apply Permutation_cons_append.
  - destruct (lookup_run ip poll now s Hg) as (r & o & s' & E & Hg' & _ & _ & Hn & Hp & Hst & _).
    exists [], s', []. split; [by rewrite (hbind_silent _ _ _ _ _ E)|]. clear E.
    split; [done|]. split; [lia|]. split; [lia|]. by rewrite Hst.
  - destruct (reverse_lookup_run eth s Hg) as (ip & s' & E & Hg' & _ & Hn & Hp & Hst & _).
    exists [], s', []. split; [by rewrite (hbind_silent _ _ _ _ _ E)|]. clear E.
    split; [done|]. split; [lia|]. split; [lia|]. by rewrite Hst.
  - destruct (clear_run s Hg) as (s' & killed & E & Hg' & _ & Hst & Hst' & _ & Hn & Hp).
    exists [], s', (map Kill killed ++ []). split; [by eapply hbind_run|]. clear E.
    pose proof (ok_range _ _ _ _ (good_ok _ Hg)).
    split; [done|]. split; [lia|]. split; [lia|].
    rewrite app_nil_r, killed_by_map, Hst', app_nil_r. done.
  - destruct (run_timer_run now s Hg) as (s' & killed & t & E & _ & Hk & Hg' & _ & Hn & Hp & Hst).
    exists [], s', ((map Kill killed ++ t) ++ []). split; [by eapply hbind_run|]. clear E.
    split; [done|]. split; [lia|]. split; [lia|].
    assert (killed_by t = []) as Ht.
    { destruct (killed_by t) as [|p l] eqn:El; [done|]. exfalso.
      assert (p ∈ killed_by t) as Hin by (rewrite El; apply list_elem_of_here).
      apply list_elem_of_omap in Hin as (e & He & Hp'). destruct e; try done. injection Hp' as ->. by apply (Hk p). }
    rewrite app_nil_r, killed_by_app, killed_by_map, Ht, app_nil_r. by rewrite Hst.
Qed.

Lemma run_ops_good ops s :
  at_good s ->
  at_entry_count s + Z.of_nat (length ops) < 4294967296 ->
  at_packet_count s + Z.of_nat (length ops) < 4294967296 ->
  exists out s' ev, run_ops ops s = Ok (out, s', ev) /\ at_good s' /\
    concat (map op_packets ops) ++ stored s ≡ₚ out ++ killed_by ev ++ stored s'.
Proof.
  revert s. induction ops as [|op ops IH]; intros s Hg Hr1 Hr2; cbn [run_ops].
  { exists [], s, []. by split. }
  cbn [length] in Hr1, Hr2.
  destruct (run_op_good op s Hg ltac:(lia) ltac:(lia)) as (out & s1 & ev & E & Hg1 & Hn & Hp & Hst).
  destruct (IH s1 Hg1 ltac:(lia) ltac:(lia)) as (outs & s2 & evs & E2 & Hg2 & Hst2).
  exists (out ++ outs), s2, (ev ++ (evs ++ [])). split.
  { eapply hbind_run; [exact E|]. eapply hbind_run; [exact E2|]. reflexivity. }
  clear E E2. split; [done|]. rewrite app_nil_r, killed_by_app. cbn [map concat].
  rewrite <- app_assoc, (Permutation_app_swap_app (op_packets op)), Hst.
  rewrite (Permutation_app_swap_app (concat _)), <- app_assoc. apply Permutation_app_head.
  rewrite (Permutation_app_swap_app (concat _)), Hst2.
  rewrite (Permutation_app_swap_app (killed_by ev)). by rewrite <- app_assoc.
Qed.

(** C30: whatever is asked of an [ARPTable], in any order, at any times and with or without
    memory, no freed entry is touched, no null pointer is followed and every loop ends; the
    hash table, the list by age and the allocated entries stay the same set of entries, the
    counters count them and their packets, all three capacities hold, and every packet
    handed to the table is exactly one of: given back to the caller, killed, or queued. *)
Theorem ARPTable_safe (c : ARPConf) (ops : list table_op) (Hc : conf_ok c)
    (Hn : Z.of_nat (length ops) < 2 ^ 32) :
  exists out s ev, run_ops ops (ARPTable_new c) = Ok (out, s, ev) /\ at_good s /\
    concat (map op_packets ops) ≡ₚ out ++ killed_by ev ++ stored s.
Proof.
  destruct (run_ops_good ops (ARPTable_new c) (at_good_new c Hc)) as (out & s & ev & E & Hg & Hst);
    [cbn; lia|cbn; lia|].
  exists out, s, ev. split_and!; [done|done|]. by rewrite <- Hst, app_nil_r.
Qed.

(** A table of two packets: the third drops the first, the reply hands over the others. *)
Definition sample_ops : list table_op :=
  [OAppend true 7 sample_packet 100; OAppend true 9 (set_shared true sample_packet) 110;
   OAppend true 9 sample_packet 120; OInsert true 9 66 true 130; OLookup 9 0 140; OTimer 150; OClear].
Theorem ARPTable_safe_witness :
  exists out s ev, run_ops sample_ops (ARPTable_new (MkARPConf 0 2 0 2 300000)) = Ok (out, s, ev) /\
    at_good s /\ concat (map op_packets sample_ops) ≡ₚ out ++ killed_by ev ++ stored s.
Proof. apply ARPTable_safe; [split; cbn; lia|vm_compute; done]. Defined.

(** ** How long an entry lasts *)
Definition binding (s : ARPTable) (ip : Z) : option ARPEntry :=
  hc_abs (at_table s) !! ip ≫= fun a => at_entries s !! a.

Lemma expired_after e now d t :
  ae_live_at_j e = now -> 
  expired e (u32 (now + d)) t = (s32 (t - d) <? 0) && negb (t =? 0).
Proof.
  intros El. unfold expired, click_jiffies_less. rewrite El. f_equal. f_equal. apply s32_congr.
  destruct (u32_congr (now + t)) as [k1 ->]. destruct (u32_congr (now + d)) as [k2 ->].
  exists (k1 - k2). lia.
Qed.
Lemma s32_big z : 2147483648 <= z < 4294967296 -> s32 z = z - 4294967296.
Proof.
  intros. unfold s32. replace (z + 2147483648) with (z - 2147483648 + 1 * 4294967296) by lia.
  rewrite Z.mod_add, Z.mod_small; lia.
Qed.

(** [insert] hands over the packets that wait for the address, in the order they came, and
    the entry then answers [lookup] for exactly [TIMEOUT] (for ever if that is 0), but only if
    [TIMEOUT] is below 2^31 jiffies: with a longer one the entry has expired as soon as it is
    made, since [click_jiffies_less] compares 32-bit differences. *)
Theorem ARPTable_lifetime (ip eth now d poll : Z) (want : bool) (s : ARPTable) (Hg : at_good s)
    (Hr : at_entry_count s + 1 < 2 ^ 32) (Heth : is_broadcast eth = false)
    (Hd : 0 <= d < 2 ^ 31) :
  exists s1 killed r o s2,
    ARPTable_insert true ip eth want now s =
      Ok ((0, if want then default [] (ae_queue <$> binding s ip) else []), s1, map Kill killed) /\
    ARPTable_lookup ip poll (u32 (now + d)) s1 = Ok ((r, o), s2, []) /\
    let t := at_timeout_j s in
    (t = 0 \/ d <= t < 2 ^ 31 -> 0 <= r /\ o = Some eth) /\
    (0 < t < d -> r = -1 /\ o = None) /\
    (2 ^ 31 <= t -> d = 0 -> r = -1 /\ o = None).
Proof.
  destruct (insert_run true ip eth want now s Hg Hr)
    as (r0 & head & s1 & killed & E1 & Hg1 & Hc1 & _ & _ & _ & Hcase).
  assert (Hb : r0 = 0 /\ head = (if want then default [] (ae_queue <$> binding s ip) else []) /\
    exists a e, hc_abs (at_table s1) !! ip = Some a /\ at_entries s1 !! a = Some e /\
      ae_eth e = eth /\ ae_known e = true /\ ae_live_at_j e = now).
  { unfold binding. destruct (hc_abs (at_table s) !! ip) as [a|] eqn:Ea; simpl.
    - destruct Hcase as (-> & _ & Ht & e & e' & He & Hent & (_ & H1 & H2 & H3 & _) & ->).
      rewrite He. split_and!; [done|done|]. exists a, e'. rewrite Ht, Hent, lookup_insert_eq.
      split_and!; try done. by rewrite H2, Heth.
    - destruct Hcase as [(-> & -> & a & e' & Ha & He & (_ & H1 & H2 & H3 & _) & _)|(_ & [=] & _)].
      split_and!; [done|by destruct want|]. exists a, e'. split_and!; try done. by rewrite H2, Heth. }
  destruct Hb as (-> & -> & a & e & Ha & He & H1 & H2 & H3).
  destruct (lookup_run ip poll (u32 (now + d)) s1 Hg1) as (r & o & s2 & E2 & _ & _ & _ & _ & _ & _ & Hres & _).
  exists s1, killed, r, o, s2. split; [exact E1|]. split; [exact E2|]. clear E1 E2 Hcase.
  rewrite Ha in Hres. simpl in Hres. rewrite He in Hres. unfold known in Hres.
  rewrite H2, (expired_after e now d _ H3) in Hres. unfold at_timeout_j in *. rewrite Hc1 in Hres.
  pose proof (co_timeout _ (good_conf _ Hg)) as Ht. set (t := c_timeout_j (at_conf s)) in *.
  cbv zeta. change (2 ^ 31) with 2147483648 in *. rewrite H1 in Hres. split_and!.
  - intros Hor. assert ((s32 (t - d) <? 0) && negb (t =? 0) = false) as Hx.
    { destruct Hor as [-> |Hor]; [apply andb_false_r|]. rewrite s32_small by lia.
      apply andb_false_iff. left. apply Z.ltb_ge. lia. }
    rewrite Hx in Hres. destruct Hres as [-> ->]. split; [|done]. by destruct (_ && _ && _).
  - intros Hlt. assert ((s32 (t - d) <? 0) && negb (t =? 0) = true) as Hx.
    { rewrite s32_small by lia. apply andb_true_iff.
      split; [apply Z.ltb_lt; lia|apply negb_true_iff, Z.eqb_neq; lia]. }
    by rewrite Hx in Hres.
  - intros Hge ->. assert ((s32 (t - 0) <? 0) && negb (t =? 0) = true) as Hx.
    { rewrite s32_big by lia. apply andb_true_iff.
      split; [apply Z.ltb_lt; lia|apply negb_true_iff, Z.eqb_neq; lia]. }
    by rewrite Hx in Hres.
Qed.

(** [TIMEOUT 30d] *)
Theorem ARPTable_lifetime_witness :
  exists s1 killed r o s2,
    let s := ARPTable_new (MkARPConf 0 2048 0 2 (timeout_jiffies 2592000000000)) in
    ARPTable_insert true 9 66 false 1000 s = Ok ((0, []), s1, map Kill killed) /\
    ARPTable_lookup 9 0 1000 s1 = Ok ((r, o), s2, []) /\ r = -1 /\ o = None.
Proof.
  assert (Hc : conf_ok (MkARPConf 0 2048 0 2 (timeout_jiffies 2592000000000)))
    by (split; vm_compute; split; congruence).
  destruct (ARPTable_lifetime 9 66 1000 0 0 false
    (ARPTable_new (MkARPConf 0 2048 0 2 (timeout_jiffies 2592000000000))) (at_good_new _ Hc))
    as (s1 & killed & r & o & s2 & E1 & E2 & _ & _ & H3); [vm_compute; done|done|lia|].
  exists s1, killed, r, o, s2. split; [exact E1|]. split; [exact E2|]. apply H3; [|done].
  vm_compute. congruence.
Defined.
