(* ===== verification/HomeAgent.v ===== *)
(** * The home agent: [ha.cc], [RegRep.cc] and [encapsulation.cc]

    [HA] diverts packets for registered mobile nodes, [RegRep] answers registration requests
    and maintains the binding list, [Encapsulator] tunnels diverted packets to the care-of
    address. *)
From Stdlib Require Import ZArith Lia.
From stdpp Require Import base list numbers option.
From S2P Require Import Prelude Checksum Vector Packet Wire Build Mobility.

(** ** [HA::push] *)
Definition HA_push (p : packet) : handler ha event unit :=
  s <-- hget ;;
  dst <-? (if (0 <? length (ha_mobility_bindings s))%nat then getf p 0 ip_dst else Ok 0) ;;
  if existsb (fun b => mi_address b =? dst) (ha_mobility_bindings s)
  then hemit (Push 1 p) else hemit (Push 0 p).

(** ** [RegRep::check_acceptable]: the request is at offset 28 *)
Definition RegRep_check_acceptable (s : ha) (p : packet) : res Z :=
  flags ← getf p 28 req_flags;
  if flag flags 0 || flag flags 2 then Ok 134
  else if flag flags 5 then Ok 128
  else
    home ← getf p 28 req_home_address;
    let found := existsb (fun b => mi_address b =? home) (ha_mobility_bindings s) in
    if flag flags 7 && found then Ok 135
    else
      agent ← getf p 28 req_home_agent;
      if agent =? broadcast then Ok 136 else Ok 0.

(** The reply [RegRep::push] builds from the request [q]. *)
Definition RegRep_make_reply (mem : memory) (acceptCode : Z) (q : packet)
  : res (option packet) :=
  let p_size := (sizeof_click_ip + sizeof_click_udp + sizeof_regrep_h)%nat in
  mp ← make mem (sizeof_click_ether + 4) None p_size 0;
  match mp with
  | None => Ok None
  | Some p =>
      let p := memset0 p in
      p ← set_ip_v 0 4 p;
      p ← set_ip_hl 0 5 p;
      p ← setf 0 ip_tos 0 p;
      p ← setf 0 ip_len (htons (Z.of_nat p_size)) p;
      p ← setf 0 ip_ttl 64 p;
      p ← setf 0 ip_p 17 p;
      rip_dst ← getf q 0 ip_dst;
      p ← setf 0 ip_src rip_dst p;
      rip_src ← getf q 0 ip_src;
      p ← setf 0 ip_dst rip_src p;
      hdr ← pbytes p 0 sizeof_click_ip;
      p ← setf 0 ip_sum (click_in_cksum hdr) p;
      dst ← getf p 0 ip_dst;
      let p := set_dst_ip_anno dst p in
      dport ← getf q 20 uh_dport;
      p ← setf 20 uh_sport dport p;
      sport ← getf q 20 uh_sport;
      p ← setf 20 uh_dport sport p;
      let templ := u16 (Z.of_nat (plength p) - 20) in
      p ← setf 20 uh_ulen (htons templ) p;
      p ← setf 28 rep_type 3 p;
      p ← setf 28 rep_code acceptCode p;
      lt ← getf q 28 req_lifetime;
      p ← setf 28 rep_lifetime lt p;
      home ← getf q 28 req_home_address;
      p ← setf 28 rep_home_address home p;
      id ← getf q 28 req_identification;
      p ← setf 28 rep_identification id p;
      agent ← getf q 28 req_home_agent;
      p ← setf 28 rep_home_agent agent p;
      sum ← transport_sum p 0 (p_size - sizeof_click_ip);
      p ← setf 20 uh_sum sum p;
      Ok (Some p)
  end.

(** The binding list after an accepted request. *)
Definition RegRep_update_bindings (q : packet) (l : list mobile_info)
  : res (list mobile_info) :=
  home ← getf q 28 req_home_address;
  coa ← getf q 28 req_care_of_address;
  if home =? coa then
    Ok (erase_loop (fun b => mi_address b =? home) (length l) 0 l)
  else
    id ← getf q 28 req_identification;
    lt ← getf q 28 req_lifetime;
    Ok (l ++ [MobileInfo home coa id (u8 lt)]).

(** ** [RegRep::push] *)
Definition RegRep_push (mem : memory) (q : packet) : handler ha event unit :=
  ty <-? getf q 28 req_type ;;
  if ty =? 1 then
    s <-- hget ;;
    acceptCode <-? RegRep_check_acceptable s q ;;
    (if (acceptCode =? 0) || (acceptCode =? 1) then
       l <-? RegRep_update_bindings q (ha_mobility_bindings s) ;;
       hput (HA (ha_address s) l)
     else hret tt) ;;;
    mp <-? RegRep_make_reply mem acceptCode q ;;
    match mp with
    | None => hret tt
    | Some p =>
        home <-? getf q 28 req_home_address ;;
        coa <-? getf q 28 req_care_of_address ;;
        hemit (Push (if home =? coa then 0 else 1) p) ;;;
        hemit (Kill q)
    end
  else hemit (Kill q).

(** ** [Encapsulator] *)
Definition Encapsulator_get_destination_ip (l : list mobile_info) (mobileNodeAddress : Z) : Z :=
  match find (fun b => mi_address b =? mobileNodeAddress) l with
  | Some b => mi_careOfAddress b
  | None => mobileNodeAddress
  end.

(** The outer header [Encapsulator::push] writes on [packet], whose first 20 bytes are zero. *)
Definition Encapsulator_header (l : list mobile_info) (srcIp : Z) (p packet : Packet.packet)
  : res Packet.packet :=
  packet ← set_ip_v 0 4 packet;
  packet ← set_ip_hl 0 5 packet;
  tos ← getf p 0 ip_tos;
  packet ← setf 0 ip_tos tos packet;
  ilen ← getf p 0 ip_len;
  packet ← setf 0 ip_len (htons (20 + ntohs ilen)) packet;
  packet ← setf 0 ip_ttl 200 packet;
  packet ← setf 0 ip_p 4 packet;
  packet ← setf 0 ip_src srcIp packet;
  idst ← getf p 0 ip_dst;
  packet ← setf 0 ip_dst (Encapsulator_get_destination_ip l idst) packet;
  bytes ← pbytes packet 0 (plength packet);
  packet ← setf 0 ip_sum (click_in_cksum bytes) packet;
  dst ← getf packet 0 ip_dst;
  Ok (set_dst_ip_anno dst packet).

(** [Encapsulator::push]; [mem] and [mem2] serve [Packet::make] and [packet->push]. *)
Definition Encapsulator_push (mem mem2 : memory) (srcIp : Z) (p : packet)
  : handler ha event unit :=
  let packetsize := plength p in
  mp <-? make mem (sizeof_click_ip + sizeof_click_ether + 4) None packetsize 0 ;;
  match mp with
  | None => hret tt
  | Some packet =>
      let packet := set_data (pk_data p) packet in
      mp <-? push mem2 sizeof_click_ip packet ;;
      match mp with
      | None => hret tt
      | Some packet =>
          let packet := set_data (replicate sizeof_click_ip 0
                                  ++ drop sizeof_click_ip (pk_data packet)) packet in
          s <-- hget ;;
          packet <-? Encapsulator_header (ha_mobility_bindings s) srcIp p packet ;;
          hemit (Kill p) ;;;
          hemit (Push 0 packet)
      end
  end.

(** ** What a registration request asks for *)

(** The code [check_acceptable] gives, on the request's contents. *)
Definition acceptance (l : list mobile_info) (r : regreq) : Z :=
  if Z.testbit (rq_flags r) 0 || Z.testbit (rq_flags r) 2 then 134
  else if Z.testbit (rq_flags r) 5 then 128
  else if Z.testbit (rq_flags r) 7 && existsb (fun b => mi_address b =? rq_home_address r) l
  then 135
  else if rq_home_agent r =? broadcast then 136 else 0.

(** The binding list an accepted request leaves. *)
Definition rebind (r : regreq) (l : list mobile_info) : list mobile_info :=
  if rq_home_address r =? rq_care_of_address r
  then filter (fun b => (mi_address b =? rq_home_address r) = false) l
  else l ++ [MobileInfo (rq_home_address r) (rq_care_of_address r) (rq_identification r)
               (u8 (rq_lifetime r))].

Definition reply_to (code : Z) (r : regreq) : regrep :=
  RegrepH 3 code (rq_lifetime r) (rq_home_address r) (rq_home_agent r) (rq_identification r).

(** The facts a request's bytes give to the handlers, as rewriting hypotheses. *)
Ltac request_facts Hc Hr :=
  pose proof (ca_src _ _ _ _ _ Hc); pose proof (ca_dst _ _ _ _ _ Hc);
  pose proof (ca_sport _ _ _ _ _ Hc); pose proof (ca_dport _ _ _ _ _ Hc);
  pose proof (cq_type _ _ _ _ _ (conj Hc Hr)); pose proof (cq_flags _ _ _ _ _ (conj Hc Hr));
  pose proof (cq_lifetime _ _ _ _ _ (conj Hc Hr));
  pose proof (cq_home _ _ _ _ _ (conj Hc Hr)); pose proof (cq_coa _ _ _ _ _ (conj Hc Hr));
  pose proof (cq_id _ _ _ _ _ (conj Hc Hr)); pose proof (cq_agent _ _ _ _ _ (conj Hc Hr));
  cbn [Nat.add] in *.

Lemma acceptance_range l r : in8 (acceptance l r).
Proof. unfold acceptance. repeat case_match; auto with wire. Qed.

Lemma RegRep_check_acceptable_spec s q i u r :
  carries_req 0 q i u r ->
  RegRep_check_acceptable s q = Ok (acceptance (ha_mobility_bindings s) r).
Proof.
  intros [Hc Hr]. request_facts Hc Hr.
  unfold RegRep_check_acceptable, acceptance. use_reads. rewrite !flag_testbit.
  repeat case_match; done.
Qed.

Lemma RegRep_update_bindings_spec q i u r l :
  carries_req 0 q i u r -> RegRep_update_bindings q l = Ok (rebind r l).
Proof.
  intros [Hc Hr]. request_facts Hc Hr.
  unfold RegRep_update_bindings, rebind. use_reads.
  case_match; [by rewrite erase_loop_all|done].
Qed.

Lemma RegRep_make_reply_spec m code q i u r :
  carries_req 0 q i u r -> in8 code ->
  exists p i' u',
    RegRep_make_reply (Some m) code q = Ok (Some p) /\
    datagram p i' u' (enc_regrep (reply_to code r)) /\
    i_src i' = i_dst i /\ i_dst i' = i_src i /\ i_ttl i' = 64 /\
    u_sport u' = u_dport u /\ u_dport u' = u_sport u.
Proof.
  intros [Hc Hr] Hcode. unfold reply_to.
  request_facts Hc Hr. destruct Hc as [_ [] []].
  unfold RegRep_make_reply. rewrite make_some, memset0_made.
  change (sizeof_click_ip + sizeof_click_udp + sizeof_regrep_h)%nat with 48%nat.
  rewrite zero_rep.
  build. change (48 - sizeof_click_ip)%nat with 28%nat.
  edestruct datagram_finish as (c & p & Hp & Hd).
  15: { exists p. eexists _, _. split; [exact Hp|]. split; [exact Hd|]. done. }
  all: headers_ok.
Qed.

Lemma RegRep_push_run m s q i u r :
  carries_req 0 q i u r -> rq_type r = 1 ->
  let code := acceptance (ha_mobility_bindings s) r in
  let port := if rq_home_address r =? rq_care_of_address r then 0%nat else 1%nat in
  exists p i' u',
    RegRep_push (Some m) q s =
      Ok (tt, HA (ha_address s) (if code =? 0 then rebind r (ha_mobility_bindings s)
                                 else ha_mobility_bindings s), [Push port p; Kill q]) /\
    datagram p i' u' (enc_regrep (reply_to code r)) /\
    i_src i' = i_dst i /\ i_dst i' = i_src i /\
    u_sport u' = u_dport u /\ u_dport u' = u_sport u.
Proof.
  intros Hcr Hty code port. destruct (Hcr) as [Hc Hr]. request_facts Hc Hr.
  destruct (RegRep_make_reply_spec m code q i u r Hcr (acceptance_range _ _))
    as (p & i' & u' & Hp & Hd & ? & ? & _ & ? & ?).
  exists p, i', u'. split; [|by split_and!].
  pose proof (RegRep_check_acceptable_spec s q i u r Hcr) as Hacc. fold code in Hacc.
  pose proof (RegRep_update_bindings_spec q i u r (ha_mobility_bindings s) Hcr) as Hupd.
  unfold RegRep_push. hrun. rewrite Hty, Z.eqb_refl. hrun.
  assert (Hcode : (code =? 0) || (code =? 1) = (code =? 0)).
  { unfold code, acceptance. by repeat case_match. }
  rewrite Hcode. destruct (code =? 0); hrun; by destruct s.
Qed.

(** C3: [RegRep] answers every registration request, and its state follows the answer.  The
    reply goes back to the request's source as a well-formed datagram with both checksums
    valid, ports swapped, the acceptance code, and the request's lifetime, addresses and
    identification; the binding list is replaced exactly when the code is 0; a request whose
    care-of address is its home address removes every binding of that node and is answered
    on the local port 0. *)
Theorem RegRep_push_spec m s q i u r :
  carries_req 0 q i u r -> rq_type r = 1 ->
  let code := acceptance (ha_mobility_bindings s) r in
  let port := if rq_home_address r =? rq_care_of_address r then 0%nat else 1%nat in
  exists p i' u',
    RegRep_push (Some m) q s =
      Ok (tt, HA (ha_address s) (if code =? 0 then rebind r (ha_mobility_bindings s)
                                 else ha_mobility_bindings s), [Push port p; Kill q]) /\
    datagram p i' u' (enc_regrep (reply_to code r)) /\
    i_src i' = i_dst i /\ i_dst i' = i_src i /\
    u_sport u' = u_dport u /\ u_dport u' = u_sport u.
Proof. apply RegRep_push_run. Qed.

Definition sample_ha : ha := HA 16777227 [MobileInfo 33554442 33554443 5 9].

Theorem RegRep_push_spec_witness :
  exists x, RegRep_push (Some (fun _ => 0)) sample_request sample_ha = Ok x.
Proof.
  destruct (RegRep_push_spec (fun _ => 0) sample_ha sample_request sample_ip sample_udp
    sample_req sample_request_carries eq_refl) as (p & i' & u' & H & _).
  eexists. exact H.
Defined.

(** ** Diversion and tunnelling *)
Definition bound (l : list mobile_info) (a : Z) : bool :=
  existsb (fun b => mi_address b =? a) l.

Lemma bound_app l1 l2 a : bound (l1 ++ l2) a = bound l1 a || bound l2 a.
Proof. apply existsb_app. Qed.

Lemma bound_rebind r l :
  bound (rebind r l) (rq_home_address r) = negb (rq_home_address r =? rq_care_of_address r).
Proof.
  unfold rebind. destruct (rq_home_address r =? rq_care_of_address r); simpl.
  - unfold bound. induction l as [|b l IH]; [done|]. rewrite filter_cons.
    destruct (mi_address b =? rq_home_address r) eqn:E; simpl; [exact IH|]. by rewrite E.
  - rewrite bound_app. unfold bound at 2. simpl. by rewrite Z.eqb_refl, orb_true_r.
Qed.

Lemma bound_rebind_other r l a :
  a <> rq_home_address r -> bound (rebind r l) a = bound l a.
Proof.
  intros Ha. unfold rebind. destruct (rq_home_address r =? rq_care_of_address r).
  - unfold bound. induction l as [|b l IH]; [done|]. rewrite filter_cons.
    destruct (Z.eqb_spec (mi_address b) (rq_home_address r)); simpl.
    + rewrite IH. by destruct (Z.eqb_spec (mi_address b) a); [lia|].
    + by rewrite IH.
  - rewrite bound_app. unfold bound at 2. simpl.
    destruct (Z.eqb_spec (rq_home_address r) a); [lia|]. by rewrite !orb_false_r.
Qed.

(** The destination the tunnel uses: the first binding of the node. *)
Lemma get_destination_ip_rebind_new r l :
  bound l (rq_home_address r) = false -> rq_home_address r <> rq_care_of_address r ->
  Encapsulator_get_destination_ip (rebind r l) (rq_home_address r) = rq_care_of_address r.
Proof.
  intros Hb Hne. unfold rebind, Encapsulator_get_destination_ip.
  destruct (Z.eqb_spec (rq_home_address r) (rq_care_of_address r)); [done|].
  induction l as [|b l IH]; simpl in *; [by rewrite Z.eqb_refl|].
  apply orb_false_iff in Hb as [-> Hb]. auto.
Qed.

Lemma get_destination_ip_rebind_old r l :
  bound l (rq_home_address r) = true -> rq_home_address r <> rq_care_of_address r ->
  Encapsulator_get_destination_ip (rebind r l) (rq_home_address r) =
  Encapsulator_get_destination_ip l (rq_home_address r).
Proof.
  intros Hb Hne. unfold rebind, Encapsulator_get_destination_ip.
  destruct (Z.eqb_spec (rq_home_address r) (rq_care_of_address r)); [done|].
  induction l as [|b l IH]; simpl in *; [done|].
  destruct (mi_address b =? rq_home_address r); [done|]. auto.
Qed.

Lemma HA_push_spec p i l s :
  ip_packet p i l ->
  HA_push p s =
  Ok (tt, s, [Push (if bound (ha_mobility_bindings s) (i_dst i) then 1 else 0) p]).
Proof.
  intros Hp%ipp_dst. unfold HA_push. rewrite hbind_get.
  destruct s as [a [|b bs]]; [done|]. simpl ha_mobility_bindings.
  erewrite hbind_lift_ok by (apply Hp).
  fold (bound (b :: bs) (i_dst i)). by destruct (bound (b :: bs) (i_dst i)).
Qed.

(** C8: an accepted request switches diversion.  After [RegRep] has accepted it, [HA] sends
    packets for the node to the tunnel (port 1) when it registered a care-of address and
    delivers them locally (port 0) when it deregistered; packets for other addresses go where
    they went before. *)
Theorem registration_diverts m s q i u r p ip l :
  carries_req 0 q i u r -> rq_type r = 1 -> acceptance (ha_mobility_bindings s) r = 0 ->
  ip_packet p ip l ->
  exists s' t, RegRep_push (Some m) q s = Ok (tt, s', t) /\
    HA_push p s' = Ok (tt, s',
      [Push (if i_dst ip =? rq_home_address r
             then (if rq_home_address r =? rq_care_of_address r then 0 else 1)
             else (if bound (ha_mobility_bindings s) (i_dst ip) then 1 else 0)) p]).
Proof.
  intros Hc Ht Ha Hp. destruct (RegRep_push_run m s q i u r Hc Ht) as (rep & i' & u' & H & _).
  rewrite Ha in H. eexists _, _. split; [exact H|].
  rewrite (HA_push_spec p ip l) by done. simpl ha_mobility_bindings.
  destruct (Z.eqb_spec (i_dst ip) (rq_home_address r)) as [->|Hne].
  - rewrite bound_rebind. by destruct (rq_home_address r =? rq_care_of_address r).
  - by rewrite bound_rebind_other.
Qed.

Theorem registration_diverts_witness :
  exists s' t, RegRep_push (Some (fun _ => 0)) sample_request sample_ha = Ok (tt, s', t) /\
    HA_push (bare (enc_ip (IpHdr 69 0 (htons 20) 0 0 64 1 0 5 16777226))) s' =
    Ok (tt, s', [Push 1 (bare (enc_ip (IpHdr 69 0 (htons 20) 0 0 64 1 0 5 16777226)))]).
Proof.
  apply (registration_diverts (fun _ => 0) sample_ha sample_request sample_ip sample_udp
    sample_req _ (IpHdr 69 0 (htons 20) 0 0 64 1 0 5 16777226) []); try reflexivity.
  - apply sample_request_carries.
  - split; [reflexivity|sample_ok].
Defined.

(** ** The tunnel *)
Definition outer_header (s : ha) (srcIp : Z) (i : ip_hdr) (sum : Z) : ip_hdr :=
  IpHdr 69 (i_tos i) (htons (20 + ntohs (i_len i))) 0 0 200 4 sum srcIp
    (Encapsulator_get_destination_ip (ha_mobility_bindings s) (i_dst i)).

(** An address the tunnel can use: the binding's, or the packet's own destination. *)
Lemma get_destination_ip_range l a :
  Forall (fun b => in32 (mi_careOfAddress b)) l -> in32 a ->
  in32 (Encapsulator_get_destination_ip l a).
Proof.
  intros Hb Ha. unfold Encapsulator_get_destination_ip.
  destruct (find _ _) as [b|] eqn:E; [|done].
  apply List.find_some in E as [E _]. rewrite List.Forall_forall in Hb. by apply Hb.
Qed.

Lemma Encapsulator_header_run srcIp p i l s pk :
  ip_packet p i l -> in32 srcIp ->
  Forall (fun b => in32 (mi_careOfAddress b)) (ha_mobility_bindings s) ->
  Encapsulator_header (ha_mobility_bindings s) srcIp p
    (set_data (replicate 20 0 ++ pk_data p) pk) =
  Ok (set_data (enc_ip (outer_header s srcIp i
        (click_in_cksum (enc_ip (outer_header s srcIp i 0) ++ pk_data p))) ++ pk_data p)
      (set_dst_ip_anno (Encapsulator_get_destination_ip (ha_mobility_bindings s) (i_dst i)) pk)).
Proof.
  intros Hip Hs Hb.
  pose proof (ipp_tos _ _ _ Hip). pose proof (ipp_len _ _ _ Hip). pose proof (ipp_dst _ _ _ Hip).
  destruct Hip as [_ []].
  pose proof (get_destination_ip_range _ (i_dst i) Hb ltac:(done)).
  unfold Encapsulator_header. rewrite zero_ip. build.
  rewrite u32_small by in_range. done.
Qed.

Lemma Encapsulator_push_run m mem2 srcIp p i l s :
  ip_packet p i l -> in32 srcIp ->
  Forall (fun b => in32 (mi_careOfAddress b)) (ha_mobility_bindings s) ->
  let dst := Encapsulator_get_destination_ip (ha_mobility_bindings s) (i_dst i) in
  exists q,
    Encapsulator_push (Some m) mem2 srcIp p s = Ok (tt, s, [Kill p; Push 0 q]) /\
    pk_data q = enc_ip (outer_header s srcIp i
      (click_in_cksum (enc_ip (outer_header s srcIp i 0) ++ pk_data p))) ++ pk_data p /\
    dst_ip_anno q = Some dst /\ pk_shared q = false.
Proof.
  intros Hip Hs Hb dst.
  set (pk := data_back 20 (set_data (pk_data p) (made m 38 (plength p)))).
  assert (Hpk : drop 20 (pk_data pk) = pk_data p).
  { reflexivity. }
  assert (Hpush : push mem2 sizeof_click_ip (set_data (pk_data p) (made m 38 (plength p))) =
    Ok (Some pk)) by reflexivity.
  assert (Hmake : make (Some m) (sizeof_click_ip + sizeof_click_ether + 4) None (plength p) 0 =
    Ok (Some (MkPacket (junk m 0 38) (junk m 38 (plength p)) (pk_tail (made m 38 (plength p)))
      false (replicate anno_size 0) HOST None None None))) by reflexivity.
  pose proof (Encapsulator_header_run srcIp p i l s pk Hip Hs Hb) as Hh.
  rewrite <- Hpk in Hh at 1.
  eexists. split; [|split; [|split]].
  - unfold Encapsulator_push. hrun.
    change (set_data (pk_data p) _) with (set_data (pk_data p) (made m 38 (plength p))). hrun.
    reflexivity.
  - reflexivity.
  - rewrite <- set_dst_ip_anno_data, dst_ip_anno_set by reflexivity. rewrite u32_small; [done|].
    destruct Hip as [_ []]. by apply get_destination_ip_range.
  - reflexivity.
Qed.

(** Tunnelling keeps the packet.  [Encapsulator] emits a fresh packet whose payload is the
    original packet, byte for byte, behind a 20-byte header with protocol 4, the agent's
    address as source, the care-of address of the node's first binding as destination and
    20 more bytes of length, and routes it to that care-of address. *)
Theorem Encapsulator_push_spec m mem2 srcIp p i l s :
  ip_packet p i l -> in32 srcIp ->
  Forall (fun b => in32 (mi_careOfAddress b)) (ha_mobility_bindings s) ->
  let dst := Encapsulator_get_destination_ip (ha_mobility_bindings s) (i_dst i) in
  exists q sum,
    Encapsulator_push (Some m) mem2 srcIp p s = Ok (tt, s, [Kill p; Push 0 q]) /\
    ip_packet q (IpHdr 69 (i_tos i) (htons (20 + ntohs (i_len i))) 0 0 200 4 sum srcIp dst)
      (pk_data p) /\
    dst_ip_anno q = Some dst.
Proof.
  intros Hip Hs Hb dst.
  destruct (Encapsulator_push_run m mem2 srcIp p i l s Hip Hs Hb) as (q & Hq & Hd & Ha & _).
  eexists q, _. split; [exact Hq|]. split; [|exact Ha]. split; [exact Hd|].
  pose proof Hip as [_ []]. pose proof (get_destination_ip_range _ (i_dst i) Hb ltac:(done)).
  constructor; cbn; auto with wire.
Qed.

Definition sample_inner : ip_hdr := IpHdr 69 0 (htons 20) 0 0 64 1 0 5 33554442.
Lemma sample_inner_packet : ip_packet (bare (enc_ip sample_inner)) sample_inner [].
Proof. split; [reflexivity|sample_ok]. Qed.
Lemma sample_ha_range :
  Forall (fun b => in32 (mi_careOfAddress b)) (ha_mobility_bindings sample_ha).
Proof. repeat constructor; cbv; congruence. Qed.

Theorem Encapsulator_push_spec_witness :
  exists q sum,
    Encapsulator_push (Some (fun _ => 0)) None 7 (bare (enc_ip sample_inner)) sample_ha =
      Ok (tt, sample_ha, [Kill (bare (enc_ip sample_inner)); Push 0 q]) /\
    ip_packet q (IpHdr 69 0 (htons 40) 0 0 200 4 sum 7 33554443) (enc_ip sample_inner) /\
    dst_ip_anno q = Some 33554443.
Proof.
  apply (Encapsulator_push_spec (fun _ => 0) None 7 _ _ _ sample_ha sample_inner_packet);
    [cbv; split; congruence|apply sample_ha_range].
Defined.

Lemma outer_checksum s srcIp i d :
  bytes_ok d -> Z.of_nat (length d) < 131052 ->
  ip_verifies (outer_header s srcIp i (click_in_cksum (enc_ip (outer_header s srcIp i 0) ++ d)))
  <-> wsum d mod 65535 = 0.
Proof.
  intros Hd Hl. set (o := enc_ip (outer_header s srcIp i 0)).
  assert (Ho : bytes_ok o) by (unfold o; auto with bytes).
  pose proof (cksum_range (o ++ d)) as Hc. set (c := click_in_cksum (o ++ d)) in *.
  assert (Hset : enc_ip (outer_header s srcIp i c) = wrn 2 o 10 c) by reflexivity.
  unfold ip_verifies. rewrite Hset, cksum_zero_iff by
    (rewrite ?length_wrn; auto with bytes; cbn; lia).
  rewrite wsum_set_field by (done || (cbn; lia)).
  assert (Hpos : 0 < wsum o).
  { unfold o, outer_header, enc_ip. cbn -[Z.modulo Z.div Z.add Z.mul].
    match goal with |- 0 < _ + ?x => assert (0 <= x) end; [|zdm].
    repeat match goal with |- context [?a mod 256] =>
      pose proof (Z.mod_pos_bound a 256 ltac:(lia)); generalize dependent (a mod 256); intros end.
    lia. }
  pose proof (wsum_bounds d Hd) as [Hw _].
  assert (Hcv : c = 65535 - ocfold (wsum o + wsum d)).
  { unfold c. rewrite click_in_cksum_spec, wsum_app; [done|done| |].
    - apply bytes_ok_app; by split.
    - rewrite length_app, Nat2Z.inj_add. change (Z.of_nat (length o)) with 20. lia. }
  destruct (ocfold_spec (wsum o + wsum d)) as (k & Hk & Hs & Hr); [lia|].
  replace (wsum o + c) with (65535 * (k + 1) - wsum d) by lia.
  split; [intros [_ H]|intros H; split; [lia|]]; zdm.
Qed.

(** The outer header checksum is computed over the whole encapsulated packet, so it
    verifies exactly when the 16-bit words of the inner packet add up to a multiple of 65535:
    it does for an inner packet all of whose words are covered by verifying Internet
    checksums (an ICMP message), and in general not for UDP or TCP. *)
Theorem encapsulation_checksum m mem2 srcIp p i l s :
  ip_packet p i l -> in32 srcIp ->
  Forall (fun b => in32 (mi_careOfAddress b)) (ha_mobility_bindings s) ->
  bytes_ok (pk_data p) -> Z.of_nat (length (pk_data p)) < 131052 ->
  exists q o,
    Encapsulator_push (Some m) mem2 srcIp p s = Ok (tt, s, [Kill p; Push 0 q]) /\
    pk_data q = enc_ip o ++ pk_data p /\
    (ip_verifies o <-> wsum (pk_data p) mod 65535 = 0).
Proof.
  intros Hip Hs Hb Hd Hl.
  destruct (Encapsulator_push_run m mem2 srcIp p i l s Hip Hs Hb) as (q & Hq & Hdq & _).
  eexists q, _. split; [exact Hq|]. split; [exact Hdq|]. by apply outer_checksum.
Qed.

Theorem encapsulation_checksum_witness :
  exists q o,
    Encapsulator_push (Some (fun _ => 0)) None 7 (bare (enc_ip sample_inner)) sample_ha =
      Ok (tt, sample_ha, [Kill (bare (enc_ip sample_inner)); Push 0 q]) /\
    pk_data q = enc_ip o ++ enc_ip sample_inner /\
    (ip_verifies o <-> wsum (enc_ip sample_inner) mod 65535 = 0).
Proof.
  apply (encapsulation_checksum (fun _ => 0) None 7 _ _ _ sample_ha sample_inner_packet);
    [cbv; split; congruence|apply sample_ha_range|apply enc_ip_ok|simpl; lia].
Defined.

(** A node that registers again without deregistering keeps its old tunnel: the new
    binding is appended behind the old one, and [Encapsulator] uses the first. *)
Theorem reregistration_keeps_old_tunnel m s q i u r :
  carries_req 0 q i u r -> rq_type r = 1 -> acceptance (ha_mobility_bindings s) r = 0 ->
  rq_home_address r <> rq_care_of_address r ->
  exists s' t, RegRep_push (Some m) q s = Ok (tt, s', t) /\
    Encapsulator_get_destination_ip (ha_mobility_bindings s') (rq_home_address r) =
    (if bound (ha_mobility_bindings s) (rq_home_address r)
     then Encapsulator_get_destination_ip (ha_mobility_bindings s) (rq_home_address r)
     else rq_care_of_address r).
Proof.
  intros Hc Ht Ha Hne. destruct (RegRep_push_run m s q i u r Hc Ht) as (p & i' & u' & H & _).
  rewrite Ha in H. eexists _, _. split; [exact H|]. simpl ha_mobility_bindings.
  destruct (bound (ha_mobility_bindings s) (rq_home_address r)) eqn:E.
  - by apply get_destination_ip_rebind_old.
  - by apply get_destination_ip_rebind_new.
Qed.

Theorem reregistration_keeps_old_tunnel_witness :
  exists s' t,
    RegRep_push (Some (fun _ => 0)) sample_request (HA 16777227 [MobileInfo 16777226 99 1 1])
      = Ok (tt, s', t) /\
    Encapsulator_get_destination_ip (ha_mobility_bindings s') 16777226 = 99.
Proof.
  apply (reregistration_keeps_old_tunnel (fun _ => 0) (HA 16777227 [MobileInfo 16777226 99 1 1])
    sample_request sample_ip sample_udp sample_req sample_request_carries); done.
Defined.
