(* ===== verification/MobileNode.v ===== *)
(** * The mobile node: [mninfo.cc], [RegReq.cc] and [regnode.cc]

    [MNInfo] steers outgoing packets to the agent the node is connected to, [RegReq] turns
    agent advertisements into registration requests, [RegNode] takes the replies and counts
    the registration's lifetime down. *)
From Stdlib Require Import ZArith Lia.
From stdpp Require Import base list numbers option.
From S2P Require Import Prelude Checksum Vector HashMap Packet Wire Build Mobility.

Section MobileNode.
Context {M : Type} `{AssocMap packet M}.
Implicit Types s : mninfo M.

(** [MNInfo::push] *)
Definition MNInfo_push (p : packet) : handler (mninfo M) event unit :=
  s <-- hget ;;
  hemit (Push 0 (if mn_connected s then set_dst_ip_anno (mn_foreign_agent s) p else p)).

(** ** [RegReq] *)

(** What a request takes from the clock and from [rand()]: the subsecond parts of
    [Timestamp::now()] and [now_steady()], and one [rand()]. *)
Record reg_env : Type := RegEnv { env_now : Z; env_steady : Z; env_rand : Z }.
Definition env_id (e : reg_env) : Z := u32 (env_now e) + 4294967296 * u32 (env_steady e).
Definition env_port (e : reg_env) : Z := u16 (env_rand e mod 65535).

(** [_sequence] starts at 0 and is never incremented. *)
Definition RegReq_sequence : Z := 0.

(** The request packet of [RegReq::make_packet]. *)
Definition RegReq_build (mem : memory) (s : mninfo M) (ID port : Z)
    (dest lifetime coaddress : Z) : res (option packet) :=
  let p_size := (sizeof_click_ip + sizeof_click_udp + sizeof_regreq_h)%nat in
  mq ← make mem (sizeof_click_ether + 4) None p_size 0;
  match mq with
  | None => Ok None
  | Some q =>
      let q := memset0 q in
      let ipid := u16 (RegReq_sequence mod 65535 + 1) in
      q ← set_ip_v 0 4 q;
      q ← set_ip_hl 0 5 q;
      q ← setf 0 ip_len (htons (Z.of_nat (plength q))) q;
      q ← setf 0 ip_id (htons ipid) q;
      q ← setf 0 ip_p 17 q;
      q ← setf 0 ip_src (mn_home_address s) q;
      q ← setf 0 ip_dst dest q;
      q ← setf 0 ip_tos 0 q;
      q ← setf 0 ip_off 0 q;
      q ← setf 0 ip_ttl 64 q;
      hdr ← pbytes q 0 sizeof_click_ip;
      q ← setf 0 ip_sum (click_in_cksum hdr) q;
      dst ← getf q 0 ip_dst;
      let q := set_dst_ip_anno dst q in
      q ← setf 20 uh_sport (htons port) q;
      q ← setf 20 uh_dport (htons 434) q;
      q ← setf 20 uh_ulen (htons (Z.of_nat (plength q) - 20)) q;
      q ← setf 28 req_type 1 q;
      q ← setf 28 req_flags 0 q;
      q ← setf 28 req_lifetime (htons lifetime) q;
      q ← setf 28 req_home_address (mn_home_address s) q;
      q ← setf 28 req_home_agent (mn_home_agent s) q;
      q ← setf 28 req_care_of_address coaddress q;
      q ← setf 28 req_identification ID q;
      sum ← transport_sum q 0 (p_size - sizeof_click_ip);
      q ← setf 20 uh_sum sum q;
      Ok (Some q)
  end.

(** [RegReq::make_packet]: the pending request is recorded before the packet is made. *)
Definition RegReq_make_packet (mem : memory) (e : reg_env) (dest lifetime coaddress : Z)
  : handler (mninfo M) event (option packet) :=
  hmodify (fun s => set_pending (mn_pending s ++
    [Request dest coaddress (s32 (env_id e)) lifetime lifetime (env_port e)]) s) ;;;
  s <-- hget ;;
  hlift (RegReq_build mem s (env_id e) (env_port e) dest lifetime coaddress).

(** One pending request in [RegReq::run_timer]. *)
Definition RegReq_tick (r : request) : option request :=
  let lt := ntohs (r_rem_lt r) in
  if 0 <? lt then
    Some (Request (r_dest r) (r_coaddress r) (r_id r) (r_req_lt r) (htons (u16 (lt - 1)))
            (r_port r))
  else None.
Definition RegReq_run_timer : handler (mninfo M) event unit :=
  hmodify (fun s => set_pending (sweep_loop RegReq_tick (length (mn_pending s)) 0
                                   (mn_pending s)) s) ;;;
  hemit (Reschedule 1000).

Definition push_if (port : nat) (mp : option packet) : handler (mninfo M) event unit :=
  match mp with Some p => hemit (Push port p) | None => hret tt end.

(** [RegReq::push] *)
Definition RegReq_push (mem : memory) (e : reg_env) (q : packet)
  : handler (mninfo M) event unit :=
  asrc <-? getf q 0 ip_src ;;
  axflags <-? getf q 36 ext_flags ;;
  let home := flag axflags 5 in
  let foreign := flag axflags 4 in
  s <-- hget ;;
  (if asrc =? mn_gateway s then
     if negb (mn_foreign_agent s =? mn_gateway s) && home then
       hmodify (fun s => set_lifetime 0 (set_foreign_agent (mn_gateway s) s)) ;;;
       s <-- hget ;;
       mp <-- RegReq_make_packet mem e asrc 0 (mn_home_address s) ;;
       push_if 0 mp
     else hret tt
   else if foreign then
     acoaddr <-? getf q 36 ext_address ;;
     lt <-? getf q 36 ext_lifetime ;;
     mp <-- RegReq_make_packet mem e asrc (htons lt) acoaddr ;;
     push_if 0 mp
   else hret tt) ;;;
  hemit (Kill q).

(** ** [RegNode] *)

(** The index of the first pending request for a reply from [src] to port [port]. *)
Fixpoint RegNode_find (src port : Z) (i : nat) (l : list request) : option (nat * request) :=
  match l with
  | [] => None
  | r :: l' => if (r_dest r =? src) && (r_port r =? port) then Some (i, r)
               else RegNode_find src port (S i) l'
  end.

(** [p->length() - sizeof(click_ip)] as the [int] the checksum functions take: negative on a
    packet shorter than an IP header, and then no byte is summed. *)
Definition payload_length (p : packet) : Z := Z.of_nat (plength p) - Z.of_nat sizeof_click_ip.

Definition RegNode_bad_checksum (p : packet) : res bool :=
  let n := payload_length p in
  dgram ← pbytes p sizeof_click_ip (Z.to_nat n);
  iph ← pbytes p 0 (plength p + tailroom p);
  c ← click_in_cksum_pseudohdr (click_in_cksum dgram) iph n;
  if negb (c =? 0) then us ← getf p 20 uh_sum; Ok (negb (ntohs us =? 0)) else Ok false.

Definition erase_pending (i : nat) : handler (mninfo M) event unit :=
  hmodify (fun s => set_pending (delete i (mn_pending s)) s).

(** [RegNode::push] *)
Definition RegNode_push (p : packet) : handler (mninfo M) event unit :=
  s <-- hget ;;
  found <-? (if (0 <? length (mn_pending s))%nat then
               src ← getf p 0 ip_src; dport ← getf p 20 uh_dport;
               Ok (RegNode_find src (ntohs dport) 0 (mn_pending s))
             else Ok None) ;;
  match found with
  | None => hemit (Kill p)
  | Some (it, recentreq) =>
      bad <-? RegNode_bad_checksum p ;;
      if (bad : bool) then hemit (Kill p) ;;; erase_pending it
      else
        id <-? getf p 28 rep_identification ;;
        if negb (s32 id =? r_id recentreq) then hemit (Kill p)
        else
          code <-? getf p 28 rep_code ;;
          (if (code =? 0) || (code =? 1) then
             hemit ClearTimer ;;;
             src <-? getf p 0 ip_src ;;
             (if negb (src =? mn_gateway s) then
                lt <-? getf p 28 rep_lifetime ;;
                let given_lifetime := ntohs lt in
                let dec_lifetime := u16 (r_req_lt recentreq - given_lifetime) in
                let lifetime := u16 (r_rem_lt recentreq - dec_lifetime) in
                hmodify (fun s => set_lifetime lifetime
                  (set_foreign_agent (r_dest recentreq) (set_connected true s))) ;;;
                hemit (Schedule 1000)
              else hret tt) ;;;
             erase_pending it
           else erase_pending it) ;;;
          hemit (Kill p)
  end.

(** [RegNode::run_timer] *)
Definition RegNode_run_timer (registrationAlmostOver : Z) : handler (mninfo M) event unit :=
  s <-- hget ;;
  (if 0 <? mn_lifetime s then
     let lt := u16 (mn_lifetime s - 1) in
     hmodify (set_lifetime lt) ;;;
     (if lt =? registrationAlmostOver then
        match am_find (mn_foreign_agent s) (mn_advertisements s) with
        | Some p => hemit (Push 0 (clone p))
        | None => hret tt
        end
      else hret tt) ;;;
     (if lt =? 0 then hmodify (set_connected false) else hret tt)
   else hret tt) ;;;
  hemit (Reschedule 1000).
End MobileNode.

(** ** Requests *)
Section Requests.
Context {M : Type} `{AssocMap packet M}.
Implicit Types s : mninfo M.

(** The request a node in state [s] sends. *)
Definition request_of s (ID lifetime coaddress : Z) : regreq :=
  RegreqH 1 0 (htons lifetime) (mn_home_address s) (mn_home_agent s) coaddress ID.

Record mn_ok s : Prop := {
  mnok_agent : in32 (mn_home_agent s);
  mnok_home : in32 (mn_home_address s)
}.

Lemma env_id_range e : in64 (env_id e).
Proof.
  unfold in64, env_id. pose proof (u32_range (env_now e)).
  pose proof (u32_range (env_steady e)). lia.
Qed.
Lemma env_port_range e : in16 (env_port e).
Proof. apply u16_range. Qed.

Lemma request_of_ok s ID lifetime coaddress :
  mn_ok s -> in64 ID -> in32 coaddress -> regreq_ok (request_of s ID lifetime coaddress).
Proof. intros [] ? ?. constructor; cbn; auto with wire. Qed.

Lemma RegReq_build_spec m s ID port dest lifetime coaddress :
  mn_ok s -> in32 dest ->
  exists q i u,
    RegReq_build (Some m) s ID port dest lifetime coaddress = Ok (Some q) /\
    datagram q i u (enc_regreq (request_of s ID lifetime coaddress)) /\
    i_src i = mn_home_address s /\ i_dst i = dest /\ i_ttl i = 64 /\ i_id i = htons 1 /\
    u_sport u = htons port /\ u_dport u = htons 434.
Proof.
  intros [] Hd. unfold request_of.
  unfold RegReq_build. rewrite make_some, memset0_made.
  change (sizeof_click_ip + sizeof_click_udp + sizeof_regreq_h)%nat with 52%nat.
  change (u16 (RegReq_sequence mod 65535 + 1)) with 1.
  rewrite zero_req. build. change (52 - sizeof_click_ip)%nat with 32%nat.
  edestruct datagram_finish as (c & q & Hq & Hdg).
  15: { exists q. eexists _, _. split; [exact Hq|]. split; [exact Hdg|]. done. }
  all: headers_ok.
Qed.

Lemma RegReq_make_packet_run m e s dest lifetime coaddress :
  mn_ok s -> in32 dest ->
  exists q i u,
    RegReq_make_packet (Some m) e dest lifetime coaddress s =
      Ok (Some q,
          set_pending (mn_pending s ++
            [Request dest coaddress (s32 (env_id e)) lifetime lifetime (env_port e)]) s, []) /\
    datagram q i u (enc_regreq (request_of s (env_id e) lifetime coaddress)) /\
    i_src i = mn_home_address s /\ i_dst i = dest /\
    u_sport u = htons (env_port e) /\ u_dport u = htons 434.
Proof.
  intros Hs Hd. set (s' := set_pending _ s).
  destruct (RegReq_build_spec m s' (env_id e) (env_port e) dest lifetime coaddress)
    as (q & i & u & Hq & Hdg & Hsrc & Hdst & _ & _ & Hsp & Hdp); [by destruct Hs|done|].
  exists q, i, u. change (request_of s' (env_id e) lifetime coaddress)
    with (request_of s (env_id e) lifetime coaddress) in Hdg.
  split; [|by split_and!]. unfold RegReq_make_packet. hrun. fold s'.
  unfold hlift. by rewrite Hq.
Qed.

(** [make_packet] sends a well-formed request for exactly what it was asked: to the
    agent, from the home address, with both checksums valid, and records the same agent,
    care-of address, lifetime, identification (as an [int]) and source port as pending. *)
Theorem RegReq_make_packet_spec m e s dest lifetime coaddress :
  mn_ok s -> in32 dest ->
  exists q i u,
    RegReq_make_packet (Some m) e dest lifetime coaddress s =
      Ok (Some q,
          set_pending (mn_pending s ++
            [Request dest coaddress (s32 (env_id e)) lifetime lifetime (env_port e)]) s, []) /\
    datagram q i u (enc_regreq (request_of s (env_id e) lifetime coaddress)) /\
    i_src i = mn_home_address s /\ i_dst i = dest /\
    u_sport u = htons (env_port e) /\ u_dport u = htons 434.
Proof. apply RegReq_make_packet_run. Qed.

(** *** Expiry of pending requests *)
Definition age_request (n : Z) (r : request) : option request :=
  if n <=? ntohs (r_rem_lt r) then
    Some (Request (r_dest r) (r_coaddress r) (r_id r) (r_req_lt r)
            (htons (ntohs (r_rem_lt r) - n)) (r_port r))
  else None.

Fixpoint RegReq_ticks (n : nat) : handler (mninfo M) event unit :=
  match n with O => hret tt | S n' => RegReq_run_timer ;;; RegReq_ticks n' end.

Lemma RegReq_run_timer_run s :
  RegReq_run_timer s = Ok (tt, set_pending (omap RegReq_tick (mn_pending s)) s, [Reschedule 1000]).
Proof. unfold RegReq_run_timer. hrun. by rewrite sweep_loop_all. Qed.

Lemma age_request_tick n r :
  0 <= n -> RegReq_tick r ≫= age_request n = age_request (n + 1) r.
Proof.
  intros Hn. unfold RegReq_tick, age_request. pose proof (htons_range (r_rem_lt r)) as Hr.
  fold (ntohs (r_rem_lt r)) in Hr.
  destruct (Z.ltb_spec 0 (ntohs (r_rem_lt r))); simpl.
  - rewrite u16_small by lia. unfold ntohs at 1 3. rewrite htons_inv by lia.
    destruct (Z.leb_spec n (ntohs (r_rem_lt r) - 1)), (Z.leb_spec (n + 1) (ntohs (r_rem_lt r)));
      try lia; [|done]. by replace (ntohs (r_rem_lt r) - 1 - n) with (ntohs (r_rem_lt r) - (n + 1)) by lia.
  - by destruct (Z.leb_spec (n + 1) (ntohs (r_rem_lt r))); [lia|].
Qed.

Lemma age_request_0 r : in16 (r_rem_lt r) -> age_request 0 r = Some r.
Proof.
  intros Hr. unfold age_request. pose proof (htons_range (r_rem_lt r)).
  unfold ntohs. destruct (Z.leb_spec 0 (htons (r_rem_lt r))); [|lia].
  rewrite Z.sub_0_r, htons_inv by done. by destruct r.
Qed.

(** A pending request lives exactly [ntohs (rem_lt)] seconds: [n] ticks leave the
    requests with [n <= ntohs (rem_lt)], the rest are erased, none is skipped by the
    erasing loop.  [make_packet] stores [rem_lt] in host order, so a request with
    lifetime 1 stays for 256 ticks and one with lifetime 256 for a single tick. *)
Theorem pending_requests_age s (n : nat) :
  Forall (fun r => in16 (r_rem_lt r)) (mn_pending s) ->
  exists t, RegReq_ticks n s =
    Ok (tt, set_pending (omap (age_request (Z.of_nat n)) (mn_pending s)) s, t).
Proof.
  revert s. induction n as [|n IH]; intros s Hr.
  - exists []. simpl. unfold hret. do 3 f_equal. destruct s as [a b c d f g h l]. simpl in *.
    unfold set_pending. simpl. f_equal. induction Hr as [|r l Hr _ IHl]; [done|].
    csimpl. rewrite age_request_0 by done. by f_equal.
  - simpl. unfold hbind. rewrite RegReq_run_timer_run.
    destruct (IH (set_pending (omap RegReq_tick (mn_pending s)) s)) as [t Ht].
    { simpl. apply Forall_forall. intros r (r0 & Hin & Ht)%list_elem_of_In%list_elem_of_omap.
      unfold RegReq_tick in Ht. destruct (0 <? _); [|done]. injection Ht as <-. apply htons_range. }
    rewrite Ht. eexists. do 3 f_equal. unfold set_pending. simpl. f_equal.
    rewrite omap_omap. apply list_omap_ext, Forall_Forall2_diag, Forall_forall.
    intros r _. rewrite age_request_tick by lia. f_equal. lia.
Qed.
End Requests.

(** ** Replies and the registration's lifetime *)

#[global] Instance udp_verifies_dec i u l : Decision (udp_verifies i u l).
Proof.
  unfold udp_verifies. destruct (click_in_cksum_pseudohdr_raw _ _ _ _ _) as [c|f].
  - destruct (decide (c = 0)) as [-> |Hn]; [by left|right; congruence].
  - by right.
Defined.

(** The receiver of a datagram may refuse it: the sender computed a checksum, and it does not
    verify. *)
Definition checksum_refuses (i : ip_hdr) (u : udp_hdr) (l : list Z) : bool :=
  negb (u_sum u =? 0) && negb (bool_decide (udp_verifies i u l)).

Lemma verifies_accepted i u l : udp_verifies i u l -> checksum_refuses i u l = false.
Proof. intros Hv. unfold checksum_refuses. by rewrite bool_decide_eq_true_2, andb_false_r. Qed.

Lemma pseudohdr_raw_total l src dst proto n :
  exists c, click_in_cksum_pseudohdr_raw (click_in_cksum l) src dst proto n = Ok c.
Proof.
  unfold click_in_cksum_pseudohdr_raw. destruct (_ <=? _) eqn:E; [by eexists|].
  pose proof (cksum_range l). apply Z.leb_gt in E. lia.
Qed.
Lemma ntohs_eqb_0 x : in16 x -> (ntohs x =? 0) = (x =? 0).
Proof.
  unfold ntohs, htons, in16. intros. destruct (Z.eqb_spec x 0) as [-> |Hn]; [done|].
  apply Z.eqb_neq. zdm.
Qed.

Lemma RegNode_bad_checksum_run p i u l :
  pk_data p = enc_ip i ++ enc_udp u ++ l -> i_vhl i = 69 -> ip_ok i -> in16 (u_sum u) ->
  getf p 20 uh_sum = Ok (u_sum u) ->
  RegNode_bad_checksum p = Ok (checksum_refuses i u l).
Proof.
  intros Hd Hv Hi Hu Hsum. unfold RegNode_bad_checksum, payload_length.
  assert (Hl : plength p = (20 + length (enc_udp u ++ l))%nat) by (unfold plength; by rewrite Hd).
  replace (Z.of_nat (plength p) - Z.of_nat sizeof_click_ip) with (Z.of_nat (length (enc_udp u ++ l)))
    by (rewrite Hl; unfold sizeof_click_ip; lia).
  rewrite Nat2Z.id.
  pose proof (transport_sum_data [] i (enc_udp u ++ l) [] p 0 (length (enc_udp u ++ l))) as Ht.
  rewrite app_nil_r in Ht. specialize (Ht Hd eq_refl eq_refl Hv Hi).
  destruct (pseudohdr_raw_total (enc_udp u ++ l) (i_src i) (i_dst i) (i_p i)
    (Z.of_nat (length (enc_udp u ++ l)))) as [c Er].
  rewrite Er in Ht. unfold transport_sum in Ht. rewrite Nat.sub_0_r in Ht. cbn [Nat.add] in Ht.
  destruct (pbytes p sizeof_click_ip _) as [dgram|]; cbn [mbind res_bind] in *; [|done].
  destruct (pbytes p 0 _) as [iph|]; cbn [mbind res_bind] in *; [|done].
  rewrite Ht, Hsum. cbn [mbind res_bind]. rewrite (ntohs_eqb_0 _ Hu). unfold checksum_refuses.
  case_bool_decide as Hb; unfold udp_verifies in Hb; rewrite Er in Hb.
  - injection Hb as ->. by rewrite andb_false_r.
  - destruct (Z.eqb_spec c 0) as [-> |_]; [done|]. cbn. by rewrite andb_true_r.
Qed.

Section Replies.
Context {M : Type} `{AssocMap packet M}.
Implicit Types s : mninfo M.

(** What a reply does to the node's state, on its contents. *)
Definition reply_effect (refused : bool) (i : ip_hdr) (u : udp_hdr) (r : regrep) (p : packet) s
  : mninfo M * list event :=
  match RegNode_find (i_src i) (ntohs (u_dport u)) 0 (mn_pending s) with
  | None => (s, [Kill p])
  | Some (it, req) =>
      if refused then (set_pending (delete it (mn_pending s)) s, [Kill p])
      else if negb (s32 (rp_identification r) =? r_id req) then (s, [Kill p])
      else if (rp_code r =? 0) || (rp_code r =? 1) then
        if negb (i_src i =? mn_gateway s) then
          (set_pending (delete it (mn_pending s))
             (set_lifetime (u16 (r_rem_lt req - u16 (r_req_lt req - ntohs (rp_lifetime r))))
                (set_foreign_agent (r_dest req) (set_connected true s))),
           [ClearTimer; Schedule 1000; Kill p])
        else (set_pending (delete it (mn_pending s)) s, [ClearTimer; Kill p])
      else (set_pending (delete it (mn_pending s)) s, [Kill p])
  end.

Lemma RegNode_push_any s p i u r rest :
  pk_data p = enc_ip i ++ enc_udp u ++ enc_regrep r ++ rest ->
  i_vhl i = 69 -> ip_ok i -> udp_ok u -> regrep_ok r ->
  RegNode_push p s =
    (let '(s', t) := reply_effect (checksum_refuses i u (enc_regrep r ++ rest)) i u r p s in
     Ok (tt, s', t)).
Proof.
  intros Hd Hv Hi Hu Hr.
  assert (Hc : carries 0 p i u (enc_regrep r)) by (split; [by exists [], rest|done|done]).
  pose proof (ca_src _ _ _ _ _ Hc) as Hsrc. pose proof (ca_dport _ _ _ _ _ Hc) as Hdp.
  pose proof (cp_id _ _ _ _ _ (conj Hc Hr)) as Hid.
  pose proof (cp_code _ _ _ _ _ (conj Hc Hr)) as Hcode.
  pose proof (cp_lifetime _ _ _ _ _ (conj Hc Hr)) as Hlt.
  pose proof (ca_sum _ _ _ _ _ Hc) as Hsum.
  pose proof (RegNode_bad_checksum_run p i u _ Hd Hv Hi ltac:(by destruct Hu) Hsum) as Hck. cbn [Nat.add] in *.
  assert (Hfind : (if (0 <? length (mn_pending s))%nat then
               src ← getf p 0 ip_src; dport ← getf p 20 uh_dport;
               Ok (RegNode_find src (ntohs dport) 0 (mn_pending s))
             else Ok None)
    = Ok (RegNode_find (i_src i) (ntohs (u_dport u)) 0 (mn_pending s))).
  { destruct (mn_pending s) as [|r0 l]; [done|]. simpl length. cbn [Nat.ltb Nat.leb].
    rewrite Hsrc. cbn [mbind res_bind]. by rewrite Hdp. }
  unfold RegNode_push, reply_effect. hrun.
  destruct (RegNode_find _ _ _ _) as [[it req]|]; [|done]. hrun.
  destruct (checksum_refuses _ _ _); [done|]. hrun.
  destruct (negb (s32 _ =? _)); [done|]. hrun.
  destruct ((rp_code r =? 0) || (rp_code r =? 1)); [|done].
  destruct (negb (i_src i =? mn_gateway s)) eqn:Eg; hcompute; rewrite Eg; hcompute; done.
Qed.
Lemma RegNode_push_run s p i u r :
  datagram p i u (enc_regrep r) -> regrep_ok r ->
  RegNode_push p s =
    (let '(s', t) := reply_effect false i u r p s in Ok (tt, s', t)).
Proof.
  intros [Hd Hi Hu Hv _ _ _ _ _ Hok _ _] Hr.
  rewrite (RegNode_push_any s p i u r []) by (by rewrite ?app_nil_r).
  by rewrite app_nil_r, (verifies_accepted _ _ _ Hok).
Qed.

(** C6: what a registration reply does, on every branch, whatever its checksum and whatever
    follows it in the packet.  Only a reply from the agent and to the port of a pending request
    counts.  If it carries a UDP checksum that does not verify, the request is given up and
    nothing else changes; else its identification must match, the request is no longer pending,
    and an accepted reply (code 0 or 1) from a foreign agent connects the node to that agent for
    the remaining requested lifetime less what the agent cut off, and starts the one-second
    timer. *)
Theorem RegNode_push_spec s p i u r rest :
  pk_data p = enc_ip i ++ enc_udp u ++ enc_regrep r ++ rest ->
  i_vhl i = 69 -> ip_ok i -> udp_ok u -> regrep_ok r ->
  RegNode_push p s =
    (let '(s', t) := reply_effect (checksum_refuses i u (enc_regrep r ++ rest)) i u r p s in
     Ok (tt, s', t)).
Proof. apply RegNode_push_any. Qed.

Fixpoint RegNode_ticks (almost : Z) (n : nat) : handler (mninfo M) event unit :=
  match n with
  | O => hret tt
  | S n' => RegNode_run_timer almost ;;; RegNode_ticks almost n'
  end.

(** The advertisement [RegNode] resends to trigger a renewal. *)
Definition renewal s : list packet :=
  match am_find (mn_foreign_agent s) (mn_advertisements s) with
  | Some p => [clone p]
  | None => []
  end.

Lemma RegNode_run_timer_run almost s :
  in16 (mn_lifetime s) ->
  exists t,
    RegNode_run_timer almost s =
      Ok (tt, (if 0 <? mn_lifetime s then
                 set_connected (mn_connected s && negb (mn_lifetime s =? 1))
                   (set_lifetime (mn_lifetime s - 1) s)
               else s), t) /\
    pushed 0 t = if (0 <? mn_lifetime s) && (mn_lifetime s - 1 =? almost) then renewal s else [].
Proof.
  intros Hl. unfold RegNode_run_timer, renewal.
  destruct (0 <? mn_lifetime s) eqn:Hp; [|by eexists; split; [hcompute; rewrite Hp; hcompute|]].
  apply Z.ltb_lt in Hp as Hp'.
  assert (Hu : u16 (mn_lifetime s - 1) = mn_lifetime s - 1) by (apply u16_small; in_range).
  assert (E0 : (mn_lifetime s - 1 =? 0) = (mn_lifetime s =? 1))
    by (destruct (Z.eqb_spec (mn_lifetime s - 1) 0), (Z.eqb_spec (mn_lifetime s) 1); lia).
  destruct s as [ag ho gw co fa lt ads pe]; cbn [mn_lifetime mn_foreign_agent mn_advertisements] in *.
  destruct (am_find fa ads) as [q|] eqn:Eq; destruct (lt - 1 =? almost) eqn:Ea;
    destruct (lt =? 1) eqn:E1; eexists;
    (split; [hcompute; cbn [mn_lifetime mn_foreign_agent mn_advertisements];
             rewrite Hp, Hu, Ea, E0, ?Eq; hcompute; cbn; rewrite ?andb_true_r, ?andb_false_r;
             reflexivity|reflexivity]).
Qed.
End Replies.

Section Lifetime.
Context {M : Type} `{AssocMap packet M}.
Implicit Types s : mninfo M.

(** The node [n] seconds later. *)
Definition aged (n : Z) s : mninfo M :=
  if 0 <? mn_lifetime s then
    set_connected (mn_connected s && (n <? mn_lifetime s))
      (set_lifetime (Z.max 0 (mn_lifetime s - n)) s)
  else s.

Lemma mninfo_eta s :
  MNInfo (mn_home_agent s) (mn_home_address s) (mn_gateway s) (mn_connected s)
    (mn_foreign_agent s) (mn_lifetime s) (mn_advertisements s) (mn_pending s) = s.
Proof. by destruct s. Qed.

(** C11: a registration lasts exactly its lifetime.  [n] timer ticks after it was granted
    for [L] seconds, the remaining lifetime is [max 0 (L - n)] and the node is connected
    exactly while [n < L]; the stored advertisement of its agent is resent to trigger a
    renewal once, when the remaining lifetime reaches REGISTRATIONALMOSTOVER, and never
    again after that. *)
Theorem registration_lifetime almost s (n : nat) :
  in16 (mn_lifetime s) -> 0 <= almost ->
  exists t,
    RegNode_ticks almost n s = Ok (tt, aged (Z.of_nat n) s, t) /\
    pushed 0 t = if (mn_lifetime s - Z.of_nat n <=? almost) && (almost <? mn_lifetime s)
                    && (0 <? n)%nat
                 then renewal s else [].
Proof.
  intros Hl Ha. revert s Hl. induction n as [|n IH]; intros s Hl.
  - exists []. rewrite andb_false_r. split; [|done]. simpl. unfold hret, aged. do 3 f_equal.
    destruct (Z.ltb_spec 0 (mn_lifetime s)); [|done].
    change (Z.of_nat 0) with 0. rewrite (proj2 (Z.ltb_lt _ _)), andb_true_r, Z.sub_0_r, Z.max_r by lia.
    unfold set_connected, set_lifetime. cbn. by rewrite mninfo_eta.
  - destruct (RegNode_run_timer_run almost s Hl) as (t1 & H1 & Hp1).
    simpl. unfold hbind. rewrite H1.
    destruct (Z.ltb_spec 0 (mn_lifetime s)) as [Hpos|Hz].
    + set (s1 := set_connected _ _). assert (Hl1 : in16 (mn_lifetime s1)) by (cbn; in_range).
      destruct (IH s1 Hl1) as (t2 & -> & Hp2). eexists. split; [do 3 f_equal|].
      * unfold aged, s1. cbn.
        destruct (Z.ltb_spec 0 (mn_lifetime s - 1)), (Z.ltb_spec 0 (mn_lifetime s)); try lia;
          unfold set_connected, set_lifetime; cbn; f_equal; try lia;
          rewrite <- ?andb_assoc; f_equal;
          destruct (Z.eqb_spec (mn_lifetime s) 1); cbn; try lia.
        -- destruct (Z.ltb_spec (Z.of_nat n) (mn_lifetime s - 1)),
             (Z.ltb_spec (Z.of_nat (S n)) (mn_lifetime s)); try done; lia.
        -- destruct (Z.ltb_spec (Z.of_nat (S n)) (mn_lifetime s)); [lia|done].
      * unfold pushed in *. rewrite omap_app, Hp1, Hp2. change (renewal s1) with (renewal s).
        change (mn_lifetime s1) with (mn_lifetime s - 1). cbn [andb].
        destruct (Z.eqb_spec (mn_lifetime s - 1) almost),
          (Z.leb_spec (mn_lifetime s - 1 - Z.of_nat n) almost),
          (Z.ltb_spec almost (mn_lifetime s - 1)),
          (Z.leb_spec (mn_lifetime s - Z.of_nat (S n)) almost),
          (Z.ltb_spec almost (mn_lifetime s)), (Nat.ltb_spec 0 n), (Nat.ltb_spec 0 (S n));
          cbn; rewrite ?app_nil_r; try done; lia.
    + destruct (IH s Hl) as (t2 & -> & Hp2). eexists. split; [do 3 f_equal|].
      * unfold aged. destruct (Z.ltb_spec 0 (mn_lifetime s)); [lia|done].
      * unfold pushed in *. rewrite omap_app, Hp1, Hp2. cbn [andb].
        assert (Hf : (almost <? mn_lifetime s) = false) by (apply Z.ltb_ge; lia).
        by rewrite Hf, !andb_false_r.
Qed.

(** The granted lifetime is what the agent granted: when the reply arrives before the
    pending request has aged, the node's lifetime is the reply's, also when the agent
    shortened it. *)
Theorem granted_lifetime s p i u r it req s' t :
  datagram p i u (enc_regrep r) -> regrep_ok r ->
  RegNode_find (i_src i) (ntohs (u_dport u)) 0 (mn_pending s) = Some (it, req) ->
  s32 (rp_identification r) = r_id req -> rp_code r = 0 -> i_src i <> mn_gateway s ->
  r_rem_lt req = r_req_lt req -> in16 (r_req_lt req) ->
  RegNode_push p s = Ok (tt, s', t) ->
  mn_connected s' = true /\ mn_foreign_agent s' = r_dest req /\
  mn_lifetime s' = ntohs (rp_lifetime r).
Proof.
  intros Hd Hr Hf Hid Hc Hg Hrem Hlt Hrun. rewrite (RegNode_push_run s p i u r Hd Hr) in Hrun.
  unfold reply_effect in Hrun. rewrite Hf, Hid, Hc, Z.eqb_refl in Hrun. cbn in Hrun.
  apply Z.eqb_neq in Hg. rewrite Hg in Hrun. injection Hrun as <- <-. cbn.
  split; [done|]. split; [done|]. rewrite Hrem.
  pose proof (htons_range (rp_lifetime r)). unfold ntohs, u16 in *. unfold in16 in Hlt. zdm.
Qed.
End Lifetime.

(** ** Concrete instances *)
Definition sample_mn : mninfo (hashmap Z packet) :=
  MNInfo 16777227 16777226 33554442 false 0 0 hm_new
    [Request 16777227 16777228 77 100 100 1000].
Lemma sample_mn_ok : mn_ok sample_mn.
Proof. sample_ok. Qed.

Theorem RegReq_make_packet_spec_witness :
  exists q i u, RegReq_make_packet (Some (fun _ => 0)) (RegEnv 1 2 3) 16777227 60 5 sample_mn =
    Ok (Some q, set_pending (mn_pending sample_mn ++
                  [Request 16777227 5 (s32 (env_id (RegEnv 1 2 3))) 60 60 3]) sample_mn, []) /\
    datagram q i u (enc_regreq (request_of sample_mn (env_id (RegEnv 1 2 3)) 60 5)).
Proof.
  destruct (RegReq_make_packet_spec (fun _ => 0) (RegEnv 1 2 3) sample_mn 16777227 60 5
    sample_mn_ok) as (q & i & u & Hq & Hd & _); [cbv; split; congruence|].
  exists q, i, u. split; [exact Hq|exact Hd].
Defined.

Theorem pending_requests_age_witness :
  exists t, RegReq_ticks 1 sample_mn =
    Ok (tt, set_pending [Request 16777227 16777228 77 100 (htons (htons 100 - 1)) 1000] sample_mn, t).
Proof.
  apply (pending_requests_age sample_mn 1).
  repeat constructor; cbv; congruence.
Defined.

Theorem RegNode_push_spec_witness :
  RegNode_push sample_reply sample_mn =
  Ok (tt, set_pending [] (set_lifetime 100 (set_foreign_agent 16777227
            (set_connected true sample_mn))), [ClearTimer; Schedule 1000; Kill sample_reply]).
Proof.
  pose proof sample_reply_datagram as [Hd Hi Hu Hv _ _ _ _ _ _ _ _].
  rewrite (RegNode_push_spec sample_mn sample_reply sample_reply_ip sample_reply_udp sample_rep []);
    [vm_compute; reflexivity|exact Hd|exact Hv|exact Hi|exact Hu|exact sample_rep_ok].
Defined.

Theorem registration_lifetime_witness :
  exists t, RegNode_ticks 3 2 (set_connected true (set_lifetime 2 sample_mn)) =
    Ok (tt, set_lifetime 0 sample_mn, t) /\ pushed 0 t = [].
Proof.
  apply (registration_lifetime 3 (set_connected true (set_lifetime 2 sample_mn)) 2);
    [cbv; split; congruence|lia].
Defined.

Theorem granted_lifetime_witness :
  mn_connected (set_pending [] (set_lifetime 100 (set_foreign_agent 16777227
    (set_connected true sample_mn)))) = true /\ 16777227 = 16777227 /\ 100 = ntohs (htons 100).
Proof.
  apply (granted_lifetime sample_mn sample_reply sample_reply_ip sample_reply_udp sample_rep 0
    (Request 16777227 16777228 77 100 100 1000)
    (set_pending [] (set_lifetime 100 (set_foreign_agent 16777227 (set_connected true sample_mn))))
    [ClearTimer; Schedule 1000; Kill sample_reply] sample_reply_datagram sample_rep_ok);
    try (vm_compute; reflexivity); vm_compute; try congruence. split; congruence.
Defined.

(** ** Reacting to advertisements *)
Section React.
Context {M : Type} `{AssocMap packet M}.
Implicit Types s : mninfo M.

(** The request an advertisement triggers, if any: destination, lifetime, care-of address,
    and the state from which it is made. *)
Definition reaction (i : ip_hdr) (x : adv_ext) s : option (Z * Z * mninfo M) :=
  if i_src i =? mn_gateway s then
    if negb (mn_foreign_agent s =? mn_gateway s) && Z.testbit (x_flags x) 5
    then Some (0, mn_home_address s, set_lifetime 0 (set_foreign_agent (mn_gateway s) s))
    else None
  else if Z.testbit (x_flags x) 4 then Some (htons (x_lifetime x), x_address x, s)
  else None.

(** C7: an advertisement triggers at most one request.  From the home gateway, a home
    agent's advertisement makes a node that was away deregister (lifetime 0, care-of address
    its home address) and forget its foreign agent; from elsewhere, a foreign agent's
    advertisement makes it ask that agent for a registration at the advertised care-of
    address and lifetime; anything else is dropped.  The request is a well-formed datagram
    to the advertisement's source.  Without memory for it the request is pending all the same,
    and nothing is sent. *)
Theorem RegReq_push_spec mem e s p i a x :
  carries_adv p i a x -> mn_ok s ->
  match reaction i x s with
  | None => RegReq_push mem e p s = Ok (tt, s, [Kill p])
  | Some (lifetime, coaddress, s1) =>
      let s2 := set_pending (mn_pending s ++
                  [Request (i_src i) coaddress (s32 (env_id e)) lifetime lifetime (env_port e)]) s1 in
      match mem with
      | None => RegReq_push mem e p s = Ok (tt, s2, [Kill p])
      | Some _ =>
          exists q j u,
            RegReq_push mem e p s = Ok (tt, s2, [Push 0 q; Kill p]) /\
            datagram q j u (enc_regreq (request_of s (env_id e) lifetime coaddress)) /\
            i_src j = mn_home_address s /\ i_dst j = i_src i
      end
  end.
Proof.
  intros Hc Hs. pose proof (cadv_src _ _ _ _ Hc) as Hsrc.
  pose proof (cadv_flags _ _ _ _ Hc) as Hfl. pose proof (cadv_ext_address _ _ _ _ Hc) as Had.
  pose proof (cadv_ext_lifetime _ _ _ _ Hc) as Hlt.
  assert (Hin : in32 (i_src i)) by (by destruct Hc as [_ [] _ _]).
  unfold reaction, RegReq_push. rewrite <- !flag_testbit.
  destruct (i_src i =? mn_gateway s) eqn:Eg.
  - destruct (negb (mn_foreign_agent s =? mn_gateway s) && flag (x_flags x) 5) eqn:Eh;
      [|hcompute; rewrite Eg, Eh; hcompute; reflexivity].
    set (s1 := set_lifetime 0 (set_foreign_agent (mn_gateway s) s)).
    destruct mem as [m|].
    2: { hcompute. rewrite Eg, Eh. hcompute. reflexivity. }
    destruct (RegReq_make_packet_run m e s1 (i_src i) 0 (mn_home_address s))
      as (q & j & u & Hq & Hd & H1 & H2 & _); [by destruct Hs|done|].
    exists q, j, u. split; [|split; [exact Hd|split; [exact H1|exact H2]]].
    hcompute. rewrite Eg, Eh. hcompute. fold s1. change (mn_home_address s1) with (mn_home_address s).
    rewrite Hq. reflexivity.
  - destruct (flag (x_flags x) 4) eqn:Ef; [|hcompute; rewrite Eg, Ef; hcompute; reflexivity].
    destruct mem as [m|].
    2: { hcompute. rewrite Eg, Ef. hcompute. reflexivity. }
    destruct (RegReq_make_packet_run m e s (i_src i) (htons (x_lifetime x)) (x_address x))
      as (q & j & u & Hq & Hd & H1 & H2 & _); [done|done|].
    exists q, j, u. split; [|split; [exact Hd|split; [exact H1|exact H2]]].
    hcompute. rewrite Eg, Ef. hcompute. reflexivity.
Qed.
End React.

Definition sample_adv_packet : packet :=
  bare (enc_ip (IpHdr 69 0 (htons 48) 0 0 1 1 0 16777227 broadcast) ++
        enc_adv (AdvH 9 0 0 1 2 (htons 3) 16777227 0) ++
        enc_adv_ext (AdvExt 16 10 0 (htons 60) 16 0 16777228)).
Lemma sample_adv_carries :
  carries_adv sample_adv_packet (IpHdr 69 0 (htons 48) 0 0 1 1 0 16777227 broadcast)
    (AdvH 9 0 0 1 2 (htons 3) 16777227 0) (AdvExt 16 10 0 (htons 60) 16 0 16777228).
Proof. constructor; [by exists []|sample_ok..]. Qed.

Theorem RegReq_push_spec_witness :
  exists q j u, RegReq_push (Some (fun _ => 0)) (RegEnv 1 2 3) sample_adv_packet sample_mn =
    Ok (tt, set_pending (mn_pending sample_mn ++
              [Request 16777227 16777228 (s32 (env_id (RegEnv 1 2 3))) 60 60 3]) sample_mn,
        [Push 0 q; Kill sample_adv_packet]) /\
    datagram q j u (enc_regreq (request_of sample_mn (env_id (RegEnv 1 2 3)) 60 16777228)) /\
    i_src j = 16777226 /\ i_dst j = 16777227.
Proof.
  exact (RegReq_push_spec (Some (fun _ => 0)) (RegEnv 1 2 3) sample_mn _ _ _ _ sample_adv_carries
    sample_mn_ok).
Defined.
