(* ===== verification/ForeignAgent.v ===== *)
(** * The foreign agent: [relay.cc] and [checkencap.cc]

    [Relay] passes registration requests on to home agents and replies back to mobile nodes,
    keeps the pending requests and the registrations of its visitors, and ages them every
    second.  Packets reach it with their link-layer header, so the IP header is at offset 14.
    [CheckEncap] picks out IP-in-IP packets for decapsulation. *)
From Stdlib Require Import ZArith Lia.
From stdpp Require Import base list numbers option.
From S2P Require Import Prelude Checksum Vector Packet Wire Build Mobility.

(** [Relay::createRep] *)
Definition Relay_createRep (mem : memory) (code ips ipd udpd id home_agent : Z)
  : res (option packet) :=
  let psize := (sizeof_click_ip + sizeof_click_udp + sizeof_regrep_h)%nat in
  mp ← make mem (sizeof_click_ether + 4) None psize 0;
  match mp with
  | None => Ok None
  | Some p =>
      let p := memset0 p in
      p ← set_ip_v 0 4 p;
      p ← set_ip_hl 0 5 p;
      p ← setf 0 ip_tos 0 p;
      p ← setf 0 ip_len (htons (Z.of_nat psize)) p;
      p ← setf 0 ip_ttl 64 p;
      p ← setf 0 ip_p 17 p;
      p ← setf 0 ip_src ips p;
      p ← setf 0 ip_dst ipd p;
      hdr ← pbytes p 0 sizeof_click_ip;
      p ← setf 0 ip_sum (click_in_cksum hdr) p;
      let p := set_dst_ip_anno ipd p in
      p ← setf 20 uh_sport (htons 434) p;
      p ← setf 20 uh_dport (htons udpd) p;
      p ← setf 20 uh_ulen (htons (Z.of_nat (plength p) - 20)) p;
      p ← setf 28 rep_type 3 p;
      p ← setf 28 rep_code code p;
      p ← setf 28 rep_lifetime 0 p;
      p ← setf 28 rep_home_address ipd p;
      p ← setf 28 rep_identification id p;
      p ← setf 28 rep_home_agent home_agent p;
      sum ← transport_sum p 0 (psize - sizeof_click_ip);
      p ← setf 20 uh_sum sum p;
      Ok (Some p)
  end.

(** [output(port).push(createRep(...))]: a null packet is dereferenced downstream. *)
Definition Relay_push_rep (port : nat) (mem : memory) (code ips ipd udpd id home_agent : Z)
  : handler fa event unit :=
  mp <-? Relay_createRep mem code ips ipd udpd id home_agent ;;
  match mp with
  | Some p => hemit (Push port p)
  | None => hlift (Fault NullDeref)
  end.

(** The checksum test both relaying functions start with. *)
Definition Relay_bad_checksum (p : packet) (psize : nat) : res bool :=
  c ← transport_sum p 14 (psize - sizeof_click_ip);
  if negb (c =? 0) then us ← getf p 34 uh_sum; Ok (negb (ntohs us =? 0)) else Ok false.

(** The code a request is rejected with, if it is. *)
Definition Relay_reject_code (registrationLimit : Z) (nregs : nat) (flags : Z) : option Z :=
  if flag flags 3 || flag flags 4 then Some 70
  else if flag flags 0 || flag flags 2 then Some 70
  else if (-1 <? registrationLimit) && (registrationLimit <=? Z.of_nat nregs) then Some 66
  else None.

(** The pending entry a request leaves. *)
Definition Relay_entry (p : packet) : res vEntry :=
  eth_src ← pbytes p 6 6;
  ip_src ← getf p 14 ip_src;
  ip_dst ← getf p 14 ip_dst;
  udp_src ← getf p 34 uh_sport;
  home_agent ← getf p 42 req_home_agent;
  id ← getf p 42 req_identification;
  lt ← getf p 42 req_lifetime;
  Ok (VEntry eth_src ip_src ip_dst (ntohs udp_src) home_agent id (ntohs lt) (ntohs lt)).

(** The last lines of [relayReq].  [iph], [udph] and [reqh] point into [p]'s buffer: when [p]
    was not shared that is also the buffer being rewritten. *)
Definition Relay_rewrite_req (agent rnd : Z) (psize : nat) (p pck : packet) : res packet :=
  let alias (q : packet) := if pk_shared p then p else q in
  pck ← setf 14 ip_len (htons (Z.of_nat psize)) pck;
  pck ← setf 14 ip_ttl 64 pck;
  pck ← setf 14 ip_src agent pck;
  ha ← getf (alias pck) 42 req_home_agent;
  pck ← setf 14 ip_dst ha pck;
  dst ← getf (alias pck) 14 ip_dst;
  let pck := set_dst_ip_anno dst pck in
  pck ← setf 34 uh_sport (htons (rnd mod (65535 - 49152) + 49152)) pck;
  dport ← getf (alias pck) 34 uh_dport;
  pck ← setf 34 uh_dport dport pck;
  pck ← setf 34 uh_sum (htons 0) pck;
  sum ← transport_sum pck 14 (psize - sizeof_click_ip);
  setf 34 uh_sum sum pck.

(** [Relay::relayReq]; [vmem] tells whether the vector can grow, [rnd] is [rand()]. *)
Definition Relay_relayReq (mem : memory) (vmem : bool) (rnd registrationLimit : Z) (p : packet)
  : handler fa event unit :=
  let psize := (plength p - sizeof_click_ether)%nat in
  bad <-? Relay_bad_checksum p psize ;;
  if (bad : bool) then hemit (Kill p)
  else
    s <-- hget ;;
    flags <-? getf p 42 req_flags ;;
    match Relay_reject_code registrationLimit (length (fa_registrations s)) flags with
    | Some code =>
        ips <-? getf p 14 ip_dst ;;
        ipd <-? getf p 14 ip_src ;;
        udpd <-? getf p 34 uh_sport ;;
        id <-? getf p 42 req_identification ;;
        ha <-? getf p 42 req_home_agent ;;
        Relay_push_rep 0 mem code ips ipd udpd (u16 id) ha ;;;
        hemit (Kill p)
    | None =>
        entry <-? Relay_entry p ;;
        hput (set_requests (vpush_back vmem entry (fa_requests s)) s) ;;;
        mp <-? uniqueify mem p ;;
        pck <-? opt_res NullDeref mp ;;
        pck <-? Relay_rewrite_req (fa_address s) rnd psize p pck ;;
        hemit (Push 1 pck)
    end.

(** The first pending request of a home address. *)
Fixpoint Relay_find_request (home : Z) (i : nat) (l : list vEntry) : option (nat * vEntry) :=
  match l with
  | [] => None
  | e :: l' => if ve_ip_src e =? home then Some (i, e) else Relay_find_request home (S i) l'
  end.

(** The loops of [relayRep] over the registrations have no [break]: the last match counts. *)
Fixpoint Relay_last_registration (home : Z) (i : nat) (l : list (Z * vEntry)) (iter : option nat)
  : option nat :=
  match l with
  | [] => iter
  | e :: l' => Relay_last_registration home (S i) l' (if fst e =? home then Some i else iter)
  end.

(** The registrations after an accepted reply with lifetime field [lt]. *)
Definition Relay_update_registrations (home lt : Z) (entry : vEntry) (l : list (Z * vEntry))
  : list (Z * vEntry) :=
  if negb (ntohs lt =? 0) then
    let newpair := (home, set_remaining_lifetime lt entry) in
    match Relay_last_registration home 0 l None with
    | None => l ++ [newpair]
    | Some iter => <[iter := newpair]> l
    end
  else delete (default 0%nat (Relay_last_registration home 0 l (Some 0%nat))) l.

(** The last lines of [relayRep]; [udp_src] is read through the kept [entry] pointer. *)
Definition Relay_rewrite_rep (privateIP udp_src : Z) (psize : nat) (p pck : packet)
  : res packet :=
  let alias (q : packet) := if pk_shared p then p else q in
  pck ← setf 14 ip_src privateIP pck;
  home ← getf (alias pck) 42 rep_home_address;
  pck ← setf 14 ip_dst home pck;
  dst ← getf pck 14 ip_dst;
  let pck := set_dst_ip_anno dst pck in
  sport ← getf (alias pck) 34 uh_sport;
  pck ← setf 34 uh_sport sport pck;
  pck ← setf 34 uh_dport (htons udp_src) pck;
  pck ← setf 34 uh_sum (htons 0) pck;
  sum ← transport_sum pck 14 (psize - sizeof_click_ip);
  setf 34 uh_sum sum pck.

(** [Relay::relayRep] *)
Definition Relay_relayRep (mem : memory) (privateIP : Z) (p : packet) : handler fa event unit :=
  let psize := (plength p - sizeof_click_ether)%nat in
  bad <-? Relay_bad_checksum p psize ;;
  if (bad : bool) then hemit (Kill p)
  else
    s <-- hget ;;
    home <-? getf p 42 rep_home_address ;;
    match Relay_find_request home 0 (v_live (fa_requests s)) with
    | None => hemit (Kill p)
    | Some (iteration, entry) =>
        code <-? getf p 42 rep_code ;;
        lt <-? getf p 42 rep_lifetime ;;
        (if (code =? 0) || (code =? 1) then
           hmodify (fun s => set_registrations
                               (Relay_update_registrations home lt entry (fa_registrations s)) s)
         else hret tt) ;;;
        reqs <-? verase iteration (fa_requests s) ;;
        hmodify (set_requests reqs) ;;;
        mp <-? uniqueify mem p ;;
        pck <-? opt_res NullDeref mp ;;
        stale <-? vslot reqs iteration ;;
        pck <-? Relay_rewrite_rep privateIP (ve_udp_src stale) psize p pck ;;
        let pck := pull 14 pck in
        if negb (pk_shared pck) then hemit (Push 0 pck) else hlift (Fault AssertFailed)
    end.

(** The loop of [Relay::push] over the pending requests when a home agent is unreachable:
    [i] advances also after an erasure. *)
Fixpoint Relay_unreachable_loop (mem : memory) (ha code : Z) (fuel i : nat)
  : handler fa event unit :=
  match fuel with
  | O => hret tt
  | S fuel' =>
      s <-- hget ;;
      match v_live (fa_requests s) !! i with
      | None => hret tt
      | Some r =>
          (if ve_home_agent r =? ha then
             reqs <-? verase i (fa_requests s) ;;
             hput (set_requests reqs s) ;;;
             Relay_push_rep 0 mem code (ve_ip_dst r) (ve_ip_src r) (ve_udp_src r) (ve_id r) ha
           else hret tt) ;;;
          Relay_unreachable_loop mem ha code fuel' (S i)
      end
  end.

(** The reply code [Relay::push] works out for an ICMP unreachable code ([error]); the reply is
    then built with the ICMP [code] itself. *)
Definition Relay_error (code : Z) : Z :=
  if code =? 0 then 80 else if code =? 1 then 81 else if code =? 3 then 82 else 88.

(** [Relay::push] *)
Definition Relay_push (mem : memory) (vmem : bool) (rnd registrationLimit privateIP : Z)
    (p : packet) : handler fa event unit :=
  proto <-? getf p 14 ip_p ;;
  if proto =? 1 then
    type <-? getf p 34 icmp_type ;;
    if type =? 3 then
      ha <-? getf p 42 ip_dst ;;
      code <-? getf p 34 icmp_code ;;
      s <-- hget ;;
      Relay_unreachable_loop mem ha code (vsize (fa_requests s)) 0
    else hret tt
  else
    if (plength p =? 14 + (sizeof_click_ip + sizeof_click_udp + sizeof_regreq_h))%nat
    then Relay_relayReq mem vmem rnd registrationLimit p
    else if (plength p =? 14 + (sizeof_click_ip + sizeof_click_udp + sizeof_regrep_h))%nat
    then Relay_relayRep mem privateIP p
    else hret tt.

(** ** [Relay::run_timer] *)

Definition Relay_expire_registrations (l : list (Z * vEntry)) : list (Z * vEntry) :=
  map (fun e => if 0 <? ve_remaining_lifetime (snd e)
                then (fst e, set_remaining_lifetime (u16 (ve_remaining_lifetime (snd e) - 1)) (snd e))
                else e)
    (erase_loop (fun e => ve_remaining_lifetime (snd e) <=? 0) (length l) 0 l).

(** The loop over the pending requests; each round erases a request or advances [i], and a
    timeout reply ends it. *)
Fixpoint Relay_requests_loop (mem : memory) (fuel i : nat) : handler fa event unit :=
  match fuel with
  | O => hret tt
  | S fuel' =>
      s <-- hget ;;
      match v_live (fa_requests s) !! i with
      | None => hret tt
      | Some r =>
          let lifetime := ntohs (ve_remaining_lifetime r) in
          if 0 <? ve_requested_lifetime r then
            let r' := set_remaining_lifetime (htons (u16 (lifetime - 1))) r in
            reqs <-? vset i r' (fa_requests s) ;;
            hput (set_requests reqs s) ;;;
            if 7 <? ve_requested_lifetime r' - ve_remaining_lifetime r' then
              Relay_push_rep 0 mem 78 (ve_ip_dst r') (ve_ip_src r') (ve_udp_src r')
                (htonl (u32 (ve_id r'))) (ve_home_agent r') ;;;
              reqs <-? verase i reqs ;;
              hmodify (set_requests reqs)
            else Relay_requests_loop mem fuel' (S i)
          else
            reqs <-? verase i (fa_requests s) ;;
            hput (set_requests reqs s) ;;;
            Relay_requests_loop mem fuel' i
      end
  end.

Definition Relay_run_timer (mem : memory) : handler fa event unit :=
  hmodify (fun s => set_registrations (Relay_expire_registrations (fa_registrations s)) s) ;;;
  s <-- hget ;;
  Relay_requests_loop mem (vsize (fa_requests s)) 0 ;;;
  hemit (Schedule 1000).

(** ** [CheckEncap::push] *)
Definition CheckEncap_push (p : packet) : handler unit event unit :=
  proto <-? getf p 0 ip_p ;;
  hemit (Push (if proto =? 4 then 0 else 1) p).

(** ** Rewriting a packet behind its link-layer header *)
Section Behind.
Context (pre : list Z) (Hpre : length pre = 14%nat).

Lemma setf_behind k f v d d' p :
  setf k f v (set_data d p) = Ok (set_data d' p) -> (k + f_off f + f_width f <= length d)%nat ->
  setf (14 + k) f v (set_data (pre ++ d) p) = Ok (set_data (pre ++ d') p).
Proof using Hpre.
  unfold setf. intros H Hl. rewrite pst_data in H by done. rewrite pst_data; simpl pk_data.
  - rewrite <- Hpre, <- Nat.add_assoc, wrn_app_r. by injection H as [= <-].
  - unfold plength. simpl. rewrite length_app. lia.
Qed.

Section Ip.
Context (x0 x1 x2 x3 x4 x5 x6 x7 x8 x9 : Z) (l : list Z) (p : packet) (v : Z).
Abbreviation hdr y0 y1 y2 y3 y4 y5 y6 y7 y8 y9 :=
  (set_data (pre ++ enc_ip (IpHdr y0 y1 y2 y3 y4 y5 y6 y7 y8 y9) ++ l) p).
Lemma behind_ip_len :
  setf 14 ip_len v (hdr x0 x1 x2 x3 x4 x5 x6 x7 x8 x9) = Ok (hdr x0 x1 v x3 x4 x5 x6 x7 x8 x9).
Proof using Hpre. apply (setf_behind 0); [apply set_ip_len|cbn; lia]. Qed.
Lemma behind_ip_ttl :
  setf 14 ip_ttl v (hdr x0 x1 x2 x3 x4 x5 x6 x7 x8 x9) = Ok (hdr x0 x1 x2 x3 x4 v x6 x7 x8 x9).
Proof using Hpre. apply (setf_behind 0); [apply set_ip_ttl|cbn; lia]. Qed.
Lemma behind_ip_src :
  setf 14 ip_src v (hdr x0 x1 x2 x3 x4 x5 x6 x7 x8 x9) = Ok (hdr x0 x1 x2 x3 x4 x5 x6 x7 v x9).
Proof using Hpre. apply (setf_behind 0); [apply set_ip_src|cbn; lia]. Qed.
Lemma behind_ip_dst :
  setf 14 ip_dst v (hdr x0 x1 x2 x3 x4 x5 x6 x7 x8 x9) = Ok (hdr x0 x1 x2 x3 x4 x5 x6 x7 x8 v).
Proof using Hpre. apply (setf_behind 0); [apply set_ip_dst|cbn; lia]. Qed.
End Ip.
Section Udp.
Context (i : ip_hdr) (x0 x1 x2 x3 : Z) (l : list Z) (p : packet) (v : Z).
Abbreviation hdr y0 y1 y2 y3 :=
  (set_data (pre ++ enc_ip i ++ enc_udp (UdpHdr y0 y1 y2 y3) ++ l) p).
Lemma behind_uh_sport : setf 34 uh_sport v (hdr x0 x1 x2 x3) = Ok (hdr v x1 x2 x3).
Proof using Hpre. apply (setf_behind 20); [apply set_uh_sport|cbn; lia]. Qed.
Lemma behind_uh_dport : setf 34 uh_dport v (hdr x0 x1 x2 x3) = Ok (hdr x0 v x2 x3).
Proof using Hpre. apply (setf_behind 20); [apply set_uh_dport|cbn; lia]. Qed.
Lemma behind_uh_sum : setf 34 uh_sum v (hdr x0 x1 x2 x3) = Ok (hdr x0 x1 x2 v).
Proof using Hpre. apply (setf_behind 20); [apply set_uh_sum|cbn; lia]. Qed.
End Udp.

Lemma behind_carries p i u msg :
  pk_data p = pre ++ enc_ip i ++ enc_udp u ++ msg -> ip_ok i -> udp_ok u ->
  carries 14 p i u msg.
Proof using Hpre. intros Hd Hi Hu. split; try done. exists pre, []. by rewrite app_nil_r. Qed.

Lemma behind_dst p i l :
  getf (set_data (pre ++ enc_ip i ++ l) p) 14 ip_dst = Ok (u32 (i_dst i)).
Proof using Hpre.
  apply (getf_pre pre (enc_ip i ++ l) _ 14 0); [done|done|simpl; lia|]. wire_eval. done.
Qed.
Lemma behind_dport p i u l :
  getf (set_data (pre ++ enc_ip i ++ enc_udp u ++ l) p) 34 uh_dport = Ok (u16 (u_dport u)).
Proof using Hpre.
  apply (getf_pre pre (enc_ip i ++ enc_udp u ++ l) _ 14 20); [done|done|simpl; lia|].
  wire_eval. done.
Qed.
Lemma behind_sport p i u l :
  getf (set_data (pre ++ enc_ip i ++ enc_udp u ++ l) p) 34 uh_sport = Ok (u16 (u_sport u)).
Proof using Hpre.
  apply (getf_pre pre (enc_ip i ++ enc_udp u ++ l) _ 14 20); [done|done|simpl; lia|].
  wire_eval. done.
Qed.
Lemma behind_agent p i u r :
  getf (set_data (pre ++ enc_ip i ++ enc_udp u ++ enc_regreq r) p) 42 req_home_agent =
  Ok (u32 (rq_home_agent r)).
Proof using Hpre.
  apply (getf_pre pre (enc_ip i ++ enc_udp u ++ enc_regreq r) _ 14 28);
    [done|done|simpl; lia|]. wire_eval. done.
Qed.
Lemma behind_home p i u r :
  getf (set_data (pre ++ enc_ip i ++ enc_udp u ++ enc_regrep r) p) 42 rep_home_address =
  Ok (u32 (rp_home_address r)).
Proof using Hpre.
  apply (getf_pre pre (enc_ip i ++ enc_udp u ++ enc_regrep r) _ 14 28);
    [done|done|simpl; lia|]. wire_eval. done.
Qed.

(** The checksum of the datagram behind the link-layer header. *)
Lemma behind_transport_sum p i u msg :
  pk_data p = pre ++ enc_ip i ++ enc_udp u ++ msg -> i_vhl i = 69 -> ip_ok i ->
  transport_sum p 14 (8 + length msg) =
  click_in_cksum_pseudohdr_raw (click_in_cksum (enc_udp u ++ msg)) (i_src i) (i_dst i) (i_p i)
    (Z.of_nat (8 + length msg)).
Proof using Hpre.
  intros Hd Hv Hi. apply (transport_sum_data pre i (enc_udp u ++ msg) []); try done.
  by rewrite Hd, app_nil_r, <- ?app_assoc.
Qed.
End Behind.

(** A UDP datagram as the foreign agent gets it: link-layer header, IP header without options,
    UDP header, message, nothing more; the UDP checksum is right. *)
Record frame (p : packet) (pre : list Z) (i : ip_hdr) (u : udp_hdr) (msg : list Z) : Prop := {
  fr_data : pk_data p = pre ++ enc_ip i ++ enc_udp u ++ msg;
  fr_pre : length pre = 14%nat;
  fr_ip : ip_ok i;
  fr_udp : udp_ok u;
  fr_vhl : i_vhl i = 69;
  fr_p : i_p i = 17;
  fr_sum : udp_verifies i u msg;
  fr_anno : length (pk_anno p) = anno_size
}.

Lemma frame_carries p pre i u msg : frame p pre i u msg -> carries 14 p i u msg.
Proof. intros []. by eapply behind_carries. Qed.

Lemma frame_length p pre i u msg :
  frame p pre i u msg -> plength p = (14 + (20 + (8 + length msg)))%nat.
Proof. intros []. unfold plength. rewrite fr_data0, !length_app, fr_pre0. cbn. lia. Qed.

Lemma frame_checksum p pre i u msg n :
  frame p pre i u msg -> n = (8 + length msg)%nat -> Relay_bad_checksum p (20 + n) = Ok false.
Proof.
  intros [Hd Hpre Hi _ Hv _ Hs _] ->. unfold Relay_bad_checksum.
  replace (20 + (8 + length msg) - sizeof_click_ip)%nat with (8 + length msg)%nat
    by (unfold sizeof_click_ip; lia).
  rewrite (behind_transport_sum pre Hpre p i u msg) by done.
  unfold udp_verifies in Hs. rewrite length_app in Hs. change (length (enc_udp u)) with 8%nat in Hs.
  by rewrite Hs.
Qed.

(** ** What relaying does to a packet *)

(** The header and datagram a relayed request leaves with; [sum] is its UDP checksum. *)
Definition relayed_ip (agent : Z) (len : nat) (home_agent : Z) (i : ip_hdr) : ip_hdr :=
  IpHdr (i_vhl i) (i_tos i) (htons (Z.of_nat len)) (i_id i) (i_off i) 64 (i_p i) (i_sum i)
    agent home_agent.
Definition relay_port (rnd : Z) : Z := rnd mod (65535 - 49152) + 49152.

Lemma relay_port_range rnd : 49152 <= relay_port rnd < 65535.
Proof. unfold relay_port. zdm. Qed.

(** Runs a rewriting function on [set_data (pre ++ ...)]. *)
Ltac behind_step Hpre :=
  first
    [ rewrite (behind_ip_len _ Hpre) | rewrite (behind_ip_ttl _ Hpre)
    | rewrite (behind_ip_src _ Hpre) | rewrite (behind_ip_dst _ Hpre)
    | rewrite (behind_uh_sport _ Hpre) | rewrite (behind_uh_dport _ Hpre)
    | rewrite (behind_uh_sum _ Hpre)
    | rewrite (behind_dst _ Hpre); cbn [i_dst] | rewrite (behind_dport _ Hpre); cbn [u_dport]
    | rewrite (behind_sport _ Hpre); cbn [u_sport]
    | rewrite (behind_agent _ Hpre) | rewrite (behind_home _ Hpre)
    | rewrite set_dst_ip_anno_data
    | match goal with
      | H : getf ?q ?b ?f = Ok ?v |- context [getf ?q ?b ?f] => rewrite H
      end ]; rewrite ?bind_ok; cbv beta.

Lemma Relay_rewrite_req_run agent rnd p q pre i u r :
  frame p pre i u (enc_regreq r) -> regreq_ok r -> in32 agent -> pk_data q = pk_data p ->
  exists c,
    let i' := relayed_ip agent 52 (rq_home_agent r) i in
    let u' := UdpHdr (htons (relay_port rnd)) (u_dport u) (u_ulen u) c in
    Relay_rewrite_req agent rnd 52 p q =
      Ok (set_data (pre ++ enc_ip i' ++ enc_udp u' ++ enc_regreq r)
            (set_dst_ip_anno (if pk_shared p then i_dst i else rq_home_agent r) q)) /\
    in16 c /\ udp_verifies i' u' (enc_regreq r).
Proof.
  intros Hf Hr Ha Hq. pose proof (frame_carries _ _ _ _ _ Hf) as Hc.
  pose proof (ca_dst _ _ _ _ _ Hc). pose proof (ca_dport _ _ _ _ _ Hc).
  pose proof (cq_agent _ _ _ _ _ (conj Hc Hr)). cbn [Nat.add] in *.
  destruct Hf as [Hd Hpre Hi Hu Hv Hp _ _].
  rewrite <- (set_data_id q), Hq, Hd.
  destruct i as [i0 i1 i2 i3 i4 i5 i6 i7 i8 i9], u as [u0 u1 u2 u3]. hdr_cbn.
  set (i' := relayed_ip agent 52 (rq_home_agent r) (IpHdr i0 i1 i2 i3 i4 i5 i6 i7 i8 i9)).
  set (u1' := UdpHdr (htons (relay_port rnd)) u1 u2 0).
  assert (Hi' : ip_ok i').
  { destruct Hi, Hr. constructor; cbn in *; auto with wire. }
  destruct (udp_fill i' u1' (enc_regreq r) eq_refl ltac:(auto with bytes) eq_refl Hi')
    as (c & Hcs & Hcr & Hok).
  exists c. split; [|split; [exact Hcr|exact Hok]].
  unfold Relay_rewrite_req. change (rnd mod (65535 - 49152) + 49152) with (relay_port rnd).
  change (htons 0) with 0. destruct Hi, Hu, Hr. hdr_cbn.
  destruct (pk_shared p); repeat behind_step Hpre; rewrite ?u16_small, ?u32_small by in_range;
    repeat behind_step Hpre;
    fold i'; fold u1'; change (52 - sizeof_click_ip)%nat with (8 + length (enc_regreq r))%nat;
    rewrite (behind_transport_sum pre Hpre _ i' u1' (enc_regreq r)) by done;
    change (8 + length (enc_regreq r))%nat with (length (enc_udp u1' ++ enc_regreq r));
    rewrite Hcs, bind_ok; unfold u1'; repeat behind_step Hpre; reflexivity.
Qed.

Lemma Relay_rewrite_rep_run privateIP udp_src p q pre i u r :
  frame p pre i u (enc_regrep r) -> regrep_ok r -> in32 privateIP -> pk_data q = pk_data p ->
  exists c,
    let i' := IpHdr (i_vhl i) (i_tos i) (i_len i) (i_id i) (i_off i) (i_ttl i) (i_p i) (i_sum i)
                privateIP (rp_home_address r) in
    let u' := UdpHdr (u_sport u) (htons udp_src) (u_ulen u) c in
    Relay_rewrite_rep privateIP udp_src 48 p q =
      Ok (set_data (pre ++ enc_ip i' ++ enc_udp u' ++ enc_regrep r)
            (set_dst_ip_anno (rp_home_address r) q)) /\
    in16 c /\ udp_verifies i' u' (enc_regrep r).
Proof.
  intros Hf Hr Ha Hq. pose proof (frame_carries _ _ _ _ _ Hf) as Hc.
  pose proof (ca_sport _ _ _ _ _ Hc). pose proof (cp_home _ _ _ _ _ (conj Hc Hr)).
  cbn [Nat.add] in *. destruct Hf as [Hd Hpre Hi Hu Hv Hp _ _].
  rewrite <- (set_data_id q), Hq, Hd.
  destruct i as [i0 i1 i2 i3 i4 i5 i6 i7 i8 i9], u as [u0 u1 u2 u3]. hdr_cbn.
  set (i' := IpHdr i0 i1 i2 i3 i4 i5 i6 i7 privateIP (rp_home_address r)).
  set (u1' := UdpHdr u0 (htons udp_src) u2 0).
  assert (Hi' : ip_ok i').
  { destruct Hi, Hr. constructor; cbn in *; auto with wire. }
  destruct (udp_fill i' u1' (enc_regrep r) eq_refl ltac:(auto with bytes) eq_refl Hi')
    as (c & Hcs & Hcr & Hok).
  exists c. split; [|split; [exact Hcr|exact Hok]].
  unfold Relay_rewrite_rep. change (htons 0) with 0. destruct Hi, Hu, Hr. hdr_cbn.
  destruct (pk_shared p); repeat behind_step Hpre; rewrite ?u16_small, ?u32_small by in_range;
    repeat behind_step Hpre; rewrite ?u16_small, ?u32_small by in_range;
    repeat behind_step Hpre;
    fold i'; fold u1'; change (48 - sizeof_click_ip)%nat with (8 + length (enc_regrep r))%nat;
    rewrite (behind_transport_sum pre Hpre _ i' u1' (enc_regrep r)) by done;
    change (8 + length (enc_regrep r))%nat with (length (enc_udp u1' ++ enc_regrep r));
    rewrite Hcs, bind_ok; unfold u1'; repeat behind_step Hpre; reflexivity.
Qed.

(** ** Replies the relay makes itself *)
Lemma Relay_createRep_spec m code ips ipd udpd id home_agent :
  in8 code -> in32 ips -> in32 ipd -> in64 id -> in32 home_agent ->
  exists p i u,
    Relay_createRep (Some m) code ips ipd udpd id home_agent = Ok (Some p) /\
    datagram p i u (enc_regrep (RegrepH 3 code 0 ipd home_agent id)) /\
    i_src i = ips /\ i_dst i = ipd /\ u_sport u = htons 434 /\ u_dport u = htons udpd.
Proof.
  intros Hcode Hs Hd Hid Hha. unfold Relay_createRep. rewrite make_some, memset0_made.
  change (sizeof_click_ip + sizeof_click_udp + sizeof_regrep_h)%nat with 48%nat.
  rewrite zero_rep. build. change (48 - sizeof_click_ip)%nat with 28%nat.
  edestruct datagram_finish as (c & q & Hq & Hdg).
  15: { exists q. eexists _, _. split; [exact Hq|]. split; [exact Hdg|]. done. }
  all: headers_ok.
Qed.

(** ** [relayReq] *)
Definition entry_of (pre : list Z) (i : ip_hdr) (u : udp_hdr) (r : regreq) : vEntry :=
  VEntry (take 6 (drop 6 pre)) (i_src i) (i_dst i) (ntohs (u_sport u)) (rq_home_agent r)
    (rq_identification r) (ntohs (rq_lifetime r)) (ntohs (rq_lifetime r)).

Lemma Relay_entry_spec p pre i u r :
  frame p pre i u (enc_regreq r) -> regreq_ok r -> Relay_entry p = Ok (entry_of pre i u r).
Proof.
  intros Hf Hr. pose proof (frame_carries _ _ _ _ _ Hf) as Hc.
  pose proof (frame_length _ _ _ _ _ Hf) as Hl.
  unfold Relay_entry. rewrite pbytes_data by (rewrite Hl; cbn; lia).
  pose proof (ca_src 14 p i u _ Hc). pose proof (ca_dst 14 p i u _ Hc).
  pose proof (ca_sport 14 p i u _ Hc). pose proof (cq_agent 14 p i u r (conj Hc Hr)).
  pose proof (cq_id 14 p i u r (conj Hc Hr)). pose proof (cq_lifetime 14 p i u r (conj Hc Hr)).
  cbn [Nat.add mbind res_bind] in *. use_reads.
  destruct Hf as [Hd Hpre _ _ _ _ _ _]. unfold entry_of. do 2 f_equal.
  rewrite Hd, drop_app_le, take_app_le by (rewrite ?length_drop; lia). done.
Qed.

(** A request with none of the unsupported flags, below the registration limit. *)
Definition relay_accepts (registrationLimit : Z) (nregs : nat) (r : regreq) : Prop :=
  Relay_reject_code registrationLimit nregs (rq_flags r) = None.

Lemma uniqueify_some m p :
  exists q, uniqueify (Some m) p = Ok (Some q) /\ pk_data q = pk_data p /\ pk_shared q = false /\
    pk_anno q = pk_anno p /\ nh_rel q = nh_rel p /\ pk_ptype q = pk_ptype p.
Proof. destruct (uniqueify_spec m p) as (q & ? & ? & ? & ? & ? & ? & _). by exists q. Qed.

Lemma Relay_push_req_run m rnd limit priv s p pre i u r :
  frame p pre i u (enc_regreq r) -> regreq_ok r -> in32 (fa_address s) ->
  relay_accepts limit (length (fa_registrations s)) r ->
  exists q c,
    let i' := relayed_ip (fa_address s) 52 (rq_home_agent r) i in
    let u' := UdpHdr (htons (relay_port rnd)) (u_dport u) (u_ulen u) c in
    Relay_push (Some m) true rnd limit priv p s =
      Ok (tt, set_requests (vpush_back true (entry_of pre i u r) (fa_requests s)) s,
          [Push 1 q]) /\
    pk_data q = pre ++ enc_ip i' ++ enc_udp u' ++ enc_regreq r /\ in16 c /\
    udp_verifies i' u' (enc_regreq r) /\
    dst_ip_anno q = Some (if pk_shared p then i_dst i else rq_home_agent r) /\
    pk_shared q = false /\ length (pk_anno q) = anno_size /\ nh_rel q = nh_rel p /\
    drop 4 (pk_anno q) = drop 4 (pk_anno p) /\ pk_ptype q = pk_ptype p.
Proof.
  intros Hf Hr Ha Hacc. pose proof (frame_carries _ _ _ _ _ Hf) as Hc.
  pose proof (ca_p _ _ _ _ _ Hc) as Hproto. rewrite (fr_p _ _ _ _ _ Hf) in Hproto.
  pose proof (cq_flags _ _ _ _ _ (conj Hc Hr)) as Hfl.
  pose proof (frame_length _ _ _ _ _ Hf) as Hl. change (length (enc_regreq r)) with 24%nat in Hl.
  pose proof (Relay_entry_spec _ _ _ _ _ Hf Hr) as He.
  destruct (uniqueify_some m p) as (q & Hq & Hqd & Hqs & Hqa & Hqn & Hqp).
  destruct (Relay_rewrite_req_run (fa_address s) rnd p q pre i u r Hf Hr Ha Hqd)
    as (c & Hrw & Hcr & Hok).
  pose proof (frame_checksum p pre i u _ 32 Hf eq_refl) as Hck. cbn [Nat.add] in *.
  match type of Hrw with _ = Ok ?q' => exists q', c end.
  split; [|split; [reflexivity|split; [exact Hcr|split; [exact Hok|]]]].
  - unfold Relay_push. hrun. rewrite Hl. cbn [Z.eqb Pos.eqb Nat.eqb Nat.add sizeof_click_ip
      sizeof_click_udp sizeof_regreq_h].
    unfold Relay_relayReq. rewrite Hl. change (66 - sizeof_click_ether)%nat with 52%nat. hrun.
    unfold relay_accepts in Hacc. rewrite Hacc. hrun. reflexivity.
  - split; [|split; [exact Hqs|split; [|split; [exact Hqn|split; [|exact Hqp]]]]];
      [|cbn; by rewrite length_wrn, Hqa; apply Hf
       |cbn [pk_anno set_data set_dst_ip_anno set_anno]; rewrite drop_wrn, Hqa by (cbn; lia); done].
    rewrite <- set_dst_ip_anno_data, dst_ip_anno_set
      by (simpl; rewrite Hqa; apply Hf).
    rewrite u32_small; [done|]. destruct Hf as [_ _ [] _ _ _ _ _], Hr.
    destruct (pk_shared p); in_range.
Qed.

(** ** [relayRep] *)

(** The registrations and the pending requests after an accepted or denied reply. *)
Definition after_reply (r : regrep) (entry : vEntry) (reqs : vector vEntry) (s : fa) : fa :=
  set_requests reqs
    (if (rp_code r =? 0) || (rp_code r =? 1)
     then set_registrations (Relay_update_registrations (rp_home_address r) (rp_lifetime r) entry
                               (fa_registrations s)) s
     else s).

Lemma Relay_push_rep_run m rnd limit priv s p pre i u r it entry :
  frame p pre i u (enc_regrep r) -> regrep_ok r -> in32 priv ->
  Relay_find_request (rp_home_address r) 0 (v_live (fa_requests s)) = Some (it, entry) ->
  v_live (fa_requests s) !! it = Some entry ->
  exists q reqs c,
    let next := default entry (v_live (fa_requests s) !! S it) in
    let i' := IpHdr (i_vhl i) (i_tos i) (i_len i) (i_id i) (i_off i) (i_ttl i) (i_p i) (i_sum i)
                priv (rp_home_address r) in
    let u' := UdpHdr (u_sport u) (htons (ve_udp_src next)) (u_ulen u) c in
    Relay_push (Some m) true rnd limit priv p s =
      Ok (tt, after_reply r entry reqs s, [Push 0 q]) /\
    v_live reqs = delete it (v_live (fa_requests s)) /\
    pk_data q = enc_ip i' ++ enc_udp u' ++ enc_regrep r /\ in16 c /\
    udp_verifies i' u' (enc_regrep r) /\
    dst_ip_anno q = Some (rp_home_address r) /\ pk_shared q = false.
Proof.
  intros Hf Hr Ha Hfind Hit. pose proof (frame_carries _ _ _ _ _ Hf) as Hc.
  pose proof (ca_p _ _ _ _ _ Hc) as Hproto. rewrite (fr_p _ _ _ _ _ Hf) in Hproto.
  pose proof (cp_home _ _ _ _ _ (conj Hc Hr)) as Hhome.
  pose proof (cp_code _ _ _ _ _ (conj Hc Hr)) as Hcode.
  pose proof (cp_lifetime _ _ _ _ _ (conj Hc Hr)) as Hlt.
  pose proof (frame_length _ _ _ _ _ Hf) as Hl. change (length (enc_regrep r)) with 20%nat in Hl.
  destruct (uniqueify_some m p) as (q & Hq & Hqd & Hqs & Hqa & _).
  destruct (verase_ok it (fa_requests s)) as [reqs Hreqs].
  pose proof (verase_live _ _ _ Hreqs) as Hlive.
  pose proof (vslot_after_erase _ _ _ _ Hit Hreqs) as Hslot.
  set (next := default entry (v_live (fa_requests s) !! S it)) in *.
  destruct (Relay_rewrite_rep_run priv (ve_udp_src next) p q pre i u r Hf Hr Ha Hqd)
    as (c & Hrw & Hcr & Hok).
  pose proof (frame_checksum p pre i u _ 28 Hf eq_refl) as Hck. cbn [Nat.add] in *.
  match type of Hrw with _ = Ok ?q' => exists (pull 14 q'), reqs, c end.
  assert (Hpre : length pre = 14%nat) by apply Hf.
  split; [|split; [exact Hlive|split; [|split; [exact Hcr|split; [exact Hok|]]]]].
  - unfold Relay_push. hrun. rewrite Hl. cbn [Z.eqb Pos.eqb Nat.eqb Nat.add sizeof_click_ip
      sizeof_click_udp sizeof_regreq_h sizeof_regrep_h].
    unfold Relay_relayRep. rewrite Hl. change (62 - sizeof_click_ether)%nat with 48%nat. hrun.
    rewrite Hfind. hrun. unfold after_reply.
    assert (Hreqs' : forall s', fa_requests s' = fa_requests s ->
      verase it (fa_requests s') = Ok reqs) by (intros s' ->; exact Hreqs).
    destruct ((rp_code r =? 0) || (rp_code r =? 1)); hrun;
      cbn [pk_shared pull set_data set_dst_ip_anno set_anno]; rewrite Hqs; reflexivity.
  - rewrite pull_data. simpl. by apply drop_app_length'.
  - split; [|exact Hqs]. cbn [pull]. unfold dst_ip_anno. simpl pk_anno.
    rewrite rdn_wrn_eq by (rewrite Hqa, (fr_anno _ _ _ _ _ Hf); unfold anno_size; cbn; lia).
    f_equal. apply u32_small. by destruct Hr.
Qed.

(** C4: relaying a request.  A request without unsupported flags below the registration
    limit leaves the foreign agent on port 1 with its message untouched, re-addressed from the
    agent's public address to the home agent, from a dynamic port, with a correct UDP
    checksum; it is recorded as pending with the mobile node's addresses, port, identification
    and lifetime.  Packets nobody else holds are also routed to the home agent, but a shared
    packet keeps the foreign agent's own address as its routing annotation. *)
Theorem Relay_request_spec m rnd limit priv s p pre i u r :
  frame p pre i u (enc_regreq r) -> regreq_ok r -> in32 (fa_address s) ->
  relay_accepts limit (length (fa_registrations s)) r ->
  exists q s' c,
    let i' := relayed_ip (fa_address s) 52 (rq_home_agent r) i in
    let u' := UdpHdr (htons (relay_port rnd)) (u_dport u) (u_ulen u) c in
    Relay_push (Some m) true rnd limit priv p s = Ok (tt, s', [Push 1 q]) /\
    v_live (fa_requests s') = v_live (fa_requests s) ++ [entry_of pre i u r] /\
    fa_registrations s' = fa_registrations s /\
    pk_data q = pre ++ enc_ip i' ++ enc_udp u' ++ enc_regreq r /\
    udp_verifies i' u' (enc_regreq r) /\ 49152 <= relay_port rnd < 65535 /\
    dst_ip_anno q = Some (if pk_shared p then i_dst i else rq_home_agent r).
Proof.
  intros Hf Hr Ha Hacc.
  destruct (Relay_push_req_run m rnd limit priv s p pre i u r Hf Hr Ha Hacc)
    as (q & c & Hrun & Hd & _ & Hok & Hanno & _).
  eexists q, _, c. split; [exact Hrun|]. split; [apply vpush_back_live|]. split; [done|].
  split; [exact Hd|]. split; [exact Hok|]. split; [apply relay_port_range|exact Hanno].
Qed.

(** A first pending request is where the search finds it. *)
Lemma Relay_find_request_lookup home l k it entry :
  Relay_find_request home k l = Some (it, entry) ->
  exists j, it = (k + j)%nat /\ l !! j = Some entry /\ ve_ip_src entry = home.
Proof.
  revert k. induction l as [|e l IH]; intros k; simpl; [done|].
  destruct (Z.eqb_spec (ve_ip_src e) home) as [E|].
  - intros [= <- <-]. exists 0%nat. split; [lia|done].
  - intros (j & -> & Hj & He)%IH. exists (S j). split; [lia|done].
Qed.

(** C5: relaying a reply.  A reply for a node with a pending request leaves on port 0 to
    that node, stripped of its link-layer header, with a correct UDP checksum and the
    message untouched, and the request is no longer pending.  The destination port is read
    after the pending entry was erased: it is the port of the request that followed it in the
    list, and the node's own port only when the request was the last one. *)
Theorem Relay_reply_spec m rnd limit priv s p pre i u r it entry :
  frame p pre i u (enc_regrep r) -> regrep_ok r -> in32 priv ->
  Relay_find_request (rp_home_address r) 0 (v_live (fa_requests s)) = Some (it, entry) ->
  exists q s' c,
    let port := ve_udp_src (default entry (v_live (fa_requests s) !! S it)) in
    let i' := IpHdr (i_vhl i) (i_tos i) (i_len i) (i_id i) (i_off i) (i_ttl i) (i_p i) (i_sum i)
                priv (rp_home_address r) in
    let u' := UdpHdr (u_sport u) (htons port) (u_ulen u) c in
    Relay_push (Some m) true rnd limit priv p s = Ok (tt, s', [Push 0 q]) /\
    v_live (fa_requests s') = delete it (v_live (fa_requests s)) /\
    fa_registrations s' =
      (if (rp_code r =? 0) || (rp_code r =? 1)
       then Relay_update_registrations (rp_home_address r) (rp_lifetime r) entry
              (fa_registrations s)
       else fa_registrations s) /\
    pk_data q = enc_ip i' ++ enc_udp u' ++ enc_regrep r /\
    udp_verifies i' u' (enc_regrep r) /\ dst_ip_anno q = Some (rp_home_address r).
Proof.
  intros Hf Hr Ha Hfind.
  destruct (Relay_find_request_lookup _ _ _ _ _ Hfind) as (j & -> & Hj & _).
  destruct (Relay_push_rep_run m rnd limit priv s p pre i u r _ entry Hf Hr Ha Hfind Hj)
    as (q & reqs & c & Hrun & Hlive & Hd & _ & Hok & Hanno & _).
  eexists q, _, c. split; [exact Hrun|]. split; [exact Hlive|].
  split; [unfold after_reply; by destruct (_ || _)|]. by split_and!.
Qed.

(** ** Registrations by home address *)

Lemma Relay_last_registration_some home l k iter :
  Relay_last_registration home k l iter =
  match Relay_last_registration home k l None with Some j => Some j | None => iter end.
Proof.
  revert k iter. induction l as [|e l IH]; intros k iter; simpl; [done|].
  destruct (fst e =? home); [|apply IH].
  rewrite (IH (S k) (Some k)). by destruct (Relay_last_registration home (S k) l None).
Qed.

Lemma Relay_last_registration_none home l k :
  Relay_last_registration home k l None = None <-> Forall (fun e => fst e <> home) l.
Proof.
  revert k. induction l as [|e l IH]; intros k; simpl; [done|].
  rewrite Forall_cons_iff. destruct (Z.eqb_spec (fst e) home).
  - rewrite Relay_last_registration_some. split; [|tauto].
    by destruct (Relay_last_registration home (S k) l None).
  - rewrite IH. tauto.
Qed.

(** Deregistering a node the foreign agent does not know erases another node's
    registration: the loop's index starts at 0, so the first registration goes. *)
Theorem unknown_deregistration_erases_first home entry e l :
  Forall (fun x => fst x <> home) (e :: l) ->
  Relay_update_registrations home 0 entry (e :: l) = l.
Proof.
  intros H. unfold Relay_update_registrations. change (negb (ntohs 0 =? 0)) with false. cbv iota.
  rewrite Relay_last_registration_some.
  by rewrite (proj2 (Relay_last_registration_none home (e :: l) 0) H).
Qed.

Definition sample_entry : vEntry :=
  VEntry [1; 2; 3; 4; 5; 6] 16777226 16777228 1000 16777227 77 100 100.

Theorem unknown_deregistration_erases_first_witness :
  Relay_update_registrations 16777226 0 sample_entry [(33554442, sample_entry)] = [].
Proof. apply unknown_deregistration_erases_first. repeat constructor. simpl. lia. Defined.

(** ** Unreachable home agents *)

Record ventry_ok (e : vEntry) : Prop := {
  vok_src : in32 (ve_ip_src e); vok_dst : in32 (ve_ip_dst e); vok_udp : in16 (ve_udp_src e);
  vok_agent : in32 (ve_home_agent e); vok_id : in64 (ve_id e);
  vok_req : in16 (ve_requested_lifetime e); vok_rem : in16 (ve_remaining_lifetime e)
}.

(** [p] is a reply the relay makes itself for the pending request [e]. *)
Definition own_reply (code id : Z) (e : vEntry) (p : packet) : Prop :=
  exists i u,
    datagram p i u (enc_regrep (RegrepH 3 code 0 (ve_ip_src e) (ve_home_agent e) id)) /\
    i_src i = ve_ip_dst e /\ i_dst i = ve_ip_src e /\
    u_sport u = htons 434 /\ u_dport u = htons (ve_udp_src e).

Lemma Relay_push_rep_spec m code id e (s : fa) :
  in8 code -> in64 id -> ventry_ok e ->
  exists p,
    Relay_push_rep 0 (Some m) code (ve_ip_dst e) (ve_ip_src e) (ve_udp_src e) id
      (ve_home_agent e) s = Ok (tt, s, [Push 0 p]) /\ own_reply code id e p.
Proof.
  intros Hc Hid [].
  destruct (Relay_createRep_spec m code (ve_ip_dst e) (ve_ip_src e) (ve_udp_src e) id
    (ve_home_agent e)) as (p & i & u & Hp & Hd & H1 & H2 & H3 & H4); [done|done|done|done|done|].
  exists p. split; [unfold Relay_push_rep; hrun; reflexivity|]. exists i, u. by split_and!.
Qed.

(** The requests the loop keeps and the ones it answers: after answering one it skips the
    next, which has moved into its place. *)
Fixpoint unreachable_split (ha : Z) (l : list vEntry) : list vEntry * list vEntry :=
  match l with
  | [] => ([], [])
  | e :: l' =>
      if ve_home_agent e =? ha then
        match l' with
        | [] => ([], [e])
        | e2 :: l'' => let '(k, n) := unreachable_split ha l'' in (e2 :: k, e :: n)
        end
      else let '(k, n) := unreachable_split ha l' in (e :: k, n)
  end.

Lemma list_two_ind {A} (P : list A -> Prop) :
  P [] -> (forall a l, P l -> (forall b l', l = b :: l' -> P l') -> P (a :: l)) -> forall l, P l.
Proof.
  intros H0 H1 l. enough (P l /\ forall b l', l = b :: l' -> P l') by tauto.
  induction l as [|a l [IH1 IH2]]; split; [done|done|by apply H1|]. by intros b l' [= -> ->].
Qed.

Lemma Relay_unreachable_loop_spec m ha code s pre l fuel :
  in8 code -> Forall ventry_ok l -> v_live (fa_requests s) = pre ++ l ->
  (length l <= fuel)%nat ->
  exists s' t,
    Relay_unreachable_loop (Some m) ha code fuel (length pre) s = Ok (tt, s', t) /\
    v_live (fa_requests s') = pre ++ fst (unreachable_split ha l) /\
    fa_registrations s' = fa_registrations s /\ fa_address s' = fa_address s /\
    Forall2 (fun e ev => exists p, ev = Push 0 p /\ own_reply code (ve_id e) e p)
      (snd (unreachable_split ha l)) t.
Proof.
  intros Hcode. revert s pre fuel. induction l as [|e l IH IH2] using list_two_ind;
    intros s pre fuel Hok Hl Hfuel.
  - exists s, []. destruct fuel; simpl; (split; [|by split_and!]); [done|].
    rewrite hbind_get, Hl, app_nil_r, lookup_ge_None_2 by lia. done.
  - apply Forall_cons_iff in Hok as [He Hok]. destruct fuel as [|fuel]; [simpl in Hfuel; lia|].
    simpl in Hfuel. cbn [Relay_unreachable_loop]. rewrite hbind_get, Hl, list_lookup_middle by done.
    cbn [unreachable_split]. destruct (Z.eqb_spec (ve_home_agent e) ha) as [<-|Hne].
    + destruct (verase_ok (length pre) (fa_requests s)) as [reqs Hreqs].
      pose proof (verase_live _ _ _ Hreqs) as Hlive. rewrite Hl, delete_middle in Hlive.
      set (s1 := set_requests reqs s).
      destruct (Relay_push_rep_spec m code (ve_id e) e s1) as (p & Hp & Hrep);
        [done|apply He|done|].
      unfold hbind. unfold hlift at 1. rewrite Hreqs. unfold hput. fold s1. rewrite Hp.
      destruct l as [|e2 l].
      * rewrite app_nil_r in Hlive.
        assert (Hend : Relay_unreachable_loop (Some m) (ve_home_agent e) code fuel
          (S (length pre)) s1 = Ok (tt, s1, [])).
        { destruct fuel; simpl; [done|]. rewrite hbind_get. simpl. rewrite Hlive.
          by rewrite lookup_ge_None_2 by lia. }
        rewrite Hend. exists s1, [Push 0 p]. split; [done|]. simpl. rewrite app_nil_r.
        split; [done|]. split; [done|]. split; [done|]. constructor; [|constructor]. exists p. split; [reflexivity|exact Hrep].
      * apply Forall_cons_iff in Hok as [He2 Hok].
        destruct (IH2 e2 l eq_refl s1 (pre ++ [e2]) fuel Hok) as (s' & t & Hrun & Hl' & Hr & Ha & Ht);
          [simpl; by rewrite Hlive, <- app_assoc|simpl in Hfuel; lia|].
        rewrite length_app, Nat.add_1_r in Hrun. rewrite Hrun.
        exists s', (Push 0 p :: t). split; [done|].
        destruct (unreachable_split (ve_home_agent e) l) as [k n]. simpl in *.
        rewrite <- app_assoc in Hl'. split; [done|]. split; [done|]. split; [done|].
        constructor; [exists p; split; [reflexivity|exact Hrep]|exact Ht].
    + rewrite hbind_ret_l.
      destruct (IH s (pre ++ [e]) fuel Hok) as (s' & t & Hrun & Hl' & Hr & Ha & Ht);
        [by rewrite <- app_assoc|lia|].
      rewrite length_app, Nat.add_1_r in Hrun. rewrite Hrun. exists s', t. split; [done|].
      destruct (unreachable_split ha l) as [k n]. simpl in *. rewrite <- app_assoc in Hl'.
      by split_and!.
Qed.

(** An ICMP destination-unreachable message about a packet with header [orig]. *)
Record unreachable (p : packet) (i orig : ip_hdr) (code : Z) : Prop := {
  un_data : exists pre icmp rest,
    length pre = 14%nat /\ length icmp = 6%nat /\
    pk_data p = pre ++ enc_ip i ++ ([3; code] ++ icmp) ++ enc_ip orig ++ rest;
  un_ip : ip_ok i; un_orig : ip_ok orig; un_p : i_p i = 1; un_code : in8 code
}.

Lemma unreachable_reads p i orig code :
  unreachable p i orig code ->
  getf p 14 ip_p = Ok 1 /\ getf p 34 icmp_type = Ok 3 /\ getf p 34 icmp_code = Ok code /\
  getf p 42 ip_dst = Ok (i_dst orig).
Proof.
  intros [(pre & icmp & rest & Hpre & Hic & Hd) Hi Ho Hp Hc].
  do 6 (destruct icmp as [|? icmp]; [done|]). destruct icmp; [|done].
  destruct Hi, Ho. split_and!.
  - rewrite <- Hp. eapply (getf_pre pre _ p 14 0); [done|exact Hd|simpl; lia|].
    wire_eval. by small_words.
  - eapply (getf_pre pre _ p 14 20); [done|exact Hd|simpl; lia|]. wire_eval. done.
  - eapply (getf_pre pre _ p 14 20); [done|exact Hd|simpl; lia|]. wire_eval. f_equal. lia.
  - eapply (getf_pre pre _ p 14 28); [done|exact Hd|simpl; lia|]. wire_eval. by small_words.
Qed.

(** C9: what the foreign agent does when a home agent is unreachable.  It drops pending
    requests to that agent and answers them with a registration reply each; the reply's code
    is the ICMP code, not the Mobile IP error code computed from it, so that net and host
    unreachable (0 and 1) are answered with "accepted"; and of two consecutive requests to
    the agent only the first is answered, the second stays pending. *)
Theorem Relay_unreachable_spec m rnd limit priv s p i orig code :
  unreachable p i orig code -> Forall ventry_ok (v_live (fa_requests s)) ->
  exists s' t,
    Relay_push (Some m) true rnd limit priv p s = Ok (tt, s', t) /\
    v_live (fa_requests s') = fst (unreachable_split (i_dst orig) (v_live (fa_requests s))) /\
    fa_registrations s' = fa_registrations s /\
    Forall2 (fun e ev => exists q, ev = Push 0 q /\ own_reply code (ve_id e) e q)
      (snd (unreachable_split (i_dst orig) (v_live (fa_requests s)))) t.
Proof.
  intros Hu Hok. destruct (unreachable_reads _ _ _ _ Hu) as (Hp & Hty & Hco & Hdst).
  destruct (Relay_unreachable_loop_spec m (i_dst orig) code s [] (v_live (fa_requests s))
    (vsize (fa_requests s))) as (s' & t & Hrun & Hl & Hr & _ & Ht);
    [apply Hu|done|done|done|].
  exists s', t. split; [|by split_and!]. unfold Relay_push. hrun.
  rewrite Z.eqb_refl. hrun. rewrite Z.eqb_refl. hrun. exact Hrun.
Qed.

(** ** Ageing *)

Record fa_ok (s : fa) : Prop := {
  faok_requests : Forall ventry_ok (v_live (fa_requests s));
  faok_registrations : Forall (fun e => ventry_ok (snd e)) (fa_registrations s)
}.

(** A registration [n] seconds later. *)
Definition age_registration (n : Z) (e : Z * vEntry) : option (Z * vEntry) :=
  if n <=? ve_remaining_lifetime (snd e)
  then Some (fst e, set_remaining_lifetime (ve_remaining_lifetime (snd e) - n) (snd e))
  else None.

Lemma set_remaining_lifetime_id e : set_remaining_lifetime (ve_remaining_lifetime e) e = e.
Proof. by destruct e. Qed.

Lemma Relay_expire_registrations_spec l :
  Forall (fun e => ventry_ok (snd e)) l ->
  Relay_expire_registrations l = omap (age_registration 1) l.
Proof.
  intros Hl. unfold Relay_expire_registrations. rewrite erase_loop_all.
  induction Hl as [|[a e] l He _ IH]; [done|]. csimpl. rewrite filter_cons.
  destruct He as [_ _ _ _ _ _ Hrem]. unfold age_registration at 1. simpl in *.
  destruct (Z.leb_spec (ve_remaining_lifetime e) 0), (Z.leb_spec 1 (ve_remaining_lifetime e));
    try lia; simpl.
  - apply IH.
  - rewrite IH. destruct (Z.ltb_spec 0 (ve_remaining_lifetime e)); [|lia].
    by rewrite u16_small by in_range.
Qed.

Lemma age_registration_ok n l :
  0 <= n -> Forall (fun e => ventry_ok (snd e)) l ->
  Forall (fun e => ventry_ok (snd e)) (omap (age_registration n) l).
Proof.
  intros Hn Hl. induction Hl as [|[a e] l He _ IH]; [done|]. csimpl.
  unfold age_registration at 1. destruct (Z.leb_spec n (ve_remaining_lifetime (snd (a, e))));
    [|done]. constructor; [|done]. destruct He. constructor; cbn in *; try done. in_range.
Qed.

Lemma age_registration_0 (l : list (Z * vEntry)) :
  Forall (fun e => ventry_ok (snd e)) l -> omap (age_registration 0) l = l.
Proof.
  intros Hg. induction Hg as [|[a e] l He _ IHl]; [done|]. csimpl. rewrite IHl.
  unfold age_registration. destruct He as [_ _ _ _ _ _ Hrem].
  destruct (Z.leb_spec 0 (ve_remaining_lifetime (snd (a, e)))) as [|H];
    [|simpl in *; in_range].
  simpl. by rewrite Z.sub_0_r, set_remaining_lifetime_id.
Qed.
Lemma age_registration_add n e :
  0 <= n -> (age_registration 1 e ≫= age_registration n) = age_registration (n + 1) e.
Proof.
  intros Hn. unfold age_registration. destruct e as [a e]. simpl.
  destruct (Z.leb_spec 1 (ve_remaining_lifetime e)); simpl.
  - destruct (Z.leb_spec n (ve_remaining_lifetime e - 1)), (Z.leb_spec (n + 1) (ve_remaining_lifetime e));
      try lia; [|done]. do 2 f_equal. unfold set_remaining_lifetime. simpl. f_equal. lia.
  - destruct (Z.leb_spec (n + 1) (ve_remaining_lifetime e)); [lia|done].
Qed.

Lemma age_registrations_S (n : nat) (l : list (Z * vEntry)) :
  omap (age_registration (Z.of_nat (S n))) l =
  omap (age_registration (Z.of_nat n)) (omap (age_registration 1) l).
Proof.
  rewrite omap_omap. apply list_omap_ext, Forall_Forall2_diag, Forall_forall.
  intros e _. rewrite age_registration_add by lia. f_equal. lia.
Qed.

(** The request loop terminates, answers at most one request, and keeps the invariant. *)
Lemma Relay_requests_loop_spec m fuel i s :
  fa_ok s ->
  exists s' t,
    Relay_requests_loop (Some m) fuel i s = Ok (tt, s', t) /\ fa_ok s' /\
    fa_registrations s' = fa_registrations s /\ fa_address s' = fa_address s /\
    (length (v_live (fa_requests s')) <= length (v_live (fa_requests s)))%nat /\
    (t = [] \/ exists p e id, t = [Push 0 p] /\ own_reply 78 id e p).
Proof.
  revert i s. induction fuel as [|fuel IH]; intros i s Hok.
  { exists s, []. split_and!; try done. by left. }
  cbn [Relay_requests_loop]. rewrite hbind_get. destruct (v_live (fa_requests s) !! i) as [r|] eqn:Hr.
  2: { exists s, []. split_and!; try done. by left. }
  pose proof (Forall_lookup_1 _ _ _ _ (faok_requests _ Hok) Hr) as Hrok.
  pose proof (lookup_lt_Some _ _ _ Hr) as Hlt.
  destruct (0 <? ve_requested_lifetime r).
  - set (r' := set_remaining_lifetime _ r).
    assert (Hr'ok : ventry_ok r') by (destruct Hrok; constructor; cbn; auto with wire).
    unfold hbind at 1, hlift at 1, vset, vsize. rewrite (proj2 (Nat.ltb_lt _ _) Hlt).
    set (reqs := Vec _ _). set (s1 := set_requests reqs s).
    assert (Hok1 : fa_ok s1).
    { destruct Hok as [Hq Hg]. split; [|done]. simpl. by apply Forall_insert. }
    unfold hbind at 1, hput at 1. fold s1. destruct (7 <? _).
    + destruct (Relay_push_rep_spec m 78 (htonl (u32 (ve_id r'))) r' s1) as (p & Hp & Hrep);
        [auto with wire|pose proof (htonl_range (u32 (ve_id r'))); in_range|done|].
      destruct (verase_ok i reqs) as [reqs' Hreqs'].
      pose proof (verase_live _ _ _ Hreqs') as Hl'.
      unfold hbind, hlift. rewrite Hp, Hreqs'. eexists _, [Push 0 p].
      split; [reflexivity|]. split; [|split; [done|split; [done|split]]].
      * destruct Hok1 as [Hq Hg]. split; [|done]. simpl. rewrite Hl'. by apply Forall_delete.
      * simpl. rewrite Hl', length_delete by (simpl; rewrite list_lookup_insert_eq; [by eexists|done]).
        simpl. rewrite length_insert. lia.
      * right. exists p, r', (htonl (u32 (ve_id r'))). split; [reflexivity|exact Hrep].
    + destruct (IH (S i) s1 Hok1) as (s' & t & Hrun & Hok' & Hg & Ha & Hlen & Ht).
      rewrite Hrun. exists s', t. split_and!; try done.
      simpl in Hlen. rewrite length_insert in Hlen. done.
  - destruct (verase_ok i (fa_requests s)) as [reqs Hreqs].
    pose proof (verase_live _ _ _ Hreqs) as Hl.
    unfold hbind at 1, hlift at 1. rewrite Hreqs. unfold hbind at 1, hput at 1.
    destruct (IH i (set_requests reqs s)) as (s' & t & Hrun & Hok' & Hg & Ha & Hlen & Ht).
    { destruct Hok as [Hq Hg]. split; [|done]. simpl. rewrite Hl. by apply Forall_delete. }
    rewrite Hrun. exists s', t. split_and!; try done.
    simpl in Hlen. rewrite Hl, length_delete in Hlen by (by eexists). lia.
Qed.

Lemma Relay_run_timer_run m s :
  fa_ok s ->
  exists s' t,
    Relay_run_timer (Some m) s = Ok (tt, s', t) /\ fa_ok s' /\
    fa_registrations s' = omap (age_registration 1) (fa_registrations s) /\
    (length (v_live (fa_requests s')) <= length (v_live (fa_requests s)))%nat /\
    (t = [Schedule 1000] \/
     exists p e id, t = [Push 0 p; Schedule 1000] /\ own_reply 78 id e p).
Proof.
  intros Hok. set (s1 := set_registrations (omap (age_registration 1) (fa_registrations s)) s).
  assert (Hok1 : fa_ok s1).
  { destruct Hok as [Hq Hg]. split; [done|]. by apply age_registration_ok. }
  destruct (Relay_requests_loop_spec m (vsize (fa_requests s1)) 0 s1 Hok1)
    as (s' & t & Hrun & Hok' & Hg & _ & Hlen & Ht).
  exists s', (t ++ [Schedule 1000]). split; [|split_and!; try done].
  - unfold Relay_run_timer. hrun. rewrite Relay_expire_registrations_spec by apply Hok. fold s1.
    hcompute. done.
  - destruct Ht as [->|(p & e & id & -> & Hp)]; [by left|]. right. exists p, e, id.
    split; [reflexivity|exact Hp].
Qed.

(** A pending request the timer answers at its next tick. *)
Definition times_out (r : vEntry) : bool :=
  (0 <? ve_requested_lifetime r) &&
  (7 <? ve_requested_lifetime r - htons (u16 (ntohs (ve_remaining_lifetime r) - 1))).
Definition timeout_due (s : fa) : bool := existsb times_out (v_live (fa_requests s)).

(** Without memory the first timeout reply is a null packet, which is dereferenced. *)
Lemma Relay_requests_loop_none fuel i s :
  fa_ok s -> (vsize (fa_requests s) <= fuel + i)%nat ->
  if existsb times_out (drop i (v_live (fa_requests s)))
  then Relay_requests_loop None fuel i s = Fault NullDeref
  else exists s', Relay_requests_loop None fuel i s = Ok (tt, s', []) /\ fa_ok s' /\
         fa_registrations s' = fa_registrations s.
Proof.
  revert i s. induction fuel as [|fuel IH]; intros i s Hok Hf; unfold vsize in Hf.
  { rewrite drop_ge by lia. by exists s. }
  cbn [Relay_requests_loop]. rewrite hbind_get. destruct (v_live (fa_requests s) !! i) as [r|] eqn:Hr.
  2: { apply lookup_ge_None_1 in Hr. rewrite drop_ge by lia. by exists s. }
  pose proof (Forall_lookup_1 _ _ _ _ (faok_requests _ Hok) Hr) as Hrok.
  pose proof (lookup_lt_Some _ _ _ Hr) as Hlt.
  rewrite (drop_S _ _ _ Hr). cbn [existsb]. unfold times_out at 1.
  destruct (0 <? ve_requested_lifetime r); cbn [andb orb].
  - set (r' := set_remaining_lifetime _ r).
    assert (Hr'ok : ventry_ok r') by (destruct Hrok; constructor; cbn; auto with wire).
    unfold vset, vsize. rewrite (proj2 (Nat.ltb_lt _ _) Hlt). erewrite hbind_lift_ok by reflexivity. rewrite hbind_put.
    set (reqs := Vec _ _). set (s1 := set_requests reqs s).
    assert (Hok1 : fa_ok s1).
    { destruct Hok as [Hq Hg]. split; [|done]. simpl. by apply Forall_insert. }
    change (ve_requested_lifetime r' - ve_remaining_lifetime r') with
      (ve_requested_lifetime r - htons (u16 (ntohs (ve_remaining_lifetime r) - 1))).
    destruct (7 <? _); cbn [orb]; [done|].
    specialize (IH (S i) s1 Hok1). unfold vsize, s1, reqs in IH. cbn [set_requests fa_requests v_live] in IH.
    rewrite length_insert, drop_insert_lt in IH by lia. apply IH. lia.
  - destruct (verase_ok i (fa_requests s)) as [reqs Hreqs].
    pose proof (verase_live _ _ _ Hreqs) as Hl. erewrite hbind_lift_ok by exact Hreqs. rewrite hbind_put.
    specialize (IH i (set_requests reqs s)). cbn [set_requests fa_requests] in IH.
    assert (Hd : drop i (v_live reqs) = drop (S i) (v_live (fa_requests s))).
    { rewrite Hl, delete_take_drop, drop_app_length'; [done|]. rewrite length_take. lia. }
    rewrite Hd in IH. apply IH.
    + destruct Hok as [Hq Hg]. split; [|done]. simpl. rewrite Hl. by apply Forall_delete.
    + unfold vsize. rewrite Hl, length_delete by (by eexists). lia.
Qed.

Lemma Relay_run_timer_none s :
  fa_ok s ->
  if timeout_due s then Relay_run_timer None s = Fault NullDeref
  else exists s' , Relay_run_timer None s = Ok (tt, s', [Schedule 1000]) /\ fa_ok s' /\
         fa_registrations s' = omap (age_registration 1) (fa_registrations s).
Proof.
  intros Hok. set (s1 := set_registrations (omap (age_registration 1) (fa_registrations s)) s).
  assert (Hok1 : fa_ok s1).
  { destruct Hok as [Hq Hg]. split; [done|]. by apply age_registration_ok. }
  pose proof (Relay_requests_loop_none (vsize (fa_requests s1)) 0 s1 Hok1 ltac:(lia)) as Hl.
  rewrite drop_0 in Hl. change (existsb _ _) with (timeout_due s) in Hl.
  unfold Relay_run_timer. hrun. rewrite Relay_expire_registrations_spec by apply Hok. fold s1.
  destruct (timeout_due s).
  - unfold hbind. by rewrite Hl.
  - destruct Hl as (s' & Hrun & Hok' & Hg). exists s'. split; [|by split]. hcompute. done.
Qed.

Fixpoint Relay_ticks (mem : memory) (n : nat) : handler fa event unit :=
  match n with O => hret tt | S n' => Relay_run_timer mem ;;; Relay_ticks mem n' end.

Lemma Relay_ticks_some m s (n : nat) :
  fa_ok s ->
  exists s' t,
    Relay_ticks (Some m) n s = Ok (tt, s', t) /\ fa_ok s' /\
    fa_registrations s' = omap (age_registration (Z.of_nat n)) (fa_registrations s) /\
    (length (pushed 0 t) <= n)%nat.
Proof.
  revert s. induction n as [|n IH]; intros s Hok.
  - exists s, []. split; [done|]. split; [done|]. split; [|done].
    symmetry. by apply age_registration_0, Hok.
  - destruct (Relay_run_timer_run m s Hok) as (s1 & t1 & H1 & Hok1 & Hg1 & _ & Ht1).
    destruct (IH s1 Hok1) as (s2 & t2 & H2 & Hok2 & Hg2 & Ht2).
    exists s2, (t1 ++ t2). split; [simpl; unfold hbind; by rewrite H1, H2|]. split; [done|]. split.
    + by rewrite Hg2, Hg1, age_registrations_S.
    + unfold pushed in *. rewrite omap_app, length_app.
      destruct Ht1 as [->|(p & e & id & -> & _)]; simpl; lia.
Qed.

(** No pending request times out in the first [n] ticks, as seen without memory for replies. *)
Definition quiet_for (n : nat) (s : fa) : Prop :=
  forall k, (k < n)%nat ->
    exists s' t, Relay_ticks None k s = Ok (tt, s', t) /\ timeout_due s' = false.

Lemma Relay_ticks_none s (n : nat) :
  fa_ok s ->
  (quiet_for n s /\
   exists s' t,
     Relay_ticks None n s = Ok (tt, s', t) /\ fa_ok s' /\
     fa_registrations s' = omap (age_registration (Z.of_nat n)) (fa_registrations s) /\
     pushed 0 t = []) \/
  (exists k s' t, (k < n)%nat /\ quiet_for k s /\ Relay_ticks None k s = Ok (tt, s', t) /\
     timeout_due s' = true /\ Relay_ticks None n s = Fault NullDeref).
Proof.
  revert s. induction n as [|n IH]; intros s Hok.
  - left. split; [intros k Hk; lia|]. exists s, []. split; [done|]. split; [done|]. split; [|done].
    symmetry. by apply age_registration_0, Hok.
  - pose proof (Relay_run_timer_none s Hok) as H1. destruct (timeout_due s) eqn:Ed.
    + right. exists 0%nat, s, []. split; [lia|]. split; [intros k Hk; lia|]. split; [done|].
      split; [done|]. simpl. unfold hbind. by rewrite H1.
    + destruct H1 as (s1 & H1 & Hok1 & Hg1).
      assert (Hstep : forall k, Relay_ticks None (S k) s =
        match Relay_ticks None k s1 with
        | Ok (_, s', t) => Ok (tt, s', [Schedule 1000] ++ t) | Fault f => Fault f end).
      { intros k. cbn [Relay_ticks]. unfold hbind. rewrite H1.
        by destruct (Relay_ticks None k s1) as [[[[] ?] ?]|]. }
      assert (Hq : forall k, quiet_for k s1 -> quiet_for (S k) s).
      { intros k Hk [|j] Hj; [by exists s, []|].
        destruct (Hk j ltac:(lia)) as (s' & t & Hr & Hd). rewrite Hstep, Hr. by eexists _, _. }
      destruct (IH s1 Hok1) as [[Hqn (s2 & t2 & H2 & Hok2 & Hg2 & Ht2)]|
        (k & s2 & t2 & Hk & Hqk & H2 & Hd & Hf)].
      * left. split; [by apply Hq|]. rewrite Hstep, H2. eexists _, _. split; [done|]. split; [done|].
        split; [by rewrite Hg2, Hg1, age_registrations_S|exact Ht2].
      * right. exists (S k), s2, ([Schedule 1000] ++ t2). split; [lia|]. split; [by apply Hq|].
        rewrite !Hstep, H2, Hf. by split_and!.
Qed.

(** C10: [n] seconds of the foreign agent's timer on a well-formed state, whatever is pending.
    With memory for its replies it never fails and keeps the state well-formed; exactly the
    registrations with [n <= remaining_lifetime] are left, each [n] closer to its end, and no
    second has produced more than one timeout reply.  Without memory the same holds as long as
    no pending request times out; the first tick that finds one that does dereferences the null
    reply. *)
Theorem Relay_registrations_expire mem s (n : nat) :
  fa_ok s ->
  match mem with
  | Some _ =>
      exists s' t,
        Relay_ticks mem n s = Ok (tt, s', t) /\ fa_ok s' /\
        fa_registrations s' = omap (age_registration (Z.of_nat n)) (fa_registrations s) /\
        (length (pushed 0 t) <= n)%nat
  | None =>
      (quiet_for n s /\
       exists s' t,
         Relay_ticks mem n s = Ok (tt, s', t) /\ fa_ok s' /\
         fa_registrations s' = omap (age_registration (Z.of_nat n)) (fa_registrations s) /\
         pushed 0 t = []) \/
      (exists k s' t, (k < n)%nat /\ quiet_for k s /\ Relay_ticks mem k s = Ok (tt, s', t) /\
         timeout_due s' = true /\ Relay_ticks mem n s = Fault NullDeref)
  end.
Proof. destruct mem; [apply Relay_ticks_some|apply Relay_ticks_none]. Qed.

Definition sample_fa : fa :=
  FA (Vec [sample_entry] []) [(16777226, sample_entry)] 16777228.
Lemma sample_fa_ok : fa_ok sample_fa.
Proof. constructor; (constructor; [sample_ok|constructor]). Qed.

Theorem Relay_registrations_expire_witness :
  exists s' t,
    Relay_ticks (Some (fun _ => 0)) 101 sample_fa = Ok (tt, s', t) /\ fa_ok s' /\
    fa_registrations s' = [] /\ (length (pushed 0 t) <= 101)%nat.
Proof. exact (Relay_registrations_expire (Some (fun _ => 0)) sample_fa 101 sample_fa_ok). Defined.

(** When a pending request times out.  [relayReq] stores the remaining lifetime in host
    order, the timer counts it in network order: a fresh request with lifetime [L] is
    answered with code 78 at the first tick if [L - htons (htons L - 1) > 7], so that one for
    1800 seconds is rejected within a second while one for 100 seconds waits. *)
Theorem Relay_request_timeout m s e :
  fa_ok s -> v_live (fa_requests s) = [e] ->
  0 < ve_requested_lifetime e -> ve_remaining_lifetime e = ve_requested_lifetime e ->
  let L := ve_requested_lifetime e in
  let rem := htons (u16 (ntohs L - 1)) in
  exists s' t,
    Relay_run_timer (Some m) s = Ok (tt, s', t) /\
    if 7 <? L - rem
    then v_live (fa_requests s') = [] /\
         exists p, t = [Push 0 p; Schedule 1000] /\ own_reply 78 (htonl (u32 (ve_id e))) e p
    else v_live (fa_requests s') = [set_remaining_lifetime rem e] /\ t = [Schedule 1000].
Proof.
  intros Hok Hl Hpos Hrem L rem.
  set (s1 := set_registrations (omap (age_registration 1) (fa_registrations s)) s).
  set (r' := set_remaining_lifetime rem e).
  assert (He : ventry_ok e) by (destruct Hok as [Hq _]; rewrite Hl in Hq;
    by apply Forall_cons_iff in Hq as [? _]).
  assert (Hr' : ventry_ok r') by (unfold r', rem; destruct He; constructor; cbn; auto with wire).
  assert (Hset : vset 0 r' (fa_requests s1) = Ok (Vec [r'] (v_slack (fa_requests s)))).
  { unfold vset, vsize. simpl. by rewrite Hl. }
  set (s2 := set_requests (Vec [r'] (v_slack (fa_requests s))) s1).
  destruct (Relay_push_rep_spec m 78 (htonl (u32 (ve_id r'))) r' s2) as (p & Hp & Hrep);
    [auto with wire|pose proof (htonl_range (u32 (ve_id r'))); in_range|done|].
  assert (Hrt : Relay_run_timer (Some m) s =
    (Relay_requests_loop (Some m) 1 0 ;;; hemit (Schedule 1000)) s1).
  { unfold Relay_run_timer. hrun. rewrite Relay_expire_registrations_spec by apply Hok. fold s1.
    unfold vsize. simpl. by rewrite Hl. }
  clear Hr' He. rewrite Hrt. cbn [Relay_requests_loop].
  rewrite !hbind_assoc, hbind_get. simpl v_live. rewrite Hl. cbn [lookup list_lookup].
  rewrite Hrem, (proj2 (Z.ltb_lt _ _) Hpos). fold L rem r'. hrun. fold s2.
  change (ve_requested_lifetime r' - ve_remaining_lifetime r') with (L - rem).
  destruct (7 <? L - rem).
  - destruct (verase_ok 0 (Vec [r'] (v_slack (fa_requests s)))) as [reqs Hreqs].
    pose proof (verase_live _ _ _ Hreqs) as Hlive. hcompute.
    eexists _, _. split; [reflexivity|]. split; [exact Hlive|].
    exists p. split; [reflexivity|exact Hrep].
  - hcompute. eexists _, _. split; [reflexivity|]. split; reflexivity.
Qed.

Theorem Relay_request_timeout_witness :
  exists s' t,
    Relay_run_timer (Some (fun _ => 0)) sample_fa = Ok (tt, s', t) /\
    v_live (fa_requests s') = [set_remaining_lifetime 65379 sample_entry] /\
    t = [Schedule 1000].
Proof.
  exact (Relay_request_timeout (fun _ => 0) sample_fa sample_entry sample_fa_ok eq_refl eq_refl
    eq_refl).
Defined.

(** ** Concrete instances *)
Definition sample_pre : list Z := replicate 14 0.
Definition sum_udp (i : ip_hdr) (u : udp_hdr) (msg : list Z) : udp_hdr :=
  match transport_sum (bare (enc_ip i ++ enc_udp (udp_with_sum 0 u) ++ msg)) 0 (8 + length msg) with
  | Ok c => udp_with_sum c u | Fault _ => u end.
Definition sample_req_frame : packet :=
  bare (sample_pre ++ enc_ip sample_ip ++
        enc_udp (sum_udp sample_ip sample_udp (enc_regreq sample_req)) ++ enc_regreq sample_req).
Lemma sample_req_frame_ok :
  frame sample_req_frame sample_pre sample_ip
    (sum_udp sample_ip sample_udp (enc_regreq sample_req)) (enc_regreq sample_req).
Proof.
  constructor; try (vm_compute; reflexivity); [apply sample_ip_ok|].
  repeat split; vm_compute; congruence.
Qed.
Definition sample_rep_frame : packet :=
  bare (sample_pre ++ enc_ip sample_reply_ip ++ enc_udp sample_reply_udp ++ enc_regrep sample_rep).
Lemma sample_rep_frame_ok :
  frame sample_rep_frame sample_pre sample_reply_ip sample_reply_udp (enc_regrep sample_rep).
Proof.
  constructor; try (vm_compute; reflexivity); apply sample_reply_datagram.
Qed.
Definition sample_unreachable : packet :=
  bare (sample_pre ++ enc_ip (IpHdr 69 0 (htons 56) 0 0 64 1 0 16777227 16777228) ++
        ([3; 1] ++ replicate 6 0) ++ enc_ip (IpHdr 69 0 (htons 52) 0 0 64 17 0 16777228 16777227) ++ []).
Lemma sample_unreachable_ok :
  unreachable sample_unreachable (IpHdr 69 0 (htons 56) 0 0 64 1 0 16777227 16777228)
    (IpHdr 69 0 (htons 52) 0 0 64 17 0 16777228 16777227) 1.
Proof. constructor; [by exists sample_pre, (replicate 6 0), []|sample_ok..]. Qed.

Lemma sample_req_ok : regreq_ok sample_req.
Proof. sample_ok. Qed.

Theorem Relay_request_spec_witness :
  exists q s', Relay_push (Some (fun _ => 0)) true 5 (-1) 7 sample_req_frame sample_fa =
      Ok (tt, s', [Push 1 q]) /\
    v_live (fa_requests s') = [sample_entry;
      VEntry [0; 0; 0; 0; 0; 0] 16777226 16777227 1000 16777227 77 100 100] /\
    dst_ip_anno q = Some 16777227.
Proof.
  destruct (Relay_request_spec (fun _ => 0) 5 (-1) 7 sample_fa sample_req_frame _ _ _ _
    sample_req_frame_ok sample_req_ok) as (q & s' & c & Hr & Hl & _ & _ & _ & _ & Ha);
    [cbv; split; congruence|reflexivity|].
  exists q, s'. split; [exact Hr|]. split; [exact Hl|exact Ha].
Defined.

Theorem Relay_reply_spec_witness :
  exists q s', Relay_push (Some (fun _ => 0)) true 5 (-1) 7 sample_rep_frame sample_fa =
      Ok (tt, s', [Push 0 q]) /\
    v_live (fa_requests s') = [] /\ dst_ip_anno q = Some 16777226.
Proof.
  destruct (Relay_reply_spec (fun _ => 0) 5 (-1) 7 sample_fa sample_rep_frame _ _ _ _ 0 sample_entry
    sample_rep_frame_ok sample_rep_ok) as (q & s' & c & Hr & Hl & _ & _ & _ & Ha);
    [cbv; split; congruence|reflexivity|].
  exists q, s'. split; [exact Hr|]. split; [exact Hl|exact Ha].
Defined.

Theorem Relay_unreachable_spec_witness :
  exists s' t, Relay_push (Some (fun _ => 0)) true 5 (-1) 7 sample_unreachable sample_fa =
      Ok (tt, s', t) /\ v_live (fa_requests s') = [].
Proof.
  destruct (Relay_unreachable_spec (fun _ => 0) 5 (-1) 7 sample_fa _ _ _ _ sample_unreachable_ok)
    as (s' & t & Hr & Hl & _); [apply sample_fa_ok|].
  exists s', t. split; [exact Hr|exact Hl].
Defined.
