(* ===== verification/Discovery.v ===== *)
(** * Agent discovery: [advertisement.cc], [solicitation.cc] and [checksolicitation.cc]

    Agents broadcast advertisements and answer solicitations; a mobile node without an agent
    solicits. *)
From Stdlib Require Import ZArith Lia.
From stdpp Require Import base list numbers option.
From S2P Require Import Prelude Checksum Vector HashMap Packet Wire Build Mobility.

(** ** [Advertisement] *)
Record advertiser : Type := Advertiser {
  ad_srcIp : Z; ad_careOfAddress : Z; ad_HA : bool; ad_FA : bool; ad_busy : bool;
  ad_advertisementLifetime : Z; ad_registrationLifetime : Z; ad_sequenceNr : Z
}.
Definition set_sequenceNr (n : Z) (a : advertiser) : advertiser :=
  Advertiser (ad_srcIp a) (ad_careOfAddress a) (ad_HA a) (ad_FA a) (ad_busy a)
    (ad_advertisementLifetime a) (ad_registrationLifetime a) n.

Definition next_sequenceNr (n : Z) : Z := if n <? 0xffff then n + 1 else 256.

Definition Advertisement_flags (a : advertiser) : Z :=
  Z.shiftl (Z.b2z (ad_busy a)) 6 + Z.shiftl (Z.b2z (ad_HA a)) 5 + Z.shiftl (Z.b2z (ad_FA a)) 4.

(** The packet [sendPacket] builds; [make]'s result is not checked. *)
Definition Advertisement_build (mem : memory) (a : advertiser) (destinationIP : Z) : res packet :=
  let packetsize := (sizeof_click_ip + sizeof_advertisement_h + sizeof_advertisement_h_e)%nat in
  mp ← make mem (sizeof_click_ether + 4) None packetsize 0;
  p ← opt_res NullDeref mp;
  let p := memset0 p in
  p ← set_ip_v 0 4 p;
  p ← set_ip_hl 0 5 p;
  p ← setf 0 ip_tos 0 p;
  p ← setf 0 ip_len (htons (Z.of_nat packetsize)) p;
  p ← setf 0 ip_id (htons (ad_sequenceNr a)) p;
  p ← setf 0 ip_ttl 1 p;
  p ← setf 0 ip_p 1 p;
  p ← setf 0 ip_src (ad_srcIp a) p;
  p ← setf 0 ip_dst destinationIP p;
  bytes ← pbytes p 0 (plength p);
  p ← setf 0 ip_sum (click_in_cksum bytes) p;
  dst ← getf p 0 ip_dst;
  let p := set_dst_ip_anno dst p in
  p ← setf 20 adv_type 9 p;
  p ← setf 20 adv_code 0 p;
  p ← setf 20 adv_addresses 1 p;
  p ← setf 20 adv_addr_size 2 p;
  p ← setf 20 adv_lifetime (htons (ad_advertisementLifetime a)) p;
  p ← setf 20 adv_address (ad_srcIp a) p;
  p ← setf 20 adv_preferences 0 p;
  p ← setf 36 ext_type 16 p;
  p ← setf 36 ext_length (6 + 4 * 1) p;
  p ← setf 36 ext_seq_nr (htons (ad_sequenceNr a)) p;
  p ← setf 36 ext_lifetime (htons (ad_registrationLifetime a)) p;
  p ← setf 36 ext_address (ad_careOfAddress a) p;
  p ← setf 36 ext_flags (Advertisement_flags a) p;
  p ← setf 36 ext_reserved 0 p;
  msg ← pbytes p 20 (packetsize - sizeof_click_ip);
  setf 20 adv_checksum (click_in_cksum msg) p.

(** [Advertisement::sendPacket] *)
Definition Advertisement_sendPacket (mem : memory) (destinationIP : Z)
  : handler advertiser event unit :=
  a <-- hget ;;
  p <-? Advertisement_build mem a destinationIP ;;
  hmodify (set_sequenceNr (next_sequenceNr (ad_sequenceNr a))) ;;;
  hemit (Push 0 p).

(** [Advertisement::push]: a solicitation, with its link-layer header. *)
Definition Advertisement_push (mem : memory) (p : packet) : handler advertiser event unit :=
  src <-? getf p 14 ip_src ;;
  Advertisement_sendPacket mem src ;;;
  hemit (Kill p).

(** [Advertisement::run_timer]; [_interval] is 1. *)
Definition Advertisement_run_timer (mem : memory) (rnd : Z) : handler advertiser event unit :=
  Advertisement_sendPacket mem broadcast ;;;
  hemit (Reschedule (1 * 1000 + rnd mod 100)).

(** ** [Solicitation]: [_consequent_messages], next to the node's information *)
Definition Solicitation_build (mem : memory) (src_address : Z) : res packet :=
  let packetsize := (sizeof_click_ip + sizeof_solicitation_h)%nat in
  mp ← make mem (sizeof_click_ether + 4) None packetsize 0;
  p ← opt_res NullDeref mp;
  let p := memset0 p in
  p ← set_ip_v 0 4 p;
  p ← set_ip_hl 0 5 p;
  p ← setf 0 ip_tos 0 p;
  p ← setf 0 ip_len (htons (Z.of_nat packetsize)) p;
  p ← setf 0 ip_ttl 1 p;
  p ← setf 0 ip_p 1 p;
  p ← setf 0 ip_src src_address p;
  p ← setf 0 ip_dst broadcast p;
  dst ← getf p 0 ip_dst;
  let p := set_dst_ip_anno dst p in
  p ← setf 20 sol_type 10 p;
  p ← setf 20 sol_code 0 p;
  hdr ← pbytes p 0 sizeof_click_ip;
  p ← setf 0 ip_sum (click_in_cksum hdr) p;
  msg ← pbytes p 20 (packetsize - sizeof_click_ip);
  setf 20 sol_checksum (click_in_cksum msg) p.

Section Node.
Context {M : Type} `{AssocMap packet M}.
Implicit Types s : mninfo M.

Definition Solicitation_run_timer (mem : memory) (src_address max_tries : Z)
  : handler (mninfo M * Z) event unit :=
  st <-- hget ;;
  if mn_connected (fst st) || negb (am_empty (mn_advertisements (fst st))) then
    hput (fst st, 0) ;;;
    hemit (Reschedule 1000)
  else if max_tries <=? snd st then
    hemit (Reschedule 1000)
  else
    hput (fst st, u32 (snd st + 1)) ;;;
    p <-? Solicitation_build mem src_address ;;
    hemit (Push 0 p) ;;;
    hemit (Reschedule 1000).

(** ** [CheckSolicitation::push]: packets with their link-layer header *)
Definition CheckSolicitation_push (p : packet) : handler unit event unit :=
  proto <-? getf p 14 ip_p ;;
  if proto =? 1 then
    type <-? getf p 34 sol_type ;;
    if type =? 10 then
      src <-? getf p 14 ip_src ;;
      if src =? 0 then hemit (Kill p)
      else
        msg <-? pbytes p 34 sizeof_solicitation_h ;;
        if negb (click_in_cksum msg =? 0) then hemit (Kill p)
        else
          code <-? getf p 34 sol_code ;;
          if negb (code =? 0) then hemit (Kill p)
          else
            len <-? getf p 14 ip_len ;;
            if 8 + 20 <=? ntohs len then hemit (Kill p)
            else hemit (Push 0 p)
    else hemit (Push 1 p)
  else hemit (Push 1 p).
End Node.

(** ** What the agents advertise *)
Record advertiser_ok (a : advertiser) : Prop := {
  adok_src : in32 (ad_srcIp a); adok_coa : in32 (ad_careOfAddress a); adok_seq : in16 (ad_sequenceNr a)
}.
Definition adv_header (a : advertiser) (dst : Z) : ip_hdr :=
  let i := IpHdr 69 0 (htons 48) (htons (ad_sequenceNr a)) 0 1 1 0 (ad_srcIp a) dst in
  ip_with_sum (click_in_cksum (enc_ip i)) i.
Definition adv_ext_of (a : advertiser) : adv_ext :=
  AdvExt 16 10 (htons (ad_sequenceNr a)) (htons (ad_registrationLifetime a))
    (Advertisement_flags a) 0 (ad_careOfAddress a).
Definition adv_of (a : advertiser) : adv :=
  let h c := AdvH 9 0 c 1 2 (htons (ad_advertisementLifetime a)) (ad_srcIp a) 0 in
  h (click_in_cksum (enc_adv (h 0) ++ enc_adv_ext (adv_ext_of a))).

Lemma Advertisement_build_run m a dst :
  advertiser_ok a -> in32 dst ->
  exists p, Advertisement_build (Some m) a dst = Ok p /\
   pk_data p = enc_ip (adv_header a dst) ++ enc_adv (adv_of a) ++ enc_adv_ext (adv_ext_of a) /\
   dst_ip_anno p = Some dst /\ pk_shared p = false.
Proof.
  intros [] Hd. unfold Advertisement_build. rewrite make_some. cbn [opt_res]. rewrite bind_ok. cbv beta.
  rewrite memset0_made.
  change (sizeof_click_ip + sizeof_advertisement_h + sizeof_advertisement_h_e)%nat with 48%nat.
  rewrite zero_adv. build.
  change (48 - sizeof_click_ip)%nat with 28%nat. change (6 + 4 * 1) with 10.
  change (enc_adv (AdvH 0 0 0 0 0 0 0 0) ++ enc_adv_ext (AdvExt 0 0 0 0 0 0 0) ++ [])
    with (replicate 28 0).
  rewrite cksum_zero_tail by (auto with bytes; reflexivity).
  rewrite pbytes_built_rest by reflexivity. rewrite bind_ok; cbv beta.
  rewrite app_nil_r. rewrite set_adv_checksum.
  eexists. split; [reflexivity|]. split; [reflexivity|]. split; [|reflexivity].
  rewrite dst_ip_anno_made, u32_idem. f_equal. by apply u32_small.
Qed.

Lemma in32_broadcast : in32 broadcast.
Proof. done. Qed.
Lemma Advertisement_flags_range a : in8 (Advertisement_flags a).
Proof. unfold Advertisement_flags. by destruct (ad_busy a), (ad_HA a), (ad_FA a). Qed.
Lemma adv_header_ok a dst : advertiser_ok a -> in32 dst -> ip_ok (adv_header a dst).
Proof. intros [] ?. constructor; cbn; auto with wire. Qed.
Lemma adv_carries p a dst :
  pk_data p = enc_ip (adv_header a dst) ++ enc_adv (adv_of a) ++ enc_adv_ext (adv_ext_of a) ->
  advertiser_ok a -> in32 dst -> carries_adv p (adv_header a dst) (adv_of a) (adv_ext_of a).
Proof.
  intros Hp Ha Hd. pose proof (adv_header_ok a dst Ha Hd). pose proof (Advertisement_flags_range a).
  destruct Ha. split; [exists []; by rewrite app_nil_r|done|..]; constructor; cbn; auto with wire; done.
Qed.

Lemma Advertisement_sendPacket_run m a dst :
  advertiser_ok a -> in32 dst ->
  exists p, Advertisement_sendPacket (Some m) dst a =
      Ok (tt, set_sequenceNr (next_sequenceNr (ad_sequenceNr a)) a, [Push 0 p]) /\
    pk_data p = enc_ip (adv_header a dst) ++ enc_adv (adv_of a) ++ enc_adv_ext (adv_ext_of a) /\
    dst_ip_anno p = Some dst /\ pk_shared p = false.
Proof.
  intros Ha Hd. destruct (Advertisement_build_run m a dst Ha Hd) as (p & Hp & H).
  exists p. split; [|exact H]. unfold Advertisement_sendPacket. hrun. reflexivity.
Qed.

(** An advertisement is well formed.  For any destination, [sendPacket] pushes exactly one
    packet, an option-free IP header with TTL 1 and the ICMP protocol, a router advertisement
    and a mobility agent extension carrying the configured addresses, lifetimes, sequence
    number and the busy, home and foreign agent flags; the IP header checksum and the ICMP
    checksum verify, and the destination annotation is set for the ARP querier. *)
Theorem Advertisement_sendPacket_spec m a dst :
  advertiser_ok a -> in32 dst ->
  exists p i h x, Advertisement_sendPacket (Some m) dst a =
      Ok (tt, set_sequenceNr (next_sequenceNr (ad_sequenceNr a)) a, [Push 0 p]) /\
    pk_data p = enc_ip i ++ enc_adv h ++ enc_adv_ext x /\
    i_vhl i = 69 /\ i_len i = htons (Z.of_nat (plength p)) /\ i_ttl i = 1 /\ i_p i = 1 /\
    i_src i = ad_srcIp a /\ i_dst i = dst /\ ip_verifies i /\
    click_in_cksum (enc_adv h ++ enc_adv_ext x) = 0 /\
    a_type h = 9 /\ a_code h = 0 /\ a_address h = ad_srcIp a /\
    x_type x = 16 /\ x_length x = 10 /\ x_seq_nr x = htons (ad_sequenceNr a) /\
    x_lifetime x = htons (ad_registrationLifetime a) /\ x_address x = ad_careOfAddress a /\
    Z.testbit (x_flags x) 6 = ad_busy a /\ Z.testbit (x_flags x) 5 = ad_HA a /\
    Z.testbit (x_flags x) 4 = ad_FA a /\
    dst_ip_anno p = Some dst /\ pk_shared p = false.
Proof.
  intros Ha Hd. destruct (Advertisement_sendPacket_run m a dst Ha Hd) as (p & Hp & Hdata & H1 & H2).
  exists p, (adv_header a dst), (adv_of a), (adv_ext_of a).
  assert (Hck : click_in_cksum (enc_adv (adv_of a) ++ enc_adv_ext (adv_ext_of a)) = 0).
  { apply (adv_fill (AdvH 9 0 0 1 2 (htons (ad_advertisementLifetime a)) (ad_srcIp a) 0));
      [reflexivity|auto with bytes|cbn; lia]. }
  assert (Hv : ip_verifies (adv_header a dst))
    by exact (ip_fill (IpHdr 69 0 _ _ 0 1 1 0 _ _) eq_refl).
  assert (Hl : plength p = 48%nat) by (unfold plength; by rewrite Hdata).
  rewrite Hl. unfold adv_ext_of, x_flags at 1 2 3, Advertisement_flags.
  split_and!; try reflexivity; try assumption; by destruct (ad_busy a), (ad_HA a), (ad_FA a).
Qed.

(** [n] timer ticks, with what [rand()] returns at each. *)
Fixpoint Advertisement_ticks (mem : memory) (rnds : list Z) : handler advertiser event unit :=
  match rnds with
  | [] => hret tt
  | rnd :: rnds' => Advertisement_run_timer mem rnd ;;; Advertisement_ticks mem rnds'
  end.
(** The sequence number of the [n]-th advertisement. *)
Definition sequence (n : nat) : Z :=
  if Z.of_nat n <? 65536 then Z.of_nat n else 256 + (Z.of_nat n - 65536) mod 65280.
Lemma sequence_range n : in16 (sequence n).
Proof. unfold in16, sequence. destruct (Z.ltb_spec (Z.of_nat n) 65536); zdm. Qed.
Lemma next_sequence n : next_sequenceNr (sequence n) = sequence (S n).
Proof.
  unfold sequence, next_sequenceNr.
  destruct (Z.ltb_spec (Z.of_nat n) 65536), (Z.ltb_spec (Z.of_nat (S n)) 65536); try lia.
  - destruct (Z.ltb_spec (Z.of_nat n) 0xffff); lia.
  - destruct (Z.ltb_spec (Z.of_nat n) 0xffff); [lia|].
    replace (Z.of_nat (S n) - 65536) with 0 by lia. done.
  - set (k := Z.of_nat n - 65536) in *. replace (Z.of_nat (S n) - 65536) with (k + 1) by lia.
    destruct (Z.ltb_spec (256 + k mod 65280) 0xffff); zdm.
Qed.

Lemma Advertisement_ticks_run m rnds k a :
  advertiser_ok a -> ad_sequenceNr a = sequence k ->
  exists t, Advertisement_ticks (Some m) rnds a =
      Ok (tt, set_sequenceNr (sequence (k + length rnds)) a, t) /\
    Forall2 (fun p n => getf p 36 ext_seq_nr = Ok (htons (sequence n)))
      (pushed 0 t) (seq k (length rnds)).
Proof.
  revert k a. induction rnds as [|rnd rnds IH]; intros k a Ha Hk.
  - exists []. split; [|constructor]. simpl. rewrite Nat.add_0_r, <- Hk. by destruct a.
  - destruct (Advertisement_sendPacket_run m a broadcast Ha in32_broadcast) as (p & Hp & Hd & _).
    set (a1 := set_sequenceNr (sequence (S k)) a).
    assert (Ha1 : advertiser_ok a1) by (destruct Ha; constructor; [assumption..|apply sequence_range]).
    destruct (IH (S k) a1 Ha1 eq_refl) as (t & Ht & Hf).
    exists ([Push 0 p; Reschedule (1 * 1000 + rnd mod 100)] ++ t). split.
    + simpl length. rewrite Nat.add_succ_r. cbn [Advertisement_ticks].
      eapply hbind_run; [|exact Ht]. eapply (hbind_run _ _ _ _ _ [Push 0 p]); [|reflexivity].
      rewrite Hp, Hk, next_sequence. reflexivity.
    + refine (List.Forall2_cons p k _ Hf). rewrite <- Hk.
      exact (cadv_seq _ _ _ _ (adv_carries p a broadcast Hd Ha in32_broadcast)).
Qed.

(** Sequence numbers roll over to 256.  The [n]-th advertisement after the element was
    configured carries sequence number [n] up to 65535; from then on the numbers run from 256
    to 65535 and over again, never below 256, so that a node sees a number below 256 only from
    an agent that restarted (RFC 5944, 2.3.2). *)
Theorem Advertisement_sequence m rnds a :
  advertiser_ok a -> ad_sequenceNr a = 0 ->
  (exists t, Advertisement_ticks (Some m) rnds a =
      Ok (tt, set_sequenceNr (sequence (length rnds)) a, t) /\
    Forall2 (fun p n => getf p 36 ext_seq_nr = Ok (htons (sequence n)))
      (pushed 0 t) (seq 0 (length rnds))) /\
  (forall n, in16 (sequence n) /\ (65536 <= Z.of_nat n -> 256 <= sequence n)).
Proof.
  intros Ha Hs. split; [exact (Advertisement_ticks_run m rnds 0 a Ha Hs)|].
  intros n. split; [apply sequence_range|]. unfold sequence. intros Hn.
  destruct (Z.ltb_spec (Z.of_nat n) 65536); zdm.
Qed.

(** ** Soliciting *)
Definition sol_header (src : Z) : ip_hdr :=
  let i := IpHdr 69 0 (htons 26) 0 0 1 1 0 src broadcast in
  ip_with_sum (click_in_cksum (enc_ip i)) i.
Definition sol_message : sol :=
  let h c := SolH 10 0 c 0 0 in h (click_in_cksum (enc_sol (h 0))).

Lemma Solicitation_build_run m src :
  in32 src ->
  exists p, Solicitation_build (Some m) src = Ok p /\
    pk_data p = enc_ip (sol_header src) ++ enc_sol sol_message /\
    dst_ip_anno p = Some broadcast /\ pk_shared p = false.
Proof.
  intros Hd. unfold Solicitation_build. rewrite make_some. cbn [opt_res]. rewrite bind_ok. cbv beta.
  rewrite memset0_made. change (sizeof_click_ip + sizeof_solicitation_h)%nat with 26%nat.
  rewrite zero_sol. build. change (26 - sizeof_click_ip)%nat with 6%nat.
  rewrite pbytes_built_rest by reflexivity. rewrite bind_ok; cbv beta.
  rewrite set_sol_checksum, !app_nil_r.
  eexists. split; [reflexivity|]. split; [reflexivity|]. split; [|reflexivity].
  by rewrite dst_ip_anno_made, u32_idem.
Qed.


Section Soliciting.
Context {M : Type} `{AssocMap packet M}.
Implicit Types s : mninfo M.

Fixpoint Solicitation_ticks (mem : memory) (src max : Z) (n : nat)
  : handler (mninfo M * Z) event unit :=
  match n with
  | O => hret tt
  | S n' => Solicitation_run_timer mem src max ;;; Solicitation_ticks mem src max n'
  end.

Lemma Solicitation_run_timer_send m src max s c :
  in32 src -> mn_connected s = false -> am_empty (mn_advertisements s) = true -> c < max ->
  exists p, Solicitation_run_timer (Some m) src max (s, c) =
      Ok (tt, (s, u32 (c + 1)), [Push 0 p; Reschedule 1000]) /\
    pk_data p = enc_ip (sol_header src) ++ enc_sol sol_message.
Proof.
  intros Hs Hc He Hm. destruct (Solicitation_build_run m src Hs) as (p & Hp & Hd & _).
  exists p. split; [|exact Hd]. unfold Solicitation_run_timer. hrun. cbn [fst snd].
  rewrite Hc, He. cbn [orb negb]. destruct (Z.leb_spec max c); [lia|]. hrun. reflexivity.
Qed.

Lemma Solicitation_run_timer_stop m src max s c :
  mn_connected s = false -> am_empty (mn_advertisements s) = true -> max <= c ->
  Solicitation_run_timer m src max (s, c) = Ok (tt, (s, c), [Reschedule 1000]).
Proof.
  intros Hc He Hm. unfold Solicitation_run_timer. hrun. cbn [fst snd]. rewrite Hc, He.
  cbn [orb negb]. by destruct (Z.leb_spec max c); [|lia].
Qed.

(** solicitations stop.  A node that hears no agent sends at most [max_tries] in a row:
    in [n] ticks after [c] unanswered ones it sends [min n (max_tries - c)], each the
    solicitation to broadcast with TTL 1 and verifying checksums, and then keeps silent; a
    registration or a stored advertisement resets the count, without sending. *)
Theorem Solicitation_bounded m src max s c (n : nat) :
  in32 src -> 0 <= c -> in32 max ->
  (mn_connected s = false -> am_empty (mn_advertisements s) = true ->
   exists t, Solicitation_ticks (Some m) src max n (s, c) =
      Ok (tt, (s, Z.max c (Z.min (c + Z.of_nat n) max)), t) /\
    length (pushed 0 t) = Nat.min n (Z.to_nat (max - c)) /\
    Forall (fun p => pk_data p = enc_ip (sol_header src) ++ enc_sol sol_message)
      (pushed 0 t)) /\
  (mn_connected s = true \/ am_empty (mn_advertisements s) = false ->
   Solicitation_run_timer (Some m) src max (s, c) = Ok (tt, (s, 0), [Reschedule 1000])) /\
  (ip_verifies (sol_header src) /\ click_in_cksum (enc_sol sol_message) = 0 /\
   i_ttl (sol_header src) = 1 /\ i_dst (sol_header src) = broadcast).
Proof.
  intros Hsrc Hc0 Hmax. split; [|split].
  - intros Hc He. revert c Hc0. induction n as [|n IH]; intros c Hc0.
    + exists []. split; [|split; [done|constructor]]. by replace (Z.max c (Z.min (c + Z.of_nat 0) max)) with c by lia.
    + destruct (Z.le_gt_cases max c) as [Hm|Hm].
      * destruct (IH c Hc0) as (t & Ht & Hl & Hf). exists ([Reschedule 1000] ++ t).
        split; [|split; [|exact Hf]];
          [|change (length (pushed 0 t) = Nat.min (S n) (Z.to_nat (max - c))); rewrite Hl; lia].
        cbn [Solicitation_ticks].
        rewrite (hbind_run _ _ _ _ _ _ _ _ _
          (Solicitation_run_timer_stop (Some m) src max s c Hc He Hm) Ht).
        by replace (Z.max c (Z.min (c + Z.of_nat (S n)) max))
          with (Z.max c (Z.min (c + Z.of_nat n) max)) by lia.
      * destruct (Solicitation_run_timer_send m src max s c Hsrc Hc He Hm) as (p & Hp & Hd).
        unfold in32 in Hmax. rewrite u32_small in Hp by lia.
        destruct (IH (c + 1)) as (t & Ht & Hl & Hf); [lia|].
        exists ([Push 0 p; Reschedule 1000] ++ t). split.
        -- cbn [Solicitation_ticks]. rewrite (hbind_run _ _ _ _ _ _ _ _ _ Hp Ht).
           by replace (Z.max c (Z.min (c + Z.of_nat (S n)) max))
             with (Z.max (c + 1) (Z.min (c + 1 + Z.of_nat n) max)) by lia.
        -- split; [|by constructor]. change (S (length (pushed 0 t)) = Nat.min (S n) (Z.to_nat (max - c))).
           rewrite Hl. lia.
  - intros Hd. unfold Solicitation_run_timer. hrun. cbn [fst].
    assert (E : mn_connected s || negb (am_empty (mn_advertisements s)) = true).
    { destruct Hd as [->| ->]; [done|]. by rewrite orb_true_r. }
    rewrite E. reflexivity.
  - split_and!; [exact (ip_fill (IpHdr 69 0 _ 0 0 1 1 0 _ _) eq_refl)
      |exact (sol_fill (SolH 10 0 0 0 0) eq_refl)|reflexivity..].
Qed.
End Soliciting.

(** ** Checking solicitations *)
Record sol_ok (h : sol) : Prop := {
  sok_type : in8 (s_type h); sok_code : in8 (s_code h); sok_checksum : in16 (s_checksum h);
  sok_addresses : in8 (s_addresses h); sok_pad : in8 (s_pad h)
}.
(** A frame: a link-layer header, an IP header without options, a solicitation. *)
Record sol_frame (p : packet) (i : ip_hdr) (h : sol) : Prop := {
  sf_data : exists pre rest, length pre = 14%nat /\ pk_data p = pre ++ enc_ip i ++ enc_sol h ++ rest;
  sf_ip : ip_ok i; sf_sol : sol_ok h
}.
Ltac getf_sol :=
  intros [(pre & rest & Hl & Hd) [] []]; eapply (getf_pre pre _ _ 14); [exact Hl|exact Hd|simpl; lia|];
  unfold enc_sol; wire_eval; small_words; reflexivity.
Section SolFrame.
Context (p : packet) (i : ip_hdr) (h : sol).
Lemma sf_p : sol_frame p i h -> getf p (14 + 0) ip_p = Ok (i_p i).
Proof. getf_sol. Qed.
Lemma sf_src : sol_frame p i h -> getf p (14 + 0) ip_src = Ok (i_src i).
Proof. getf_sol. Qed.
Lemma sf_len : sol_frame p i h -> getf p (14 + 0) ip_len = Ok (i_len i).
Proof. getf_sol. Qed.
Lemma sf_type : sol_frame p i h -> getf p (14 + 20) sol_type = Ok (s_type h).
Proof. getf_sol. Qed.
Lemma sf_code : sol_frame p i h -> getf p (14 + 20) sol_code = Ok (s_code h).
Proof. getf_sol. Qed.
Lemma sf_bytes : sol_frame p i h -> pbytes p 34 sizeof_solicitation_h = Ok (enc_sol h).
Proof.
  intros [(pre & rest & Hl & Hd) _ _]. rewrite pbytes_data.
  - rewrite Hd, app_assoc, (drop_app_length' (pre ++ enc_ip i)) by (rewrite length_app, Hl; done).
    by rewrite (take_app_length' (enc_sol h)).
  - unfold plength, sizeof_solicitation_h. rewrite Hd, !length_app, Hl.
    change (length (enc_ip i)) with 20%nat. change (length (enc_sol h)) with 6%nat. lia.
Qed.
End SolFrame.

(** What happens to a frame: port 0 is the advertisement element, port 1 the ordinary path. *)
Definition solicitation_verdict (p : packet) (i : ip_hdr) (h : sol) : event :=
  if negb (i_p i =? 1) || negb (s_type h =? 10) then Push 1 p
  else if (i_src i =? 0) || negb (click_in_cksum (enc_sol h) =? 0) || negb (s_code h =? 0) ||
          (28 <=? ntohs (i_len i)) then Kill p
  else Push 0 p.

Lemma CheckSolicitation_push_run p i h :
  sol_frame p i h -> CheckSolicitation_push p tt = Ok (tt, tt, [solicitation_verdict p i h]).
Proof.
  intros Hf. pose proof (sf_p _ _ _ Hf) as H1. pose proof (sf_src _ _ _ Hf) as H2.
  pose proof (sf_len _ _ _ Hf) as H3. pose proof (sf_type _ _ _ Hf) as H4.
  pose proof (sf_code _ _ _ Hf) as H5. pose proof (sf_bytes _ _ _ Hf) as H6.
  cbn [Nat.add] in *. unfold CheckSolicitation_push, solicitation_verdict. hrun.
  destruct (i_p i =? 1); [|reflexivity]. hrun. destruct (s_type h =? 10); [|reflexivity]. hrun.
  destruct (i_src i =? 0); [reflexivity|]. hrun.
  destruct (click_in_cksum (enc_sol h) =? 0); [|reflexivity]. cbn [negb]. hrun.
  destruct (s_code h =? 0); [|reflexivity]. cbn [negb]. hrun. change (8 + 20) with 28.
  destruct (28 <=? ntohs (i_len i)); reflexivity.
Qed.

(** what [CheckSolicitation] lets through.  On any frame holding an option-free IP header
    and six bytes of payload: packets that are no solicitation take the ordinary path; a
    solicitation reaches the advertisement element exactly when its source is not 0, its
    first six bytes sum to zero, its code is 0 and its IP length is below 28; all others are
    dropped.  RFC 1256 asks for an ICMP length of 8 or more, an IP length of 28 or more, so a
    conforming solicitation is always dropped. *)
Theorem CheckSolicitation_push_spec p i h :
  sol_frame p i h ->
  CheckSolicitation_push p tt = Ok (tt, tt, [solicitation_verdict p i h]) /\
  (i_p i = 1 -> s_type h = 10 -> 28 <= ntohs (i_len i) ->
   solicitation_verdict p i h = Kill p).
Proof.
  intros Hf. split; [exact (CheckSolicitation_push_run p i h Hf)|].
  intros Hp Ht Hl. unfold solicitation_verdict. rewrite Hp, Ht. cbn [Z.eqb Pos.eqb negb orb].
  destruct (Z.leb_spec 28 (ntohs (i_len i))); [|lia]. by rewrite orb_true_r.
Qed.

Lemma sol_header_ok src : in32 src -> ip_ok (sol_header src).
Proof. constructor; cbn; auto with wire; done. Qed.
Lemma sol_message_ok : sol_ok sol_message.
Proof. constructor; cbn; auto with wire; done. Qed.

(** C14: agents answer the nodes' solicitations.  Whatever node address (not 0) and link-layer
    header, a frame with the solicitation [Solicitation] builds passes [CheckSolicitation],
    and [Advertisement] answers it with an advertisement to the node's own address, and
    drops the frame. *)
Theorem solicitation_answered m m2 src pre q p a :
  in32 src -> src <> 0 -> advertiser_ok a ->
  Solicitation_build (Some m) src = Ok q -> length pre = 14%nat -> pk_data p = pre ++ pk_data q ->
  CheckSolicitation_push p tt = Ok (tt, tt, [Push 0 p]) /\
  exists adv, Advertisement_push (Some m2) p a =
      Ok (tt, set_sequenceNr (next_sequenceNr (ad_sequenceNr a)) a, [Push 0 adv; Kill p]) /\
    carries_adv adv (adv_header a src) (adv_of a) (adv_ext_of a) /\ dst_ip_anno adv = Some src.
Proof.
  intros Hs H0 Ha Hq Hl Hp. destruct (Solicitation_build_run m src Hs) as (q' & Hq' & Hd & _).
  pose proof (Ok_inj _ _ (eq_trans (eq_sym Hq) Hq')) as E. rewrite E, Hd in Hp. clear Hq Hq' E.
  assert (Hf : sol_frame p (sol_header src) sol_message).
  { split; [|exact (sol_header_ok src Hs)|exact sol_message_ok].
    exists pre, []. by rewrite app_nil_r. }
  split.
  - rewrite (CheckSolicitation_push_run _ _ _ Hf). unfold solicitation_verdict.
    rewrite (sol_fill (SolH 10 0 0 0 0) eq_refl : click_in_cksum (enc_sol sol_message) = 0).
    change (i_src (sol_header src)) with src. by destruct (Z.eqb_spec src 0).
  - destruct (Advertisement_sendPacket_run m2 a src Ha Hs) as (ad & Had & Hdata & Han & _).
    exists ad. split; [|split; [by apply adv_carries|exact Han]].
    unfold Advertisement_push. pose proof (sf_src _ _ _ Hf) as Hsrc. cbn [Nat.add] in Hsrc.
    change (i_src (sol_header src)) with src in Hsrc. hrun.
    exact (hbind_run _ _ _ _ _ [Push 0 ad] _ _ [Kill p] Had eq_refl).
Qed.

(** ** Concrete instances *)
Definition sample_advertiser : advertiser := Advertiser 16777227 16777228 false true false 27 100 0.
Lemma sample_advertiser_ok : advertiser_ok sample_advertiser.
Proof. sample_ok. Qed.

Theorem Advertisement_sendPacket_spec_witness :
  exists p i h x, Advertisement_sendPacket (Some (fun _ => 0)) broadcast sample_advertiser =
      Ok (tt, set_sequenceNr 1 sample_advertiser, [Push 0 p]) /\
    pk_data p = enc_ip i ++ enc_adv h ++ enc_adv_ext x /\ ip_verifies i.
Proof.
  destruct (Advertisement_sendPacket_spec (fun _ => 0) sample_advertiser broadcast
    sample_advertiser_ok in32_broadcast) as (p & i & h & x & Hrun & Hd & _ & _ & _ & _ & _ & _ & Hv & _).
  exists p, i, h, x. split; [exact Hrun|]. split; [exact Hd|exact Hv].
Defined.

Theorem Advertisement_sequence_witness :
  exists t, Advertisement_ticks (Some (fun _ => 0)) [7; 9] sample_advertiser =
    Ok (tt, set_sequenceNr (sequence 2) sample_advertiser, t).
Proof.
  destruct (proj1 (Advertisement_sequence (fun _ => 0) [7; 9] sample_advertiser
    sample_advertiser_ok eq_refl)) as (t & Ht & _).
  exists t. exact Ht.
Defined.

Definition sample_idle : mninfo (hashmap Z packet) :=
  MNInfo 16777227 16777226 33554442 false 0 0 hm_new [].
Theorem Solicitation_bounded_witness :
  exists t, Solicitation_ticks (Some (fun _ => 0)) 16777226 5 9 (sample_idle, 0) =
      Ok (tt, (sample_idle, 5), t) /\ length (pushed 0 t) = 5%nat.
Proof.
  destruct (proj1 (Solicitation_bounded (fun _ => 0) 16777226 5 sample_idle 0 9
    ltac:(split; cbv; congruence) ltac:(cbv; congruence) ltac:(split; cbv; congruence))
    eq_refl eq_refl) as (t & Ht & Hl & _).
  exists t. split; [exact Ht|exact Hl].
Defined.

(** The node 10.0.0.1's solicitation in an Ethernet frame. *)
Definition sample_solicitation : packet :=
  bare (replicate 14 0 ++ enc_ip (sol_header 16777226) ++ enc_sol sol_message).
Lemma sample_solicitation_frame : sol_frame sample_solicitation (sol_header 16777226) sol_message.
Proof.
  split; [|apply sol_header_ok; split; cbv; congruence|exact sol_message_ok].
  exists (replicate 14 0), []. by rewrite app_nil_r.
Qed.
Lemma sample_verdict :
  solicitation_verdict sample_solicitation (sol_header 16777226) sol_message =
  Push 0 sample_solicitation.
Proof. vm_compute. reflexivity. Qed.

Theorem CheckSolicitation_push_spec_witness :
  CheckSolicitation_push sample_solicitation tt = Ok (tt, tt, [Push 0 sample_solicitation]).
Proof.
  rewrite <- sample_verdict.
  exact (proj1 (CheckSolicitation_push_spec _ _ _ sample_solicitation_frame)).
Defined.

Lemma sample_solicitation_built :
  exists q, Solicitation_build (Some (fun _ => 0)) 16777226 = Ok q /\
    pk_data sample_solicitation = replicate 14 0 ++ pk_data q.
Proof.
  destruct (Solicitation_build_run (fun _ => 0) 16777226) as (q & Hq & Hd & _);
    [split; cbv; congruence|].
  exists q. split; [exact Hq|]. by rewrite Hd.
Qed.

Theorem solicitation_answered_witness :
  CheckSolicitation_push sample_solicitation tt = Ok (tt, tt, [Push 0 sample_solicitation]) /\
  exists adv, Advertisement_push (Some (fun _ => 0)) sample_solicitation sample_advertiser =
    Ok (tt, set_sequenceNr 1 sample_advertiser, [Push 0 adv; Kill sample_solicitation]).
Proof.
  destruct sample_solicitation_built as (q & Hq & Hd).
  destruct (solicitation_answered (fun _ => 0) (fun _ => 0) 16777226 (replicate 14 0) q
    sample_solicitation sample_advertiser ltac:(split; cbv; congruence) ltac:(congruence)
    sample_advertiser_ok Hq eq_refl Hd) as (H1 & adv & H2 & _).
  split; [exact H1|]. exists adv. exact H2.
Defined.
