(* ===== verification/AdTable.v ===== *)
(** * The mobile node's table of advertisements: [processadvertisement.cc]

    [ProcessAdvertisements] keeps the newest advertisement of each agent, ages it and turns
    advertisements into registration attempts. *)
From Stdlib Require Import ZArith Lia.
From stdpp Require Import base list numbers option gmap.
From S2P Require Import Prelude Checksum Vector HashMap Packet Wire Build Mobility Discovery.

Section Table.
Context {M : Type} `{AssocMap packet M}.
Implicit Types s : mninfo M.

(** One [Pair<IPAddress, Timer>] of [_timers]: the agent, and whether its timer is scheduled.
    Copying a [Timer] yields an unscheduled one, and the vector copies its elements when it
    grows and when an erasure moves them down. *)
Definition ad_timer : Type := Z * bool.
Definition unscheduled (t : ad_timer) : ad_timer := (fst t, false).

Record process_ads : Type := ProcessAds {
  pa_mninfo : mninfo M;
  pa_timers : vector ad_timer;
  pa_latestRegAttempt : Z
}.
Definition set_pa_mninfo (s : mninfo M) (pa : process_ads) : process_ads :=
  ProcessAds s (pa_timers pa) (pa_latestRegAttempt pa).
Definition set_pa_timers (v : vector ad_timer) (pa : process_ads) : process_ads :=
  ProcessAds (pa_mninfo pa) v (pa_latestRegAttempt pa).
Definition set_pa_latest (t : Z) (pa : process_ads) : process_ads :=
  ProcessAds (pa_mninfo pa) (pa_timers pa) t.

(** [_timers.erase(begin() + i)] *)
Definition timers_erase (i : nat) (v : vector ad_timer) : res (vector ad_timer) :=
  verase i (Vec (take (S i) (v_live v) ++ map unscheduled (drop (S i) (v_live v))) (v_slack v)).

(** [_timers.push_back(Pair(addr, Timer(this)))], then [initialize] and [schedule_after_msec]
    on [_timers.back()]. *)
Definition timers_add (vmem : bool) (addr : Z) (v : vector ad_timer) : res (vector ad_timer) :=
  let v := if (vsize v <? vcapacity v)%nat || negb vmem then v
           else Vec (map unscheduled (v_live v)) (v_slack v) in
  let v := vpush_back vmem (addr, false) v in
  match list.last (v_live v) with
  | Some (a, _) => vset (vsize v - 1) (a, true) v
  | None => Fault AssertFailed
  end.

(** The first timer of an agent. *)
Fixpoint timers_find (addr : Z) (i : nat) (l : list ad_timer) : option nat :=
  match l with
  | [] => None
  | t :: l' => if fst t =? addr then Some i else timers_find addr (S i) l'
  end.

(** The stored advertisement of [addr] is dropped with its timer; the result is its sequence
    number, [65535] when there was none. *)
Definition drop_advertisement (addr : Z) : handler process_ads event Z :=
  pa <-- hget ;;
  match am_find addr (mn_advertisements (pa_mninfo pa)) with
  | None => hret 65535
  | Some old =>
      lsn <-? getf old 36 ext_seq_nr ;;
      tms <-? match timers_find addr 0 (v_live (pa_timers pa)) with
              | Some i => timers_erase i (pa_timers pa)
              | None => Ok (pa_timers pa)
              end ;;
      hput (set_pa_timers tms pa) ;;;
      hemit (Kill old) ;;;
      hmodify (fun pa => set_pa_mninfo (set_advertisements
        (am_erase addr (mn_advertisements (pa_mninfo pa))) (pa_mninfo pa)) pa) ;;;
      hret lsn
  end.

Definition store_advertisement (addr : Z) (p : packet) : handler process_ads event unit :=
  hmodify (fun pa => set_pa_mninfo (set_advertisements
    (am_insert addr p (mn_advertisements (pa_mninfo pa))) (pa_mninfo pa)) pa).

(** [ProcessAdvertisements::push]; [now] is [Timestamp::now()].  Sequence numbers are compared
    as loaded, in network byte order. *)
Definition ProcessAdvertisements_push (vmem : bool) (now : Z) (p : packet)
  : handler process_ads event unit :=
  proto <-? getf p 0 ip_p ;;
  if proto =? 1 then
    type <-? getf p 20 adv_type ;;
    if type =? 9 then
      xtype <-? getf p 36 ext_type ;;
      if xtype =? 16 then
        addr <-? getf p 20 adv_address ;;
        lsn <-- drop_advertisement addr ;;
        flags <-? getf p 36 ext_flags ;;
        if negb (flag flags 6) then
          pa <-- hget ;;
          seq <-? getf p 36 ext_seq_nr ;;
          (if negb (mn_connected (pa_mninfo pa)) || ((seq <=? lsn) && (seq <? 256)) then
             store_advertisement addr (clone p) ;;;
             hmodify (set_pa_latest now) ;;;
             hemit (Push 1 (clone p))
           else store_advertisement addr p) ;;;
          pa <-- hget ;;
          tms <-? timers_add vmem addr (pa_timers pa) ;;
          hmodify (set_pa_timers tms) ;;;
          hemit (Schedule 1000)
        else hret tt
      else hemit (Push 0 p)
    else hemit (Push 0 p)
  else hemit (Push 0 p).

(** [Timestamp::make_sec(1)], in nanoseconds *)
Definition one_second : Z := 1000000000.

(** The last lines of [run_timer]. *)
Definition retry_registration (now : Z) (agentAvailable : bool)
  : handler process_ads event unit :=
  pa <-- hget ;;
  if negb agentAvailable then
    match am_begin (mn_advertisements (pa_mninfo pa)) with
    | Some (_, q) =>
        if pa_latestRegAttempt pa + one_second <? now then
          hmodify (set_pa_latest now) ;;;
          hemit (Push 1 (clone q))
        else hret tt
    | None => hret tt
    end
  else hret tt.

(** [ProcessAdvertisements::run_timer], for the timer in slot [fired] of [_timers]; a timer
    that is not there leaves [packet] unassigned. *)
Definition ProcessAdvertisements_run_timer (now : Z) (fired : nat)
  : handler process_ads event unit :=
  pa <-- hget ;;
  match v_live (pa_timers pa) !! fired with
  | None => hlift (Fault Uninitialised)
  | Some (address, _) =>
      match am_find address (mn_advertisements (pa_mninfo pa)) with
      | None => hret tt
      | Some packet =>
          lt <-? getf packet 20 adv_lifetime ;;
          let lifetime := ntohs lt in
          let agentAvailable := mn_connected (pa_mninfo pa) in
          if 0 <? lifetime then
            packet <-? setf 20 adv_lifetime (htons (u16 (lifetime - 1))) packet ;;
            store_advertisement address packet ;;;
            hemit (Reschedule 1000) ;;;
            retry_registration now agentAvailable
          else
            (* [if (p != 0) return;]: the lookup above found it, so nothing is removed *)
            match am_find address (mn_advertisements (pa_mninfo pa)) with
            | Some _ => hret tt
            | None => hlift (Fault NullDeref)
            end
      end
  end.

(** [~ProcessAdvertisements]: as many passes over the table as it has elements, each killing
    every packet. *)
Definition ProcessAdvertisements_destroy : handler process_ads event unit :=
  pa <-- hget ;;
  let m := mn_advertisements (pa_mninfo pa) in
  fun pa => Ok (tt, pa, concat (map (fun _ => map (fun e => Kill (snd e)) (am_elems m))
                                 (seq 0 (am_size m)))).
End Table.

(** ** Timers *)
Lemma timers_erase_run i v t :
  v_live v !! i = Some t ->
  exists v', timers_erase i v = Ok v' /\
    v_live v' = take i (v_live v) ++ map unscheduled (drop (S i) (v_live v)) /\
    (vsize v' < vcapacity v')%nat.
Proof.
  intros Hi. pose proof (lookup_lt_Some _ _ _ Hi) as Hlt. unfold timers_erase.
  set (w := Vec _ (v_slack v)).
  assert (Hw : vsize w = vsize v).
  { unfold vsize, w. simpl. rewrite length_app, length_map, length_take, length_drop. lia. }
  assert (Hd : delete i (v_live w) = take i (v_live v) ++ map unscheduled (drop (S i) (v_live v))).
  { unfold w. cbn [v_live]. erewrite (take_S_r _ _ _ Hi). rewrite <- app_assoc.
    rewrite delete_take_drop. rewrite take_app_length' by (rewrite length_take; lia).
    f_equal. rewrite app_assoc. apply drop_app_length'. rewrite length_app, length_take. simpl. lia. }
  unfold verase. rewrite Hw. unfold vsize at 1. destruct (Nat.ltb_spec i (length (v_live v))); [|lia].
  unfold verase_range. destruct (Nat.ltb_spec i (S i)); [|lia]. rewrite Hw. unfold vsize at 1.
  destruct (Nat.leb_spec (S i) (length (v_live v))); [|lia].
  eexists. split; [reflexivity|]. cbn [v_live]. rewrite <- delete_take_drop, Hd. split; [done|].
  unfold vcapacity. cbn [v_slack]. rewrite length_app, length_map, length_drop.
  unfold vsize in *. rewrite Hw. lia.
Qed.

Lemma timers_add_run addr v :
  exists v', timers_add true addr v = Ok v' /\
    v_live v' = (if (vsize v <? vcapacity v)%nat then v_live v else map unscheduled (v_live v))
                  ++ [(addr, true)].
Proof.
  unfold timers_add. rewrite orb_false_r.
  set (w := if (vsize v <? vcapacity v)%nat then v else _).
  assert (Hw : v_live w = if (vsize v <? vcapacity v)%nat then v_live v
                          else map unscheduled (v_live v)) by (unfold w; by case_match).
  rewrite vpush_back_live, last_snoc, <- Hw. unfold vset, vsize.
  rewrite vpush_back_live, length_app. cbn [length].
  rewrite (proj2 (Nat.ltb_lt _ _)) by lia.
  eexists. split; [reflexivity|]. cbn [v_live]. rewrite insert_app_r_alt by lia.
  match goal with |- context [<[?k := _]> [_]] => replace k with 0%nat by lia end. done.
Qed.

Lemma timers_find_lookup addr k l i :
  timers_find addr k l = Some i -> exists b, l !! (i - k)%nat = Some (addr, b) /\ (k <= i)%nat.
Proof.
  revert k. induction l as [|[a b] l IH]; intros k; simpl; [done|].
  destruct (Z.eqb_spec a addr) as [->|].
  - intros [= <-]. rewrite Nat.sub_diag. by exists b.
  - intros (b' & Hb & Hk)%IH. exists b'. replace (i - k)%nat with (S (i - S k)) by lia.
    split; [exact Hb|lia].
Qed.

(** ** The table *)
Section Process.
Context {M : Type} `{AssocMapLaws packet M}.
Implicit Types (s : mninfo M) (pa : @process_ads M).

Abbreviation ads pa := (mn_advertisements (pa_mninfo pa)).
Abbreviation live pa := (v_live (pa_timers pa)).

(** Every stored packet is an advertisement. *)
Record ads_ok pa : Prop := {
  aok_wf : am_wf (ads pa);
  aok_stored : forall k q, am_find k (ads pa) = Some q -> exists i a x, carries_adv q i a x
}.

(** The sequence number compared with, and the timers left, once the stored advertisement of
    [addr] is dropped. *)
Definition stored_seq addr pa : Z :=
  match am_find addr (ads pa) with
  | Some old => match getf old 36 ext_seq_nr with Ok n => n | Fault _ => 0 end
  | None => 65535
  end.
Definition timers_after addr pa : list ad_timer :=
  match am_find addr (ads pa), timers_find addr 0 (live pa) with
  | Some _, Some i => take i (live pa) ++ map unscheduled (drop (S i) (live pa))
  | _, _ => live pa
  end.

Definition timers_stored addr pa : list ad_timer :=
  match am_find addr (ads pa), timers_find addr 0 (live pa) with
  | Some _, Some i => take i (live pa) ++ map unscheduled (drop (S i) (live pa))
  | _, _ => if (vsize (pa_timers pa) <? vcapacity (pa_timers pa))%nat then live pa
            else map unscheduled (live pa)
  end ++ [(addr, true)].
Definition dropped addr pa : M :=
  match am_find addr (ads pa) with Some _ => am_erase addr (ads pa) | None => ads pa end.

Lemma dropped_wf addr pa : ads_ok pa -> am_wf (dropped addr pa).
Proof. intros []. unfold dropped. destruct (am_find addr (ads pa)); [|done]. by apply am_wf_erase. Qed.
Lemma dropped_find addr pa k :
  ads_ok pa -> am_find k (dropped addr pa) = if decide (k = addr) then None else am_find k (ads pa).
Proof.
  intros []. unfold dropped. destruct (am_find addr (ads pa)) eqn:E.
  - destruct (decide (k = addr)) as [->|]; [by apply am_find_erase|by apply am_find_erase_ne].
  - by destruct (decide (k = addr)) as [->|].
Qed.

Lemma drop_advertisement_run addr pa :
  ads_ok pa ->
  exists v,
    drop_advertisement addr pa =
      Ok (stored_seq addr pa,
          ProcessAds (set_advertisements
            (dropped addr pa) (pa_mninfo pa))
            v (pa_latestRegAttempt pa),
          match am_find addr (ads pa) with Some old => [Kill old] | None => [] end) /\
    v_live v = timers_after addr pa /\
    (exists w, timers_add true addr v = Ok w /\ v_live w = timers_stored addr pa).
Proof.
  intros [Hwf Hst].
  unfold drop_advertisement, stored_seq, timers_after, timers_stored, dropped. hrun.
  destruct (timers_add_run addr (pa_timers pa)) as (w & Hw & Hwl).
  destruct (am_find addr (ads pa)) as [old|] eqn:Ef.
  - destruct (Hst _ _ Ef) as (i & a & x & Hc). pose proof (cadv_seq _ _ _ _ Hc) as Hs.
    rewrite Hs. hrun. destruct (timers_find addr 0 (live pa)) as [k|] eqn:Et.
    + destruct (timers_find_lookup _ _ _ _ Et) as (b & Hb & _). rewrite Nat.sub_0_r in Hb.
      destruct (timers_erase_run _ _ _ Hb) as (v & Hv & Hl & Hc').
      destruct (timers_add_run addr v) as (w' & Hw' & Hwl').
      rewrite (proj2 (Nat.ltb_lt _ _) Hc'), Hl in Hwl'.
      exists v. rewrite Hv. hrun. split; [reflexivity|]. split; [exact Hl|]. by exists w'.
    + exists (pa_timers pa). hrun. split; [reflexivity|]. split; [reflexivity|]. by exists w.
  - exists (pa_timers pa). split; [by destruct pa as [[] ? ?]|]. split; [reflexivity|]. by exists w.
Qed.

(** Whether an advertisement makes the node register: it has no registration, or the agent
    looks restarted, its sequence number having fallen back below 256. *)
Definition registers (a : adv) (x : adv_ext) pa : bool :=
  negb (mn_connected (pa_mninfo pa)) ||
  ((x_seq_nr x <=? stored_seq (a_address a) pa) && (x_seq_nr x <? 256)).

Definition killed_old addr pa : list event :=
  match am_find addr (ads pa) with Some old => [Kill old] | None => [] end.

Lemma ProcessAdvertisements_push_run now pa p i a x :
  ads_ok pa -> carries_adv p i a x -> i_p i = 1 -> a_type a = 9 -> x_type x = 16 ->
  exists v,
    ProcessAdvertisements_push true now p pa =
      Ok (tt,
          if flag (x_flags x) 6 then
            ProcessAds (set_advertisements (dropped (a_address a) pa) (pa_mninfo pa)) v
              (pa_latestRegAttempt pa)
          else
            ProcessAds (set_advertisements
              (am_insert (a_address a) (if registers a x pa then clone p else p)
                 (dropped (a_address a) pa)) (pa_mninfo pa)) v
              (if registers a x pa then now else pa_latestRegAttempt pa),
          killed_old (a_address a) pa ++
          if flag (x_flags x) 6 then []
          else (if registers a x pa then [Push 1 (clone p)] else []) ++ [Schedule 1000]) /\
    v_live v = (if flag (x_flags x) 6 then timers_after (a_address a) pa
                else timers_stored (a_address a) pa).
Proof.
  intros Hok Hc Hp Ha Hx. set (addr := a_address a).
  destruct (drop_advertisement_run addr pa Hok) as (v & Hd & Hv & w & Hw & Hwl).
  pose proof (cadv_p _ _ _ _ Hc) as H1. pose proof (cadv_type _ _ _ _ Hc) as H2.
  pose proof (cadv_ext_type _ _ _ _ Hc) as H3. pose proof (cadv_address _ _ _ _ Hc) as H4.
  pose proof (cadv_flags _ _ _ _ Hc) as H5. pose proof (cadv_seq _ _ _ _ Hc) as H6.
  rewrite Hp in H1. rewrite Ha in H2. rewrite Hx in H3. fold addr in H4.
  set (pa1 := ProcessAds _ v _) in Hd.
  exists (if flag (x_flags x) 6 then v else w).
  split; [|by destruct (flag (x_flags x) 6)].
  unfold ProcessAdvertisements_push. do 3 (hrun; cbn [Z.eqb Pos.eqb]). hrun.
  eapply hbind_run; [exact Hd|]. hrun.
  destruct (flag (x_flags x) 6); [reflexivity|]. cbn [negb]. hrun.
  change (mn_connected (pa_mninfo pa1)) with (mn_connected (pa_mninfo pa)).
  unfold registers. fold addr. unfold store_advertisement.
  destruct (negb _ || _); hrun.
  - apply hbind_emit. hrun. change (pa_timers _) with v. hrun. reflexivity.
  - change (pa_timers _) with v. hrun. reflexivity.
Qed.

(** what an advertisement does to the table.  After [push] of an agent advertisement the
    table is well formed and holds, for the advertised address, this advertisement (its
    shared buffer when a copy went on to registration), or nothing when the agent is busy,
    and for every other address what it held; the old entry is killed; exactly when the node
    is unregistered or the agent looks restarted the advertisement goes to the registration
    element and the attempt is dated; nothing else of the node's state changes.  Other
    packets pass on port 0. *)
Theorem ProcessAdvertisements_push_spec now pa p i a x :
  ads_ok pa -> carries_adv p i a x ->
  (i_p i = 1 -> a_type a = 9 -> x_type x = 16 ->
   let busy := Z.testbit (x_flags x) 6 in
   exists pa',
     ProcessAdvertisements_push true now p pa =
       Ok (tt, pa', killed_old (a_address a) pa ++
             if busy then []
             else (if registers a x pa then [Push 1 (clone p)] else []) ++ [Schedule 1000]) /\
     ads_ok pa' /\
     (forall k, am_find k (ads pa') =
        if decide (k = a_address a)
        then (if busy then None else Some (if registers a x pa then clone p else p))
        else am_find k (ads pa)) /\
     set_advertisements (ads pa) (pa_mninfo pa') = pa_mninfo pa /\
     pa_latestRegAttempt pa' =
       (if negb busy && registers a x pa then now else pa_latestRegAttempt pa)) /\
  (i_p i <> 1 \/ a_type a <> 9 \/ x_type x <> 16 ->
   ProcessAdvertisements_push true now p pa = Ok (tt, pa, [Push 0 p])).
Proof.
  intros Hok Hc. split.
  - intros Hp Ha Hx. destruct (ProcessAdvertisements_push_run now pa p i a x Hok Hc Hp Ha Hx)
      as (v & Hrun & _). rewrite Hrun, flag_testbit.
    pose proof (dropped_wf (a_address a) pa Hok) as Hwf.
    pose proof (fun k => dropped_find (a_address a) pa k Hok) as Hfind.
    eexists. split; [reflexivity|].
    assert (Hq : exists j b y, carries_adv (if registers a x pa then clone p else p) j b y).
    { exists i, a, x. destruct (registers a x pa); [|exact Hc]. by destruct Hc. }
    destruct (Z.testbit (x_flags x) 6).
    + split_and!; try done.
      * split; [exact Hwf|]. intros k q Hk. cbn in Hk. rewrite Hfind in Hk.
        destruct (decide (k = a_address a)); [done|]. by apply (aok_stored _ Hok k).
      * by destruct pa as [[] ? ?].
    + assert (Hins : forall k, am_find k (am_insert (a_address a)
          (if registers a x pa then clone p else p) (dropped (a_address a) pa)) =
        if decide (k = a_address a) then Some (if registers a x pa then clone p else p)
        else am_find k (ads pa)).
      { intros k. destruct (decide (k = a_address a)) as [->|Hk]; [by apply am_find_insert|].
        rewrite am_find_insert_ne, Hfind by done. by destruct (decide (k = a_address a)). }
      split_and!.
      * split; [by apply am_wf_insert|]. intros k q Hk. cbn in Hk. rewrite Hins in Hk.
        destruct (decide (k = a_address a)); [|by apply (aok_stored _ Hok k)].
        by injection Hk as <-.
      * exact Hins.
      * by destruct pa as [[] ? ?].
      * by destruct (registers a x pa).
  - pose proof (cadv_p _ _ _ _ Hc) as H1. pose proof (cadv_type _ _ _ _ Hc) as H2.
    pose proof (cadv_ext_type _ _ _ _ Hc) as H3.
    intros Hne. unfold ProcessAdvertisements_push. hrun.
    destruct (Z.eqb_spec (i_p i) 1); [|reflexivity]. hrun.
    destruct (Z.eqb_spec (a_type a) 9); [|reflexivity]. hrun.
    destruct (Z.eqb_spec (x_type x) 16); [|reflexivity]. exfalso.
    destruct Hne as [?|[?|?]]; congruence.
Qed.

(** refreshing an agent's advertisement stops the timers of the agents after it.  The
    agent's own timer is erased from [_timers] and the later ones move down; moving copies a
    [Timer], and the copy is not scheduled, so their advertisements no longer age.  A first
    advertisement does the same to all timers when the vector has to grow. *)
Theorem refresh_unschedules now pa p i a x k :
  ads_ok pa -> carries_adv p i a x -> i_p i = 1 -> a_type a = 9 -> x_type x = 16 ->
  Z.testbit (x_flags x) 6 = false ->
  is_Some (am_find (a_address a) (ads pa)) -> timers_find (a_address a) 0 (live pa) = Some k ->
  exists pa' t, ProcessAdvertisements_push true now p pa = Ok (tt, pa', t) /\
    live pa' = take k (live pa) ++ map unscheduled (drop (S k) (live pa))
                 ++ [(a_address a, true)] /\
    (forall j addr b, (k < j)%nat -> live pa !! j = Some (addr, b) ->
      live pa' !! (j - 1)%nat = Some (addr, false)).
Proof.
  intros Hok Hc Hp Ha Hx Hb [q Hq] Hk.
  destruct (ProcessAdvertisements_push_run now pa p i a x Hok Hc Hp Ha Hx) as (v & Hrun & Hv).
  rewrite flag_testbit, Hb in *. eexists _, _. split; [exact Hrun|].
  assert (Hl : v_live v = take k (live pa) ++ map unscheduled (drop (S k) (live pa))
                 ++ [(a_address a, true)]).
  { rewrite Hv. unfold timers_stored. by rewrite Hq, Hk, <- app_assoc. }
  split; [exact Hl|]. intros j addr b Hj Hlook. change (v_live v !! (j - 1)%nat = Some (addr, false)).
  destruct (timers_find_lookup _ _ _ _ Hk) as (bk & Hbk & _). rewrite Nat.sub_0_r in Hbk.
  apply lookup_lt_Some in Hbk. pose proof (lookup_lt_Some _ _ _ Hlook). unfold ad_timer in *.
  rewrite Hl, lookup_app_r by (rewrite length_take; lia).
  rewrite length_take, Nat.min_l by lia.
  rewrite lookup_app_l by (rewrite length_map, length_drop; lia).
  rewrite list_lookup_fmap, lookup_drop. replace (S k + (j - 1 - k))%nat with j by lia.
  by rewrite Hlook.
Qed.

(** One second of a stored advertisement's life. *)
Lemma age_advertisement q i a x v :
  carries_adv q i a x -> in16 v ->
  exists q', setf 20 adv_lifetime v q = Ok q' /\
    carries_adv q' i (AdvH (a_type a) (a_code a) (a_checksum a) (a_addresses a) (a_addr_size a) v
                        (a_address a) (a_preferences a)) x.
Proof.
  intros [(rest & Hd) Hi Ha Hx] Hv. rewrite <- (set_data_id q), Hd. destruct a.
  rewrite set_adv_lifetime. eexists. split; [reflexivity|].
  split; [by exists rest|exact Hi| |exact Hx]. by destruct Ha.
Qed.

Lemma retry_registration_run now avail pa :
  exists pa' t, retry_registration now avail pa = Ok (tt, pa', t) /\
    pa_mninfo pa' = pa_mninfo pa /\ pa_timers pa' = pa_timers pa /\
    (avail = true -> t = []) /\
    (avail = false -> forall k q, am_begin (ads pa) = Some (k, q) ->
     pa_latestRegAttempt pa + one_second < now ->
     t = [Push 1 (clone q)] /\ pa_latestRegAttempt pa' = now).
Proof.
  unfold retry_registration. hrun. destruct avail; cbn [negb].
  { exists pa, []. by split_and!. }
  destruct (am_begin (ads pa)) as [[k q]|] eqn:Eb.
  - destruct (Z.ltb_spec (pa_latestRegAttempt pa + one_second) now).
    + eexists _, _. split; [hrun; reflexivity|]. split_and!; [done..|].
      intros _ k' q' [= <- <-] _. done.
    + exists pa, []. split_and!; try done. intros _ k' q' _ ?. lia.
  - exists pa, []. by split_and!.
Qed.

(** stored advertisements age but never go.  A tick of any timer of the table, whatever
    the state, counts the advertised lifetime down by one second and, while the node is not
    registered, tries another registration with the first stored advertisement at most once a
    second; once the lifetime is 0 the tick does nothing at all, not even restart the timer,
    although the code after it is there to kill and erase the advertisement and disconnect.
    So a tick never changes which addresses have an advertisement, nor the connection. *)
Theorem advertisements_never_expire now fired addr b pa :
  ads_ok pa -> live pa !! fired = Some (addr, b) ->
  (am_find addr (ads pa) = None ->
   ProcessAdvertisements_run_timer now fired pa = Ok (tt, pa, [])) /\
  (forall q i a x, am_find addr (ads pa) = Some q -> carries_adv q i a x ->
   exists pa' t, ProcessAdvertisements_run_timer now fired pa = Ok (tt, pa', t) /\
     ads_ok pa' /\
     (forall k, am_find k (ads pa') = None <-> am_find k (ads pa) = None) /\
     set_advertisements (ads pa) (pa_mninfo pa') = pa_mninfo pa /\
     if ntohs (a_lifetime a) =? 0 then pa' = pa /\ t = []
     else (exists t', t = Reschedule 1000 :: t' /\ (mn_connected (pa_mninfo pa) = true -> t' = [])) /\
          exists q' a', am_find addr (ads pa') = Some q' /\ carries_adv q' i a' x /\
            ntohs (a_lifetime a') = ntohs (a_lifetime a) - 1).
Proof.
  intros Hok Hf. unfold ProcessAdvertisements_run_timer. split.
  { intros Eq. hrun. rewrite Hf, Eq. reflexivity. }
  intros q i a x Eq Hc. pose proof (cadv_lifetime _ _ _ _ Hc) as Hl.
  hrun. rewrite Hf, Eq. hrun.
  pose proof (htons_range (a_lifetime a)) as Hr. fold (ntohs (a_lifetime a)) in Hr.
  destruct (Z.ltb_spec 0 (ntohs (a_lifetime a))) as [Hpos|Hz].
  - destruct (Z.eqb_spec (ntohs (a_lifetime a)) 0); [lia|].
    destruct (age_advertisement q i a x (htons (u16 (ntohs (a_lifetime a) - 1))) Hc
      (htons_range _)) as (q' & Hq' & Hc'). hrun. unfold store_advertisement. hrun.
    set (pa1 := set_pa_mninfo _ pa).
    destruct (retry_registration_run now (mn_connected (pa_mninfo pa)) pa1)
      as (pa2 & t & Ht & Hmn & _ & Hno & _).
    assert (Hfind : forall k, am_find k (ads pa2) =
      if decide (k = addr) then Some q' else am_find k (ads pa)).
    { intros k. rewrite Hmn. cbn. destruct (decide (k = addr)) as [->|];
        [apply am_find_insert|apply am_find_insert_ne; [|done]]; apply Hok. }
    exists pa2, (Reschedule 1000 :: t). split; [by apply hbind_emit|].
    split_and!.
    + split; [rewrite Hmn; apply am_wf_insert, Hok|]. intros k r Hk. rewrite Hfind in Hk.
      destruct (decide (k = addr)); [|by apply (aok_stored _ Hok k)].
      injection Hk as <-. by eexists _, _, _.
    + intros k. rewrite Hfind. destruct (decide (k = addr)) as [->|]; [by rewrite Eq|done].
    + rewrite Hmn. by destruct pa as [[] ? ?].
    + by exists t.
    + exists q'. eexists. split; [rewrite Hfind; by rewrite decide_True|].
      split; [exact Hc'|]. cbn [a_lifetime]. rewrite u16_small by lia.
      unfold ntohs at 1. by rewrite htons_inv by lia.
  - destruct (Z.eqb_spec (ntohs (a_lifetime a)) 0); [|lia].
    exists pa, []. split; [reflexivity|]. split_and!; try done. by destruct pa as [[] ? ?].
Qed.

(** The destructor kills every stored packet as many times as there are entries: its two
    nested loops both run over the table. *)
Theorem destroy_kills_repeatedly pa :
  am_wf (ads pa) ->
  exists t, ProcessAdvertisements_destroy pa = Ok (tt, pa, t) /\
    (forall k q, am_find k (ads pa) = Some q ->
       exists l1 l2, am_elems (ads pa) = l1 ++ (k, q) :: l2 /\
         t = concat (replicate (am_size (ads pa))
               (map (fun e => Kill (snd e)) l1 ++ Kill q :: map (fun e => Kill (snd e)) l2))) /\
    (am_size (ads pa) = 1%nat -> length t = 1%nat) /\
    (length t = (am_size (ads pa) * am_size (ads pa))%nat).
Proof.
  intros Hwf. unfold ProcessAdvertisements_destroy. hrun. eexists. split; [reflexivity|].
  set (row := map (fun e => Kill (snd e)) (am_elems (ads pa))).
  assert (Hrow : forall n i, map (fun _ => row) (seq i n) = replicate n row).
  { induction n as [|n IH]; intros i; [done|]. simpl. by rewrite IH. }
  rewrite Hrow.
  assert (Hlen : length (concat (replicate (am_size (ads pa)) row)) =
    (am_size (ads pa) * am_size (ads pa))%nat).
  { rewrite (am_size_elems (ads pa)) at 3 by done.
    induction (am_size (ads pa)) as [|n IH]; [done|]. simpl. rewrite length_app, IH.
    unfold row. by rewrite length_map. }
  split_and!; [|intros E; by rewrite Hlen, E|exact Hlen].
  intros k q Hk. apply am_elems_find in Hk; [|done].
  apply list_elem_of_split in Hk as (l1 & l2 & El). exists l1, l2. split; [done|].
  unfold row. by rewrite El, map_app.
Qed.

End Process.

(** ** Concrete instances *)
Abbreviation sample_i := (IpHdr 69 0 (htons 48) 0 0 1 1 0 16777227 broadcast).
(** Agents 11.0.0.1 and 12.0.0.1 advertise for 3 seconds. *)
Definition sample_a (agent : Z) : adv := AdvH 9 0 0 1 2 (htons 3) agent 0.
Definition sample_x : adv_ext := AdvExt 16 10 0 (htons 60) 16 0 16777228.
Definition sample_ad (agent : Z) : packet :=
  bare (enc_ip sample_i ++ enc_adv (sample_a agent) ++ enc_adv_ext sample_x).
Lemma sample_ad_carries agent :
  in32 agent -> carries_adv (sample_ad agent) sample_i (sample_a agent) sample_x.
Proof.
  intros Ha. constructor; [by exists []|sample_ok| |sample_ok].
  constructor; cbn; auto with wire; try done.
Qed.

(** Both are stored, and the node is not registered. *)
Definition sample_pa : @process_ads (hashmap Z packet) :=
  ProcessAds
    (MNInfo 16777227 16777226 33554442 false 0 0
       (am_insert 16777228 (sample_ad 16777228) (am_insert 16777227 (sample_ad 16777227) hm_new)) [])
    (Vec [(16777227, true); (16777228, true)] [None; None]) 0.
Lemma sample_pa_ok : ads_ok sample_pa.
Proof.
  assert (H1 : am_wf (hm_new : hashmap Z packet)) by (apply hm_wf_new; cbv; lia).
  assert (H2 : am_wf (am_insert 16777227 (sample_ad 16777227) (hm_new : hashmap Z packet)))
    by (apply am_wf_insert, H1).
  split; [apply am_wf_insert, H2|]. intros k q.
  change (mn_advertisements (pa_mninfo sample_pa)) with
    (am_insert 16777228 (sample_ad 16777228)
       (am_insert 16777227 (sample_ad 16777227) (hm_new : hashmap Z packet))).
  destruct (decide (k = 16777228)) as [->|Hk].
  - rewrite am_find_insert by exact H2. intros [= <-].
    eexists _, _, _. apply sample_ad_carries. split; cbv; congruence.
  - rewrite am_find_insert_ne by (exact H2 || congruence).
    destruct (decide (k = 16777227)) as [->|Hk'].
    + rewrite am_find_insert by exact H1. intros [= <-].
      eexists _, _, _. apply sample_ad_carries. split; cbv; congruence.
    + rewrite am_find_insert_ne by (exact H1 || congruence).
      change (am_find k (hm_new : hashmap Z packet)) with
        (hm_find IPAddress_hashcode k None (hm_new : hashmap Z packet)).
      rewrite hm_find_spec by exact H1.
      change (hm_abs (hm_new : hashmap Z packet)) with (∅ : gmap Z packet).
      by rewrite lookup_empty.
Qed.
Lemma sample_trace :
  killed_old 16777227 sample_pa ++
    (if Z.testbit 16 6 then []
     else (if registers (sample_a 16777227) sample_x sample_pa
           then [Push 1 (clone (sample_ad 16777227))] else []) ++ [Schedule 1000]) =
  [Kill (sample_ad 16777227); Push 1 (clone (sample_ad 16777227)); Schedule 1000].
Proof. vm_compute. reflexivity. Qed.
Lemma sample_registers : registers (sample_a 16777227) sample_x sample_pa = true.
Proof. vm_compute. reflexivity. Qed.
Lemma sample_find :
  am_find 16777227 (mn_advertisements (pa_mninfo sample_pa)) = Some (sample_ad 16777227).
Proof. vm_compute. reflexivity. Qed.
Lemma sample_find2 : am_find 16777228 (mn_advertisements (pa_mninfo sample_pa)) <> None.
Proof. vm_compute. discriminate. Qed.
Lemma sample_agent_range : in32 16777227.
Proof. split; cbv; congruence. Qed.

Theorem ProcessAdvertisements_push_spec_witness :
  exists pa', ProcessAdvertisements_push true 5 (sample_ad 16777227) sample_pa =
      Ok (tt, pa', [Kill (sample_ad 16777227); Push 1 (clone (sample_ad 16777227)); Schedule 1000]) /\
    ads_ok pa' /\ pa_latestRegAttempt pa' = 5.
Proof.
  destruct (proj1 (ProcessAdvertisements_push_spec 5 sample_pa _ _ _ _ sample_pa_ok
    (sample_ad_carries 16777227 sample_agent_range)) eq_refl eq_refl eq_refl)
    as (pa' & Hrun & Hok & _ & _ & Hl).
  exists pa'. split; [rewrite <- sample_trace; exact Hrun|]. split; [exact Hok|].
  rewrite Hl. change (a_address (sample_a 16777227)) with 16777227.
  rewrite sample_registers. reflexivity.
Defined.

Theorem refresh_unschedules_witness :
  exists pa' t, ProcessAdvertisements_push true 5 (sample_ad 16777227) sample_pa = Ok (tt, pa', t) /\
    v_live (pa_timers pa') = [(16777228, false); (16777227, true)].
Proof.
  destruct (refresh_unschedules 5 sample_pa _ _ _ _ 0 sample_pa_ok
    (sample_ad_carries 16777227 sample_agent_range) eq_refl eq_refl eq_refl eq_refl
    (mk_is_Some _ _ sample_find) eq_refl) as (pa' & t & Hrun & Hl & _).
  exists pa', t. split; [exact Hrun|exact Hl].
Defined.

Theorem advertisements_never_expire_witness :
  exists pa' t, ProcessAdvertisements_run_timer 5 0 sample_pa = Ok (tt, pa', t) /\ ads_ok pa' /\
    am_find 16777228 (mn_advertisements (pa_mninfo pa')) <> None.
Proof.
  destruct (proj2 (advertisements_never_expire 5 0 16777227 true sample_pa sample_pa_ok eq_refl)
    (sample_ad 16777227) _ _ _ sample_find (sample_ad_carries 16777227 sample_agent_range))
    as (pa' & t & Hrun & Hok & Hk & _).
  exists pa', t. split; [exact Hrun|]. split; [exact Hok|].
  exact (fun Hn => sample_find2 (proj1 (Hk 16777228) Hn)).
Defined.

Theorem destroy_kills_repeatedly_witness :
  exists t, ProcessAdvertisements_destroy sample_pa = Ok (tt, sample_pa, t) /\ length t = 4%nat.
Proof.
  destruct (destroy_kills_repeatedly sample_pa (aok_wf _ sample_pa_ok)) as (t & Ht & _ & _ & Hl).
  exists t. split; [exact Ht|exact Hl].
Defined.
