(* ===== verification/IPPath.v ===== *)
(** * The IP elements on the agents' packet paths

    The scripts [scripts/library/{ha,fa,mn}.click] put the Mobile IP elements between the
    library's IP elements: [CheckIPHeader], [MarkIPHeader], [Strip], [Unstrip],
    [StripIPHeader], [SetIPChecksum], [FixIPSrc], [DecIPTTL], [Paint], [PaintTee],
    [DropBroadcasts] and [HostEtherFilter].  Each has a [simple_action]: the packet to pass
    on, or nothing when the packet went elsewhere. *)
From Stdlib Require Import ZArith Lia.
From stdpp Require Import base list numbers option.
From S2P Require Import Prelude Checksum Packet Wire Build Mobility.

(** [Element::push]: run the action, push what it returns on the same port. *)
Definition Element_push {S} (port : nat) (simple_action : packet -> handler S event (option packet))
    (p : packet) : handler S event unit :=
  mp <-- simple_action p ;;
  match mp with Some q => hemit (Push port q) | None => hret tt end.

(** [checked_output_push(port, p)] of an element with [noutputs] outputs. *)
Definition checked_output_push {S} (noutputs port : nat) (p : packet) : handler S event unit :=
  if (port <? noutputs)%nat then hemit (Push port p) else hemit (Kill p).

(** ** The IP header: [ip_header()] and its members *)
Definition nh_getf (p : packet) (f : field) : res Z :=
  o ← opt_res NullDeref (pk_nh p); pldh (f_width f) p (Z.to_nat o + f_off f).
Definition nh_setf (f : field) (v : Z) (p : packet) : res packet :=
  o ← opt_res NullDeref (pk_nh p); psth (f_width f) p (Z.to_nat o + f_off f) v.
Definition nh_bytes (p : packet) (n : nat) : res (list Z) :=
  o ← opt_res NullDeref (pk_nh p); pbytesh p (Z.to_nat o) n.
Definition nh_hl (p : packet) : res Z := v ← nh_getf p ip_vhl; Ok (v mod 16).

(** [IPAddress::is_multicast()] *)
Definition is_multicast (a : Z) : bool := Z.land a (htonl 0xF0000000) =? htonl 0xE0000000.

(** ** [CheckIPHeader] *)
Inductive Reason : Type :=
| MINISCULE_PACKET | BAD_VERSION | BAD_HLEN | BAD_IP_LEN | BAD_CHECKSUM | BAD_SADDR.
Definition NREASONS : nat := 6.
Definition reason_index (r : Reason) : nat :=
  match r with
  | MINISCULE_PACKET => 0 | BAD_VERSION => 1 | BAD_HLEN => 2 | BAD_IP_LEN => 3
  | BAD_CHECKSUM => 4 | BAD_SADDR => 5
  end.

Record check_conf : Type := CheckConf {
  ck_offset : nat; ck_checksum : bool; ck_bad_src : list Z; ck_good_dst : list Z;
  ck_noutputs : nat
}.
(** [_drops], and [_reason_drops] unless it is null *)
Record check_state : Type := CheckState { ck_drops : Z; ck_reason_drops : option (list Z) }.

Definition CheckIPHeader_drop (c : check_conf) (r : Reason) (p : packet)
  : handler check_state event (option packet) :=
  hmodify (fun s => CheckState (u32 (ck_drops s + 1))
    (alter (fun n => u32 (n + 1)) (reason_index r) <$> ck_reason_drops s)) ;;;
  (if (ck_noutputs c =? 2)%nat then hemit (Push 1 p) else hemit (Kill p)) ;;;
  hret None.

Definition is_in (a : Z) (l : list Z) : bool := existsb (Z.eqb a) l.

Definition CheckIPHeader_simple_action (c : check_conf) (p : packet)
  : handler check_state event (option packet) :=
  let plen := u32 (Z.of_nat (plength p) - Z.of_nat (ck_offset c)) in
  if s32 plen <? 20 then CheckIPHeader_drop c MINISCULE_PACKET p
  else
    vhl <-? getf p (ck_offset c) ip_vhl ;;
    if negb (vhl / 16 =? 4) then CheckIPHeader_drop c BAD_VERSION p
    else
      let hlen := Z.shiftl (vhl mod 16) 2 in
      if hlen <? 20 then CheckIPHeader_drop c BAD_HLEN p
      else
        iplen <-? getf p (ck_offset c) ip_len ;;
        let len := ntohs iplen in
        if (plen <? len) || (len <? hlen) then CheckIPHeader_drop c BAD_IP_LEN p
        else
          val <-? (if ck_checksum c then
                     hdr ← pbytes p (ck_offset c) (Z.to_nat hlen); Ok (click_in_cksum hdr)
                   else Ok 0) ;;
          if negb (val =? 0) then CheckIPHeader_drop c BAD_CHECKSUM p
          else
            src <-? getf p (ck_offset c) ip_src ;;
            dst <-? getf p (ck_offset c) ip_dst ;;
            if is_in src (ck_bad_src c) && negb (is_in dst (ck_good_dst c))
            then CheckIPHeader_drop c BAD_SADDR p
            else
              p <-? set_network_header (Z.of_nat (headroom p + ck_offset c)) hlen p ;;
              let p := if len <? plen then ptake (Z.to_nat (plen - len)) p else p in
              hret (Some (set_dst_ip_anno dst p)).

(** ** Stripping and marking *)
Definition Strip_simple_action (nbytes : nat) (p : packet) : handler unit event (option packet) :=
  hret (Some (pull nbytes p)).
Definition Unstrip_simple_action (mem : memory) (nbytes : nat) (p : packet)
  : handler unit event (option packet) :=
  hlift (push mem nbytes p).
(** [pull] takes a [uint32_t]: a negative offset pulls everything. *)
Definition StripIPHeader_simple_action (p : packet) : handler unit event (option packet) :=
  o <-? transport_header_offset p ;;
  hret (Some (pull (Z.to_nat (u32 o)) p)).
Definition MarkIPHeader_simple_action (offset : nat) (p : packet)
  : handler unit event (option packet) :=
  vhl <-? getf p offset ip_vhl ;;
  p <-? set_network_header (Z.of_nat (headroom p + offset)) (Z.shiftl (vhl mod 16) 2) p ;;
  hret (Some p).

(** ** [SetIPChecksum]; its state is [_drops].  The header is the network header when there is
    one, else the data. *)
Definition SetIPChecksum_simple_action (mem : memory) (p_in : packet)
  : handler Z event (option packet) :=
  mp <-? uniqueify mem p_in ;;
  match mp with
  | None => hret None
  | Some p =>
      let nh := default (Z.of_nat (headroom p)) (pk_nh p) in
      let pos := Z.to_nat nh in
      let plen := u32 (Z.of_nat (headroom p + plength p) - nh) in
      vhl <-? (if 20 <=? plen then pldh 1 p pos else Ok 0) ;;
      let hlen := Z.shiftl (vhl mod 16) 2 in
      if (20 <=? plen) && (20 <=? hlen) && (hlen <=? plen) then
        p <-? psth 2 p (pos + 10) 0 ;;
        hdr <-? pbytesh p pos (Z.to_nat hlen) ;;
        p <-? psth 2 p (pos + 10) (click_in_cksum hdr) ;;
        hret (Some p)
      else
        hmodify (fun d => u32 (d + 1)) ;;;
        hemit (Kill p) ;;;
        hret None
  end.

(** ** [FixIPSrc] *)
Definition FixIPSrc_fix_it (mem : memory) (my_ip : Z) (p_in : packet) : res packet :=
  mp ← uniqueify mem p_in;
  p ← opt_res NullDeref mp;
  p ← set_anno_u8 FIX_IP_SRC_ANNO_OFFSET 0 p;
  p ← nh_setf ip_src my_ip p;
  hl ← nh_hl p;
  p ← nh_setf ip_sum 0 p;
  hdr ← nh_bytes p (Z.to_nat (Z.shiftl hl 2));
  nh_setf ip_sum (click_in_cksum hdr) p.
Definition FixIPSrc_simple_action (mem : memory) (my_ip : Z) (p : packet)
  : handler unit event (option packet) :=
  fix_anno <-? anno_u8 FIX_IP_SRC_ANNO_OFFSET p ;;
  if negb (fix_anno =? 0) && has_network_header p then
    q <-? FixIPSrc_fix_it mem my_ip p ;; hret (Some q)
  else hret (Some p).

(** ** [DecIPTTL]; its state is [_drops] *)
Record ttl_conf : Type := TtlConf { ttl_active : bool; ttl_multicast : bool; ttl_noutputs : nat }.

(** [~htons(sum + (sum >> 16))] with [sum = (~ntohs(ip_sum) & 0xFFFF) + 0xFEFF] *)
Definition dec_ttl_sum (ip_sum : Z) : Z :=
  let sum := Z.land (Z.lnot (ntohs ip_sum)) 0xFFFF + 0xFEFF in
  u16 (Z.lnot (htons (u16 (sum + Z.shiftr sum 16)))).

Definition DecIPTTL_simple_action (mem : memory) (c : ttl_conf) (p : packet)
  : handler Z event (option packet) :=
  (if has_network_header p then hret tt else hlift (Fault AssertFailed)) ;;;
  if negb (ttl_active c) then hret (Some p)
  else
    dst <-? (if ttl_multicast c then Ok 0 else nh_getf p ip_dst) ;;
    if negb (ttl_multicast c) && is_multicast dst then hret (Some p)
    else
      ttl <-? nh_getf p ip_ttl ;;
      if ttl <=? 1 then
        hmodify (fun d => u32 (d + 1)) ;;;
        checked_output_push (ttl_noutputs c) 1 p ;;;
        hret None
      else
        mq <-? uniqueify mem p ;;
        match mq with
        | None => hret None
        | Some q =>
            ttl <-? nh_getf q ip_ttl ;;
            q <-? nh_setf ip_ttl (u8 (ttl - 1)) q ;;
            sum <-? nh_getf q ip_sum ;;
            q <-? nh_setf ip_sum (dec_ttl_sum sum) q ;;
            hret (Some q)
        end.

(** ** [Paint], [PaintTee], [DropBroadcasts], [HostEtherFilter] *)
Definition Paint_simple_action (anno : nat) (color : Z) (p : packet)
  : handler unit event (option packet) :=
  p <-? set_anno_u8 anno color p ;; hret (Some p).

Definition PaintTee_simple_action (anno : nat) (color : Z) (p : packet)
  : handler unit event (option packet) :=
  c <-? anno_u8 anno p ;;
  if c =? color then hemit (Push 1 (clone p)) ;;; hret (Some (clone p)) else hret (Some p).

(** The state is [_drops]. *)
Definition DropBroadcasts_drop_it (noutputs : nat) (p : packet) : handler Z event unit :=
  hmodify (fun d => u32 (d + 1)) ;;;
  if (noutputs =? 2)%nat then hemit (Push 1 p) else hemit (Kill p).
Definition DropBroadcasts_simple_action (noutputs : nat) (p : packet)
  : handler Z event (option packet) :=
  if bool_decide (pk_ptype p = BROADCAST) || bool_decide (pk_ptype p = MULTICAST) then
    DropBroadcasts_drop_it noutputs p ;;; hret None
  else hret (Some p).

Record ether_conf : Type := EtherConf {
  eth_addr : list Z; eth_drop_own : bool; eth_drop_other : bool; eth_offset : nat;
  eth_noutputs : nat
}.
Definition HostEtherFilter_simple_action (c : ether_conf) (p : packet)
  : handler unit event (option packet) :=
  shost <-? (if eth_drop_own c then pbytes p (eth_offset c + 6) 6 else Ok []) ;;
  if eth_drop_own c && bool_decide (shost = eth_addr c) then
    checked_output_push (eth_noutputs c) 1 p ;;; hret None
  else
    dhost <-? pbytes p (eth_offset c) 6 ;;
    if bool_decide (dhost = eth_addr c) then hret (Some (set_packet_type_anno HOST p))
    else if bool_decide (dhost = replicate 6 255) then
      hret (Some (set_packet_type_anno BROADCAST p))
    else if negb (Z.land (default 0 (dhost !! 0%nat)) 1 =? 0) then
      hret (Some (set_packet_type_anno MULTICAST p))
    else
      let p := set_packet_type_anno OTHERHOST p in
      if eth_drop_other c then checked_output_push (eth_noutputs c) 1 p ;;; hret None
      else hret (Some p).

(** ** The marked header is the data *)

(** [ip_header()] points to the packet's first byte. *)
Definition marked (p : packet) : Prop := pk_nh p = Some (Z.of_nat (headroom p)).

Lemma pldh_data n p off : pldh n p (headroom p + off) = pld n p off.
Proof. unfold pldh, pld, pmem, ld, headroom. by rewrite rdn_app_r. Qed.
Lemma psth_data n p off v : psth n p (headroom p + off) v = pst n p off v.
Proof.
  unfold pst, psth, buffer_length.
  destruct (Nat.leb_spec (off + n) (plength p + tailroom p));
    destruct (Nat.leb_spec (headroom p + off + n) (headroom p + plength p + tailroom p));
    (lia || done).
Qed.
Lemma pbytesh_data p off n : pbytesh p (headroom p + off) n = pbytes p off n.
Proof.
  unfold pbytes, pbytesh, pmem, buffer_length.
  rewrite <- drop_drop.
  replace (drop (headroom p) (pk_head p ++ pk_data p ++ pk_tail p)) with (pk_data p ++ pk_tail p)
    by (unfold headroom; by rewrite drop_app_length).
  destruct (Nat.leb_spec (off + n) (plength p + tailroom p));
    destruct (Nat.leb_spec (headroom p + off + n) (headroom p + plength p + tailroom p));
    (lia || done).
Qed.
Ltac unmark := unfold marked; intros ->; cbn [opt_res]; rewrite bind_ok, Nat2Z.id.
Lemma marked_getf p f : marked p -> nh_getf p f = getf p 0 f.
Proof. unfold nh_getf. unmark. apply pldh_data. Qed.
Lemma marked_setf p f v : marked p -> nh_setf f v p = setf 0 f v p.
Proof. unfold nh_setf. unmark. apply psth_data. Qed.
Lemma marked_bytes p n : marked p -> nh_bytes p n = pbytes p 0 n.
Proof. unfold nh_bytes. unmark. rewrite <- (Nat.add_0_r (headroom p)). apply pbytesh_data. Qed.
Lemma marked_set_data p d : marked p -> marked (set_data d p).
Proof. done. Qed.

(** ** [CheckIPHeader] *)

(** Loads at the front of a packet of at least [off + n] bytes succeed. *)
Lemma getf_front p f :
  (f_off f + f_width f <= plength p)%nat -> exists v, getf p 0 f = Ok v.
Proof.
  intros H. unfold getf. rewrite pld_data by done. unfold plength in H.
  destruct (rdn_is_some (f_width f) (pk_data p) (f_off f) H) as [v Hv].
  exists v. by apply ld_ok.
Qed.

(** Cutting the data to its first [len] bytes. *)
Lemma ptake_data len p :
  (len <= plength p)%nat -> pk_data (ptake (plength p - len) p) = take len (pk_data p).
Proof.
  intros H. unfold ptake. destruct (Nat.ltb_spec (plength p) (plength p - len)); [lia|].
  cbn [pk_data]. f_equal. lia.
Qed.
Lemma cut_spec (len : Z) p :
  0 <= len <= Z.of_nat (plength p) ->
  let q := if len <? Z.of_nat (plength p)
           then ptake (Z.to_nat (Z.of_nat (plength p) - len)) p else p in
  pk_data q = take (Z.to_nat len) (pk_data p) /\ pk_head q = pk_head p /\
  pk_shared q = pk_shared p /\ pk_ptype q = pk_ptype p /\ pk_nh q = pk_nh p /\
  pk_h q = pk_h p /\ pk_anno q = pk_anno p.
Proof.
  intros H. destruct (Z.ltb_spec len (Z.of_nat (plength p))); cbv zeta.
  - split_and!; try done. rewrite <- ptake_data by lia. do 2 f_equal. lia.
  - split_and!; try done. unfold plength in *. by rewrite take_ge by lia.
Qed.

Definition checked (c : check_conf) (p q : packet) : Prop :=
  exists vhl iplen src dst,
    rdn 1 (pk_data p) 0 = Some vhl /\ rdn 2 (pk_data p) 2 = Some iplen /\
    rdn 4 (pk_data p) 12 = Some src /\ rdn 4 (pk_data p) 16 = Some dst /\
    let hlen := 4 * (vhl mod 16) in let len := ntohs iplen in
    vhl / 16 = 4 /\ 20 <= hlen <= len /\ len <= Z.of_nat (plength p) /\
    (ck_checksum c = true -> click_in_cksum (take (Z.to_nat hlen) (pk_data p)) = 0) /\
    (In src (ck_bad_src c) -> In dst (ck_good_dst c)) /\
    pk_data q = take (Z.to_nat len) (pk_data p) /\ pk_head q = pk_head p /\
    pk_shared q = pk_shared p /\ pk_ptype q = pk_ptype p /\ marked q /\
    transport_header_offset q = Ok hlen /\ length (pk_anno q) = length (pk_anno p) /\
    (length (pk_anno p) = anno_size -> dst_ip_anno q = Some (u32 dst)) /\
    drop 4 (pk_anno q) = drop 4 (pk_anno p).

Definition dropped_by (c : check_conf) (r : Reason) (s : check_state) : check_state :=
  CheckState (u32 (ck_drops s + 1))
    (alter (fun n => u32 (n + 1)) (reason_index r) <$> ck_reason_drops s).
Definition drop_event (c : check_conf) (p : packet) : event :=
  if (ck_noutputs c =? 2)%nat then Push 1 p else Kill p.

Lemma CheckIPHeader_drop_run c r p s :
  CheckIPHeader_drop c r p s = Ok (None, dropped_by c r s, [drop_event c p]).
Proof.
  unfold CheckIPHeader_drop, drop_event. hrun. destruct (ck_noutputs c =? 2)%nat; reflexivity.
Qed.

Lemma is_in_spec a l : is_in a l = true <-> In a l.
Proof.
  unfold is_in. rewrite existsb_exists. split.
  - intros (x & Hx & ->%Z.eqb_eq). done.
  - intros. exists a. by rewrite Z.eqb_refl.
Qed.

(** What is wrong with the IP header at the front of [d], in the order it is looked for. *)
Definition header_problem (c : check_conf) (d : list Z) : option Reason :=
  let load n i := default 0 (rdn n d i) in
  let vhl := load 1%nat 0%nat in
  let hlen := 4 * (vhl mod 16) in
  let len := ntohs (load 2%nat 2%nat) in
  if Z.of_nat (length d) <? 20 then Some MINISCULE_PACKET
  else if negb (vhl / 16 =? 4) then Some BAD_VERSION
  else if hlen <? 20 then Some BAD_HLEN
  else if (Z.of_nat (length d) <? len) || (len <? hlen) then Some BAD_IP_LEN
  else if ck_checksum c && negb (click_in_cksum (take (Z.to_nat hlen) d) =? 0)
       then Some BAD_CHECKSUM
  else if is_in (load 4%nat 12%nat) (ck_bad_src c) &&
          negb (is_in (load 4%nat 16%nat) (ck_good_dst c)) then Some BAD_SADDR
  else None.

Lemma CheckIPHeader_run c p s :
  ck_offset c = 0%nat -> bytes_ok (pk_data p) -> Z.of_nat (plength p) < 2147483648 ->
  match header_problem c (pk_data p) with
  | Some r => CheckIPHeader_simple_action c p s = Ok (None, dropped_by c r s, [drop_event c p])
  | None => exists q, CheckIPHeader_simple_action c p s = Ok (Some q, s, []) /\ checked c p q
  end.
Proof.
  intros Hoff Hb Hlen. unfold CheckIPHeader_simple_action. rewrite Hoff.
  rewrite Nat2Z.inj_0, Z.sub_0_r, u32_small by lia.
  assert (Hs : s32 (Z.of_nat (plength p)) = Z.of_nat (plength p)) by (unfold s32; zdm).
  rewrite Hs. unfold header_problem. change (Z.of_nat (length (pk_data p))) with (Z.of_nat (plength p)).
  destruct (Z.ltb_spec (Z.of_nat (plength p)) 20) as [Ht|Ht]; [apply CheckIPHeader_drop_run|].
  destruct (getf_front p ip_vhl) as [vhl Hv]; [simpl; lia|].
  destruct (getf_front p ip_len) as [iplen Hl]; [simpl; lia|].
  destruct (getf_front p ip_src) as [src Hsrc]; [simpl; lia|].
  destruct (getf_front p ip_dst) as [dst Hdst]; [simpl; lia|].
  assert (Hr : rdn 1 (pk_data p) 0 = Some vhl /\ rdn 2 (pk_data p) 2 = Some iplen /\
    rdn 4 (pk_data p) 12 = Some src /\ rdn 4 (pk_data p) 16 = Some dst).
  { unfold getf in *. rewrite pld_data in Hv, Hl, Hsrc, Hdst by (simpl; lia).
    apply ld_inv in Hv, Hl, Hsrc, Hdst. done. }
  destruct Hr as (Hrv & Hrl & Hrs & Hrd). rewrite Hrv, Hrl, Hrs, Hrd. cbn [default from_option id].
  hrun.
  destruct (Z.eqb_spec (vhl / 16) 4) as [Hv4|]; cbn [negb]; [|apply CheckIPHeader_drop_run].
  replace (Z.shiftl (vhl mod 16) 2) with (4 * (vhl mod 16))
    by (rewrite Z.shiftl_mul_pow2 by lia; lia).
  destruct (Z.ltb_spec (4 * (vhl mod 16)) 20); [apply CheckIPHeader_drop_run|].
  hrun. destruct (Z.ltb_spec (Z.of_nat (plength p)) (ntohs iplen)); [apply CheckIPHeader_drop_run|].
  destruct (Z.ltb_spec (ntohs iplen) (4 * (vhl mod 16))); cbn [orb];
    [apply CheckIPHeader_drop_run|].
  set (hlen := 4 * (vhl mod 16)) in *. set (len := ntohs iplen) in *.
  assert (Hck : exists val, (if ck_checksum c then
      hdr ← pbytes p 0 (Z.to_nat hlen); Ok (click_in_cksum hdr) else Ok 0) = Ok val /\
      ck_checksum c && negb (click_in_cksum (take (Z.to_nat hlen) (pk_data p)) =? 0)
      = negb (val =? 0)).
  { destruct (ck_checksum c); [|by exists 0].
    rewrite pbytes_data by lia. rewrite bind_ok. by eexists. }
  destruct Hck as (val & Hval & Hck). rewrite Hck. hrun.
  destruct (negb (val =? 0)); [apply CheckIPHeader_drop_run|].
  hrun. destruct (is_in src (ck_bad_src c) && negb (is_in dst (ck_good_dst c))) eqn:Ebad;
    [apply CheckIPHeader_drop_run|].
  unfold set_network_header, buffer_length.
  rewrite Nat.add_0_r. rewrite (proj2 (Z.leb_le 0 (Z.of_nat (headroom p)))) by lia.
  rewrite (proj2 (Z.leb_le _ _)) by lia. cbn [andb]. hrun.
  eexists. split; [reflexivity|]. unfold checked.
  exists vhl, iplen, src, dst. fold hlen len.
  set (p1 := MkPacket _ _ _ _ _ _ _ _ _).
  destruct (cut_spec len p1) as (Hd & Hh & Hsh & Hpt & Hnh & Hth & Han);
    [change (plength p1) with (plength p); lia|].
  change (plength p1) with (plength p) in *. cbv zeta in *.
  set (p2 := if len <? Z.of_nat (plength p) then _ else _) in *.
  do 5 (split; [first [assumption | lia]|]).
  split; [lia|]. split; [lia|]. split.
  { intros Hc. rewrite Hc in Hck. cbn [andb] in Hck.
    destruct (Z.eqb_spec (click_in_cksum (take (Z.to_nat hlen) (pk_data p))) 0); [done|].
    by destruct (Z.eqb_spec val 0). }
  split; [|split; [exact Hd|split; [exact Hh|split; [exact Hsh|split; [exact Hpt|]]]]].
  { intros Hin%is_in_spec. rewrite Hin in Ebad. cbn in Ebad. apply is_in_spec.
    by destruct (is_in dst (ck_good_dst c)). }
  split; [|split].
  - unfold marked, headroom. cbn. rewrite Hnh, Hh. done.
  - unfold transport_header_offset, headroom. cbn [pk_h pk_head set_dst_ip_anno set_anno].
    rewrite Hth, Hh. cbn. f_equal. unfold headroom. lia.
  - split; [cbn; by rewrite length_wrn, Han|].
    split; [intros Ha; apply dst_ip_anno_set; by rewrite Han|].
    cbn [pk_anno set_dst_ip_anno set_anno]. rewrite drop_wrn by (cbn; lia). by rewrite Han.
Qed.

(** What is loaded from an option-free header. *)
Lemma loads_plain i l :
  ip_ok i ->
  rdn 1 (enc_ip i ++ l) 0 = Some (i_vhl i) /\ rdn 2 (enc_ip i ++ l) 2 = Some (i_len i) /\
  rdn 4 (enc_ip i ++ l) 12 = Some (i_src i) /\ rdn 4 (enc_ip i ++ l) 16 = Some (i_dst i).
Proof.
  intros []. rewrite !rdn_app_l by (cbn; lia). split_and!; wire_eval; by small_words.
Qed.

(** Packets with an option-free header whose length field fits. *)
Lemma header_problem_plain c i l :
  ip_ok i -> i_vhl i = 69 -> 20 <= ntohs (i_len i) <= 20 + Z.of_nat (length l) ->
  header_problem c (enc_ip i ++ l) =
  if ck_checksum c && negb (click_in_cksum (enc_ip i) =? 0) then Some BAD_CHECKSUM
  else if is_in (i_src i) (ck_bad_src c) && negb (is_in (i_dst i) (ck_good_dst c))
       then Some BAD_SADDR else None.
Proof.
  intros Hok Hv Hl. unfold header_problem.
  assert (Hlen : length (enc_ip i ++ l) = (20 + length l)%nat) by (by rewrite length_app).
  rewrite Hlen.
  destruct (loads_plain i l Hok) as (E1 & E2 & E3 & E4).
  rewrite E1, E2, E3, E4, Hv. cbn [default from_option id].
  change (69 / 16 =? 4) with true. change (4 * (69 mod 16)) with 20. cbn [negb].
  destruct (Z.ltb_spec (Z.of_nat (20 + length l)) 20); [lia|]. change (20 <? 20) with false. cbn match.
  destruct (Z.ltb_spec (Z.of_nat (20 + length l)) (ntohs (i_len i))); [lia|].
  destruct (Z.ltb_spec (ntohs (i_len i)) 20); [lia|]. cbn [orb].
  by rewrite (take_app_length' (enc_ip i)).
Qed.

(** [CheckIPHeader] with its default configuration passes it on, marked and without what
    follows its length. *)
Definition default_check (c : check_conf) : Prop :=
  ck_offset c = 0%nat /\ ck_checksum c = true /\ ck_bad_src c = [].

Lemma header_problem_default c i l :
  default_check c -> ip_ok i -> i_vhl i = 69 ->
  20 <= ntohs (i_len i) <= 20 + Z.of_nat (length l) ->
  header_problem c (enc_ip i ++ l) =
  if click_in_cksum (enc_ip i) =? 0 then None else Some BAD_CHECKSUM.
Proof.
  intros (_ & Hc & Hb) Hok Hv Hl. rewrite header_problem_plain, Hc, Hb by assumption.
  by destruct (click_in_cksum (enc_ip i) =? 0).
Qed.

Lemma CheckIPHeader_plain c p s i l pad :
  default_check c -> pk_data p = enc_ip i ++ l ++ pad -> ip_ok i -> i_vhl i = 69 ->
  i_len i = htons (20 + Z.of_nat (length l)) -> 20 + Z.of_nat (length l) < 65536 ->
  bytes_ok (l ++ pad) -> Z.of_nat (plength p) < 2147483648 -> length (pk_anno p) = anno_size ->
  (ip_verifies i ->
    exists q, CheckIPHeader_simple_action c p s = Ok (Some q, s, []) /\
      pk_data q = enc_ip i ++ l /\ pk_head q = pk_head p /\ pk_shared q = pk_shared p /\
      pk_ptype q = pk_ptype p /\ marked q /\ transport_header_offset q = Ok 20 /\
      length (pk_anno q) = anno_size /\ dst_ip_anno q = Some (i_dst i) /\
      drop 4 (pk_anno q) = drop 4 (pk_anno p)) /\
  (~ ip_verifies i ->
    CheckIPHeader_simple_action c p s =
      Ok (None, dropped_by c BAD_CHECKSUM s, [drop_event c p])).
Proof.
  intros Hdef Hd Hok Hv Hlen Hll Hb Hpl Han.
  assert (Hlen' : ntohs (i_len i) = 20 + Z.of_nat (length l))
    by (rewrite Hlen; unfold ntohs; apply htons_inv; lia).
  assert (Hbd : bytes_ok (pk_data p)) by (rewrite Hd; apply bytes_ok_app; auto with bytes).
  pose proof (CheckIPHeader_run c p s (proj1 Hdef) Hbd Hpl) as H.
  rewrite Hd, (header_problem_default c i (l ++ pad) Hdef Hok Hv) in H;
    [|rewrite Hlen', length_app; lia].
  unfold ip_verifies.
  destruct (Z.eqb_spec (click_in_cksum (enc_ip i)) 0) as [E|E].
  - split; [intros _|by intros []].
    destruct H as (q & Hq & vhl & iplen & src & dst & R1 & R2 & R3 & R4 & _ & _ & _ & _ & _ &
      Hdq & Hh & Hs & Hp & Hm & Ht & Hla & Ha & Hrest).
    destruct (loads_plain i (l ++ pad) Hok) as (E1 & E2 & _ & E4).
    rewrite Hd, E1 in R1. rewrite Hd, E2 in R2. rewrite Hd, E4 in R4.
    apply Some_inj in R1, R2, R4. subst vhl iplen dst.
    exists q. split; [exact Hq|]. split.
    { rewrite Hdq, Hd, Hlen', app_assoc. apply take_app_length'.
      rewrite length_app. change (length (enc_ip i)) with 20%nat. lia. }
    do 4 (split; [assumption|]). split; [|split; [by rewrite Hla|]].
    + rewrite Ht, Hv. reflexivity.
    + split; [|exact Hrest]. rewrite Ha, u32_small by (done || by destruct Hok). done.
  - split; [done|intros _; exact H].
Qed.

(** ** [StripIPHeader], [Strip] and [Unstrip] *)
Lemma StripIPHeader_run p i l s :
  transport_header_offset p = Ok 20 -> pk_data p = enc_ip i ++ l ->
  StripIPHeader_simple_action p s = Ok (Some (pull 20 p), s, []) /\ pk_data (pull 20 p) = l.
Proof.
  intros Ht Hd. split.
  - unfold StripIPHeader_simple_action. hrun. reflexivity.
  - rewrite pull_data, Hd. by rewrite (drop_app_length' (enc_ip i)).
Qed.

(** ** [SetIPChecksum] *)
Lemma SetIPChecksum_marked m p s i l :
  marked p -> pk_shared p = false -> pk_data p = enc_ip i ++ l -> i_vhl i = 69 -> ip_ok i ->
  Z.of_nat (plength p) < 4294967296 ->
  SetIPChecksum_simple_action m p s =
    Ok (Some (set_data (enc_ip (ip_with_sum (click_in_cksum (enc_ip (ip_with_sum 0 i))) i) ++ l) p),
        s, []) /\
  ip_verifies (ip_with_sum (click_in_cksum (enc_ip (ip_with_sum 0 i))) i).
Proof.
  intros Hm Hs Hd Hv Hok Hlen. split.
  2: { exact (ip_fill (ip_with_sum 0 i) eq_refl). }
  assert (Hpl : plength p = (20 + length l)%nat) by (unfold plength; by rewrite Hd, length_app).
  assert (Hset : forall v j, psth 2 (set_data (enc_ip j ++ l) p) (headroom p + 10) v =
    Ok (set_data (enc_ip (ip_with_sum v j) ++ l) p)).
  { intros v j. rewrite (psth_data 2 (set_data (enc_ip j ++ l) p) 10). destruct j. apply set_ip_sum. }
  assert (Hvhl : pldh 1 p (headroom p) = Ok 69).
  { rewrite <- (Nat.add_0_r (headroom p)), pldh_data. apply (getf_val p 0 ip_vhl); [|simpl; lia].
    rewrite Hd. destruct Hok. wire_eval. small_words. by rewrite Hv. }
  unfold SetIPChecksum_simple_action. rewrite uniqueify_unshared by done. hrun.
  unfold marked in Hm. rewrite Hm. cbn [default from_option id].
  rewrite Nat2Z.id. replace (Z.of_nat (headroom p + plength p) - Z.of_nat (headroom p))
    with (Z.of_nat (plength p)) by lia.
  rewrite u32_small by lia. rewrite (proj2 (Z.leb_le 20 _)) by lia. rewrite Hvhl. hrun.
  change (Z.shiftl (69 mod 16) 2) with 20. change (20 <=? 20) with true.
  rewrite (proj2 (Z.leb_le 20 _)) by lia. cbn [andb].
  rewrite <- (set_data_id p), Hd at 1. rewrite Hset. hrun.
  set (p1 := set_data _ p).
  assert (S2 : pbytesh p1 (headroom p) (Z.to_nat 20) = Ok (enc_ip (ip_with_sum 0 i))).
  { rewrite <- (Nat.add_0_r (headroom p)). rewrite (pbytesh_data p1). apply pbytes_built_ip. }
  rewrite S2. hrun. unfold p1. rewrite Hset. hrun. reflexivity.
Qed.

(** ** [DecIPTTL] *)

(** The incremental update adds one to the stored checksum, modulo 65535. *)
Lemma dec_ttl_sum_spec c :
  in16 c -> in16 (dec_ttl_sum c) /\ (dec_ttl_sum c - c - 1) mod 65535 = 0.
Proof.
  unfold in16. intros Hc. unfold dec_ttl_sum. pose proof (htons_range c) as Hr.
  fold (ntohs c) in Hr. rewrite lnot_ffff by lia. rewrite shiftr_16.
  set (s := 65535 - ntohs c + 0xFEFF). assert (Hs : 65279 <= s < 130815) by lia.
  pose proof (u16_range (s + s / 65536)) as Hf. set (f := u16 (s + s / 65536)) in *.
  pose proof (htons_range f) as Hh. 
  assert (Hg : u16 (Z.lnot (htons f)) = 65535 - htons f)
    by (unfold u16; rewrite lnot_mod, Z.mod_small by lia; done).
  rewrite Hg. clear Hg. split; [lia|].
  assert (Hf' : exists k, f = s - 65535 * k).
  { exists (s / 65536). unfold f, u16. clear Hf Hh. zdm. }
  assert (Hsw : forall x, 0 <= x < 65536 -> exists k, htons x = 256 * x - 65535 * k).
  { intros x Hx. exists (x / 256). unfold htons. zdm. }
  destruct Hf' as [k1 E1]. destruct (Hsw f Hf) as [k2 E2]. destruct (Hsw c Hc) as [k3 E3].
  apply Z.mod_divide; [lia|]. exists (k2 - 256 * k3 + 256 * k1 - 510 + c).
  rewrite E2, E1. unfold s, ntohs. rewrite E3. lia.
Qed.

(** The header with its time to live decremented and its checksum updated. *)
Definition dec_ttl_hdr (i : ip_hdr) : ip_hdr :=
  IpHdr (i_vhl i) (i_tos i) (i_len i) (i_id i) (i_off i) (i_ttl i - 1) (i_p i)
    (dec_ttl_sum (i_sum i)) (i_src i) (i_dst i).

(** What a verifying header is: its words sum to a positive multiple of 65535. *)
Lemma cksum_zero l :
  bytes_ok l -> Z.of_nat (length l) < 131072 ->
  click_in_cksum l = 0 <-> 0 < wsum l /\ wsum l mod 65535 = 0.
Proof.
  intros Hb Hl. rewrite click_in_cksum_spec by done. pose proof (wsum_bounds l Hb) as [Hw _].
  unfold ocfold. destruct (Z.eqb_spec (wsum l) 0); split; intros H; try lia.
  - split; [lia|]. apply Z.mod_divide; [lia|]. exists ((wsum l - 1) / 65535 + 1). zdm.
  - destruct H as [_ H]. apply Z.mod_divide in H as [k Hk]; [|lia].
    rewrite Hk. replace (k * 65535 - 1) with (65534 + (k - 1) * 65535) by lia.
    rewrite Z.mod_add by lia. reflexivity.
Qed.

Lemma wsum_enc_ip i :
  ip_ok i ->
  wsum (enc_ip i) =
  (i_vhl i + 256 * i_tos i) + i_len i + i_id i + i_off i + (i_ttl i + 256 * i_p i) + i_sum i +
  (i_src i mod 65536 + i_src i / 65536) + (i_dst i mod 65536 + i_dst i / 65536).
Proof.
  intros []. unfold enc_ip. cbn [le app wsum].
  assert (H1 : forall x, in8 x -> x mod 256 = x) by (intros; by apply Z.mod_small).
  assert (H2 : forall x, in16 x -> x mod 256 + 256 * ((x / 256) mod 256) = x)
    by (unfold in16; intros; zdm).
  assert (H4 : forall x, in32 x -> (x / 256 / 256) mod 256 + 256 * ((x / 256 / 256 / 256) mod 256)
    = x / 65536) by (intros x Hx; rewrite <- (H2 (x / 65536)) by (unfold in16, in32 in *; zdm);
      by rewrite div_256_65536).
  assert (H3 : forall x, x mod 256 + 256 * ((x / 256) mod 256) = x mod 65536)
    by (intros; zdm).
  rewrite (H1 (i_vhl i)), (H1 (i_tos i)), (H1 (i_ttl i)), (H1 (i_p i)) by assumption.
  rewrite (H2 (i_len i)), (H2 (i_id i)), (H2 (i_off i)), (H2 (i_sum i)) by assumption.
  rewrite (H4 (i_src i)), (H4 (i_dst i)), !H3 by assumption. lia.
Qed.

Lemma dec_ttl_verifies i :
  ip_ok i -> 1 < i_ttl i -> ip_verifies i -> ip_ok (dec_ttl_hdr i) /\ ip_verifies (dec_ttl_hdr i).
Proof.
  intros Hok Ht Hv. pose proof (dec_ttl_sum_spec (i_sum i) ltac:(by destruct Hok)) as [Hr Hm].
  assert (Hok' : ip_ok (dec_ttl_hdr i)).
  { destruct Hok. constructor; cbn; try assumption. unfold in8 in *. lia. }
  split; [exact Hok'|]. unfold ip_verifies in *.
  rewrite cksum_zero in * by (auto with bytes; cbn; lia). destruct Hv as [Hp H0].
  rewrite (wsum_enc_ip (dec_ttl_hdr i) Hok'), (wsum_enc_ip i Hok) in *.
  cbn [dec_ttl_hdr i_vhl i_tos i_len i_id i_off i_ttl i_p i_sum i_src i_dst].
  set (w := i_vhl i + _ + _ + _ + _ + _ + _ + _ + _) in *. set (c' := dec_ttl_sum (i_sum i)) in *.
  apply Z.mod_divide in H0 as [k Hk]; [|lia]. apply Z.mod_divide in Hm as [j Hj]; [|lia].
  destruct Hok, Hok'. cbn in *. unfold in8, in16, in32 in *. split.
  - assert (0 <= i_src i / 65536) by zdm. assert (0 <= i_dst i / 65536) by zdm.
    pose proof (Z.mod_pos_bound (i_src i) 65536). pose proof (Z.mod_pos_bound (i_dst i) 65536). lia.
  - apply Z.mod_divide; [lia|]. exists (k + j). lia.
Qed.

Lemma marked_nh_rel p : marked p <-> nh_rel p = Some 0.
Proof.
  unfold marked, nh_rel. destruct (pk_nh p) as [o|]; simpl; [|done].
  split; intros [= H]; f_equal; lia.
Qed.
Lemma marked_uniqueify m p :
  marked p -> exists q, uniqueify (Some m) p = Ok (Some q) /\ marked q /\ pk_shared q = false /\
    pk_data q = pk_data p /\ pk_anno q = pk_anno p /\ pk_ptype q = pk_ptype p.
Proof.
  intros Hm. destruct (uniqueify_spec m p) as (q & Hq & Hs & Hd & Ha & Hp & Hn & _).
  exists q. split_and!; try done. apply marked_nh_rel. rewrite Hn. by apply marked_nh_rel.
Qed.

Lemma DecIPTTL_run m c p d i l :
  ttl_active c = true -> ttl_multicast c = true -> marked p -> pk_data p = enc_ip i ++ l ->
  ip_ok i ->
  if i_ttl i <=? 1 then
    DecIPTTL_simple_action (Some m) c p d =
      Ok (None, u32 (d + 1), [if (1 <? ttl_noutputs c)%nat then Push 1 p else Kill p])
  else exists q, DecIPTTL_simple_action (Some m) c p d = Ok (Some q, d, []) /\
    pk_data q = enc_ip (dec_ttl_hdr i) ++ l /\ marked q /\ pk_shared q = false /\
    pk_anno q = pk_anno p /\ pk_ptype q = pk_ptype p.
Proof.
  intros Ha Hmc Hm Hd Hok. unfold DecIPTTL_simple_action. 
  assert (Hh : has_network_header p = true) by (unfold has_network_header, marked in *; by rewrite Hm).
  rewrite Hh, Ha, Hmc. hrun. cbn [negb andb].
  assert (Hip : ip_packet p i l) by done.
  assert (Httl : forall q j, pk_data q = enc_ip j ++ l -> ip_ok j ->
    getf q 0 ip_ttl = Ok (i_ttl j)).
  { intros q j Hq []. apply getf_val; [|simpl; lia]. rewrite Hq. wire_eval. by small_words. }
  assert (Hsum : forall q j, pk_data q = enc_ip j ++ l -> ip_ok j ->
    getf q 0 ip_sum = Ok (i_sum j)).
  { intros q j Hq []. apply getf_val; [|simpl; lia]. rewrite Hq. wire_eval. by small_words. }
  rewrite (marked_getf p ip_ttl Hm), (Httl p i Hd Hok). hrun.
  destruct (Z.leb_spec (i_ttl i) 1) as [Hle|Hgt].
  { hrun. unfold checked_output_push. destruct (1 <? ttl_noutputs c)%nat; reflexivity. }
  destruct (marked_uniqueify m p Hm) as (q & Hq & Hmq & Hsq & Hdq & Haq & Hpq). rewrite Hq. hrun.
  rewrite Hd in Hdq. rewrite (marked_getf q ip_ttl Hmq), (Httl q i Hdq Hok). hrun.
  rewrite (marked_setf q ip_ttl _ Hmq), <- (set_data_id q), Hdq.
  set (j := IpHdr (i_vhl i) (i_tos i) (i_len i) (i_id i) (i_off i) (i_ttl i - 1) (i_p i)
              (i_sum i) (i_src i) (i_dst i)).
  assert (Hj : ip_ok j) by (destruct Hok; constructor; cbn; try assumption; unfold in8 in *; lia).
  assert (S1 : setf 0 ip_ttl (u8 (i_ttl i - 1)) (set_data (enc_ip i ++ l) q) =
    Ok (set_data (enc_ip j ++ l) q)).
  { destruct Hok. rewrite u8_small by (unfold in8 in *; lia). destruct i. apply set_ip_ttl. }
  rewrite S1. hrun. set (q1 := set_data _ q).
  rewrite (marked_getf q1 ip_sum Hmq), (Hsum q1 j eq_refl Hj). hrun.
  rewrite (marked_setf q1 ip_sum _ Hmq). 
  assert (S2 : setf 0 ip_sum (dec_ttl_sum (i_sum j)) q1 =
    Ok (set_data (enc_ip (dec_ttl_hdr i) ++ l) q)).
  { exact (set_ip_sum (i_vhl i) (i_tos i) (i_len i) (i_id i) (i_off i) (i_ttl i - 1) (i_p i)
      (i_sum i) (i_src i) (i_dst i) l q _). }
  rewrite S2. hrun.
  eexists. split; [reflexivity|]. by split_and!.
Qed.

(** ** Painting and filtering *)
Lemma DropBroadcasts_run n p d :
  DropBroadcasts_simple_action n p d =
  if bool_decide (pk_ptype p = BROADCAST) || bool_decide (pk_ptype p = MULTICAST)
  then Ok (None, u32 (d + 1), [if (n =? 2)%nat then Push 1 p else Kill p])
  else Ok (Some p, d, []).
Proof.
  unfold DropBroadcasts_simple_action, DropBroadcasts_drop_it. destruct (_ || _); [|done]. hrun.
  by destruct (n =? 2)%nat.
Qed.

(** ** Properties *)

(** C15: [CheckIPHeader] is safe and sound.  On any packet at all (with the default offset)
    it reads nothing outside the packet, never faults, and decides by the header alone: it
    forwards exactly the packets with [header_problem] none.  A forwarded packet has version
    4, a header of at least 20 bytes that fits its length field, which fits the packet, a
    verifying checksum when that is checked, no bad source unless the destination is good;
    it is cut to its length, unchanged before that, with the header and transport pointers
    and the destination annotation set.  A rejected one is counted, and pushed on port 1 or
    dropped. *)
Theorem CheckIPHeader_sound c p s :
  ck_offset c = 0%nat -> bytes_ok (pk_data p) -> Z.of_nat (plength p) < 2147483648 ->
  match header_problem c (pk_data p) with
  | Some r => CheckIPHeader_simple_action c p s = Ok (None, dropped_by c r s, [drop_event c p])
  | None => exists q, CheckIPHeader_simple_action c p s = Ok (Some q, s, []) /\ checked c p q
  end.
Proof. apply CheckIPHeader_run. Qed.

(** [DecIPTTL] keeps the header checksum right.  On a marked packet with a time to live
    above 1 and a verifying option-free header it passes on an unshared packet with the time
    to live one less, the payload and everything else unchanged, and the incrementally
    updated checksum verifies again; a packet with time to live 0 or 1 is counted and leaves
    on port 1, or is dropped when there is none. *)
Theorem DecIPTTL_spec m c p d i l :
  ttl_active c = true -> ttl_multicast c = true -> marked p -> pk_data p = enc_ip i ++ l ->
  ip_ok i -> ip_verifies i ->
  (i_ttl i <= 1 ->
   DecIPTTL_simple_action (Some m) c p d =
     Ok (None, u32 (d + 1), [if (1 <? ttl_noutputs c)%nat then Push 1 p else Kill p])) /\
  (1 < i_ttl i ->
   exists q j, DecIPTTL_simple_action (Some m) c p d = Ok (Some q, d, []) /\
     pk_data q = enc_ip j ++ l /\ ip_verifies j /\ i_ttl j = i_ttl i - 1 /\
     i_src j = i_src i /\ i_dst j = i_dst i /\ i_len j = i_len i /\ i_p j = i_p i /\
     marked q /\ pk_shared q = false /\ pk_anno q = pk_anno p).
Proof.
  intros Ha Hmc Hm Hd Hok Hv. pose proof (DecIPTTL_run m c p d i l Ha Hmc Hm Hd Hok) as H.
  split; intros Ht.
  - destruct (Z.leb_spec (i_ttl i) 1); [exact H|lia].
  - destruct (Z.leb_spec (i_ttl i) 1); [lia|]. destruct H as (q & Hq & Hdq & Hmq & Hs & Han & _).
    exists q, (dec_ttl_hdr i). split; [exact Hq|]. split; [exact Hdq|].
    split; [by apply dec_ttl_verifies|]. by split_and!.
Qed.

(** [SetIPChecksum] repairs any header checksum of a marked option-free packet, and
    changes nothing else. *)
Theorem SetIPChecksum_spec m p s i l :
  marked p -> pk_shared p = false -> pk_data p = enc_ip i ++ l -> i_vhl i = 69 -> ip_ok i ->
  Z.of_nat (plength p) < 4294967296 ->
  exists c, SetIPChecksum_simple_action m p s =
      Ok (Some (set_data (enc_ip (ip_with_sum c i) ++ l) p), s, []) /\
    ip_verifies (ip_with_sum c i).
Proof.
  intros Hm Hs Hd Hv Hok Hl. eexists. by apply SetIPChecksum_marked.
Qed.

(** ** Witnesses *)
Definition sample_plain : ip_hdr := IpHdr 69 0 (htons 22) 0 0 64 17 0 16777226 33554442.
Definition sample_good : ip_hdr :=
  ip_with_sum (click_in_cksum (enc_ip sample_plain)) sample_plain.
Definition sample_check : check_conf := CheckConf 0 true [] [] 2.
Definition sample_marked (i : ip_hdr) : packet :=
  MkPacket [] (enc_ip i ++ [1; 2]) [] false (replicate anno_size 0) HOST None (Some 0) (Some 20).

Lemma sample_good_verifies : ip_verifies sample_good.
Proof. vm_compute. reflexivity. Qed.
Lemma sample_good_ok : ip_ok sample_good.
Proof.
  pose proof (cksum_range (enc_ip sample_plain)).
  constructor; try assumption; cbv; split; congruence.
Qed.

Theorem CheckIPHeader_sound_witness :
  CheckIPHeader_simple_action sample_check (bare [1; 2; 3]) (CheckState 0 None) =
  Ok (None, CheckState 1 None, [Push 1 (bare [1; 2; 3])]).
Proof.
  apply (CheckIPHeader_sound sample_check (bare [1; 2; 3]) (CheckState 0 None));
    [reflexivity|repeat constructor; lia|reflexivity].
Defined.

Theorem DecIPTTL_spec_witness :
  exists q j, DecIPTTL_simple_action (Some (fun _ => 0)) (TtlConf true true 2)
      (sample_marked sample_good) 0 = Ok (Some q, 0, []) /\
    pk_data q = enc_ip j ++ [1; 2] /\ ip_verifies j /\ i_ttl j = 63.
Proof.
  destruct (DecIPTTL_spec (fun _ => 0) (TtlConf true true 2) (sample_marked sample_good) 0
    sample_good [1; 2] eq_refl eq_refl eq_refl eq_refl sample_good_ok sample_good_verifies)
    as [_ H].
  destruct (H ltac:(reflexivity)) as (q & j & Hq & Hd & Hv & Ht & _).
  exists q, j. exact (conj Hq (conj Hd (conj Hv Ht))).
Defined.

Theorem SetIPChecksum_spec_witness :
  exists c, SetIPChecksum_simple_action (Some (fun _ => 0)) (sample_marked sample_plain) 3 =
      Ok (Some (set_data (enc_ip (ip_with_sum c sample_plain) ++ [1; 2])
        (sample_marked sample_plain)), 3, []) /\
    ip_verifies (ip_with_sum c sample_plain).
Proof.
  apply (SetIPChecksum_spec (Some (fun _ => 0)) (sample_marked sample_plain) 3);
    [reflexivity|reflexivity|reflexivity|reflexivity|
     constructor; cbv; split; congruence|reflexivity].
Defined.
