(* ===== verification/ARP.v ===== *)
(** * [ARPQuerier] and [ARPResponder] ([elements/ethernet/])

    [ARPQuerier] puts IP packets behind Ethernet headers, asking for the addresses its
    [ARPTable] does not know and keeping the packets meanwhile; [ARPResponder] answers such
    questions for the prefixes it is configured with.  The clock does not move while a packet
    is handled, and packets carry no timestamps. *)
From Stdlib Require Import ZArith Lia.
From stdpp Require Import base list numbers option gmap.
From S2P Require Import Prelude Qsort HashMap HashContainer Packet PacketOps Wire Build Mobility IPPath ARPTable ARPTableOps.

(** ** Ethernet and ARP headers *)
Definition ether_dhost : field := Field 0 6.
Definition ether_shost : field := Field 6 6.
Definition ether_type : field := Field 12 2.
Definition ar_hrd : field := Field 0 2.
Definition ar_pro : field := Field 2 2.
Definition ar_hln : field := Field 4 1.
Definition ar_pln : field := Field 5 1.
Definition ar_op : field := Field 6 2.
Definition arp_sha : field := Field 8 6.
Definition arp_spa : field := Field 14 4.
Definition arp_tha : field := Field 18 6.
Definition arp_tpa : field := Field 24 4.
Definition sizeof_click_ether_arp : nat := 28.
Definition ETHERTYPE_IP : Z := 0x0800.
Definition ETHERTYPE_ARP : Z := 0x0806.
Definition ARPHRD_ETHER : Z := 1.
Definition ARPOP_REQUEST : Z := 1.
Definition ARPOP_REPLY : Z := 2.

Definition VLAN_TCI_ANNO_OFFSET : nat := 20.
Definition VLAN_TCI_ANNO (p : packet) : res Z := ld 2 (pk_anno p) VLAN_TCI_ANNO_OFFSET.
Definition SET_VLAN_TCI_ANNO (v : Z) (p : packet) : packet :=
  set_anno (wrn 2 (pk_anno p) VLAN_TCI_ANNO_OFFSET v) p.

(** Members of [ether_header()]. *)
Definition mac_getf (p : packet) (f : field) : res Z :=
  o ← opt_res NullDeref (pk_mac p); pldh (f_width f) p (Z.to_nat o + f_off f).
Definition mac_setf (f : field) (v : Z) (p : packet) : res packet :=
  o ← opt_res NullDeref (pk_mac p); psth (f_width f) p (Z.to_nat o + f_off f) v.
(** [set_ether_header(data())] *)
Definition set_ether_header (p : packet) : res packet :=
  set_mac_header (Z.of_nat (headroom p)) (Z.of_nat sizeof_click_ether) p.
(** The 42 bytes both elements write, from [data()] on. *)
Definition write_arp (dhost shost op sha spa tha tpa : Z) (q : packet) : res packet :=
  q ← setf 0 ether_dhost dhost q;
  q ← setf 0 ether_shost shost q;
  q ← setf 0 ether_type (htons ETHERTYPE_ARP) q;
  q ← setf 14 ar_hrd (htons ARPHRD_ETHER) q;
  q ← setf 14 ar_pro (htons ETHERTYPE_IP) q;
  q ← setf 14 ar_hln 6 q;
  q ← setf 14 ar_pln 4 q;
  q ← setf 14 ar_op (htons op) q;
  q ← setf 14 arp_sha sha q;
  q ← setf 14 arp_spa spa q;
  q ← setf 14 arp_tha tha q;
  setf 14 arp_tpa tpa q.

(** ** [ARPQuerier] *)
Record ARPQuerier : Type := MkARPQuerier {
  aq_arpt : ARPTable;
  aq_my_en : Z; aq_my_ip : Z; aq_my_bcast_ip : Z;
  aq_poll_timeout_j : Z; aq_broadcast_poll : bool; aq_noutputs : nat;
  aq_arp_queries : Z; aq_drops : Z; aq_arp_responses : Z; aq_zero_warned : bool
}.
Definition set_arpt (t : ARPTable) (s : ARPQuerier) : ARPQuerier :=
  MkARPQuerier t (aq_my_en s) (aq_my_ip s) (aq_my_bcast_ip s) (aq_poll_timeout_j s)
    (aq_broadcast_poll s) (aq_noutputs s) (aq_arp_queries s) (aq_drops s) (aq_arp_responses s)
    (aq_zero_warned s).
Definition set_stats (queries drops responses : Z) (warned : bool) (s : ARPQuerier) : ARPQuerier :=
  MkARPQuerier (aq_arpt s) (aq_my_en s) (aq_my_ip s) (aq_my_bcast_ip s) (aq_poll_timeout_j s)
    (aq_broadcast_poll s) (aq_noutputs s) queries drops responses warned.
Definition count_query (s : ARPQuerier) : ARPQuerier :=
  set_stats (u32 (aq_arp_queries s + 1)) (aq_drops s) (aq_arp_responses s) (aq_zero_warned s) s.
Definition count_drop (s : ARPQuerier) : ARPQuerier :=
  set_stats (aq_arp_queries s) (u32 (aq_drops s + 1)) (aq_arp_responses s) (aq_zero_warned s) s.
Definition count_response (s : ARPQuerier) : ARPQuerier :=
  set_stats (aq_arp_queries s) (aq_drops s) (u32 (aq_arp_responses s + 1)) (aq_zero_warned s) s.
Definition warn_zero (s : ARPQuerier) : ARPQuerier :=
  set_stats (aq_arp_queries s) (aq_drops s) (aq_arp_responses s) true s.

(** What a run takes from the world: memory for the packet, for a query and for an entry of
    the table, and the time. *)
Record arp_env : Type := ArpEnv { en_push : memory; en_make : memory; en_alloc : bool; en_now : Z }.

Definition querier_handler (A : Type) : Type := handler ARPQuerier event A.
(** A call of a method of [_arpt]. *)
Definition on_table {A} (m : table_handler A) : querier_handler A := fun s =>
  match m (aq_arpt s) with
  | Ok (a, t, ev) => Ok (a, set_arpt t s, ev)
  | Fault f => Fault f
  end.

(** The query [send_query_for(p, ether_dhost_valid)] makes; [None] when there is no memory. *)
Definition make_query (mem : memory) (s : ARPQuerier) (p : packet) (ether_dhost_valid : bool)
  : res (option packet) :=
  mq ← make mem (default_headroom - sizeof_click_ether) None
         (sizeof_click_ether + sizeof_click_ether_arp) 0;
  match mq with
  | None => Ok None
  | Some q =>
      q ← set_ether_header q;
      dhost ← (if ether_dhost_valid && negb (aq_broadcast_poll s) then mac_getf p ether_dhost
               else Ok eth_broadcast);
      want_ip ← opt_res OutOfBounds (dst_ip_anno p);
      q ← write_arp dhost (aq_my_en s) ARPOP_REQUEST (aq_my_en s) (aq_my_ip s) 0 want_ip q;
      tci ← VLAN_TCI_ANNO p;
      Ok (Some (SET_VLAN_TCI_ANNO tci q))
  end.
Definition send_query_for (mem : memory) (p : packet) (ether_dhost_valid : bool)
  : querier_handler unit :=
  s <-- hget ;;
  mq <-? make_query mem s p ether_dhost_valid ;;
  match mq with
  | None => hret tt
  | Some q => hmodify count_query ;;; hemit (Push (aq_noutputs s - 1) q)
  end.

(** [01-00-5E] and the low 23 bits of [ip]. *)
Definition multicast_eth (ip : Z) : Z :=
  let addr := ntohl ip in
  1 + 256 * (0 + 256 * (0x5E + 256 * (Z.land (Z.shiftr addr 16) 0x7F +
    256 * (u8 (Z.shiftr addr 8) + 256 * u8 addr)))).

(** The end of [handle_ip]: the packet leaves with our address as its source. *)
Definition emit_ip (q : packet) : querier_handler unit :=
  s <-- hget ;;
  q <-? mac_setf ether_shost (aq_my_en s) q ;;
  hemit (Push 0 q).

(** [handle_ip] from [retry_read_lock] on; [fuel] bounds the [goto]s back there. *)
Fixpoint resolve (fuel : nat) (env : arp_env) (q : packet) : querier_handler unit :=
  s <-- hget ;;
  dst_ip <-? opt_res OutOfBounds (dst_ip_anno q) ;;
  re <-- on_table (ARPTable_lookup dst_ip (aq_poll_timeout_j s) (en_now env)) ;;
  q <-? (match snd re with Some eth => mac_setf ether_dhost eth q | None => Ok q end) ;;
  if 0 <=? fst re then
    dst_eth <-? mac_getf q ether_dhost ;;
    if is_broadcast dst_eth then hlift (Fault AssertFailed)
    else
      (if 0 <? fst re then send_query_for (en_make env) q true else hret tt) ;;;
      emit_ip q
  else if (dst_ip =? 0xFFFFFFFF) || (dst_ip =? aq_my_bcast_ip s) then
    q <-? mac_setf ether_dhost eth_broadcast q ;;
    emit_ip q
  else if is_multicast dst_ip then
    q <-? mac_setf ether_dhost (multicast_eth dst_ip) q ;;
    emit_ip q
  else if dst_ip =? 0 then
    hmodify (fun s => if aq_zero_warned s then s else warn_zero s) ;;;
    hmodify count_drop ;;;
    hemit (Kill q)
  else
    r <-- on_table (append_query (en_alloc env) dst_ip q (en_now env)) ;;
    if r =? - EAGAIN then
      match fuel with O => hlift (Fault Diverges) | S fuel => resolve fuel env q end
    else
      (if r <? 0 then hemit (Kill q) else hret tt) ;;;
      (if 0 <? r then send_query_for (en_make env) q false else hret tt).

Definition handle_ip (env : arp_env) (p : packet) (response : bool) : querier_handler unit :=
  s <-- hget ;;
  if aq_my_ip s =? 0 then hemit (Kill p) ;;; hmodify count_drop
  else if response then
    if pk_shared p then hlift (Fault AssertFailed)
    else
      mq <-? uniqueify (en_push env) p ;;
      match mq with Some q => resolve 0 env q | None => hlift (Fault NullDeref) end
  else
    mq <-? push_mac_header (en_push env) sizeof_click_ether p ;;
    match mq with
    | None => hmodify count_drop
    | Some q => q <-? mac_setf ether_type (htons ETHERTYPE_IP) q ;; resolve 0 env q
    end.

(** [while (cached_packet)] *)
Fixpoint release (env : arp_env) (l : list packet) : querier_handler unit :=
  match l with
  | [] => hret tt
  | p :: l => handle_ip env p true ;;; release env l
  end.

(** Whether the frame is an ARP reply [handle_response] believes, and from whom. *)
Definition arp_reply (p : packet) : res (option (Z * Z)) :=
  ipa ← getf p 14 arp_spa;
  ena ← getf p 14 arp_sha;
  ty ← getf p 0 ether_type;
  hrd ← getf p 14 ar_hrd;
  pro ← getf p 14 ar_pro;
  op ← getf p 14 ar_op;
  Ok (if (ntohs ty =? ETHERTYPE_ARP) && (ntohs hrd =? ARPHRD_ETHER)
         && (ntohs pro =? ETHERTYPE_IP) && (ntohs op =? ARPOP_REPLY) && negb (is_group ena)
      then Some (ipa, ena) else None).
(** [cached_packet] is not initialised; [insert] sets it only when it succeeds. *)
Definition handle_response (env : arp_env) (p : packet) : querier_handler unit :=
  if (plength p <? sizeof_click_ether + sizeof_click_ether_arp)%nat then hret tt
  else
    hmodify count_response ;;;
    o <-? arp_reply p ;;
    match o with
    | None => hret tt
    | Some (ipa, ena) =>
        rc <-- on_table (ARPTable_insert (en_alloc env) ipa ena true (en_now env)) ;;
        if fst rc <? 0 then hlift (Fault Uninitialised) else release env (snd rc)
    end.

Definition ARPQuerier_push (env : arp_env) (port : nat) (p : packet) : querier_handler unit :=
  if (port =? 0)%nat then handle_ip env p false
  else handle_response env p ;;; hemit (Kill p).

(** The [clear] write handler. *)
Definition querier_clear : querier_handler unit :=
  hmodify (set_stats 0 0 0 false) ;;; on_table ARPTable_clear.

(** ** [ARPResponder] *)
Record Entry : Type := MkEntry { en_dst : Z; en_mask : Z; en_ena : Z }.
#[export] Instance entry_eq_dec : EqDecision Entry.
Proof. solve_decision. Defined.

(** The first entry whose prefix holds [addr]. *)
Fixpoint responder_lookup (v : list Entry) (addr : Z) : option Z :=
  match v with
  | [] => None
  | e :: v => if Z.land addr (en_mask e) =? en_dst e then Some (en_ena e) else responder_lookup v addr
  end.

(** [entry_compare] on the entries with indices [a] and [b]. *)
Definition entry_compare (v : list Entry) (a b : nat) : Z :=
  let ea := default (MkEntry 0 0 0) (v !! a) in
  let eb := default (MkEntry 0 0 0) (v !! b) in
  if (en_dst ea =? en_dst eb) && (en_mask ea =? en_mask eb) then Z.of_nat b - Z.of_nat a
  else if Z.land (en_dst ea) (en_mask eb) =? en_dst eb then -1
  else if Z.land (en_dst eb) (en_mask ea) =? en_dst ea then 1
  else Z.of_nat a - Z.of_nat b.

(** The loop that leaves out an entry with the prefix of the one before it; [nv] is built
    backwards. *)
Fixpoint drop_repeats (v : list Entry) (permute : list nat) (nv : list Entry) : res (list Entry) :=
  match permute with
  | [] => Ok (rev nv)
  | i :: permute =>
      e ← opt_res OutOfBounds (v !! i);
      drop_repeats v permute
        (match nv with
         | [] => [e]
         | b :: _ =>
             if negb (en_dst b =? en_dst e) || negb (en_mask b =? en_mask e) then e :: nv else nv
         end)
  end.
Definition normalize (v : list Entry) : res (list Entry) :=
  permute ← click_qsort (entry_compare v) (seq 0 (length v));
  drop_repeats v permute [].

(** One word of an argument, parsed: an IP prefix, an Ethernet address (or both). *)
Record arp_word : Type := ArpWord { w_prefix : option (Z * Z); w_eth : option Z }.
(** The first loop of [add]: the new entries, backwards, and the Ethernet address. *)
Fixpoint add_words (words : list arp_word) (new : list Entry) (ena : option Z)
  : option (list Entry * option Z) :=
  match words with
  | [] => Some (new, ena)
  | w :: words =>
      match w_prefix w, w_eth w with
      | Some (addr, mask), _ => add_words words (MkEntry (Z.land addr mask) mask 0 :: new) ena
      | None, Some e => match ena with Some _ => None | None => add_words words new (Some e) end
      | None, None => None
      end
  end.
(** [add(v, arg)]: [None] is an error, which leaves [v] as it was. *)
Definition responder_add (v : list Entry) (words : list arp_word) : option (list Entry) :=
  match add_words words [] None with
  | None => None
  | Some (new, ena) =>
      let ena := match ena with Some e => Some e | None => head (omap w_eth words) end in
      match new, ena with
      | [], _ => None
      | _, None => None
      | _, Some e => Some (v ++ map (fun n => MkEntry (en_dst n) (en_mask n) e) (rev new))
      end
  end.
(** [configure], [add_handler] and [remove_handler]: the table, or an error. *)
Fixpoint add_all (v : list Entry) (conf : list (list arp_word)) : option (list Entry) :=
  match conf with
  | [] => Some v
  | words :: conf =>
      match responder_add v words, add_all (default v (responder_add v words)) conf with
      | Some _, Some v => Some v
      | _, _ => None
      end
  end.
Definition responder_configure (conf : list (list arp_word)) : res (option (list Entry)) :=
  match add_all [] conf with
  | Some v => v ← normalize v; Ok (Some v)
  | None => Ok None
  end.
Definition add_handler (v : list Entry) (words : list arp_word) : res (option (list Entry)) :=
  match responder_add v words with
  | Some v => v ← normalize v; Ok (Some v)
  | None => Ok None
  end.
Fixpoint remove_handler (v : list Entry) (addr mask : Z) : option (list Entry) :=
  match v with
  | [] => None
  | e :: v =>
      if (en_dst e =? Z.land addr mask) && (en_mask e =? mask) then Some v
      else cons e <$> remove_handler v addr mask
  end.

(** [make_response(target_eth, target_ip, src_eth, src_ip, p)]; the device annotation is not
    modelled. *)
Definition make_response (mem : memory) (target_eth target_ip src_eth src_ip : Z) (p : packet)
  : res (option packet) :=
  mq ← make mem default_headroom None (sizeof_click_ether + sizeof_click_ether_arp) 0;
  match mq with
  | None => Ok None
  | Some q =>
      tci ← VLAN_TCI_ANNO p;
      q ← set_ether_header (SET_VLAN_TCI_ANNO tci q);
      q ← write_arp target_eth src_eth ARPOP_REPLY src_eth src_ip target_eth target_ip q;
      Ok (Some q)
  end.

(** The address a frame asks for, if it is an ARP request. *)
Definition arp_request (p : packet) : res (option Z) :=
  if (plength p <? sizeof_click_ether + sizeof_click_ether_arp)%nat then Ok None
  else
    ty ← getf p 0 ether_type;
    hrd ← getf p 14 ar_hrd;
    pro ← getf p 14 ar_pro;
    op ← getf p 14 ar_op;
    tpa ← getf p 14 arp_tpa;
    Ok (if (ty =? htons ETHERTYPE_ARP) && (hrd =? htons ARPHRD_ETHER)
           && (pro =? htons ETHERTYPE_IP) && (op =? htons ARPOP_REQUEST)
        then Some tpa else None).
Definition ARPResponder_simple_action (mem : memory) (noutputs : nat) (p : packet)
  : handler (list Entry) event (option packet) :=
  v <-- hget ;;
  o <-? arp_request p ;;
  mq <-? (match o ≫= responder_lookup v with
          | Some ena =>
              sha ← getf p 14 arp_sha; spa ← getf p 14 arp_spa; tpa ← getf p 14 arp_tpa;
              make_response mem sha spa ena tpa p
          | None => Ok None
          end) ;;
  match mq with
  | Some q => hemit (Kill p) ;;; hret (Some q)
  | None => checked_output_push noutputs 1 p ;;; hret None
  end.

(** ** The responder's table *)
Definition covers (e : Entry) (addr : Z) : Prop := Z.land addr (en_mask e) = en_dst e.
Definition same_prefix (e e' : Entry) : Prop := en_dst e = en_dst e' /\ en_mask e = en_mask e'.

Lemma covers_same e e' addr : same_prefix e e' -> covers e addr -> covers e' addr.
Proof. unfold covers. intros [Hd Hm]. by rewrite Hd, Hm. Qed.

Lemma responder_lookup_spec v addr :
  match responder_lookup v addr with
  | Some ena => exists e, e ∈ v /\ covers e addr /\ en_ena e = ena
  | None => forall e, e ∈ v -> ~ covers e addr
  end.
Proof.
  induction v as [|e v IH]; simpl; [intros e He; by apply elem_of_nil in He|].
  destruct (Z.eqb_spec (Z.land addr (en_mask e)) (en_dst e)) as [E|E].
  - exists e. by split_and!; [left| |].
  - destruct (responder_lookup v addr) as [ena|].
    + destruct IH as (e' & ? & ? & ?). exists e'. by split_and!; [right| |].
    + intros e' [-> |He']%list.elem_of_cons; [done|by apply IH].
Qed.

Lemma drop_repeats_run v permute nv :
  Forall (fun i => (i < length v)%nat) permute ->
  exists out, drop_repeats v permute nv = Ok out /\
    (forall e, e ∈ out -> e ∈ nv \/ e ∈ v) /\ (forall e, e ∈ nv -> e ∈ out) /\
    (forall i e, i ∈ permute -> v !! i = Some e -> exists e', e' ∈ out /\ same_prefix e e').
Proof.
  revert nv. induction permute as [|i permute IH]; intros nv Hp; simpl.
  { exists (rev nv). split; [done|]. split; [|split].
    - intros e He%list_elem_of_In%in_rev. left. by apply list_elem_of_In.
    - intros e He%list_elem_of_In%in_rev. by apply list_elem_of_In.
    - intros i e Hi. by apply elem_of_nil in Hi. }
  apply Forall_cons in Hp as [Hi Hp]. destruct (lookup_lt_is_Some_2 v i Hi) as [e He].
  rewrite He. simpl.
  match goal with |- context [drop_repeats v permute ?x] => set (nv' := x) end.
  assert (Hnew : (exists e', e' ∈ nv' /\ same_prefix e e') /\ (forall x, x ∈ nv -> x ∈ nv') /\
    (forall x, x ∈ nv' -> x ∈ nv \/ x = e)).
  { unfold nv'. destruct nv as [|b nv0]; [|destruct (negb _ || negb _) eqn:Eb].
    - split; [exists e; split; [left|done]|]. split.
      + intros x Hx. by apply elem_of_nil in Hx.
      + intros x Hx%list_elem_of_singleton. by right.
    - split; [exists e; split; [left|done]|]. split; [by right|].
      intros x [-> |Hx]%list.elem_of_cons; [by right|by left].
    - apply orb_false_iff in Eb as [E1 E2].
      apply negb_false_iff, Z.eqb_eq in E1. apply negb_false_iff, Z.eqb_eq in E2.
      split; [exists b; split; [left|by split]|]. split; [done|]. by left. }
  destruct Hnew as ((e' & He' & Hs) & Hkeep & Hsrc).
  destruct (IH nv' Hp) as (out & E & H1 & H2 & H3). exists out. split; [exact E|]. split; [|split].
  - intros x [Hx|Hx]%H1; [|by right]. apply Hsrc in Hx as [Hx | ->]; [by left|right].
    by apply list_elem_of_lookup_2 in He.
  - intros x Hx. by apply H2, Hkeep.
  - intros j x [-> |Hj]%list.elem_of_cons Hx; [|by apply (H3 j)].
    rewrite He in Hx. injection Hx as <-. exists e'. split; [by apply H2|done].
Qed.

Lemma normalize_run v :
  Z.of_nat (length v) < 2 ^ 31 ->
  exists v', normalize v = Ok v' /\ (forall e, e ∈ v' -> e ∈ v) /\
    (forall e, e ∈ v -> exists e', e' ∈ v' /\ same_prefix e e').
Proof.
  intros Hn. unfold normalize.
  destruct (click_qsort_run (entry_compare v) (seq 0 (length v))) as (permute & E & Hp & _).
  { rewrite length_seq. lia. }
  rewrite E. simpl. destruct (drop_repeats_run v permute []) as (v' & E' & H1 & _ & H3).
  { rewrite Hp. apply list.Forall_forall. intros i Hi%list_elem_of_In%in_seq. lia. }
  exists v'. split; [exact E'|]. split.
  - intros e [He|He]%H1; [by apply elem_of_nil in He|done].
  - intros e He. apply list_elem_of_lookup_1 in He as [i Hi]. apply (H3 i e); [|done].
    rewrite Hp. apply list_elem_of_In, in_seq. apply lookup_lt_Some in Hi. lia.
Qed.

(** C31: whatever entries an [ARPResponder] is given, in whatever order, its table is built (the
    sort ends although [entry_compare] does not order them), and an address is answered exactly
    when some entry's prefix holds it, with the Ethernet address of an entry whose prefix holds
    it; where only one does, it is that one's. *)
Theorem ARPResponder_answers (v : list Entry) (addr : Z) (Hn : Z.of_nat (length v) < 2 ^ 31) :
  exists v', normalize v = Ok v' /\
    (responder_lookup v' addr = None <-> forall e, e ∈ v -> ~ covers e addr) /\
    (forall ena, responder_lookup v' addr = Some ena ->
       exists e, e ∈ v /\ covers e addr /\ en_ena e = ena).
Proof.
  destruct (normalize_run v Hn) as (v' & E & H1 & H2). exists v'. split; [exact E|].
  pose proof (responder_lookup_spec v' addr) as Hl.
  destruct (responder_lookup v' addr) as [ena|].
  - destruct Hl as (e & He & Hc & <-). split.
    + split; [done|]. intros Hno. by destruct (Hno e (H1 e He)).
    + intros ? [= <-]. exists e. by split_and!; [apply H1| |].
  - split; [|done]. split; [|done]. intros _ e He Hc. destruct (H2 e He) as (e' & He' & Hs).
    by apply (Hl e' He'), (covers_same e).
Qed.

Definition net (a b c d len : Z) : option (Z * Z) :=
  Some (a + 256 * (b + 256 * (c + 256 * d)), htonl (2 ^ 32 - 2 ^ (32 - len))).
Definition net_entry (a b c d len eth : Z) : Entry :=
  MkEntry (a + 256 * (b + 256 * (c + 256 * d))) (htonl (2 ^ 32 - 2 ^ (32 - len))) eth.
Theorem ARPResponder_answers_witness :
  exists v', normalize [net_entry 10 0 0 0 8 66; net_entry 10 0 0 0 16 77] = Ok v' /\
    exists ena, responder_lookup v' (10 + 65536) = Some ena /\ (ena = 66 \/ ena = 77).
Proof.
  destruct (ARPResponder_answers [net_entry 10 0 0 0 8 66; net_entry 10 0 0 0 16 77] (10 + 65536))
    as (v' & E & H1 & H2); [vm_compute; done|].
  exists v'. split; [exact E|]. destruct (responder_lookup v' (10 + 65536)) as [ena|].
  - exists ena. split; [done|]. destruct (H2 ena eq_refl) as (e & He & _ & <-).
    apply list.elem_of_cons in He as [-> |He]; [by left|right].
    by apply list_elem_of_singleton in He as ->.
  - destruct (proj1 H1 eq_refl (net_entry 10 0 0 0 8 66)); [left|vm_compute; done].
Defined.

(** where prefixes nest the answer depends on the order they are given in.
    [ARPResponder(10.0.0.0/8 66, 10.0.0.0/16 77)] answers for 10.0.1.0 with 66 although the
    longer prefix is 77's (a prefix counts as inside another when its address lies there, so
    each of the two is inside the other); and of two entries for 10.1.0.0/16 both stay, the
    earlier in front, when a third keeps them apart. *)
Theorem ARPResponder_prefix_order :
  (exists v, responder_configure [[ArpWord (net 10 0 0 0 8) None; ArpWord None (Some 66)];
                                  [ArpWord (net 10 0 0 0 16) None; ArpWord None (Some 77)]] = Ok (Some v) /\
     responder_lookup v (10 + 65536) = Some 66) /\
  (exists v, responder_configure [[ArpWord (net 10 0 0 0 16) None; ArpWord None (Some 77)];
                                  [ArpWord (net 10 0 0 0 8) None; ArpWord None (Some 66)]] = Ok (Some v) /\
     responder_lookup v (10 + 65536) = Some 77) /\
  (exists v, responder_configure [[ArpWord (net 10 1 0 0 16) None; ArpWord None (Some 77)];
                                  [ArpWord (net 10 0 0 0 8) None; ArpWord None (Some 66)];
                                  [ArpWord (net 192 0 0 0 8) None; ArpWord None (Some 99)];
                                  [ArpWord (net 10 1 0 0 16) None; ArpWord None (Some 88)]] = Ok (Some v) /\
     length v = 4%nat /\ responder_lookup v (10 + 256) = Some 77).
Proof.
  split; [|split]; (eexists; split; [vm_compute; reflexivity|]); [done|done|by split].
Qed.
