(* ===== verification/ARPExchange.v ===== *)
(** * Resolving an address ([elements/ethernet/])

    An [ARPQuerier] and an [ARPResponder] together: what the one asks the other answers, and
    the answer sets the waiting packets free. *)
From Stdlib Require Import ZArith Lia.
From stdpp Require Import base list numbers option gmap.
From S2P Require Import Prelude HashMap HashContainer Packet PacketOps Wire Build Mobility IPPath ARPTable ARPTableOps ARP.

(** ** Frames as records *)
Record eth_hdr : Type := EthHdr { h_dhost : Z; h_shost : Z; h_type : Z }.
Definition enc_eth (h : eth_hdr) : list Z := le 6 (h_dhost h) ++ le 6 (h_shost h) ++ le 2 (h_type h).
Record arp_hdr : Type := ArpHdr {
  h_hrd : Z; h_pro : Z; h_hln : Z; h_pln : Z; h_op : Z; h_sha : Z; h_spa : Z; h_tha : Z; h_tpa : Z
}.
Definition enc_arp (h : arp_hdr) : list Z :=
  le 2 (h_hrd h) ++ le 2 (h_pro h) ++ le 1 (h_hln h) ++ le 1 (h_pln h) ++ le 2 (h_op h) ++
  le 6 (h_sha h) ++ le 4 (h_spa h) ++ le 6 (h_tha h) ++ le 4 (h_tpa h).
(** The ARP message a well-behaved host sends over Ethernet for IP. *)
Definition arp_frame (dhost shost op sha spa tha tpa : Z) : list Z :=
  enc_eth (EthHdr dhost shost (htons ETHERTYPE_ARP)) ++
  enc_arp (ArpHdr (htons ARPHRD_ETHER) (htons ETHERTYPE_IP) 6 4 (htons op) sha spa tha tpa).

Definition in48 (z : Z) : Prop := 0 <= z < 281474976710656.
Lemma join6 x :
  x mod 256 + 256 * ((x / 256) mod 256 + 256 * ((x / 256 / 256) mod 256 +
    256 * ((x / 256 / 256 / 256) mod 256 + 256 * ((x / 256 / 256 / 256 / 256) mod 256 +
    256 * ((x / 256 / 256 / 256 / 256 / 256) mod 256 + 256 * 0))))) = x mod 281474976710656.
Proof. pose proof (rdn_le 6 x []) as H. injection H as H. exact H. Qed.

(** Any bytes are the encoding of something. *)
Lemma le_surj l : bytes_ok l -> exists v, l = le (length l) v.
Proof.
  induction l as [|x l IH]; intros Hb; [by exists 0|]. apply bytes_ok_cons in Hb as [Hx Hl].
  destruct (IH Hl) as [v Hv]. exists (x + 256 * v). simpl.
  destruct (div_mod_cons x v 256 Hx) as [-> ->]. by rewrite <- Hv.
Qed.
Lemma le_split n l : bytes_ok l -> (n <= length l)%nat -> exists v, l = le n v ++ drop n l /\ bytes_ok (drop n l).
Proof.
  intros Hb Hn. destruct (le_surj (take n l)) as [v Hv]; [by apply bytes_ok_take|].
  exists v. rewrite length_take_le in Hv by done. split; [|by apply bytes_ok_drop].
  by rewrite <- Hv, take_drop.
Qed.
Lemma eth_surj l : bytes_ok l -> length l = 14%nat -> exists h, l = enc_eth h.
Proof.
  intros Hb Hl. destruct (le_split 6 l Hb ltac:(lia)) as (a & E1 & Hb1).
  destruct (le_split 6 _ Hb1 ltac:(rewrite length_drop; lia)) as (b & E2 & Hb2).
  destruct (le_surj _ Hb2) as (c & E3). rewrite !length_drop, Hl in E3.
  exists (EthHdr a b c). unfold enc_eth. cbn [h_dhost h_shost h_type].
  rewrite E1, E2, E3. reflexivity.
Qed.
Lemma arp_surj l : bytes_ok l -> length l = 28%nat -> exists h, l = enc_arp h.
Proof.
  intros Hb Hl.
  destruct (le_split 2 l Hb ltac:(lia)) as (a & E1 & Hb1).
  destruct (le_split 2 _ Hb1 ltac:(rewrite length_drop; lia)) as (b & E2 & Hb2).
  destruct (le_split 1 _ Hb2 ltac:(rewrite !length_drop; lia)) as (c & E3 & Hb3).
  destruct (le_split 1 _ Hb3 ltac:(rewrite !length_drop; lia)) as (d & E4 & Hb4).
  destruct (le_split 2 _ Hb4 ltac:(rewrite !length_drop; lia)) as (e & E5 & Hb5).
  destruct (le_split 6 _ Hb5 ltac:(rewrite !length_drop; lia)) as (f & E6 & Hb6).
  destruct (le_split 4 _ Hb6 ltac:(rewrite !length_drop; lia)) as (g & E7 & Hb7).
  destruct (le_split 6 _ Hb7 ltac:(rewrite !length_drop; lia)) as (h & E8 & Hb8).
  destruct (le_surj _ Hb8) as (i & E9). rewrite !length_drop, Hl in E9.
  exists (ArpHdr a b c d e f g h i). unfold enc_arp.
  cbn [h_hrd h_pro h_hln h_pln h_op h_sha h_spa h_tha h_tpa].
  rewrite E1, E2, E3, E4, E5, E6, E7, E8, E9. reflexivity.
Qed.

Section BuildEth.
Context (x0 x1 x2 : Z) (l : list Z) (p : packet).
Abbreviation hdr y0 y1 y2 := (set_data (enc_eth (EthHdr y0 y1 y2) ++ l) p).
Lemma set_eth_dhost v : setf 0 ether_dhost v (hdr x0 x1 x2) = Ok (hdr v x1 x2).
Proof. build_set. Qed.
Lemma set_eth_shost v : setf 0 ether_shost v (hdr x0 x1 x2) = Ok (hdr x0 v x2).
Proof. build_set. Qed.
Lemma set_eth_type v : setf 0 ether_type v (hdr x0 x1 x2) = Ok (hdr x0 x1 v).
Proof. build_set. Qed.
End BuildEth.
Section BuildArp.
Context (x0 x1 x2 x3 x4 x5 x6 x7 x8 : Z) (e : eth_hdr) (l : list Z) (p : packet).
Abbreviation hdr y0 y1 y2 y3 y4 y5 y6 y7 y8 :=
  (set_data (enc_eth e ++ enc_arp (ArpHdr y0 y1 y2 y3 y4 y5 y6 y7 y8) ++ l) p).
Lemma set_ar_hrd v : setf 14 ar_hrd v (hdr x0 x1 x2 x3 x4 x5 x6 x7 x8) = Ok (hdr v x1 x2 x3 x4 x5 x6 x7 x8).
Proof. build_set. Qed.
Lemma set_ar_pro v : setf 14 ar_pro v (hdr x0 x1 x2 x3 x4 x5 x6 x7 x8) = Ok (hdr x0 v x2 x3 x4 x5 x6 x7 x8).
Proof. build_set. Qed.
Lemma set_ar_hln v : setf 14 ar_hln v (hdr x0 x1 x2 x3 x4 x5 x6 x7 x8) = Ok (hdr x0 x1 v x3 x4 x5 x6 x7 x8).
Proof. build_set. Qed.
Lemma set_ar_pln v : setf 14 ar_pln v (hdr x0 x1 x2 x3 x4 x5 x6 x7 x8) = Ok (hdr x0 x1 x2 v x4 x5 x6 x7 x8).
Proof. build_set. Qed.
Lemma set_ar_op v : setf 14 ar_op v (hdr x0 x1 x2 x3 x4 x5 x6 x7 x8) = Ok (hdr x0 x1 x2 x3 v x5 x6 x7 x8).
Proof. build_set. Qed.
Lemma set_arp_sha v : setf 14 arp_sha v (hdr x0 x1 x2 x3 x4 x5 x6 x7 x8) = Ok (hdr x0 x1 x2 x3 x4 v x6 x7 x8).
Proof. build_set. Qed.
Lemma set_arp_spa v : setf 14 arp_spa v (hdr x0 x1 x2 x3 x4 x5 x6 x7 x8) = Ok (hdr x0 x1 x2 x3 x4 x5 v x7 x8).
Proof. build_set. Qed.
Lemma set_arp_tha v : setf 14 arp_tha v (hdr x0 x1 x2 x3 x4 x5 x6 x7 x8) = Ok (hdr x0 x1 x2 x3 x4 x5 x6 v x8).
Proof. build_set. Qed.
Lemma set_arp_tpa v : setf 14 arp_tpa v (hdr x0 x1 x2 x3 x4 x5 x6 x7 x8) = Ok (hdr x0 x1 x2 x3 x4 x5 x6 x7 v).
Proof. build_set. Qed.
End BuildArp.

(** The two elements write every byte of the frame. *)
Lemma write_arp_run dhost shost op sha spa tha tpa d p :
  bytes_ok d -> length d = 42%nat ->
  write_arp dhost shost op sha spa tha tpa (set_data d p) =
    Ok (set_data (arp_frame dhost shost op sha spa tha tpa) p).
Proof.
  intros Hb Hl. destruct (eth_surj (take 14 d)) as [[a b c] He];
    [by apply bytes_ok_take|by rewrite length_take, Hl|].
  destruct (arp_surj (drop 14 d)) as [[x0 x1 x2 x3 x4 x5 x6 x7 x8] Ha];
    [by apply bytes_ok_drop|by rewrite length_drop, Hl|].
  rewrite <- (take_drop 14 d), He, Ha, <- (app_nil_r (enc_arp _)). unfold write_arp.
  rewrite set_eth_dhost, bind_ok, set_eth_shost, bind_ok, set_eth_type, bind_ok.
  rewrite set_ar_hrd, bind_ok, set_ar_pro, bind_ok, set_ar_hln, bind_ok, set_ar_pln, bind_ok.
  rewrite set_ar_op, bind_ok, set_arp_sha, bind_ok, set_arp_spa, bind_ok, set_arp_tha, bind_ok.
  rewrite set_arp_tpa, app_nil_r. reflexivity.
Qed.

(** ** Reading a frame *)
Definition u48 (z : Z) : Z := z mod 281474976710656.
Lemma u48_small z : in48 z -> u48 z = z.
Proof. apply Z.mod_small. Qed.
Ltac read_frame :=
  intros Hd; eapply getf_val; [|simpl; lia]; rewrite Hd;
  cbv [arp_frame enc_eth enc_arp le app h_dhost h_shost h_type h_hrd h_pro h_hln h_pln h_op h_sha
       h_spa h_tha h_tpa];
  unfold rdn; cbn -[Z.modulo Z.div Z.add Z.mul htons]; rewrite ?join6, ?join4, ?join2, ?join1;
  reflexivity.
Section ReadFrame.
Context (p : packet) (dhost shost op sha spa tha tpa : Z).
Abbreviation frame := (pk_data p = arp_frame dhost shost op sha spa tha tpa) (only parsing).
Lemma fr_type : frame -> getf p 0 ether_type = Ok (u16 (htons ETHERTYPE_ARP)).
Proof. read_frame. Qed.
Lemma fr_hrd : frame -> getf p 14 ar_hrd = Ok (u16 (htons ARPHRD_ETHER)).
Proof. read_frame. Qed.
Lemma fr_pro : frame -> getf p 14 ar_pro = Ok (u16 (htons ETHERTYPE_IP)).
Proof. read_frame. Qed.
Lemma fr_op : frame -> getf p 14 ar_op = Ok (u16 (htons op)).
Proof. read_frame. Qed.
Lemma fr_sha : frame -> getf p 14 arp_sha = Ok (u48 sha).
Proof. read_frame. Qed.
Lemma fr_spa : frame -> getf p 14 arp_spa = Ok (u32 spa).
Proof. read_frame. Qed.
Lemma fr_tpa : frame -> getf p 14 arp_tpa = Ok (u32 tpa).
Proof. read_frame. Qed.
Lemma fr_length : frame -> plength p = 42%nat.
Proof. unfold plength. by intros ->. Qed.
End ReadFrame.

(** ** The Ethernet header at the front of the data *)
Definition framed (p : packet) : Prop := pk_mac p = Some (Z.of_nat (headroom p)).
Lemma framed_getf p f : framed p -> mac_getf p f = getf p 0 f.
Proof. unfold framed, mac_getf. intros ->. cbn [opt_res]. rewrite bind_ok, Nat2Z.id. apply pldh_data. Qed.
Lemma framed_setf p f v : framed p -> mac_setf f v p = setf 0 f v p.
Proof. unfold framed, mac_setf. intros ->. cbn [opt_res]. rewrite bind_ok, Nat2Z.id. apply psth_data. Qed.
Lemma framed_set_data d p : framed p -> framed (set_data d p).
Proof. done. Qed.
Lemma mac_setf_dhost p a b c l v :
  framed p -> pk_data p = enc_eth (EthHdr a b c) ++ l ->
  mac_setf ether_dhost v p = Ok (set_data (enc_eth (EthHdr v b c) ++ l) p).
Proof. intros Hf Hd. rewrite framed_setf, <- (set_eth_dhost a b c l p v), <- Hd, set_data_id by done. done. Qed.
Lemma mac_setf_shost p a b c l v :
  framed p -> pk_data p = enc_eth (EthHdr a b c) ++ l ->
  mac_setf ether_shost v p = Ok (set_data (enc_eth (EthHdr a v c) ++ l) p).
Proof. intros Hf Hd. rewrite framed_setf, <- (set_eth_shost a b c l p v), <- Hd, set_data_id by done. done. Qed.
Lemma mac_setf_type p a b c l v :
  framed p -> pk_data p = enc_eth (EthHdr a b c) ++ l ->
  mac_setf ether_type v p = Ok (set_data (enc_eth (EthHdr a b v) ++ l) p).
Proof. intros Hf Hd. rewrite framed_setf, <- (set_eth_type a b c l p v), <- Hd, set_data_id by done. done. Qed.
Lemma mac_getf_dhost p a b c l :
  framed p -> pk_data p = enc_eth (EthHdr a b c) ++ l -> mac_getf p ether_dhost = Ok (u48 a).
Proof.
  intros Hf Hd. rewrite framed_getf by done. eapply getf_val; [|simpl; lia]. rewrite Hd.
  cbv [enc_eth le app h_dhost h_shost h_type]. unfold rdn. cbn -[Z.modulo Z.div Z.add Z.mul].
  rewrite join6. reflexivity.
Qed.

Lemma set_mac_header_front p len :
  (len <= plength p)%nat -> exists q, set_mac_header (Z.of_nat (headroom p)) (Z.of_nat len) p = Ok q /\
    framed q /\ pk_data q = pk_data p /\ pk_shared q = pk_shared p /\ pk_anno q = pk_anno p /\
    q = set_data (pk_data p) q.
Proof.
  intros Hl. unfold set_mac_header, buffer_length.
  destruct (Z.leb_spec 0 (Z.of_nat (headroom p))); [|lia].
  destruct (Z.leb_spec (Z.of_nat (headroom p) + Z.of_nat len)
    (Z.of_nat (headroom p + plength p + tailroom p))); [|lia].
  eexists. split; [reflexivity|]. by split_and!.
Qed.

Lemma push_mac_header_run m p :
  pk_wf p -> exists q a b c, push_mac_header (Some m) sizeof_click_ether p = Ok (Some q) /\
    framed q /\ pk_shared q = false /\ pk_anno q = pk_anno p /\
    pk_data q = enc_eth (EthHdr a b c) ++ pk_data p.
Proof.
  intros Hw. change (push_mac_header (Some m) sizeof_click_ether p) with
    (mq ← push (Some m) sizeof_click_ether p;
     match mq with
     | Some q => q ← set_mac_header (Z.of_nat (headroom q)) (Z.of_nat sizeof_click_ether) q; Ok (Some q)
     | None => Ok None
     end).
  destruct (push_spec m sizeof_click_ether p ltac:(reflexivity)) as (q & h & E & Hd & Hl & _ & Hs & Ha & _).
  pose proof (push_wf m sizeof_click_ether p q ltac:(reflexivity) E Hw) as Hwq.
  destruct (eth_surj h) as [[a b c] ->]; [|done|].
  { apply wf_data in Hwq. rewrite Hd in Hwq. by apply bytes_ok_app in Hwq as [? _]. }
  destruct (set_mac_header_front q sizeof_click_ether) as (q' & E' & Hf & Hd' & Hs' & Ha' & _).
  { unfold plength. rewrite Hd, length_app, Hl. lia. }
  exists q', a, b, c. rewrite E, bind_ok, E', bind_ok. split_and!; [done|done| | |];
    congruence.
Qed.

(** ** A question and its answer *)
Definition query_frame (s : ARPQuerier) (ip : Z) : list Z :=
  arp_frame eth_broadcast (aq_my_en s) ARPOP_REQUEST (aq_my_en s) (aq_my_ip s) 0 ip.
Definition reply_frame (s : ARPQuerier) (ip ena : Z) : list Z :=
  arp_frame (aq_my_en s) ena ARPOP_REPLY ena ip (aq_my_en s) (aq_my_ip s).
(** A packet with that frame, as the elements make it. *)
Definition holds_frame (fr : list Z) (q : packet) : Prop :=
  pk_data q = fr /\ length (pk_anno q) = anno_size.

Lemma vlan_tci_run p : length (pk_anno p) = anno_size -> exists v, VLAN_TCI_ANNO p = Ok v.
Proof.
  intros Hl. destruct (rdn_is_some 2 (pk_anno p) VLAN_TCI_ANNO_OFFSET) as [v Hv].
  { rewrite Hl. vm_compute. lia. }
  exists v. by apply ld_ok.
Qed.

(** [make] and [set_ether_header] give 42 bytes to fill. *)
Lemma make_frame m hroom dhost shost op sha spa tha tpa (tci : option Z) :
  exists q q', make (Some m) hroom None (sizeof_click_ether + sizeof_click_ether_arp) 0 = Ok (Some q) /\
    set_ether_header (match tci with Some v => SET_VLAN_TCI_ANNO v q | None => q end) = Ok q' /\
    length (pk_anno q') = anno_size /\
    write_arp dhost shost op sha spa tha tpa q' =
      Ok (set_data (arp_frame dhost shost op sha spa tha tpa) q').
Proof.
  set (q := MkPacket (junk m 0 hroom) (junk m hroom 42) (pk_tail (made m hroom 42)) false
              (replicate anno_size 0) HOST None None None).
  exists q. set (q0 := match tci with Some v => SET_VLAN_TCI_ANNO v q | None => q end).
  destruct (set_mac_header_front q0 sizeof_click_ether) as (q' & E & Hf & Hd & _ & Ha & Hq).
  { assert (pk_data q0 = junk m hroom 42) as Hd' by (unfold q0; by destruct tci).
    unfold plength. rewrite Hd', length_junk. vm_compute. lia. }
  exists q'. split; [reflexivity|]. split; [exact E|].
  assert (Hd' : pk_data q0 = junk m hroom 42) by (unfold q0; by destruct tci).
  split.
  - rewrite Ha. unfold q0. destruct tci; [|done]. cbn [SET_VLAN_TCI_ANNO set_anno pk_anno].
    by rewrite length_wrn.
  - rewrite Hq at 1. rewrite Hd'. apply write_arp_run; [apply junk_ok|apply length_junk].
Qed.

Lemma make_query_run m s p ip :
  dst_ip_anno p = Some ip -> length (pk_anno p) = anno_size ->
  exists q, make_query (Some m) s p false = Ok (Some q) /\ holds_frame (query_frame s ip) q.
Proof.
  intros Hip Hl. destruct (vlan_tci_run p Hl) as [v Hv].
  destruct (make_frame m (default_headroom - sizeof_click_ether) eth_broadcast (aq_my_en s)
    ARPOP_REQUEST (aq_my_en s) (aq_my_ip s) 0 ip None) as (q & q' & E1 & E2 & Ha & E3).
  eexists. unfold make_query. rewrite E1, bind_ok, E2, bind_ok. cbn [andb]. rewrite bind_ok, Hip.
  cbn [opt_res]. rewrite bind_ok, E3, bind_ok, Hv, bind_ok. split; [reflexivity|].
  split; [done|]. cbn [SET_VLAN_TCI_ANNO set_anno set_data pk_anno]. by rewrite length_wrn.
Qed.

Definition querier_ok (s : ARPQuerier) : Prop := in48 (aq_my_en s) /\ in32 (aq_my_ip s) /\ aq_my_ip s <> 0.

Lemma responder_run m n s ip ena v q :
  querier_ok s -> in32 ip -> in48 ena -> responder_lookup v ip = Some ena ->
  holds_frame (query_frame s ip) q ->
  exists r, ARPResponder_simple_action (Some m) n q v = Ok (Some r, v, [Kill q]) /\
    holds_frame (reply_frame s ip ena) r.
Proof.
  intros (Hen & Hmy & _) Hip Hena Hl [Hd Ha]. destruct (vlan_tci_run q Ha) as [tci Hv].
  destruct (make_frame m default_headroom (aq_my_en s) ena ARPOP_REPLY ena ip (aq_my_en s) (aq_my_ip s)
    (Some tci)) as (r & r' & E1 & E2 & Har & E3).
  assert (Hreq : arp_request q = Ok (Some ip)).
  { unfold arp_request. rewrite (fr_length _ _ _ _ _ _ _ _ Hd).
    rewrite (fr_type _ _ _ _ _ _ _ _ Hd), bind_ok, (fr_hrd _ _ _ _ _ _ _ _ Hd), bind_ok.
    rewrite (fr_pro _ _ _ _ _ _ _ _ Hd), bind_ok, (fr_op _ _ _ _ _ _ _ _ Hd), bind_ok.
    rewrite (fr_tpa _ _ _ _ _ _ _ _ Hd), bind_ok, u32_small by done. reflexivity. }
  exists (set_data (arp_frame (aq_my_en s) ena ARPOP_REPLY ena ip (aq_my_en s) (aq_my_ip s)) r').
  split; [|by split]. unfold ARPResponder_simple_action.
  rewrite hbind_get, (hbind_lift_ok _ _ _ _ Hreq). cbn [mbind option_bind]. rewrite Hl.
  rewrite (fr_sha _ _ _ _ _ _ _ _ Hd), bind_ok, (fr_spa _ _ _ _ _ _ _ _ Hd), bind_ok.
  rewrite (fr_tpa _ _ _ _ _ _ _ _ Hd), bind_ok, (u48_small _ Hen), !u32_small by done.
  unfold make_response. rewrite E1, bind_ok, Hv, bind_ok, E2, bind_ok, E3, bind_ok.
  rewrite (hbind_lift_ok _ _ _ _ eq_refl). reflexivity.
Qed.

Lemma arp_reply_run s ip ena r :
  in32 ip -> in48 ena -> is_group ena = false -> holds_frame (reply_frame s ip ena) r ->
  arp_reply r = Ok (Some (ip, ena)) /\ plength r = 42%nat.
Proof.
  intros Hip Hena Hg [Hd Ha]. split; [|exact (fr_length _ _ _ _ _ _ _ _ Hd)]. unfold arp_reply.
  rewrite (fr_spa _ _ _ _ _ _ _ _ Hd), bind_ok, (fr_sha _ _ _ _ _ _ _ _ Hd), bind_ok.
  rewrite (fr_type _ _ _ _ _ _ _ _ Hd), bind_ok, (fr_hrd _ _ _ _ _ _ _ _ Hd), bind_ok.
  rewrite (fr_pro _ _ _ _ _ _ _ _ Hd), bind_ok, (fr_op _ _ _ _ _ _ _ _ Hd), bind_ok.
  rewrite (u48_small _ Hena), u32_small, Hg by done. reflexivity.
Qed.

(** ** One address of the table *)
Lemma on_table_run {A} (m : table_handler A) s a t ev :
  m (aq_arpt s) = Ok (a, t, ev) -> on_table m s = Ok (a, set_arpt t s, ev).
Proof. unfold on_table. by intros ->. Qed.

(** Nothing is known of [ip]; the packets [q] wait for it ([None]: it has no entry). *)
Definition waiting (t : ARPTable) (ip : Z) (q : option (list packet)) : Prop :=
  match q with
  | None => hc_abs (at_table t) !! ip = None
  | Some q => exists a e, hc_abs (at_table t) !! ip = Some a /\ at_entries t !! a = Some e /\
      ae_known e = false /\ ae_queue e = q
  end.
(** [ip] was learnt to be [ena] at time [now]. *)
Definition learnt (t : ARPTable) (ip ena now : Z) : Prop :=
  exists a e, hc_abs (at_table t) !! ip = Some a /\ at_entries t !! a = Some e /\
    ae_known e = true /\ ae_eth e = ena /\ ae_live_at_j e = now.

Lemma lookup_waiting t ip o poll now :
  at_good t -> waiting t ip o ->
  exists t', ARPTable_lookup ip poll now t = Ok ((-1, None), t', []) /\ at_good t' /\
    at_conf t' = at_conf t /\ at_entry_count t' = at_entry_count t /\
    at_packet_count t' = at_packet_count t /\ waiting t' ip o.
Proof.
  intros Hg Hw.
  destruct (lookup_run ip poll now t Hg) as (r & x & t' & E & Hg' & Hc & Ht & Hn & Hp & _ & Hres & Hsame).
  assert (r = -1 /\ x = None) as [-> ->].
  { destruct o as [q|]; simpl in Hw; [|by rewrite Hw in Hres].
    destruct Hw as (a & e & Ha & He & Hk & _). rewrite Ha in Hres. simpl in Hres. rewrite He in Hres.
    unfold known in Hres. by rewrite Hk in Hres. }
  exists t'. split; [exact E|]. clear E Hres. split_and!; try done.
  destruct o as [q|]; simpl in *; [|by rewrite Ht].
  destruct Hw as (a & e & Ha & He & Hk & Hq). specialize (Hsame a). rewrite He in Hsame. simpl in Hsame.
  destruct (at_entries t' !! a) as [e'|] eqn:He'; [|done]. simpl in Hsame. injection Hsame as H1 H2 H3 H4 H5.
  exists a, e'. rewrite Ht. split_and!; [done|done|congruence|congruence].
Qed.

Lemma allow_poll_new ip now : allow_poll (ARPEntry_new ip now) now = true.
Proof.
  unfold allow_poll, ARPEntry_new, click_jiffies_less. cbn [ae_num_polls_since_reply ae_polled_at_j].
  apply negb_true_iff, Z.ltb_ge. change (10 <=? 0) with false. cbv match.
  rewrite (s32_congr _ 900); [vm_compute; congruence|].
  destruct (u32_congr (now - CLICK_HZ)) as [k1 ->].
  destruct (u32_congr (now - CLICK_HZ + k1 * 4294967296 + CLICK_HZ / 10)) as [k2 ->].
  change (CLICK_HZ / 10) with 100. change CLICK_HZ with 1000. exists (- k1 - k2). lia.
Qed.

(** There is room for [n] more packets for an address with [k] of them. *)
Definition room (t : ARPTable) (k n : Z) : Prop :=
  at_entry_count t + n + 1 < 4294967296 /\ at_packet_count t + n < 4294967296 /\
  (c_packet_capacity (at_conf t) = 0 \/ at_packet_count t + n <= c_packet_capacity (at_conf t)) /\
  (c_entry_packet_capacity (at_conf t) = 0 \/ k + n <= c_entry_packet_capacity (at_conf t)).

Lemma append_waiting t ip o p now n :
  at_good t -> waiting t ip o -> 0 < n -> room t (Z.of_nat (length (default [] o))) n ->
  exists poll t' killed, append_query true ip p now t = Ok (Z.b2z poll, t', map Kill killed) /\
    (o = None -> poll = true) /\ at_good t' /\ at_conf t' = at_conf t /\
    waiting t' ip (Some (default [] o ++ [p])) /\
    room t' (Z.of_nat (length (default [] o ++ [p]))) (n - 1).
Proof.
  intros Hg Hw Hn (R1 & R2 & R3 & R4).
  destruct (append_run true ip p now t Hg ltac:(lia) ltac:(lia))
    as (r & t' & killed & E & Hg' & Hc & Hn' & Hp' & Hcase).
  assert (Hfor : forall e0, entry_for t ip now e0 ->
    ae_known e0 = false /\ ae_queue e0 = default [] o /\
    ae_entry_packet_count e0 = Z.of_nat (length (default [] o)) /\ (o = None -> e0 = ARPEntry_new ip now)).
  { unfold entry_for. intros e0. destruct o as [q|]; simpl in Hw.
    - destruct Hw as (a & e & Ha & He & Hk & Hq). rewrite Ha, He. intros [= <-].
      split_and!; [done|done| |done]. rewrite (ok_queues _ _ _ _ (good_ok _ Hg) a e He). by rewrite Hq.
    - rewrite Hw. intros ->. done. }
  destruct Hcase as [(_ & _ & _ & [Hm|(e0 & He0 & Hbad)])|(e0 & He0 & Hk & -> & Hst & a & e' & q & Ha & He' & Hkn & Hq & _ & Hroom)].
  - done.
  - exfalso. destruct (Hfor e0 He0) as (F1 & F2 & F3 & _). destruct Hbad as [Hbad|[Hb1 Hb2]].
    + unfold known in Hbad. by rewrite F1 in Hbad.
    + rewrite F3 in Hb2. destruct R4 as [R4|R4]; [done|lia].
  - destruct (Hfor e0 He0) as (F1 & F2 & F3 & F4).
    destruct Hroom as [-> Hkill]; [destruct R3; [by left|right; lia]|].
    exists (allow_poll e0 now), t', killed. split; [exact E|]. clear E. split_and!; try done.
    + intros Ho. rewrite (F4 Ho). apply allow_poll_new.
    + exists a, e'. split_and!; [done|done|by rewrite Hkn|by rewrite Hq, F2].
    + unfold room. rewrite Hc, length_app. simpl.
      split_and!; [lia|lia|destruct R3; [by left|right; lia]|destruct R4; [by left|right; lia]].
Qed.

Lemma is_broadcast_group ena : is_group ena = false -> is_broadcast ena = false.
Proof.
  unfold is_broadcast, is_group. intros Hg. apply Z.eqb_neq. intros E.
  assert (ena mod 256 = 255) as Hm by zdm. by rewrite Hm in Hg.
Qed.

Lemma insert_waiting mem t ip ena q now :
  at_good t -> waiting t ip (Some q) -> at_entry_count t + 1 < 4294967296 -> is_group ena = false ->
  exists t', ARPTable_insert mem ip ena true now t = Ok ((0, q), t', []) /\ at_good t' /\
    at_conf t' = at_conf t /\ learnt t' ip ena now.
Proof.
  intros Hg (a & e & Ha & He & Hk & Hq) Hr Hgr.
  destruct (insert_run mem ip ena true now t Hg Hr)
    as (r & head & t' & killed & E & Hg' & Hc & _ & _ & _ & Hcase).
  rewrite Ha in Hcase. destruct Hcase as (-> & -> & Ht & e0 & e' & He0 & Hent & (_ & H1 & H2 & H3 & _) & ->).
  rewrite He in He0. injection He0 as <-. exists t'. rewrite Hq in E. split; [exact E|]. clear E.
  split_and!; [done|done|]. exists a, e'. rewrite Ht, Hent, lookup_insert_eq.
  split_and!; try done. by rewrite H2, is_broadcast_group.
Qed.

Lemma lookup_learnt t ip ena now poll :
  at_good t -> learnt t ip ena now -> at_timeout_j t < 2 ^ 31 -> 0 <= poll < 2 ^ 31 ->
  exists t', ARPTable_lookup ip poll now t = Ok ((0, Some ena), t', []) /\ at_good t' /\
    at_conf t' = at_conf t /\ learnt t' ip ena now.
Proof.
  intros Hg (a & e & Ha & He & Hk & Hena & Hlive) Ht Hpoll. change (2 ^ 31) with 2147483648 in *.
  destruct (lookup_run ip poll now t Hg) as (r & x & t' & E & Hg' & Hc & Htab & _ & _ & _ & Hres & Hsame).
  rewrite Ha in Hres. simpl in Hres. rewrite He in Hres. unfold known in Hres.
  assert (expired e now (at_timeout_j t) = false) as Hx.
  { unfold expired, click_jiffies_less. rewrite Hlive, (s32_congr _ (at_timeout_j t)).
    - pose proof (co_timeout _ (good_conf _ Hg)). unfold at_timeout_j in *. rewrite s32_small by lia.
      apply andb_false_iff. left. apply Z.ltb_ge. lia.
    - destruct (u32_congr (now + at_timeout_j t)) as [k ->]. exists k. lia. }
  rewrite Hk, Hx in Hres. simpl in Hres. destruct Hres as [-> ->].
  assert (negb (poll =? 0) && negb (click_jiffies_less now (u32 (ae_live_at_j e + poll))) = false) as Hp.
  { destruct (Z.eqb_spec poll 0); [done|]. simpl. apply negb_false_iff. unfold click_jiffies_less.
    rewrite Hlive, (s32_congr _ (- poll)).
    - rewrite s32_small by lia. apply Z.ltb_lt. lia.
    - destruct (u32_congr (now + poll)) as [k ->]. exists (- k). lia. }
  rewrite Hp, Hena in E. exists t'. split; [exact E|]. clear E. split_and!; [done|done|].
  specialize (Hsame a). rewrite He in Hsame. simpl in Hsame.
  destruct (at_entries t' !! a) as [e'|] eqn:He'; [|done]. simpl in Hsame. injection Hsame as H1 H2 H3 H4 H5.
  exists a, e'. rewrite Htab. split_and!; [done|done|congruence|congruence|congruence].
Qed.

(** ** The querier *)
Definition same_conf (s s' : ARPQuerier) : Prop :=
  aq_my_en s' = aq_my_en s /\ aq_my_ip s' = aq_my_ip s /\ aq_my_bcast_ip s' = aq_my_bcast_ip s /\
  aq_poll_timeout_j s' = aq_poll_timeout_j s /\ aq_noutputs s' = aq_noutputs s /\
  at_conf (aq_arpt s') = at_conf (aq_arpt s).
Lemma same_conf_trans s1 s2 s3 : same_conf s1 s2 -> same_conf s2 s3 -> same_conf s1 s3.
Proof. unfold same_conf. intros (?&?&?&?&?&?) (?&?&?&?&?&?). split_and!; congruence. Qed.
Lemma same_conf_arpt t s : at_conf t = at_conf (aq_arpt s) -> same_conf s (set_arpt t s).
Proof. by intros. Qed.

(** An address the querier sends questions about. *)
Record asked_about (s : ARPQuerier) (ip : Z) : Prop := {
  as_range : in32 ip;
  as_zero : ip <> 0;
  as_bcast : ip <> 0xFFFFFFFF /\ ip <> aq_my_bcast_ip s;
  as_multicast : is_multicast ip = false
}.
Lemma asked_same s s' ip : same_conf s s' -> asked_about s ip -> asked_about s' ip.
Proof. intros (?&?&Hb&?) []. split; try done. by rewrite Hb. Qed.
Lemma query_frame_same s s' ip : same_conf s s' -> query_frame s' ip = query_frame s ip.
Proof. intros (He&Hi&_). unfold query_frame. by rewrite He, Hi. Qed.

(** The questions among a run's events. *)
Definition question (s : ARPQuerier) (ip : Z) (e : event) : Prop :=
  exists x, e = Push (aq_noutputs s - 1) x /\ holds_frame (query_frame s ip) x.

Lemma send_query_run m env_p s ip :
  dst_ip_anno env_p = Some ip -> length (pk_anno env_p) = anno_size ->
  exists x, send_query_for (Some m) env_p false s =
      Ok (tt, count_query s, [Push (aq_noutputs s - 1) x]) /\ holds_frame (query_frame s ip) x.
Proof.
  intros Hip Hl. destruct (make_query_run m s env_p ip Hip Hl) as (x & E & Hx). exists x.
  split; [|done]. unfold send_query_for. rewrite hbind_get, (hbind_lift_ok _ _ _ _ E), hbind_modify.
  reflexivity.
Qed.

Lemma resolve_unknown m m' now q s ip o n :
  at_good (aq_arpt s) -> waiting (aq_arpt s) ip o -> 0 < n ->
  room (aq_arpt s) (Z.of_nat (length (default [] o))) n -> asked_about s ip ->
  dst_ip_anno q = Some ip -> length (pk_anno q) = anno_size ->
  exists s' killed ev, resolve 0 (ArpEnv m (Some m') true now) q s = Ok (tt, s', map Kill killed ++ ev) /\
    at_good (aq_arpt s') /\ same_conf s s' /\
    waiting (aq_arpt s') ip (Some (default [] o ++ [q])) /\
    room (aq_arpt s') (Z.of_nat (length (default [] o ++ [q]))) (n - 1) /\
    Forall (question s ip) ev /\ (o = None -> ev <> []).
Proof.
  intros Hg Hw Hn Hroom [Hr Hz [Hb1 Hb2] Hmc] Hip Hl.
  destruct (lookup_waiting _ ip o (aq_poll_timeout_j s) now Hg Hw)
    as (t1 & E1 & Hg1 & Hc1 & Hn1 & Hp1 & Hw1).
  destruct (append_waiting t1 ip o q now n Hg1 Hw1 Hn) as (poll & t2 & killed & E2 & Hpoll & Hg2 & Hc2 & Hw2 & Hroom2).
  { unfold room. by rewrite Hc1, Hn1, Hp1. }
  set (s2 := set_arpt t2 s).
  assert (Hs2 : same_conf s s2) by (apply same_conf_arpt; congruence).
  assert (Hrun : exists ev s', (if 0 <? Z.b2z poll then send_query_for (Some m') q false else hret tt) s2 =
      Ok (tt, s', ev) /\ aq_arpt s' = t2 /\ same_conf s s' /\ Forall (question s ip) ev /\ (poll = true -> ev <> [])).
  { destruct poll; simpl.
    - destruct (send_query_run m' q s2 ip Hip Hl) as (x & E & Hx). exists [Push (aq_noutputs s2 - 1) x], (count_query s2).
      split; [exact E|]. split_and!; try done. constructor; [|constructor]. exists x. split; [done|].
      by rewrite <- (query_frame_same s s2 ip Hs2).
    - exists [], s2. split_and!; try done. }
  destruct Hrun as (ev & s' & E3 & Ht & Hs' & Hev & Hne).
  exists s', killed, ev. split; [|rewrite Ht; split_and!; try done; intros Ho; apply Hne, Hpoll, Ho].
  cbn [resolve en_now en_alloc en_make]. rewrite hbind_get, Hip, opt_res_some, (hbind_lift_ok _ _ _ _ eq_refl).
  rewrite (hbind_silent _ _ _ _ _ (on_table_run _ _ _ _ _ E1)). cbn [fst snd].
  rewrite (hbind_lift_ok _ _ _ _ eq_refl). change (0 <=? -1) with false. cbv match.
  rewrite (proj2 (Z.eqb_neq _ _) Hb1), (proj2 (Z.eqb_neq _ _) Hb2), (proj2 (Z.eqb_neq _ _) Hz), Hmc.
  cbn [orb]. eapply hbind_run.
  - apply on_table_run. exact E2.
  - change (set_arpt t2 (set_arpt t1 s)) with s2.
    replace (Z.b2z poll =? - EAGAIN) with false by (by destruct poll).
    replace (Z.b2z poll <? 0) with false by (by destruct poll). rewrite hbind_ret_l. exact E3.
Qed.

(** A packet as it waits: [p] behind an Ethernet header of our own. *)
Record queued (ip : Z) (p q : packet) : Prop := {
  qd_shared : pk_shared q = false;
  qd_framed : framed q;
  qd_anno : pk_anno q = pk_anno p;
  qd_dst : dst_ip_anno q = Some ip;
  qd_data : exists a b, pk_data q = enc_eth (EthHdr a b (htons ETHERTYPE_IP)) ++ pk_data p
}.
(** Packets for [ip] and what the querier needs to handle them. *)
Definition sendable (ip : Z) (w : arp_env * packet) : Prop :=
  is_Some (en_push (fst w)) /\ is_Some (en_make (fst w)) /\ en_alloc (fst w) = true /\
  pk_wf (snd w) /\ dst_ip_anno (snd w) = Some ip.

Lemma push_unknown env p s ip o n :
  at_good (aq_arpt s) -> aq_my_ip s <> 0 -> waiting (aq_arpt s) ip o -> 0 < n ->
  room (aq_arpt s) (Z.of_nat (length (default [] o))) n -> asked_about s ip -> sendable ip (env, p) ->
  exists s' q killed ev, ARPQuerier_push env 0 p s = Ok (tt, s', map Kill killed ++ ev) /\
    at_good (aq_arpt s') /\ same_conf s s' /\ queued ip p q /\
    waiting (aq_arpt s') ip (Some (default [] o ++ [q])) /\
    room (aq_arpt s') (Z.of_nat (length (default [] o ++ [q]))) (n - 1) /\
    Forall (question s ip) ev /\ (o = None -> ev <> []).
Proof.
  intros Hg Hmy Hw Hn Hroom Hask ([m Hm] & [m' Hm'] & Hal & Hwf & Hdst).
  destruct env as [epush emake ealloc now]. cbn [fst snd en_push en_make en_alloc] in *. subst.
  destruct (push_mac_header_run m p Hwf) as (q0 & a & b & c & E0 & Hf & Hs & Ha & Hd).
  pose proof (mac_setf_type q0 a b c (pk_data p) (htons ETHERTYPE_IP) Hf Hd) as E1.
  set (q := set_data _ q0) in E1.
  assert (Hq : queued ip p q).
  { split; try done; [|by exists a, b]. unfold dst_ip_anno in *. change (pk_anno q) with (pk_anno q0). by rewrite Ha. }
  destruct (resolve_unknown (Some m) m' now q s ip o n Hg Hw Hn Hroom Hask (qd_dst _ _ _ Hq))
    as (s' & killed & ev & E2 & Hrest).
  { rewrite (qd_anno _ _ _ Hq). apply Hwf. }
  exists s', q, killed, ev. split; [|clear E0 E1 E2; tauto].
  unfold ARPQuerier_push. cbn [Nat.eqb]. unfold handle_ip. rewrite hbind_get, (proj2 (Z.eqb_neq _ _) Hmy).
  cbn [en_push]. rewrite (hbind_lift_ok _ _ _ _ E0), (hbind_lift_ok _ _ _ _ E1). exact E2.
Qed.

(** ** Packets set free *)
Definition delivered (s : ARPQuerier) (ena : Z) (p x : packet) : Prop :=
  pk_data x = enc_eth (EthHdr ena (aq_my_en s) (htons ETHERTYPE_IP)) ++ pk_data p /\
  pk_anno x = pk_anno p.
Lemma delivered_same s s' ena p x : same_conf s s' -> delivered s' ena p x -> delivered s ena p x.
Proof. intros [He _] [Hd Ha]. split; [by rewrite Hd, He|done]. Qed.

(** Timeouts the 32-bit clock can tell apart. *)
Definition timeouts_ok (s : ARPQuerier) : Prop :=
  at_timeout_j (aq_arpt s) < 2 ^ 31 /\ 0 <= aq_poll_timeout_j s < 2 ^ 31.
Lemma timeouts_same s s' : same_conf s s' -> timeouts_ok s -> timeouts_ok s'.
Proof.
  intros (_ & _ & _ & Hp & _ & Hc) [H1 H2]. split; [|by rewrite Hp]. unfold at_timeout_j in *. by rewrite Hc.
Qed.

Lemma handle_ip_learnt env p q s ip ena :
  at_good (aq_arpt s) -> aq_my_ip s <> 0 -> learnt (aq_arpt s) ip ena (en_now env) -> timeouts_ok s ->
  in48 ena -> is_group ena = false -> queued ip p q ->
  exists s' x, handle_ip env q true s = Ok (tt, s', [Push 0 x]) /\ at_good (aq_arpt s') /\
    same_conf s s' /\ learnt (aq_arpt s') ip ena (en_now env) /\ delivered s ena p x.
Proof.
  intros Hg Hmy Hl [Ht Hp] Hena Hgr [Hs Hf Ha Hdst (a & b & Hd)].
  destruct (lookup_learnt _ ip ena (en_now env) (aq_poll_timeout_j s) Hg Hl Ht Hp)
    as (t & E1 & Hg1 & Hc1 & Hl1).
  pose proof (mac_setf_dhost q a b _ _ ena Hf Hd) as E2. set (q1 := set_data _ q) in E2.
  assert (E3 : mac_getf q1 ether_dhost = Ok ena)
    by (rewrite (mac_getf_dhost q1 ena b (htons ETHERTYPE_IP) (pk_data p)), (u48_small _ Hena); done).
  pose proof (mac_setf_shost q1 ena b (htons ETHERTYPE_IP) (pk_data p) (aq_my_en s) Hf eq_refl) as E4.
  set (x := set_data _ q1) in E4.
  exists (set_arpt t s), x. split; [|split_and!; try done; by apply same_conf_arpt].
  unfold handle_ip. rewrite hbind_get, (proj2 (Z.eqb_neq _ _) Hmy), Hs.
  rewrite (hbind_lift_ok _ _ _ _ (uniqueify_unshared _ _ Hs)). cbn [resolve].
  rewrite hbind_get, Hdst, opt_res_some, (hbind_lift_ok _ _ _ _ eq_refl).
  rewrite (hbind_silent _ _ _ _ _ (on_table_run _ _ _ _ _ E1)). cbn [fst snd].
  rewrite (hbind_lift_ok _ _ _ _ E2). change (0 <=? 0) with true. cbv match.
  rewrite (hbind_lift_ok _ _ _ _ E3), (is_broadcast_group _ Hgr). change (0 <? 0) with false. cbv match.
  rewrite hbind_ret_l. unfold emit_ip. rewrite hbind_get. cbn [set_arpt aq_my_en].
  rewrite (hbind_lift_ok _ _ _ _ E4). reflexivity.
Qed.

Lemma release_run env ip ena ps qs s :
  Forall2 (queued ip) ps qs -> at_good (aq_arpt s) -> aq_my_ip s <> 0 ->
  learnt (aq_arpt s) ip ena (en_now env) -> timeouts_ok s -> in48 ena -> is_group ena = false ->
  exists s' out, release env qs s = Ok (tt, s', map (Push 0) out) /\ Forall2 (delivered s ena) ps out.
Proof.
  intros Hq. revert s. induction Hq as [|p q ps qs Hpq Hq IH]; intros s Hg Hmy Hl Ht Hena Hgr.
  { exists s, []. by split; [|constructor]. }
  destruct (handle_ip_learnt env p q s ip ena Hg Hmy Hl Ht Hena Hgr Hpq)
    as (s1 & x & E & Hg1 & Hs1 & Hl1 & Hx).
  destruct (IH s1) as (s2 & out & E2 & Hout); try done.
  { destruct Hs1 as (_ & -> & _). done. }
  { by apply (timeouts_same s). }
  exists s2, (x :: out). split.
  - cbn [release map]. change (Push 0 x :: map (Push 0) out) with ([Push 0 x] ++ map (Push 0) out).
    eapply hbind_run; [exact E|exact E2].
  - clear E E2. constructor; [done|]. eapply Forall2_impl; [exact Hout|]. intros y z. by apply delivered_same.
Qed.

(** ** Sending before anything is known *)
Fixpoint push_all (l : list (arp_env * packet)) : querier_handler unit :=
  match l with
  | [] => hret tt
  | (env, p) :: l => ARPQuerier_push env 0 p ;;; push_all l
  end.

(** Nothing but questions about [ip] goes out; other packets may be dropped for room. *)
Definition only_questions (s : ARPQuerier) (ip : Z) (ev : list event) : Prop :=
  Forall (fun e => question s ip e \/ exists x, e = Kill x) ev.
Lemma only_questions_app s ip ev1 ev2 :
  only_questions s ip ev1 -> only_questions s ip ev2 -> only_questions s ip (ev1 ++ ev2).
Proof. unfold only_questions. rewrite Forall_app. done. Qed.
Lemma only_questions_step s ip killed ev :
  Forall (question s ip) ev -> only_questions s ip (map Kill killed ++ ev).
Proof.
  intros He. apply only_questions_app.
  - apply Forall_map, list.Forall_forall. intros x _. right. by exists x.
  - eapply Forall_impl; [exact He|]. by left.
Qed.
Lemma question_same s s' ip e : same_conf s s' -> question s' ip e -> question s ip e.
Proof.
  intros Hs (x & -> & Hx). exists x. rewrite (query_frame_same s s' ip Hs) in Hx.
  destruct Hs as (_ & _ & _ & _ & Hn & _). by rewrite Hn.
Qed.

Lemma push_all_run l s ip o :
  at_good (aq_arpt s) -> aq_my_ip s <> 0 -> waiting (aq_arpt s) ip o ->
  room (aq_arpt s) (Z.of_nat (length (default [] o))) (Z.of_nat (length l)) -> asked_about s ip ->
  Forall (sendable ip) l ->
  exists s' qs ev, push_all l s = Ok (tt, s', ev) /\ at_good (aq_arpt s') /\ same_conf s s' /\
    Forall2 (queued ip) (map snd l) qs /\ only_questions s ip ev /\
    (l <> [] -> waiting (aq_arpt s') ip (Some (default [] o ++ qs))) /\
    at_entry_count (aq_arpt s') + 1 < 4294967296 /\
    (o = None -> l <> [] -> exists e, e ∈ ev /\ question s ip e).
Proof.
  revert s o. induction l as [|[env p] l IH]; intros s o Hg Hmy Hw Hroom Hask Hl.
  { exists s, [], []. split; [done|]. destruct Hroom as [Hcnt _]. cbn [length] in Hcnt.
    split_and!; [done|done|constructor|constructor|by intros ?|lia|by intros _ ?]. }
  apply Forall_cons in Hl as [Hp Hl]. cbn [length] in Hroom.
  destruct (push_unknown env p s ip o (Z.of_nat (S (length l))) Hg Hmy Hw ltac:(lia) Hroom Hask Hp)
    as (s1 & q & killed & ev & E & Hg1 & Hs1 & Hq & Hw1 & Hroom1 & Hev & Hne).
  replace (Z.of_nat (S (length l)) - 1) with (Z.of_nat (length l)) in Hroom1 by lia.
  destruct (IH s1 (Some (default [] o ++ [q]))) as (s2 & qs & evs & E2 & Hg2 & Hs2 & Hqs & Hevs & Hw2 & Hcnt & _); try done.
  { destruct Hs1 as (_ & -> & _). done. }
  { by apply (asked_same s). }
  exists s2, (q :: qs), ((map Kill killed ++ ev) ++ evs). split.
  { cbn [push_all]. eapply hbind_run; [exact E|exact E2]. }
  cbn [length]. split_and!; try done.
  - by apply (same_conf_trans s s1).
  - by constructor.
  - apply only_questions_app; [by apply only_questions_step|]. eapply Forall_impl; [exact Hevs|].
    intros e [He|He]; [left; by apply (question_same s s1)|by right].
  - intros _. cbn [default from_option id] in Hw2. destruct l as [|w l].
    + apply Forall2_nil_inv_l in Hqs as ->. cbn [push_all] in E2. injection E2 as <- <-. done.
    + specialize (Hw2 ltac:(done)). by rewrite <- app_assoc in Hw2.
  - intros Ho _. specialize (Hne Ho). destruct ev as [|e ev]; [done|]. exists e.
    apply Forall_cons in Hev as [He _]. split; [|done].
    apply elem_of_app. left. apply elem_of_app. right. left.
Qed.

Lemma handle_response_run env r s ip ena ps qs :
  at_good (aq_arpt s) -> querier_ok s -> waiting (aq_arpt s) ip (Some qs) ->
  at_entry_count (aq_arpt s) + 1 < 4294967296 -> timeouts_ok s ->
  in32 ip -> in48 ena -> is_group ena = false -> Forall2 (queued ip) ps qs ->
  holds_frame (reply_frame s ip ena) r ->
  exists s' out, ARPQuerier_push env 1 r s = Ok (tt, s', map (Push 0) out ++ [Kill r]) /\
    Forall2 (delivered s ena) ps out.
Proof.
  intros Hg (_ & _ & Hmy) Hw Hn Ht Hip Hena Hgr Hq Hr.
  destruct (arp_reply_run s ip ena r Hip Hena Hgr Hr) as [Ereply Elen].
  destruct (insert_waiting (en_alloc env) (aq_arpt s) ip ena qs (en_now env) Hg Hw Hn Hgr)
    as (t & E1 & Hg1 & Hc1 & Hl1).
  set (s1 := set_arpt t (count_response s)).
  destruct (release_run env ip ena ps qs s1 Hq) as (s2 & out & E2 & Hout); try done.
  { apply (timeouts_same s); [|done]. unfold same_conf. by split_and!. }
  exists s2, out. split; [|eapply Forall2_impl; [exact Hout|]; intros p x; apply delivered_same; done].
  unfold ARPQuerier_push. cbn [Nat.eqb]. eapply hbind_run; [|reflexivity].
  unfold handle_response. rewrite Elen. change (42 <? _)%nat with false. cbv match.
  rewrite hbind_modify, (hbind_lift_ok _ _ _ _ Ereply). cbv beta match.
  rewrite (hbind_silent _ _ _ (0, qs) s1).
  - exact E2.
  - apply on_table_run. exact E1.
Qed.

(** ** The exchange *)

(** C29: packets sent through an [ARPQuerier] to an address it knows nothing about wait while a
    well-formed ARP request for the address, and nothing else, goes out of the last output;
    an [ARPResponder] whose table holds the address turns the request into a reply; and that
    reply sends every one of the packets, in the order they came, out of output 0, unchanged
    behind an Ethernet header from our address to the responder's. *)
Theorem ARP_exchange (s : ARPQuerier) (ip ena : Z) (l : list (arp_env * packet)) (env : arp_env)
    (mem : nat -> Z) (noutputs : nat) (v : list Entry)
    (Hg : at_good (aq_arpt s)) (Hok : querier_ok s) (Ht : timeouts_ok s)
    (Hnew : binding (aq_arpt s) ip = None) (Hask : asked_about s ip)
    (Hroom : room (aq_arpt s) 0 (Z.of_nat (length l))) (Hne : l <> []) (Hl : Forall (sendable ip) l)
    (Hv : responder_lookup v ip = Some ena) (Hena : in48 ena) (Hgr : is_group ena = false) :
  exists s1 ev q, push_all l s = Ok (tt, s1, ev) /\ only_questions s ip ev /\
    Push (aq_noutputs s - 1) q ∈ ev /\
  exists r, ARPResponder_simple_action (Some mem) noutputs q v = Ok (Some r, v, [Kill q]) /\
  exists s2 out, ARPQuerier_push env 1 r s1 = Ok (tt, s2, map (Push 0) out ++ [Kill r]) /\
    Forall2 (delivered s ena) (map snd l) out.
Proof.
  assert (Hw : waiting (aq_arpt s) ip None).
  { simpl. unfold binding in Hnew. destruct (hc_abs (at_table (aq_arpt s)) !! ip) as [a|] eqn:Ea; [|done].
    apply (ok_find _ _ _ _ (good_ok _ Hg)) in Ea as (e & He & _). simpl in Hnew. by rewrite He in Hnew. }
  pose proof (as_range _ _ Hask) as Hip. pose proof Hok as (_ & _ & Hmy).
  destruct (push_all_run l s ip None Hg Hmy Hw Hroom Hask Hl)
    as (s1 & qs & ev & E1 & Hg1 & Hs1 & Hqs & Hev & Hw1 & Hcnt & Hq).
  destruct (Hq eq_refl Hne) as (e & He & q & -> & Hfr).
  destruct (responder_run mem noutputs s ip ena v q Hok Hip Hena Hv Hfr) as (r & E2 & Hr).
  destruct (handle_response_run env r s1 ip ena (map snd l) qs) as (s2 & out & E3 & Hout); try done.
  - destruct Hs1 as (Hen & Hmy1 & _). unfold querier_ok in *. by rewrite Hen, Hmy1.
  - by apply Hw1.
  - by apply (timeouts_same s).
  - destruct Hs1 as (Hen & Hmy1 & _). unfold reply_frame in *. by rewrite Hen, Hmy1.
  - exists s1, ev, q. split; [exact E1|]. clear E1. split; [exact Hev|]. split; [exact He|].
    exists r. split; [exact E2|]. exists s2, out. split; [exact E3|].
    eapply Forall2_impl; [exact Hout|]. intros p x. by apply delivered_same.
Qed.

(** Two packets for 10.0.0.9 and a responder for 10.0.0.0/8. *)
Definition sample_querier : ARPQuerier :=
  MkARPQuerier (ARPTable_new default_conf) 0x665544332200 (10 + 256 * 256 * 256)
    (htonl 0x0AFFFFFF) 60000 false 2 0 0 0 false.
Definition sample_sent (now : Z) (d : list Z) : arp_env * packet :=
  (ArpEnv (Some (fun _ => 0)) (Some (fun _ => 1)) true now,
   set_dst_ip_anno (10 + 9 * 16777216) (bare d)).
Theorem ARP_exchange_witness :
  exists s1 ev q,
    push_all [sample_sent 5 [1; 2; 3]; sample_sent 6 [4]] sample_querier = Ok (tt, s1, ev) /\
    only_questions sample_querier (10 + 9 * 16777216) ev /\ Push 1 q ∈ ev /\
  exists r, ARPResponder_simple_action (Some (fun _ => 2)) 2 q [net_entry 10 0 0 0 8 0x770000000000] =
      Ok (Some r, [net_entry 10 0 0 0 8 0x770000000000], [Kill q]) /\
  exists s2 out, ARPQuerier_push (ArpEnv None None false 7) 1 r s1 =
      Ok (tt, s2, map (Push 0) out ++ [Kill r]) /\
    Forall2 (delivered sample_querier 0x770000000000)
      (map snd [sample_sent 5 [1; 2; 3]; sample_sent 6 [4]]) out.
Proof.
  assert (Hc : conf_ok default_conf) by (split; vm_compute; split; congruence).
  assert (Hs : forall now d, bytes_ok d -> sendable (10 + 9 * 16777216) (sample_sent now d)).
  { intros now d Hd. split_and!; try done.
    split; [constructor|exact Hd|constructor|reflexivity|apply wrn_bytes_ok, bytes_ok_zero]. }
  apply (ARP_exchange sample_querier (10 + 9 * 16777216) 0x770000000000
    [sample_sent 5 [1; 2; 3]; sample_sent 6 [4]] (ArpEnv None None false 7) (fun _ => 2) 2
    [net_entry 10 0 0 0 8 0x770000000000]).
  - by apply at_good_new.
  - unfold querier_ok, in48, in32. cbn. lia.
  - unfold timeouts_ok. vm_compute. split; [done|split; [congruence|done]].
  - reflexivity.
  - split; [unfold in32; lia|lia|vm_compute; split; congruence|reflexivity].
  - unfold room. cbn. split_and!; [lia|lia|right; lia|left; lia].
  - done.
  - constructor; [apply Hs; solve_bytes|constructor; [apply Hs; solve_bytes|constructor]].
  - reflexivity.
  - unfold in48. lia.
  - reflexivity.
Defined.

(** When the table has no memory for the entry of an address that answers unasked,
    [handle_response] goes on to release the packets [cached_packet] points to, which nothing
    has set. *)
Theorem handle_response_uninitialised (env : arp_env) (s : ARPQuerier) (ip ena : Z) (r : packet)
    (Hip : in32 ip) (Hena : in48 ena) (Hgr : is_group ena = false)
    (Hnew : it_element (hc_find IPAddress_hashcode (at_table (aq_arpt s)) ip) = None)
    (Hmem : allocate (en_alloc env) (at_alloc (aq_arpt s)) = None)
    (Hr : holds_frame (reply_frame s ip ena) r) :
  ARPQuerier_push env 1 r s = Fault Uninitialised.
Proof.
  destruct (arp_reply_run s ip ena r Hip Hena Hgr Hr) as [Ereply Elen].
  assert (E : ARPTable_insert (en_alloc env) ip ena true (en_now env) (aq_arpt s) =
    Ok ((- ENOMEM, []), aq_arpt s, [])).
  { unfold ARPTable_insert. rewrite (hbind_silent _ _ _ None (aq_arpt s)); [reflexivity|].
    unfold ensure. by rewrite hbind_get, Hnew, Hmem. }
  assert (E' : handle_response env r s = Fault Uninitialised).
  { unfold handle_response. rewrite Elen. change (42 <? _)%nat with false. cbv match.
    rewrite hbind_modify, (hbind_lift_ok _ _ _ _ Ereply). cbv beta match.
    erewrite hbind_silent by (apply on_table_run; exact E). reflexivity. }
  unfold ARPQuerier_push. cbn [Nat.eqb]. unfold hbind. by rewrite E'.
Qed.
Theorem handle_response_uninitialised_witness :
  ARPQuerier_push (ArpEnv None None false 7) 1
    (bare (reply_frame sample_querier 9 0x770000000000)) sample_querier = Fault Uninitialised.
Proof.
  apply (handle_response_uninitialised _ _ 9 0x770000000000);
    [unfold in32; lia|unfold in48; lia|reflexivity|reflexivity|reflexivity|split; reflexivity].
Defined.
