(* ===== verification/Fragment.v ===== *)
(** * [IPFragmenter] ([elements/ip/ipfragmenter.cc])

    The element that cuts packets to the link's MTU, as the scripts put it before each device.
    The model works on the packet's own memory, so a length field that promises more bytes
    than the packet has shows as a load outside the buffer.  The theorems describe what comes
    out for every well-formed packet: fragments that carry the payload between them, fit the
    MTU, verify, and tell a receiver where they belong. *)
From Stdlib Require Import ZArith Lia.
From stdpp Require Import base list numbers option.
From S2P Require Import Prelude Checksum Packet PacketOps Wire Build Mobility IPPath.

(** ** [IPFragmenter] *)
Definition IP_DF : Z := 0x4000.
Definition IP_MF : Z := 0x2000.

Record frag_conf : Type := FragConf {
  fr_honor_df : bool; fr_mtu : Z; fr_headroom : nat; fr_noutputs : nat
}.
Record frag_state : Type := FragState { fr_fragments : Z; fr_drops : Z }.

(** What the run takes from the world: the memory for [uniqueify], whether [clone] gets any,
    the memory for the packet made at each offset, and [click_random()]. *)
Record frag_env : Type := FragEnv {
  fe_uniqueify : memory; fe_clone : bool; fe_make : Z -> memory; fe_random : Z
}.

(** [IPFragmenter::optcopy(ip1, ip2)]: the bytes it stores after [ip2]'s fixed header, given
    the option bytes of [ip1]; it returns their number. *)
Fixpoint optcopy_loop (fuel : nat) (oin oout : list Z) : list Z :=
  match fuel, oin with
  | S n, o :: rest =>
      if o =? IPOPT_NOP then optcopy_loop n rest oout
      else
        match rest with
        | [] => oout
        | len :: _ =>
            if (o =? IPOPT_EOL) || (len <? 2) || (Z.of_nat (length oin) <? len) then oout
            else
              optcopy_loop n (drop (Z.to_nat len) oin)
                (if negb (Z.land o 0x80 =? 0) then oout ++ take (Z.to_nat len) oin else oout)
        end
  | _, _ => oout
  end.
(** [for (; (outpos & 3) != 0; outpos++) oout[outpos] = IPOPT_EOL] *)
Definition optcopy_pad (oout : list Z) : list Z :=
  oout ++ replicate ((4 - length oout mod 4) mod 4) IPOPT_EOL.
Definition optcopy (opts : list Z) : list Z := optcopy_pad (optcopy_loop (length opts) opts []).

(** [memcpy(data() + off, bs, length bs)] *)
Definition pcpy (off : nat) (bs : list Z) (p : packet) : res packet :=
  if (off + length bs <=? plength p + tailroom p)%nat then
    let pos := (headroom p + off)%nat in
    Ok (set_mem (take pos (pmem p) ++ bs ++ drop (pos + length bs) (pmem p)) p)
  else Fault OutOfBounds.

(** [network_length()] *)
Definition network_length (p : packet) : res Z :=
  o ← opt_res NullDeref (pk_nh p); Ok (Z.of_nat (headroom p + plength p) - o).

(** The packet made for the payload bytes [[off, off + out_dlen)]. *)
Definition next_fragment (c : frag_conf) (p q : packet) (opts : list Z)
    (off out_dlen in_dlen : Z) (had_mf : bool) : res packet :=
  let copied := optcopy opts in
  let out_hlen := (20 + length copied)%nat in
  q ← set_network_header (Z.of_nat (headroom q)) (Z.of_nat out_hlen) q;
  hdr ← nh_bytes p 20;
  q ← pcpy 0 hdr q;
  q ← pcpy 20 copied q;
  h ← opt_res NullDeref (pk_h p);
  payload ← pbytesh p (Z.to_nat (h + off)) (Z.to_nat out_dlen);
  q ← pcpy out_hlen payload q;
  q ← set_ip_hl 0 (Z.shiftr (Z.of_nat out_hlen) 2) q;
  ip_off_p ← nh_getf p ip_off;
  let o := htons (u16 (ntohs ip_off_p + Z.shiftr off 3)) in
  q ← setf 0 ip_off o q;
  q ← (if (in_dlen <=? out_dlen + off) && negb had_mf
       then setf 0 ip_off (Z.land o (Z.lnot (htons IP_MF))) q else Ok q);
  q ← setf 0 ip_len (htons (u16 (Z.of_nat out_hlen + out_dlen))) q;
  q ← setf 0 ip_sum 0 q;
  hdr ← pbytes q 0 out_hlen;
  q ← setf 0 ip_sum (click_in_cksum hdr) q;
  Ok (copy_annotations p q).

Definition count_fragment (s : frag_state) : frag_state :=
  FragState (u32 (fr_fragments s + 1)) (fr_drops s).

(** [for (int off = first_dlen; off < in_dlen; )] *)
Fixpoint fragment_loop (fuel : nat) (c : frag_conf) (env : frag_env) (p : packet)
    (opts : list Z) (in_dlen : Z) (had_mf : bool) (off : Z) : handler frag_state event unit :=
  if off <? in_dlen then
    match fuel with
    | O => hret tt
    | S n =>
        let out_hlen := (20 + length (optcopy opts))%nat in
        let room := s32 (Z.land (u32 (fr_mtu c - Z.of_nat out_hlen)) (Z.lnot 7)) in
        let out_dlen := if in_dlen <? room + off then in_dlen - off else room in
        mq <-? make (fe_make env off) (fr_headroom c) None (out_hlen + Z.to_nat out_dlen) 0 ;;
        match mq with
        | Some q =>
            q <-? next_fragment c p q opts off out_dlen in_dlen had_mf ;;
            hemit (Push 0 q) ;;;
            hmodify count_fragment
        | None => hret tt
        end ;;;
        fragment_loop n c env p opts in_dlen had_mf (off + out_dlen)
    end
  else hret tt.

(** The header of the packet, changed into the first fragment's. *)
Definition first_header (env : frag_env) (hlen first_dlen : Z) (p : packet)
  : res (packet * bool) :=
  o ← nh_getf p ip_off;
  p ← (if negb (Z.land o (htons IP_DF) =? 0) then
         p ← nh_setf ip_id (u16 (fe_random env)) p;
         nh_setf ip_off (Z.land o (Z.lnot (htons IP_DF))) p
       else Ok p);
  o ← nh_getf p ip_off;
  let had_mf := negb (Z.land o (htons IP_MF) =? 0) in
  p ← nh_setf ip_len (htons (u16 (hlen + first_dlen))) p;
  p ← nh_setf ip_off (Z.lor o (htons IP_MF)) p;
  p ← nh_setf ip_sum 0 p;
  hdr ← nh_bytes p (Z.to_nat hlen);
  p ← nh_setf ip_sum (click_in_cksum hdr) p;
  Ok (p, had_mf).

(** [IPFragmenter::fragment] *)
Definition fragment (c : frag_conf) (env : frag_env) (p_in : packet)
  : handler frag_state event unit :=
  hl <-? nh_hl p_in ;;
  iplen <-? nh_getf p_in ip_len ;;
  o <-? nh_getf p_in ip_off ;;
  let hlen := Z.shiftl hl 2 in
  let first_dlen := s32 (Z.land (u32 (fr_mtu c - hlen)) (Z.lnot 7)) in
  let in_dlen := ntohs iplen - hlen in
  if (negb (Z.land o (htons IP_DF) =? 0) && fr_honor_df c) || (first_dlen <? 8) then
    hmodify (fun s => FragState (fr_fragments s) (u32 (fr_drops s + 1))) ;;;
    checked_output_push (fr_noutputs c) 1 p_in
  else
    mp <-? uniqueify (fe_uniqueify env) p_in ;;
    match mp with
    | None => hret tt
    | Some p =>
        pmf <-? first_header env hlen first_dlen p ;;
        let '(p, had_mf) := pmf in
        noff <-? network_header_offset p ;;
        first <-? (if fe_clone env then Ok (clone p) else Fault NullDeref) ;;
        hemit (Push 0 (ptake (Z.to_nat (u32 (Z.of_nat (plength p) - noff - hlen - first_dlen)))
                         first)) ;;;
        hmodify count_fragment ;;;
        hdr <-? nh_bytes p (Z.to_nat hlen) ;;
        let opts := drop 20 hdr in
        fragment_loop (Z.to_nat in_dlen) c env (clone p) opts in_dlen had_mf first_dlen ;;;
        hemit (Kill (clone p))
    end.

(** [IPFragmenter::push] *)
Definition IPFragmenter_push (c : frag_conf) (env : frag_env) (p : packet)
  : handler frag_state event unit :=
  n <-? network_length p ;;
  if n <=? s32 (fr_mtu c) then hemit (Push 0 p) else fragment c env p.

(** ** Bits of halfwords in network order *)
Lemma testbit_split r f m n :
  0 <= m -> 0 <= n -> 0 <= r < 2 ^ m ->
  Z.testbit (r + 2 ^ m * f) n = if n <? m then Z.testbit r n else Z.testbit f (n - m).
Proof.
  intros Hm Hn Hr. destruct (div_mod_cons r f (2 ^ m) Hr) as [E1 E2].
  destruct (Z.ltb_spec n m).
  - by rewrite <- (Z.mod_pow2_bits_low _ m n), E1 by lia.
  - rewrite <- E2 at 2. rewrite Z.div_pow2_bits by lia. f_equal. lia.
Qed.

Lemma htons_testbit x n :
  0 <= n -> Z.testbit (htons x) n =
  if n <? 8 then Z.testbit x (n + 8) else if n <? 16 then Z.testbit x (n - 8) else false.
Proof.
  intros Hn. unfold htons.
  rewrite Z.add_comm, Z.mul_comm. change 256 with (2 ^ 8).
  rewrite testbit_split by (try apply Z.mod_pos_bound; lia).
  destruct (Z.ltb_spec n 8).
  - rewrite Z.mod_pow2_bits_low by lia. by rewrite Z.div_pow2_bits by lia.
  - destruct (Z.ltb_spec n 16).
    + by rewrite Z.mod_pow2_bits_low by lia.
    + by rewrite Z.mod_pow2_bits_high by lia.
Qed.

Ltac htons_bits :=
  apply Z.bits_inj'; intros n Hn;
  rewrite ?htons_testbit, ?Z.land_spec, ?Z.lor_spec, ?Z.ldiff_spec, ?htons_testbit by lia;
  repeat case_match; rewrite ?Z.land_spec, ?Z.lor_spec, ?Z.ldiff_spec; done.

Lemma htons_land x y : htons (Z.land x y) = Z.land (htons x) (htons y).
Proof. htons_bits. Qed.
Lemma htons_lor x y : htons (Z.lor x y) = Z.lor (htons x) (htons y).
Proof. htons_bits. Qed.
Lemma htons_ldiff x y : htons (Z.ldiff x y) = Z.ldiff (htons x) (htons y).
Proof. htons_bits. Qed.

Lemma land_pow2 x k : 0 <= k -> Z.land x (2 ^ k) = if Z.testbit x k then 2 ^ k else 0.
Proof.
  intros Hk. apply Z.bits_inj'. intros n Hn. rewrite Z.land_spec, Z.pow2_bits_eqb by lia.
  destruct (Z.eqb_spec k n) as [->|Hne].
  - destruct (Z.testbit x n); [by rewrite Z.pow2_bits_true by lia|by rewrite Z.bits_0].
  - rewrite andb_false_r. destruct (Z.testbit x k); [|by rewrite Z.bits_0].
    by rewrite Z.pow2_bits_false by lia.
Qed.

(** A flag of [ip_off], tested in network order. *)
Lemma flag_test x k :
  0 <= k < 16 -> negb (Z.land (htons x) (htons (2 ^ k)) =? 0) = Z.testbit x k.
Proof.
  intros Hk. rewrite <- htons_land, land_pow2 by lia.
  destruct (Z.testbit x k); [|done].
  destruct (Z.eqb_spec (htons (2 ^ k)) 0) as [E|]; [|done].
  assert (0 < 2 ^ k < 65536).
  { split; [apply Z.pow_pos_nonneg; lia|]. change 65536 with (2 ^ 16).
    apply Z.pow_lt_mono_r; lia. }
  set (m := 2 ^ k) in *. clearbody m. apply (proj1 (htons_zero m ltac:(lia))) in E. lia.
Qed.

Lemma mod_8192_bits x y :
  (forall n, 0 <= n < 13 -> Z.testbit x n = Z.testbit y n) -> x mod 8192 = y mod 8192.
Proof.
  intros H. change 8192 with (2 ^ 13). apply Z.bits_inj'. intros n Hn.
  destruct (Z.lt_ge_cases n 13).
  - rewrite !Z.mod_pow2_bits_low by lia. apply H. lia.
  - by rewrite !Z.mod_pow2_bits_high by lia.
Qed.

(** The flags and the offset of an [ip_off] value in host order. *)
Definition off_value (x : Z) : Z := x mod 8192.
Definition mf_flag (x : Z) : bool := Z.testbit x 13.
Definition df_flag (x : Z) : bool := Z.testbit x 14.

(** [x]'s offset advanced by [k] units, its flags kept, as [out_hlen]'s loop computes it. *)
Lemma off_advance x k :
  0 <= x < 65536 -> 0 <= k -> x mod 8192 + k < 8192 ->
  u16 (x + k) = x + k /\ (x + k) mod 8192 = x mod 8192 + k /\
  (forall n, 13 <= n -> Z.testbit (x + k) n = Z.testbit x n).
Proof.
  intros Hx Hk Hs. pose proof (Z.div_mod x 8192 ltac:(lia)) as E.
  pose proof (Z.mod_pos_bound x 8192 ltac:(lia)).
  split; [apply u16_small; zdm|]. split; [zdm|]. intros n Hn.
  assert (Hb : forall r, 0 <= r < 8192 ->
    Z.testbit (r + 8192 * (x / 8192)) n = Z.testbit (x / 8192) (n - 13)).
  { intros r Hr. change 8192 with (2 ^ 13) at 1. rewrite testbit_split by lia.
    destruct (Z.ltb_spec n 13); [lia|done]. }
  rewrite E at 2. replace (x + k) with (x mod 8192 + k + 8192 * (x / 8192)) by lia.
  rewrite (Z.add_comm (8192 * (x / 8192))), !Hb by lia. done.
Qed.

Lemma ldiff_16 x m : 0 <= x < 65536 -> 0 <= Z.ldiff x m < 65536.
Proof.
  intros Hx. assert (Z.ldiff x m = u16 (Z.ldiff x m)) as ->; [|apply u16_range].
  unfold u16. change 65536 with (2 ^ 16). symmetry. apply Z.bits_inj'. intros n Hn.
  destruct (Z.lt_ge_cases n 16); [by rewrite Z.mod_pow2_bits_low by lia|].
  rewrite Z.mod_pow2_bits_high, Z.ldiff_spec by lia.
  rewrite <- (Z.mod_small x (2 ^ 16)) by lia. by rewrite Z.mod_pow2_bits_high by lia.
Qed.
Lemma lor_16 x m : 0 <= x < 65536 -> 0 <= m < 65536 -> 0 <= Z.lor x m < 65536.
Proof.
  intros Hx Hm. assert (Z.lor x m = u16 (Z.lor x m)) as ->; [|apply u16_range].
  unfold u16. change 65536 with (2 ^ 16). symmetry. apply Z.bits_inj'. intros n Hn.
  destruct (Z.lt_ge_cases n 16); [by rewrite Z.mod_pow2_bits_low by lia|].
  rewrite Z.mod_pow2_bits_high, Z.lor_spec by lia.
  rewrite <- (Z.mod_small x (2 ^ 16)), <- (Z.mod_small m (2 ^ 16)) by lia.
  by rewrite !Z.mod_pow2_bits_high by lia.
Qed.

(** [(mtu - hlen) & ~7] *)
Lemma room_spec x : -2147483648 <= x < 2147483648 ->
  s32 (Z.land (u32 x) (Z.lnot 7)) = 8 * (x / 8).
Proof.
  intros Hx. change (Z.lnot 7) with (Z.lnot (Z.ones 3)).
  rewrite <- Z.ldiff_land, Z.ldiff_ones_r, Z.shiftl_mul_pow2, Z.shiftr_div_pow2 by lia.
  change (2 ^ 3) with 8. unfold s32, u32. zdm.
Qed.

(** ** Copying options *)
Lemma optcopy_loop_app n oin oout : optcopy_loop n oin oout = oout ++ optcopy_loop n oin [].
Proof.
  revert oin oout. induction n as [|n IH]; intros oin oout; destruct oin as [|o rest]; cbn [optcopy_loop];
    rewrite ?app_nil_r; try done.
  destruct (o =? IPOPT_NOP); [apply IH|]. destruct rest as [|len r]; [by rewrite app_nil_r|].
  destruct (_ || _); [by rewrite app_nil_r|].
  destruct (negb _); rewrite IH; [|done]. symmetry. rewrite IH. by rewrite app_assoc.
Qed.

Lemma optcopy_loop_length n oin oout :
  (length (optcopy_loop n oin oout) <= length oout + length oin)%nat.
Proof.
  revert oin oout. induction n as [|n IH]; intros oin oout; destruct oin as [|o rest]; cbn [optcopy_loop];
    try lia.
  destruct (o =? IPOPT_NOP); [etrans; [apply IH|simpl; lia]|]. destruct rest as [|len r]; [lia|].
  destruct (_ || _) eqn:E; [lia|].
  apply orb_false_iff in E as [[_ E1%Z.ltb_ge]%orb_false_iff E2%Z.ltb_ge].
  etrans; [apply IH|]. rewrite length_drop.
  destruct (negb _); rewrite ?length_app, ?length_take; lia.
Qed.

Lemma optcopy_loop_ok n oin oout :
  bytes_ok oin -> bytes_ok oout -> bytes_ok (optcopy_loop n oin oout).
Proof.
  revert oin oout. induction n as [|n IH]; intros oin oout Hi Ho; destruct oin as [|o rest];
    cbn [optcopy_loop]; try done.
  destruct (o =? IPOPT_NOP); [apply IH; [by destruct (proj1 (bytes_ok_cons _ _) Hi)|done]|].
  destruct rest as [|len r]; [done|].
  destruct (_ || _) eqn:E; [done|]. apply IH; [auto with bytes|].
  destruct (negb _); [|done]. apply bytes_ok_app. auto with bytes.
Qed.

Lemma optcopy_ok o : bytes_ok o -> bytes_ok (optcopy o).
Proof.
  intros H. unfold optcopy, optcopy_pad. apply bytes_ok_app. split.
  - apply optcopy_loop_ok; [done|constructor].
  - apply Forall_replicate. unfold IPOPT_EOL. lia.
Qed.

Lemma optcopy_length o :
  (length (optcopy o) mod 4 = 0)%nat /\
  ((length o mod 4 = 0)%nat -> (length (optcopy o) <= length o)%nat).
Proof.
  unfold optcopy, optcopy_pad. rewrite length_app, length_replicate.
  pose proof (optcopy_loop_length (length o) o []) as H. simpl in H.
  set (n := length (optcopy_loop _ _ _)) in *. clearbody n.
  pose proof (Nat.div_mod n 4 ltac:(lia)). pose proof (Nat.mod_upper_bound n 4 ltac:(lia)).
  destruct (Nat.eq_dec (n mod 4)%nat 0%nat) as [E|E].
  - rewrite E. replace ((4 - 0) mod 4)%nat with 0%nat by reflexivity. rewrite Nat.add_0_r. lia.
  - rewrite (Nat.mod_small (4 - n mod 4)%nat) by lia. split.
    + replace (n + (4 - n mod 4))%nat with ((n / 4 + 1) * 4)%nat by lia.
      apply Nat.Div0.mod_mul.
    + intros Ho. pose proof (Nat.div_mod (length o) 4 ltac:(lia)). lia.
Qed.

(** Well-formed option lists, and what RFC 791 says of them: an option whose copied flag is set
    is carried on all fragments. *)
Inductive ip_option : Type := Nop | Opt (type : Z) (data : list Z).
Definition enc_option (o : ip_option) : list Z :=
  match o with
  | Nop => [IPOPT_NOP]
  | Opt type data => type :: (2 + Z.of_nat (length data)) :: data
  end.
Definition option_ok (o : ip_option) : Prop :=
  match o with
  | Nop => True
  | Opt type data => 2 <= type < 256 /\ Z.of_nat (length data) < 254 /\ bytes_ok data
  end.
Definition copied_flag (o : ip_option) : bool :=
  match o with Nop => false | Opt type _ => Z.testbit type 7 end.
Definition enc_options (os : list ip_option) : list Z := mjoin (map enc_option os).

Lemma copied_test type : negb (Z.land type 0x80 =? 0) = Z.testbit type 7.
Proof.
  change 0x80 with (2 ^ 7). rewrite land_pow2 by lia. by destruct (Z.testbit type 7).
Qed.

Lemma optcopy_loop_options os : Forall option_ok os -> forall k n oout,
  (length (enc_options os) + k <= n)%nat ->
  optcopy_loop n (enc_options os ++ replicate k IPOPT_EOL) oout =
  oout ++ enc_options (List.filter copied_flag os).
Proof.
  induction 1 as [|o os Ho Hos IH]; intros k n oout Hn.
  - cbn. rewrite app_nil_r. destruct n as [|n]; [done|].
    destruct k as [|[|k]]; reflexivity.
  - change (enc_options (o :: os)) with (enc_option o ++ enc_options os) in *.
    rewrite length_app in Hn. destruct o as [|type data]; cbn [enc_option app length] in *.
    + destruct n as [|n]; [lia|]. cbn [optcopy_loop List.filter copied_flag].
      change (IPOPT_NOP =? IPOPT_NOP) with true. cbv iota. apply IH. lia.
    + destruct Ho as (Ht & Hl & _). destruct n as [|n]; [lia|]. cbn [optcopy_loop].
      unfold IPOPT_NOP, IPOPT_EOL in *.
      destruct (Z.eqb_spec type 1); [lia|]. destruct (Z.eqb_spec type 0); [lia|].
      destruct (Z.ltb_spec (2 + Z.of_nat (length data)) 2); [lia|].
      set (tl := data ++ enc_options os ++ replicate k 0).
      assert (Ht' : (data ++ enc_options os) ++ replicate k 0 = tl) by (by rewrite <- app_assoc).
      rewrite Ht'.
      assert (Z.of_nat (length tl) = Z.of_nat (length data) +
        Z.of_nat (length (enc_options os ++ replicate k 0))).
      { unfold tl. rewrite length_app. lia. }
      destruct (Z.ltb_spec (Z.of_nat (length (type :: 2 + Z.of_nat (length data) :: tl)))
        (2 + Z.of_nat (length data))) as [Hx|_]; [cbn [length] in Hx; lia|].
      cbn [orb]. rewrite copied_test.
      replace (Z.to_nat (2 + Z.of_nat (length data))) with (S (S (length data))) by lia.
      cbn [drop take]. unfold tl. rewrite drop_app_length, take_app_length.
      rewrite IH by lia. cbn [List.filter copied_flag].
      destruct (Z.testbit type 7); [|done].
      change (enc_options (Opt type data :: List.filter copied_flag os)) with
        ((type :: 2 + Z.of_nat (length data) :: data) ++
          enc_options (List.filter copied_flag os)).
      by rewrite app_assoc.
Qed.

(** [optcopy] is RFC 791's rule: of a well-formed option list, padded with end-of-list
    bytes, it stores exactly the options whose copied flag is set, in order, and pads them to a
    multiple of four bytes. *)
Theorem optcopy_copied os k :
  Forall option_ok os ->
  optcopy (enc_options os ++ replicate k IPOPT_EOL) =
  optcopy_pad (enc_options (List.filter copied_flag os)).
Proof.
  intros H. unfold optcopy. rewrite optcopy_loop_options; [done..|].
  by rewrite length_app, length_replicate.
Qed.

Theorem optcopy_copied_witness :
  optcopy ([1; 7; 3; 4; 148; 4; 0; 0; 68; 4; 5; 0] ++ replicate 0 IPOPT_EOL) =
  optcopy_pad [148; 4; 0; 0].
Proof.
  apply (optcopy_copied [Nop; Opt 7 [4]; Opt 148 [0; 0]; Opt 68 [5; 0]] 0).
  repeat constructor; try (cbn; lia); discriminate.
Defined.

(** ** Running the first fragment *)
Record fragmentable (c : frag_conf) (p : packet) (i : ip_hdr) (opts l : list Z) : Prop := {
  fg_data : pk_data p = enc_ip i ++ opts ++ l;
  fg_ok : ip_ok i;
  fg_opts : bytes_ok opts;
  fg_payload : bytes_ok l;
  fg_marked : marked p;
  fg_h : pk_h p = Some (Z.of_nat (headroom p + 20 + length opts));
  fg_align : (length opts mod 4 = 0)%nat;
  fg_hl : (length opts <= 40)%nat;
  fg_vhl : i_vhl i = 69 + Z.of_nat (length opts) / 4;
  fg_len : i_len i = htons (20 + Z.of_nat (length opts) + Z.of_nat (length l));
  fg_total : 20 + Z.of_nat (length opts) + Z.of_nat (length l) < 65536;
  fg_off : off_value (ntohs (i_off i)) + Z.of_nat (length l) / 8 < 8192;
  fg_mtu : 0 <= fr_mtu c < 2147483648
}.

(** The payload a header of [n] option bytes leaves room for: a multiple of 8. *)
Definition room (c : frag_conf) (n : nat) : Z := 8 * ((fr_mtu c - 20 - Z.of_nat n) / 8).

(** The header of the fragment whose [ip_off] is [x] in host order. *)
Definition frag_hdr (i : ip_hdr) (id : Z) (x : Z) (opts : list Z) (n : nat) : ip_hdr :=
  IpHdr (69 + Z.of_nat (length opts) / 4) (i_tos i)
    (htons (20 + Z.of_nat (length opts) + Z.of_nat n)) id (htons x) (i_ttl i) (i_p i) 0
    (i_src i) (i_dst i).
Definition frag_hdr_sum (i : ip_hdr) (id x : Z) (opts : list Z) (n : nat) : ip_hdr :=
  let h := frag_hdr i id x opts n in ip_with_sum (click_in_cksum (enc_ip h ++ opts)) h.

Lemma frag_hdr_verifies i id x opts n :
  bytes_ok opts -> (length opts <= 40)%nat ->
  click_in_cksum (enc_ip (frag_hdr_sum i id x opts n) ++ opts) = 0.
Proof.
  intros Ho Hl. unfold frag_hdr_sum. rewrite enc_ip_with_sum.
  rewrite <- wrn_app_l by (cbn; lia). apply fill_verifies; [|rewrite length_app; cbn; lia|done| |].
  - apply bytes_ok_app. auto with bytes.
  - rewrite length_app. cbn. lia.
  - rewrite rdn_app_l by (cbn; lia). reflexivity.
Qed.

Lemma frag_hdr_ok i id x opts n :
  ip_ok i -> in16 id -> (length opts <= 40)%nat -> ip_ok (frag_hdr_sum i id x opts n).
Proof.
  intros [] ? ?. constructor; cbn; auto with wire.
  unfold in8. zdm.
Qed.

(** What [fragment] knows of the packet it works on. *)
Record frag_source (p : packet) (h : ip_hdr) (opts l : list Z) : Prop := {
  fs_data : pk_data p = enc_ip h ++ opts ++ l;
  fs_marked : marked p;
  fs_h : pk_h p = Some (Z.of_nat (headroom p + 20 + length opts));
  fs_ok : ip_ok h
}.

Lemma uniqueify_pointers m p q :
  uniqueify (Some m) p = Ok (Some q) -> pk_nh q = pk_nh p /\ pk_h q = pk_h p.
Proof.
  unfold uniqueify. destruct (pk_shared p); [|by intros [= ->]].
  unfold expensive_uniqueify.
  rewrite (proj2 (Z.leb_le (- Z.of_nat (headroom p)) 0)) by lia.
  rewrite (proj2 (Z.leb_le (- Z.of_nat (tailroom p)) 0)) by lia. cbn [andb].
  intros [= <-]. cbn [pk_nh pk_h].
  destruct (pk_nh p), (pk_h p); cbn [option_map]; rewrite ?Z.add_0_r; done.
Qed.

(** [ip_off] of the first fragment: DF cleared, MF set. *)
Definition first_off (x : Z) : Z := Z.lor (Z.ldiff x IP_DF) IP_MF.
Definition first_id (env : frag_env) (i : ip_hdr) : Z :=
  if df_flag (ntohs (i_off i)) then u16 (fe_random env) else i_id i.

Lemma first_off_spec x :
  0 <= x < 65536 ->
  0 <= first_off x < 65536 /\ off_value (first_off x) = off_value x /\
  mf_flag (first_off x) = true /\ df_flag (first_off x) = false.
Proof.
  intros Hx. unfold first_off. split; [apply lor_16; [by apply ldiff_16|unfold IP_MF; lia]|].
  split.
  - apply mod_8192_bits. intros n Hn. rewrite Z.lor_spec, Z.ldiff_spec.
    change IP_DF with (2 ^ 14). change IP_MF with (2 ^ 13).
    rewrite !Z.pow2_bits_false by lia. by destruct (Z.testbit x n).
  - unfold mf_flag, df_flag. rewrite !Z.lor_spec, !Z.ldiff_spec.
    change IP_DF with (2 ^ 14). change IP_MF with (2 ^ 13).
    rewrite !Z.pow2_bits_eqb by lia. cbn [Z.eqb Pos.eqb]. split; [apply orb_true_r|].
    by rewrite andb_false_r.
Qed.

Lemma marked_len p i : marked p -> pk_data p = i -> nh_bytes p (length i) = Ok i.
Proof.
  intros Hm Hd. rewrite marked_bytes by done.
  rewrite pbytes_data by (unfold plength; rewrite Hd; lia).
  by rewrite Hd, drop_0, take_ge.
Qed.

Lemma marked_header p h opts l n :
  marked p -> n = (20 + length opts)%nat ->
  nh_bytes (set_data (enc_ip h ++ opts ++ l) p) n = Ok (enc_ip h ++ opts).
Proof.
  intros Hm ->. rewrite marked_bytes by done.
  rewrite pbytes_data by (unfold plength; cbn; rewrite !length_app; lia).
  cbn [pk_data set_data]. rewrite drop_0, app_assoc, take_app_length'; [done|].
  by rewrite length_app.
Qed.

Section First.
Context (c : frag_conf) (env : frag_env) (i : ip_hdr) (opts l : list Z) (p : packet).
Context (Hs : frag_source p i opts l) (Hok : ip_ok i).
Let x : Z := ntohs (i_off i).

Lemma source_off : i_off i = htons x /\ 0 <= x < 65536.
Proof.
  unfold x, ntohs. destruct Hok. split; [|apply htons_range]. by rewrite htons_inv.
Qed.

Lemma source_getf_off : nh_getf p ip_off = Ok (htons x).
Proof.
  destruct Hs as [Hd Hm _ _]. rewrite marked_getf by done. destruct source_off as [<- _].
  apply getf_val; [|cbn; lia]. rewrite Hd. destruct Hok. wire_eval. by small_words.
Qed.

(** Clearing DF, with a fresh [ip_id] when it was set. *)
Lemma clear_df :
  (if negb (Z.land (htons x) (htons IP_DF) =? 0) then
     p ← nh_setf ip_id (u16 (fe_random env)) p;
     nh_setf ip_off (Z.land (htons x) (Z.lnot (htons IP_DF))) p
   else Ok p) =
  Ok (set_data (enc_ip (IpHdr (i_vhl i) (i_tos i) (i_len i) (first_id env i)
    (htons (Z.ldiff x IP_DF)) (i_ttl i) (i_p i) (i_sum i) (i_src i) (i_dst i)) ++ opts ++ l) p).
Proof.
  destruct source_off as [E Hx]. destruct Hs as [Hd Hm _ _].
  change IP_DF with (2 ^ 14) at 1. rewrite flag_test by lia.
  unfold first_id, df_flag. fold x. destruct (Z.testbit x 14) eqn:Ef.
  - rewrite <- (set_data_id p) at 1. rewrite marked_setf, Hd by done.
    destruct i as [a0 a1 a2 a3 a4 a5 a6 a7 a8 a9]. rewrite set_ip_id, bind_ok.
    rewrite marked_setf, set_ip_off by done. rewrite <- Z.ldiff_land, <- htons_ldiff. done.
  - replace (Z.ldiff x IP_DF) with x.
    + rewrite <- E, <- (set_data_id p) at 1. rewrite Hd. by destruct i.
    + apply Z.bits_inj'. intros n Hn. rewrite Z.ldiff_spec. change IP_DF with (2 ^ 14).
      rewrite Z.pow2_bits_eqb by lia. destruct (Z.eqb_spec 14 n) as [<-|]; [by rewrite Ef|].
      by destruct (Z.testbit x n).
Qed.

(** [first_header] turns the header into the first fragment's. *)
Lemma first_header_run hlen d :
  hlen = 20 + Z.of_nat (length opts) -> i_vhl i = 69 + Z.of_nat (length opts) / 4 ->
  0 <= d -> hlen + d < 65536 ->
  let h := frag_hdr_sum i (first_id env i) (first_off x) opts (Z.to_nat d) in
  first_header env hlen d p = Ok (set_data (enc_ip h ++ opts ++ l) p, mf_flag x).
Proof.
  intros Hh Hv Hd Ht h. destruct Hs as [_ Hm _ _].
  unfold first_header. rewrite source_getf_off, bind_ok, clear_df, bind_ok.
  rewrite marked_getf by done.
  rewrite (getf_val _ _ _ (htons (Z.ldiff x IP_DF))); [|wire_eval; f_equal; apply u16_small, htons_range|cbn; lia].
  rewrite bind_ok. rewrite marked_setf, set_ip_len, bind_ok by done.
  rewrite marked_setf, set_ip_off, bind_ok by done.
  rewrite marked_setf, set_ip_sum, bind_ok by done.
  rewrite (marked_header p _ opts l) by (done || lia). rewrite bind_ok.
  rewrite marked_setf, set_ip_sum, bind_ok by done.
  rewrite <- htons_lor. change (Z.lor (Z.ldiff x IP_DF) IP_MF) with (first_off x).
  unfold h, frag_hdr_sum, frag_hdr, ip_with_sum. cbn [i_vhl i_tos i_len i_id i_off i_ttl i_p i_sum i_src i_dst].
  rewrite <- Hv, u16_small by lia.
  replace (hlen + d) with (20 + Z.of_nat (length opts) + Z.of_nat (Z.to_nat d)) by lia.
  do 2 f_equal. change IP_MF with (2 ^ 13). rewrite flag_test by lia.
  rewrite Z.ldiff_spec. change IP_DF with (2 ^ 14).
  rewrite Z.pow2_bits_false by lia. unfold mf_flag. by destruct (Z.testbit x 13).
Qed.
End First.

(** ** Running the remaining fragments *)
Lemma pcpy_data off bs q :
  (off + length bs <= plength q)%nat ->
  pcpy off bs q =
  Ok (set_data (take off (pk_data q) ++ bs ++ drop (off + length bs) (pk_data q)) q).
Proof.
  intros H. unfold pcpy. destruct (Nat.leb_spec (off + length bs) (plength q + tailroom q)); [|lia].
  unfold plength in H. f_equal. unfold pmem, headroom.
  rewrite take_app_add, <- Nat.add_assoc, drop_app_add.
  rewrite take_app_le, drop_app_le by lia. rewrite !app_assoc.
  rewrite <- (app_assoc (pk_head q)), <- (app_assoc (pk_head q)).
  set (d := (take off (pk_data q) ++ bs) ++ drop (off + length bs) (pk_data q)).
  assert (Hd : length d = plength q).
  { unfold d, plength. rewrite !length_app, length_take, length_drop. lia. }
  apply pk_eq; try done; cbn [pk_head pk_data pk_tail set_mem set_data]; unfold headroom;
    rewrite <- app_assoc.
  - by rewrite take_app_length.
  - rewrite drop_app_length, <- Hd. by rewrite take_app_length.
  - rewrite <- drop_drop, drop_app_length, <- Hd. by rewrite drop_app_length.
Qed.

Lemma set_ip_hl_spec x0 x1 x2 x3 x4 x5 x6 x7 x8 x9 l p v :
  64 <= x0 < 80 -> 0 <= v < 16 ->
  set_ip_hl 0 v (set_data (enc_ip (IpHdr x0 x1 x2 x3 x4 x5 x6 x7 x8 x9) ++ l) p) =
  Ok (set_data (enc_ip (IpHdr (64 + v) x1 x2 x3 x4 x5 x6 x7 x8 x9) ++ l) p).
Proof.
  intros H0 Hv. unfold set_ip_hl.
  rewrite (getf_val _ _ _ x0); [|wire_eval; f_equal; apply u8_small; lia|cbn; lia].
  rewrite bind_ok, set_ip_vhl.
  assert (Hb : forall a b, (a < 16)%nat -> (b < 16)%nat ->
    Z.lor (Z.land (64 + Z.of_nat a) 240) (Z.land (Z.of_nat b) 15) = 64 + Z.of_nat b).
  { intros a b Ha Hb. do 16 (destruct a as [|a]; [do 16 (destruct b as [|b]; [reflexivity|]); lia|]). lia. }
  replace x0 with (64 + Z.of_nat (Z.to_nat (x0 - 64))) by lia.
  replace v with (Z.of_nat (Z.to_nat v)) by lia.
  rewrite Hb by lia. reflexivity.
Qed.

(** [q] is a fragment of a packet with header [i]: it carries [chunk], the payload from byte
    [pos], and tells whether more follow. *)
Record is_fragment (i : ip_hdr) (id : Z) (opts : list Z) (pos : nat) (chunk : list Z)
    (more : bool) (q : packet) : Prop := {
  if_hdr : exists h, pk_data q = enc_ip h ++ opts ++ chunk /\ ip_ok h /\
    click_in_cksum (enc_ip h ++ opts) = 0 /\
    i_vhl h = 69 + Z.of_nat (length opts) / 4 /\ i_tos h = i_tos i /\
    i_len h = htons (20 + Z.of_nat (length opts) + Z.of_nat (length chunk)) /\
    i_id h = id /\ i_ttl h = i_ttl i /\ i_p h = i_p i /\ i_src h = i_src i /\
    i_dst h = i_dst i /\
    off_value (ntohs (i_off h)) = off_value (ntohs (i_off i)) + Z.of_nat pos / 8 /\
    mf_flag (ntohs (i_off h)) = more /\ df_flag (ntohs (i_off h)) = false;
  if_marked : marked q;
  if_transport : pk_h q = Some (Z.of_nat (headroom q + 20 + length opts))
}.

Lemma is_fragment_intro i id opts pos chunk x q :
  ip_ok i -> in16 id -> bytes_ok opts -> (length opts <= 40)%nat ->
  0 <= x < 65536 -> off_value x = off_value (ntohs (i_off i)) + Z.of_nat pos / 8 ->
  df_flag x = false ->
  pk_data q = enc_ip (frag_hdr_sum i id x opts (length chunk)) ++ opts ++ chunk ->
  marked q -> pk_h q = Some (Z.of_nat (headroom q + 20 + length opts)) ->
  is_fragment i id opts pos chunk (mf_flag x) q.
Proof.
  intros Hok Hid Ho Hl Hx Hoff Hdf Hd Hm Hh. constructor; [|done..].
  exists (frag_hdr_sum i id x opts (length chunk)).
  split; [done|]. split; [by apply frag_hdr_ok|]. split; [by apply frag_hdr_verifies|].
  do 8 (split; [reflexivity|]). unfold ntohs in *. cbn [i_off frag_hdr_sum ip_with_sum frag_hdr].
  by rewrite htons_inv by done.
Qed.

Lemma set_network_header_front q n :
  (n <= plength q)%nat ->
  set_network_header (Z.of_nat (headroom q)) (Z.of_nat n) q =
  Ok (MkPacket (pk_head q) (pk_data q) (pk_tail q) (pk_shared q) (pk_anno q) (pk_ptype q)
        (pk_mac q) (Some (Z.of_nat (headroom q))) (Some (Z.of_nat (headroom q + n)))).
Proof.
  intros H. unfold set_network_header, buffer_length.
  rewrite (proj2 (Z.leb_le _ _)) by lia. rewrite (proj2 (Z.leb_le _ _)) by lia.
  cbn [andb]. by rewrite Nat2Z.inj_add.
Qed.

(** The offset field of the fragment at [pos]. *)
Definition next_off (x : Z) (pos : Z) (last had_mf : bool) : Z :=
  if last && negb had_mf then Z.ldiff (x + pos / 8) IP_MF else x + pos / 8.

Lemma next_off_spec x pos last had_mf :
  0 <= x < 65536 -> 0 <= pos -> off_value x + pos / 8 < 8192 ->
  mf_flag x = true -> df_flag x = false ->
  0 <= next_off x pos last had_mf < 65536 /\ u16 (x + pos / 8) = x + pos / 8 /\
  off_value (next_off x pos last had_mf) = off_value x + pos / 8 /\
  mf_flag (next_off x pos last had_mf) = negb last || had_mf /\
  df_flag (next_off x pos last had_mf) = false.
Proof.
  intros Hx Hp Ho Hmf Hdf. assert (0 <= pos / 8) by (apply Z.div_pos; lia).
  destruct (off_advance x (pos / 8) Hx ltac:(done) Ho) as (Hu & Hm & Hb).
  assert (Hr : 0 <= x + pos / 8 < 65536) by (rewrite <- Hu; apply u16_range).
  unfold next_off. destruct (last && negb had_mf) eqn:E.
  - apply andb_true_iff in E as [-> ->%negb_true_iff]. split; [by apply ldiff_16|].
    split; [done|]. split; [|split].
    + etrans; [|exact Hm]. apply mod_8192_bits. intros n Hn. rewrite Z.ldiff_spec.
      change IP_MF with (2 ^ 13). rewrite Z.pow2_bits_false by lia. apply andb_true_r.
    + unfold mf_flag. rewrite Z.ldiff_spec. change IP_MF with (2 ^ 13).
      rewrite Z.pow2_bits_true by lia. apply andb_false_r.
    + unfold df_flag. rewrite Z.ldiff_spec. change IP_MF with (2 ^ 13).
      rewrite Z.pow2_bits_false, Hb by lia. rewrite andb_true_r. exact Hdf.
  - split; [done|]. split; [done|]. split; [done|]. unfold mf_flag, df_flag in *.
    rewrite !Hb, Hmf, Hdf by lia. by destruct last, had_mf.
Qed.

Section Next.
Context (c : frag_conf) (p : packet) (h : ip_hdr) (opts l : list Z).
Context (Hs : frag_source p h opts l) (Hopts : bytes_ok opts) (Hlen : (length opts <= 40)%nat).
Context (Hal : (length opts mod 4 = 0)%nat) (Hv : i_vhl h = 69 + Z.of_nat (length opts) / 4).
Let x : Z := ntohs (i_off h).
Context (Hmf : mf_flag x = true) (Hdf : df_flag x = false).
Context (Hfit : off_value x + Z.of_nat (length l) / 8 < 8192).
Context (Htot : 20 + Z.of_nat (length opts) + Z.of_nat (length l) < 65536).
Let copied : list Z := optcopy opts.

Lemma copied_length : (length copied mod 4 = 0)%nat /\ (length copied <= length opts)%nat.
Proof. destruct (optcopy_length opts) as [H1 H2]. by split; [|apply H2]. Qed.

(** The three copies leave the old header, the copied options and the payload. *)
Lemma next_copies q chunk :
  plength q = (20 + length copied + length chunk)%nat ->
  (q ← pcpy 0 (enc_ip h) q; q ← pcpy 20 copied q; pcpy (20 + length copied) chunk q) =
  Ok (set_data (enc_ip h ++ copied ++ chunk) q).
Proof.
  intros Hq. set (d := pk_data q). assert (Hd : length d = (20 + length copied + length chunk)%nat) by done.
  rewrite pcpy_data by (cbn [length enc_ip app le]; lia). rewrite bind_ok. fold d.
  change (length (enc_ip h)) with 20%nat. rewrite take_0, app_nil_l, Nat.add_0_l.
  rewrite pcpy_data by (rewrite plength_set_data, length_app, length_drop; cbn; lia).
  rewrite bind_ok, set_data_twice. cbn [pk_data set_data].
  rewrite (take_app_length' (enc_ip h)) by done.
  rewrite (drop_app_add' (enc_ip h) _ 20) by done.
  rewrite drop_drop.
  rewrite pcpy_data by (rewrite plength_set_data, !length_app, length_drop; cbn; lia).
  rewrite set_data_twice. cbn [pk_data set_data].
  rewrite (app_assoc (enc_ip h)), take_app_length' by (rewrite length_app; done).
  rewrite drop_ge by (rewrite !length_app, length_drop; cbn; lia).
  by rewrite app_nil_r, <- app_assoc.
Qed.

Lemma source_payload pos n :
  (pos + n <= length l)%nat ->
  pbytesh p (Z.to_nat (Z.of_nat (headroom p + 20 + length opts) + Z.of_nat pos)) n =
  Ok (take n (drop pos l)).
Proof.
  intros Hn. destruct Hs as [Hd _ _ _].
  replace (Z.to_nat _) with (headroom p + (20 + length opts + pos))%nat by lia.
  assert (Hl : plength p = (20 + length opts + length l)%nat)
    by (unfold plength; rewrite Hd, !length_app; done).
  rewrite pbytesh_data, pbytes_data by lia. do 2 f_equal.
  by rewrite Hd, app_assoc, drop_app_add' by (rewrite length_app; done).
Qed.

Lemma next_fragment_run i id q pos chunk rest had_mf :
  ip_ok i -> i_id h = id -> i_tos h = i_tos i -> i_ttl h = i_ttl i -> i_p h = i_p i ->
  i_src h = i_src i -> i_dst h = i_dst i ->
  off_value (ntohs (i_off i)) = off_value x ->
  drop pos l = chunk ++ rest -> (chunk ++ rest <> []) ->
  plength q = (20 + length copied + length chunk)%nat ->
  exists q', next_fragment c p q opts (Z.of_nat pos) (Z.of_nat (length chunk))
      (Z.of_nat (length l)) had_mf = Ok q' /\
    is_fragment i id copied pos chunk (negb (bool_decide (rest = [])) || had_mf) q' /\
    pk_anno q' = pk_anno p /\ pk_ptype q' = pk_ptype p /\ headroom q' = headroom q.
Proof.
  intros Hok Hid Htos Httl Hp Hsrc Hdst Hoff Hdrop Hne Hq.
  destruct copied_length as [Hcm Hcl]. destruct Hs as [Hd Hm Hh Hokh].
  assert (Hpos : (pos + length chunk + length rest = length l)%nat).
  { apply (f_equal length) in Hdrop. rewrite length_drop, length_app in Hdrop.
    destruct (chunk ++ rest) eqn:E; [done|]. 
    assert (0 < length (chunk ++ rest))%nat by (rewrite E; simpl; lia).
    rewrite length_app in *. lia. }
  assert (Hlast : (Z.of_nat (length l) <=? Z.of_nat (length chunk) + Z.of_nat pos) =
    bool_decide (rest = [])).
  { case_bool_decide as Hr; [subst rest; simpl in Hpos; apply Z.leb_le; lia|].
    apply Z.leb_gt. destruct rest; [done|simpl in Hpos; lia]. }
  assert (Hxr : 0 <= x < 65536) by apply htons_range.
  assert (Hxe : i_off h = htons x) by (unfold x, ntohs; destruct Hokh; by rewrite htons_inv).
  destruct (next_off_spec x (Z.of_nat pos) (bool_decide (rest = [])) had_mf) as (Hnr & Hu & Hno & Hnm & Hnd);
    [done|lia| |done|done|].
  { unfold off_value in *. pose proof (Z.div_le_mono (Z.of_nat pos) (Z.of_nat (length l)) 8). lia. }
  unfold next_fragment. fold copied. rewrite set_network_header_front by lia. rewrite bind_ok.
  set (q1 := MkPacket _ _ _ _ _ _ _ _ _).
  assert (Hb : nh_bytes p 20 = Ok (enc_ip h)).
  { rewrite marked_bytes by done. rewrite pbytes_data by (unfold plength; rewrite Hd; cbn; lia).
    by rewrite Hd. }
  rewrite Hb, bind_ok.
  assert (Hc := next_copies q1 chunk Hq).
  apply res_bind_ok in Hc as (q2 & E2 & Hc). apply res_bind_ok in Hc as (q3 & E3 & E4).
  rewrite E2, bind_ok, E3, bind_ok, Hh. cbn [opt_res]. rewrite bind_ok, Nat2Z.id.
  rewrite source_payload by lia.
  rewrite Hdrop, take_app_length, bind_ok, E4, bind_ok. clear E2 E3 E4 q2 q3 Hb.
  assert (Hk : Z.of_nat (length copied) = 4 * (Z.of_nat (length copied) / 4)).
  { apply (f_equal Z.of_nat) in Hcm. rewrite Nat2Z.inj_mod in Hcm. simpl in Hcm. zdm. }
  assert (Hvr : 69 <= i_vhl h < 80) by (rewrite Hv; zdm).
  replace (Z.shiftr (Z.of_nat (20 + length copied)) 2) with (5 + Z.of_nat (length copied) / 4)
    by (rewrite Z.shiftr_div_pow2 by lia; change (2 ^ 2) with 4; zdm).
  rewrite marked_getf by done.
  assert (Hgo : getf p 0 ip_off = Ok (htons x)).
  { rewrite <- Hxe. apply getf_val; [|cbn; lia]. rewrite Hd. destruct Hokh. wire_eval.
    by small_words. }
  rewrite Hlast, Z.shiftr_div_pow2 by lia. change (2 ^ 3) with 8.
  change (enc_ip h) with (enc_ip (IpHdr (i_vhl h) (i_tos h) (i_len h) (i_id h) (i_off h)
    (i_ttl h) (i_p h) (i_sum h) (i_src h) (i_dst h))).
  rewrite Hid, Htos, Httl, Hp, Hsrc, Hdst.
  rewrite set_ip_hl_spec, bind_ok by zdm. rewrite Hgo, bind_ok.
  replace (ntohs (htons x)) with x by (unfold ntohs; by rewrite htons_inv).
  rewrite Hu, set_ip_off, bind_ok.
  rewrite <- Z.ldiff_land, <- htons_ldiff.
  match goal with |- context [(if ?b then setf 0 ip_off _ ?q else _)] =>
    assert (Eo : (if b then setf 0 ip_off (htons (Z.ldiff (x + Z.of_nat pos / 8) IP_MF)) q else Ok q) =
      Ok (set_data (enc_ip (IpHdr (64 + (5 + Z.of_nat (length copied) / 4)) (i_tos i) (i_len h) id
        (htons (next_off x (Z.of_nat pos) (bool_decide (rest = [])) had_mf)) (i_ttl i) (i_p i)
        (i_sum h) (i_src i) (i_dst i)) ++ copied ++ chunk) q1))
      by (unfold next_off; destruct b; [apply set_ip_off|done])
  end.
  rewrite Eo, bind_ok, set_ip_len, bind_ok, set_ip_sum, bind_ok. clear Eo.
  assert (Hm1 : marked q1) by exact eq_refl.
  rewrite <- (marked_bytes _ (20 + length copied)) by exact Hm1.
  rewrite (marked_header q1 _ copied chunk) by done. rewrite bind_ok, set_ip_sum, bind_ok.
  eexists. split; [reflexivity|]. split; [|done].
  rewrite <- Hnm. apply is_fragment_intro; try done.
  - rewrite <- Hid. by destruct Hokh.
  - by apply optcopy_ok.
  - lia.
  - by rewrite Hoff.
  - cbn [pk_data copy_annotations set_packet_type_anno set_anno set_data].
    unfold frag_hdr_sum, frag_hdr, ip_with_sum.
    cbn [i_vhl i_tos i_len i_id i_off i_ttl i_p i_sum i_src i_dst].
    replace (64 + (5 + Z.of_nat (length copied) / 4)) with (69 + Z.of_nat (length copied) / 4) by lia.
    rewrite u16_small by lia.
    by replace (Z.of_nat (20 + length copied) + Z.of_nat (length chunk)) with
      (20 + Z.of_nat (length copied) + Z.of_nat (length chunk)) by lia.
  - change (Some (Z.of_nat (headroom q + (20 + length copied))) =
      Some (Z.of_nat (headroom q + 20 + length copied))). do 2 f_equal. lia.
Qed.
End Next.

(** ** The loop *)

(** [fs] carries the payload [l] of a packet with header [i] from byte [pos] on, in fragments
    of at most [d] bytes, of which all but the last are whole 8-byte units. *)
Inductive fragments (i : ip_hdr) (id : Z) (opts : list Z) (d : nat) (had_mf : bool) :
    nat -> list Z -> list packet -> Prop :=
| fragments_nil pos : fragments i id opts d had_mf pos [] []
| fragments_cons pos chunk rest q fs :
    chunk <> [] -> (length chunk <= d)%nat ->
    (rest <> [] -> (length chunk mod 8 = 0)%nat) ->
    is_fragment i id opts pos chunk (negb (bool_decide (rest = [])) || had_mf) q ->
    fragments i id opts d had_mf (pos + length chunk) rest fs ->
    fragments i id opts d had_mf pos (chunk ++ rest) (q :: fs).

Definition counted (n : nat) (s : frag_state) : frag_state := Nat.iter n count_fragment s.

(** Memory is there for every packet made. *)
Definition memory_ok (env : frag_env) : Prop :=
  is_Some (fe_uniqueify env) /\ fe_clone env = true /\ forall off, is_Some (fe_make env off).

Section Loop.
Context (c : frag_conf) (env : frag_env) (Henv : memory_ok env).
Context (p : packet) (i h : ip_hdr) (opts l : list Z) (id : Z) (had_mf : bool).
Context (Hs : frag_source p h opts l) (Hopts : bytes_ok opts) (Hlen : (length opts <= 40)%nat).
Context (Hal : (length opts mod 4 = 0)%nat) (Hv : i_vhl h = 69 + Z.of_nat (length opts) / 4).
Context (Hmf : mf_flag (ntohs (i_off h)) = true) (Hdf : df_flag (ntohs (i_off h)) = false).
Context (Hfit : off_value (ntohs (i_off h)) + Z.of_nat (length l) / 8 < 8192).
Context (Htot : 20 + Z.of_nat (length opts) + Z.of_nat (length l) < 65536).
Context (Hok : ip_ok i) (Hid : i_id h = id) (Htos : i_tos h = i_tos i) (Httl : i_ttl h = i_ttl i).
Context (Hp : i_p h = i_p i) (Hsrc : i_src h = i_src i) (Hdst : i_dst h = i_dst i).
Context (Hoff : off_value (ntohs (i_off i)) = off_value (ntohs (i_off h))).
Let copied : list Z := optcopy opts.
Let d : Z := room c (length copied).
Context (Hmtu : 0 <= fr_mtu c < 2147483648) (Hd : 8 <= d).

Lemma fragment_loop_run n pos rest s :
  drop pos l = rest -> (length rest <= n)%nat -> (pos <= length l)%nat ->
  exists fs, fragment_loop n c env p opts (Z.of_nat (length l)) had_mf (Z.of_nat pos) s =
      Ok (tt, counted (length fs) s, map (Push 0) fs) /\
    fragments i id copied (Z.to_nat d) had_mf pos rest fs /\
    Forall (fun q => pk_anno q = pk_anno p /\ pk_ptype q = pk_ptype p /\
                     headroom q = fr_headroom c) fs.
Proof.
  revert pos rest s. induction n as [|n IH]; intros pos rest s Hr Hn Hle.
  - destruct rest; [|simpl in Hn; lia]. exists [].
    apply (f_equal length) in Hr. rewrite length_drop in Hr. simpl in Hr.
    cbn [fragment_loop]. destruct (Z.ltb_spec (Z.of_nat pos) (Z.of_nat (length l))); [lia|].
    split; [done|]. split; constructor.
  - cbn [fragment_loop]. assert (Hrl : length rest = (length l - pos)%nat)
      by (rewrite <- Hr; by rewrite length_drop).
    destruct (Z.ltb_spec (Z.of_nat pos) (Z.of_nat (length l))) as [Hlt|Hge].
    2:{ exists []. destruct rest; [|simpl in Hrl; lia]. split; [done|]. split; constructor. }
    destruct (optcopy_length opts) as [_ Hcl]. specialize (Hcl Hal). fold copied in Hcl |- *.
    rewrite room_spec by lia.
    replace (8 * ((fr_mtu c - Z.of_nat (20 + length copied)) / 8)) with d
      by (unfold d, room; do 2 f_equal; lia).
    set (k := Nat.min (Z.to_nat d) (length rest)).
    assert (Hk : (if Z.of_nat (length l) <? d + Z.of_nat pos then Z.of_nat (length l) - Z.of_nat pos
                  else d) = Z.of_nat k).
    { unfold k. destruct (Z.ltb_spec (Z.of_nat (length l)) (d + Z.of_nat pos)); lia. }
    rewrite Hk. set (chunk := take k rest). set (rest' := drop k rest).
    assert (Hck : length chunk = k) by (unfold chunk; rewrite length_take; lia).
    assert (Hcr : rest = chunk ++ rest') by (symmetry; apply take_drop).
    destruct Henv as (_ & _ & Hmem). destruct (Hmem (Z.of_nat pos)) as [m Hm].
    rewrite Hm, Nat2Z.id. unfold make, pool_allocate. cbn [mbind option_bind].
    set (q0 := MkPacket _ _ _ _ _ _ _ _ _).
    assert (Hq0 : plength q0 = (20 + length copied + length chunk)%nat)
      by (unfold q0, plength; cbn [pk_data]; rewrite length_junk; lia).
    destruct (next_fragment_run c p h opts l Hs Hopts Hlen Hal Hv Hmf Hdf Hfit Htot i id q0 pos
      chunk rest' had_mf) as (q' & Eq & Hf & Han & Hpt & Hhr); try done.
    { congruence. }
    { rewrite <- Hcr. destruct rest; [simpl in Hrl; lia|done]. }
    destruct (IH (pos + k)%nat rest' (count_fragment s)) as (fs & El & Hfs & Hall).
    { unfold rest'. rewrite <- Hr. by rewrite drop_drop. }
    { unfold rest'. rewrite length_drop. lia. }
    { lia. }
    exists (q' :: fs). rewrite Hck in Eq. rewrite Nat2Z.inj_add in El. split; [|split].
    + rewrite (hbind_lift_ok (Ok (Some q0)) (Some q0)) by done.
      rewrite (hbind_run _ _ s tt (count_fragment s) [Push 0 q'] tt (counted (length fs) (count_fragment s))
        (map (Push 0) fs)); [|by hrun|exact El].
      unfold counted. by rewrite <- Nat.iter_succ_r.
    + rewrite Hcr. apply fragments_cons; [|lia| |done|by rewrite Hck].
      * intros E0. rewrite E0 in Hck. simpl in Hck. lia.
      * intros Hne. rewrite Hck. unfold k in *. 
        assert (Z.to_nat d < length rest)%nat.
        { destruct (Nat.lt_ge_cases (Z.to_nat d) (length rest)); [done|]. destruct Hne.
          unfold rest'. apply drop_ge. lia. }
        rewrite Nat.min_l by lia. unfold d, room in *.
        replace (8 * ((fr_mtu c - 20 - Z.of_nat (length copied)) / 8)) with
          (Z.of_nat (8 * Z.to_nat ((fr_mtu c - 20 - Z.of_nat (length copied)) / 8))) by lia.
        rewrite Nat2Z.id, Nat.mul_comm. apply Nat.Div0.mod_mul.
    + constructor; [|done]. rewrite Han, Hpt, Hhr. split_and!; try done.
      unfold q0, headroom. cbn [pk_head]. apply length_junk.
Qed.
End Loop.

(** ** [IPFragmenter::push] *)
Section PushFragmenter.
Context (c : frag_conf) (env : frag_env) (p : packet) (i : ip_hdr) (opts l : list Z).
Context (Hp : fragmentable c p i opts l).

Lemma fragmentable_source : frag_source p i opts l.
Proof. by destruct Hp. Qed.

Lemma fragmentable_length : plength p = (20 + length opts + length l)%nat.
Proof. destruct Hp. unfold plength. rewrite fg_data0, !length_app. done. Qed.

Lemma fragmentable_reads :
  nh_hl p = Ok (5 + Z.of_nat (length opts) / 4) /\ nh_getf p ip_len = Ok (i_len i) /\
  nh_getf p ip_off = Ok (htons (ntohs (i_off i))) /\ network_length p = Ok (Z.of_nat (plength p)).
Proof.
  destruct Hp. rewrite (source_getf_off i opts l p fragmentable_source fg_ok0).
  unfold nh_hl. rewrite !marked_getf by done.
  rewrite (getf_val p 0 ip_vhl (i_vhl i)), (getf_val p 0 ip_len (i_len i));
    [|rewrite fg_data0; destruct fg_ok0; wire_eval; by small_words|cbn; lia
     |rewrite fg_data0; destruct fg_ok0; wire_eval; by small_words|cbn; lia].
  rewrite bind_ok. split_and!; try done.
  - rewrite fg_vhl0. f_equal. zdm.
  - unfold network_length. rewrite fg_marked0. cbn [opt_res]. rewrite bind_ok. f_equal. lia.
Qed.

Lemma header_length : Z.shiftl (5 + Z.of_nat (length opts) / 4) 2 = 20 + Z.of_nat (length opts).
Proof.
  destruct Hp. rewrite Z.shiftl_mul_pow2 by lia. change (2 ^ 2) with 4.
  apply (f_equal Z.of_nat) in fg_align0. rewrite Nat2Z.inj_mod in fg_align0. simpl in fg_align0. zdm.
Qed.

Lemma room_first :
  s32 (Z.land (u32 (fr_mtu c - (20 + Z.of_nat (length opts)))) (Z.lnot 7)) =
  room c (length opts).
Proof.
  destruct Hp. rewrite room_spec by lia. unfold room. do 2 f_equal. lia.
Qed.

Lemma payload_total : ntohs (i_len i) - (20 + Z.of_nat (length opts)) = Z.of_nat (length l).
Proof. destruct Hp. unfold ntohs. rewrite fg_len0, htons_inv by lia. lia. Qed.

Lemma fragment_refused s :
  (df_flag (ntohs (i_off i)) && fr_honor_df c) || (room c (length opts) <? 8) = true ->
  fragment c env p s =
  Ok (tt, FragState (fr_fragments s) (u32 (fr_drops s + 1)),
      [if (1 <? fr_noutputs c)%nat then Push 1 p else Kill p]).
Proof.
  intros H. destruct fragmentable_reads as (R1 & R2 & R3 & _). unfold fragment. hrun.
  change IP_DF with (2 ^ 14) at 1. rewrite flag_test by lia. rewrite header_length, room_first.
  change (Z.testbit (ntohs (i_off i)) 14) with (df_flag (ntohs (i_off i))).
  rewrite H. hrun. unfold checked_output_push.
  destruct (1 <? fr_noutputs c)%nat; reflexivity.
Qed.

(** The packet [fragment] works on, and its first fragment. *)
Let x : Z := ntohs (i_off i).
Let d : nat := Z.to_nat (room c (length opts)).
Let h : ip_hdr := frag_hdr_sum i (first_id env i) (first_off x) opts d.
Let worked (q : packet) : packet := set_data (enc_ip h ++ opts ++ l) q.
Let first (q : packet) : packet :=
  ptake (plength (worked q) - (20 + length opts + d)) (clone (worked q)).

Lemma fragment_uniqueify m :
  fe_uniqueify env = Some m ->
  exists q, uniqueify (fe_uniqueify env) p = Ok (Some q) /\ frag_source q i opts l /\
    pk_anno q = pk_anno p /\ pk_ptype q = pk_ptype p.
Proof.
  intros ->. destruct (uniqueify_spec m p) as (q & Eq & _ & Qd & Qa & Qp & _ & Qh & _).
  destruct (uniqueify_pointers _ _ _ Eq) as [Qn Qt]. exists q. split_and!; try done.
  destruct Hp. constructor; [congruence| |by rewrite Qt, Qh|done].
  unfold marked. rewrite Qn, Qh. done.
Qed.

Lemma first_id_range : in16 (first_id env i).
Proof.
  unfold first_id. destruct Hp as [_ [] _ _ _ _ _ _ _ _ _ _ _].
  destruct (df_flag _); [apply u16_range|done].
Qed.

Lemma worked_source q : frag_source q i opts l -> frag_source (clone (worked q)) h opts l.
Proof.
  intros []. constructor; [done..|]. destruct Hp.
  apply frag_hdr_ok; [done|apply first_id_range|done].
Qed.

Lemma first_is_fragment q :
  frag_source q i opts l -> (d < length l)%nat ->
  is_fragment i (first_id env i) opts 0 (take d l) true (first q).
Proof.
  intros Hq Hd. pose proof first_id_range as Hid.
  assert (Hpl : plength (worked q) = (20 + length opts + length l)%nat)
    by (unfold worked; rewrite plength_set_data, !length_app; reflexivity).
  destruct (first_off_spec x ltac:(apply htons_range)) as (Fr & Fo & Fm & Fd).
  destruct (worked_source q Hq) as [_ Wm Wh _]. destruct Hp.
  rewrite <- Fm. apply is_fragment_intro; try done.
  - rewrite Fo. change (Z.of_nat 0 / 8) with 0. by rewrite Z.add_0_r.
  - rewrite length_take, Nat.min_l by lia. unfold first. change (plength (worked q)) with (plength (clone (worked q))).
    rewrite ptake_data by (change (plength (clone (worked q))) with (plength (worked q)); lia).
    change (pk_data (clone (worked q))) with (enc_ip h ++ opts ++ l).
    rewrite !app_assoc, take_app_add' by (rewrite length_app; done). done.
Qed.

Lemma fragment_pushed q fs s :
  uniqueify (fe_uniqueify env) p = Ok (Some q) -> frag_source q i opts l ->
  fe_clone env = true -> fr_mtu c < Z.of_nat (plength p) -> 8 <= room c (length opts) ->
  df_flag x && fr_honor_df c = false ->
  fragment_loop (length l) c env (clone (worked q)) opts (Z.of_nat (length l)) (mf_flag x)
    (Z.of_nat d) (count_fragment s) =
    Ok (tt, counted (length fs) (count_fragment s), map (Push 0) fs) ->
  IPFragmenter_push c env p s =
  Ok (tt, counted (S (length fs)) s,
      map (Push 0) (first q :: fs) ++ [Kill (clone (worked q))]).
Proof.
  intros Eq Hq Hc Hlong Hroom Hdf El.
  destruct fragmentable_reads as (R1 & R2 & R3 & R4).
  pose proof fragmentable_length as Elen. pose proof (fg_mtu _ _ _ _ _ Hp) as Hmtu.
  pose proof (fg_total _ _ _ _ _ Hp) as Htot.
  assert (Hpl : plength (worked q) = plength p)
    by (unfold worked; rewrite plength_set_data, !length_app; cbn; lia).
  assert (Eh : first_header env (20 + Z.of_nat (length opts)) (room c (length opts)) q =
    Ok (worked q, mf_flag x)).
  { destruct Hp. apply first_header_run; try done; [lia|]. unfold room in *. zdm. }
  assert (En : network_header_offset (worked q) = Ok 0).
  { unfold network_header_offset. destruct Hq as [_ Hmq _ _]. unfold marked in Hmq.
    change (pk_nh (worked q)) with (pk_nh q). rewrite Hmq. cbn [opt_res]. rewrite bind_ok.
    f_equal. change (headroom (worked q)) with (headroom q). lia. }
  assert (Ehd : nh_bytes (worked q) (Z.to_nat (20 + Z.of_nat (length opts))) = Ok (enc_ip h ++ opts)).
  { apply marked_header; [by destruct Hq|lia]. }
  assert (Ed : Z.of_nat d = room c (length opts)) by (unfold d; lia).
  assert (d < length l)%nat by (unfold room in *; zdm).
  unfold IPFragmenter_push. hrun. replace (s32 (fr_mtu c)) with (fr_mtu c) by (unfold s32; zdm).
  destruct (Z.leb_spec (Z.of_nat (plength p)) (fr_mtu c)); [lia|].
  unfold fragment. hrun. change IP_DF with (2 ^ 14) at 1. rewrite flag_test by lia.
  rewrite header_length, room_first, payload_total.
  change (Z.testbit (ntohs (i_off i)) 14) with (df_flag x). rewrite Hdf.
  destruct (Z.ltb_spec (room c (length opts)) 8); [lia|]. cbn [orb]. hrun. rewrite Hc. hrun.
  replace (Z.to_nat (u32 _)) with (plength (worked q) - (20 + length opts + d))%nat
    by (rewrite u32_small by lia; lia).
  apply hbind_emit. hrun. change (drop 20 (enc_ip h ++ opts)) with opts.
  rewrite Nat2Z.id, <- Ed.
  pose proof (hbind_run _ (fun _ => hemit (Kill (clone (worked q)))) _ _ _ _ _ _ _ El eq_refl) as Er.
  rewrite Er. unfold counted. by rewrite <- Nat.iter_succ_r.
Qed.
End PushFragmenter.

(** ** Reassembly *)

(** The byte at position [k] of the payload, as a receiver places it that reads the header
    length and the offset of [q]; [base] is the offset of the packet that was cut. *)
Definition frag_byte (base : Z) (q : packet) (k : nat) : option Z :=
  vhl ← rdn 1 (pk_data q) 0;
  off ← rdn 2 (pk_data q) 6;
  let start := Z.to_nat (8 * (off_value (ntohs off) - base)) in
  if (start <=? k)%nat then drop (Z.to_nat (4 * (vhl mod 16))) (pk_data q) !! (k - start)%nat
  else None.

Section Reassembly.
Context (i : ip_hdr) (id : Z) (opts : list Z).
Context (Hal : (length opts mod 4 = 0)%nat) (Hlen : (length opts <= 40)%nat).

Lemma is_fragment_byte pos chunk more q k :
  is_fragment i id opts pos chunk more q -> (pos mod 8 = 0)%nat ->
  frag_byte (off_value (ntohs (i_off i))) q k =
  if (pos <=? k)%nat then chunk !! (k - pos)%nat else None.
Proof.
  intros [(h & Hd & Hok & _ & Hv & _ & _ & _ & _ & _ & _ & _ & Ho & _) _ _] Hp.
  unfold frag_byte. rewrite Hd.
  assert (E1 : rdn 1 (enc_ip h ++ opts ++ chunk) 0 = Some (i_vhl h))
    by (destruct Hok; wire_eval; by small_words).
  assert (E2 : rdn 2 (enc_ip h ++ opts ++ chunk) 6 = Some (i_off h))
    by (destruct Hok; wire_eval; by small_words).
  rewrite E1, E2. cbn [mbind option_bind]. rewrite Ho.
  apply (f_equal Z.of_nat) in Hp, Hal. rewrite Nat2Z.inj_mod in Hp, Hal. simpl in Hp, Hal.
  replace (Z.to_nat (8 * _)) with pos by zdm.
  destruct (pos <=? k)%nat; [|done]. f_equal.
  rewrite app_assoc. apply drop_app_length'. rewrite length_app, Hv.
  change (length (enc_ip h)) with 20%nat. zdm.
Qed.

Lemma fragments_bytes d had_mf pos l fs k b :
  fragments i id opts d had_mf pos l fs -> (l <> [] -> (pos mod 8 = 0)%nat) ->
  (exists q, q ∈ fs /\ frag_byte (off_value (ntohs (i_off i))) q k = Some b) <->
  (pos <= k)%nat /\ l !! (k - pos)%nat = Some b.
Proof.
  intros Hf. induction Hf as [pos|pos chunk rest q fs Hne Hd Hm Hq Hf IH]; intros Hp.
  - split; [intros (q & Hin & _); by apply elem_of_nil in Hin|by intros [_ ?]].
  - assert (Hp8 : (pos mod 8 = 0)%nat) by (apply Hp; by destruct chunk).
    assert (IH' := IH ltac:(intros Hr; specialize (Hm Hr); rewrite Nat.Div0.add_mod, Hp8, Hm; done)).
    clear IH. assert (Hb := is_fragment_byte _ _ _ _ k Hq Hp8).
    split.
    + intros (q' & [->|Hin]%elem_of_cons & E).
      * rewrite Hb in E. destruct (Nat.leb_spec pos k); [|done]. split; [done|].
        by apply lookup_app_l_Some.
      * destruct IH' as [[H1 H2] _]; [by exists q'|]. split; [lia|].
        rewrite lookup_app_r by lia. by replace (k - pos - length chunk)%nat with
          (k - (pos + length chunk))%nat by lia.
    + intros [H1 H2]. destruct (Nat.lt_ge_cases (k - pos) (length chunk)).
      * exists q. split; [by left|]. rewrite Hb. destruct (Nat.leb_spec pos k); [|lia].
        by rewrite lookup_app_l in H2 by done.
      * destruct IH' as [_ IH']. destruct IH' as (q' & Hin & E).
        { split; [lia|]. rewrite lookup_app_r in H2 by done. rewrite <- H2. f_equal. lia. }
        exists q'. split; [by right|done].
Qed.
End Reassembly.

(** A first fragment with the whole header, then the others with the copied options. *)
Lemma reassembles i id opts d e had_mf l q fs k b :
  (length opts mod 4 = 0)%nat -> (length opts <= 40)%nat ->
  is_fragment i id opts 0 (take d l) true q -> (d mod 8 = 0)%nat -> (d < length l)%nat ->
  fragments i id (optcopy opts) e had_mf d (drop d l) fs ->
  (exists q', q' ∈ q :: fs /\ frag_byte (off_value (ntohs (i_off i))) q' k = Some b) <->
  l !! k = Some b.
Proof.
  intros Hal Hlen Hq Hd Hdl Hfs. destruct (optcopy_length opts) as [Hm Hcl]. specialize (Hcl Hal).
  assert (Hf := fragments_bytes i id (optcopy opts) Hm ltac:(lia) _ _ _ _ _ k b Hfs ltac:(done)).
  assert (Hb := is_fragment_byte i id opts Hal Hlen 0 _ _ _ k Hq eq_refl).
  cbn [Nat.leb] in Hb. rewrite Nat.sub_0_r in Hb.
  destruct (Nat.lt_ge_cases k d) as [Hk|Hk].
  - split.
    + intros (q' & [->|Hin]%elem_of_cons & E); [|destruct (proj1 Hf); [by exists q'|lia]].
      rewrite Hb, lookup_take_lt in E by done. done.
    + intros E. exists q. split; [by left|]. by rewrite Hb, lookup_take_lt by done.
  - assert (Hl : drop d l !! (k - d)%nat = l !! k) by (rewrite lookup_drop; f_equal; lia).
    rewrite Hl in Hf. split.
    + intros (q' & [->|Hin]%elem_of_cons & E); [|apply Hf; by exists q'].
      rewrite Hb, lookup_take_ge in E by done. done.
    + intros E. destruct (proj2 Hf) as (q' & ? & ?); [done|]. exists q'. split; [by right|done].
Qed.

(** C20: fragmentation.  Of a well-formed packet longer than the MTU, [IPFragmenter] pushes
    fragments that between them carry exactly the payload, in order: the first has the whole
    header, the others its fields and the options that must be copied; each fits the MTU, is
    whole 8-byte units unless it is the last, has a verifying header checksum, its offset, DF
    clear, and MF set unless it ends an unfragmented packet.  Then the packet is freed.  A
    receiver that places the fragments' bytes at their offsets gets the payload and nothing
    else, whatever order they arrive in. *)
Theorem IPFragmenter_push_fragments c env p i opts l s :
  fragmentable c p i opts l -> memory_ok env ->
  fr_mtu c < Z.of_nat (plength p) -> 8 <= room c (length opts) ->
  df_flag (ntohs (i_off i)) && fr_honor_df c = false ->
  let d := Z.to_nat (room c (length opts)) in
  exists q fs p',
    IPFragmenter_push c env p s =
      Ok (tt, counted (S (length fs)) s, map (Push 0) (q :: fs) ++ [Kill p']) /\
    is_fragment i (first_id env i) opts 0 (take d l) true q /\
    fragments i (first_id env i) (optcopy opts) (Z.to_nat (room c (length (optcopy opts))))
      (mf_flag (ntohs (i_off i))) d (drop d l) fs /\
    (d < length l)%nat /\
    Forall (fun q => pk_anno q = pk_anno p /\ pk_ptype q = pk_ptype p) (q :: fs) /\
    (forall k b,
      (exists q', q' ∈ q :: fs /\ frag_byte (off_value (ntohs (i_off i))) q' k = Some b) <->
      l !! k = Some b).
Proof.
  intros Hp Henv Hlong Hroom Hdf d. pose proof Henv as ([m Hu] & Hc & _).
  destruct (fragment_uniqueify c env p i opts l Hp m Hu) as (q & Eq & Hq & Qa & Qp).
  pose proof (fragmentable_length c p i opts l Hp) as Elen.
  pose proof (worked_source c env p i opts l Hp q Hq) as Hw.
  pose proof (optcopy_length opts) as [_ Hcl]. specialize (Hcl (fg_align _ _ _ _ _ Hp)).
  assert (Hd : (d < length l)%nat) by (unfold d; unfold room in *; destruct Hp; zdm).
  destruct (first_off_spec (ntohs (i_off i)) ltac:(apply htons_range)) as (Fr & Fo & Fm & Fd).
  set (h := frag_hdr_sum i (first_id env i) (first_off (ntohs (i_off i))) opts d) in *.
  assert (Hnh : ntohs (i_off h) = first_off (ntohs (i_off i))) by (apply htons_inv; exact Fr).
  pose proof Hp as [_ Hok Hopts Hpay _ _ Hal Hhl Hv _ Htot Hfit Hmtu].
  destruct (fragment_loop_run c env Henv _ i h opts l (first_id env i) (mf_flag (ntohs (i_off i)))
    Hw Hopts Hhl Hal eq_refl) with (n := length l) (pos := d) (rest := drop d l)
    (s := count_fragment s) as (fs & El & Hfs & Hall); rewrite ?Hnh, ?Fo; try done.
  { unfold room in *. zdm. }
  { rewrite length_drop. lia. }
  { lia. }
  eexists _, fs, _. split; [by apply (fragment_pushed c env p i opts l Hp q fs s)|].
  pose proof (first_is_fragment c env p i opts l Hp q Hq Hd) as Hf.
  split; [exact Hf|]. do 2 (split; [done|]). split.
  - constructor; [by split|]. revert Hall. apply Forall_impl. intros q' (E1 & E2 & _).
    cbn in E1, E2. by rewrite E1, E2, Qa, Qp.
  - intros k b. eapply (reassembles i (first_id env i) opts); try done.
    unfold d, room. rewrite Z2Nat.inj_mul, Nat.mul_comm by (unfold room in *; lia).
    apply Nat.Div0.mod_mul.
Qed.

(** ** A concrete run *)
Definition sample_frag_ip : ip_hdr :=
  IpHdr 69 0 (htons 60) 7 0 64 17 0 16777226 16777227.
Definition sample_payload : list Z := map Z.of_nat (seq 0 40).
Definition sample_long : packet :=
  MkPacket [] (enc_ip sample_frag_ip ++ sample_payload) [] true (replicate anno_size 0) HOST None
    (Some 0) (Some 20).
Definition sample_frag_env : frag_env :=
  FragEnv (Some (fun _ => 0)) true (fun _ => Some (fun _ => 7)) 99.
Definition sample_frag_conf (df : bool) : frag_conf := FragConf df 36 0 2.

Lemma sample_long_fragmentable df : fragmentable (sample_frag_conf df) sample_long sample_frag_ip [] sample_payload.
Proof.
  constructor; try reflexivity; try (cbn; lia).
  - sample_ok.
  - constructor.
  - repeat (constructor; [lia|]). constructor.
Qed.

Theorem IPFragmenter_push_fragments_witness :
  exists q fs p',
    IPFragmenter_push (sample_frag_conf true) sample_frag_env sample_long (FragState 0 0) =
      Ok (tt, counted (S (length fs)) (FragState 0 0), map (Push 0) (q :: fs) ++ [Kill p']).
Proof.
  destruct (IPFragmenter_push_fragments (sample_frag_conf true) sample_frag_env sample_long
    sample_frag_ip [] sample_payload (FragState 0 0) (sample_long_fragmentable true))
    as (q & fs & p' & H & _).
  - split; [by eexists|]. split; [reflexivity|]. intros off. by eexists.
  - reflexivity.
  - discriminate.
  - reflexivity.
  - exists q, fs, p'. exact H.
Defined.

(** a packet that may not be cut (DF is set and honoured), or that no 8 bytes of payload
    fit behind its header, is counted as a drop and leaves, unchanged, by port 1 for an ICMP
    error; without that port it is freed. *)
Theorem IPFragmenter_refuses c env p i opts l s :
  fragmentable c p i opts l -> fr_mtu c < Z.of_nat (plength p) ->
  (df_flag (ntohs (i_off i)) && fr_honor_df c) || (room c (length opts) <? 8) = true ->
  IPFragmenter_push c env p s =
  Ok (tt, FragState (fr_fragments s) (u32 (fr_drops s + 1)),
      [if (1 <? fr_noutputs c)%nat then Push 1 p else Kill p]).
Proof.
  intros Hp Hl H. destruct (fragmentable_reads c p i opts l Hp) as (_ & _ & _ & R).
  pose proof (fg_mtu _ _ _ _ _ Hp). unfold IPFragmenter_push. hrun.
  replace (s32 (fr_mtu c)) with (fr_mtu c) by (unfold s32; zdm).
  destruct (Z.leb_spec (Z.of_nat (plength p)) (fr_mtu c)); [lia|].
  by apply (fragment_refused c env p i opts l).
Qed.

Theorem IPFragmenter_refuses_witness :
  IPFragmenter_push (FragConf true 27 0 1) sample_frag_env sample_long (FragState 0 0) =
  Ok (tt, FragState 0 1, [Kill sample_long]).
Proof.
  apply (IPFragmenter_refuses (FragConf true 27 0 1) sample_frag_env sample_long sample_frag_ip
    [] sample_payload (FragState 0 0)).
  - destruct (sample_long_fragmentable true). constructor; try assumption; cbn; lia.
  - reflexivity.
  - reflexivity.
Defined.

Lemma IPFragmenter_passes c env p s n :
  network_length p = Ok n -> n <= s32 (fr_mtu c) ->
  IPFragmenter_push c env p s = Ok (tt, s, [Push 0 p]).
Proof.
  intros E H. unfold IPFragmenter_push. hrun. apply Z.leb_le in H. rewrite H. reflexivity.
Qed.

(** Bytes behind the IP packet (link padding, say) count towards the decision to fragment but
    not towards the payload: a packet that fits the MTU then leaves as one fragment with MF set
    and a length that takes in the padding. *)
Definition padded_packet : packet :=
  MkPacket [] (enc_ip (IpHdr 69 0 (htons 28) 7 0 64 17 0 16777226 16777227) ++ replicate 26 1) []
    false (replicate anno_size 0) HOST None (Some 0) (Some 20).
Example padding_sets_mf :
  match IPFragmenter_push (sample_frag_conf true) sample_frag_env padded_packet (FragState 0 0) with
  | Ok (_, _, Push 0 q :: _) =>
      (rdn 2 (pk_data q) 2, rdn 2 (pk_data q) 6) = (Some (htons 36), Some (htons IP_MF))
  | _ => False
  end.
Proof. vm_compute. reflexivity. Qed.

(** The result of [clone()] is used unchecked. *)
Example fragment_clone_unchecked :
  IPFragmenter_push (sample_frag_conf true)
    (FragEnv (Some (fun _ => 0)) false (fun _ => None) 0) sample_long (FragState 0 0) =
  Fault NullDeref.
Proof. reflexivity. Qed.
