(* ===== verification/GwOptions.v ===== *)
(** * [IPGWOptions] ([elements/ip/ipgwoptions.cc])

    The router's part in the IP options: record routes and timestamps are extended in place,
    a malformed option sends the packet to an ICMP error.  The theorems take the options as a
    list and show what becomes of each, with RFC 791's treatment as a definition of its own and
    the three cases where the code departs from it spelt out, that nothing else in the packet
    changes, and that the header still verifies. *)
From Stdlib Require Import ZArith Lia.
From stdpp Require Import base list numbers option.
From S2P Require Import Prelude Checksum Packet PacketOps Wire Build Mobility IPPath Fragment.

Definition IPOPT_RR : Z := 7.
Definition IPOPT_TS : Z := 68.

(** The state is [_drops].  [gw_sec] and [gw_msec] are the clock's reading. *)
Record gw_conf : Type := GwConf { gw_preferred : Z; gw_my_addrs : list Z; gw_noutputs : nat }.
Record gw_env : Type := GwEnv { ge_memory : memory; ge_sec : Z; ge_msec : Z }.

(** [IPGWOptions::configure]: the preferred address is one of the router's own. *)
Definition IPGWOptions_configure (myaddr : Z) (otheraddrs : list Z) (noutputs : nat) : gw_conf :=
  GwConf myaddr (otheraddrs ++ [myaddr]) noutputs.

(** [oa[k]] and stores through [woa], from the network header on. *)
Definition oa (n : nat) (q : packet) (k : nat) : res Z :=
  o ← opt_res NullDeref (pk_nh q); pldh n q (Z.to_nat o + k).
Definition woa (n : nat) (k : nat) (v : Z) (q : packet) : res packet :=
  o ← opt_res NullDeref (pk_nh q); psth n q (Z.to_nat o + k) v.
(** [woa[k] += v] *)
Definition woa_add (k : nat) (v : Z) (q : packet) : res packet :=
  x ← oa 1 q k; woa 1 k (u8 (x + v)) q.

(** What an option's processing comes to: the packet, and the offset of an offending byte. *)
Definition gw_result : Type := packet * option nat.

Definition record_route (c : gw_conf) (oi : nat) (xlen : Z) (q : packet) : res gw_result :=
  ptr ← oa 1 q (oi + 2);
  let p := ptr - 1 in
  if (3 <=? p) && (p + 4 <=? xlen) then
    q ← woa 4 (oi + Z.to_nat p) (gw_preferred c) q;
    q ← woa_add (oi + 2) 4 q;
    Ok (q, None)
  else if negb (p =? xlen) then Ok (q, Some 2%nat)
  else Ok (q, None).

Definition gw_ms (env : gw_env) : Z := htonl (u32 (ge_sec env mod 86400 * 1000 + ge_msec env)).

(** An overflowed timestamp option counts it, up to 15. *)
Definition ts_overflow (oi : nat) (oflw flg : Z) (q : packet) : res gw_result :=
  if oflw <? 15 then
    q ← woa 1 (oi + 3) (Z.lor (Z.shiftl (oflw + 1) 4) flg) q;
    Ok (q, None)
  else Ok (q, Some 3%nat).

Definition timestamp (c : gw_conf) (env : gw_env) (oi : nat) (xlen : Z) (q : packet)
  : res gw_result :=
  ptr ← oa 1 q (oi + 2);
  b ← oa 1 q (oi + 3);
  let p := ptr - 1 in
  let oflw := Z.shiftr b 4 in
  let flg := Z.land b 0xf in
  let ms := gw_ms env in
  if p <? 4 then Ok (q, Some 2%nat)
  else if flg =? 0 then
    if p + 4 <=? xlen then
      q ← woa 4 (oi + Z.to_nat p) ms q;
      q ← woa_add (oi + 2) 4 q;
      Ok (q, None)
    else ts_overflow oi oflw flg q
  else if flg =? 1 then
    if p + 8 <=? xlen then
      q ← woa 4 (oi + Z.to_nat p) (gw_preferred c) q;
      q ← woa 4 (oi + Z.to_nat p + 4) ms q;
      q ← woa_add (oi + 2) 8 q;
      Ok (q, None)
    else ts_overflow oi oflw flg q
  else if (flg =? 3) && (p + 8 <=? xlen) then
    addr ← oa 4 q (oi + Z.to_nat p);
    if is_in addr (gw_my_addrs c) then
      q ← woa 4 (oi + Z.to_nat p + 4) ms q;
      q ← woa_add (oi + 2) 8 q;
      Ok (q, None)
    else Ok (q, None)
  else Ok (q, Some 3%nat).

(** How the option loop ends: the packet, whether [wp] is set, and the offset of an offending
    byte; or no memory for [uniqueify]. *)
Inductive gw_exit : Type :=
| GwEnd (q : packet) (wp : bool)
| GwError (q : packet) (wp : bool) (oi : nat)
| GwNoMemory.

Fixpoint options_loop (fuel : nat) (c : gw_conf) (env : gw_env) (hlen : Z) (q : packet)
    (wp : bool) (oi : nat) : res gw_exit :=
  if Z.of_nat oi <? hlen then
    match fuel with
    | O => Ok (GwEnd q wp)
    | S n =>
        type ← oa 1 q oi;
        if type =? IPOPT_NOP then options_loop n c env hlen q wp (oi + 1)
        else if type =? IPOPT_EOL then Ok (GwEnd q wp)
        else
          xlen ← oa 1 q (oi + 1);
          if (xlen <? 2) || (hlen <? Z.of_nat oi + xlen) then Ok (GwError q wp (oi + 1))
          else if negb (type =? IPOPT_RR) && negb (type =? IPOPT_TS) then
            options_loop n c env hlen q wp (oi + Z.to_nat xlen)
          else
            mq ← (if wp then Ok (Some q) else uniqueify (ge_memory env) q);
            match mq with
            | None => Ok GwNoMemory
            | Some q =>
                r ← (if type =? IPOPT_RR then record_route c oi xlen q
                     else timestamp c env oi xlen q);
                match r with
                | (q, None) => options_loop n c env hlen q true (oi + Z.to_nat xlen)
                | (q, Some k) => Ok (GwError q true (oi + k))
                end
            end
    end
  else Ok (GwEnd q wp).

(** [IPGWOptions::handle_options].  [clones] says that other packets were cloned from [p]:
    then [uniqueify] returns a copy, and [p] is still the packet they share. *)
Definition handle_options (c : gw_conf) (env : gw_env) (clones : bool) (p : packet)
  : handler Z event (option packet) :=
  let clones := clones && pk_shared p in
  hlen <-? network_header_length p ;;
  r <-? options_loop (Z.to_nat hlen) c env hlen p false sizeof_click_ip ;;
  match r with
  | GwNoMemory => hret None
  | GwEnd wp false => hret (Some p)
  | GwEnd wp true =>
      wp <-? nh_setf ip_sum 0 wp ;;
      hdr <-? nh_bytes (if clones then p else wp) (Z.to_nat hlen) ;;
      wp <-? nh_setf ip_sum (click_in_cksum hdr) wp ;;
      hret (Some wp)
  | GwError wp w oi =>
      hmodify (fun d => u32 (d + 1)) ;;;
      p <-? set_anno_u8 ICMP_PARAMPROB_ANNO_OFFSET (Z.of_nat oi)
              (if clones || negb w then p else wp) ;;
      checked_output_push (gw_noutputs c) 1 p ;;;
      hret None
  end.

(** [IPGWOptions::simple_action] *)
Definition IPGWOptions_simple_action (c : gw_conf) (env : gw_env) (clones : bool) (p : packet)
  : handler Z event (option packet) :=
  (if has_network_header p then hret tt else hlift (Fault AssertFailed)) ;;;
  hl <-? nh_hl p ;;
  if Z.shiftl hl 2 <=? 20 then hret (Some p) else handle_options c env clones p.

(** ** The options as a router sees them *)

(** Record routes and timestamps are split at their pointer into what is filled and what is
    free; any other option is opaque. *)
Inductive gw_option : Type :=
| RecordRoute (route free : list Z)
| Timestamps (overflow flags : Z) (stamps free : list Z)
| Other (o : ip_option).

Definition as_option (o : gw_option) : ip_option :=
  match o with
  | RecordRoute route free => Opt IPOPT_RR (4 + Z.of_nat (length route) :: route ++ free)
  | Timestamps ovf flg stamps free =>
      Opt IPOPT_TS (5 + Z.of_nat (length stamps) :: 16 * ovf + flg :: stamps ++ free)
  | Other o => o
  end.
Definition gw_enc (o : gw_option) : list Z := enc_option (as_option o).
Definition gw_encs (os : list gw_option) : list Z := mjoin (map gw_enc os).

Definition gw_option_ok (o : gw_option) : Prop :=
  match o with
  | RecordRoute _ _ | Other Nop => True
  | Timestamps ovf flg _ _ => 0 <= ovf < 16 /\ 0 <= flg < 16
  | Other (Opt type _) => 2 <= type < 256 /\ type <> IPOPT_RR /\ type <> IPOPT_TS
  end.

(** Does the router have to write to the option? *)
Definition for_router (o : gw_option) : bool :=
  match o with Other _ => false | _ => true end.

(** What the code makes of one option: its new value, or the offset in it of the error. *)
Definition ts_full (ovf flg : Z) (stamps free : list Z) : gw_option + nat :=
  if ovf <? 15 then inl (Timestamps (ovf + 1) flg stamps free) else inr 3%nat.
Definition treat (c : gw_conf) (env : gw_env) (o : gw_option) : gw_option + nat :=
  let addr := le 4 (gw_preferred c) in
  let ms := le 4 (gw_ms env) in
  match o with
  | RecordRoute route free =>
      if (4 <=? length free)%nat then inl (RecordRoute (route ++ addr) (drop 4 free))
      else if (length free =? 0)%nat then inl o else inr 2%nat
  | Timestamps ovf flg stamps free =>
      if flg =? 0 then
        if (4 <=? length free)%nat then inl (Timestamps ovf flg (stamps ++ ms) (drop 4 free))
        else ts_full ovf flg stamps free
      else if flg =? 1 then
        if (8 <=? length free)%nat
        then inl (Timestamps ovf flg (stamps ++ addr ++ ms) (drop 8 free))
        else ts_full ovf flg stamps free
      else if (flg =? 3) && (8 <=? length free)%nat then
        if is_in (default 0 (rdn 4 free 0)) (gw_my_addrs c)
        then inl (Timestamps ovf flg (stamps ++ take 4 free ++ ms) (drop 8 free))
        else inl o
      else inr 3%nat
  | Other _ => inl o
  end.

(** RFC 791: an option with room for the router's entry gets it, a prespecified timestamp only
    if the next address is the router's; a full record route stays, a full timestamp option counts
    an overflow; too little room for an entry is an error, and so is an overflow of the count.  Other
    flags than 0, 1 and 3 are not defined. *)
Definition stamp_size (flg : Z) : option nat :=
  if flg =? 0 then Some 4%nat else if (flg =? 1) || (flg =? 3) then Some 8%nat else None.
Definition rfc791 (c : gw_conf) (env : gw_env) (o : gw_option) : gw_option + nat :=
  let addr := le 4 (gw_preferred c) in
  let ms := le 4 (gw_ms env) in
  match o with
  | RecordRoute route [] => inl (RecordRoute route [])
  | RecordRoute route free =>
      if (length free <? 4)%nat then inr 2%nat
      else inl (RecordRoute (route ++ addr) (drop 4 free))
  | Timestamps ovf flg stamps free =>
      match stamp_size flg, free with
      | None, _ => inr 3%nat
      | Some _, [] => if ovf =? 15 then inr 3%nat else inl (Timestamps (ovf + 1) flg stamps [])
      | Some n, _ =>
          if (length free <? n)%nat then inr 3%nat
          else if flg =? 0 then inl (Timestamps ovf flg (stamps ++ ms) (drop 4 free))
          else if flg =? 1 then inl (Timestamps ovf flg (stamps ++ addr ++ ms) (drop 8 free))
          else if is_in (default 0 (rdn 4 free 0)) (gw_my_addrs c)
          then inl (Timestamps ovf flg (stamps ++ take 4 free ++ ms) (drop 8 free))
          else inl o
      end
  | Other _ => inl o
  end.

(** Where the code departs from it: with flags 0 or 1, too little room for an entry is counted as
    an overflow; a full option with prespecified addresses is an error. *)
Definition departs (o : gw_option) : bool :=
  match o with
  | Timestamps _ flg _ free =>
      let n := length free in
      if flg =? 0 then (0 <? n)%nat && (n <? 4)%nat
      else if flg =? 1 then (0 <? n)%nat && (n <? 8)%nat
      else (flg =? 3) && (n =? 0)%nat
  | _ => false
  end.
Definition departure (o : gw_option) : gw_option + nat :=
  match o with
  | Timestamps ovf flg stamps free =>
      if flg =? 3 then inr 3%nat
      else if ovf =? 15 then inr 3%nat else inl (Timestamps (ovf + 1) flg stamps free)
  | _ => inl o
  end.

Fixpoint treat_all (c : gw_conf) (env : gw_env) (pos : nat) (os : list gw_option)
  : list gw_option + nat :=
  match os with
  | [] => inl []
  | o :: os' =>
      match treat c env o with
      | inr k => inr (pos + k)%nat
      | inl o1 =>
          match treat_all c env (pos + length (gw_enc o)) os' with
          | inl os1 => inl (o1 :: os1)
          | inr k => inr k
          end
      end
  end.

Lemma ts_full_15 ovf flg stamps free :
  ovf < 16 ->
  ts_full ovf flg stamps free =
  if ovf =? 15 then inr 3%nat else inl (Timestamps (ovf + 1) flg stamps free).
Proof. intros H. unfold ts_full. destruct (Z.ltb_spec ovf 15), (Z.eqb_spec ovf 15); (done || lia). Qed.

Lemma treat_rfc791 c env o :
  gw_option_ok o -> treat c env o = if departs o then departure o else rfc791 c env o.
Proof.
  destruct o as [route free|ovf flg stamps free|o]; intros Ho; [| |done].
  - destruct free as [|x free]; [done|]. cbn [treat departs rfc791].
    destruct (Nat.leb_spec 4 (length (x :: free))), (Nat.ltb_spec (length (x :: free)) 4); (done || lia).
  - destruct Ho as [Ho _]. cbn [treat departs rfc791 departure]. unfold stamp_size.
    rewrite !ts_full_15 by lia.
    destruct (Z.eqb_spec flg 0) as [-> |H0]; [|destruct (Z.eqb_spec flg 1) as [-> |H1];
      [|destruct (Z.eqb_spec flg 3) as [-> |H3]]]; cbn [Z.eqb Pos.eqb orb andb].
    + destruct free as [|x free]; [done|]. rewrite (proj2 (Nat.ltb_lt 0 _)) by (cbn; lia). cbn [andb].
      destruct (Nat.leb_spec 4 (length (x :: free))), (Nat.ltb_spec (length (x :: free)) 4); (done || lia).
    + destruct free as [|x free]; [done|]. rewrite (proj2 (Nat.ltb_lt 0 _)) by (cbn; lia). cbn [andb].
      destruct (Nat.leb_spec 8 (length (x :: free))), (Nat.ltb_spec (length (x :: free)) 8); (done || lia).
    + destruct free as [|x free]; [done|]. rewrite (proj2 (Nat.eqb_neq (length (x :: free)) 0)) by done.
      destruct (Nat.leb_spec 8 (length (x :: free))), (Nat.ltb_spec (length (x :: free)) 8); (done || lia).
    + done.
Qed.

(** ** Loads and stores behind the network header *)
Lemma wrn_front n l v : (n <= length l)%nat -> wrn n l 0 v = le n v ++ drop n l.
Proof.
  revert l v. induction n as [|n IH]; intros l v Hn; [done|].
  destruct l as [|x l]; [simpl in Hn; lia|]. cbn [le drop app].
  change (wrn (S n) (x :: l) 0 v) with
    (<[0%nat := v mod 256]> (wrn n ([x] ++ l) (length [x] + 0) (v / 256))).
  rewrite wrn_app_r, IH by (simpl in Hn; lia). done.
Qed.

Lemma wrn_middle n a l v :
  (n <= length l)%nat -> wrn n (a ++ l) (length a) v = a ++ le n v ++ drop n l.
Proof.
  intros H. rewrite <- (wrn_front n l v) by done. rewrite <- wrn_app_r. by rewrite Nat.add_0_r.
Qed.

Section Header.
Context (q : packet) (hd rest : list Z) (Hm : marked q) (Hd : pk_data q = hd ++ rest).

Lemma oa_at n j v :
  rdn n rest j = Some v -> (0 < n)%nat -> oa n q (length hd + j) = Ok v.
Proof.
  intros H Hn. unfold oa. rewrite Hm. cbn [opt_res]. rewrite bind_ok, Nat2Z.id, pldh_data.
  pose proof (rdn_length _ _ _ _ Hn H).
  rewrite pld_data by (unfold plength; rewrite Hd, length_app; lia).
  apply ld_ok. by rewrite Hd, rdn_app_r.
Qed.
Lemma woa_at n j v :
  (j + n <= length rest)%nat ->
  woa n (length hd + j) v q = Ok (set_data (hd ++ wrn n rest j v) q).
Proof.
  intros H. unfold woa. rewrite Hm. cbn [opt_res]. rewrite bind_ok, Nat2Z.id, psth_data.
  rewrite pst_data by (unfold plength; rewrite Hd, length_app; lia). by rewrite Hd, wrn_app_r.
Qed.
End Header.

Lemma rdn_1 l j v : l !! j = Some v -> rdn 1 l j = Some v.
Proof. unfold rdn. intros ->. cbn. f_equal. lia. Qed.

(** A byte of an option is overwritten. *)
Lemma woa_add_at q hd rest k x v :
  marked q -> pk_data q = hd ++ rest -> rest !! k = Some x ->
  woa_add (length hd + k) v q = Ok (set_data (hd ++ <[k := u8 (x + v)]> rest) q).
Proof.
  intros Hm Hd Hk. unfold woa_add. rewrite (oa_at q hd rest Hm Hd 1 k x) by (by apply rdn_1 || lia).
  rewrite bind_ok, (woa_at q hd rest Hm Hd) by (apply lookup_lt_Some in Hk; lia).
  unfold wrn. rewrite Z.mod_small by apply u8_range. done.
Qed.

(** Filling [n] bytes behind the filled part [a] of an option, then moving its pointer. *)
Lemma fill_slot q hd t x ptr a free tl n m v :
  marked q -> pk_data q = hd ++ (t :: x :: ptr :: a) ++ free ++ tl ->
  (n <= length free)%nat -> 0 <= ptr + m < 256 ->
  (q ← woa n (length hd + (3 + length a)) v q; woa_add (length hd + 2) m q) =
  Ok (set_data (hd ++ (t :: x :: ptr + m :: a) ++ le n v ++ drop n free ++ tl) q).
Proof.
  intros Hm Hd Hn Hp.
  rewrite (woa_at q hd _ Hm Hd) by (rewrite !length_app; cbn [length]; lia).
  replace (3 + length a)%nat with (length (t :: x :: ptr :: a)) by reflexivity.
  rewrite wrn_middle by (rewrite length_app; lia). rewrite bind_ok, drop_app_le by done.
  rewrite (woa_add_at _ hd ((t :: x :: ptr :: a) ++ le n v ++ drop n free ++ tl) 2 ptr) by done.
  rewrite set_data_twice, u8_small by done. reflexivity.
Qed.

Lemma length_gw_enc_rr route free :
  length (gw_enc (RecordRoute route free)) = (3 + length route + length free)%nat.
Proof. unfold gw_enc. cbn [as_option enc_option length]. rewrite length_app. lia. Qed.
Lemma length_gw_enc_ts ovf flg stamps free :
  length (gw_enc (Timestamps ovf flg stamps free)) = (4 + length stamps + length free)%nat.
Proof. unfold gw_enc. cbn [as_option enc_option length]. rewrite length_app. lia. Qed.

Definition treated (q : packet) (hd tl : list Z) (r : gw_option + nat) : gw_result :=
  match r with inl o => (set_data (hd ++ gw_enc o ++ tl) q, None) | inr k => (q, Some k) end.

Lemma record_route_run c env q hd tl route free :
  let o := RecordRoute route free in
  marked q -> pk_data q = hd ++ gw_enc o ++ tl -> (length (gw_enc o) <= 40)%nat ->
  record_route c (length hd) (Z.of_nat (length (gw_enc o))) q =
  Ok (treated q hd tl (treat c env o)).
Proof.
  intros o Hm Hd Hl. unfold o in *. rewrite length_gw_enc_rr in *.
  set (len := 2 + Z.of_nat (length (4 + Z.of_nat (length route) :: route ++ free))).
  assert (Hd' : pk_data q = hd ++ (7 :: len :: 4 + Z.of_nat (length route) :: route) ++ free ++ tl).
  { rewrite Hd. unfold gw_enc. cbn [as_option enc_option app]. by rewrite <- app_assoc. }
  unfold record_route. rewrite (oa_at q hd _ Hm Hd' 1 2 (4 + Z.of_nat (length route)))
    by (by apply rdn_1 || lia). rewrite bind_ok. cbn [treat].
  rewrite (proj2 (Z.leb_le 3 _)) by lia. cbn [andb].
  destruct (Nat.leb_spec 4 (length free)) as [Hf|Hf].
  - rewrite (proj2 (Z.leb_le (_ - 1 + 4) _)) by lia.
    replace (length hd + Z.to_nat (4 + Z.of_nat (length route) - 1))%nat with
      (length hd + (3 + length route))%nat by lia.
    rewrite <- res_bind_assoc.
    rewrite (fill_slot q hd 7 len _ route free tl 4 4 _ Hm Hd') by lia. rewrite bind_ok.
    cbn [treated]. do 4 f_equal. unfold gw_enc. cbn [as_option enc_option app].
    unfold IPOPT_RR, len. f_equal. f_equal; [|f_equal].
    + cbn [length]. rewrite !length_app, length_drop, length_le. lia.
    + rewrite length_app, length_le. lia.
    + by rewrite <- !app_assoc.
  - rewrite (proj2 (Z.leb_gt (_ - 1 + 4) _)) by lia.
    destruct (Nat.eqb_spec (length free) 0) as [E|E].
    + rewrite (proj2 (Z.eqb_eq _ _)) by lia. cbn [negb treated]. by rewrite <- Hd, set_data_id.
    + rewrite (proj2 (Z.eqb_neq _ _)) by lia. done.
Qed.

(** The overflow count and the flags share a byte. *)
Lemma nibbles a b :
  0 <= a -> 0 <= b < 16 ->
  Z.shiftr (16 * a + b) 4 = a /\ Z.land (16 * a + b) 0xf = b /\
  Z.lor (Z.shiftl a 4) b = 16 * a + b.
Proof.
  intros Ha Hb. split; [|split].
  - rewrite Z.shiftr_div_pow2 by lia. change (2 ^ 4) with 16. zdm.
  - change 0xf with (Z.ones 4). rewrite Z.land_ones by lia. change (2 ^ 4) with 16. zdm.
  - apply Z.bits_inj'. intros n Hn. change 16 with (2 ^ 4). rewrite (Z.add_comm (2 ^ 4 * a)).
    rewrite testbit_split by lia. rewrite Z.lor_spec, Z.shiftl_spec by lia.
    destruct (Z.ltb_spec n 4).
    + by rewrite Z.testbit_neg_r by lia.
    + rewrite <- (Z.mod_small b (2 ^ 4)) by lia.
      rewrite Z.mod_pow2_bits_high by lia. apply orb_false_r.
Qed.

Section Timestamp.
Context (c : gw_conf) (env : gw_env) (q : packet) (hd tl : list Z).
Context (ovf flg : Z) (stamps free : list Z).
Let o : gw_option := Timestamps ovf flg stamps free.
Context (Hm : marked q) (Hd : pk_data q = hd ++ gw_enc o ++ tl).
Context (Hl : (length (gw_enc o) <= 40)%nat) (Hok : gw_option_ok o).

Let len : Z := 2 + Z.of_nat (length (5 + Z.of_nat (length stamps) :: 16 * ovf + flg :: stamps ++ free)).

Lemma ts_data :
  pk_data q = hd ++ (68 :: len :: 5 + Z.of_nat (length stamps) :: 16 * ovf + flg :: stamps) ++ free ++ tl.
Proof. rewrite Hd. unfold gw_enc. cbn [o as_option enc_option app]. by rewrite <- app_assoc. Qed.

Lemma ts_reads :
  oa 1 q (length hd + 2) = Ok (5 + Z.of_nat (length stamps)) /\
  oa 1 q (length hd + 3) = Ok (16 * ovf + flg).
Proof. split; apply (oa_at q hd _ Hm ts_data); (by apply rdn_1) || lia. Qed.

Lemma ts_overflow_run :
  ts_overflow (length hd) ovf flg q = Ok (treated q hd tl (ts_full ovf flg stamps free)).
Proof.
  destruct Hok as [Ho Hf]. unfold ts_overflow, ts_full. destruct (Z.ltb_spec ovf 15); [|done].
  rewrite (woa_at q hd _ Hm ts_data) by (cbn; lia). rewrite bind_ok.
  rewrite (proj2 (proj2 (nibbles (ovf + 1) flg ltac:(lia) Hf))). cbn [treated].
  do 4 f_equal. unfold gw_enc, wrn. cbn [as_option enc_option app insert list_insert].
  rewrite Z.mod_small by lia. unfold IPOPT_TS, len. by rewrite <- app_assoc.
Qed.

(** The option with [new] bytes filled in. *)
Lemma ts_filled new n :
  length new = n -> (n <= length free)%nat ->
  (68 :: len :: 5 + Z.of_nat (length stamps) + Z.of_nat n :: 16 * ovf + flg :: stamps) ++
    new ++ drop n free ++ tl =
  gw_enc (Timestamps ovf flg (stamps ++ new) (drop n free)) ++ tl.
Proof.
  intros Hn Hf. unfold gw_enc. cbn [as_option enc_option app]. unfold IPOPT_TS, len.
  f_equal. f_equal; [|f_equal].
  - cbn [length]. rewrite !length_app, length_drop. lia.
  - rewrite length_app. lia.
  - by rewrite <- !app_assoc.
Qed.

Lemma ts_slot :
  Z.to_nat (5 + Z.of_nat (length stamps) - 1) = (4 + length stamps)%nat.
Proof. lia. Qed.

(** Flags 0: a timestamp. *)
Lemma ts_stamp v :
  (4 <= length free)%nat ->
  (q ← woa 4 (length hd + (4 + length stamps)) v q; woa_add (length hd + 2) 4 q) =
  Ok (set_data (hd ++ gw_enc (Timestamps ovf flg (stamps ++ le 4 v) (drop 4 free)) ++ tl) q).
Proof.
  intros Hf. pose proof Hl as Hl'. unfold o in Hl'. rewrite length_gw_enc_ts in Hl'.
  change (4 + length stamps)%nat with (3 + length ((16 * ovf + flg)%Z :: stamps))%nat.
  rewrite (fill_slot q hd 68 len _ (16 * ovf + flg :: stamps) free tl 4 4 v Hm ts_data) by lia.
  by rewrite <- (ts_filled (le 4 v) 4) by done.
Qed.

(** Four bytes [w], put there or found there, and a timestamp behind them. *)
Lemma ts_stamp_behind w v q' :
  length w = 4%nat -> (8 <= length free)%nat -> marked q' ->
  pk_data q' = hd ++ (68 :: len :: 5 + Z.of_nat (length stamps) :: 16 * ovf + flg :: stamps) ++
    w ++ drop 4 free ++ tl ->
  (q ← woa 4 (length hd + (4 + length stamps) + 4) v q'; woa_add (length hd + 2) 8 q) =
  Ok (set_data (hd ++ gw_enc (Timestamps ovf flg (stamps ++ w ++ le 4 v) (drop 8 free)) ++ tl) q').
Proof.
  intros Hw Hf Hm' Hd'. pose proof Hl as Hl'. unfold o in Hl'. rewrite length_gw_enc_ts in Hl'.
  replace (length hd + (4 + length stamps) + 4)%nat with
    (length hd + (3 + length ((16 * ovf + flg)%Z :: stamps ++ w)))%nat
    by (cbn [length]; rewrite length_app; lia).
  rewrite (fill_slot q' hd 68 len (5 + Z.of_nat (length stamps)) (16 * ovf + flg :: stamps ++ w)
    (drop 4 free) tl 4 8 v) by (try exact Hm'; try (rewrite Hd'; cbn [app]; rewrite <- !app_assoc; done);
      rewrite ?length_drop; lia).
  rewrite drop_drop. change (4 + 4)%nat with 8%nat.
  rewrite <- (ts_filled (w ++ le 4 v) 8) by (rewrite ?length_app, ?length_le; lia).
  cbn [app]. by rewrite <- !app_assoc.
Qed.

Lemma timestamp_run :
  timestamp c env (length hd) (Z.of_nat (length (gw_enc o))) q =
  Ok (treated q hd tl (treat c env o)).
Proof.
  destruct ts_reads as [R1 R2]. destruct Hok as [Ho Hf].
  destruct (nibbles ovf flg) as (N1 & N2 & _); [lia..|].
  unfold timestamp. rewrite R1, bind_ok, R2, bind_ok, N1, N2, ts_slot.
  pose proof Hl as Hl'. unfold o in Hl' |- *. rewrite length_gw_enc_ts in Hl'.
  rewrite length_gw_enc_ts.
  rewrite (proj2 (Z.ltb_ge _ 4)) by lia. cbn [treat].
  destruct (flg =? 0).
  { destruct (Nat.leb_spec 4 (length free)) as [H4|H4].
    - rewrite (proj2 (Z.leb_le (_ - 1 + 4) _)) by lia.
      rewrite <- res_bind_assoc, ts_stamp by done. done.
    - rewrite (proj2 (Z.leb_gt (_ - 1 + 4) _)) by lia. apply ts_overflow_run. }
  assert (H8 : (5 + Z.of_nat (length stamps) - 1 + 8 <=? Z.of_nat (4 + length stamps + length free)) =
    (8 <=? length free)%nat).
  { destruct (Nat.leb_spec 8 (length free)); [apply Z.leb_le|apply Z.leb_gt]; lia. }
  rewrite H8. destruct (flg =? 1).
  { destruct (Nat.leb_spec 8 (length free)) as [Hf8|Hf8]; [|apply ts_overflow_run].
    rewrite (woa_at q hd _ Hm ts_data) by (rewrite !length_app; cbn [length]; lia).
    change (4 + length stamps)%nat with (length (68 :: len :: 5 + Z.of_nat (length stamps) ::
      16 * ovf + flg :: stamps)) at 1.
    rewrite wrn_middle, bind_ok, drop_app_le by (rewrite ?length_app; lia).
    rewrite <- res_bind_assoc, (ts_stamp_behind (le 4 (gw_preferred c))) by done.
    by rewrite set_data_twice. }
  destruct (flg =? 3); [|done]. cbn [andb].
  destruct (Nat.leb_spec 8 (length free)) as [Hf8|Hf8]; [|done].
  destruct (rdn_is_some 4 free 0) as [addr Ha]; [lia|].
  rewrite (oa_at q hd _ Hm ts_data 4 (4 + length stamps) addr); [|..|lia].
  2:{ rewrite <- Ha. rewrite <- (rdn_app_l 4 free tl 0) by lia.
      rewrite <- (rdn_app_r 4 (68 :: len :: 5 + Z.of_nat (length stamps) :: 16 * ovf + flg :: stamps)
        (free ++ tl) 0).
      by rewrite Nat.add_0_r. }
  rewrite bind_ok, Ha. cbn [default from_option id].
  destruct (is_in addr (gw_my_addrs c)); [|cbn [treated]; fold o; by rewrite <- Hd, set_data_id].
  rewrite <- res_bind_assoc, (ts_stamp_behind (take 4 free)).
  - done.
  - rewrite length_take. lia.
  - done.
  - done.
  - rewrite (app_assoc (take 4 free)), take_drop. apply ts_data.
Qed.
End Timestamp.

(** ** The option loop *)
Definition kept (p q : packet) : Prop :=
  pk_nh q = pk_nh p /\ pk_h q = pk_h p /\ pk_anno q = pk_anno p /\ pk_ptype q = pk_ptype p /\
  headroom q = headroom p.

Lemma kept_refl p : kept p p.
Proof. by split_and!. Qed.
Lemma kept_set_data p q d : kept p q -> kept p (set_data d q).
Proof. done. Qed.
Lemma kept_trans p q r : kept p q -> kept q r -> kept p r.
Proof. unfold kept. intuition congruence. Qed.
Lemma kept_marked p q : kept p q -> marked p -> marked q.
Proof. intros (H & _ & _ & _ & Hh) Hm. unfold marked. by rewrite H, Hh. Qed.

Lemma uniqueify_kept m p :
  exists q, uniqueify (Some m) p = Ok (Some q) /\ pk_shared q = false /\ pk_data q = pk_data p /\
    kept p q.
Proof.
  destruct (uniqueify_spec m p) as (q & E & ? & ? & ? & ? & _ & ? & _).
  destruct (uniqueify_pointers _ _ _ E). exists q. by split_and!.
Qed.

Lemma treat_length c env o o1 : treat c env o = inl o1 -> length (gw_enc o1) = length (gw_enc o).
Proof.
  destruct o as [route free|ovf flg stamps free|o]; cbn [treat]; unfold ts_full; intros H;
    repeat match type of H with
    | (if ?b then _ else _) = _ => destruct b eqn:?; try discriminate
    end; injection H as <-; rewrite ?length_gw_enc_rr, ?length_gw_enc_ts; try done;
    repeat match goal with H : (_ <=? _)%nat = true |- _ => apply Nat.leb_le in H
                         | H : _ && _ = true |- _ => apply andb_true_iff in H as [? H] end;
    rewrite ?length_app, ?length_drop, ?length_take; cbn [length]; lia.
Qed.

Lemma gw_encs_cons o os : gw_encs (o :: os) = gw_enc o ++ gw_encs os.
Proof. done. Qed.

(** An option for the router: its type and length bytes, and what its handler does. *)
Lemma treat_run c env q hd tl o :
  for_router o = true -> gw_option_ok o -> marked q -> pk_data q = hd ++ gw_enc o ++ tl ->
  (length (gw_enc o) <= 40)%nat ->
  exists type, oa 1 q (length hd) = Ok type /\
    (type =? IPOPT_NOP) = false /\ (type =? IPOPT_EOL) = false /\
    negb (type =? IPOPT_RR) && negb (type =? IPOPT_TS) = false /\
    oa 1 q (length hd + 1) = Ok (Z.of_nat (length (gw_enc o))) /\
    (2 <= length (gw_enc o))%nat /\
    (if type =? IPOPT_RR then record_route c (length hd) (Z.of_nat (length (gw_enc o))) q
     else timestamp c env (length hd) (Z.of_nat (length (gw_enc o))) q) =
    Ok (treated q hd tl (treat c env o)).
Proof.
  intros Hr Hok Hm Hd Hl.
  assert (Ho : forall j x, gw_enc o !! j = Some x -> oa 1 q (length hd + j) = Ok x).
  { intros j x Hj. apply (oa_at q hd _ Hm Hd); [|lia]. apply rdn_1.
    by apply lookup_app_l_Some. }
  assert (H0 := Ho 0%nat). rewrite Nat.add_0_r in H0.
  destruct o as [route free|ovf flg stamps free|o]; [| |done].
  - exists IPOPT_RR. split; [by apply H0|]. do 3 (split; [done|]). split; [|split].
    + apply Ho. rewrite length_gw_enc_rr. unfold gw_enc. cbn. f_equal. rewrite length_app. lia.
    + rewrite length_gw_enc_rr. lia.
    + by apply record_route_run.
  - exists IPOPT_TS. split; [by apply H0|]. do 3 (split; [done|]). split; [|split].
    + apply Ho. rewrite length_gw_enc_ts. unfold gw_enc. cbn. f_equal. rewrite length_app. lia.
    + rewrite length_gw_enc_ts. lia.
    + by apply timestamp_run.
Qed.

(** An option for somebody else: the loop steps over it. *)
Lemma skip_run q hd tl o :
  for_router o = false -> gw_option_ok o -> marked q -> pk_data q = hd ++ gw_enc o ++ tl ->
  (length (gw_enc o) <= 40)%nat ->
  exists type, oa 1 q (length hd) = Ok type /\
    ((type =? IPOPT_NOP) = true /\ length (gw_enc o) = 1%nat \/
     (type =? IPOPT_NOP) = false /\ (type =? IPOPT_EOL) = false /\
     negb (type =? IPOPT_RR) && negb (type =? IPOPT_TS) = true /\
     oa 1 q (length hd + 1) = Ok (Z.of_nat (length (gw_enc o))) /\ (2 <= length (gw_enc o))%nat).
Proof.
  intros Hr Hok Hm Hd Hl.
  assert (Ho : forall j x, gw_enc o !! j = Some x -> oa 1 q (length hd + j) = Ok x).
  { intros j x Hj. apply (oa_at q hd _ Hm Hd); [|lia]. apply rdn_1.
    by apply lookup_app_l_Some. }
  assert (H0 := Ho 0%nat). rewrite Nat.add_0_r in H0.
  destruct o as [| |[|type data]]; [done..| |].
  - exists IPOPT_NOP. split; [by apply H0|]. by left.
  - exists type. destruct Hok as (Ht & H1 & H2). split; [by apply H0|]. right.
    unfold IPOPT_NOP, IPOPT_EOL. split; [by apply Z.eqb_neq; lia|]. split; [by apply Z.eqb_neq; lia|].
    apply Z.eqb_neq in H1, H2. rewrite H1, H2. split; [done|]. split.
    + apply Ho. unfold gw_enc. cbn. f_equal. lia.
    + unfold gw_enc. cbn. lia.
Qed.

Section Loop.
Context (c : gw_conf) (env : gw_env) (Hmem : is_Some (ge_memory env)) (k : nat) (l : list Z).
Let tl : list Z := replicate k IPOPT_EOL ++ l.

(** The loop reads an end-of-list byte, or the end of the header. *)
Lemma options_loop_end fuel hlen q wp hd :
  hlen = Z.of_nat (length hd + k) -> (k <= fuel)%nat -> marked q -> pk_data q = hd ++ tl ->
  options_loop fuel c env hlen q wp (length hd) = Ok (GwEnd q wp).
Proof.
  intros -> Hf Hm Hd. destruct fuel as [|n]; cbn [options_loop].
  { rewrite (proj2 (Z.ltb_ge _ _)) by lia. done. }
  destruct (Z.ltb_spec (Z.of_nat (length hd)) (Z.of_nat (length hd + k))); [|done].
  rewrite <- (Nat.add_0_r (length hd)) at 1.
  rewrite (oa_at q hd tl Hm Hd 1 0 IPOPT_EOL); [|apply rdn_1|lia].
  2:{ unfold tl. destruct k as [|k']; [lia|done]. }
  by rewrite bind_ok.
Qed.

Lemma options_loop_skip n hlen q wp hd o rest :
  for_router o = false -> gw_option_ok o -> marked q -> pk_data q = hd ++ gw_enc o ++ rest ->
  (length (gw_enc o) <= 40)%nat -> Z.of_nat (length hd + length (gw_enc o)) <= hlen ->
  options_loop (S n) c env hlen q wp (length hd) =
  options_loop n c env hlen q wp (length (hd ++ gw_enc o)).
Proof.
  intros Hr Ho Hm Hd Hl Hh. rewrite length_app.
  destruct (skip_run q hd rest o Hr Ho Hm Hd Hl) as (type & R0 & Hcase).
  assert (Hne : (1 <= length (gw_enc o))%nat) by (destruct o as [| |[]]; cbn; lia).
  cbn [options_loop]. rewrite (proj2 (Z.ltb_lt _ _)) by lia. rewrite R0, bind_ok.
  destruct Hcase as [[-> ->]|(-> & -> & H & R1 & H2)]; [done|].
  rewrite R1, bind_ok, H. rewrite (proj2 (Z.ltb_ge _ 2)) by lia.
  rewrite (proj2 (Z.ltb_ge hlen _)) by lia. cbn [orb]. by rewrite Nat2Z.id.
Qed.

Lemma options_loop_treat n hlen q wp hd o rest :
  for_router o = true -> gw_option_ok o -> marked q -> pk_data q = hd ++ gw_enc o ++ rest ->
  (length (gw_enc o) <= 40)%nat -> Z.of_nat (length hd + length (gw_enc o)) <= hlen ->
  (wp = true -> pk_shared q = false) ->
  exists q2, kept q q2 /\ pk_shared q2 = false /\
    options_loop (S n) c env hlen q wp (length hd) =
    match treat c env o with
    | inl o1 => options_loop n c env hlen (set_data (hd ++ gw_enc o1 ++ rest) q2) true
                  (length (hd ++ gw_enc o))
    | inr j => Ok (GwError q2 true (length hd + j))
    end.
Proof.
  intros Hr Ho Hm Hd Hl Hh Hw. rewrite length_app. destruct Hmem as [m Em].
  assert (Hq : exists q2, (if wp then Ok (Some q) else uniqueify (ge_memory env) q) = Ok (Some q2) /\
    pk_shared q2 = false /\ pk_data q2 = pk_data q /\ kept q q2).
  { destruct wp; [exists q; split_and!; try done; by apply Hw|]. rewrite Em. apply uniqueify_kept. }
  destruct Hq as (q2 & Eq & Hs & Hd2 & Hk). exists q2. do 2 (split; [done|]).
  destruct (treat_run c env q hd rest o Hr Ho Hm Hd Hl) as (type & R0 & T1 & T2 & T3 & R1 & H2 & _).
  assert (Hd2' : pk_data q2 = hd ++ gw_enc o ++ rest) by congruence.
  destruct (treat_run c env q2 hd rest o Hr Ho (kept_marked _ _ Hk Hm) Hd2' Hl)
    as (type' & R0' & _ & _ & _ & _ & _ & R).
  assert (type' = type) as ->.
  { rewrite <- (Nat.add_0_r (length hd)) in R0, R0'.
    destruct (rdn_is_some 1 (gw_enc o ++ rest) 0) as [v Hv]; [rewrite length_app; lia|].
    rewrite (oa_at q hd _ Hm Hd 1 0 v Hv) in R0 by lia.
    rewrite (oa_at q2 hd _ (kept_marked _ _ Hk Hm) Hd2' 1 0 v Hv) in R0' by lia. congruence. }
  cbn [options_loop]. rewrite (proj2 (Z.ltb_lt _ _)) by lia. rewrite R0, bind_ok, T1, T2, R1, bind_ok.
  rewrite (proj2 (Z.ltb_ge _ 2)) by lia. rewrite (proj2 (Z.ltb_ge hlen _)) by lia.
  cbn [orb]. rewrite T3, Eq, bind_ok. cbv beta iota. unfold gw_result in *. rewrite R, bind_ok, Nat2Z.id.
  by destruct (treat c env o).
Qed.

Lemma options_loop_run os : Forall gw_option_ok os -> forall fuel hlen q wp hd,
  marked q -> pk_data q = hd ++ gw_encs os ++ tl -> (length (gw_encs os) <= 40)%nat ->
  hlen = Z.of_nat (length hd + length (gw_encs os) + k) ->
  (length (gw_encs os) + k <= fuel)%nat -> (wp = true -> pk_shared q = false) ->
  match treat_all c env (length hd) os with
  | inl os1 => exists q1,
      options_loop fuel c env hlen q wp (length hd) =
        Ok (GwEnd q1 (wp || existsb for_router os)) /\
      pk_data q1 = hd ++ gw_encs os1 ++ tl /\ kept q q1 /\
      length (gw_encs os1) = length (gw_encs os) /\
      (existsb for_router os = false -> q1 = q)
  | inr pos => exists q1 w,
      options_loop fuel c env hlen q wp (length hd) = Ok (GwError q1 w pos) /\ kept q q1 /\
      (w = false -> q1 = q /\ wp = false)
  end.
Proof.
  induction 1 as [|o os Ho Hos IH]; intros fuel hlen q wp hd Hm Hd Hl Hh Hf Hw.
  - cbn [treat_all existsb]. exists q. rewrite orb_false_r. split; [|by split_and!].
    cbn in Hh, Hf. rewrite Nat.add_0_r in Hh. by apply options_loop_end.
  - rewrite gw_encs_cons, length_app in *. rewrite <- app_assoc in Hd.
    assert (Hne : (1 <= length (gw_enc o))%nat) by (destruct o as [| |[]]; cbn; lia).
    destruct fuel as [|n]; [lia|]. cbn [treat_all existsb].
    destruct (for_router o) eqn:Er.
    + destruct (options_loop_treat n hlen q wp hd o _ Er Ho Hm Hd) as (q2 & Hk & Hs & ->);
        [lia..|done|].
      destruct (treat c env o) as [o1|j] eqn:Et; [|by exists q2, true; split_and!].
      pose proof (treat_length _ _ _ _ Et) as Hlo.
      specialize (IH n hlen (set_data (hd ++ gw_enc o1 ++ gw_encs os ++ tl) q2) true (hd ++ gw_enc o1)).
      rewrite length_app, <- app_assoc, Hlo in IH. rewrite length_app.
      specialize (IH (kept_marked _ _ Hk Hm) eq_refl ltac:(lia) ltac:(lia) ltac:(lia) ltac:(done)).
      destruct (treat_all c env (length hd + length (gw_enc o)) os) as [os1|pos].
      * destruct IH as (q1 & El & Hd1 & Hk1 & Hl1 & _). exists q1.
        rewrite gw_encs_cons, length_app, <- app_assoc, orb_true_r, El, Hlo, Hl1.
        split_and!; try done; [|by eapply kept_trans].
        by rewrite Hd1, <- app_assoc.
      * destruct IH as (q1 & w & El & Hk1 & Hw1). exists q1, w. split_and!; [done|by eapply kept_trans|].
        intros E. by destruct (Hw1 E).
    + assert (Et : treat c env o = inl o) by (by destruct o). rewrite Et.
      rewrite (options_loop_skip n hlen q wp hd o _ Er Ho Hm Hd) by lia.
      rewrite app_assoc in Hd.
      specialize (IH n hlen q wp (hd ++ gw_enc o) Hm Hd). rewrite length_app in IH |- *.
      specialize (IH ltac:(lia) ltac:(lia) ltac:(lia) Hw). cbn [orb].
      destruct (treat_all c env (length hd + length (gw_enc o)) os) as [os1|pos]; [|done].
      destruct IH as (q1 & El & Hd1 & Hk1 & Hl1 & He). exists q1.
      rewrite gw_encs_cons, length_app, Hl1, <- app_assoc.
      rewrite <- app_assoc in Hd1. by split_and!.
Qed.
End Loop.

(** ** [IPGWOptions::simple_action] *)
Lemma treat_all_pos c env os pos j :
  treat_all c env pos os = inr j -> (pos <= j < pos + length (gw_encs os))%nat.
Proof.
  revert pos. induction os as [|o os IH]; intros pos; [done|].
  rewrite gw_encs_cons, length_app. cbn [treat_all]. destruct (treat c env o) as [o1|k] eqn:E.
  - specialize (IH (pos + length (gw_enc o))%nat).
    destruct (treat_all c env (pos + length (gw_enc o)) os); [done|]. intros [= ->].
    specialize (IH eq_refl). lia.
  - intros [= <-]. destruct o as [route free|ovf flg stamps free|o]; cbn [treat] in E; unfold ts_full in E;
      repeat match type of E with
      | (if ?b then _ else _) = _ => destruct b; try discriminate
      end; first [discriminate E | injection E as <-]; rewrite ?length_gw_enc_rr, ?length_gw_enc_ts; lia.
Qed.

Lemma bytes_rr route free :
  (length (gw_enc (RecordRoute route free)) <= 40)%nat ->
  bytes_ok (gw_enc (RecordRoute route free)) <-> bytes_ok route /\ bytes_ok free.
Proof.
  rewrite length_gw_enc_rr. intros Hl. unfold gw_enc, IPOPT_RR. cbn [as_option enc_option length].
  rewrite !bytes_ok_cons, bytes_ok_app, length_app. split; [tauto|]. intros [? ?].
  split_and!; try done; lia.
Qed.
Lemma bytes_ts ovf flg stamps free :
  (length (gw_enc (Timestamps ovf flg stamps free)) <= 40)%nat -> 0 <= ovf < 16 -> 0 <= flg < 16 ->
  bytes_ok (gw_enc (Timestamps ovf flg stamps free)) <-> bytes_ok stamps /\ bytes_ok free.
Proof.
  rewrite length_gw_enc_ts. intros Hl. unfold gw_enc, IPOPT_TS. cbn [as_option enc_option length].
  rewrite !bytes_ok_cons, bytes_ok_app, length_app. intros ? ?. split; [tauto|]. intros [? ?].
  split_and!; try done; lia.
Qed.

Lemma inl_eq {A B} (a b : A) : @inl A B a = inl b -> a = b.
Proof. congruence. Qed.

Lemma treat_bytes c env o o1 :
  treat c env o = inl o1 -> (length (gw_enc o) <= 40)%nat -> gw_option_ok o ->
  bytes_ok (gw_enc o) -> bytes_ok (gw_enc o1).
Proof.
  intros E Hl Ho Hb. pose proof (treat_length _ _ _ _ E) as Hl1.
  destruct o as [route free|ovf flg stamps free|o]; cbn [treat] in E; [| |by apply inl_eq in E as <-].
  - apply bytes_rr in Hb as [? ?]; [|done].
    repeat match type of E with
    | (if ?b then _ else _) = _ => destruct b; try discriminate
    end; apply inl_eq in E as <-; apply bytes_rr; try (rewrite Hl1; done); rewrite ?bytes_ok_app;
      auto with bytes.
  - destruct Ho as [Ho Hf]. apply (proj1 (bytes_ts _ _ _ _ Hl Ho Hf)) in Hb as [? ?]. unfold ts_full in E.
    repeat match type of E with
    | (if ?b then _ else _) = _ => destruct b eqn:?; try discriminate
    end; apply inl_eq in E as <-; apply bytes_ts; rewrite ?Hl1; rewrite ?bytes_ok_app;
      repeat match goal with H : (_ <? _) = true |- _ => apply Z.ltb_lt in H end;
      try done; try lia; auto 6 with bytes.
Qed.

Lemma treat_all_bytes c env os pos os1 :
  treat_all c env pos os = inl os1 -> (length (gw_encs os) <= 40)%nat -> Forall gw_option_ok os ->
  bytes_ok (gw_encs os) -> bytes_ok (gw_encs os1).
Proof.
  intros E Hl Ho. revert pos os1 E Hl. induction Ho as [|o os Ho Hos IH]; intros pos os1 E Hl.
  - by injection E as <-.
  - cbn [treat_all] in E. rewrite gw_encs_cons, length_app in Hl.
    destruct (treat c env o) as [o1|] eqn:Et; [|done].
    destruct (treat_all c env (pos + length (gw_enc o)) os) as [os2|] eqn:Ea; [|done].
    injection E as <-. rewrite !gw_encs_cons, !bytes_ok_app. intros [? ?].
    split; [eapply treat_bytes; [done|lia|done..]|]. eapply IH; [done|lia|done].
Qed.

(** A packet whose header carries the options [os], padded by [k] end-of-list bytes. *)
Record optioned (p : packet) (i : ip_hdr) (os : list gw_option) (k : nat) (l : list Z) : Prop := {
  op_data : pk_data p = enc_ip i ++ gw_encs os ++ replicate k IPOPT_EOL ++ l;
  op_ok : ip_ok i;
  op_marked : marked p;
  op_h : pk_h p = Some (Z.of_nat (headroom p + 20 + length (gw_encs os) + k));
  op_align : ((length (gw_encs os) + k) mod 4 = 0)%nat;
  op_len : (length (gw_encs os) + k <= 40)%nat;
  op_vhl : i_vhl i = 69 + Z.of_nat (length (gw_encs os) + k) / 4;
  op_opts : Forall gw_option_ok os;
  op_bytes : bytes_ok (gw_encs os);
  op_anno : length (pk_anno p) = anno_size
}.

Lemma optioned_hlen p i os k l :
  optioned p i os k l ->
  network_header_length p = Ok (Z.of_nat (20 + length (gw_encs os) + k)) /\
  nh_hl p = Ok (5 + Z.of_nat (length (gw_encs os) + k) / 4) /\
  Z.shiftl (5 + Z.of_nat (length (gw_encs os) + k) / 4) 2 =
    Z.of_nat (20 + length (gw_encs os) + k).
Proof.
  intros []. split; [|split].
  - unfold network_header_length. rewrite op_h0, op_marked0. cbn [opt_res]. rewrite !bind_ok.
    f_equal. rewrite u32_small; lia.
  - unfold nh_hl. rewrite marked_getf by done. rewrite (getf_val p 0 ip_vhl (i_vhl i));
      [|rewrite op_data0; destruct op_ok0; wire_eval; by small_words|cbn; lia].
    rewrite bind_ok, op_vhl0. f_equal. zdm.
  - rewrite Z.shiftl_mul_pow2 by lia. change (2 ^ 2) with 4.
    apply (f_equal Z.of_nat) in op_align0. rewrite Nat2Z.inj_mod in op_align0. simpl in op_align0. zdm.
Qed.

(** The checksum of a changed header, written back. *)
Lemma refill_checksum q i o l n :
  marked q -> pk_data q = enc_ip i ++ o ++ l -> n = (20 + length o)%nat ->
  bytes_ok o -> (length o <= 40)%nat ->
  exists s, (q ← nh_setf ip_sum 0 q; hdr ← nh_bytes q n; nh_setf ip_sum (click_in_cksum hdr) q) =
      Ok (set_data (enc_ip (ip_with_sum s i) ++ o ++ l) q) /\
    click_in_cksum (enc_ip (ip_with_sum s i) ++ o) = 0.
Proof.
  intros Hm Hd -> Ho Hl. set (i0 := ip_with_sum 0 i).
  exists (click_in_cksum (enc_ip i0 ++ o)). split.
  - rewrite <- (set_data_id q) at 1. rewrite marked_setf, Hd by done.
    change (enc_ip i) with (enc_ip (IpHdr (i_vhl i) (i_tos i) (i_len i) (i_id i) (i_off i)
      (i_ttl i) (i_p i) (i_sum i) (i_src i) (i_dst i))).
    rewrite set_ip_sum, bind_ok.
    rewrite (marked_header q _ o l) by done. rewrite bind_ok, marked_setf by done. apply set_ip_sum.
  - change (ip_with_sum ?s i) with (ip_with_sum s i0). rewrite enc_ip_with_sum.
    rewrite <- wrn_app_l by (cbn; lia).
    apply fill_verifies; [apply bytes_ok_app; auto with bytes|rewrite length_app; cbn; lia|done| |].
    + rewrite length_app. cbn. lia.
    + rewrite rdn_app_l by (cbn; lia). reflexivity.
Qed.

Section SimpleAction.
Context (c : gw_conf) (env : gw_env) (clones : bool) (p : packet) (i : ip_hdr).
Context (os : list gw_option) (k : nat) (l : list Z).
Context (Hp : optioned p i os k l) (Hmem : is_Some (ge_memory env)).
Context (Hcl : clones && pk_shared p = false).

(** What the loop over the packet's options comes to. *)
Lemma optioned_loop :
  match treat_all c env 20 os with
  | inl os1 => exists q1,
      options_loop (20 + length (gw_encs os) + k) c env (Z.of_nat (20 + length (gw_encs os) + k))
        p false 20 = Ok (GwEnd q1 (existsb for_router os)) /\
      pk_data q1 = enc_ip i ++ gw_encs os1 ++ replicate k IPOPT_EOL ++ l /\ kept p q1 /\
      length (gw_encs os1) = length (gw_encs os) /\ bytes_ok (gw_encs os1) /\
      (existsb for_router os = false -> q1 = p)
  | inr pos => exists q1 w,
      options_loop (20 + length (gw_encs os) + k) c env (Z.of_nat (20 + length (gw_encs os) + k))
        p false 20 = Ok (GwError q1 w pos) /\ kept p q1 /\ (w = false -> q1 = p) /\
      (20 <= pos < 60)%nat
  end.
Proof.
  destruct Hp. pose proof (options_loop_run c env Hmem k l os op_opts0
    (20 + length (gw_encs os) + k) (Z.of_nat (20 + length (gw_encs os) + k)) p false (enc_ip i)
    op_marked0 op_data0 ltac:(lia) eq_refl ltac:(lia) ltac:(done)) as H.
  change (length (enc_ip i)) with 20%nat in H.
  destruct (treat_all c env 20 os) as [os1|pos] eqn:E.
  - destruct H as (q1 & ? & ? & ? & ? & ?). exists q1. split_and!; try done.
    eapply treat_all_bytes; [done|lia|done..].
  - destruct H as (q1 & w & ? & ? & Hw). exists q1, w. apply treat_all_pos in E.
    split_and!; try done; [|lia..]. intros Hf. by destruct (Hw Hf).
Qed.

Lemma handle_options_run d :
  match treat_all c env 20 os with
  | inl os1 => exists q, handle_options c env clones p d = Ok (Some q, d, []) /\
      if existsb for_router os then
        exists s, pk_data q = enc_ip (ip_with_sum s i) ++ gw_encs os1 ++ replicate k IPOPT_EOL ++ l /\
          click_in_cksum (enc_ip (ip_with_sum s i) ++ gw_encs os1 ++ replicate k IPOPT_EOL) = 0 /\
          kept p q
      else q = p
  | inr pos => exists q, handle_options c env clones p d =
        Ok (None, u32 (d + 1), [if (1 <? gw_noutputs c)%nat then Push 1 q else Kill q]) /\
      anno_u8 ICMP_PARAMPROB_ANNO_OFFSET q = Ok (Z.of_nat pos)
  end.
Proof.
  destruct (optioned_hlen p i os k l Hp) as (Eh & _ & _). pose proof optioned_loop as Hloop.
  unfold handle_options. rewrite Hcl. cbv zeta. cbn [orb]. rewrite (hbind_lift_ok _ _ _ _ Eh).
  rewrite Nat2Z.id. change sizeof_click_ip with 20%nat.
  destruct (treat_all c env 20 os) as [os1|pos].
  - destruct Hloop as (q1 & El & Hd & Hk & Hl & Hb & Hsame). rewrite (hbind_lift_ok _ _ _ _ El).
    destruct (existsb for_router os); [|exists p; split; [done|done]].
    assert (Hkb : bytes_ok (gw_encs os1 ++ replicate k IPOPT_EOL)).
    { apply bytes_ok_app. split; [done|]. apply Forall_replicate. unfold IPOPT_EOL. lia. }
    destruct Hp. assert (Hkl : length (gw_encs os1 ++ replicate k IPOPT_EOL) =
      (length (gw_encs os) + k)%nat) by (by rewrite length_app, length_replicate, Hl).
    rewrite (app_assoc (gw_encs os1)) in Hd.
    destruct (refill_checksum q1 i _ l (20 + length (gw_encs os) + k) (kept_marked _ _ Hk op_marked0) Hd)
      as (s & E & Hv); [lia|done|lia|].
    apply res_bind_ok in E as (q2 & E1 & E). apply res_bind_ok in E as (h & E2 & E3).
    exists (set_data (enc_ip (ip_with_sum s i) ++ (gw_encs os1 ++ replicate k IPOPT_EOL) ++ l) q1).
    split; [by hrun|]. exists s. split; [by rewrite <- app_assoc|]. by split.
  - destruct Hloop as (q1 & w & El & Hk & Hw & Hpos). rewrite (hbind_lift_ok _ _ _ _ El).
    exists (set_anno (wrn 1 (pk_anno q1) ICMP_PARAMPROB_ANNO_OFFSET (Z.of_nat pos)) q1).
    assert (Ea : (if negb w then p else q1) = q1) by (destruct w; [done|by rewrite Hw]).
    rewrite Ea. split.
    + hrun. unfold set_anno_u8. change (ICMP_PARAMPROB_ANNO_OFFSET <? anno_size)%nat with true.
      cbv iota. hrun. unfold checked_output_push.
      destruct (1 <? gw_noutputs c)%nat; reflexivity.
    + unfold anno_u8. change (ICMP_PARAMPROB_ANNO_OFFSET <? anno_size)%nat with true. cbv iota.
      apply ld_ok. cbn [pk_anno set_anno]. destruct Hp, Hk as (_ & _ & Ha & _).
      rewrite rdn_wrn_eq by (rewrite Ha, op_anno0; cbv; lia). f_equal. apply Z.mod_small. cbn. lia.
Qed.
End SimpleAction.

(** C21: the IP options a router processes, when there is memory for a copy and the packet is not
    the original of clones ([clone_checksum_lost] is what happens then).  [IPGWOptions] treats each
    record route and timestamp option as RFC 791 asks ([rfc791]) unless [departs]: too little room
    for a timestamp with flags 0 or 1 is counted as an overflow and not an error, and a full option
    with prespecified addresses is an error and not forwarded.  Other options, the rest of the
    header and the payload are unchanged and the header verifies again; a packet with no such
    option is passed on as it is.  When an option is in error, the packet is counted and leaves by
    port 1, annotated with the offset of the offending byte in the IP header. *)
Theorem IPGWOptions_spec c env clones p i os k l d :
  optioned p i os k l -> is_Some (ge_memory env) -> clones && pk_shared p = false ->
  Forall (fun o => treat c env o = if departs o then departure o else rfc791 c env o) os /\
  match treat_all c env 20 os with
  | inl os1 => exists q, IPGWOptions_simple_action c env clones p d = Ok (Some q, d, []) /\
      if existsb for_router os then
        exists s, pk_data q = enc_ip (ip_with_sum s i) ++ gw_encs os1 ++ replicate k IPOPT_EOL ++ l /\
          click_in_cksum (enc_ip (ip_with_sum s i) ++ gw_encs os1 ++ replicate k IPOPT_EOL) = 0 /\
          kept p q
      else q = p
  | inr pos => exists q, IPGWOptions_simple_action c env clones p d =
        Ok (None, u32 (d + 1), [if (1 <? gw_noutputs c)%nat then Push 1 q else Kill q]) /\
      anno_u8 ICMP_PARAMPROB_ANNO_OFFSET q = Ok (Z.of_nat pos)
  end.
Proof.
  intros Hp Hmem Hcl. split.
  { eapply list.Forall_impl; [apply (op_opts _ _ _ _ _ Hp)|intros o; apply treat_rfc791]. }
  pose proof (handle_options_run c env clones p i os k l Hp Hmem Hcl d) as H.
  destruct (optioned_hlen p i os k l Hp) as (_ & E1 & E2).
  assert (Ha : IPGWOptions_simple_action c env clones p d =
    if (length (gw_encs os) + k =? 0)%nat then Ok (Some p, d, []) else handle_options c env clones p d).
  { unfold IPGWOptions_simple_action, has_network_header. rewrite (op_marked _ _ _ _ _ Hp).
    rewrite bool_decide_true by done. hrun. rewrite E2. destruct (Nat.eqb_spec (length (gw_encs os) + k) 0).
    - by rewrite (proj2 (Z.leb_le _ 20)) by lia.
    - by rewrite (proj2 (Z.leb_gt _ 20)) by lia. }
  rewrite Ha. destruct (Nat.eqb_spec (length (gw_encs os) + k) 0) as [E0|]; [|exact H].
  destruct os as [|o os]; [by exists p|]. exfalso. rewrite gw_encs_cons, length_app in E0.
  assert (1 <= length (gw_enc o))%nat by (destruct o as [| |[]]; cbn; lia). lia.
Qed.

(** ** Concrete runs *)
Definition option_header (n len : Z) : ip_hdr :=
  ip_with_sum 0 (IpHdr (69 + n) 0 (htons len) 7 0 64 17 0 16777226 16777227).
Definition option_packet (shared : bool) (h : ip_hdr) (opts l : list Z) : packet :=
  MkPacket [] (enc_ip h ++ opts ++ l) [] shared (replicate anno_size 0) HOST None (Some 0)
    (Some (20 + Z.of_nat (length opts))).
Definition sample_options : list gw_option := [RecordRoute [] (replicate 8 0); Other Nop].
Definition sample_gw : gw_conf := IPGWOptions_configure 16777228 [] 2.
Definition sample_gw_env : gw_env := GwEnv (Some (fun _ => 0)) 3600 5.

Theorem IPGWOptions_spec_witness :
  exists q, IPGWOptions_simple_action sample_gw sample_gw_env true
      (option_packet false (option_header 3 36) (gw_encs sample_options) [9; 9; 9; 9]) 0 =
    Ok (Some q, 0, []).
Proof.
  destruct (IPGWOptions_spec sample_gw sample_gw_env true
    (option_packet false (option_header 3 36) (gw_encs sample_options) [9; 9; 9; 9])
    (option_header 3 36) sample_options 0 [9; 9; 9; 9] 0) as [_ (q & H & _)].
  - constructor; try reflexivity; try (cbn; lia).
    + sample_ok.
    + repeat constructor.
    + change (bytes_ok [7; 11; 4; 0; 0; 0; 0; 0; 0; 0; 0; 1]). solve_bytes.
  - by eexists.
  - reflexivity.
  - exists q. exact H.
Defined.

(** A prespecified-address option whose slots have all been stamped is an error, at every
    further router. *)
Example full_prespecified :
  treat sample_gw sample_gw_env (Timestamps 0 3 [10; 0; 0; 1; 0; 0; 0; 5] []) = inr 3%nat.
Proof. reflexivity. Qed.

(** A packet other packets were cloned from: the checksum that goes into the copy is that of the
    original's header, untouched and with its own checksum in it. *)
Definition cloned_from : packet :=
  let h := option_header 2 32 in let opts := [7; 7; 4; 0; 0; 0; 0; 0] in
  option_packet true (ip_with_sum (click_in_cksum (enc_ip h ++ opts)) h) opts [9; 9; 9; 9].
Example clone_checksum_lost :
  match IPGWOptions_simple_action sample_gw sample_gw_env true cloned_from 0 with
  | Ok (Some q, _, _) =>
      rdn 2 (pk_data q) 10 = Some 0 /\ (click_in_cksum (take 28 (pk_data q)) =? 0) = false
  | _ => False
  end.
Proof. vm_compute. split; reflexivity. Qed.

(** A timestamp option of three bytes: its flags are read, and its overflow count is written,
    in the byte behind it, here the first one of the payload. *)
Example short_timestamp_writes_payload :
  match IPGWOptions_simple_action sample_gw sample_gw_env false
    (option_packet false (option_header 1 28) [1; 68; 3; 5] [0; 9; 9; 9]) 0 with
  | Ok (Some q, _, _) => drop 24 (pk_data q) = [16; 9; 9; 9]
  | _ => False
  end.
Proof. vm_compute. reflexivity. Qed.
