(* ===== verification/IcmpError.v ===== *)
(** * [ICMPError] ([elements/icmp/icmperror.cc])

    The element behind the second outputs of the forwarding path: it turns a packet that could
    not be forwarded into the ICMP error for its source, and frees it.  The theorems show which
    packets it never answers (RFC 1812 4.3.2.7) and what the answer to the others is. *)
From Stdlib Require Import ZArith Lia.
From stdpp Require Import base list numbers option.
From S2P Require Import Prelude Checksum Packet Wire Build Mobility IPPath Fragment GwOptions.

Definition IP_PROTO_ICMP : Z := 1.
Definition ICMP_UNREACH : Z := 3.
Definition ICMP_SOURCEQUENCH : Z := 4.
Definition ICMP_REDIRECT : Z := 5.
Definition ICMP_TIMXCEED : Z := 11.
Definition ICMP_PARAMPROB : Z := 12.
Definition ICMP_UNREACH_NEEDFRAG : Z := 4.
Definition ICMP_PARAMPROB_ERRATPTR : Z := 0.
Definition IP_OFFMASK : Z := 0x1fff.

(** The members of [click_icmp] and of its variants. *)
Definition icmp_padding : field := Field 4 4.
Definition icmp_pointer : field := Field 4 1.
Definition icmp_gateway : field := Field 4 4.
Definition icmp_nextmtu : field := Field 6 2.

Record icmp_conf : Type := IcmpConf {
  ie_src_ip : Z; ie_type : Z; ie_code : Z; ie_bad_addrs : list Z; ie_mtu : Z; ie_pmtu : Z;
  ie_use_fix_anno : bool
}.

Definition is_error_type (type : Z) : bool :=
  (type =? ICMP_UNREACH) || (type =? ICMP_SOURCEQUENCH) || (type =? ICMP_REDIRECT)
  || (type =? ICMP_TIMXCEED) || (type =? ICMP_PARAMPROB).

(** The checks of [ICMPError::configure] on the parsed arguments. *)
Definition ICMPError_configure (src_ip type code : Z) (bad_addrs : list Z) (mtu pmtu : Z)
    (use_fix_anno : bool) : option icmp_conf :=
  if (type <? 0) || (255 <? type) then None
  else if negb (is_error_type type) then None
  else if (code <? 0) || (255 <? code) then None
  else Some (IcmpConf src_ip type code bad_addrs mtu pmtu use_fix_anno).

Definition unicast (c : icmp_conf) (a : Z) : bool :=
  let ha := ntohl a in
  if ha =? 0xffffffff then false
  else if Z.land ha 0xf0000000 =? 0xe0000000 then false
  else if is_in a (ie_bad_addrs c) then false
  else true.

Definition valid_source (c : icmp_conf) (a : Z) : bool :=
  let ha := ntohl a in
  let net := Z.land (Z.shiftr ha 24) 0xff in
  if negb (unicast c a) then false
  else if net =? 0 then false
  else if net =? 127 then false
  else if Z.land net 0xf0 =? 0xf0 then false
  else true.

(** The offset of a source route option with a usable pointer, from the IP header on. *)
Fixpoint valid_source_route_loop (fuel : nat) (p : packet) (hlen : Z) (oi : nat)
  : res (option nat) :=
  if Z.of_nat oi <? hlen then
    match fuel with
    | O => Ok None
    | S n =>
        type ← oa 1 p oi;
        if type =? IPOPT_NOP then valid_source_route_loop n p hlen (oi + 1)
        else if type =? IPOPT_EOL then Ok None
        else
          xlen ← oa 1 p (oi + 1);
          if (xlen <? 2) || (hlen <? Z.of_nat oi + xlen) then Ok None
          else
            found ← (if (type =? IPOPT_LSRR) || (type =? IPOPT_SSRR) then
                       ptr ← oa 1 p (oi + 2);
                       Ok ((4 <=? ptr) && (ptr mod 4 =? 0) && (ptr <=? xlen + 1))
                     else Ok false);
            if (found : bool) then Ok (Some oi)
            else valid_source_route_loop n p hlen (oi + Z.to_nat xlen)
    end
  else Ok None.
Definition valid_source_route (p : packet) : res (option nat) :=
  hl ← nh_hl p;
  let hlen := Z.shiftl hl 2 in
  valid_source_route_loop (Z.to_nat hlen) p hlen sizeof_click_ip.

(** The guards of [simple_action]: [None] when the packet must not be answered, else the source
    route to reverse, if any. *)
Definition ICMPError_guards (c : icmp_conf) (p : packet) : res (option (option nat)) :=
  if negb (has_network_header p) then Ok None
  else
    hl ← nh_hl p;
    let hlen := Z.shiftl hl 2 in
    proto ← nh_getf p ip_p;
    icmp_error ← (if proto =? IP_PROTO_ICMP then
                    if Z.of_nat (plength p) <? hlen + 4 then Ok true
                    else
                      h ← opt_res NullDeref (pk_h p);
                      type ← pldh 1 p (Z.to_nat h + f_off icmp_type);
                      Ok (is_error_type type)
                  else Ok false);
    if icmp_error : bool then Ok None
    else
      dst ← nh_getf p ip_dst;
      if negb (unicast c dst) then Ok None
      else if bool_decide (pk_ptype p = BROADCAST) || bool_decide (pk_ptype p = MULTICAST)
      then Ok None
      else
        src ← nh_getf p ip_src;
        if negb (valid_source c src) then Ok None
        else
          off ← nh_getf p ip_off;
          if negb (Z.land off (htons IP_OFFMASK) =? 0) then Ok None
          else
            route ← valid_source_route p;
            match route with
            | None => Ok (Some None)
            | Some oi =>
                if ie_type c =? ICMP_REDIRECT then Ok None
                else if (ie_type c =? ICMP_PARAMPROB) && (ie_code c =? ICMP_PARAMPROB_ERRATPTR) then
                  a ← anno_u8 ICMP_PARAMPROB_ANNO_OFFSET p;
                  xlen ← oa 1 p (oi + 1);
                  Ok (Some (if (Z.of_nat oi <=? a) && (a <? Z.of_nat oi + xlen) then None
                            else Some oi))
                else Ok (Some (Some oi))
            end.

(** The loop that copies the addresses of the route at [oi], the last one first. *)
Fixpoint copy_route (fuel : nat) (p : packet) (oi : nat) (oo : Z) (o : nat) (q : packet)
  : res packet :=
  match fuel with
  | O => Ok q
  | S n =>
      if Z.of_nat (oi + 3) <=? oo then
        a ← oa 4 p (Z.to_nat oo);
        q ← pst 4 q o a;
        copy_route n p oi (oo - 4) (o + 4) q
      else Ok q
  end.

(** The reversed source route, behind the new header; the result is the value for [ip_hl]. *)
Definition reverse_route (p : packet) (oi : nat) (q : packet) : res (packet * Z) :=
  ptr ← oa 1 p (oi + 2);
  let olen := ptr - 1 in
  type ← oa 1 p oi;
  q ← pst 1 q 20 type;
  q ← pst 1 q 21 (u8 olen);
  q ← pst 1 q 22 4;
  q ← pst 1 q (20 + Z.to_nat olen) IPOPT_EOL;
  q ← copy_route (Z.to_nat ptr) p oi (Z.of_nat oi + ptr - 5) 23 q;
  Ok (q, Z.shiftr (20 + olen + 3) 2).

Definition prepare_ip (c : icmp_conf) (id : Z) (p : packet) (route : option nat) (q : packet)
  : res packet :=
  q ← set_ip_v 0 4 q;
  q ← setf 0 ip_tos 0 q;
  q ← setf 0 ip_id (htons (u16 id)) q;
  q ← setf 0 ip_off 0 q;
  q ← setf 0 ip_ttl 200 q;
  q ← setf 0 ip_p IP_PROTO_ICMP q;
  q ← setf 0 ip_sum 0 q;
  q ← setf 0 ip_src (ie_src_ip c) q;
  src ← nh_getf p ip_src;
  q ← setf 0 ip_dst src q;
  qh ← match route with
       | Some oi => reverse_route p oi q
       | None => Ok (q, Z.shiftr 20 2)
       end;
  q ← set_ip_hl 0 (snd qh) (fst qh);
  hl ← get_ip_hl q 0;
  set_network_header (Z.of_nat (headroom q)) (Z.shiftl hl 2) q.

Definition prepare_icmp (c : icmp_conf) (p : packet) (icp : nat) (q : packet) : res packet :=
  q ← setf icp icmp_type (ie_type c) q;
  q ← setf icp icmp_code (ie_code c) q;
  q ← setf icp icmp_cksum 0 q;
  q ← setf icp icmp_padding 0 q;
  q ← (if (ie_type c =? ICMP_PARAMPROB) && (ie_code c =? ICMP_PARAMPROB_ERRATPTR) then
         a ← anno_u8 ICMP_PARAMPROB_ANNO_OFFSET p; setf icp icmp_pointer a q
       else Ok q);
  q ← (if ie_type c =? ICMP_REDIRECT then
         a ← opt_res OutOfBounds (dst_ip_anno p); setf icp icmp_gateway a q
       else Ok q);
  if (ie_type c =? ICMP_UNREACH) && (ie_code c =? ICMP_UNREACH_NEEDFRAG) then
    setf icp icmp_nextmtu (htons (u16 (ie_pmtu c))) q
  else Ok q.

(** Copying the packet, then the checksums, the length and the annotations. *)
Definition finish_icmp (c : icmp_conf) (p : packet) (icp : nat) (q : packet) : res packet :=
  n ← network_length p;
  let xlen := u32 (Z.of_nat (plength q) - Z.of_nat (icp + 8)) in
  let cut := n <? s32 xlen in
  let q := if cut then ptake (Z.to_nat (u32 (xlen - n))) q else q in
  let xlen := if cut then u32 n else xlen in
  body ← nh_bytes p (Z.to_nat xlen);
  q ← pcpy (icp + 8) body q;
  dgram ← pbytes q icp (8 + Z.to_nat xlen);
  q ← setf icp icmp_cksum (click_in_cksum dgram) q;
  nlen ← network_length q;
  q ← setf 0 ip_len (htons (u16 nlen)) q;
  hl ← get_ip_hl q 0;
  hdr ← pbytes q 0 (Z.to_nat (Z.shiftl hl 2));
  q ← setf 0 ip_sum (click_in_cksum hdr) q;
  dst ← getf q 0 ip_dst;
  let q := set_dst_ip_anno dst q in
  if ie_use_fix_anno c then set_anno_u8 FIX_IP_SRC_ANNO_OFFSET 1 q else Ok q.

(** [ICMPError::simple_action]; the state is its static [id]. *)
Definition ICMPError_simple_action (mem : memory) (c : icmp_conf) (p : packet)
  : handler Z event (option packet) :=
  g <-? ICMPError_guards c p ;;
  mq <--
    match g with
    | None => hret None
    | Some route =>
        mq <-? make mem default_headroom None (Z.to_nat (ie_mtu c)) 0 ;;
        match mq with
        | None => hret None
        | Some q =>
            id <-- hget ;;
            hput (s32 (id + 1)) ;;;
            q <-? prepare_ip c id p route q ;;
            h <-? transport_header_offset q ;;
            let icp := Z.to_nat h in
            q <-? prepare_icmp c p icp q ;;
            q <-? finish_icmp c p icp q ;;
            hret (Some q)
        end
    end ;;
  hemit (Kill p) ;;;
  hret mq.

(** ** Packets that are never answered *)

(** What RFC 1812 4.3.2.7 allows an ICMP error for. *)
Record answerable (c : icmp_conf) (p : packet) : Prop := {
  an_header : has_network_header p = true;
  an_type : pk_ptype p <> BROADCAST /\ pk_ptype p <> MULTICAST;
  an_dst : exists dst, nh_getf p ip_dst = Ok dst /\ ntohl dst <> 0xffffffff /\
    ntohl dst / 268435456 <> 14 /\ ~ In dst (ie_bad_addrs c);
  an_src : exists src, nh_getf p ip_src = Ok src /\ ~ In src (ie_bad_addrs c) /\
    let net := ntohl src / 16777216 in net <> 0 /\ net <> 127 /\ net < 224;
  an_fragment : exists off, nh_getf p ip_off = Ok off /\ off_value (ntohs off) = 0;
  an_error : nh_getf p ip_p = Ok IP_PROTO_ICMP ->
    exists h type, pk_h p = Some h /\ pldh 1 p (Z.to_nat h) = Ok type /\ is_error_type type = false
}.

(** The top bits of a 32-bit word, as the masks select them. *)
Lemma land_high a n :
  0 <= a < 4294967296 -> 0 <= n <= 32 ->
  Z.land a (Z.shiftl (Z.ones (32 - n)) n) = Z.shiftl (a / 2 ^ n) n.
Proof.
  intros Ha Hn. apply Z.bits_inj'. intros k Hk.
  rewrite Z.land_spec, !Z.shiftl_spec by lia.
  destruct (Z.lt_ge_cases k n) as [Hlt|Hge].
  - by rewrite !(Z.testbit_neg_r _ (k - n)), andb_false_r by lia.
  - rewrite Z.div_pow2_bits by lia. replace (k - n + n) with k by lia.
    destruct (Z.lt_ge_cases k 32) as [H32|H32].
    + rewrite Z.ones_spec_low by lia. apply andb_true_r.
    + rewrite <- (Z.mod_small a (2 ^ 32)) at 1 2 by (change (2 ^ 32) with 4294967296; lia).
      rewrite Z.mod_pow2_bits_high by lia. done.
Qed.

Lemma unicast_spec c a :
  0 <= a < 4294967296 ->
  unicast c a = true <->
  ntohl a <> 0xffffffff /\ ntohl a / 268435456 <> 14 /\ ~ In a (ie_bad_addrs c).
Proof.
  intros Ha. unfold unicast. pose proof (htonl_range a). fold (ntohl a) in H.
  change 0xf0000000 with (Z.shiftl (Z.ones (32 - 28)) 28). rewrite land_high by lia.
  rewrite Z.shiftl_mul_pow2 by lia. change (2 ^ 28) with 268435456.
  destruct (Z.eqb_spec (ntohl a) 0xffffffff); [split; [done|tauto]|].
  destruct (Z.eqb_spec (ntohl a / 268435456 * 268435456) 0xe0000000).
  { split; [done|]. intros (_ & H1 & _). lia. }
  destruct (is_in a (ie_bad_addrs c)) eqn:E.
  - apply is_in_spec in E. split; [done|tauto].
  - split; [|done]. intros _. split; [done|]. split; [lia|]. intros H1%is_in_spec. congruence.
Qed.

Lemma class_e net : 0 <= net < 256 -> (Z.land net 0xf0 =? 0xf0) = (240 <=? net).
Proof.
  intros Hn.
  assert (H : forallb (fun k => Bool.eqb (Z.land k 0xf0 =? 0xf0) (240 <=? k))
    (map Z.of_nat (seq 0 256)) = true) by (vm_compute; reflexivity).
  rewrite forallb_forall in H. apply Bool.eqb_prop, H. apply in_map_iff.
  exists (Z.to_nat net). split; [lia|]. apply in_seq. lia.
Qed.

Lemma valid_source_spec c a :
  0 <= a < 4294967296 ->
  valid_source c a = true <->
  ~ In a (ie_bad_addrs c) /\ let net := ntohl a / 16777216 in net <> 0 /\ net <> 127 /\ net < 224.
Proof.
  intros Ha. pose proof (unicast_spec c a Ha) as Hu. pose proof (htonl_range a) as Hr.
  fold (ntohl a) in Hr. unfold valid_source. cbv zeta.
  assert (En : Z.land (Z.shiftr (ntohl a) 24) 0xff = ntohl a / 16777216).
  { change 0xff with (Z.ones 8). rewrite Z.land_ones, Z.shiftr_div_pow2 by lia.
    change (2 ^ 8) with 256. change (2 ^ 24) with 16777216. apply Z.mod_small. zdm. }
  rewrite En. assert (Hn : 0 <= ntohl a / 16777216 < 256) by zdm.
  assert (H14 : ntohl a / 268435456 = ntohl a / 16777216 / 16) by (by rewrite Z.div_div by lia).
  rewrite H14 in Hu. rewrite class_e by done.
  assert (Hff : ntohl a = 0xffffffff -> ntohl a / 16777216 = 255) by (intros ->; reflexivity).
  set (net := ntohl a / 16777216) in *. clearbody net.
  destruct (unicast c a) eqn:Eu; cbn [negb].
  - destruct Hu as [Hu _]. specialize (Hu eq_refl) as (H1 & H2 & H3).
    destruct (Z.eqb_spec net 0); [split; [done|lia]|].
    destruct (Z.eqb_spec net 127); [split; [done|lia]|].
    destruct (Z.leb_spec 240 net); [split; [done|lia]|].
    split; [|done]. intros _. split; [done|]. zdm.
  - destruct Hu as [_ Hu]. split; [done|]. intros (H1 & H2 & H3 & H4).
    discriminate Hu. split_and!; [intros E; specialize (Hff E); lia|zdm|done].
Qed.

Lemma first_fragment_spec off :
  0 <= off < 65536 -> (Z.land off (htons IP_OFFMASK) =? 0) = (off_value (ntohs off) =? 0).
Proof.
  intros Ho. rewrite <- (htons_inv off) at 1 by done. rewrite <- htons_land.
  assert (Hv : Z.land (htons off) IP_OFFMASK = off_value (ntohs off)).
  { change IP_OFFMASK with (Z.ones 13). by rewrite Z.land_ones by lia. }
  rewrite Hv. pose proof (Z.mod_pos_bound (ntohs off) 8192 ltac:(lia)) as Hb.
  fold (off_value (ntohs off)) in Hb. set (v := off_value (ntohs off)) in *. clearbody v.
  destruct (Z.eqb_spec v 0) as [->|Hne]; [done|]. apply Z.eqb_neq.
  intros H%(proj1 (htons_zero v ltac:(lia))). done.
Qed.

Lemma nh_getf_range p f v :
  pk_wf p -> nh_getf p f = Ok v -> 0 <= v < pow256 (f_width f).
Proof.
  intros [] H. unfold nh_getf in H. destruct (pk_nh p) as [o|]; [|done]. cbn [opt_res] in H.
  rewrite bind_ok in H. apply ld_inv in H. eapply rdn_range; [|done].
  unfold pmem. rewrite !bytes_ok_app. by split_and!.
Qed.

Lemma guards_answerable c p r :
  pk_wf p -> ICMPError_guards c p = Ok (Some r) -> answerable c p.
Proof.
  intros Hwf H. unfold ICMPError_guards in H.
  destruct (has_network_header p) eqn:Hn; [|done]. cbn [negb] in H.
  apply res_bind_ok in H as (hl & _ & H). apply res_bind_ok in H as (proto & Hproto & H).
  apply res_bind_ok in H as (e & He & H). destruct e; [done|].
  apply res_bind_ok in H as (dst & Hdst & H). destruct (unicast c dst) eqn:Hu; [|done].
  cbn [negb] in H. destruct (_ || _) eqn:Ht; [done|]. apply orb_false_iff in Ht as [Ht1 Ht2].
  apply bool_decide_eq_false in Ht1, Ht2.
  apply res_bind_ok in H as (src & Hsrc & H). destruct (valid_source c src) eqn:Hv; [|done].
  cbn [negb] in H. apply res_bind_ok in H as (off & Hoff & H).
  pose proof (nh_getf_range _ _ _ Hwf Hoff) as Ho. rewrite first_fragment_spec in H by done.
  destruct (Z.eqb_spec (off_value (ntohs off)) 0) as [Hz|]; [|done].
  apply unicast_spec in Hu as (? & ? & ?); [|exact (nh_getf_range _ _ _ Hwf Hdst)].
  apply valid_source_spec in Hv as (? & ?); [|exact (nh_getf_range _ _ _ Hwf Hsrc)].
  constructor; [done|done|by exists dst|by exists src|by exists off|].
  intros Hp. rewrite Hp in Hproto. injection Hproto as <-. cbn in He.
  destruct (_ <? _); [done|]. apply res_bind_ok in He as (h & Hh & He).
  apply res_bind_ok in He as (type & Htype & He). injection He as He.
  exists h, type. destruct (pk_h p); [|done]. injection Hh as ->.
  split; [done|]. split; [|done]. by rewrite Nat.add_0_r in Htype.
Qed.

(** no ICMP error is ever sent about an ICMP error, a broadcast or multicast packet (at
    the IP or the link layer), a packet from an address that cannot be answered (net 0, 127,
    class D or E, or configured), or a fragment other than the first.  Whatever happens, the
    packet itself is freed, once, and nothing else is. *)
Theorem ICMPError_answers mem c p id r id' t :
  pk_wf p -> ICMPError_simple_action mem c p id = Ok (r, id', t) ->
  t = [Kill p] /\ (is_Some r -> answerable c p /\ id' = s32 (id + 1)).
Proof.
  intros Hwf H. unfold ICMPError_simple_action in H.
  apply hbind_inv in H as (g & s1 & t1 & t2 & Hg & H & ->).
  apply hlift_inv in Hg as (Hg & -> & ->).
  apply hbind_inv in H as (mq & s2 & t3 & t4 & Hm & H & ->). injection H as <- <- <-.
  destruct g as [route|].
  2:{ injection Hm as <- <- <-. split; [done|]. by intros [? ?]. }
  apply guards_answerable in Hg; [|done].
  apply hbind_inv in Hm as (o & s3 & t1 & t2 & Ho & Hm & ->). apply hlift_inv in Ho as (_ & -> & ->).
  destruct o as [q|].
  2:{ injection Hm as <- <- <-. split; [done|]. by intros [? ?]. }
  rewrite hbind_get, hbind_put in Hm.
  repeat (apply hbind_inv in Hm as (? & ? & ? & ? & Ho & Hm & ->); apply hlift_inv in Ho as (_ & -> & ->)).
  injection Hm as <- <- <-. by split.
Qed.

(** ** Building the answer *)
Record icmp_hdr : Type := IcmpHdr { ic_type : Z; ic_code : Z; ic_cksum : Z; ic_rest : Z }.
Definition enc_icmp (h : icmp_hdr) : list Z :=
  le 1 (ic_type h) ++ le 1 (ic_code h) ++ le 2 (ic_cksum h) ++ le 4 (ic_rest h).

Lemma enc_icmp_ok h : bytes_ok (enc_icmp h).
Proof. unfold enc_icmp. rewrite !bytes_ok_app. auto 12 with bytes. Qed.

(** Any bytes are headers. *)
Lemma split_le n d :
  (n <= length d)%nat -> bytes_ok d -> exists v, d = le n v ++ drop n d /\ 0 <= v < pow256 n.
Proof.
  revert d. induction n as [|n IH]; intros d Hn Hd; [exists 0; split; [done|cbn; lia]|].
  destruct d as [|x d]; [simpl in Hn; lia|]. apply (proj1 (bytes_ok_cons _ _)) in Hd as [Hx Hd].
  destruct (IH d) as (v & E & Hv); [simpl in Hn; lia|done|]. exists (x + 256 * v).
  destruct (div_mod_cons x v 256 Hx) as [E1 E2]. cbn [le drop app pow256].
  rewrite E1, E2. split; [by f_equal|lia].
Qed.

Lemma split_ip d :
  (20 <= length d)%nat -> bytes_ok d -> exists i, d = enc_ip i ++ drop 20 d /\ 0 <= i_vhl i < 256.
Proof.
  intros Hn Hd.
  destruct (split_le 1 d) as (x0 & E0 & H0); [lia|done|].
  destruct (split_le 1 (drop 1 d)) as (x1 & E1 & _); [rewrite length_drop; lia|auto with bytes|].
  destruct (split_le 2 (drop 2 d)) as (x2 & E2 & _); [rewrite length_drop; lia|auto with bytes|].
  destruct (split_le 2 (drop 4 d)) as (x3 & E3 & _); [rewrite length_drop; lia|auto with bytes|].
  destruct (split_le 2 (drop 6 d)) as (x4 & E4 & _); [rewrite length_drop; lia|auto with bytes|].
  destruct (split_le 1 (drop 8 d)) as (x5 & E5 & _); [rewrite length_drop; lia|auto with bytes|].
  destruct (split_le 1 (drop 9 d)) as (x6 & E6 & _); [rewrite length_drop; lia|auto with bytes|].
  destruct (split_le 2 (drop 10 d)) as (x7 & E7 & _); [rewrite length_drop; lia|auto with bytes|].
  destruct (split_le 4 (drop 12 d)) as (x8 & E8 & _); [rewrite length_drop; lia|auto with bytes|].
  destruct (split_le 4 (drop 16 d)) as (x9 & E9 & _); [rewrite length_drop; lia|auto with bytes|].
  rewrite drop_drop in E1, E2, E3, E4, E5, E6, E7, E8, E9.
  exists (IpHdr x0 x1 x2 x3 x4 x5 x6 x7 x8 x9). split; [|exact H0]. unfold enc_ip.
  cbn [i_vhl i_tos i_len i_id i_off i_ttl i_p i_sum i_src i_dst].
  rewrite <- !app_assoc. cbn [Nat.add] in *.
  by rewrite <- E9, <- E8, <- E7, <- E6, <- E5, <- E4, <- E3, <- E2, <- E1.
Qed.
Lemma split_icmp d :
  (8 <= length d)%nat -> bytes_ok d -> exists ic, d = enc_icmp ic ++ drop 8 d.
Proof.
  intros Hn Hd.
  destruct (split_le 1 d) as (y0 & F0 & _); [lia|done|].
  destruct (split_le 1 (drop 1 d)) as (y1 & F1 & _); [rewrite length_drop; lia|auto with bytes|].
  destruct (split_le 2 (drop 2 d)) as (y2 & F2 & _); [rewrite length_drop; lia|auto with bytes|].
  destruct (split_le 4 (drop 4 d)) as (y3 & F3 & _); [rewrite length_drop; lia|auto with bytes|].
  rewrite drop_drop in F1, F2, F3. exists (IcmpHdr y0 y1 y2 y3). unfold enc_icmp.
  cbn [ic_type ic_code ic_cksum ic_rest]. rewrite <- !app_assoc. cbn [Nat.add] in *.
  by rewrite <- F3, <- F2, <- F1.
Qed.

(** Stores behind the bytes [hd]. *)
Lemma pst_app hd d n off v q :
  (off + n <= length d)%nat ->
  pst n (set_data (hd ++ d) q) (length hd + off) v = Ok (set_data (hd ++ wrn n d off v) q).
Proof.
  intros H. rewrite pst_data by (rewrite plength_set_data, length_app; lia).
  cbn [pk_data set_data]. by rewrite wrn_app_r, set_data_twice.
Qed.
Lemma setf_app hd d f v q :
  (f_off f + f_width f <= length d)%nat ->
  setf (length hd) f v (set_data (hd ++ d) q) =
  Ok (set_data (hd ++ wrn (f_width f) d (f_off f) v) q).
Proof. apply pst_app. Qed.

Section BuildIcmp.
Context (hd : list Z) (x0 x1 x2 x3 : Z) (l : list Z) (p : packet).
Abbreviation hdr y0 y1 y2 y3 := (set_data (hd ++ enc_icmp (IcmpHdr y0 y1 y2 y3) ++ l) p).
Lemma set_icmp_type v : setf (length hd) icmp_type v (hdr x0 x1 x2 x3) = Ok (hdr v x1 x2 x3).
Proof. rewrite setf_app by (cbn; lia). reflexivity. Qed.
Lemma set_icmp_code v : setf (length hd) icmp_code v (hdr x0 x1 x2 x3) = Ok (hdr x0 v x2 x3).
Proof. rewrite setf_app by (cbn; lia). reflexivity. Qed.
Lemma set_icmp_cksum v : setf (length hd) icmp_cksum v (hdr x0 x1 x2 x3) = Ok (hdr x0 x1 v x3).
Proof. rewrite setf_app by (cbn; lia). reflexivity. Qed.
Lemma set_icmp_padding v : setf (length hd) icmp_padding v (hdr x0 x1 x2 x3) = Ok (hdr x0 x1 x2 v).
Proof. rewrite setf_app by (cbn; lia). reflexivity. Qed.
Lemma set_icmp_pointer v :
  0 <= v < 256 -> setf (length hd) icmp_pointer v (hdr x0 x1 x2 0) = Ok (hdr x0 x1 x2 v).
Proof.
  intros Hv. rewrite setf_app by (cbn; lia). do 3 f_equal. cbn. unfold wrn. cbn.
  rewrite (Z.div_small v 256) by lia. done.
Qed.
Lemma set_icmp_nextmtu v :
  setf (length hd) icmp_nextmtu v (hdr x0 x1 x2 0) = Ok (hdr x0 x1 x2 (65536 * v)).
Proof.
  rewrite setf_app by (cbn; lia). do 3 f_equal. cbn. unfold wrn. cbn.
  replace (65536 * v) with (0 + 256 * (0 + 256 * v)) by lia.
  destruct (div_mod_cons 0 (0 + 256 * v) 256) as [-> ->]; [lia|].
  destruct (div_mod_cons 0 v 256) as [-> ->]; [lia|]. done.
Qed.
End BuildIcmp.

Lemma set_ip_v_spec x0 x1 x2 x3 x4 x5 x6 x7 x8 x9 l p :
  0 <= x0 < 256 ->
  exists b, 64 <= b < 80 /\
  set_ip_v 0 4 (set_data (enc_ip (IpHdr x0 x1 x2 x3 x4 x5 x6 x7 x8 x9) ++ l) p) =
  Ok (set_data (enc_ip (IpHdr b x1 x2 x3 x4 x5 x6 x7 x8 x9) ++ l) p).
Proof.
  intros H0. exists (64 + x0 mod 16). split; [zdm|]. unfold set_ip_v.
  rewrite (getf_val _ _ _ x0); [|wire_eval; f_equal; apply u8_small; lia|cbn; lia].
  rewrite bind_ok, set_ip_vhl. do 6 f_equal.
  change 15 with (Z.ones 4). rewrite !Z.land_ones by lia. change (2 ^ 4) with 16.
  assert (E : Z.shiftl (4 mod 16) 4 = Z.shiftl 4 4) by reflexivity. rewrite E.
  rewrite Z.lor_comm. rewrite (proj2 (proj2 (nibbles 4 (x0 mod 16) ltac:(lia) ltac:(zdm)))). lia.
Qed.

Lemma get_ip_hl_vhl h l q v :
  i_vhl h = 64 + v -> 0 <= v < 16 -> get_ip_hl (set_data (enc_ip h ++ l) q) 0 = Ok v.
Proof.
  intros H Hv. unfold get_ip_hl. rewrite (getf_val _ _ _ (64 + v)).
  - rewrite bind_ok. f_equal. change 15 with (Z.ones 4). rewrite Z.land_ones by lia. zdm.
  - wire_eval. rewrite H. f_equal. apply u8_small. lia.
  - cbn. lia.
Qed.

(** The packet [q], its network header at the front and [n] bytes long. *)
Definition with_ip (n : nat) (q : packet) : packet :=
  MkPacket (pk_head q) (pk_data q) (pk_tail q) (pk_shared q) (pk_anno q) (pk_ptype q) (pk_mac q)
    (Some (Z.of_nat (headroom q))) (Some (Z.of_nat (headroom q + n))).

(** ** The source route and its reverse *)

(** A source route: its type, the addresses behind its pointer byte, and how many of them the
    pointer has passed. *)
Definition sourceroute : Type := Z * list Z * nat.
Definition usable (o : ip_option) : option sourceroute :=
  match o with
  | Opt type (ptr :: data) =>
      if ((type =? IPOPT_LSRR) || (type =? IPOPT_SSRR)) &&
         ((4 <=? ptr) && (ptr mod 4 =? 0) && (ptr <=? 4 + Z.of_nat (length data)))
      then Some (type, data, Z.to_nat ((ptr - 4) / 4)) else None
  | _ => None
  end.
(** The first usable source route, and its offset. *)
Fixpoint first_route (pos : nat) (os : list ip_option) : option (nat * sourceroute) :=
  match os with
  | [] => None
  | o :: os =>
      match usable o with
      | Some r => Some (pos, r)
      | None => first_route (pos + length (enc_option o)) os
      end
  end.

Definition address (data : list Z) (j : nat) : list Z := take 4 (drop (4 * j) data).
(** The first [k] addresses, in reverse order. *)
Definition reversed_addresses (data : list Z) (k : nat) : list Z :=
  mjoin (rev (map (address data) (seq 0 k))).
Definition reversed (r : sourceroute) : list Z :=
  let '(type, data, k) := r in
  type :: 3 + 4 * Z.of_nat k :: 4 :: reversed_addresses data k ++ [IPOPT_EOL].

Lemma reversed_addresses_S data k :
  reversed_addresses data (S k) = address data k ++ reversed_addresses data k.
Proof.
  unfold reversed_addresses. rewrite seq_S, map_app, rev_app_distr. reflexivity.
Qed.
Lemma length_address data j : (4 * S j <= length data)%nat -> length (address data j) = 4%nat.
Proof. intros. unfold address. rewrite length_take, length_drop. lia. Qed.
Lemma length_reversed_addresses data k :
  (4 * k <= length data)%nat -> length (reversed_addresses data k) = (4 * k)%nat.
Proof.
  induction k as [|k IH]; intros H; [done|].
  rewrite reversed_addresses_S, length_app, length_address, IH by lia. lia.
Qed.
Lemma reversed_addresses_ok data k : bytes_ok data -> bytes_ok (reversed_addresses data k).
Proof.
  intros Hd. induction k as [|k IH]; [constructor|]. rewrite reversed_addresses_S.
  apply bytes_ok_app. split; [|done]. unfold address. auto with bytes.
Qed.

Definition source_option_ok (o : ip_option) : Prop :=
  match o with
  | Nop => True
  | Opt type data => 2 <= type < 256 /\ (type = IPOPT_LSRR \/ type = IPOPT_SSRR -> data <> [])
  end.

Lemma enc_options_cons o os : enc_options (o :: os) = enc_option o ++ enc_options os.
Proof. done. Qed.
Lemma enc_options_app os1 os2 : enc_options (os1 ++ os2) = enc_options os1 ++ enc_options os2.
Proof. unfold enc_options. by rewrite map_app, join_app. Qed.

Lemma usable_inv o type data k :
  usable o = Some (type, data, k) ->
  o = Opt type (4 + 4 * Z.of_nat k :: data) /\ (4 * k <= length data)%nat.
Proof.
  destruct o as [|t [|ptr d]]; cbn [usable]; [done..|].
  destruct (_ && _) eqn:E; [|done]. intros [= -> -> <-].
  apply andb_true_iff in E as [_ [[H1%Z.leb_le H2%Z.eqb_eq]%andb_true_iff H3%Z.leb_le]%andb_true_iff].
  rewrite Z2Nat.id by zdm. split; [do 2 f_equal; zdm|]. zdm.
Qed.
Lemma usable_type o type data k :
  usable o = Some (type, data, k) -> type = IPOPT_LSRR \/ type = IPOPT_SSRR.
Proof.
  destruct o as [|t [|ptr d]]; cbn [usable]; [done..|].
  destruct (_ && _) eqn:E; [|done]. intros [= -> _ _].
  apply andb_true_iff in E as [[H%Z.eqb_eq|H%Z.eqb_eq]%orb_true_iff _]; [by left|by right].
Qed.
Lemma first_route_inv os pos at_ type data k :
  first_route pos os = Some (at_, (type, data, k)) ->
  exists os1 os2, os = os1 ++ Opt type (4 + 4 * Z.of_nat k :: data) :: os2 /\
    at_ = (pos + length (enc_options os1))%nat /\ (4 * k <= length data)%nat /\
    (type = IPOPT_LSRR \/ type = IPOPT_SSRR).
Proof.
  revert pos. induction os as [|o os IH]; intros pos; cbn [first_route]; [done|].
  destruct (usable o) as [r|] eqn:E.
  - intros [= <- ->]. pose proof (usable_type _ _ _ _ E). apply usable_inv in E as [-> Hk].
    exists [], os. split_and!; try done; cbn; lia.
  - intros (os1 & os2 & -> & -> & Hk & Ht)%IH. exists (o :: os1), os2. split_and!; try done.
    rewrite enc_options_cons, length_app; lia.
Qed.

Section Route.
Context (p : packet) (e : nat) (l : list Z) (Hm : marked p).
Let tl : list Z := replicate e IPOPT_EOL ++ l.

Lemma route_loop_run os : Forall source_option_ok os -> forall fuel hlen hd,
  pk_data p = hd ++ enc_options os ++ tl ->
  hlen = Z.of_nat (length hd + length (enc_options os) + e) ->
  (length (enc_options os) + e <= fuel)%nat ->
  valid_source_route_loop fuel p hlen (length hd) = Ok (fst <$> first_route (length hd) os).
Proof.
  induction 1 as [|o os Ho Hos IH]; intros fuel hlen hd Hd -> Hf.
  - cbn [enc_options map mjoin list_join length app] in *. cbn [first_route].
    destruct fuel as [|n]; cbn [valid_source_route_loop].
    { by rewrite (proj2 (Z.ltb_ge _ _)) by lia. }
    destruct (Z.ltb_spec (Z.of_nat (length hd)) (Z.of_nat (length hd + 0 + e))); [|done].
    rewrite <- (Nat.add_0_r (length hd)) at 1.
    rewrite (oa_at p hd tl Hm Hd 1 0 IPOPT_EOL); [|apply rdn_1|lia].
    2:{ unfold tl. destruct e as [|e']; [lia|done]. }
    by rewrite bind_ok.
  - rewrite enc_options_cons, length_app in *. rewrite <- app_assoc in Hd.
    assert (Hne : (1 <= length (enc_option o))%nat) by (destruct o; cbn; lia).
    assert (Hr : forall j x, enc_option o !! j = Some x -> oa 1 p (length hd + j) = Ok x).
    { intros j x Hj. apply (oa_at p hd _ Hm Hd); [|lia]. apply rdn_1. by apply lookup_app_l_Some. }
    destruct fuel as [|n]; [lia|]. cbn [valid_source_route_loop].
    rewrite (proj2 (Z.ltb_lt _ _)) by lia.
    assert (Hskip : usable o = None ->
      valid_source_route_loop n p (Z.of_nat (length hd + (length (enc_option o) + length (enc_options os)) + e))
        (length hd + length (enc_option o)) = Ok (fst <$> first_route (length hd) (o :: os))).
    { intros Hu. cbn [first_route]. rewrite Hu. rewrite app_assoc in Hd.
      specialize (IH n _ (hd ++ enc_option o) Hd eq_refl ltac:(lia)). rewrite length_app in IH.
      by rewrite Nat.add_assoc. }
    assert (H0 := Hr 0%nat). rewrite Nat.add_0_r in H0.
    destruct o as [|type data].
    + rewrite (H0 IPOPT_NOP) by done. rewrite bind_ok. cbn [Z.eqb IPOPT_NOP Pos.eqb]. by apply Hskip.
    + destruct Ho as [Ht Hdata]. rewrite (H0 type) by done. rewrite bind_ok.
      rewrite (proj2 (Z.eqb_neq type IPOPT_NOP)) by (unfold IPOPT_NOP; lia).
      rewrite (proj2 (Z.eqb_neq type IPOPT_EOL)) by (unfold IPOPT_EOL; lia).
      rewrite (Hr 1%nat (2 + Z.of_nat (length data))) by done. rewrite bind_ok.
      cbn [enc_option length] in Hskip |- *.
      rewrite (proj2 (Z.ltb_ge _ 2)) by lia. rewrite (proj2 (Z.ltb_ge _ _)) by lia. cbn [orb].
      replace (Z.to_nat (2 + Z.of_nat (length data))) with (S (S (length data))) by lia.
      destruct ((type =? IPOPT_LSRR) || (type =? IPOPT_SSRR)) eqn:Esr.
      * destruct data as [|ptr data].
        { exfalso. apply orb_true_iff in Esr as [E%Z.eqb_eq|E%Z.eqb_eq]; apply Hdata; tauto. }
        rewrite (Hr 2%nat ptr) by done. rewrite !bind_ok.
        replace (2 + Z.of_nat (length (ptr :: data)) + 1) with (4 + Z.of_nat (length data))
          by (cbn [length]; lia).
        destruct (_ && _) eqn:Eu; [|apply Hskip; cbn [usable]; by rewrite Esr, Eu].
        cbn [first_route usable]. by rewrite Esr, Eu.
      * rewrite bind_ok. apply Hskip. cbn [usable]. destruct data; [done|]. by rewrite Esr.
Qed.
End Route.

(** Copying the addresses of [data], which is at offset [at_] of [p]. *)
Lemma copy_route_run p hd data tl k fuel oi hdq d q :
  marked p -> pk_data p = hd ++ data ++ tl -> length hd = (oi + 3)%nat -> bytes_ok data ->
  (4 * k <= length data)%nat -> (k <= fuel)%nat ->
  pk_data q = hdq ++ d -> (4 * k <= length d)%nat ->
  copy_route fuel p oi (Z.of_nat (oi + 3) + 4 * (Z.of_nat k - 1)) (length hdq) q =
  Ok (set_data (hdq ++ reversed_addresses data k ++ drop (4 * k) d) q).
Proof.
  intros Hm Hd Hh Hb. revert fuel hdq d q. induction k as [|k IH]; intros fuel hdq d q Hk Hf Hq Hl.
  - assert (E : q = set_data (hdq ++ drop (4 * 0) d) q) by (by rewrite Nat.mul_0_r, drop_0, <- Hq, set_data_id).
    destruct fuel as [|n]; cbn [copy_route]; [by rewrite E at 1|].
    rewrite (proj2 (Z.leb_gt _ _)) by lia. by rewrite E at 1.
  - destruct fuel as [|n]; [lia|]. cbn [copy_route]. rewrite (proj2 (Z.leb_le _ _)) by lia.
    destruct (split_le 4 (drop (4 * k) data)) as (v & Ev & Hv);
      [rewrite length_drop; lia|auto with bytes|].
    assert (Eaddr : le 4 v = address data k).
    { unfold address. rewrite Ev. by rewrite take_app_length'. }
    assert (Hr : rdn 4 (data ++ tl) (4 * k) = Some v).
    { rewrite rdn_app_l by lia. rewrite <- (Nat.add_0_r (4 * k)), <- rdn_drop, Ev, rdn_le.
      by rewrite Z.mod_small. }
    replace (Z.to_nat _) with (length hd + 4 * k)%nat by lia.
    rewrite (oa_at p hd _ Hm Hd 4 (4 * k) v Hr), bind_ok by lia.
    rewrite <- (set_data_id q) at 1. rewrite Hq.
    replace (length hdq) with (length hdq + 0)%nat at 1 by lia.
    rewrite pst_app, bind_ok by lia. rewrite wrn_front, Eaddr by lia.
    replace (length hdq + 4)%nat with (length (hdq ++ address data k))
      by (rewrite length_app, length_address; lia).
    replace (Z.of_nat (oi + 3) + 4 * (Z.of_nat (S k) - 1) - 4) with
      (Z.of_nat (oi + 3) + 4 * (Z.of_nat k - 1)) by lia.
    rewrite (IH n (hdq ++ address data k) (drop 4 d)); [|lia|lia|cbn [pk_data set_data]; by rewrite app_assoc|
      rewrite length_drop; lia].
    rewrite set_data_twice, reversed_addresses_S, drop_drop, <- !app_assoc.
    by replace (4 + 4 * k)%nat with (4 * S k)%nat by lia.
Qed.

Definition answer_options (r : option sourceroute) : list Z :=
  match r with Some r => reversed r | None => [] end.

Lemma reverse_route_run p pre type data post k h d q :
  marked p -> pk_data p = pre ++ enc_option (Opt type (4 + 4 * Z.of_nat k :: data)) ++ post ->
  bytes_ok data -> (4 * k <= length data)%nat -> (k <= 9)%nat -> 0 <= type < 256 ->
  pk_data q = enc_ip h ++ d -> (4 * k + 4 <= length d)%nat ->
  reverse_route p (length pre) q =
  Ok (set_data (enc_ip h ++ reversed (type, data, k) ++ drop (4 * k + 4) d) q, 6 + Z.of_nat k).
Proof.
  intros Hm Hd Hb Hk H9 Ht Hq Hl. unfold reverse_route.
  rewrite (oa_at p pre _ Hm Hd 1 2 (4 + 4 * Z.of_nat k)) by (by apply rdn_1 || lia). rewrite bind_ok.
  assert (R0 : oa 1 p (length pre) = Ok type).
  { rewrite <- (Nat.add_0_r (length pre)). apply (oa_at p pre _ Hm Hd); [by apply rdn_1|lia]. }
  rewrite R0, bind_ok.
  destruct d as [|a [|b [|c d]]]; [cbn in Hl; lia..|]. cbn [length] in Hl.
  rewrite <- (set_data_id q) at 1. rewrite Hq.
  rewrite (pst_app (enc_ip h) _ 1 0) by (rewrite ?length_wrn; cbn [length]; lia). rewrite bind_ok.
  rewrite (pst_app (enc_ip h) _ 1 1) by (rewrite ?length_wrn; cbn [length]; lia). rewrite bind_ok.
  rewrite (pst_app (enc_ip h) _ 1 2) by (rewrite ?length_wrn; cbn [length]; lia). rewrite bind_ok.
  replace (20 + Z.to_nat (4 + 4 * Z.of_nat k - 1))%nat with (length (enc_ip h) + (3 + 4 * k))%nat
    by (change (length (enc_ip h)) with 20%nat; lia).
  rewrite (pst_app (enc_ip h) _ 1 (3 + 4 * k)) by (rewrite ?length_wrn; cbn [length]; lia).
  rewrite bind_ok. rewrite (u8_small (4 + 4 * Z.of_nat k - 1)) by lia.
  assert (Ed : exists d4 x d5, d = d4 ++ x :: d5 /\ length d4 = (4 * k)%nat /\
    d5 = drop (4 * k + 4) (a :: b :: c :: d)).
  { destruct (lookup_lt_is_Some_2 d (4 * k)) as [x Hx]; [lia|].
    exists (take (4 * k) d), x, (drop (S (4 * k)) d). split; [by rewrite take_drop_middle|].
    split; [rewrite length_take; lia|]. replace (4 * k + 4)%nat with (S (S (S (S (4 * k))))) by lia. done. }
  destruct Ed as (d4 & x & d5 & -> & Hd4 & Ed5). rewrite <- Ed5. clear Ed5.
  assert (Ew : wrn 1 (wrn 1 (wrn 1 (wrn 1 (a :: b :: c :: d4 ++ x :: d5) 0 type) 1
      (4 + 4 * Z.of_nat k - 1)) 2 4) (3 + 4 * k) IPOPT_EOL =
    [type; 3 + 4 * Z.of_nat k; 4] ++ d4 ++ IPOPT_EOL :: d5).
  { unfold wrn. rewrite !Z.mod_small by (unfold IPOPT_EOL; lia). cbn [insert list_insert Nat.add app].
    f_equal. f_equal; [lia|]. f_equal. rewrite <- Hd4, <- (Nat.add_0_r (length d4)).
    exact (insert_app_r d4 (x :: d5) 0 IPOPT_EOL). }
  rewrite Ew. clear Ew.
  assert (Hd' : pk_data p = (pre ++ [type; 2 + Z.of_nat (length (4 + 4 * Z.of_nat k :: data));
      4 + 4 * Z.of_nat k]) ++ data ++ post)
    by (rewrite Hd; cbn [enc_option]; rewrite <- !app_assoc; reflexivity).
  replace (Z.of_nat (length pre) + (4 + 4 * Z.of_nat k) - 5) with
    (Z.of_nat (length pre + 3) + 4 * (Z.of_nat k - 1)) by lia.
  rewrite (app_assoc (enc_ip h)).
  change 23%nat with (20 + 3)%nat. change (20 + 3)%nat with (length (enc_ip h ++ [type; 3 + 4 * Z.of_nat k; 4])).
  rewrite (copy_route_run p _ data post k _ (length pre) _ (d4 ++ IPOPT_EOL :: d5) _ Hm Hd');
    [|by rewrite length_app|done|done|lia|done|rewrite length_app; lia].
  rewrite bind_ok, set_data_twice, drop_app_length' by done. f_equal. f_equal.
  - unfold reversed. by rewrite <- !app_assoc, <- !app_comm_cons, <- app_assoc.
  - rewrite Z.shiftr_div_pow2 by lia. change (2 ^ 2) with 4. zdm.
Qed.

Lemma length_reversed type data k :
  (4 * k <= length data)%nat -> length (reversed (type, data, k)) = (4 * k + 4)%nat.
Proof.
  intros. unfold reversed. cbn [length]. rewrite length_app, length_reversed_addresses by done. cbn. lia.
Qed.

(** ** The answer's headers *)
Lemma route_cases (r : option (nat * sourceroute)) :
  r = None \/ exists at_ type data k, r = Some (at_, (type, data, k)).
Proof. destruct r as [[at_ [[type data] k]]|]; [right|by left]. by eexists _, _, _, _. Qed.

Section Answer.
Context (c : icmp_conf) (id : Z) (p : packet) (i : ip_hdr) (os : list ip_option) (tl : list Z).
Context (Hd : pk_data p = enc_ip i ++ enc_options os ++ tl) (Hok : ip_ok i) (Hm : marked p).
Context (Hb : bytes_ok (pk_data p)) (Hol : (length (enc_options os) <= 40)%nat).
Context (r : option (nat * sourceroute)) (Hr : forall x, r = Some x -> first_route 20 os = Some x).
Let ro : list Z := answer_options (snd <$> r).

Lemma source_src : nh_getf p ip_src = Ok (i_src i).
Proof.
  rewrite marked_getf by done. apply getf_val; [|cbn; lia]. rewrite Hd. destruct Hok. wire_eval.
  by small_words.
Qed.

(** Where the route is in the packet. *)
Lemma route_at at_ type data k :
  r = Some (at_, (type, data, k)) ->
  exists pre post, pk_data p = pre ++ enc_option (Opt type (4 + 4 * Z.of_nat k :: data)) ++ post /\
    length pre = at_ /\ bytes_ok data /\ (4 * k <= length data)%nat /\ (k <= 9)%nat /\
    0 <= type < 256 /\ (at_ + 3 + length data <= 60)%nat.
Proof.
  intros (os1 & os2 & Eo & -> & Hk & Ht)%Hr%first_route_inv.
  set (o := Opt type (4 + 4 * Z.of_nat k :: data)) in *.
  assert (Hol' := Hol). rewrite Eo, enc_options_app, enc_options_cons, !length_app in Hol'.
  cbn [enc_option o length] in Hol'.
  exists (enc_ip i ++ enc_options os1), (enc_options os2 ++ tl).
  assert (E : pk_data p = (enc_ip i ++ enc_options os1) ++ enc_option o ++ enc_options os2 ++ tl).
  { rewrite Hd, Eo, enc_options_app, enc_options_cons. by rewrite <- !app_assoc. }
  split; [exact E|]. split; [by rewrite length_app|]. split_and!; try lia.
  - rewrite E in Hb. apply bytes_ok_app in Hb as [_ Hb']. apply bytes_ok_app in Hb' as [Hb' _].
    cbn [enc_option o] in Hb'. rewrite !bytes_ok_cons in Hb'. tauto.
  - destruct Ht as [-> | ->]; unfold IPOPT_LSRR, IPOPT_SSRR; lia.
  - destruct Ht as [-> | ->]; unfold IPOPT_LSRR, IPOPT_SSRR; lia.
Qed.

Lemma answer_options_ok :
  (length ro <= 40)%nat /\ (exists n, length ro = (4 * n)%nat) /\ bytes_ok ro.
Proof.
  unfold ro. destruct (route_cases r) as [Er|(at_ & type & data & k & Er)]; rewrite Er;
    cbn [fmap option_fmap option_map snd answer_options].
  - split; [cbn; lia|]. split; [by exists 0%nat|constructor].
  - destruct (route_at at_ type data k Er) as (pre & post & _ & _ & Hbd & Hk & H9 & Ht & _).
    rewrite length_reversed by done. split; [lia|]. split; [exists (k + 1)%nat; lia|].
    unfold reversed. rewrite !bytes_ok_cons. split; [lia|]. split; [lia|]. split; [lia|].
    apply bytes_ok_app. split; [by apply reversed_addresses_ok|].
    constructor; [unfold IPOPT_EOL; lia|constructor].
Qed.

Lemma route_step h d q :
  pk_data q = enc_ip h ++ d -> (length ro <= length d)%nat ->
  match fst <$> r with Some oi => reverse_route p oi q | None => Ok (q, Z.shiftr 20 2) end =
  Ok (set_data (enc_ip h ++ ro ++ drop (length ro) d) q, 5 + Z.of_nat (length ro) / 4).
Proof.
  intros Hq Hl. unfold ro in Hl |- *.
  destruct (route_cases r) as [Er|(at_ & type & data & k & Er)]; rewrite Er in Hl |- *;
    cbn [fmap option_fmap option_map fst snd answer_options] in Hl |- *.
  - cbn [app length drop]. rewrite drop_0, <- Hq, set_data_id. reflexivity.
  - destruct (route_at at_ type data k Er) as (pre & post & Hpd & <- & Hbd & Hk & H9 & Ht & _).
    rewrite length_reversed in Hl |- * by done.
    rewrite (reverse_route_run p pre type data post k h d q) by done. do 2 f_equal. zdm.
Qed.

(** The new header; [ip_len] is still to be written. *)
Definition answer_ip (opts : list Z) (len : Z) : ip_hdr :=
  IpHdr (69 + Z.of_nat (length opts) / 4) 0 len (htons (u16 id)) 0 200 IP_PROTO_ICMP 0
    (ie_src_ip c) (i_src i).

Lemma prepare_ip_run q :
  (28 + length ro <= plength q)%nat -> bytes_ok (pk_data q) ->
  exists len ic l, prepare_ip c id p (fst <$> r) q =
      Ok (set_data (enc_ip (answer_ip ro len) ++ ro ++ enc_icmp ic ++ l) (with_ip (20 + length ro) q)) /\
    (28 + length ro + length l)%nat = plength q.
Proof.
  intros Hl Hbq. destruct answer_options_ok as (H40 & [n Hn] & _).
  destruct (split_ip (pk_data q)) as ([x0 x1 x2 x3 x4 x5 x6 x7 x8 x9] & E & H0);
    [unfold plength in Hl; lia|done|].
  cbn [i_vhl] in H0. set (d := drop 20 (pk_data q)) in *.
  assert (Hdl : (20 + length d)%nat = plength q) by (unfold d; rewrite length_drop; unfold plength in *; lia).
  destruct (split_icmp (drop (length ro) d)) as (ic & Eic);
    [rewrite length_drop; lia|unfold d; auto with bytes|].
  set (l := drop 8 (drop (length ro) d)) in *.
  exists x2, ic, l. split; [|unfold l; rewrite !length_drop; lia].
  unfold prepare_ip. rewrite <- (set_data_id q) at 1. rewrite E.
  destruct (set_ip_v_spec x0 x1 x2 x3 x4 x5 x6 x7 x8 x9 d q H0) as (b & Hb80 & ->).
  rewrite bind_ok, set_ip_tos, bind_ok, set_ip_id, bind_ok, set_ip_off, bind_ok, set_ip_ttl, bind_ok,
    set_ip_p, bind_ok, set_ip_sum, bind_ok, set_ip_src, bind_ok, source_src, bind_ok, set_ip_dst, bind_ok.
  set (h0 := IpHdr b 0 x2 (htons (u16 id)) 0 200 IP_PROTO_ICMP 0 (ie_src_ip c) (i_src i)).
  rewrite (route_step h0 d (set_data (enc_ip h0 ++ d) q) eq_refl) by lia. unfold h0. rewrite bind_ok. cbn [fst snd]. rewrite set_data_twice, Eic.
  assert (Hv : Z.of_nat (length ro) / 4 = Z.of_nat n) by (rewrite Hn; zdm).
  rewrite Hv. rewrite set_ip_hl_spec, bind_ok by lia.
  rewrite (get_ip_hl_vhl _ _ _ (5 + Z.of_nat n)), bind_ok by (cbn [i_vhl]; lia).
  rewrite Z.shiftl_mul_pow2 by lia.
  replace ((5 + Z.of_nat n) * 2 ^ 2) with (Z.of_nat (20 + length ro)) by (change (2 ^ 2) with 4; lia).
  change (headroom q) with (headroom (set_data (enc_ip (IpHdr (64 + (5 + Z.of_nat n)) 0 x2 (htons (u16 id)) 0 200 IP_PROTO_ICMP 0 (ie_src_ip c) (i_src i)) ++ ro ++ enc_icmp ic ++ l) q)).
  rewrite set_network_header_front.
  - unfold answer_ip. rewrite Hv. replace (64 + (5 + Z.of_nat n)) with (69 + Z.of_nat n) by lia. done.
  - rewrite plength_set_data, !length_app. cbn. lia.
Qed.

(** The rest of the ICMP header. *)
Definition icmp_rest (param gateway : Z) : Z :=
  if (ie_type c =? ICMP_PARAMPROB) && (ie_code c =? ICMP_PARAMPROB_ERRATPTR) then param
  else if ie_type c =? ICMP_REDIRECT then gateway
  else if (ie_type c =? ICMP_UNREACH) && (ie_code c =? ICMP_UNREACH_NEEDFRAG)
       then 65536 * htons (u16 (ie_pmtu c)) else 0.

Lemma prepare_icmp_run hd ic l q param gateway :
  anno_u8 ICMP_PARAMPROB_ANNO_OFFSET p = Ok param -> 0 <= param < 256 ->
  dst_ip_anno p = Some gateway ->
  prepare_icmp c p (length hd) (set_data (hd ++ enc_icmp ic ++ l) q) =
  Ok (set_data (hd ++ enc_icmp (IcmpHdr (ie_type c) (ie_code c) 0 (icmp_rest param gateway)) ++ l) q).
Proof.
  intros Ha Hra Hg. unfold prepare_icmp. destruct ic as [y0 y1 y2 y3].
  rewrite set_icmp_type, bind_ok, set_icmp_code, bind_ok, set_icmp_cksum, bind_ok, set_icmp_padding, bind_ok.
  rewrite Ha, Hg. cbn [opt_res]. rewrite !bind_ok. unfold icmp_rest.
  destruct (Z.eqb_spec (ie_type c) ICMP_PARAMPROB) as [Et|]; cbn [andb].
  - rewrite Et. change (ICMP_PARAMPROB =? ICMP_REDIRECT) with false.
    change (ICMP_PARAMPROB =? ICMP_UNREACH) with false. cbn [andb].
    destruct (ie_code c =? ICMP_PARAMPROB_ERRATPTR); [|by rewrite !bind_ok].
    by rewrite set_icmp_pointer, !bind_ok.
  - rewrite bind_ok. destruct (Z.eqb_spec (ie_type c) ICMP_REDIRECT) as [Et|].
    + rewrite Et. change (ICMP_REDIRECT =? ICMP_UNREACH) with false. cbn [andb].
      rewrite bind_ok. change icmp_gateway with icmp_padding. by rewrite set_icmp_padding, bind_ok.
    + rewrite bind_ok. destruct (_ && _); [|done]. apply set_icmp_nextmtu.
Qed.
End Answer.

(** The copy of the packet and the two checksums. *)
Section Finish.
Context (c : icmp_conf) (id : Z) (p : packet) (i : ip_hdr) (ro : list Z) (ic : icmp_hdr) (l : list Z).
Context (Hok : ip_ok i) (Hm : marked p).
Context (Hpl : Z.of_nat (plength p) < 2147483648).
Context (Hro : bytes_ok ro) (Hro40 : (length ro <= 40)%nat) (nro : nat) (Hro4 : length ro = (4 * nro)%nat).
Context (Hl : 28 + Z.of_nat (length ro) + Z.of_nat (length l) < 65536).

Let n : nat := Nat.min (length l) (plength p).
Let body : list Z := take n (pk_data p).
Let answer_icmp : icmp_hdr :=
  IcmpHdr (ic_type ic) (ic_code ic) (click_in_cksum (enc_icmp ic ++ body)) (ic_rest ic).
Let h : ip_hdr := answer_ip c id i ro (htons (Z.of_nat (28 + length ro + n))).
Let answer_h : ip_hdr := ip_with_sum (click_in_cksum (enc_ip h ++ ro)) h.

(** The packet cut to the length of what it quotes. *)
Lemma cut_answer q0 hd :
  pk_data q0 = hd ++ l ->
  exists q2, (if Z.of_nat (plength p) <? Z.of_nat (length l)
      then ptake (Z.to_nat (u32 (Z.of_nat (length l) - Z.of_nat (plength p)))) q0 else q0) = q2 /\
    pk_data q2 = hd ++ take n l /\ pk_nh q2 = pk_nh q0 /\
    pk_h q2 = pk_h q0 /\ headroom q2 = headroom q0 /\ pk_anno q2 = pk_anno q0 /\
    pk_shared q2 = pk_shared q0.
Proof.
  intros Hq. eexists. split; [reflexivity|]. unfold n.
  assert (Hp0 : plength q0 = (length hd + length l)%nat) by (unfold plength; rewrite Hq, length_app; lia).
  destruct (Z.ltb_spec (Z.of_nat (plength p)) (Z.of_nat (length l))).
  - rewrite u32_small by lia. split_and!; try done.
    replace (Z.to_nat _) with (plength q0 - (length hd + plength p))%nat by lia.
    rewrite ptake_data, Nat.min_r by lia. by rewrite Hq, take_app_add' by done.
  - split_and!; try done. by rewrite take_ge by lia.
Qed.

Lemma finish_icmp_run q len :
  length (pk_anno q) = anno_size ->
  exists q1, finish_icmp c p (20 + length ro)
      (set_data (enc_ip (answer_ip c id i ro len) ++ ro ++ enc_icmp ic ++ l) (with_ip (20 + length ro) q)) = Ok q1 /\
    pk_data q1 = enc_ip answer_h ++ ro ++ enc_icmp answer_icmp ++ body /\ marked q1 /\
    pk_h q1 = Some (Z.of_nat (headroom q1 + (20 + length ro))) /\ pk_shared q1 = pk_shared q /\
    dst_ip_anno q1 = Some (i_src i) /\
    (ie_use_fix_anno c = true -> anno_u8 FIX_IP_SRC_ANNO_OFFSET q1 = Ok 1).
Proof.
  intros Ha. set (A := answer_ip c id i ro len).
  set (q0 := set_data _ (with_ip _ q)).
  assert (Hp0 : plength q0 = (28 + length ro + length l)%nat)
    by (unfold q0; rewrite plength_set_data, !length_app; cbn; lia).
  unfold finish_icmp.
  assert (En : network_length p = Ok (Z.of_nat (plength p))).
  { unfold network_length. rewrite Hm. cbn [opt_res]. rewrite bind_ok. f_equal. lia. }
  rewrite En, bind_ok, Hp0.
  replace (u32 (Z.of_nat (28 + length ro + length l) - Z.of_nat (20 + length ro + 8))) with (Z.of_nat (length l))
    by (rewrite u32_small; lia).
  replace (s32 (Z.of_nat (length l))) with (Z.of_nat (length l)) by (unfold s32; zdm).
  set (hd := enc_ip A ++ ro).
  assert (Hhd : length hd = (20 + length ro)%nat) by (unfold hd; by rewrite length_app).
  destruct (cut_answer q0 (hd ++ enc_icmp ic)) as (q2 & Ecut & Hd2 & Hn2 & Hh2 & Hr2 & Ha2 & Hs2);
    [unfold q0, hd; cbn [pk_data set_data]; by rewrite <- !app_assoc|].
  cbv zeta. rewrite Ecut.
  assert (Exl : Z.to_nat (if Z.of_nat (plength p) <? Z.of_nat (length l)
      then u32 (Z.of_nat (plength p)) else Z.of_nat (length l)) = n).
  { unfold n. destruct (Z.ltb_spec (Z.of_nat (plength p)) (Z.of_nat (length l)));
      rewrite ?u32_small; lia. }
  rewrite Exl. clear Exl Ecut.
  assert (Hbody : length body = n) by (unfold body, n; rewrite length_take; unfold plength; lia).
  assert (Eb : nh_bytes p n = Ok body).
  { rewrite marked_bytes by done. rewrite pbytes_data by (unfold n; lia). by rewrite drop_0. }
  rewrite Eb, bind_ok.
  assert (Hl2 : plength q2 = (28 + length ro + n)%nat).
  { unfold plength. rewrite Hd2, !length_app, length_take, Hhd. unfold n. cbn. lia. }
  rewrite pcpy_data by lia.
  rewrite Hd2, take_app_length', drop_ge, app_nil_r, bind_ok by
    (rewrite ?length_app, ?length_take, ?Hbody, ?Hhd; unfold n; cbn; lia).
  rewrite <- app_assoc. assert (Hm2 : marked q2) by (unfold marked; rewrite Hn2, Hr2; done).
  assert (Edg : pbytes (set_data (hd ++ enc_icmp ic ++ body) q2) (20 + length ro) (8 + n) =
    Ok (enc_icmp ic ++ body)).
  { rewrite pbytes_data by (rewrite plength_set_data, !length_app, Hhd, Hbody; cbn; lia).
    cbn [pk_data set_data]. rewrite drop_app_length' by done.
    rewrite take_ge by (rewrite length_app, Hbody; cbn; lia). done. }
  rewrite Edg, bind_ok.
  assert (Es : forall v, setf (20 + length ro) icmp_cksum v (set_data (hd ++ enc_icmp ic ++ body) q2) =
    Ok (set_data (hd ++ enc_icmp (IcmpHdr (ic_type ic) (ic_code ic) v (ic_rest ic)) ++ body) q2))
    by (intros v; rewrite <- Hhd; exact (set_icmp_cksum hd (ic_type ic) (ic_code ic) (ic_cksum ic) (ic_rest ic) body q2 v)).
  rewrite Es, bind_ok. fold answer_icmp.
  set (rest' := enc_icmp answer_icmp ++ body).
  assert (El : network_length (set_data (hd ++ rest') q2) = Ok (Z.of_nat (28 + length ro + n))).
  { unfold network_length. rewrite (marked_set_data q2 _ Hm2). cbn [opt_res]. rewrite bind_ok.
    rewrite plength_set_data. change (headroom (set_data _ q2)) with (headroom q2).
    rewrite length_app, Hhd.
    unfold rest'. rewrite length_app, Hbody. change (length (enc_icmp answer_icmp)) with 8%nat.
    f_equal. lia. }
  rewrite El, bind_ok, u16_small by (unfold n; lia). unfold hd. rewrite <- app_assoc.
  unfold A, answer_ip. rewrite set_ip_len, bind_ok.
  fold (answer_ip c id i ro (htons (Z.of_nat (28 + length ro + n)))). fold h.
  assert (Hv : i_vhl h = 64 + (5 + Z.of_nat nro)) by (cbn [h i_vhl answer_ip]; rewrite Hro4; zdm).
  rewrite (get_ip_hl_vhl _ _ _ (5 + Z.of_nat nro)), bind_ok by (done || lia).
  rewrite Z.shiftl_mul_pow2 by lia.
  replace (Z.to_nat ((5 + Z.of_nat nro) * 2 ^ 2)) with (20 + length ro)%nat by (change (2 ^ 2) with 4; lia).
  assert (Eh : pbytes (set_data (enc_ip h ++ ro ++ rest') q2) 0 (20 + length ro) = Ok (enc_ip h ++ ro)).
  { rewrite pbytes_data by (rewrite plength_set_data, !length_app; cbn; lia).
    cbn [pk_data set_data]. rewrite drop_0, app_assoc, take_app_length'; [done|]. by rewrite length_app. }
  rewrite Eh, bind_ok.
  assert (Esum : forall v, setf 0 ip_sum v (set_data (enc_ip h ++ ro ++ rest') q2) =
    Ok (set_data (enc_ip (ip_with_sum v h) ++ ro ++ rest') q2)).
  { intros v. exact (set_ip_sum _ _ _ _ _ _ _ _ _ _ (ro ++ rest') q2 v). }
  rewrite Esum, bind_ok. fold answer_h.
  rewrite get_built_dst, bind_ok. change (i_dst answer_h) with (i_src i).
  assert (Hs32 : u32 (i_src i) = i_src i) by (apply u32_small; by destruct Hok). rewrite Hs32.
  assert (Ha0 : length (pk_anno q2) = anno_size) by (by rewrite Ha2).
  set (q3 := set_dst_ip_anno (i_src i) (set_data (enc_ip answer_h ++ ro ++ rest') q2)).
  assert (Hdst : dst_ip_anno q3 = Some (i_src i))
    by (unfold q3; rewrite dst_ip_anno_set by exact Ha0; by rewrite Hs32).
  assert (Hq3 : length (pk_anno q3) = anno_size) by (unfold q3; cbn; by rewrite length_wrn).
  assert (Hhr : headroom q3 = headroom q2) by done.
  assert (Hh3 : pk_h q3 = Some (Z.of_nat (headroom q3 + (20 + length ro)))).
  { change (pk_h q3) with (pk_h q2). rewrite Hh2, Hhr, Hr2. done. }
  destruct (ie_use_fix_anno c).
  - eexists. split; [reflexivity|]. split; [done|]. split; [exact Hm2|]. split; [exact Hh3|].
    split; [exact Hs2|]. split; [|intros _].
    + unfold dst_ip_anno. cbn [pk_anno set_anno]. rewrite rdn_wrn_ne by (cbv; lia). exact Hdst.
    + unfold anno_u8. change (FIX_IP_SRC_ANNO_OFFSET <? anno_size)%nat with true. cbv iota.
      apply ld_ok. cbn [pk_anno set_anno].
      rewrite rdn_wrn_eq by (rewrite Hq3; cbv; lia). reflexivity.
  - exists q3. split_and!; done.
Qed.
End Finish.

(** ** [ICMPError::simple_action] *)
Record icmp_conf_ok (c : icmp_conf) : Prop := {
  ico_src : in32 (ie_src_ip c);
  ico_type : in8 (ie_type c);
  ico_code : in8 (ie_code c);
  ico_mtu : 28 <= ie_mtu c < 65536
}.

(** A packet that may be answered: header [i], the options [os] and [e] bytes of end-of-list,
    then [l]. *)
Record reportable (c : icmp_conf) (p : packet) (i : ip_hdr) (os : list ip_option) (e : nat)
    (l : list Z) : Prop := {
  rp_data : pk_data p = enc_ip i ++ enc_options os ++ replicate e IPOPT_EOL ++ l;
  rp_ok : ip_ok i;
  rp_opts : Forall source_option_ok os;
  rp_align : ((length (enc_options os) + e) mod 4 = 0)%nat;
  rp_len : (length (enc_options os) + e <= 40)%nat;
  rp_vhl : i_vhl i = 69 + Z.of_nat (length (enc_options os) + e) / 4;
  rp_marked : marked p;
  rp_h : pk_h p = Some (Z.of_nat (headroom p + (20 + (length (enc_options os) + e))));
  rp_wf : pk_wf p;
  rp_small : Z.of_nat (plength p) < 2147483648;
  rp_link : pk_ptype p <> BROADCAST /\ pk_ptype p <> MULTICAST;
  rp_dst : unicast c (i_dst i) = true;
  rp_src : valid_source c (i_src i) = true;
  rp_first : off_value (ntohs (i_off i)) = 0;
  rp_error : i_p i = IP_PROTO_ICMP ->
    exists type l', l = type :: l' /\ (3 <= length l')%nat /\ is_error_type type = false
}.

Definition param_anno (p : packet) : Z := default 0 (rdn 1 (pk_anno p) ICMP_PARAMPROB_ANNO_OFFSET).

(** A redirect is not sent to a source-routed packet; a parameter problem in the source route
    itself is answered directly, any other error over the reversed route. *)
Definition no_redirect (c : icmp_conf) (os : list ip_option) : bool :=
  (ie_type c =? ICMP_REDIRECT) && bool_decide (is_Some (first_route 20 os)).
Definition answered_route (c : icmp_conf) (p : packet) (os : list ip_option)
  : option (nat * sourceroute) :=
  match first_route 20 os with
  | None => None
  | Some (pos, (type, data, k)) =>
      if (ie_type c =? ICMP_PARAMPROB) && (ie_code c =? ICMP_PARAMPROB_ERRATPTR) &&
         ((Z.of_nat pos <=? param_anno p) && (param_anno p <? Z.of_nat (pos + (3 + length data))))
      then None else Some (pos, (type, data, k))
  end.
Lemma answered_first c p os x : answered_route c p os = Some x -> first_route 20 os = Some x.
Proof.
  unfold answered_route. destruct (first_route 20 os) as [[pos [[type data] k]]|]; [|done].
  by destruct (_ && _).
Qed.

Lemma anno_reads p :
  pk_wf p ->
  anno_u8 ICMP_PARAMPROB_ANNO_OFFSET p = Ok (param_anno p) /\ 0 <= param_anno p < 256 /\
  dst_ip_anno p = Some (default 0 (dst_ip_anno p)).
Proof.
  intros [_ _ _ Hl Hb].
  destruct (rdn_is_some 1 (pk_anno p) ICMP_PARAMPROB_ANNO_OFFSET) as [a Ha]; [rewrite Hl; cbv; lia|].
  destruct (rdn_is_some 4 (pk_anno p) DST_IP_ANNO_OFFSET) as [d Hd]; [rewrite Hl; cbv; lia|].
  unfold param_anno. rewrite Ha. cbn [default from_option id].
  pose proof (rdn_range _ _ _ _ Hb Ha) as Hr. unfold dst_ip_anno. rewrite Hd. split_and!; try done.
  - unfold anno_u8. change (ICMP_PARAMPROB_ANNO_OFFSET <? anno_size)%nat with true. cbv iota.
    by apply ld_ok.
  - apply Hr.
  - change 256 with (pow256 1). apply Hr.
Qed.

Section Action.
Context (c : icmp_conf) (p : packet) (i : ip_hdr) (os : list ip_option) (e : nat) (l : list Z).
Context (Hp : reportable c p i os e l).

Lemma reportable_reads f v :
  rdn (f_width f) (enc_ip i) (f_off f) = Some v -> (0 < f_width f)%nat -> nh_getf p f = Ok v.
Proof.
  intros H Hw. destruct Hp. rewrite marked_getf by done. apply getf_val; [|done].
  rewrite rp_data0. cbn [Nat.add]. rewrite rdn_app_l; [done|]. by eapply rdn_length in H.
Qed.

Lemma reportable_hl :
  nh_hl p = Ok (5 + Z.of_nat (length (enc_options os) + e) / 4) /\
  Z.shiftl (5 + Z.of_nat (length (enc_options os) + e) / 4) 2 =
    Z.of_nat (20 + (length (enc_options os) + e)).
Proof.
  pose proof (reportable_reads ip_vhl (i_vhl i)) as R. destruct Hp. destruct rp_ok0.
  assert (Hn : Z.of_nat (length (enc_options os) + e) mod 4 = 0).
  { apply (f_equal Z.of_nat) in rp_align0. rewrite Nat2Z.inj_mod in rp_align0. exact rp_align0. }
  set (n := (length (enc_options os) + e)%nat) in *. clearbody n. split.
  - unfold nh_hl. rewrite R by first [wire_eval; by small_words|cbn; lia].
    rewrite bind_ok, rp_vhl0. f_equal. zdm.
  - rewrite Z.shiftl_mul_pow2 by lia. change (2 ^ 2) with 4. zdm.
Qed.

Lemma reportable_route : valid_source_route p = Ok (fst <$> first_route 20 os).
Proof.
  destruct reportable_hl as [Rh Eh]. destruct Hp. unfold valid_source_route.
  rewrite Rh, bind_ok, Eh, Nat2Z.id. change sizeof_click_ip with (length (enc_ip i)).
  apply (route_loop_run p e l rp_marked0 os rp_opts0); [done| |lia].
  change (length (enc_ip i)) with 20%nat. lia.
Qed.

Lemma reportable_guards :
  ICMPError_guards c p =
  Ok (if no_redirect c os then None else Some (fst <$> answered_route c p os)).
Proof.
  pose proof reportable_reads as R. destruct reportable_hl as [Rh Eh].
  pose proof reportable_route as Rr.
  destruct (anno_reads p (rp_wf _ _ _ _ _ _ Hp)) as (Ea & _ & _).
  destruct Hp. destruct rp_ok0. destruct rp_link0 as [L1 L2].
  assert (Rp : nh_getf p ip_p = Ok (i_p i)) by (apply R; [wire_eval; by small_words|cbn; lia]).
  assert (Rs : nh_getf p ip_src = Ok (i_src i)) by (apply R; [wire_eval; by small_words|cbn; lia]).
  assert (Rd : nh_getf p ip_dst = Ok (i_dst i)) by (apply R; [wire_eval; by small_words|cbn; lia]).
  assert (Ro : nh_getf p ip_off = Ok (i_off i)) by (apply R; [wire_eval; by small_words|cbn; lia]).
  unfold ICMPError_guards, has_network_header. rewrite rp_marked0, bool_decide_true by done.
  cbn [negb]. rewrite Rh, bind_ok, Rp, bind_ok.
  set (n := (length (enc_options os) + e)%nat) in *.
  assert (Hon : length (enc_options os ++ replicate e IPOPT_EOL) = n)
    by (by rewrite length_app, length_replicate).
  assert (He : (if i_p i =? IP_PROTO_ICMP then
      if Z.of_nat (plength p) <? Z.shiftl (5 + Z.of_nat n / 4) 2 + 4 then Ok true
      else h ← opt_res NullDeref (pk_h p); type ← pldh 1 p (Z.to_nat h + f_off icmp_type);
           Ok (is_error_type type) else Ok false) = Ok false).
  { destruct (Z.eqb_spec (i_p i) IP_PROTO_ICMP) as [E|]; [|done].
    destruct (rp_error0 E) as (type & l' & El & Hl & Ht). rewrite <- Ht.
    assert (Hd : pk_data p = (enc_ip i ++ enc_options os ++ replicate e IPOPT_EOL) ++ type :: l')
      by (rewrite rp_data0, El; by rewrite <- !app_assoc).
    assert (Hhd : length (enc_ip i ++ enc_options os ++ replicate e IPOPT_EOL) = (20 + n)%nat)
      by (rewrite length_app, Hon; done).
    assert (Hpl : plength p = (21 + n + length l')%nat)
      by (unfold plength; rewrite Hd, length_app, Hhd; cbn; lia).
    rewrite Eh. destruct (Z.ltb_spec (Z.of_nat (plength p)) (Z.of_nat (20 + n) + 4)); [lia|].
    rewrite rp_h0. cbn [opt_res]. rewrite bind_ok.
    replace (Z.to_nat (Z.of_nat (headroom p + (20 + n))) + f_off icmp_type)%nat
      with (headroom p + (20 + n))%nat by (cbn; lia).
    rewrite pldh_data, pld_data by lia. rewrite (ld_ok 1 _ (20 + n) type); [done|].
    rewrite Hd, <- Hhd, <- (Nat.add_0_r (length _)), rdn_app_r. by apply rdn_1. }
  rewrite He, bind_ok, Rd, bind_ok, rp_dst0. cbn [negb].
  rewrite (bool_decide_false _ L1), (bool_decide_false _ L2). cbn [orb].
  rewrite Rs, bind_ok, rp_src0. cbn [negb]. rewrite Ro, bind_ok, first_fragment_spec by done.
  rewrite rp_first0. cbn [Z.eqb negb]. rewrite Rr, bind_ok.
  unfold no_redirect, answered_route.
  destruct (first_route 20 os) as [[at_ [[type data] k]]|] eqn:Ef;
    cbn [fmap option_fmap option_map fst].
  2: { by rewrite bool_decide_false, andb_false_r by (by intros [? ?]). }
  rewrite bool_decide_true, andb_true_r by by eexists.
  destruct (ie_type c =? ICMP_REDIRECT); [done|].
  destruct ((ie_type c =? ICMP_PARAMPROB) && (ie_code c =? ICMP_PARAMPROB_ERRATPTR)); [|done].
  rewrite Ea, bind_ok. cbn [andb].
  destruct (route_at p i os (replicate e IPOPT_EOL ++ l) rp_data0 (wf_data _ rp_wf0) ltac:(lia)
    (Some (at_, (type, data, k))) ltac:(by intros x [= <-]) at_ type data k eq_refl)
    as (pre & post & Hpd & Hpre & _).
  rewrite <- Hpre, (oa_at p pre _ rp_marked0 Hpd 1 1 (2 + Z.of_nat (length (4 + 4 * Z.of_nat k :: data))))
    by (by apply rdn_1 || lia).
  rewrite bind_ok, Hpre.
  replace (Z.of_nat at_ + (2 + Z.of_nat (length (4 + 4 * Z.of_nat k :: data)))) with
    (Z.of_nat (at_ + (3 + length data))) by (cbn [length]; lia).
  by destruct (_ && _).
Qed.
End Action.

Lemma answer_icmp_verifies ic body :
  ic_cksum ic = 0 -> bytes_ok body -> Z.of_nat (length body) < 65536 ->
  click_in_cksum (enc_icmp (IcmpHdr (ic_type ic) (ic_code ic)
    (click_in_cksum (enc_icmp ic ++ body)) (ic_rest ic)) ++ body) = 0.
Proof.
  intros Hc Hb Hl. set (v := click_in_cksum (enc_icmp ic ++ body)).
  change (enc_icmp (IcmpHdr (ic_type ic) (ic_code ic) v (ic_rest ic))) with (wrn 2 (enc_icmp ic) 2 v).
  rewrite <- wrn_app_l by (cbn; lia). apply fill_verifies; [|rewrite length_app; cbn; lia|done| |].
  - apply bytes_ok_app. split; [apply enc_icmp_ok|done].
  - rewrite length_app. cbn. lia.
  - rewrite rdn_app_l by (cbn; lia). change (rdn 2 (enc_icmp ic) 2) with
      (Some (ic_cksum ic mod 256 + 256 * ((ic_cksum ic / 256) mod 256 + 256 * 0))).
    by rewrite Hc.
Qed.
Lemma answer_ip_verifies i o :
  i_sum i = 0 -> bytes_ok o -> (length o <= 40)%nat ->
  click_in_cksum (enc_ip (ip_with_sum (click_in_cksum (enc_ip i ++ o)) i) ++ o) = 0.
Proof.
  intros Hs Ho Hl. rewrite enc_ip_with_sum, <- wrn_app_l by (cbn; lia).
  apply fill_verifies; [apply bytes_ok_app; auto with bytes|rewrite length_app; cbn; lia|done| |].
  - rewrite length_app. cbn. lia.
  - rewrite rdn_app_l by (cbn; lia). destruct i. cbn in Hs. subst. reflexivity.
Qed.

(** C22: the answer.  To a packet it may answer ([reportable]), with or without IP options,
    [ICMPError] makes an ICMP error of the configured type and code from the configured address to
    the packet's source, which quotes the packet from its IP header on, as much as the configured
    size allows, with verifying IP and ICMP checksums and the parameter pointer, gateway or
    next-hop MTU its type asks for; a usable source route goes into the answer's header reversed
    (from the addresses passed, the last one first), unless the error is about the route itself,
    and forbids a redirect.  The answer is annotated for routing and, if asked, for [FixIPSrc],
    and the packet is freed; without memory it is freed and nothing is sent.  The configured size
    must leave room for the two headers and the route. *)
Theorem ICMPError_answer mem c p i os e l id :
  reportable c p i os e l -> icmp_conf_ok c ->
  let ro := answer_options (snd <$> answered_route c p os) in
  28 + Z.of_nat (length ro) <= ie_mtu c ->
  let n := Nat.min (Z.to_nat (ie_mtu c) - 28 - length ro) (plength p) in
  match mem with
  | Some _ =>
      if no_redirect c os then ICMPError_simple_action mem c p id = Ok (None, id, [Kill p]) else
      exists q h ic, ICMPError_simple_action mem c p id = Ok (Some q, s32 (id + 1), [Kill p]) /\
        pk_data q = enc_ip h ++ ro ++ enc_icmp ic ++ take n (pk_data p) /\
        marked q /\ ip_ok h /\ i_vhl h = 69 + Z.of_nat (length ro) / 4 /\
        click_in_cksum (enc_ip h ++ ro) = 0 /\
        i_len h = htons (28 + Z.of_nat (length ro) + Z.of_nat n) /\ i_p h = IP_PROTO_ICMP /\ i_ttl h = 200 /\
        i_src h = ie_src_ip c /\ i_dst h = i_src i /\
        click_in_cksum (enc_icmp ic ++ take n (pk_data p)) = 0 /\
        ic_type ic = ie_type c /\ ic_code ic = ie_code c /\
        ic_rest ic = icmp_rest c (param_anno p) (default 0 (dst_ip_anno p)) /\
        dst_ip_anno q = Some (i_src i) /\
        (ie_use_fix_anno c = true -> anno_u8 FIX_IP_SRC_ANNO_OFFSET q = Ok 1)
  | None => ICMPError_simple_action mem c p id = Ok (None, id, [Kill p])
  end.
Proof.
  intros Hp Hc ro Hmro n. pose proof (reportable_guards c p i os e l Hp) as Eg. destruct Hc.
  pose proof (rp_wf _ _ _ _ _ _ Hp) as Hwf. destruct (anno_reads p Hwf) as (Ea & Har & Eg').
  destruct mem as [m|].
  2: { unfold ICMPError_simple_action. rewrite (hbind_lift_ok _ _ _ _ Eg).
       by destruct (no_redirect c os). }
  destruct (no_redirect c os).
  { unfold ICMPError_simple_action. rewrite (hbind_lift_ok _ _ _ _ Eg). reflexivity. }
  remember (Z.to_nat (ie_mtu c)) as mtu eqn:Emtu.
  assert (Hmtu : 28 + Z.of_nat (length ro) <= Z.of_nat mtu < 65536) by lia.
  set (q0 := MkPacket (junk m 0 default_headroom) (junk m default_headroom mtu)
    (junk m (default_headroom + mtu) (Nat.max (default_headroom + mtu + 0) CLICK_PACKET_POOL_BUFSIZ -
      default_headroom - mtu)) false (replicate anno_size 0) HOST None None None).
  assert (Em : make (Some m) default_headroom None mtu 0 = Ok (Some q0)) by reflexivity.
  assert (Hq0 : plength q0 = mtu) by apply length_junk.
  pose proof (wf_data _ Hwf) as Hbd.
  destruct Hp. assert (Hol : (length (enc_options os) <= 40)%nat) by lia.
  destruct (answer_options_ok p i os _ rp_data0 Hbd Hol (answered_route c p os)
    (answered_first c p os)) as (H40 & [nro Hnro] & Hbro). fold ro in H40, Hnro, Hbro.
  destruct (prepare_ip_run c id p i os _ rp_data0 rp_ok0 rp_marked0 Hbd Hol (answered_route c p os)
    (answered_first c p os) q0) as (len & ic & l0 & E1 & Hl0); [fold ro; lia|apply junk_ok|].
  fold ro in E1, Hl0.
  set (ic' := IcmpHdr (ie_type c) (ie_code c) 0 (icmp_rest c (param_anno p) (default 0 (dst_ip_anno p)))).
  set (A := answer_ip c id i ro len) in *.
  assert (Hhd : length (enc_ip A ++ ro) = (20 + length ro)%nat) by (by rewrite length_app).
  assert (E2 : prepare_icmp c p (20 + length ro) (set_data (enc_ip A ++ ro ++ enc_icmp ic ++ l0)
      (with_ip (20 + length ro) q0)) =
      Ok (set_data (enc_ip A ++ ro ++ enc_icmp ic' ++ l0) (with_ip (20 + length ro) q0))).
  { rewrite <- Hhd at 1. rewrite !(app_assoc (enc_ip A)). by apply prepare_icmp_run. }
  destruct (finish_icmp_run c id p i ro ic' l0 rp_ok0 rp_marked0 rp_small0 H40 nro Hnro)
    with (q := q0) (len := len) as (q & E3 & Hd & Hm & Hh & _ & Hdst & Hfix); [lia|done|].
  assert (Hn : Nat.min (length l0) (plength p) = n) by (unfold n; f_equal; lia).
  rewrite Hn in Hd.
  eexists q, _, _. split; [|split; [exact Hd|]].
  - unfold ICMPError_simple_action. hrun. rewrite <- Emtu. rewrite (hbind_lift_ok _ _ _ _ Em).
    hrun.
    assert (Et : transport_header_offset (set_data (enc_ip A ++ ro ++ enc_icmp ic ++ l0)
      (with_ip (20 + length ro) q0)) = Ok (Z.of_nat (20 + length ro))).
    { unfold transport_header_offset. cbn [pk_h set_data with_ip opt_res]. rewrite bind_ok.
      change (headroom (set_data _ _)) with (headroom q0). f_equal. lia. }
    hrun. rewrite Nat2Z.id. hrun. reflexivity.
  - assert (Hbody : bytes_ok (take n (pk_data p))) by auto with bytes.
    assert (Hlb : (length (take n (pk_data p)) <= n)%nat) by (rewrite length_take; lia).
    split; [done|]. split; [|split; [reflexivity|split; [|split; [|do 4 (split; [reflexivity|]); split]]]].
    + destruct rp_ok0. constructor; cbn; auto with wire; unfold in8; try lia.
      rewrite Hnro. zdm.
    + by apply answer_ip_verifies.
    + cbn [i_len ip_with_sum answer_ip]. f_equal. lia.
    + apply answer_icmp_verifies; [done|done|lia].
    + split; [done|]. split; [done|]. split; [done|]. by split.
Qed.

(** ** Concrete runs *)
Definition sample_icmp_conf : icmp_conf := IcmpConf (htonl 0x0a000001) 11 0 [] 576 0 true.
Definition expired_ip : ip_hdr := IpHdr 69 0 (htons 24) 7 0 1 17 0 (htonl 0x0a000002) (htonl 0x0a000003).
Definition expired_packet : packet :=
  MkPacket [] (enc_ip expired_ip ++ [1; 2; 3; 4]) [] false (replicate anno_size 0) HOST None (Some 0)
    (Some 20).

Lemma expired_wf : pk_wf expired_packet.
Proof.
  constructor; try reflexivity; try (constructor; fail).
  - change (bytes_ok (enc_ip expired_ip ++ [1; 2; 3; 4])). apply bytes_ok_app.
    split; [apply enc_ip_ok|solve_bytes].
  - apply bytes_ok_zero.
Qed.

(** A packet that came over 10.0.0.5 and 10.0.0.6. *)
Definition routed_ip : ip_hdr := IpHdr 72 0 (htons 36) 7 0 1 17 0 (htonl 0x0a000002) (htonl 0x0a000003).
Definition routed_option : ip_option := Opt IPOPT_LSRR [12; 10; 0; 0; 5; 10; 0; 0; 6].
Definition routed_packet : packet :=
  MkPacket [] (enc_ip routed_ip ++ enc_options [routed_option] ++ [0] ++ [1; 2; 3; 4]) [] false
    (replicate anno_size 0) HOST None (Some 0) (Some 32).

Lemma routed_reportable : reportable sample_icmp_conf routed_packet routed_ip [routed_option] 1 [1; 2; 3; 4].
Proof.
  constructor; try reflexivity.
  - sample_ok.
  - constructor; [|constructor]. split; [unfold IPOPT_LSRR; lia|done].
  - cbn. lia.
  - constructor; try reflexivity; try (constructor; fail); [|apply bytes_ok_zero].
    change (bytes_ok (enc_ip routed_ip ++ [131; 11; 12; 10; 0; 0; 5; 10; 0; 0; 6; 0; 1; 2; 3; 4])).
    apply bytes_ok_app. split; [apply enc_ip_ok|solve_bytes].
  - split; discriminate.
  - discriminate.
Qed.

(** The route the packet came by, reversed in the answer. *)
Theorem ICMPError_answer_witness :
  exists q, ICMPError_simple_action (Some (fun _ => 0)) sample_icmp_conf routed_packet 1 =
    Ok (Some q, 2, [Kill routed_packet]) /\ length (pk_data q) = 76%nat /\
    take 12 (drop 20 (pk_data q)) = [131; 11; 4; 10; 0; 0; 6; 10; 0; 0; 5; 0].
Proof.
  destruct (ICMPError_answer (Some (fun _ => 0)) sample_icmp_conf routed_packet routed_ip
    [routed_option] 1 [1; 2; 3; 4] 1 routed_reportable) as (q & h & ic & E & Hd & _).
  - repeat split; discriminate.
  - vm_compute. discriminate.
  - exists q. split; [exact E|]. rewrite Hd. split; reflexivity.
Defined.

Theorem ICMPError_answers_witness : answerable sample_icmp_conf expired_packet.
Proof.
  destruct (ICMPError_simple_action (Some (fun _ => 0)) sample_icmp_conf expired_packet 1)
    as [[[[q|] id'] t]|] eqn:E; [|vm_compute in E; discriminate E..].
  apply (ICMPError_answers _ _ _ _ _ _ _ expired_wf E). by exists q.
Defined.
