(* ===== verification/RouteTable.v ===== *)
(** * IP routing: [LinearIPLookup], [StaticIPLookup] and [IPRouteTable]

    The agents route with [StaticIPLookup], a [LinearIPLookup] that refuses changes once the
    router runs.  [LinearIPLookup] keeps routes in a vector; a removed route leaves a killed
    slot (0.0.0.0/32 with the port [-0x80000000]), and every route has in [extra] the index
    of the first later route it contains.  [IPRouteTable] is the superclass: the class below
    is its virtual interface, [configure], [run_command] and [ctrl_handler] are written
    against it.  Parsed routes ([cp_ip_route]) are arguments: [None] is a parse error. *)
From Stdlib Require Import ZArith Lia.
From stdpp Require Import base list numbers option gmap.
From S2P Require Import Prelude Packet Wire Mobility.

(** ** [IPAddress] and [IPRoute] *)
Definition matches_prefix (a addr mask : Z) : bool := Z.land (Z.lxor a addr) mask =? 0.
Definition mask_as_specific (m mask : Z) : bool := Z.land m mask =? mask.
Definition make_prefix (prefix_len : nat) : Z :=
  htonl (if (prefix_len =? 0)%nat then 0
         else u32 (Z.shiftl 0xFFFFFFFF (32 - Z.of_nat prefix_len))).

Record IPRoute : Type := Route {
  r_addr : Z; r_mask : Z; r_gw : Z; r_port : Z; r_extra : Z
}.
Definition real (r : IPRoute) : bool := -0x80000000 <? r_port r.
Definition kill_route (r : IPRoute) : IPRoute :=
  Route 0 0xFFFFFFFF (r_gw r) (-0x80000000) (r_extra r).
Definition contains (r : IPRoute) (a : Z) : bool := matches_prefix a (r_addr r) (r_mask r).
Definition contains_route (r r' : IPRoute) : bool :=
  matches_prefix (r_addr r') (r_addr r) (r_mask r) && mask_as_specific (r_mask r') (r_mask r).
Definition match_route (r r' : IPRoute) : bool :=
  (r_addr r =? r_addr r') && (r_mask r =? r_mask r') &&
  ((r_port r <? 0) || ((r_gw r =? r_gw r') && (r_port r =? r_port r'))).
Definition set_extra (x : Z) (r : IPRoute) : IPRoute :=
  Route (r_addr r) (r_mask r) (r_gw r) (r_port r) x.
Definition set_gw_port (gw port : Z) (r : IPRoute) : IPRoute :=
  Route (r_addr r) (r_mask r) gw port (r_extra r).

Definition EEXIST : Z := 17.
Definition ENOENT : Z := 2.
Definition EINVAL : Z := 22.

(** ** The virtual interface of [IPRouteTable]: the result code, the replaced or removed
    route and the new table; the port ([-1] for none) and the gateway of a lookup. *)
Class IPRouteTable (T : Type) := {
  irt_add_route : IPRoute -> bool -> T -> res (Z * option IPRoute * T);
  irt_remove_route : IPRoute -> T -> res (Z * option IPRoute * T);
  irt_lookup_route : Z -> T -> res (Z * Z)
}.

Section IPRouteTable.
Context {T : Type} `{IPRouteTable T} (noutputs : nat).

(** [configure]: the first error is not overwritten by a duplicate; [eexist] counts them. *)
Fixpoint configure_loop (conf : list (option IPRoute)) (r : Z) (eexist : nat) (t : T)
  : res (Z * nat * T) :=
  match conf with
  | [] => Ok (r, eexist, t)
  | None :: conf => configure_loop conf (- EINVAL) eexist t
  | Some route :: conf =>
      if (r_port route <? 0) || (Z.of_nat noutputs <=? r_port route)
      then configure_loop conf (- EINVAL) eexist t
      else
        '(r1, _, t') ← irt_add_route route false t;
        if r1 <? 0 then
          if r1 =? - EEXIST then configure_loop conf r (S eexist) t'
          else configure_loop conf r1 eexist t'
        else configure_loop conf r eexist t'
  end.
Definition IPRouteTable_configure (conf : list (option IPRoute)) (t : T) : res (Z * T) :=
  '(r, _, t') ← configure_loop conf 0 0 t; Ok (r, t').

Definition IPRouteTable_push (p : packet) : handler T event unit :=
  t <-- hget ;;
  a <-? opt_res OutOfBounds (dst_ip_anno p) ;;
  pg <-? irt_lookup_route a t ;;
  let '(port, gw) := pg in
  if 0 <=? port then
    if port <? Z.of_nat noutputs then
      hemit (Push (Z.to_nat port) (if gw =? 0 then p else set_dst_ip_anno gw p))
    else hlift (Fault AssertFailed)
  else hemit (Kill p).

Inductive command : Type := CMD_ADD | CMD_SET | CMD_REMOVE.
Definition cmd_number (c : command) : Z :=
  match c with CMD_ADD => 0 | CMD_SET => 1 | CMD_REMOVE => 2 end.

(** What a transaction logs: [old_route] starts with the port -1. *)
Definition logged (c : command) (route : IPRoute) (old : option IPRoute) : IPRoute :=
  match old with
  | Some o => if r_port o <? 0 then set_extra (cmd_number CMD_ADD) route
              else set_extra (cmd_number c) o
  | None => set_extra (cmd_number CMD_ADD) route
  end.

(** [run_command]: [old_routes] is a transaction's log, its last route first. *)
Definition run_command (c : command) (arg : option IPRoute) (old_routes : option (list IPRoute))
    (t : T) : res (Z * option (list IPRoute) * T) :=
  match arg with
  | None => Ok (- EINVAL, old_routes, t)
  | Some route =>
      if (r_port route <? (match c with CMD_REMOVE => -1 | _ => 0 end)) ||
         (Z.of_nat noutputs <=? r_port route)
      then Ok (- EINVAL, old_routes, t)
      else
        '(r, old, t') ← (match c with
                         | CMD_ADD => irt_add_route route false t
                         | CMD_SET => irt_add_route route true t
                         | CMD_REMOVE => irt_remove_route route t
                         end);
        let old_routes' :=
          if 0 <=? r then
            l ← old_routes; Some (logged c route old :: l)
          else old_routes in
        Ok (r, old_routes', t')
  end.

(** [ctrl_handler]'s rollback and its loop over the lines. *)
Fixpoint rollback (old_routes : list IPRoute) (t : T) : res T :=
  match old_routes with
  | [] => Ok t
  | rt :: old_routes =>
      '(_, _, t') ← (if r_extra rt =? cmd_number CMD_REMOVE then irt_add_route rt false t
                     else if r_extra rt =? cmd_number CMD_ADD then irt_remove_route rt t
                     else irt_add_route rt true t);
      rollback old_routes t'
  end.

Inductive ctrl_line : Type :=
| BlankLine
| BadCommand
| Command (c : command) (arg : option IPRoute).

(** A blank line does [continue] without moving on: [None] is running out of fuel. *)
Fixpoint ctrl_loop (fuel : nat) (lines : list ctrl_line) (old_routes : list IPRoute) (t : T)
  : option (res (Z * T)) :=
  match fuel with
  | O => None
  | S fuel =>
      match lines with
      | [] => Some (Ok (0, t))
      | BlankLine :: _ => ctrl_loop fuel lines old_routes t
      | BadCommand :: _ => Some (t' ← rollback old_routes t; Ok (- EINVAL, t'))
      | Command c arg :: lines =>
          match run_command c arg (Some old_routes) t with
          | Fault e => Some (Fault e)
          | Ok (r, l, t') =>
              if r <? 0 then Some (t' ← rollback (default [] l) t'; Ok (r, t'))
              else ctrl_loop fuel lines (default [] l) t'
          end
      end
  end.
Definition ctrl_handler (fuel : nat) (lines : list ctrl_line) (t : T) : option (res (Z * T)) :=
  ctrl_loop fuel lines [] t.
End IPRouteTable.

(** ** [LinearIPLookup] *)
Record table : Type := Table {
  rt_t : list IPRoute;             (* [_t] *)
  rt_zero : option nat;            (* [_zero_route], [None] for -1 *)
  rt_last_addr : Z; rt_last_entry : option nat;
  rt_last_addr2 : Z; rt_last_entry2 : option nat
}.
(** A constructed and initialised table; [e1], [e2] are uninitialised. *)
Definition new_table (e1 e2 : option nat) : table := Table [] None 0 e1 0 e2.

(** [for (int i = a; i < b; i++)] *)
Definition range (a b : Z) : list nat :=
  if a <? b then seq (Z.to_nat a) (Z.to_nat (b - a)) else [].

Definition lookup_step (t : list IPRoute) (a : Z) (found j : nat) : nat :=
  match t !! j, t !! found with
  | Some e, Some f =>
      if contains e a && mask_as_specific (r_mask e) (r_mask f) then j else found
  | _, _ => found
  end.
Definition lookup_entry (t : list IPRoute) (a : Z) : option nat :=
  '(i, e) ← list_find (fun e => contains e a = true) t;
  Some (fold_left (lookup_step t a) (range (r_extra e) (Z.of_nat (length t))) i).

(** [check()]: its verdict; it only prints otherwise. *)
Definition check_next (t : list IPRoute) : bool :=
  forallb (fun i => match t !! i with
    | Some e => negb (real e) ||
        forallb (fun j => match t !! j with
          | Some f => negb (contains_route e f && real f)
          | None => true
          end) (range (Z.of_nat i + 1) (Z.min (r_extra e) (Z.of_nat (length t))))
    | None => true
    end) (seq 0 (length t)).
Fixpoint check_duplicates (t : list IPRoute) : bool :=
  match t with
  | [] => true
  | e :: t =>
      forallb (fun f => negb ((r_addr e =? r_addr f) && (r_mask e =? r_mask f) &&
                              real e && real f)) t && check_duplicates t
  end.
Definition check_cache (t : list IPRoute) (addr : Z) (entry : option nat) : bool :=
  (addr =? 0) || bool_decide (lookup_entry t addr = entry).
Definition check (s : table) : bool :=
  check_next (rt_t s) && check_duplicates (rt_t s) &&
  check_cache (rt_t s) (rt_last_addr s) (rt_last_entry s) &&
  check_cache (rt_t s) (rt_last_addr2 s) (rt_last_entry2 s).

(** The first loop of [add_route]: an existing route for the prefix, or the first killed
    slot. *)
Fixpoint find_slot (r : IPRoute) (t : list IPRoute) (i : nat) (found : option nat)
  : nat + option nat :=
  match t with
  | [] => inr found
  | e :: t =>
      if negb (real e) then
        find_slot r t (S i) (match found with None => Some i | _ => found end)
      else if (r_addr e =? r_addr r) && (r_mask e =? r_mask r) then inl i
      else find_slot r t (S i) found
  end.

(** Patching the next pointers around the new slot [found]. *)
Definition patch_next (r : IPRoute) (found : nat) (t : list IPRoute) : list IPRoute :=
  imap (fun i e =>
    if (i <? found)%nat && contains_route e r && (Z.of_nat found <? r_extra e)
    then set_extra (Z.of_nat found) e else e) t.
Definition next_of (r : IPRoute) (found : nat) (t : list IPRoute) : Z :=
  match list_find (fun e => contains_route r e && real e = true) (drop (S found) t) with
  | Some (k, _) => Z.of_nat (S found + k)
  | None => 0x7FFFFFFF
  end.
Definition place_route (r : IPRoute) (found : nat) (t : list IPRoute) : list IPRoute :=
  let t := if (found <? length t)%nat then <[found := r]> t else t ++ [r] in
  patch_next r found (alter (set_extra (next_of r found t)) found t).

Definition add_route (r : IPRoute) (allow_replace : bool) (s : table)
  : Z * option IPRoute * table :=
  match find_slot r (rt_t s) 0 None with
  | inl i =>
      let old := rt_t s !! i in
      if allow_replace then
        (0, old, Table (alter (set_gw_port (r_gw r) (r_port r)) i (rt_t s)) (rt_zero s)
                   (rt_last_addr s) (rt_last_entry s) (rt_last_addr2 s) (rt_last_entry2 s))
      else (- EEXIST, old, s)
  | inr slot =>
      let found := default (length (rt_t s)) slot in
      (0, None, Table (place_route r found (rt_t s))
                  (if (r_addr r =? 0) && (r_mask r =? 0xFFFFFFFF) then Some found else rt_zero s)
                  0 (rt_last_entry s) 0 (rt_last_entry2 s))
  end.

Definition remove_route (route : IPRoute) (s : table) : res (Z * option IPRoute * table) :=
  match list_find (fun e => match_route route e = true) (rt_t s) with
  | None => Ok (- ENOENT, None, s)
  | Some (i, old) =>
      let s1 := Table (alter kill_route i (rt_t s)) (rt_zero s) (rt_last_addr s)
                  (rt_last_entry s) (rt_last_addr2 s) (rt_last_entry2 s) in
      s2 ← (match rt_zero s with
            | None => Ok s1
            | Some z =>
                if (i =? z)%nat then
                  Ok (Table (rt_t s1) None (rt_last_addr s) (rt_last_entry s)
                        (rt_last_addr2 s) (rt_last_entry2 s))
                else if (i <? z)%nat then
                  zero ← opt_res AssertFailed (rt_t s1 !! z);
                  let '(r, _, s2) :=
                    add_route zero false (Table (alter kill_route z (rt_t s1)) (rt_zero s)
                      (rt_last_addr s) (rt_last_entry s) (rt_last_addr2 s) (rt_last_entry2 s)) in
                  if 0 <=? r then Ok s2 else Fault AssertFailed
                else Ok s1
            end);
      Ok (0, Some old, Table (rt_t s2) (rt_zero s2) 0 (rt_last_entry s2) 0 (rt_last_entry2 s2))
  end.

Definition lookup_route (a : Z) (s : table) : res (Z * Z) :=
  match lookup_entry (rt_t s) a with
  | Some ei => e ← opt_res AssertFailed (rt_t s !! ei); Ok (r_port e, r_gw e)
  | None => Ok (-1, 0)
  end.

(** The end of [push]: [const IPRoute &e = _t[ei]; …] *)
Definition push_along (noutputs : nat) (ei : option nat) (p : packet) : handler table event unit :=
  s <-- hget ;;
  e <-? opt_res AssertFailed (i ← ei; rt_t s !! i) ;;
  let p := if r_gw e =? 0 then p else set_dst_ip_anno (r_gw e) p in
  if (0 <=? r_port e) && (r_port e <? Z.of_nat noutputs)
  then hemit (Push (Z.to_nat (r_port e)) p)
  else hlift (Fault AssertFailed).

Definition LinearIPLookup_push (noutputs : nat) (p : packet) : handler table event unit :=
  s <-- hget ;;
  a <-? opt_res OutOfBounds (dst_ip_anno p) ;;
  if negb (a =? 0) && (a =? rt_last_addr s) then push_along noutputs (rt_last_entry s) p
  else if negb (a =? 0) && (a =? rt_last_addr2 s) then push_along noutputs (rt_last_entry2 s) p
  else
    match lookup_entry (rt_t s) a with
    | Some ei =>
        hput (Table (rt_t s) (rt_zero s) a (Some ei) (rt_last_addr s) (rt_last_entry s)) ;;;
        push_along noutputs (Some ei) p
    | None => hemit (Kill p)
    end.

#[global] Instance LinearIPLookup : IPRouteTable table := {|
  irt_add_route r b s := Ok (add_route r b s);
  irt_remove_route := remove_route;
  irt_lookup_route := lookup_route
|}.

(** ** [StaticIPLookup]: [initialized] is [router()->initialized()]. *)
Definition Static_add_route (initialized : bool) (r : IPRoute) (set : bool) (s : table)
  : Z * option IPRoute * table :=
  if initialized then (- EINVAL, None, s) else add_route r set s.
Definition Static_remove_route (initialized : bool) (r : IPRoute) (s : table)
  : res (Z * option IPRoute * table) :=
  if initialized then Ok (- EINVAL, None, s) else remove_route r s.
Definition StaticIPLookup (initialized : bool) : IPRouteTable table := {|
  irt_add_route r b s := Ok (Static_add_route initialized r b s);
  irt_remove_route := Static_remove_route initialized;
  irt_lookup_route := lookup_route
|}.
