(* ===== verification/RouteSlots.v ===== *)
(** * The slots of [LinearIPLookup]: lemmas

    The abstract view of a table is the map from prefixes to gateways and ports of its real
    slots.  This file shows that [lookup_entry] finds a longest prefix in a table that keeps
    the next-pointer invariant, and what placing, killing and replacing a slot do to the
    invariant and to the map. *)
From Stdlib Require Import ZArith Lia.
From stdpp Require Import base list numbers option gmap.
From S2P Require Import Prelude Packet Wire Mobility RouteTable.

(** ** The abstract table: a map from prefixes to gateways and ports *)
Definition rkey (e : IPRoute) : Z * Z := (r_addr e, r_mask e).
Definition rval (e : IPRoute) : Z * Z := (r_gw e, r_port e).
Definition zero_key : Z * Z := (0, 0xFFFFFFFF).
Definition routes (t : list IPRoute) : gmap (Z * Z) (Z * Z) :=
  foldr (fun e m => if real e then <[rkey e := rval e]> m else m) ∅ t.

(** Slot [i] of [t] holds the real route [e]. *)
Definition slot (t : list IPRoute) (i : nat) (e : IPRoute) : Prop :=
  t !! i = Some e /\ real e = true.
Definition unique (t : list IPRoute) : Prop :=
  forall i j e f, slot t i e -> slot t j f -> rkey e = rkey f -> i = j.

Lemma unique_tail e t : unique (e :: t) -> unique t.
Proof.
  intros H i j a b Hi Hj Hk. specialize (H (S i) (S j) a b Hi Hj Hk). by injection H.
Qed.
Lemma routes_lookup t k v :
  unique t -> routes t !! k = Some v <-> exists i e, slot t i e /\ rkey e = k /\ rval e = v.
Proof.
  induction t as [|e t IH]; intros Hu.
  - cbn [routes foldr]. split; [by rewrite lookup_empty|]. by intros (i & e & [[=] _] & _).
  - cbn [routes foldr]. fold (routes t). specialize (IH (unique_tail _ _ Hu)).
    assert (Hs : forall i f, slot (e :: t) i f <-> (i = 0%nat /\ f = e /\ real e = true) \/
      exists j, i = S j /\ slot t j f).
    { intros i f. unfold slot. destruct i as [|i]; cbn; split.
      - intros [[= ->] H]. by left.
      - intros [(_ & -> & H)|(j & [=] & _)]. done.
      - intros H. right. eauto.
      - intros [([=] & _)|(j & [= ->] & H)]. done. }
    destruct (real e) eqn:Er.
    + destruct (decide (rkey e = k)) as [<-|Hne].
      * rewrite lookup_insert_eq. split.
        -- intros [= <-]. exists 0%nat, e. done.
        -- intros (i & f & Hi & Hk & <-).
           assert (H0 : slot (e :: t) 0 e) by done. specialize (Hu i 0%nat f e Hi H0 Hk). subst i.
           destruct Hi as [[= ->] _]. done.
      * rewrite lookup_insert_ne by done. rewrite IH. split.
        -- intros (i & f & Hi & ?). exists (S i), f. by rewrite Hs; eauto.
        -- intros (i & f & Hi & Hk & Hv). rewrite Hs in Hi.
           destruct Hi as [(-> & -> & _)|(j & -> & Hj)]; [done|eauto].
    + rewrite IH. split.
      * intros (i & f & Hi & ?). exists (S i), f. by rewrite Hs; eauto.
      * intros (i & f & Hi & Hk & Hv). rewrite Hs in Hi.
        destruct Hi as [(-> & -> & ?)|(j & -> & Hj)]; [done|eauto].
Qed.

(** [routes] of a table whose slots agree with those of another one up to [extra], except
    that prefix [k] has become [o]. *)
Lemma routes_update t t' k o :
  unique t -> unique t' ->
  (forall k' v, k' <> k -> (exists i e, slot t' i e /\ rkey e = k' /\ rval e = v) <->
                (exists i e, slot t i e /\ rkey e = k' /\ rval e = v)) ->
  (forall v, (exists i e, slot t' i e /\ rkey e = k /\ rval e = v) <-> o = Some v) ->
  routes t' = partial_alter (fun _ => o) k (routes t).
Proof.
  intros Hu Hu' Hne Hk. apply map_eq. intros k'. apply option_eq. intros v.
  rewrite (routes_lookup t' k' v Hu'). destruct (decide (k' = k)) as [->|Hn].
  - rewrite lookup_partial_alter_eq. apply Hk.
  - rewrite lookup_partial_alter_ne by done. rewrite (routes_lookup t k' v Hu). by apply Hne.
Qed.

(** ** Prefix masks are nested *)
Definition prefix_masks : list Z := map make_prefix (seq 0 33).
Definition prefix_mask (m : Z) : Prop := m ∈ prefix_masks.

Lemma prefix_masks_nested m m' :
  prefix_mask m -> prefix_mask m' -> mask_as_specific m m' = true \/ mask_as_specific m' m = true.
Proof.
  intros H H'. 
  assert (E : forallb (fun m => forallb (fun m' => mask_as_specific m m' || mask_as_specific m' m)
    prefix_masks) prefix_masks = true) by (vm_compute; reflexivity).
  rewrite forallb_forall in E. specialize (E m ltac:(by apply list_elem_of_In)).
  rewrite forallb_forall in E. specialize (E m' ltac:(by apply list_elem_of_In)).
  by apply orb_true_iff in E.
Qed.

Lemma prefix_mask_in32 m : prefix_mask m -> in32 m.
Proof.
  intros H. assert (E : forallb (fun m => (0 <=? m) && (m <? 4294967296)) prefix_masks = true)
    by (vm_compute; reflexivity).
  rewrite forallb_forall in E. specialize (E m ltac:(by apply list_elem_of_In)).
  apply andb_true_iff in E as [H1%Z.leb_le H2%Z.ltb_lt]. by split.
Qed.

Lemma mask_as_specific_refl m : mask_as_specific m m = true.
Proof. unfold mask_as_specific. by rewrite Z.land_diag, Z.eqb_refl. Qed.
Lemma mask_as_specific_trans m1 m2 m3 :
  mask_as_specific m1 m2 = true -> mask_as_specific m2 m3 = true -> mask_as_specific m1 m3 = true.
Proof.
  unfold mask_as_specific. rewrite !Z.eqb_eq. intros H1 H2.
  rewrite <- H2 at 1. by rewrite Z.land_assoc, H1, H2.
Qed.

Lemma matches_prefix_bits a addr mask :
  matches_prefix a addr mask = true <->
  forall n, 0 <= n -> Z.testbit mask n = true -> Z.testbit a n = Z.testbit addr n.
Proof.
  unfold matches_prefix. rewrite Z.eqb_eq. split; intros H.
  - intros n Hn Hm. assert (E := f_equal (fun z => Z.testbit z n) H). cbn beta in E.
    rewrite Z.land_spec, Z.lxor_spec, Hm, Z.bits_0, andb_true_r in E.
    by destruct (Z.testbit a n), (Z.testbit addr n).
  - apply Z.bits_inj'. intros n Hn. rewrite Z.land_spec, Z.lxor_spec, Z.bits_0.
    destruct (Z.testbit mask n) eqn:E; [|by rewrite andb_false_r].
    rewrite (H n Hn E). by destruct (Z.testbit addr n).
Qed.
Lemma mask_as_specific_bits m mask :
  mask_as_specific m mask = true ->
  forall n, Z.testbit mask n = true -> Z.testbit m n = true.
Proof.
  unfold mask_as_specific. rewrite Z.eqb_eq. intros H n Hn.
  rewrite <- H, Z.land_spec in Hn. by apply andb_true_iff in Hn as [].
Qed.

(** Two routes for one address: the one with the wider mask contains the other. *)
Lemma contains_nested e f a :
  contains e a = true -> contains f a = true -> mask_as_specific (r_mask f) (r_mask e) = true ->
  contains_route e f = true.
Proof.
  unfold contains, contains_route. intros He Hf Hm. rewrite Hm, andb_true_r.
  rewrite matches_prefix_bits in *. intros n Hn Hb. rewrite <- (He n Hn Hb).
  symmetry. apply Hf; [done|]. by apply (mask_as_specific_bits _ _ Hm).
Qed.

(** A killed slot contains nothing but 0.0.0.0. *)
Lemma contains_killed e a : rkey e = zero_key -> in32 a -> contains e a = true -> a = 0.
Proof.
  intros [= Ha Hm] Hr. unfold contains, matches_prefix. rewrite Ha, Hm, Z.lxor_0_r.
  change 0xFFFFFFFF with (Z.ones 32). rewrite Z.land_ones by lia. unfold in32 in Hr.
  rewrite Z.mod_small by lia. by rewrite Z.eqb_eq.
Qed.

(** ** [lookup_entry] finds the longest prefix *)
Lemma elem_of_range a b j : a <= Z.of_nat j < b -> j ∈ range a b.
Proof.
  intros H. unfold range. destruct (Z.ltb_spec a b); [|lia]. apply elem_of_seq. lia.
Qed.

Section Lookup.
Context (t : list IPRoute) (a : Z).
Hypothesis nested : forall i j e f, t !! i = Some e -> t !! j = Some f ->
  contains e a = true -> contains f a = true ->
  mask_as_specific (r_mask e) (r_mask f) = true \/ mask_as_specific (r_mask f) (r_mask e) = true.
Hypothesis next : forall i j e f, (i < j)%nat -> t !! i = Some e -> t !! j = Some f ->
  contains e a = true -> contains f a = true -> Z.of_nat j < r_extra e ->
  contains_route e f = false.

Lemma lookup_fold js found e :
  t !! found = Some e -> contains e a = true ->
  exists e', t !! fold_left (lookup_step t a) js found = Some e' /\ contains e' a = true /\
    mask_as_specific (r_mask e') (r_mask e) = true /\
    forall j f, j ∈ js -> t !! j = Some f -> contains f a = true ->
      mask_as_specific (r_mask e') (r_mask f) = true.
Proof.
  revert found e. induction js as [|j js IH]; intros found e He Hc.
  { exists e. split_and!; [done|done|apply mask_as_specific_refl|by intros ? ? ?%elem_of_nil]. }
  cbn [fold_left].
  assert (Hstep : exists e1, t !! lookup_step t a found j = Some e1 /\ contains e1 a = true /\
    mask_as_specific (r_mask e1) (r_mask e) = true /\
    forall f, t !! j = Some f -> contains f a = true -> mask_as_specific (r_mask e1) (r_mask f) = true).
  { unfold lookup_step. rewrite He. destruct (t !! j) as [f|] eqn:Ef.
    2: { exists e. split_and!; [done|done|apply mask_as_specific_refl|done]. }
    destruct (contains f a) eqn:Cf; cbn [andb].
    2: { exists e. split_and!; [done|done|apply mask_as_specific_refl|].
         intros g [= <-]. congruence. }
    destruct (mask_as_specific (r_mask f) (r_mask e)) eqn:Em.
    - exists f. split_and!; [done|done|done|]. intros g [= <-] _. apply mask_as_specific_refl.
    - exists e. split_and!; [done|done|apply mask_as_specific_refl|]. intros g [= <-] _.
      destruct (nested _ _ _ _ He Ef Hc Cf); congruence. }
  destruct Hstep as (e1 & He1 & Hc1 & Hm1 & Hj).
  destruct (IH _ e1 He1 Hc1) as (e' & He' & Hc' & Hm' & Hall).
  exists e'. split_and!; [done|done|by eapply mask_as_specific_trans|].
  intros k f [->|Hk]%elem_of_cons Hf Cf; [|by eapply Hall].
  eapply mask_as_specific_trans; [exact Hm'|by apply Hj].
Qed.

Lemma lookup_entry_spec :
  match lookup_entry t a with
  | None => forall j f, t !! j = Some f -> contains f a = false
  | Some i => exists e, t !! i = Some e /\ contains e a = true /\
      forall j f, t !! j = Some f -> contains f a = true ->
        mask_as_specific (r_mask e) (r_mask f) = true
  end.
Proof.
  unfold lookup_entry. destruct (list_find _ t) as [[i e]|] eqn:Ef; cbn.
  - apply list_find_Some in Ef as (He & Hc & Hbefore).
    destruct (lookup_fold (range (r_extra e) (Z.of_nat (length t))) i e He Hc)
      as (e' & He' & Hc' & Hm' & Hall).
    exists e'. split_and!; [done|done|]. intros j f Hf Cf.
    pose proof (lookup_lt_Some _ _ _ Hf) as Hlt.
    destruct (Z.le_gt_cases (r_extra e) (Z.of_nat j)) as [Hge|Hlt'].
    { eapply Hall; [apply elem_of_range; split; [exact Hge|lia]|exact Hf|exact Cf]. }
    destruct (Nat.lt_trichotomy j i) as [Hji|[->|Hij]].
    + specialize (Hbefore j f Hf Hji). congruence.
    + rewrite He in Hf. apply Some_inj in Hf as <-. exact Hm'.
    + specialize (next _ _ _ _ Hij He Hf Hc Cf Hlt').
      destruct (nested _ _ _ _ He Hf Hc Cf) as [Hm|Hm].
      * by eapply mask_as_specific_trans.
      * rewrite (contains_nested e f a Hc Cf Hm) in next. congruence.
  - apply list_find_None in Ef. intros j f Hf. rewrite Forall_forall in Ef.
    apply not_true_is_false. apply Ef. by apply list_elem_of_lookup_2 with j.
Qed.
End Lookup.

(** ** The invariant *)
Record route_ok (noutputs : nat) (r : IPRoute) : Prop := {
  ok_addr : in32 (r_addr r);
  ok_mask : prefix_mask (r_mask r);
  ok_masked : Z.land (r_addr r) (r_mask r) = r_addr r;
  ok_port : 0 <= r_port r < Z.of_nat noutputs
}.

Definition cache_ok (t : list IPRoute) (addr : Z) (entry : option nat) : Prop :=
  addr = 0 \/ exists i, entry = Some i /\ lookup_entry t addr = Some i.

Record slots_ok (noutputs : nat) (t : list IPRoute) : Prop := {
  ok_slots : forall i e, t !! i = Some e ->
    if real e then route_ok noutputs e else rkey e = zero_key;
  ok_unique : unique t;
  ok_next : forall i j e f, (i < j)%nat -> slot t i e -> slot t j f ->
    Z.of_nat j < r_extra e -> contains_route e f = false
}.
Record zero_ok (t : list IPRoute) (z : option nat) : Prop := {
  ok_zero : forall i e, slot t i e -> rkey e = zero_key -> z = Some i;
  ok_zero_real : forall i, z = Some i -> exists e, slot t i e /\ rkey e = zero_key
}.
(** No killed slot comes before the zero route: [remove_route] finds the real one first. *)
Definition reals_below (t : list IPRoute) (n : nat) : Prop :=
  forall j f, (j < n)%nat -> t !! j = Some f -> real f = true.
Definition zero_first (t : list IPRoute) (z : option nat) : Prop :=
  forall i, z = Some i -> reals_below t i.
Record table_ok (noutputs : nat) (s : table) : Prop := {
  table_slots : slots_ok noutputs (rt_t s);
  table_zero : zero_ok (rt_t s) (rt_zero s);
  table_first : zero_first (rt_t s) (rt_zero s);
  ok_cache : cache_ok (rt_t s) (rt_last_addr s) (rt_last_entry s);
  ok_cache2 : cache_ok (rt_t s) (rt_last_addr2 s) (rt_last_entry2 s)
}.

Lemma new_table_ok noutputs e1 e2 : table_ok noutputs (new_table e1 e2).
Proof.
  constructor; [|constructor; [by intros i e [? _]|done]|done|by left|by left].
  constructor; [done|by intros i j e f [? _]|by intros i j e f _ [? _]].
Qed.

(** For other addresses than 0.0.0.0 the slots that count are the real ones. *)
Lemma containing_real noutputs t a i e :
  slots_ok noutputs t -> in32 a -> a <> 0 -> t !! i = Some e -> contains e a = true ->
  slot t i e /\ route_ok noutputs e.
Proof.
  intros Hok Ha H0 He Hc. pose proof (ok_slots _ _ Hok i e He) as Hr. unfold slot.
  destruct (real e) eqn:Er; [done|]. by destruct (H0 (contains_killed e a Hr Ha Hc)).
Qed.

(** What looking an address up in a map of prefixes promises: a matching prefix at least as
    specific as any other matching one. *)
Definition prefix_matches (k : Z * Z) (a : Z) : Prop := matches_prefix a k.1 k.2 = true.
Definition longest_match (m : gmap (Z * Z) (Z * Z)) (a : Z) (v : Z * Z) : Prop :=
  exists k, m !! k = Some v /\ prefix_matches k a /\
    forall k' v', m !! k' = Some v' -> prefix_matches k' a ->
      mask_as_specific k.2 k'.2 = true.
Definition no_match (m : gmap (Z * Z) (Z * Z)) (a : Z) : Prop :=
  forall k v, m !! k = Some v -> ~ prefix_matches k a.

Lemma lookup_entry_longest noutputs t a :
  slots_ok noutputs t -> in32 a -> a <> 0 ->
  match lookup_entry t a with
  | Some i => exists e, slot t i e /\ route_ok noutputs e /\ longest_match (routes t) a (rval e)
  | None => no_match (routes t) a
  end.
Proof.
  intros Hok Ha H0. pose proof (lookup_entry_spec t a) as H.
  pose proof (ok_unique _ _ Hok) as Hu.
  match type of H with ?A -> ?B -> _ => assert (HA : A); [|assert (HB : B)] end.
  { intros i j e f He Hf Ce Cf.
    destruct (containing_real _ _ _ _ _ Hok Ha H0 He Ce) as [_ Re].
    destruct (containing_real _ _ _ _ _ Hok Ha H0 Hf Cf) as [_ Rf].
    apply prefix_masks_nested; [apply (ok_mask _ _ Re)|apply (ok_mask _ _ Rf)]. }
  { intros i j e f Hij He Hf Ce Cf. apply (ok_next _ _ Hok i j); [done| |].
    - apply (containing_real _ _ _ _ _ Hok Ha H0 He Ce).
    - apply (containing_real _ _ _ _ _ Hok Ha H0 Hf Cf). }
  specialize (H HA HB). destruct (lookup_entry t a) as [i|].
  - destruct H as (e & He & Ce & Hall).
    destruct (containing_real _ _ _ _ _ Hok Ha H0 He Ce) as [Hs Hr].
    exists e. split_and!; [done|done|]. exists (rkey e). split_and!.
    + apply routes_lookup; [done|]. by exists i, e.
    + exact Ce.
    + intros k' v' (j & f & [Hf _] & <- & _)%routes_lookup Hm; [|done]. by apply (Hall j f).
  - intros k v (j & f & [Hf _] & <- & _)%routes_lookup Hm; [|done].
    specialize (H j f Hf). unfold prefix_matches in Hm. unfold contains in H. cbn in Hm. congruence.
Qed.

(** ** Operations on the slots *)
Lemma contains_route_ext e f e' f' :
  rkey e = rkey e' -> rkey f = rkey f' -> contains_route e f = contains_route e' f'.
Proof. intros [= H1 H2] [= H3 H4]. unfold contains_route. congruence. Qed.

Lemma find_slot_gen r pre t found :
  match find_slot r t (length pre) found with
  | inl i => exists e, slot (pre ++ t) i e /\ rkey e = rkey r
  | inr o => (forall i e, slot t i e -> rkey e <> rkey r) /\
      (o = found \/ exists i e, o = Some i /\ (pre ++ t) !! i = Some e /\ real e = false)
  end.
Proof.
  revert pre found. induction t as [|e t IH]; intros pre found; cbn [find_slot].
  { split; [by intros i e [? _]|by left]. }
  assert (Hc : forall i f, slot (e :: t) i f -> (f = e /\ real e = true) \/ exists j, slot t j f).
  { intros [|i] f [Hf Hr]; cbn in Hf; [left; by injection Hf as <-|right; by exists i]. }
  assert (He : (pre ++ e :: t) !! length pre = Some e) by by rewrite list_lookup_middle.
  specialize (IH (pre ++ [e])). rewrite length_app, Nat.add_1_r in IH.
  rewrite <- app_assoc in IH. cbn in IH.
  destruct (real e) eqn:Er; cbn [negb].
  - destruct (Z.eqb_spec (r_addr e) (r_addr r)) as [Ha|Ha];
      [destruct (Z.eqb_spec (r_mask e) (r_mask r)) as [Hm|Hm]|]; cbn [andb].
    { exists e. split; [done|]. unfold rkey. congruence. }
    all: specialize (IH found); destruct (find_slot r t _ found); [exact IH|];
      destruct IH as [H1 H2]; split; [|exact H2]; intros i f Hf;
      destruct (Hc i f Hf) as [[-> _]|[j Hj]]; [intros [= ? ?]; congruence|by apply (H1 j)].
  - specialize (IH (match found with None => Some (length pre) | _ => found end)).
    destruct (find_slot r t _ _); [exact IH|]. destruct IH as [H1 H2]. split.
    + intros i f Hf. destruct (Hc i f Hf) as [[-> ?]|[j Hj]]; [congruence|by apply (H1 j)].
    + destruct H2 as [H2|H2]; [|by right]. destruct found; [by left|]. right.
      by exists (length pre), e.
Qed.
Lemma find_slot_spec r t :
  match find_slot r t 0 None with
  | inl i => exists e, slot t i e /\ rkey e = rkey r
  | inr o => (forall i e, slot t i e -> rkey e <> rkey r) /\
      let found := default (length t) o in
      (found <= length t)%nat /\ forall e, ~ slot t found e
  end.
Proof.
  pose proof (find_slot_gen r [] t None) as H. cbn in H. destruct (find_slot r t 0 None) as [|o].
  { exact H. }
  destruct H as [H1 H2]. split; [exact H1|]. destruct H2 as [->|(i & e & -> & He & Hr)]; cbn.
  - split; [lia|]. intros e [He _]. by rewrite lookup_ge_None_2 in He by lia.
  - pose proof (lookup_lt_Some _ _ _ He). split; [lia|]. intros f [Hf Hr']. congruence.
Qed.

(** The slot is the first killed one. *)
Lemma find_slot_keeps r t n k o : find_slot r t n (Some k) = inr o -> o = Some k.
Proof.
  revert n. induction t as [|e t IH]; intros n; cbn [find_slot]; [by intros [= <-]|].
  destruct (negb (real e)); [apply IH|]. destruct (_ && _); [done|apply IH].
Qed.
Lemma find_slot_first r t n o :
  find_slot r t n None = inr o ->
  reals_below t (match o with Some i => i - n | None => length t end).
Proof.
  revert n. induction t as [|e t IH]; intros n; cbn [find_slot]; [by intros [= <-] j f _ [=]|].
  destruct (real e) eqn:Er; cbn [negb].
  - destruct (_ && _); [done|]. intros Hf%IH [|j] f Hj Hl; cbn in Hl; [by injection Hl as <-|].
    apply (Hf j f); [|done]. destruct o; cbn [length] in Hj; lia.
  - intros ->%find_slot_keeps j f Hj. lia.
Qed.
Lemma find_slot_below r t o :
  find_slot r t 0 None = inr o -> reals_below t (default (length t) o).
Proof. intros H%find_slot_first. destruct o; cbn in *; [by rewrite Nat.sub_0_r in H|done]. Qed.

Definition patch_slot (r : IPRoute) (found i : nat) (e : IPRoute) : IPRoute :=
  if (i <? found)%nat && contains_route e r && (Z.of_nat found <? r_extra e)
  then set_extra (Z.of_nat found) e else e.

Lemma place_lookup r found t i :
  (found <= length t)%nat ->
  exists x, place_route r found t !! i =
    (if decide (i = found) then Some (set_extra x r) else patch_slot r found i <$> t !! i) /\
  forall j f, (found < j)%nat -> slot t j f -> Z.of_nat j < x -> contains_route r f = false.
Proof.
  intros Hle. unfold place_route, patch_next.
  set (t1 := if (found <? length t)%nat then <[found := r]> t else t ++ [r]).
  assert (H1 : forall i, t1 !! i = if decide (i = found) then Some r else t !! i).
  { intros k. unfold t1. destruct (Nat.ltb_spec found (length t)) as [Hlt|Hge].
    - destruct (decide (k = found)) as [->|Hn]; [by rewrite list_lookup_insert_eq|].
      by rewrite list_lookup_insert_ne.
    - assert (found = length t) as -> by lia. destruct (decide (k = length t)) as [->|Hn].
      + by rewrite list_lookup_middle.
      + destruct (decide (k < length t)%nat); [by rewrite lookup_app_l|].
        rewrite !lookup_ge_None_2; [done|lia|rewrite length_app; cbn; lia]. }
  exists (next_of r found t1). split.
  - rewrite list_lookup_imap. destruct (decide (i = found)) as [->|Hn].
    + rewrite list_lookup_alter_eq, H1, decide_True by done.
      cbn [fmap option_fmap option_map]. by rewrite (Nat.ltb_irrefl found).
    + rewrite list_lookup_alter_ne by done. by rewrite H1, decide_False.
  - intros j f Hj [Hf Hr] Hx. unfold next_of in Hx.
    assert (Hf1 : drop (S found) t1 !! (j - S found)%nat = Some f).
    { rewrite lookup_drop. replace (S found + (j - S found))%nat with j by lia.
      rewrite H1, decide_False by lia. done. }
    destruct (list_find _ _) as [[k g]|] eqn:El.
    + apply list_find_Some in El as (_ & _ & Hb).
      specialize (Hb _ f Hf1 ltac:(lia)). rewrite Hr, andb_true_r in Hb.
      by apply not_true_is_false.
    + apply list_find_None in El. rewrite Forall_forall in El.
      specialize (El f ltac:(by eapply list_elem_of_lookup_2)). rewrite Hr, andb_true_r in El.
      by apply not_true_is_false.
Qed.

Lemma patch_slot_same r found i e :
  rkey (patch_slot r found i e) = rkey e /\ rval (patch_slot r found i e) = rval e /\
  real (patch_slot r found i e) = real e /\ r_extra (patch_slot r found i e) <= r_extra e /\
  ((i < found)%nat -> contains_route e r = true -> r_extra (patch_slot r found i e) <= Z.of_nat found).
Proof.
  unfold patch_slot. destruct (Nat.ltb_spec i found), (contains_route e r); cbn [andb];
    try (split_and!; (done || lia)).
  destruct (Z.ltb_spec (Z.of_nat found) (r_extra e)); cbn; split_and!; (done || lia).
Qed.

Lemma route_real noutputs r : route_ok noutputs r -> real r = true.
Proof. intros []. unfold real. apply Z.ltb_lt. lia. Qed.
Lemma route_ok_same noutputs e e' :
  rkey e = rkey e' -> rval e = rval e' -> route_ok noutputs e -> route_ok noutputs e'.
Proof. intros [= H1 H2] [= H3 H4] []. constructor; congruence. Qed.

Section Place.
Context (noutputs : nat) (r : IPRoute) (found : nat) (t : list IPRoute).
Hypothesis Hle : (found <= length t)%nat.

Lemma place_slot_inv i e' :
  slot (place_route r found t) i e' ->
  (i = found /\ rkey e' = rkey r /\ rval e' = rval r /\
    forall j f, (found < j)%nat -> slot t j f -> Z.of_nat j < r_extra e' ->
      contains_route r f = false) \/
  (i <> found /\ exists e, slot t i e /\ e' = patch_slot r found i e).
Proof.
  intros [He Hr]. destruct (place_lookup r found t i Hle) as (x & Hx & Hn). rewrite Hx in He.
  destruct (decide (i = found)) as [->|Hne].
  - apply Some_inj in He as <-. left. split_and!; try done.
  - destruct (t !! i) as [e|] eqn:Ee; [|done]. cbn in He. apply Some_inj in He as <-.
    right. split; [done|]. exists e. split; [|done]. split; [done|].
    by rewrite <- (proj1 (proj2 (proj2 (patch_slot_same r found i e)))).
Qed.
Lemma place_slot_found :
  real r = true -> exists e, slot (place_route r found t) found e /\ rkey e = rkey r /\ rval e = rval r.
Proof.
  intros Hr. destruct (place_lookup r found t found Hle) as (x & Hx & _).
  rewrite decide_True in Hx by done. by exists (set_extra x r).
Qed.
Lemma place_slot_other i e :
  i <> found -> slot t i e -> slot (place_route r found t) i (patch_slot r found i e).
Proof.
  intros Hn [He Hr]. destruct (place_lookup r found t i Hle) as (x & Hx & _).
  rewrite decide_False in Hx by done. split; [by rewrite Hx, He|].
  by rewrite (proj1 (proj2 (proj2 (patch_slot_same r found i e)))).
Qed.

Hypothesis Hfree : forall e, ~ slot t found e.
Hypothesis Hnew : forall i e, slot t i e -> rkey e <> rkey r.
Hypothesis Hslots : slots_ok noutputs t.
Hypothesis Hroute : route_ok noutputs r.

Lemma place_unique : unique (place_route r found t).
Proof.
  intros i j e f Hi Hj Hk.
  destruct (place_slot_inv i e Hi) as [(-> & Ke & _)|(Hi' & e0 & Se & ->)];
    destruct (place_slot_inv j f Hj) as [(-> & Kf & _)|(Hj' & f0 & Sf & ->)]; [done| | |];
    rewrite ?(proj1 (patch_slot_same _ _ _ _)) in Hk.
  - rewrite Ke in Hk. by destruct (Hnew j f0 Sf).
  - rewrite Kf in Hk. by destruct (Hnew i e0 Se).
  - by apply (ok_unique _ _ Hslots i j e0 f0).
Qed.

Lemma place_slots_ok : slots_ok noutputs (place_route r found t).
Proof.
  constructor; [|apply place_unique|].
  - intros i e He. destruct (real e) eqn:Er.
    + destruct (place_slot_inv i e (conj He Er)) as [(_ & K & V & _)|(_ & e0 & [Se Re] & ->)].
      * by apply (route_ok_same noutputs r).
      * pose proof (ok_slots _ _ Hslots i e0 Se) as H. rewrite Re in H.
        destruct (patch_slot_same r found i e0) as (K & V & _). by apply (route_ok_same noutputs e0).
    + destruct (place_lookup r found t i Hle) as (x & Hx & _). rewrite Hx in He.
      destruct (decide (i = found)) as [->|Hn].
      { apply Some_inj in He as <-. pose proof (route_real _ _ Hroute). unfold real in *. cbn in Er. congruence. }
      destruct (t !! i) as [e0|] eqn:E0; [|done]. cbn in He. apply Some_inj in He as <-.
      destruct (patch_slot_same r found i e0) as (K & V & R & _). rewrite K.
      pose proof (ok_slots _ _ Hslots i e0 E0) as H. rewrite <- R, Er in H. exact H.
  - intros i j e f Hij Hi Hj Hx.
    destruct (place_slot_inv i e Hi) as [(-> & Ke & _ & Hn)|(Hi' & e0 & Se & ->)];
      destruct (place_slot_inv j f Hj) as [(-> & Kf & _)|(Hj' & f0 & Sf & ->)]; [lia| | |].
    + rewrite <- (Hn j f0 Hij Sf Hx). apply contains_route_ext; [done|].
      apply patch_slot_same.
    + destruct (patch_slot_same r found i e0) as (K & _ & _ & _ & Hp).
      apply not_true_is_false. intros C. specialize (Hp Hij).
      rewrite <- (contains_route_ext _ f e0 r K Kf) in Hp. specialize (Hp C). lia.
    + destruct (patch_slot_same r found i e0) as (K & _ & _ & Hle' & _).
      rewrite (contains_route_ext _ _ e0 f0 K (proj1 (patch_slot_same r found j f0))).
      apply (ok_next _ _ Hslots i j); [done..|lia].
Qed.

Lemma place_routes : routes (place_route r found t) = <[rkey r := rval r]> (routes t).
Proof.
  apply (routes_update t _ (rkey r) (Some (rval r)) (ok_unique _ _ Hslots) place_unique).
  - intros k v Hk. split; intros (i & e & Se & Ke & Ve).
    + destruct (place_slot_inv i e Se) as [(-> & K & _)|(_ & e0 & Se0 & ->)]; [congruence|].
      destruct (patch_slot_same r found i e0) as (K & V & _). exists i, e0. split_and!; congruence.
    + assert (i <> found) by (intros ->; by apply (Hfree e)).
      exists i, (patch_slot r found i e). split; [by apply place_slot_other|].
      destruct (patch_slot_same r found i e) as (K & V & _). split; congruence.
  - intros v. split.
    + intros (i & e & Se & Ke & Ve).
      destruct (place_slot_inv i e Se) as [(-> & K & V & _)|(_ & e0 & Se0 & ->)]; [congruence|].
      destruct (patch_slot_same r found i e0) as (K & V & _). rewrite K in Ke.
      by destruct (Hnew i e0 Se0).
    + intros [= <-]. destruct (place_slot_found (route_real _ _ Hroute)) as (e & Se & K & V). by exists found, e.
Qed.

Lemma place_zero_ok z :
  zero_ok t z ->
  zero_ok (place_route r found t)
    (if (r_addr r =? 0) && (r_mask r =? 0xFFFFFFFF) then Some found else z).
Proof.
  intros [Hz Hzr]. destruct (place_slot_found (route_real _ _ Hroute)) as (e0 & Se0 & K0 & _).
  destruct (bool_decide (rkey r = zero_key)) eqn:E; [apply bool_decide_eq_true in E|
    apply bool_decide_eq_false in E].
  - assert ((r_addr r =? 0) && (r_mask r =? 0xFFFFFFFF) = true) as ->
      by (injection E as -> ->; done).
    constructor; [|intros i [= <-]; exists e0; split; [done|congruence]].
    intros i e Se Ke. f_equal. apply (place_unique found i e0 e Se0 Se). congruence.
  - assert ((r_addr r =? 0) && (r_mask r =? 0xFFFFFFFF) = false) as ->.
    { destruct (Z.eqb_spec (r_addr r) 0), (Z.eqb_spec (r_mask r) 0xFFFFFFFF); try done.
      destruct E. unfold rkey, zero_key. congruence. }
    constructor.
    + intros i e Se Ke. destruct (place_slot_inv i e Se) as [(-> & K & _)|(_ & e1 & Se1 & ->)];
        [congruence|]. apply (Hz i e1 Se1). by rewrite <- (proj1 (patch_slot_same r found i e1)).
    + intros i Hi. destruct (Hzr i Hi) as (e & Se & Ke).
      exists (patch_slot r found i e). split.
      * apply place_slot_other; [|done]. intros ->. by apply (Hfree e).
      * by rewrite (proj1 (patch_slot_same r found i e)).
Qed.

Lemma place_below n : reals_below t n -> reals_below (place_route r found t) n.
Proof.
  intros Hb j f Hj Hf. destruct (place_lookup r found t j Hle) as (x & Hx & _). rewrite Hx in Hf.
  destruct (decide (j = found)) as [->|Hne].
  - apply Some_inj in Hf as <-. exact (route_real _ _ Hroute).
  - destruct (t !! j) as [e|] eqn:Ee; [|done]. cbn in Hf. apply Some_inj in Hf as <-.
    rewrite (proj1 (proj2 (proj2 (patch_slot_same r found j e)))). by apply (Hb j e).
Qed.
Lemma place_first z :
  reals_below t found -> zero_first t z ->
  zero_first (place_route r found t)
    (if (r_addr r =? 0) && (r_mask r =? 0xFFFFFFFF) then Some found else z).
Proof.
  intros Hb Hz i Hi. apply place_below. destruct (_ && _); [by injection Hi as <-|by apply Hz].
Qed.
End Place.

(** ** Removing a slot, replacing a gateway *)
Lemma kill_below i t n : (n <= i)%nat -> reals_below t n -> reals_below (alter kill_route i t) n.
Proof.
  intros Hn Hb j f Hj Hf. rewrite list_lookup_alter_ne in Hf by lia. by apply (Hb j f).
Qed.
Lemma kill_real e : real (kill_route e) = false.
Proof. done. Qed.
Lemma kill_slot t i j e : slot (alter kill_route i t) j e <-> j <> i /\ slot t j e.
Proof.
  unfold slot. destruct (decide (j = i)) as [->|Hn].
  - rewrite list_lookup_alter_eq. split; [|by intros [? _]]. intros [He Hr].
    destruct (t !! i) as [f|]; [|done]. apply Some_inj in He as <-. by rewrite kill_real in Hr.
  - rewrite list_lookup_alter_ne by done. split; [done|by intros [_ ?]].
Qed.
Lemma kill_slots_ok noutputs t i : slots_ok noutputs t -> slots_ok noutputs (alter kill_route i t).
Proof.
  intros [H1 H2 H3]. constructor.
  - intros j e He. destruct (decide (j = i)) as [->|Hn].
    + rewrite list_lookup_alter_eq in He. destruct (t !! i); [|done]. by apply Some_inj in He as <-.
    + rewrite list_lookup_alter_ne in He by done. by apply H1 in He.
  - intros j k e f [_ Hj]%kill_slot [_ Hk]%kill_slot. by apply H2.
  - intros j k e f Hjk [_ Hj]%kill_slot [_ Hk]%kill_slot. by apply (H3 j k).
Qed.
Lemma kill_routes noutputs t i e :
  slots_ok noutputs t -> slot t i e ->
  routes (alter kill_route i t) = delete (rkey e) (routes t).
Proof.
  intros Hok He. apply (routes_update t _ (rkey e) None (ok_unique _ _ Hok)
    (ok_unique _ _ (kill_slots_ok _ _ i Hok))).
  - intros k v Hk. split; intros (j & f & Hj & Kf & Vf).
    + apply kill_slot in Hj as [_ Hj]. by exists j, f.
    + exists j, f. split; [|done]. apply kill_slot. split; [|done]. intros ->.
      destruct He as [He _], Hj as [Hj _]. congruence.
  - intros v. split; [|done]. intros (j & f & Hj & Kf & _).
    apply kill_slot in Hj as [Hn Hj]. destruct Hn. by apply (ok_unique _ _ Hok j i f e).
Qed.

(** Slots that agree up to gateway and port find the same entries. *)
Definition same_prefix (e f : IPRoute) : Prop := rkey e = rkey f /\ r_extra e = r_extra f.
Lemma lookup_entry_same t t' a :
  Forall2 same_prefix t t' -> lookup_entry t a = lookup_entry t' a.
Proof.
  intros H. unfold lookup_entry.
  assert (Hc : forall e f, same_prefix e f -> contains e a = contains f a).
  { intros e f [[= A M] _]. unfold contains. congruence. }
  assert (Hf : match list_find (fun e => contains e a = true) t,
                     list_find (fun e => contains e a = true) t' with
    | Some (i, e), Some (j, f) => i = j /\ same_prefix e f
    | None, None => True
    | _, _ => False
    end).
  { induction H as [|e f t t' Hef H IH]; [done|]. cbn [list_find].
    destruct (decide (contains e a = true)) as [C|C];
      destruct (decide (contains f a = true)) as [D|D]; rewrite (Hc e f Hef) in C; try done.
    destruct (list_find _ t) as [[i g]|], (list_find _ t') as [[j h]|]; cbn; try done.
    by destruct IH as [-> ?]. }
  rewrite (Forall2_length _ _ _ H).
  destruct (list_find _ t) as [[i e]|], (list_find _ t') as [[j f]|]; cbn; try done.
  destruct Hf as [-> [_ Hx]]. rewrite Hx. f_equal. 
  assert (Hs : forall found k, lookup_step t a found k = lookup_step t' a found k).
  { intros found k. unfold lookup_step.
    destruct (Forall2_lookup same_prefix t t') as [HL _]. specialize (HL H).
    pose proof (HL k) as H1. pose proof (HL found) as H2.
    inversion H1 as [e1 f1 Q1|]; [|done]. inversion H2 as [e2 f2 Q2|]; [|done].
    rewrite (Hc e1 f1 Q1). destruct Q1 as [[= _ ->] _], Q2 as [[= _ ->] _]. done. }
  generalize (range (r_extra f) (Z.of_nat (length t'))). intros js. revert j.
  induction js as [|k js IH]; intros j; [done|]. cbn. by rewrite Hs.
Qed.

Section Replace.
Context (noutputs : nat) (r : IPRoute) (i : nat) (t : list IPRoute) (e0 : IPRoute).
Hypothesis Hslots : slots_ok noutputs t.
Hypothesis Hroute : route_ok noutputs r.
Hypothesis Hi : slot t i e0.
Hypothesis Hkey : rkey e0 = rkey r.
Let t' := alter (set_gw_port (r_gw r) (r_port r)) i t.

Lemma replace_same : Forall2 same_prefix t t'.
Proof.
  apply Forall2_lookup. intros j. unfold t'. destruct (decide (j = i)) as [->|Hn].
  - rewrite list_lookup_alter_eq. destruct (t !! i); constructor. done.
  - rewrite list_lookup_alter_ne by done. destruct (t !! j); constructor. done.
Qed.
Lemma replace_slot j e :
  slot t' j e <-> if decide (j = i) then e = set_gw_port (r_gw r) (r_port r) e0 else slot t j e.
Proof.
  unfold t', slot. destruct Hi as [E0 R0]. destruct (decide (j = i)) as [->|Hn].
  - rewrite list_lookup_alter_eq, E0. cbn. split; [by intros [[= <-] _]|]. intros ->. split; [done|].
    apply (route_real noutputs r Hroute).
  - by rewrite list_lookup_alter_ne by done.
Qed.
Lemma replace_slot_old j e :
  slot t' j e -> exists f, slot t j f /\ rkey e = rkey f /\ r_extra e = r_extra f.
Proof.
  rewrite replace_slot. destruct (decide (j = i)) as [->|Hn]; [intros ->; by exists e0|by exists e].
Qed.
Lemma replace_slots_ok : slots_ok noutputs t'.
Proof.
  constructor.
  - intros j e He. destruct (decide (j = i)) as [->|Hn].
    + unfold t' in He. rewrite list_lookup_alter_eq, (proj1 Hi) in He. apply Some_inj in He as <-.
      pose proof (route_real noutputs r Hroute) as Hr. unfold real in *. cbn. rewrite Hr.
      by apply (route_ok_same noutputs r).
    + unfold t' in He. rewrite list_lookup_alter_ne in He by done. by apply (ok_slots _ _ Hslots j).
  - intros j k e f (e1 & S1 & K1 & _)%replace_slot_old (f1 & S2 & K2 & _)%replace_slot_old Hk.
    apply (ok_unique _ _ Hslots j k e1 f1 S1 S2). congruence.
  - intros j k e f Hjk (e1 & S1 & K1 & X1)%replace_slot_old (f1 & S2 & K2 & _)%replace_slot_old Hx.
    rewrite (contains_route_ext e f e1 f1 K1 K2).
    apply (ok_next _ _ Hslots j k e1 f1 Hjk S1 S2). lia.
Qed.
Lemma replace_routes : routes t' = <[rkey r := rval r]> (routes t).
Proof.
  apply (routes_update t t' (rkey r) (Some (rval r)) (ok_unique _ _ Hslots)
    (ok_unique _ _ replace_slots_ok)).
  - intros k v Hk. split; intros (j & e & Se & Ke & Ve); exists j, e; (split; [|done]).
    + apply replace_slot in Se. destruct (decide (j = i)); [|done]. subst e.
      destruct Hk. by rewrite <- Ke, <- Hkey.
    + apply replace_slot. destruct (decide (j = i)) as [->|]; [|done].
      destruct Hi as [E0 _], Se as [E1 _]. congruence.
  - intros v. split.
    + intros (j & e & Se & Ke & Ve). apply replace_slot in Se.
      destruct (decide (j = i)) as [->|Hn]; [subst e; cbn in Ve; by rewrite <- Ve|].
      destruct Hn. apply (ok_unique _ _ Hslots j i e e0 Se Hi). congruence.
    + intros [= <-]. exists i, (set_gw_port (r_gw r) (r_port r) e0). rewrite replace_slot.
      rewrite decide_True by done. done.
Qed.
Lemma replace_zero_ok z : zero_ok t z -> zero_ok t' z.
Proof.
  intros [Hz Hzr]. constructor.
  - intros j e (f & Sf & Kf & _)%replace_slot_old Ke. apply (Hz j f Sf). congruence.
  - intros j Hj. destruct (Hzr j Hj) as (e & Se & Ke). destruct (decide (j = i)) as [->|Hn].
    + exists (set_gw_port (r_gw r) (r_port r) e0). rewrite replace_slot, decide_True by done.
      split; [done|]. destruct Hi as [E0 _], Se as [E1 _]. rewrite E0 in E1. by apply Some_inj in E1 as <-.
    + exists e. by rewrite replace_slot, decide_False.
Qed.
Lemma replace_first z : zero_first t z -> zero_first t' z.
Proof.
  intros Hz k Hk j f Hj Hf. unfold t' in Hf. destruct (decide (j = i)) as [->|Hn].
  - rewrite list_lookup_alter_eq, (proj1 Hi) in Hf. apply Some_inj in Hf as <-.
    exact (route_real noutputs r Hroute).
  - rewrite list_lookup_alter_ne in Hf by done. by apply (Hz k Hk j f).
Qed.
End Replace.
