(* ===== verification/Address.v ===== *)
(** * Addresses in configuration strings ([lib/ipaddress.cc], [lib/etheraddress.cc])

    The textual forms of IP addresses, prefixes and Ethernet addresses, and the parsers that
    read them.  An IP address is the 32-bit word that a little-endian host keeps, an Ethernet
    address the list of its six bytes.  A name is looked up by [AddressInfo], which asks the
    router's elements and the system's interfaces: its queries are arguments. *)
From Stdlib Require Import ZArith Lia String.
From stdpp Require Import base list numbers option.
From S2P Require Import Prelude Packet Wire RouteTable RouteSlots Parse.
#[local] Open Scope Z_scope.

(** What [AddressInfo] answers, and whether there is a context to ask in. *)
Record names : Type := Names {
  context : bool;
  query_ip : chars -> option Z;
  query_ip_prefix : chars -> option (Z * Z);
  query_ethernet : chars -> option (list Z)
}.
Definition no_names : names := Names false (fun _ => None) (fun _ => None) (fun _ => None).

(** ** IP addresses *)
(** [data()], and the address that holds four given bytes. *)
Definition ip_data (a : Z) : list Z := [a mod 256; (a / 256) mod 256; (a / 65536) mod 256; (a / 16777216) mod 256].
Definition ip_of_data (v : list Z) : Z := foldr (fun b a => b + 256 * a) 0 v.

(** [ffs_lsb(x)]: the lowest bit set, counted from 1. *)
Fixpoint ffs_pos (p : positive) : Z := match p with xO p => ffs_pos p + 1 | _ => 1 end.
Definition ffs_lsb (x : Z) : Z := match x with Zpos p => ffs_pos p | _ => 0 end.
Definition mask_to_prefix_len (m : Z) : Z :=
  let host_addr := ntohl m in
  let prefix := ffs_lsb host_addr in
  if prefix =? 0 then 0
  else if host_addr =? u32 (Z.shiftl 0xFFFFFFFF (prefix - 1)) then 33 - prefix
  else -1.
Definition mask_more_specific (m mask : Z) : bool := Z.land (u32 (Z.shiftl m 1)) mask =? mask.

(** [sprintf("%d")] of a number that is not negative. *)
Fixpoint decimal_digits (fuel : nat) (n : Z) (l : chars) : chars :=
  match fuel with
  | O => l
  | S fuel => let l := (48 + n mod 10) :: l in if n <? 10 then l else decimal_digits fuel (n / 10) l
  end.
Definition decimal (n : Z) : chars := decimal_digits 10 n [].
Fixpoint join (sep : Z) (l : list chars) : chars :=
  match l with [] => [] | [x] => x | x :: l => x ++ sep :: join sep l end.
Definition unparse (a : Z) : chars := join 46 (map decimal (ip_data a)).
Definition unparse_mask (m : Z) : chars :=
  let prefix_len := mask_to_prefix_len m in
  if 0 <=? prefix_len then decimal prefix_len else unparse m.
Definition unparse_with_mask (a m : Z) : chars := unparse a ++ 47 :: unparse_mask m.

Definition isdigit (c : Z) : bool := (48 <=? c) && (c <=? 57).
(** One part of an address after its first digit: its value and what follows. *)
Fixpoint parse_part (l : chars) (part : Z) : Z * chars :=
  match l with
  | c :: l' => if isdigit c && (part <=? 255) then parse_part l' (part * 10 + (c - 48)) else (part, l)
  | [] => (part, l)
  end.
(** [basic_parse(s, end, value, nbytes)]: what is left at the end, the bytes and how many. *)
Fixpoint basic_loop (n d : nat) (l : chars) (value : list Z) : chars * list Z * nat :=
  match n with
  | O => (l, value, d)
  | S n =>
      let t := if (d =? 0)%nat then l
               else match l with c :: t => if c =? 46 then t else [] | [] => [] end in
      match t with
      | [] => (l, value, d)
      | c :: t =>
          if isdigit c then
            let '(part, rest) := parse_part t (c - 48) in
            if 255 <? part then (l, value, d) else basic_loop n (S d) rest (<[d := part]> value)
          else (l, value, d)
      end
  end.
Definition basic_parse (l : chars) : chars * list Z * nat := basic_loop 4 0 l [0; 0; 0; 0].

Definition IPAddressArg_parse (n : names) (l : chars) : option Z :=
  let '(rest, value, nbytes) := basic_parse l in
  if (length rest =? 0)%nat && (nbytes =? 4)%nat then Some (ip_of_data value) else query_ip n l.
(** The constructor from a string. *)
Definition IPAddress_of_string (n : names) (l : chars) : Z := default 0 (IPAddressArg_parse n l).

(** The last slash, or the start of the string. *)
Fixpoint find_slash (l : chars) (slash : nat) : nat :=
  match slash with
  | O => O
  | S slash => if default 0 (l !! slash) =? 47 then slash else find_slash l slash
  end.
Definition prefix_with_slash (fast : bool) (n : names) (l : chars) (slash : nat) : option (Z * Z) :=
  let '(rest, addr, nbytes) := basic_parse (take slash l) in
  '(addr, nbytes) ← (if (length rest =? 0)%nat then Some (ip_of_data addr, nbytes)
                     else if context n then a ← query_ip n (take slash l); Some (a, 4%nat)
                     else None);
  let arg := drop (slash + 1) l in
  mask ← (match IntArg_parse fast 10 (IntType true 4) arg with
          | Some len => if (0 <=? len) && (len <=? 32) then Some (make_prefix (Z.to_nat len))
                        else IPAddressArg_parse n arg
          | None => IPAddressArg_parse n arg
          end);
  if (nbytes <? 4)%nat && negb (Z.land mask (make_prefix (nbytes * 8)) =? mask) then None
  else Some (addr, mask).
(** [IPPrefixArg(allow_bare_address)] *)
Definition IPPrefixArg_parse (fast allow_bare_address : bool) (n : names) (l : chars) : option (Z * Z) :=
  let slash := find_slash l (length l) in
  match (if negb (slash =? 0)%nat && negb (slash + 1 =? length l)%nat
         then prefix_with_slash fast n l slash else None) with
  | Some r => Some r
  | None =>
      match (if allow_bare_address then IPAddressArg_parse n l else None) with
      | Some a => Some (a, 0xFFFFFFFF)
      | None => query_ip_prefix n l
      end
  end.

(** ** Ethernet addresses *)
Definition hex_char (x : Z) : Z := if x <? 10 then 48 + x else 55 + x.
Definition hex_byte (b : Z) : chars := [hex_char (b / 16); hex_char (b mod 16)].
Definition unparse_dash (e : list Z) : chars := join 45 (map hex_byte e).
Definition unparse_colon (e : list Z) : chars := join 58 (map hex_byte e).

Definition hex_value (c : Z) : option Z :=
  if (48 <=? c) && (c <=? 57) then Some (c - 48)
  else if (97 <=? c) && (c <=? 102) then Some (c - 97 + 10)
  else if (65 <=? c) && (c <=? 70) then Some (c - 65 + 10)
  else None.
(** The loop of [parse]: [None] if it breaks, otherwise [data], [d] and [p] at the end. *)
Fixpoint ether_loop (l : chars) (data : list Z) (d p : nat) (sep : Z) : option (list Z * nat * nat) :=
  match l with
  | [] => Some (data, d, p)
  | c :: l =>
      match hex_value c with
      | Some digit =>
          if (p =? 2)%nat || (d =? 6)%nat then None
          else
            let x := u8 ((if (p =? 0)%nat then 0 else Z.shiftl (default 0 (data !! d)) 4) + digit) in
            ether_loop l (<[d := x]> data) d (S p) sep
      | None =>
          let sep := if (sep =? 0) && ((c =? 45) || (c =? 58)) then c else sep in
          if (c =? sep) && ((p =? 1)%nat || (p =? 2)%nat) && (d <? 5)%nat
          then ether_loop l data (S d) 0 sep
          else None
      end
  end.
Definition EtherAddressArg_parse (n : names) (l : chars) : option (list Z) :=
  match ether_loop l (replicate 6 0) 0 0 0 with
  | Some (data, d, p) => if negb (p =? 0)%nat && (d =? 5)%nat then Some data else query_ethernet n l
  | None => query_ethernet n l
  end.

Example unparse_ex : unparse (make_prefix 20) = str "255.255.240.0".
Proof. reflexivity. Qed.
Example parse_prefix_ex :
  IPPrefixArg_parse true false no_names (str "10.1/16") = Some (ip_of_data [10; 1; 0; 0], make_prefix 16).
Proof. reflexivity. Qed.
Example parse_prefix_short : IPPrefixArg_parse true false no_names (str "10.1/17") = None.
Proof. reflexivity. Qed.
Example parse_ether_ex : EtherAddressArg_parse no_names (str "0:1:2:aB:c:fF") = Some [0; 1; 2; 171; 12; 255].
Proof. reflexivity. Qed.
(** A NUL separates bytes too, until a dash or colon is met. *)
Example parse_ether_nul :
  EtherAddressArg_parse no_names [49; 0; 50; 0; 51; 45; 52; 45; 53; 45; 54] = Some [1; 2; 3; 4; 5; 6].
Proof. reflexivity. Qed.

(** ** Prefix lengths *)
Lemma ffs_pos_range p n : Zpos p < 2 ^ Z.of_nat n -> 1 <= ffs_pos p <= Z.of_nat n.
Proof.
  revert p. induction n as [|n IH]; intros p; [simpl; lia|].
  rewrite Nat2Z.inj_succ, Z.pow_succ_r by lia. destruct p as [p|p|]; cbn [ffs_pos]; [lia| |lia].
  intros H. specialize (IH p ltac:(lia)). lia.
Qed.
Lemma mask_to_prefix_len_make n : (n <= 32)%nat -> mask_to_prefix_len (make_prefix n) = Z.of_nat n.
Proof.
  assert (E : forallb (fun n => mask_to_prefix_len (make_prefix n) =? Z.of_nat n) (seq 0 33) = true)
    by (vm_compute; reflexivity).
  intros Hn. rewrite forallb_forall in E. apply Z.eqb_eq, E, in_seq. lia.
Qed.
Lemma mask_to_prefix_len_inv m :
  in32 m -> mask_to_prefix_len m = -1 \/ exists n, (n <= 32)%nat /\ mask_to_prefix_len m = Z.of_nat n /\ m = make_prefix n.
Proof.
  intros Hm. pose proof (htonl_inv m Hm) as Hinv. pose proof (htonl_range m) as Hr.
  unfold mask_to_prefix_len, ntohl. destruct (htonl m) as [|p|p] eqn:E; [| |lia].
  - right. exists 0%nat. split; [lia|]. split; [done|]. by rewrite <- Hinv.
  - cbn [ffs_lsb]. pose proof (ffs_pos_range p 32 ltac:(change (2 ^ Z.of_nat 32) with 4294967296; lia)).
    rewrite (proj2 (Z.eqb_neq (ffs_pos p) 0)) by lia.
    destruct (Z.eqb_spec (Zpos p) (u32 (Z.shiftl 4294967295 (ffs_pos p - 1)))) as [Hp|]; [|by left].
    right. exists (Z.to_nat (33 - ffs_pos p)). split; [lia|]. split; [lia|].
    unfold make_prefix. rewrite (proj2 (Nat.eqb_neq _ 0)) by lia.
    replace (32 - Z.of_nat (Z.to_nat (33 - ffs_pos p))) with (ffs_pos p - 1) by lia.
    change 0xFFFFFFFF with 4294967295. by rewrite <- Hp, Hinv.
Qed.
Lemma make_prefix_in n : (n <= 32)%nat -> prefix_mask (make_prefix n).
Proof. intros Hn. apply list_elem_of_In, in_map, in_seq. lia. Qed.

(** [mask_to_prefix_len] is the inverse of [make_prefix], and -1 for the addresses that are
    no prefix mask. *)
Theorem mask_to_prefix_len_spec m k :
  in32 m ->
  mask_to_prefix_len m = k <->
  (exists n, (n <= 32)%nat /\ k = Z.of_nat n /\ m = make_prefix n) \/ (k = -1 /\ ~ prefix_mask m).
Proof.
  intros Hm. split.
  - intros <-. destruct (mask_to_prefix_len_inv m Hm) as [E|(n & Hn & E & ->)]; [|left; exists n; auto].
    right. split; [done|]. intros (n & <- & Hn%in_seq)%list_elem_of_In%in_map_iff.
    rewrite mask_to_prefix_len_make in E by lia. lia.
  - intros [(n & Hn & -> & ->)|[-> Hno]]; [by apply mask_to_prefix_len_make|].
    destruct (mask_to_prefix_len_inv m Hm) as [E|(n & Hn & _ & ->)]; [done|].
    destruct Hno. by apply make_prefix_in.
Qed.

(** [mask_more_specific] does not compare prefixes: on a little-endian host its shift moves
    the bits of a mask within the bytes the wrong way round, so no mask is more specific than
    one of 8 bits or more, and every mask, itself too, is more specific than that of 0 bits. *)
Theorem mask_more_specific_wrong n k :
  (n <= 32)%nat -> (k <= 32)%nat ->
  mask_more_specific (make_prefix n) (make_prefix k) = (k =? 0)%nat || ((k <? 8)%nat && (k <? n)%nat).
Proof.
  assert (E : forallb (fun n => forallb (fun k => Bool.eqb (mask_more_specific (make_prefix n) (make_prefix k))
    ((k =? 0)%nat || ((k <? 8)%nat && (k <? n)%nat))) (seq 0 33)) (seq 0 33) = true) by (vm_compute; reflexivity).
  intros Hn Hk. rewrite forallb_forall in E. specialize (E n ltac:(apply in_seq; lia)).
  rewrite forallb_forall in E. specialize (E k ltac:(apply in_seq; lia)). by apply Bool.eqb_prop in E.
Qed.

(** ** Dotted quads *)
Definition stops (l : chars) : Prop := match l with c :: _ => isdigit c = false | [] => True end.
Definition digits (l : chars) : Prop := Forall (fun c => isdigit c = true) l.

Lemma ip_of_ip_data a : in32 a -> ip_of_data (ip_data a) = a.
Proof.
  intros (b0 & b1 & b2 & b3 & -> & ? & ? & ? & ?)%word_bytes. unfold ip_data, ip_of_data.
  cbn [foldr]. rewrite div_256_16777216, div_256_65536.
  destruct (div_mod_cons b0 (b1 + 256 * (b2 + 256 * b3)) 256) as [-> ->]; [done|].
  destruct (div_mod_cons b1 (b2 + 256 * b3) 256) as [-> ->]; [done|].
  destruct (div_mod_cons b2 b3 256) as [-> ->]; [done|].
  rewrite (Z.mod_small b3) by lia. lia.
Qed.
Lemma ip_data_bytes a : bytes_ok (ip_data a).
Proof. unfold ip_data. repeat constructor; apply Z.mod_pos_bound; lia. Qed.

(** The decimal form of a byte: a digit that starts it, and what [parse_part] makes of it. *)
Lemma decimal_byte x : 0 <= x < 256 -> exists c l,
  decimal x = c :: l /\ digits (c :: l) /\ parse_part l (c - 48) = (x, []).
Proof.
  intros Hx.
  assert (E : forallb (fun n => let x := Z.of_nat n in
    match decimal x with
    | c :: l => forallb isdigit (c :: l) &&
                (let '(p, r) := parse_part l (c - 48) in (p =? x) && (length r =? 0)%nat)
    | [] => false
    end) (seq 0 256) = true) by (vm_compute; reflexivity).
  rewrite forallb_forall in E. specialize (E (Z.to_nat x) ltac:(apply in_seq; lia)).
  cbv zeta in E. rewrite Z2Nat.id in E by lia. destruct (decimal x) as [|c l]; [done|].
  apply andb_true_iff in E as [Ed E]. exists c, l. split; [done|]. split.
  - apply list.Forall_forall. intros y Hy. rewrite forallb_forall in Ed. apply Ed. by apply list_elem_of_In.
  - destruct (parse_part l (c - 48)) as [p r]. apply andb_true_iff in E as [->%Z.eqb_eq Hr%Nat.eqb_eq].
    by destruct r.
Qed.
Lemma parse_part_app l rest p v :
  parse_part l p = (v, []) -> stops rest -> parse_part (l ++ rest) p = (v, rest).
Proof.
  intros H Hs. revert p H. induction l as [|c l IH]; intros p; cbn [parse_part app].
  - intros [= ->]. destruct rest as [|c rest]; [done|]. cbn in Hs |- *. by rewrite Hs.
  - destruct (isdigit c && (p <=? 255)); [apply IH|done].
Qed.

(** One step of [basic_parse] on a part written by [unparse]. *)
Lemma basic_loop_first n x rest value :
  0 <= x < 256 -> stops rest ->
  basic_loop (S n) 0 (decimal x ++ rest) value = basic_loop n 1 rest (<[0%nat := x]> value).
Proof.
  intros Hx Hs. destruct (decimal_byte x Hx) as (c & l & -> & Hd & Hp).
  apply list.Forall_cons in Hd as [Hc _]. cbn [basic_loop Nat.eqb app]. rewrite Hc, (parse_part_app l rest _ x) by done.
  by rewrite (proj2 (Z.ltb_ge 255 x)) by lia.
Qed.
Lemma basic_loop_next n d x rest value :
  0 <= x < 256 -> stops rest ->
  basic_loop (S n) (S d) (46 :: decimal x ++ rest) value = basic_loop n (S (S d)) rest (<[S d := x]> value).
Proof.
  intros Hx Hs. destruct (decimal_byte x Hx) as (c & l & -> & Hd & Hp).
  apply list.Forall_cons in Hd as [Hc _]. cbn [basic_loop Nat.eqb app]. change (46 =? 46) with true. cbv iota.
  rewrite Hc, (parse_part_app l rest _ x) by done. by rewrite (proj2 (Z.ltb_ge 255 x)) by lia.
Qed.
Lemma basic_parse_unparse a : basic_parse (unparse a) = ([], ip_data a, 4%nat).
Proof.
  pose proof (ip_data_bytes a) as Hb. unfold unparse, basic_parse. revert Hb. unfold ip_data.
  generalize (a mod 256) as b0, ((a / 256) mod 256) as b1, ((a / 65536) mod 256) as b2, ((a / 16777216) mod 256) as b3.
  intros b0 b1 b2 b3 Hb. cbn [map join].
  apply list.Forall_cons in Hb as [? Hb]. apply list.Forall_cons in Hb as [? Hb].
  apply list.Forall_cons in Hb as [? Hb]. apply list.Forall_cons in Hb as [? _].
  rewrite basic_loop_first, basic_loop_next, basic_loop_next by done.
  rewrite <- (app_nil_r (decimal b3)). by rewrite basic_loop_next.
Qed.
Lemma IPAddressArg_parse_unparse n a : in32 a -> IPAddressArg_parse n (unparse a) = Some a.
Proof.
  intros Ha. unfold IPAddressArg_parse. rewrite basic_parse_unparse. cbn. f_equal. by apply ip_of_ip_data.
Qed.
(** The dotted quad of an address is read back as that address, whatever names there are. *)
Theorem IPAddress_roundtrip n a : in32 a -> IPAddress_of_string n (unparse a) = a.
Proof. intros Ha. unfold IPAddress_of_string. by rewrite IPAddressArg_parse_unparse. Qed.

(** ** Prefixes *)
Lemma decimal_byte_digits x : 0 <= x < 256 -> digits (decimal x).
Proof. intros Hx. by destruct (decimal_byte x Hx) as (c & l & -> & Hd & _). Qed.
Lemma digits_not c l : digits l -> isdigit c = false -> Forall (fun x => x <> c) l.
Proof. intros H Hc. apply (list.Forall_impl _ _ _ H). intros x Hx ->. congruence. Qed.
Lemma unparse_chars a c : isdigit c = false -> c <> 46 -> Forall (fun x => x <> c) (unparse a).
Proof.
  intros Hc Hdot. pose proof (ip_data_bytes a) as Hb. unfold unparse. revert Hb. generalize (ip_data a). intros l.
  induction 1 as [|x l Hx Hl IH]; [constructor|]. cbn [map join].
  pose proof (digits_not c _ (decimal_byte_digits x Hx) Hc) as Hd.
  destruct (map decimal l) as [|y l'] eqn:E; [done|]. apply Forall_app. split; [done|]. constructor; [congruence|done].
Qed.
Lemma decimal_not_nil x : 0 <= x < 256 -> decimal x <> [].
Proof. intros Hx. by destruct (decimal_byte x Hx) as (c & l & -> & _). Qed.
Lemma unparse_not_nil a : unparse a <> [].
Proof.
  unfold unparse, ip_data. cbn [map join]. intros E%app_eq_nil.
  apply (decimal_not_nil (a mod 256)); [apply Z.mod_pos_bound; lia|apply E].
Qed.

Lemma find_slash_last (l : list Z) s n :
  l !! n = Some 47 -> (n < s)%nat -> (forall i, (n < i < s)%nat -> l !! i <> Some 47) -> find_slash l s = n.
Proof.
  intros Hn. induction s as [|s IH]; intros Hlt Hno; [lia|]. cbn [find_slash].
  destruct (decide (s = n)) as [-> |Hne]; [by rewrite Hn|].
  assert ((default 0 (l !! s) =? 47) = false) as ->.
  { apply Z.eqb_neq. specialize (Hno s ltac:(lia)). destruct (l !! s); cbn; congruence. }
  apply IH; [lia|]. intros i Hi. apply Hno. lia.
Qed.
Lemma find_slash_app (l l' : list Z) : Forall (fun c => c <> 47) l' -> find_slash (l ++ 47 :: l') (length (l ++ 47 :: l')) = length l.
Proof.
  intros Hf. rewrite length_app. cbn [length]. apply find_slash_last; [by apply list_lookup_middle|lia|].
  intros i Hi E. rewrite lookup_app_r in E by lia. destruct (i - length l)%nat as [|j] eqn:Ej; [lia|].
  cbn in E. by apply (Forall_lookup_1 _ _ _ _ Hf) in E.
Qed.

(** A dotted quad is no number. *)
Lemma number_no_dot base is_signed l negative N : number base is_signed l negative N -> Forall (fun c => c <> 46) l.
Proof.
  intros (sign & pre & body & b & -> & Hs & Hp & Hb). rewrite !Forall_app. split_and!.
  - destruct Hs; repeat constructor; lia.
  - destruct Hp; repeat constructor; lia.
  - apply (list.Forall_impl _ _ _ (body_chars b body N Hb)). intros c [-> |(d & ?%digit_value_spec & _)]; lia.
Qed.
Lemma unparse_dot a : 46 ∈ unparse a.
Proof.
  unfold unparse, ip_data. cbn [map join]. apply elem_of_app. right. apply list_elem_of_here.
Qed.
Lemma IntArg_parse_unparse fast base a : IntArg_parse fast base (IntType true 4) (unparse a) = None.
Proof.
  unfold IntArg_parse. destruct (IntArg_parse_saturating fast base (IntType true 4) (unparse a)) as [[v|] st] eqn:E; [|done].
  destruct (parsed_is_number fast base (IntType true 4) (unparse a) v st E) as (negative & N & Hn).
  apply number_no_dot in Hn. rewrite list.Forall_forall in Hn. by specialize (Hn 46 (unparse_dot a)).
Qed.
(** A prefix length is a number. *)
Lemma IntArg_parse_decimal fast n : (n <= 32)%nat ->
  IntArg_parse fast 10 (IntType true 4) (decimal (Z.of_nat n)) = Some (Z.of_nat n).
Proof.
  assert (E : forallb (fun fast => forallb (fun n =>
    match IntArg_parse fast 10 (IntType true 4) (decimal (Z.of_nat n)) with Some x => x =? Z.of_nat n | None => false end)
    (seq 0 33)) [true; false] = true) by (vm_compute; reflexivity).
  intros Hn. rewrite forallb_forall in E. specialize (E fast ltac:(destruct fast; cbn; tauto)).
  rewrite forallb_forall in E. specialize (E n ltac:(apply in_seq; lia)).
  destruct IntArg_parse as [x|]; [|done]. by apply Z.eqb_eq in E as ->.
Qed.

Lemma ffs_lsb_nonneg x : 0 <= ffs_lsb x.
Proof. destruct x as [|p|p]; cbn [ffs_lsb]; [lia| |lia]. induction p as [p IH|p IH|]; cbn [ffs_pos]; lia. Qed.
Lemma unparse_mask_ok m :
  Forall (fun c => c <> 47) (unparse_mask m) /\ unparse_mask m <> [].
Proof.
  unfold unparse_mask. destruct (Z.leb_spec 0 (mask_to_prefix_len m)).
  - assert (Hr : 0 <= mask_to_prefix_len m < 256).
    { unfold mask_to_prefix_len in *. destruct (ffs_lsb (ntohl m) =? 0); [lia|].
      pose proof (ffs_lsb_nonneg (ntohl m)).
      destruct (_ =? _); lia. }
    split; [|by apply decimal_not_nil]. by apply digits_not; [apply decimal_byte_digits|].
  - split; [by apply unparse_chars|apply unparse_not_nil].
Qed.
Lemma prefix_mask_parsed fast n m : in32 m ->
  match IntArg_parse fast 10 (IntType true 4) (unparse_mask m) with
  | Some len => if (0 <=? len) && (len <=? 32) then Some (make_prefix (Z.to_nat len))
                else IPAddressArg_parse n (unparse_mask m)
  | None => IPAddressArg_parse n (unparse_mask m)
  end = Some m.
Proof.
  intros Hm. unfold unparse_mask. destruct (mask_to_prefix_len_inv m Hm) as [E|(k & Hk & E & Em)]; rewrite E.
  - change (0 <=? -1) with false. cbv iota. rewrite IntArg_parse_unparse. by apply IPAddressArg_parse_unparse.
  - rewrite (proj2 (Z.leb_le 0 _)) by lia. rewrite IntArg_parse_decimal by done.
    rewrite (proj2 (Z.leb_le 0 _)), (proj2 (Z.leb_le _ 32)), Nat2Z.id by lia. cbn [andb]. by rewrite <- Em.
Qed.
(** C35: An address and its mask, written with a slash, are read back as they were: a prefix mask
    as its length, any other mask as a dotted quad. *)
Theorem IPPrefix_roundtrip fast bare n a m :
  in32 a -> in32 m -> IPPrefixArg_parse fast bare n (unparse_with_mask a m) = Some (a, m).
Proof.
  intros Ha Hm. unfold IPPrefixArg_parse, unparse_with_mask. destruct (unparse_mask_ok m) as [Hf Hne].
  rewrite find_slash_app by done.
  rewrite (proj2 (Nat.eqb_neq (length (unparse a)) 0)) by (pose proof (unparse_not_nil a); by destruct (unparse a)).
  rewrite (proj2 (Nat.eqb_neq (_ + 1) _)) by (rewrite length_app; destruct (unparse_mask m); cbn [length]; [done|lia]).
  cbn [negb andb]. unfold prefix_with_slash.
  rewrite take_app_length, basic_parse_unparse.
  replace (drop (length (unparse a) + 1) (unparse a ++ 47 :: unparse_mask m)) with (unparse_mask m)
    by (by rewrite <- drop_drop, drop_app_length).
  cbn [length Nat.eqb mbind option_bind]. rewrite prefix_mask_parsed, ip_of_ip_data by done. done.
Qed.

(** ** Ethernet addresses *)
Inductive hex_group : chars -> Z -> Prop :=
| hex_one c d : hex_value c = Some d -> hex_group [c] d
| hex_two c c' d d' : hex_value c = Some d -> hex_value c' = Some d' -> hex_group [c; c'] (16 * d + d').
Definition ether_sep (sep : Z) : Prop := sep = 45 \/ sep = 58.
(** Six groups of one or two hexadecimal digits, with dashes or colons between them. *)
Definition ether_text (l : chars) (e : list Z) : Prop :=
  exists sep groups, ether_sep sep /\ length groups = 6%nat /\ Forall2 hex_group groups e /\ l = join sep groups.

Lemma hex_value_range c d : hex_value c = Some d -> 0 <= d < 16.
Proof.
  unfold hex_value.
  destruct (Z.leb_spec 48 c), (Z.leb_spec c 57), (Z.leb_spec 97 c), (Z.leb_spec c 102), (Z.leb_spec 65 c),
    (Z.leb_spec c 70); cbn [andb]; intros [= <-] || intros [=]; lia.
Qed.
Lemma hex_value_sep c : ether_sep c -> hex_value c = None.
Proof. by intros [-> | ->]. Qed.
Lemma hex_group_byte g v : hex_group g v -> 0 <= v < 256.
Proof. destruct 1 as [c d ?%hex_value_range|c c' d d' ?%hex_value_range ?%hex_value_range]; lia. Qed.
Lemma hex_group_length g v : hex_group g v -> length g = 1%nat \/ length g = 2%nat.
Proof. destruct 1; auto. Qed.
Lemma hex_byte_group b : 0 <= b < 256 -> hex_group (hex_byte b) b.
Proof.
  assert (Hv : forall x, 0 <= x < 16 -> hex_value (hex_char x) = Some x).
  { intros x Hx. assert (E : forallb (fun n => match hex_value (hex_char (Z.of_nat n)) with
      Some y => y =? Z.of_nat n | None => false end) (seq 0 16) = true) by (vm_compute; reflexivity).
    rewrite forallb_forall in E. specialize (E (Z.to_nat x) ltac:(apply in_seq; lia)).
    rewrite Z2Nat.id in E by lia. destruct (hex_value (hex_char x)); [|done]. by apply Z.eqb_eq in E as ->. }
  intros Hb. unfold hex_byte. rewrite (Z.div_mod b 16) at 3 by lia.
  apply hex_two; apply Hv; [zdm|by apply Z.mod_pos_bound].
Qed.
Lemma join_cons sep g gs : join sep (g :: gs) = g ++ match gs with [] => [] | _ => sep :: join sep gs end.
Proof. destruct gs; [by rewrite app_nil_r|done]. Qed.

(** *** Every such text is accepted *)
Lemma ether_loop_group g v rest data d s :
  hex_group g v -> (d < 6)%nat -> length data = 6%nat ->
  ether_loop (g ++ rest) data d 0 s = ether_loop rest (<[d := v]> data) d (length g) s.
Proof.
  intros Hg Hd Hl. assert (Hd6 : (d =? 6)%nat = false) by (apply Nat.eqb_neq; lia).
  destruct Hg as [c x Hx|c c' x x' Hx Hx'].
  - pose proof (hex_value_range c x Hx). cbn [app ether_loop length]. rewrite Hx, Hd6. cbn [Nat.eqb orb].
    by rewrite Z.add_0_l, u8_small by lia.
  - pose proof (hex_value_range c x Hx). pose proof (hex_value_range c' x' Hx').
    cbn [app ether_loop length]. rewrite Hx, Hx', Hd6. cbn [Nat.eqb orb].
    rewrite Z.add_0_l, (u8_small x), list_lookup_insert_eq, list_insert_insert_eq by lia. cbn [from_option id].
    rewrite Z.shiftl_mul_pow2 by lia. change (2 ^ 4) with 16. by rewrite u8_small, (Z.mul_comm x) by lia.
Qed.
Lemma ether_loop_groups sep gs vs data d s :
  ether_sep sep -> s = 0 \/ s = sep -> Forall2 hex_group gs vs -> gs <> [] ->
  (d + length gs = 6)%nat -> length data = 6%nat ->
  exists p, (p <> 0)%nat /\ ether_loop (join sep gs) data d 0 s = Some (take d data ++ vs, 5%nat, p).
Proof.
  intros Hsep Hs H. revert data d s Hs. induction H as [|g v gs vs Hg H IH]; intros data d s Hs Hne Hd Hl; [done|].
  rewrite join_cons. cbn [length] in Hd. rewrite (ether_loop_group g v) by (done || lia).
  pose proof (hex_group_length g v Hg) as Hgl.
  assert (Htake : take (S d) (<[d:=v]> data) = take d data ++ [v]).
  { rewrite (take_S_r _ _ v) by (apply list_lookup_insert_eq; lia). by rewrite take_insert_ge. }
  destruct gs as [|g' gs].
  - inversion H; subst vs. cbn [length] in Hd. assert (d = 5%nat) as -> by lia. exists (length g). split; [lia|].
    cbn [ether_loop]. do 3 f_equal. rewrite <- Htake. symmetry. apply take_ge. rewrite length_insert. lia.
  - destruct (IH (<[d:=v]> data) (S d) sep) as (p & Hp & E); [by right|done|cbn [length] in *; lia|by rewrite length_insert|].
    exists p. split; [done|]. cbn [ether_loop]. rewrite hex_value_sep by done.
    assert (((if (s =? 0) && ((sep =? 45) || (sep =? 58)) then sep else s) = sep)) as ->.
    { destruct Hs as [-> | ->]; [by destruct Hsep as [-> | ->]|]. by destruct (_ && _). }
    rewrite Z.eqb_refl. rewrite (proj2 (Nat.ltb_lt d 5)) by (cbn [length] in *; lia).
    assert (((length g =? 1)%nat || (length g =? 2)%nat) = true) as -> by (by destruct Hgl as [-> | ->]).
    cbn [andb]. by rewrite E, Htake, <- app_assoc.
Qed.
Lemma ether_text_loop l e : ether_text l e ->
  exists p, (p <> 0)%nat /\ ether_loop l (replicate 6 0) 0 0 0 = Some (e, 5%nat, p).
Proof.
  intros (sep & gs & Hsep & Hl & Hgs & ->).
  apply (ether_loop_groups sep gs e (replicate 6 0) 0 0); try done; [by left|by destruct gs].
Qed.
Lemma ether_text_join sep e : ether_sep sep -> length e = 6%nat -> bytes_ok e -> ether_text (join sep (map hex_byte e)) e.
Proof.
  intros Hsep Hl Hb. exists sep, (map hex_byte e). split; [done|]. split; [by rewrite length_map|]. split; [|done].
  clear Hl. induction Hb; constructor; [by apply hex_byte_group|done].
Qed.

(** *** And nothing else *)
Lemma ether_loop_sound l data d p s data' p' :
  Forall (fun c => c <> 0) l -> s = 0 \/ ether_sep s -> (d <= 5)%nat -> (p <= 2)%nat -> length data = 6%nat ->
  (p' <> 0)%nat -> ether_loop l data d p s = Some (data', 5%nat, p') ->
  exists cur' gs sep, l = join sep (cur' :: gs) /\ (length gs + d = 5)%nat /\ ether_sep sep /\
    (s <> 0 -> gs <> [] -> sep = s) /\ length data' = 6%nat /\ take d data' = take d data /\
    forall cur, length cur = p -> (p = 0%nat \/ hex_group cur (default 0 (data !! d))) ->
      Forall2 hex_group ((cur ++ cur') :: gs) (drop d data').
Proof.
  intros Hl. revert data d p s. induction Hl as [|c l Hc Hl IH]; intros data d p s Hs Hd Hp Hlen Hp'; cbn [ether_loop].
  - intros [= <- -> <-]. exists [], [], 45. split; [done|]. split; [done|]. split; [by left|]. split; [done|].
    split; [done|]. split; [done|]. intros cur _ [->|Hcur]; [done|]. rewrite app_nil_r.
    destruct (lookup_lt_is_Some_2 data 5 ltac:(lia)) as [x Hx]. rewrite Hx in Hcur.
    rewrite (drop_S data x 5), drop_ge by (done || lia). by repeat constructor.
  - destruct (hex_value c) as [x|] eqn:Ex.
    + pose proof (hex_value_range c x Ex) as Hxr.
      destruct (Nat.eqb_spec p 2) as [|Hp2]; [done|]. destruct (Nat.eqb_spec d 6) as [|Hd6]; [done|]. cbn [orb].
      set (y := u8 _). intros E.
      destruct (IH (<[d:=y]> data) d (S p) s Hs Hd ltac:(lia) ltac:(by rewrite length_insert) Hp' E)
        as (cur' & gs & sep & -> & Hn & Hsep & Hss & Hl' & Ht & Hg).
      exists (c :: cur'), gs, sep. split; [by destruct gs|]. do 4 (split; [done|]).
      split; [by rewrite Ht, take_insert_ge|]. intros cur Hcl Hcur. rewrite list_lookup_insert_eq in Hg by lia.
      specialize (Hg (cur ++ [c])). rewrite <- app_assoc in Hg. apply Hg; [rewrite length_app; cbn; lia|]. right. cbn [from_option id].
      destruct cur as [|c0 [|]]; cbn [length] in Hcl; [| |lia]; subst p; unfold y; cbn [Nat.eqb].
      * rewrite Z.add_0_l, u8_small by lia. by apply hex_one.
      * destruct Hcur as [|Hcur]; [done|]. inversion Hcur as [c1 d1 Hd1 E1 E2|]; subst c1.
        pose proof (hex_value_range c0 _ Hd1). rewrite Z.shiftl_mul_pow2 by lia. change (2 ^ 4) with 16.
        rewrite u8_small by lia. rewrite (Z.mul_comm _ 16). by apply hex_two.
    + set (s' := if (s =? 0) && ((c =? 45) || (c =? 58)) then c else s).
      destruct ((c =? s') && ((p =? 1)%nat || (p =? 2)%nat) && (d <? 5)%nat) eqn:Eb; [|done].
      rewrite !andb_true_iff, orb_true_iff, !Nat.eqb_eq, Nat.ltb_lt, Z.eqb_eq in Eb.
      destruct Eb as [[Ec Hpp] Hd5]. intros E.
      assert (Hsep' : ether_sep s').
      { unfold s' in *. destruct (_ && _) eqn:Es in *.
        - apply andb_true_iff in Es as [_ Es]. by rewrite orb_true_iff, !Z.eqb_eq in Es.
        - destruct Hs as [-> |]; [by subst c|done]. }
      destruct (IH data (S d) 0%nat s' (or_intror Hsep') ltac:(lia) ltac:(lia) Hlen Hp' E)
        as (cur' & gs & sep & El & Hn & Hsep & Hss & Hl' & Ht & Hg).
      exists [], (cur' :: gs), s'. split.
      { cbn [join app]. rewrite El, Ec. f_equal. destruct gs as [|g gs]; [done|].
        rewrite Hss; [done| |done]. intros H0. rewrite H0 in Hsep'. by destruct Hsep'. }
      split; [cbn [length]; lia|]. split; [done|]. split.
      { intros Hs0 _. unfold s'. by rewrite (proj2 (Z.eqb_neq s 0)). }
      split; [done|]. split.
      { apply (f_equal (take d)) in Ht. by rewrite !take_take, Nat.min_l in Ht by lia. }
      intros cur Hcl [->|Hcur]; [lia|]. rewrite app_nil_r.
      destruct (lookup_lt_is_Some_2 data d ltac:(lia)) as [x Hx]. rewrite Hx in Hcur.
      assert (data' !! d = Some x) as Hx'.
      { rewrite <- (lookup_take_lt data' (S d)), Ht, lookup_take_lt by lia. done. }
      rewrite (drop_S data' x d) by done. constructor; [done|]. apply (Hg []); [done|by left].
Qed.

(** Without names, the strings (without NULs) that [EtherAddressArg] accepts are those of six
    groups of one or two hexadecimal digits with dashes, or with colons, between them, and its
    result is the bytes they stand for. *)
Theorem EtherAddressArg_accepts l e :
  Forall (fun c => c <> 0) l -> EtherAddressArg_parse no_names l = Some e <-> ether_text l e.
Proof.
  intros Hl. unfold EtherAddressArg_parse. split.
  - destruct (ether_loop l (replicate 6 0) 0 0 0) as [[[data d] p]|] eqn:E; [|done].
    destruct (negb (p =? 0)%nat && (d =? 5)%nat) eqn:Eb; [|done]. intros [= <-].
    rewrite andb_true_iff, negb_true_iff, Nat.eqb_neq, Nat.eqb_eq in Eb. destruct Eb as [Hp ->].
    destruct (ether_loop_sound l (replicate 6 0) 0 0 0 data p Hl (or_introl eq_refl) ltac:(lia) ltac:(lia) ltac:(done) Hp E)
      as (cur' & gs & sep & -> & Hn & Hsep & _ & _ & _ & Hg).
    exists sep, (cur' :: gs). split; [done|]. split; [cbn; lia|]. split; [|done]. apply (Hg []); [done|by left].
  - intros (p & Hp & ->)%ether_text_loop. by rewrite (proj2 (Nat.eqb_neq p 0)).
Qed.
(** An Ethernet address written with dashes or with colons is read back as that address. *)
Theorem EtherAddress_roundtrip n e :
  length e = 6%nat -> bytes_ok e ->
  EtherAddressArg_parse n (unparse_dash e) = Some e /\ EtherAddressArg_parse n (unparse_colon e) = Some e.
Proof.
  intros Hl Hb. unfold EtherAddressArg_parse, unparse_dash, unparse_colon.
  destruct (ether_text_loop _ _ (ether_text_join 45 e (or_introl eq_refl) Hl Hb)) as (p & Hp & ->).
  destruct (ether_text_loop _ _ (ether_text_join 58 e (or_intror eq_refl) Hl Hb)) as (q & Hq & ->).
  by rewrite (proj2 (Nat.eqb_neq p 0)), (proj2 (Nat.eqb_neq q 0)).
Qed.

(** ** Instances *)
Lemma IPPrefix_roundtrip_witness :
  IPPrefixArg_parse true false no_names (unparse_with_mask (ip_of_data [10; 1; 2; 3]) (make_prefix 20)) =
    Some (ip_of_data [10; 1; 2; 3], make_prefix 20).
Proof. apply IPPrefix_roundtrip; vm_compute; by split. Defined.
Lemma EtherAddressArg_accepts_witness :
  EtherAddressArg_parse no_names (str "0:1:2:aB:c:fF") = Some [0; 1; 2; 171; 12; 255] <->
  ether_text (str "0:1:2:aB:c:fF") [0; 1; 2; 171; 12; 255].
Proof. apply EtherAddressArg_accepts. cbn. repeat constructor; done. Defined.
