(* ===== verification/Classifier.v ===== *)
(** * Configurations of [Classifier] ([elements/standard/classifier.cc])

    A pattern is read clause by clause, and each clause adds the tests of its words to the
    classification program of [Classify].  A string is the list of its character codes; where
    the code keeps a position in it, the model keeps the rest of the string from there, and
    for the digits of a value or mask also how many of them are to be read. *)
From Stdlib Require Import ZArith Lia String.
From stdpp Require Import base list numbers option.
From S2P Require Import Prelude Parse Classify ClassifyTree ClassifyDom DomWays Dominators Address.
#[local] Open Scope Z_scope.

(** ** [parse_program] *)
Definition isspace (c : Z) : bool := ((9 <=? c) && (c <=? 13)) || (c =? 32).
Definition isxdigit (c : Z) : bool :=
  isdigit c || ((65 <=? c) && (c <=? 70)) || ((97 <=? c) && (c <=? 102)).
Definition is_value_char (c : Z) : bool := isxdigit c || (c =? 63).
Fixpoint skip_while (f : Z -> bool) (s : chars) : chars :=
  match s with
  | c :: s' => if f c then skip_while f s' else s
  | [] => []
  end.
Fixpoint count_while (f : Z -> bool) (s : chars) : nat :=
  match s with
  | c :: s' => if f c then S (count_while f s') else O
  | [] => O
  end.

(** [update_value_mask(c, shift, value, mask)] *)
Definition update_value_mask (c shift : Z) (vm : Z * Z) : Z * Z :=
  let '(v, m) := if c =? 63 then (0, 0)
                 else if (48 <=? c) && (c <=? 57) then (c - 48, 15)
                 else if (65 <=? c) && (c <=? 70) then (c - 65 + 10, 15)
                 else if (97 <=? c) && (c <=? 102) then (c - 97 + 10, 15)
                 else (0, 15) in
  (Z.lor (fst vm) (Z.shiftl v shift), Z.lor (snd vm) (Z.shiftl m shift)).
(** Two characters as a byte and its mask. *)
Definition hex_byte (c1 c2 : Z) : Z * Z := update_value_mask c2 0 (update_value_mask c1 4 (0, 0)).

(** [prog.back().mask.c[k] = m] and the same for the value. *)
Definition set_byte (w k b : Z) : Z := Z.lor (Z.ldiff w (Z.shiftl 255 (8 * k))) (Z.shiftl b (8 * k)).
Definition set_insn_byte (k v m : Z) (e : Insn) : Insn :=
  let t := i_test e in
  MkInsn (MkTest (i_offset t) (i_short t) (set_byte (i_mask t) k m) (set_byte (i_value t) k v))
    (i_no e) (i_yes e).
Definition set_back (k v m : Z) (p : Program) : Program :=
  set_insn (alter (set_insn_byte k v m) (length (p_insn p) - 1)%nat (p_insn p)) p.

Definition build : Type := Program * list Z.
Definition start (s : build) : build := (fst s, start_subtree (snd s)).
Definition check_int (x : Z) : res Z := if x <=? 2147483647 then Ok x else Fault Overflow.
(** The mask of the byte, from the mask's two characters, and the mask's other characters. *)
Definition mask_byte (m : Z) (mask : option chars) : res (Z * option chars) :=
  match mask with
  | None => Ok (m, None)
  | Some (d1 :: d2 :: mask) =>
      let '(mv, mm) := hex_byte d1 d2 in Ok (Z.land (Z.land m mv) mm, Some mask)
  | Some _ => Fault OutOfBounds
  end.
(** The loop over the [n] characters of the value; the second result is [first]. *)
Fixpoint add_values (n : Z) (value : chars) (mask : option chars) (offset : Z) (first : bool) (s : build)
  : res (build * bool) :=
  if n <=? 0 then Ok (s, first)
  else
    match value with
    | c1 :: c2 :: value =>
        let '(v, m) := hex_byte c1 c2 in
        '(m, mask) ← mask_byte m mask;
        let s := if first || (offset mod 4 =? 0) then add_insn (offset / 4 * 4) 0 0 s else s in
        let s := (set_back (offset mod 4) (Z.land v m) m (fst s), snd s) in
        offset ← check_int (offset + 1);
        add_values (n - 2) value mask offset false s
    | _ => Fault OutOfBounds
    end.

(** "read offset" *)
Fixpoint read_offset (s : chars) (offset : Z) : res (Z * chars) :=
  match s with
  | c :: s' => if isdigit c then offset ← check_int (offset * 10 + (c - 48)); read_offset s' offset
               else Ok (offset, s)
  | [] => Ok (offset, [])
  end.
(** "check lengths": how many characters of the value and of the mask are read, and the
    number of errors. *)
Definition check_lengths (vlen : Z) (mlen : option Z) : Z * nat :=
  let '(vlen, mlen, e1) := if vlen <? 2 then (0, (fun _ => 0) <$> mlen, 1%nat) else (vlen, mlen, 0%nat) in
  let '(vlen, mlen, e2) :=
    if vlen mod 2 =? 0 then (vlen, mlen, 0%nat) else (vlen - 1, (fun m => m - 1) <$> mlen, 1%nat) in
  match mlen with
  | None => (vlen, (e1 + e2)%nat)
  | Some mlen => if mlen =? vlen then (vlen, (e1 + e2)%nat)
                 else (if vlen <? mlen then vlen else mlen, (e1 + e2 + 1)%nat)
  end.
Record slot_state : Type := MkSlot { ss_build : build; ss_empty : bool; ss_errors : nat }.
Definition slot_error (st : slot_state) : slot_state :=
  MkSlot (ss_build st) (ss_empty st) (S (ss_errors st)).
(** One clause after its [!]; [None] when the loop over the pattern ends ([break]). *)
Definition parse_term (negated : bool) (s : chars) (st : slot_state) : res (option chars * slot_state) :=
  if negb (match s with c :: _ => isdigit c | [] => false end) then Ok (None, slot_error st)
  else
    '(offset, s) ← read_offset s 0;
    match s with
    | 47 :: value =>
        let vlen := count_while is_value_char value in
        let s := drop vlen value in
        let mask := match s with 37 :: mask => Some mask | _ => None end in
        let mlen := count_while is_value_char <$> mask in
        let s := match mask with Some m => drop (default 0%nat mlen) m | None => s end in
        let '(n, errors) := check_lengths (Z.of_nat vlen) (Z.of_nat <$> mlen) in
        offset ← check_int (offset + p_align_offset (fst (ss_build st)));
        '(b, first) ← add_values n value mask offset true (start (ss_build st));
        let b := finish_subtree c_and j_success j_failure b in
        let b := if negated then negate_subtree false b else b in
        Ok (Some s, MkSlot b (ss_empty st && first) (ss_errors st + errors))
    | _ => Ok (None, slot_error st)
    end.
Definition parse_clause (s : chars) (st : slot_state) : res (option chars * slot_state) :=
  let s := skip_while isspace s in
  match s with
  | [] => Ok (None, st)
  | c :: s' =>
      let negated := c =? 33 in
      parse_term negated (if negated then skip_while isspace s' else s) st
  end.
Fixpoint parse_clauses (fuel : nat) (s : chars) (st : slot_state) : res slot_state :=
  match fuel with
  | O => Fault Diverges
  | S fuel =>
      '(s, st) ← parse_clause s st;
      match s with
      | None => Ok st
      | Some s => parse_clauses fuel s st
      end
  end.
(** One pattern; [errors] counts the errors so far. *)
Definition parse_slot (slot : nat) (s : chars) (b : build) (errors : nat) : res (build * nat) :=
  let st := MkSlot (start b) true errors in
  st ← (if decide (s = [45]) then Ok st else parse_clauses (S (length s)) s st);
  let b := ss_build st in
  let b := if ss_empty st then add_insn 0 0 0 b else b in
  Ok (finish_subtree c_and (- Z.of_nat slot) j_failure b, ss_errors st).
Fixpoint parse_slots (slot : nat) (conf : list chars) (b : build) (errors : nat) : res (build * nat) :=
  match conf with
  | [] => Ok (b, errors)
  | s :: conf => '(b, errors) ← parse_slot slot s b errors; parse_slots (S slot) conf b errors
  end.
(** The program of the patterns, before [optimize]. *)
Definition parse_patterns (conf : list chars) (prog : Program) : res (Program * nat) :=
  '(b, errors) ← parse_slots 0 conf (start (prog, init_subtree prog)) 0;
  Ok (fst (finish_subtree c_or j_never j_never b), errors).
Definition offset_max : Z := 0x7FFFFFFF.
Definition parse_program (conf : list chars) (prog : Program) : res (Program * nat) :=
  '(prog, errors) ← parse_patterns conf prog;
  prog ← optimize [] offset_max prog;
  Ok (prog, errors).

(** ** The element *)
(** [empty_program]: [alignment] is what [AlignmentInfo::query] found. *)
Definition empty_program (alignment : option (Z * Z)) : Program :=
  Program_new (match alignment with
               | Some (c, o) => if 4 <=? c then (4 - o mod 4) mod 4 else 0
               | None => 0
               end).
(** [warn_unused_outputs]: the outputs it warns of. *)
Definition used_output (noutputs : nat) (used : list bool) (j : Z) : list bool :=
  if (j <=? 0) && (- j <? Z.of_nat noutputs) then <[Z.to_nat (- j) := true]> used else used.
Definition unused_outputs (noutputs : nat) (p : Program) : list nat :=
  let oe := p_output_everything p in
  let used := replicate noutputs false in
  let used := if (0 <=? oe) && (oe <? Z.of_nat noutputs) then <[Z.to_nat oe := true]> used
              else foldl (fun used e => used_output noutputs (used_output noutputs used (i_no e)) (i_yes e))
                     used (p_insn p) in
  filter (fun i => used !! i = Some false) (seq 0 noutputs).
(** The new [_prog], or [None] if the configuration is refused. *)
Definition Classifier_configure (noutputs : nat) (alignment : option (Z * Z)) (conf : list chars)
  : res (option (Program * list nat)) :=
  if negb (length conf =? noutputs)%nat then Ok None
  else
    '(prog, errors) ← parse_program conf (empty_program alignment);
    if (errors =? 0)%nat then Ok (Some (prog, unused_outputs noutputs prog)) else Ok None.
(** Where [push] sends the packet; [None] if it is dropped. *)
Definition Classifier_push (noutputs : nat) (prog : Program) (p : packet_mem) : option (option nat) :=
  m ← match_packet prog p;
  Some (if (0 <=? m) && (m <? Z.of_nat noutputs) then Some (Z.to_nat m) else None).

(** ** What a configuration means *)
(** A clause as the documentation has it: pairs of digits (or [?]) for the value and for the
    mask.  It asks for bytes of the packet from an offset on. *)
Record clause : Type := Clause {
  cl_negated : bool;
  cl_offset : Z;
  cl_value : list (Z * Z);
  cl_mask : option (list (Z * Z))
}.
Definition value_byte (d : Z * Z) : Z * Z := hex_byte (fst d) (snd d).
(** The bytes of a clause: what is looked for and the bits that count. *)
Definition masked_byte (vm mm : Z * Z) : Z * Z :=
  (fst vm, Z.land (Z.land (snd vm) (fst mm)) (snd mm)).
Definition clause_bytes (c : clause) : list (Z * Z) :=
  match cl_mask c with
  | None => map value_byte (cl_value c)
  | Some mask => zip_with masked_byte (map value_byte (cl_value c)) (map value_byte mask)
  end.
Definition byte_ok (p : packet_mem) (o : Z) (b : Z * Z) : bool :=
  (snd b =? 0) || ((o <? m_length p) && (Z.land (m_byte p o) (snd b) =? Z.land (fst b) (snd b))).
Fixpoint bytes_ok (p : packet_mem) (o : Z) (l : list (Z * Z)) : bool :=
  match l with [] => true | b :: l => byte_ok p o b && bytes_ok p (o + 1) l end.
Definition clause_matches (p : packet_mem) (c : clause) : bool :=
  xorb (cl_negated c) (bytes_ok p (cl_offset c) (clause_bytes c)).
Definition pattern_matches (p : packet_mem) (l : list clause) : bool := forallb (clause_matches p) l.
(** The first pattern that matches, counted from [slot]. *)
Fixpoint first_match (p : packet_mem) (slot : nat) (conf : list (list clause)) : option nat :=
  match conf with
  | [] => None
  | l :: conf => if pattern_matches p l then Some slot else first_match p (S slot) conf
  end.

(** The text of a configuration. *)
Definition pair_chars (d : Z * Z) : chars := [fst d; snd d].
Definition unparse_clause (c : clause) : chars :=
  (if cl_negated c then [33] else []) ++ decimal (cl_offset c) ++ 47 :: concat (map pair_chars (cl_value c)) ++
  match cl_mask c with Some mask => 37 :: concat (map pair_chars mask) | None => [] end.
Definition unparse_pattern (l : list clause) : chars :=
  match l with [] => [45] | _ => join 32 (map unparse_clause l) end.
Definition chars_ok (d : Z * Z) : Prop := is_value_char (fst d) = true /\ is_value_char (snd d) = true.
(** Offsets that the 16 bits of an instruction hold. *)
Definition clause_ok (c : clause) : Prop :=
  0 <= cl_offset c /\ cl_offset c + Z.of_nat (length (cl_value c)) < 65500 /\ cl_value c <> [] /\
  Forall chars_ok (cl_value c) /\
  match cl_mask c with Some mask => length mask = length (cl_value c) /\ Forall chars_ok mask | None => True end.
Definition packet_ok (p : packet_mem) : Prop := forall o, 0 <= m_byte p o < 256.

(** ** Tests and bytes *)
Lemma byte_bits b n : 0 <= b < 256 -> 8 <= n -> Z.testbit b n = false.
Proof. intros Hb Hn. rewrite <- (Z.mod_small b (2 ^ 8)) by lia. by apply Z.mod_pow2_bits_high. Qed.
Lemma word_bits p o n : packet_ok p -> 0 <= n < 32 ->
  Z.testbit (word p o) n = Z.testbit (m_byte p (o + n / 8)) (n mod 8).
Proof.
  intros Hp Hn. unfold word. pose proof (Hp o). pose proof (Hp (o + 1)). pose proof (Hp (o + 2)). pose proof (Hp (o + 3)).
  assert (Hstep : forall b w m, 0 <= b < 256 -> 0 <= m -> Z.testbit (b + 256 * w) m = if m <? 8 then Z.testbit b m else Z.testbit w (m - 8)).
  { intros b w m Hb Hm. assert (Hl : Z.land b (w * 2 ^ 8) = 0).
    { apply Z.bits_inj'. intros k Hk. rewrite Z.land_spec, Z.bits_0.
      destruct (Z.lt_ge_cases k 8); [rewrite Z.mul_pow2_bits_low by lia; apply andb_false_r|by rewrite byte_bits by lia]. }
    replace (b + 256 * w) with (Z.lor b (w * 2 ^ 8)) by (rewrite <- Z.add_nocarry_lor by done; lia).
    rewrite Z.lor_spec. destruct (Z.ltb_spec m 8).
    - rewrite Z.mul_pow2_bits_low by lia. apply orb_false_r.
    - by rewrite byte_bits, Z.mul_pow2_bits by lia. }
  pose proof (Z.div_mod n 8 ltac:(lia)) as Hdm. pose proof (Z.mod_pos_bound n 8 ltac:(lia)) as Hmb.
  assert (n / 8 = 0 /\ n mod 8 = n /\ n < 8 \/ n / 8 = 1 /\ n mod 8 = n - 8 /\ 8 <= n < 16 \/
          n / 8 = 2 /\ n mod 8 = n - 8 - 8 /\ 16 <= n < 24 \/ n / 8 = 3 /\ n mod 8 = n - 8 - 8 - 8 /\ 24 <= n) as Hc by lia.
  destruct Hc as [(-> & -> & ?)|[(-> & -> & ?)|[(-> & -> & ?)|(-> & -> & ?)]]];
    repeat (rewrite Hstep by lia; match goal with |- context [?a <? ?b] => destruct (Z.ltb_spec a b); [try lia|try lia] end); rewrite ?Z.add_0_r; done.
Qed.
Lemma div8 n k : n / 8 = k <-> 8 * k <= n < 8 * k + 8.
Proof. pose proof (Z.div_mod n 8 ltac:(lia)) as Hdm. pose proof (Z.mod_pos_bound n 8 ltac:(lia)) as Hmb. lia. Qed.
Lemma mask_c_bits t k : 0 <= k ->
  (mask_c t k =? 0) = false <-> exists n, 8 * k <= n < 8 * k + 8 /\ Z.testbit (i_mask t) n = true.
Proof.
  intros Hk. unfold mask_c. rewrite Z.eqb_neq. split.
  - intros Hne. destruct (Z.eq_dec (Z.land (Z.shiftr (i_mask t) (8 * k)) 255) 0) as [|_]; [done|].
    assert (Hr : 0 < Z.land (Z.shiftr (i_mask t) (8 * k)) 255).
    { assert (0 <= Z.land (Z.shiftr (i_mask t) (8 * k)) 255) by (apply Z.land_nonneg; right; lia). lia. }
    pose proof (Z.bit_log2 _ Hr) as Hb. set (m := Z.log2 _) in *. rewrite Z.land_spec in Hb.
    apply andb_true_iff in Hb as [Hb H8]. assert (0 <= m) by apply Z.log2_nonneg.
    destruct (Z.lt_ge_cases m 8) as [Hm|Hm]; [|by rewrite byte_bits in H8 by lia].
    rewrite Z.shiftr_spec in Hb by lia. exists (m + 8 * k). split; [lia|done].
  - intros (n & Hn & Hb) E. apply (f_equal (fun x => Z.testbit x (n - 8 * k))) in E.
    rewrite Z.land_spec, Z.shiftr_spec, Z.bits_0 in E by lia. replace (n - 8 * k + 8 * k) with n in E by lia.
    rewrite Hb in E. change 255 with (Z.ones 8) in E. by rewrite Z.ones_spec_low in E by lia.
Qed.
(** The length a test needs is that of the bytes its mask has bits in. *)
Lemma required_length_bits t len : test_ok t ->
  (i_mask t = 0 \/ required_length t <= len) <->
  (forall n, 0 <= n -> Z.testbit (i_mask t) n = true -> i_offset t + n / 8 < len).
Proof.
  intros (Hm & _). apply range32_bits in Hm as [_ Hhigh]. unfold required_length.
  destruct (Z.eqb_spec (i_mask t) 0) as [E|E].
  { split; [intros _ n _; by rewrite E, Z.bits_0|by left]. }
  assert (Hc : forall k, 0 <= k -> (mask_c t k =? 0) = true -> forall n, Z.testbit (i_mask t) n = true -> n / 8 <> k).
  { intros k Hk Hz n Hb Hn. assert (Hf : (mask_c t k =? 0) = false) by (apply mask_c_bits; [done|]; exists n; split; [by apply div8|done]). congruence. }
  assert (Hn : forall n, 0 <= n -> Z.testbit (i_mask t) n = true -> 0 <= n / 8 <= 3).
  { intros n H0 Hb. destruct (Z.lt_ge_cases n 32); [pose proof (proj1 (div8 n (n / 8)) eq_refl); lia|]. by rewrite Hhigh in Hb by lia. }
  assert (Hd : forall k, 0 <= k -> (mask_c t k =? 0) = false -> (forall n, 0 <= n -> Z.testbit (i_mask t) n = true -> i_offset t + n / 8 < len) -> i_offset t + k < len).
  { intros k Hk (n & Hnk & Hb)%mask_c_bits H; [|done]. specialize (H n ltac:(lia) Hb). rewrite (proj2 (div8 n k) Hnk) in H. lia. }
  destruct (mask_c t 3 =? 0) eqn:E3; cbn [negb].
  2: { split; [intros [|H] n H0 Hb; [done|]; specialize (Hn n H0 Hb); lia|intros H; right; specialize (Hd 3 ltac:(lia) E3 H); lia]. }
  destruct (mask_c t 2 =? 0) eqn:E2; cbn [negb].
  2: { split; [intros [|H] n H0 Hb; [done|]; specialize (Hn n H0 Hb); specialize (Hc 3 ltac:(lia) E3 n Hb); lia|intros H; right; specialize (Hd 2 ltac:(lia) E2 H); lia]. }
  destruct (mask_c t 1 =? 0) eqn:E1; cbn [negb].
  2: { split; [intros [|H] n H0 Hb; [done|]; specialize (Hn n H0 Hb); pose proof (Hc 3 ltac:(lia) E3 n Hb); pose proof (Hc 2 ltac:(lia) E2 n Hb); lia|intros H; right; specialize (Hd 1 ltac:(lia) E1 H); lia]. }
  destruct (mask_c t 0 =? 0) eqn:E0.
  { exfalso. apply E. apply Z.bits_inj'. intros n H0. rewrite Z.bits_0. destruct (Z.testbit (i_mask t) n) eqn:Hb; [|done].
    specialize (Hn n H0 Hb). pose proof (Hc 3 ltac:(lia) E3 n Hb). pose proof (Hc 2 ltac:(lia) E2 n Hb).
    pose proof (Hc 1 ltac:(lia) E1 n Hb). pose proof (Hc 0 ltac:(lia) E0 n Hb). lia. }
  split; [intros [|H] n H0 Hb; [done|]; specialize (Hn n H0 Hb); pose proof (Hc 3 ltac:(lia) E3 n Hb); pose proof (Hc 2 ltac:(lia) E2 n Hb); pose proof (Hc 1 ltac:(lia) E1 n Hb); lia
         |intros H; right; specialize (Hd 0 ltac:(lia) E0 H); lia].
Qed.
(** What a test decides, bit by bit. *)
Lemma packet_test_bits al p t : test_ok t -> packet_ok p -> i_short t = false ->
  packet_test al p t = true <->
  forall n, 0 <= n -> Z.testbit (i_mask t) n = true ->
    i_offset t + n / 8 < m_length p + al /\
    Z.testbit (m_byte p (i_offset t - al + n / 8)) (n mod 8) = Z.testbit (i_value t) n.
Proof.
  intros Ht Hp Hs. pose proof Ht as (Hm & _). apply range32_bits in Hm as [_ Hhigh]. unfold packet_test. rewrite Hs.
  pose proof (required_length_bits t (m_length p + al) Ht) as Hreq. pose proof (data_test_bits al p t Ht) as Hdata.
  assert (Hw : forall n, 0 <= n -> Z.testbit (i_mask t) n = true ->
    Z.testbit (word p (i_offset t - al)) n = Z.testbit (m_byte p (i_offset t - al + n / 8)) (n mod 8)).
  { intros n Hn Hb. apply word_bits; [done|]. destruct (Z.lt_ge_cases n 32); [lia|]. by rewrite Hhigh in Hb by lia. }
  destruct (Z.eqb_spec (i_mask t) 0) as [E|E].
  { split; [|done]. intros _ n _. by rewrite E, Z.bits_0. }
  destruct (Z.ltb_spec (m_length p + al) (required_length t)) as [Hl|Hl].
  - split; [done|]. intros H. exfalso. destruct (proj2 Hreq) as [|H']; [|done|lia]. intros n Hn Hb. by apply H.
  - rewrite Hdata. pose proof (proj1 Hreq (or_intror Hl)) as Hlen. split.
    + intros H n Hn Hb. split; [by apply Hlen|]. rewrite <- Hw by done. by apply H.
    + intros H n Hn Hb. rewrite Hw by done. by apply H.
Qed.

(** *** One more byte in a word *)
Section Bound.
(** A bound for the offsets of the words. *)
Context (B : Z) (HB : 0 < B <= 65536).
Lemma set_byte_bits w k b n : 0 <= k -> 0 <= b < 256 -> 0 <= n ->
  Z.testbit (set_byte w k b) n = if (8 * k <=? n) && (n <? 8 * k + 8) then Z.testbit b (n - 8 * k) else Z.testbit w n.
Proof.
  intros Hk Hb Hn. unfold set_byte. rewrite Z.lor_spec, Z.ldiff_spec. change 255 with (Z.ones 8).
  destruct (Z.leb_spec (8 * k) n); cbn [andb].
  - rewrite !Z.shiftl_spec by lia. destruct (Z.ltb_spec n (8 * k + 8)).
    + rewrite Z.ones_spec_low by lia. by rewrite andb_false_r.
    + rewrite Z.ones_spec_high, (byte_bits b) by lia. by rewrite andb_true_r, orb_false_r.
  - rewrite !Z.shiftl_spec_low by lia. by rewrite andb_true_r, orb_false_r.
Qed.
Lemma byte_ok_bits p o v m : 0 <= m < 256 ->
  byte_ok p o (v, m) = true <->
  forall j, 0 <= j < 8 -> Z.testbit m j = true -> o < m_length p /\ Z.testbit (m_byte p o) j = Z.testbit v j.
Proof.
  intros Hm. unfold byte_ok. cbn [fst snd]. rewrite orb_true_iff, andb_true_iff, !Z.eqb_eq, Z.ltb_lt. split.
  - intros [-> |[Hl E]] j Hj Hb; [by rewrite Z.bits_0 in Hb|]. split; [done|].
    apply (f_equal (fun x => Z.testbit x j)) in E. by rewrite !Z.land_spec, Hb, !andb_true_r in E.
  - intros H. destruct (Z.eq_dec m 0) as [|Hne]; [by left|right]. split.
    + pose proof (Z.bit_log2 m ltac:(lia)) as Hb. apply (H (Z.log2 m)); [|done]. split; [apply Z.log2_nonneg|].
      destruct (Z.lt_ge_cases (Z.log2 m) 8); [done|]. by rewrite byte_bits in Hb by lia.
    + apply Z.bits_inj'. intros j Hj. rewrite !Z.land_spec. destruct (Z.testbit m j) eqn:Hb; [|by rewrite !andb_false_r].
      destruct (Z.lt_ge_cases j 8); [|by rewrite byte_bits in Hb by lia]. f_equal. by apply H.
Qed.
Lemma land_byte x y : 0 <= x < 256 -> 0 <= Z.land x y < 256.
Proof.
  intros Hx. split; [apply Z.land_nonneg; lia|]. destruct (Z.lt_ge_cases (Z.land x y) 256) as [|Hge]; [done|exfalso].
  pose proof (Z.bit_log2 (Z.land x y) ltac:(lia)) as E. rewrite Z.land_spec, (byte_bits x) in E; [done|lia|].
  by apply Z.log2_le_pow2; [lia|].
Qed.
(** The tests of a clause while it is read: words that fail for short packets, the last of
    them with only the bytes before [k]. *)
Definition word_test (t : Test) : Prop := test_ok t /\ i_short t = false /\ 0 <= i_offset t < B.
Definition bytes_before (k : Z) (t : Test) : Prop := forall n, 8 * k <= n -> Z.testbit (i_mask t) n = false.
Lemma set_insn_byte_test k v m e : word_test (i_test e) -> 0 <= k < 4 -> 0 <= v < 256 -> 0 <= m < 256 -> bytes_before k (i_test e) ->
  let e' := set_insn_byte k (Z.land v m) m e in
  word_test (i_test e') /\ bytes_before (k + 1) (i_test e') /\
  forall al p, packet_ok p ->
    packet_test al p (i_test e') = packet_test al p (i_test e) && byte_ok p (i_offset (i_test e) - al + k) (v, m).
Proof.
  destruct e as [[o so mk vl] no yes]. intros (Ht & Hs & Ho) Hk Hv Hm Hb. cbn [i_test i_offset i_short set_insn_byte] in *.
  pose proof (land_byte v m Hv) as Hvm.
  pose proof Ht as (Hmk & Hvl & Hland). cbn [i_mask i_value] in *. apply range32_bits in Hmk as [Hmk0 Hmk].
  assert (Hbits : forall w b n, 0 <= b < 256 -> 0 <= n ->
    Z.testbit (set_byte w k b) n = if (8 * k <=? n) && (n <? 8 * k + 8) then Z.testbit b (n - 8 * k) else Z.testbit w n)
    by (intros; apply set_byte_bits; lia).
  assert (Ht' : test_ok (MkTest o so (set_byte mk k m) (set_byte vl k (Z.land v m)))).
  { unfold test_ok. cbn [i_mask i_value]. split; [apply range32_bits; split; [|intros n Hn; rewrite Hbits by lia]|split].
    - unfold set_byte. apply Z.lor_nonneg. split; [apply Z.ldiff_nonneg; by left|apply Z.shiftl_nonneg; lia].
    - destruct (Z.leb_spec (8 * k) n), (Z.ltb_spec n (8 * k + 8)); cbn [andb]; lia || by apply Hmk.
    - unfold set_byte. apply Z.lor_nonneg. split; [apply Z.ldiff_nonneg; by left|apply Z.shiftl_nonneg; lia].
    - apply Z.bits_inj'. intros n Hn. rewrite Z.land_spec, !Hbits by lia. destruct ((8 * k <=? n) && _); [rewrite Z.land_spec; by destruct (Z.testbit m _); rewrite ?andb_true_r, ?andb_false_r|].
      rewrite <- Hland at 2. rewrite Z.land_spec. done. }
  split; [done|]. split.
  { intros n Hn. cbn [i_test i_mask]. rewrite Hbits by lia. rewrite (proj2 (Z.ltb_ge n _)), andb_false_r by lia. apply Hb. lia. }
  intros al p Hp. apply eq_true_iff_eq. rewrite andb_true_iff, byte_ok_bits by done. rewrite !packet_test_bits by done.
  cbn [i_mask i_value i_offset]. split.
  - intros H. split.
    + intros n Hn E. specialize (H n Hn). rewrite !Hbits in H by lia.
      rewrite (proj2 (Z.leb_gt _ n)) in H; [by apply H|]. destruct (Z.lt_ge_cases n (8 * k)); [done|]. by rewrite Hb in E by lia.
    + intros j Hj E. specialize (H (8 * k + j) ltac:(lia)). rewrite !Hbits in H by lia.
      rewrite (proj2 (Z.leb_le _ _)), (proj2 (Z.ltb_lt _ _)) in H by lia. cbn [andb] in H.
      replace (8 * k + j - 8 * k) with j in H by lia. rewrite (proj2 (div8 (8 * k + j) k)) in H by lia.
      replace ((8 * k + j) mod 8) with j in H by (pose proof (Z.div_mod (8 * k + j) 8 ltac:(lia)) as E1; rewrite (proj2 (div8 (8 * k + j) k)) in E1 by lia; lia).
      destruct (H E) as [H1 H2]. split; [lia|]. by rewrite H2, Z.land_spec, E, andb_true_r.
  - intros [H1 H2] n Hn. rewrite !Hbits by lia. destruct (Z.leb_spec (8 * k) n), (Z.ltb_spec n (8 * k + 8)); cbn [andb]; intros E; try (by apply H1).
    rewrite (proj2 (div8 n k)) by lia.
    replace (n mod 8) with (n - 8 * k) by (pose proof (Z.div_mod n 8 ltac:(lia)) as E1; rewrite (proj2 (div8 n k)) in E1 by lia; lia).
    destruct (H2 (n - 8 * k) ltac:(lia) E) as [H3 H4]. split; [lia|]. by rewrite H4, Z.land_spec, E, andb_true_r.
Qed.
Lemma update_value_mask_nibble c shift vm : exists x y, 0 <= x < 16 /\ 0 <= y < 16 /\
  update_value_mask c shift vm = (Z.lor (fst vm) (Z.shiftl x shift), Z.lor (snd vm) (Z.shiftl y shift)).
Proof.
  unfold update_value_mask. destruct (c =? 63); [by exists 0, 0|].
  destruct (Z.leb_spec 48 c), (Z.leb_spec c 57); cbn [andb]; try (exists (c - 48), 15; split_and!; (lia || done)).
  all: destruct (Z.leb_spec 65 c), (Z.leb_spec c 70); cbn [andb]; try (exists (c - 65 + 10), 15; split_and!; (lia || done)).
  all: destruct (Z.leb_spec 97 c), (Z.leb_spec c 102); cbn [andb]; try (exists (c - 97 + 10), 15; split_and!; (lia || done)).
  all: exists 0, 15; split_and!; (lia || done).
Qed.
Lemma nibbles_range x y : 0 <= x < 16 -> 0 <= y < 16 -> 0 <= Z.lor (Z.lor 0 (Z.shiftl x 4)) (Z.shiftl y 0) < 256.
Proof.
  intros Hx Hy. rewrite Z.lor_0_l, Z.shiftl_0_r. split; [apply Z.lor_nonneg; split; [apply Z.shiftl_nonneg|]; lia|].
  assert (Hf : forall a b, (a < 16)%nat -> (b < 16)%nat -> Z.lor (Z.shiftl (Z.of_nat a) 4) (Z.of_nat b) < 256).
  { intros a b Ha Hb. do 16 (destruct a as [|a]; [do 16 (destruct b as [|b]; [done|]); lia|]). lia. }
  specialize (Hf (Z.to_nat x) (Z.to_nat y) ltac:(lia) ltac:(lia)). by rewrite !Z2Nat.id in Hf by lia.
Qed.
Lemma hex_byte_range c1 c2 : 0 <= fst (hex_byte c1 c2) < 256 /\ 0 <= snd (hex_byte c1 c2) < 256.
Proof.
  unfold hex_byte. destruct (update_value_mask_nibble c1 4 (0, 0)) as (x1 & y1 & Hx1 & Hy1 & ->). cbn [fst snd].
  destruct (update_value_mask_nibble c2 0 (Z.lor 0 (Z.shiftl x1 4), Z.lor 0 (Z.shiftl y1 4))) as (x2 & y2 & Hx2 & Hy2 & ->). cbn [fst snd].
  split; by apply nibbles_range.
Qed.
Lemma masked_byte_range vm mm : 0 <= snd vm < 256 -> 0 <= snd (masked_byte vm mm) < 256.
Proof. intros H. cbn [masked_byte snd]. by apply land_byte, land_byte. Qed.

(** *** The words of a clause *)
Definition word_insn (e : Insn) : Prop := word_test (i_test e) /\ i_no e = j_failure /\ i_yes e = j_success.
Definition all_pass (al : Z) (p : packet_mem) (l : list Insn) : bool := forallb (fun e => packet_test al p (i_test e)) l.
Definition bytes_of (value : list (Z * Z)) (mask : option (list (Z * Z))) : list (Z * Z) :=
  match mask with
  | None => map value_byte value
  | Some mask => zip_with masked_byte (map value_byte value) (map value_byte mask)
  end.
Definition pairs_chars (l : list (Z * Z)) : chars := concat (map pair_chars l).
(** The mask's characters, and that there is one for each of the value's. *)
Definition mask_chars (mask : option (list (Z * Z))) (rest : chars) : option chars := (fun l => pairs_chars l ++ rest) <$> mask.
Definition mask_length (n : nat) (mask : option (list (Z * Z))) : Prop := match mask with Some l => length l = n | None => True end.
(** The last word is ready for the byte at [off]. *)
Definition ready (off : Z) (c : list Insn) : Prop :=
  off mod 4 <> 0 -> forall e, list.last c = Some e -> i_offset (i_test e) = off / 4 * 4 /\ bytes_before (off mod 4) (i_test e).

Lemma div_mod4 off : off = 4 * (off / 4) + off mod 4 /\ 0 <= off mod 4 < 4.
Proof. split; [apply Z.div_mod; lia|apply Z.mod_pos_bound; lia]. Qed.
Lemma next_mod4 off : (off + 1) mod 4 <> 0 -> (off + 1) / 4 = off / 4 /\ (off + 1) mod 4 = off mod 4 + 1.
Proof. intros H. pose proof (div_mod4 off). pose proof (div_mod4 (off + 1)). lia. Qed.

(** The byte at [off] goes into the last word. *)
Lemma add_byte v m off l0 c e : word_insn e -> list.last c = Some e -> Forall word_insn c ->
  0 <= v < 256 -> 0 <= m < 256 -> i_offset (i_test e) = off / 4 * 4 -> bytes_before (off mod 4) (i_test e) ->
  exists c', alter (set_insn_byte (off mod 4) (Z.land v m) m) (length (l0 ++ c) - 1)%nat (l0 ++ c) = l0 ++ c' /\
    length c' = length c /\ Forall word_insn c' /\ ready (off + 1) c' /\
    forall al p, packet_ok p -> all_pass al p c' = all_pass al p c && byte_ok p (off - al) (v, m).
Proof.
  intros He Hlast Hc Hv Hm Ho Hb. pose proof (div_mod4 off) as [Hdm Hmod].
  destruct (set_insn_byte_test (off mod 4) v m e) as (Hw' & Hb' & Hp'); [apply He|lia|done..|].
  apply last_Some in Hlast as [c0 ->]. apply list.Forall_app in Hc as [Hc0 _].
  exists (c0 ++ [set_insn_byte (off mod 4) (Z.land v m) m e]). split.
  { rewrite app_assoc, length_app. cbn [length]. rewrite Nat.add_sub. rewrite (alter_app_r_alt _ (l0 ++ c0)) by lia.
    rewrite Nat.sub_diag. cbn. by rewrite app_assoc. }
  split; [by rewrite !length_app|]. split; [|split].
  - apply list.Forall_app. split; [done|]. constructor; [|done]. split; [done|]. apply He.
  - intros Hne e' E. rewrite last_snoc in E. injection E as <-. destruct (next_mod4 off Hne) as [-> ->].
    split; [|done]. destruct e as [[]]. apply Ho.
  - intros al p Hp. unfold all_pass. rewrite !forallb_app. cbn [forallb]. rewrite !andb_true_r, Hp' by done.
    rewrite Ho. replace (off / 4 * 4 - al + off mod 4) with (off - al) by lia. by rewrite andb_assoc.
Qed.

Lemma mask_byte_run v m mask restm n : 0 <= m < 256 -> mask_length (S n) mask ->
  exists m' mask', mask_byte m (mask_chars mask restm) = Ok (m', mask_chars mask' restm) /\ mask_length n mask' /\ 0 <= m' < 256 /\
    forall d value, value_byte d = (v, m) -> length value = n -> bytes_of (d :: value) mask = (v, m') :: bytes_of value mask'.
Proof.
  intros Hm Hl. destruct mask as [[|[d1 d2] mask]|]; cbn [mask_length length] in Hl; [done| |].
  - injection Hl as Hl. cbn [mask_chars fmap option_fmap option_map pairs_chars map pair_chars concat app fst snd mask_byte].
    destruct (hex_byte d1 d2) as [mv mm] eqn:E. eexists _, (Some mask). split; [done|]. split; [done|]. split.
    + by apply land_byte, land_byte.
    + intros d value Hd _. cbn [bytes_of map zip_with]. rewrite Hd. unfold value_byte at 1. cbn [fst snd]. by rewrite E.
  - exists m, None. split; [done|]. split; [done|]. split; [done|]. intros d value Hd _. cbn [bytes_of map]. by rewrite Hd.
Qed.
Lemma add_insn_word off p L ms l0 c : 0 <= off < B -> p_insn p = l0 ++ c -> Forall word_insn c ->
  let s := add_insn (off / 4 * 4) 0 0 (p, L :: ms) in
  exists e c', p_insn (fst s) = l0 ++ c' /\ snd s = L :: ms ++ [L] /\ p_align_offset (fst s) = p_align_offset p /\
    length c' = S (length c) /\ Forall word_insn c' /\ list.last c' = Some e /\ word_insn e /\
    i_offset (i_test e) = off / 4 * 4 /\ bytes_before (off mod 4) (i_test e) /\
    forall al pk, all_pass al pk c' = all_pass al pk c.
Proof.
  intros Hoff Hp Hc. pose proof (div_mod4 off) as [Hdm Hmod].
  assert (Hu : u16 (off / 4 * 4) = off / 4 * 4) by (apply Z.mod_small; lia).
  assert (Hw : word_insn (Insn_new (off / 4 * 4) 0 0)).
  { split; [|done]. unfold word_test, test_ok, Insn_new. cbn [i_test i_mask i_value i_offset i_short]. rewrite Hu, Z.land_0_l. lia || (split_and!; (lia || done)). }
  exists (Insn_new (off / 4 * 4) 0 0), (c ++ [Insn_new (off / 4 * 4) 0 0]). cbn [add_insn fst snd p_insn p_align_offset].
  split; [by rewrite Hp, app_assoc|]. split; [done|]. split; [done|]. split; [rewrite length_app; cbn; lia|].
  split; [apply list.Forall_app; split; [done|by apply list.Forall_singleton]|]. split; [apply last_snoc|]. split; [done|]. split; [done|]. split.
  - intros n _. cbn. apply Z.bits_0.
  - intros al pk. unfold all_pass. rewrite forallb_app. cbn. by rewrite andb_true_r.
Qed.
Lemma add_values_run value mask off restv restm L ms p l0 c first :
  p_insn p = l0 ++ c -> Forall word_insn c -> (first = true \/ ready off c /\ c <> []) ->
  mask_length (length value) mask -> 0 <= off -> off + Z.of_nat (length value) <= B ->
  exists p' c', add_values (2 * Z.of_nat (length value)) (pairs_chars value ++ restv) (mask_chars mask restm) off first (p, L :: ms) =
      Ok ((p', L :: ms ++ replicate (length c' - length c) L), first && bool_decide (value = [])) /\
    p_insn p' = l0 ++ c' /\ p_align_offset p' = p_align_offset p /\ Forall word_insn c' /\ (length c <= length c')%nat /\
    (value <> [] -> c' <> []) /\
    forall al pk, packet_ok pk -> all_pass al pk c' = all_pass al pk c && bytes_ok pk (off - al) (bytes_of value mask).
Proof.
  revert mask off ms p c first. induction value as [|[c1 c2] value IH]; intros mask off ms p c first Hp Hc Hfirst Hmask Hoff Hlen.
  { exists p, c. rewrite bool_decide_true, andb_true_r, Nat.sub_diag, app_nil_r by done. split; [by destruct restv|].
    split_and!; try done. intros al pk _. destruct mask; cbn; by rewrite andb_true_r. }
  cbn [length] in *. pose proof (hex_byte_range c1 c2) as [Hv Hm].
  destruct (hex_byte c1 c2) as [v m] eqn:Ehex. cbn [fst snd] in *.
  destruct (mask_byte_run v m mask restm (length value) Hm Hmask) as (m' & mask' & Emask & Hmask' & Hm' & Hbytes).
  specialize (Hbytes (c1, c2) value Ehex eq_refl).
  cbn [add_values pairs_chars map pair_chars concat app fst snd]. fold (pairs_chars value).
  rewrite (proj2 (Z.leb_gt _ 0)) by lia. rewrite Ehex, Emask. cbn [mbind res_bind].
  rewrite bool_decide_false, andb_false_r by done.
  assert (Hstep : exists p1 c1 e, (if first || (off mod 4 =? 0) then add_insn (off / 4 * 4) 0 0 (p, L :: ms) else (p, L :: ms)) =
      (p1, L :: ms ++ replicate (length c1 - length c) L) /\ p_insn p1 = l0 ++ c1 /\ p_align_offset p1 = p_align_offset p /\
      (length c <= length c1)%nat /\ Forall word_insn c1 /\ list.last c1 = Some e /\ word_insn e /\
      i_offset (i_test e) = off / 4 * 4 /\ bytes_before (off mod 4) (i_test e) /\
      forall al pk, all_pass al pk c1 = all_pass al pk c).
  { destruct (first || (off mod 4 =? 0)) eqn:Enew.
    - destruct (add_insn_word off p L ms l0 c) as (e & c' & E1 & E2 & E3 & E4 & H); [lia|done..|].
      destruct (add_insn (off / 4 * 4) 0 0 (p, L :: ms)) as [p1 tree]. cbn [fst snd] in *. subst tree.
      exists p1, c', e. rewrite E4. replace (S (length c) - length c)%nat with 1%nat by lia. cbn [replicate].
      destruct H as (H1 & H2 & H3 & H4 & H5 & H6). split_and!; try done; lia.
    - apply orb_false_iff in Enew as [-> Hne%Z.eqb_neq]. destruct Hfirst as [|[Hr Hnil]]; [done|].
      destruct (list.last c) as [e|] eqn:E; [|by apply last_None in E]. destruct (Hr Hne e E) as [H1 H2].
      exists p, c, e. rewrite Nat.sub_diag, app_nil_r. split_and!; try done.
      rewrite list.Forall_forall in Hc. apply Hc. by eapply last_Some_elem_of. }
  destruct Hstep as (p1 & c1' & e & -> & Hp1 & Hal1 & Hl1 & Hw1 & Hlast & He & Ho & Hb & Hpass1). cbn [fst snd].
  destruct (add_byte v m' off l0 c1' e) as (c2' & Ealter & Hl2 & Hw2 & Hr2 & Hpass2); try done.
  unfold check_int. rewrite (proj2 (Z.leb_le (off + 1) _)) by lia. cbn [mbind res_bind].
  replace (2 * Z.of_nat (S (length value)) - 2) with (2 * Z.of_nat (length value)) by lia.
  assert (Hne : (0 < length c1')%nat) by (destruct c1'; [done|cbn; lia]).
  edestruct (IH mask' (off + 1) (ms ++ replicate (length c1' - length c) L) (set_back (off mod 4) (Z.land v m') m' p1) c2' false)
    as (p' & c' & E & Hp' & Hal' & Hw' & Hl' & _ & Hpass'); [| |right; split; [done|]|done|lia|lia|].
  { unfold set_back. cbn [set_insn p_insn]. by rewrite Hp1. }
  { done. }
  { intros ->. cbn in Hl2. lia. }
  exists p', c'. cbn [andb app] in E. rewrite E. split.
  { do 2 f_equal. f_equal. rewrite <- app_assoc, <- replicate_add. do 3 f_equal. lia. }
  split_and!; try done; [by rewrite Hal'|lia|intros _ ->; cbn in Hl'; lia|].
  intros al pk Hpk. rewrite Hpass', Hpass2, Hpass1, Hbytes by done. cbn [bytes_ok].
  replace (off + 1 - al) with (off - al + 1) by lia. by rewrite andb_assoc.
Qed.

(** *** Reading the text of a clause *)
Lemma read_offset_digits fuel n l : 0 <= n < 2147483648 -> n < 10 ^ Z.of_nat fuel -> (0 < fuel)%nat ->
  read_offset (decimal_digits fuel n l) 0 = read_offset l n.
Proof.
  revert n l. induction fuel as [|fuel IH]; intros n l Hn Hf H0; [lia|]. cbn [decimal_digits].
  pose proof (Z.div_mod n 10 ltac:(lia)) as Hdm. pose proof (Z.mod_pos_bound n 10 ltac:(lia)) as Hm.
  assert (Hlast : forall k, 0 <= k -> k * 10 + n mod 10 < 2147483648 -> read_offset ((48 + n mod 10) :: l) k = read_offset l (k * 10 + n mod 10)).
  { intros k Hk Hb. cbn [read_offset]. unfold isdigit. rewrite (proj2 (Z.leb_le 48 _)), (proj2 (Z.leb_le _ 57)) by lia. cbn [andb].
    unfold check_int. replace (48 + n mod 10 - 48) with (n mod 10) by lia. by rewrite (proj2 (Z.leb_le _ 2147483647)) by lia. }
  destruct (Z.ltb_spec n 10) as [Hlt|Hge].
  - rewrite Hlast by lia. f_equal. lia.
  - rewrite Nat2Z.inj_succ, Z.pow_succ_r in Hf by lia. destruct fuel as [|fuel]; [cbn in Hf; lia|].
    rewrite IH by lia. rewrite Hlast by lia. f_equal. lia.
Qed.
Lemma decimal_digits_head fuel n l : 0 <= n -> exists c l', decimal_digits (S fuel) n l = c :: l' /\ isdigit c = true.
Proof.
  revert n l. induction fuel as [|fuel IH]; intros n l Hn; cbn [decimal_digits]; pose proof (Z.mod_pos_bound n 10 ltac:(lia)) as Hm;
    assert (Hd : isdigit (48 + n mod 10) = true) by (unfold isdigit; apply andb_true_iff; rewrite !Z.leb_le; lia).
  - destruct (n <? 10); by eexists _, _.
  - destruct (n <? 10); [by eexists _, _|]. apply IH. apply Z.div_pos; lia.
Qed.
Lemma read_offset_decimal n rest : 0 <= n < 65536 -> read_offset (decimal n ++ 47 :: rest) 0 = Ok (n, 47 :: rest).
Proof.
  intros Hn. assert (Happ : forall fuel n l, decimal_digits fuel n l ++ 47 :: rest = decimal_digits fuel n (l ++ 47 :: rest)).
  { induction fuel as [|fuel IH]; intros m l; [done|]. cbn [decimal_digits]. destruct (m <? 10); [done|apply (IH _ (_ :: l))]. }
  unfold decimal. rewrite Happ, read_offset_digits by lia. done.
Qed.
Definition clause_end (rest : chars) : Prop := match rest with c :: _ => c = 32 | [] => True end.
Lemma count_pairs l rest : Forall chars_ok l -> match rest with c :: _ => is_value_char c = false | [] => True end ->
  count_while is_value_char (pairs_chars l ++ rest) = (2 * length l)%nat /\ drop (2 * length l) (pairs_chars l ++ rest) = rest.
Proof.
  intros Hl Hr. induction Hl as [|[c1 c2] l [H1 H2] _ [IH1 IH2]].
  - cbn. destruct rest as [|c rest]; [done|]. cbn. by rewrite Hr.
  - cbn [fst snd] in *. replace (2 * length ((c1, c2) :: l))%nat with (S (S (2 * length l))) by (cbn; lia).
    cbn [pairs_chars map pair_chars concat app fst snd count_while drop]. fold (pairs_chars l). by rewrite H1, H2, IH1.
Qed.
Lemma check_lengths_even n mlen : (0 < n)%nat -> match mlen with Some m => m = Z.of_nat (2 * n) | None => True end ->
  check_lengths (Z.of_nat (2 * n)) mlen = (2 * Z.of_nat n, 0%nat).
Proof.
  intros Hn Hm. unfold check_lengths. rewrite (proj2 (Z.ltb_ge _ 2)) by lia.
  replace (Z.of_nat (2 * n)) with (Z.of_nat n * 2) in * by lia. rewrite Z.mod_mul by lia. cbn [Z.eqb].
  destruct mlen as [m|]; [subst m; rewrite Z.eqb_refl|]; f_equal; lia.
Qed.
Lemma isspace_not c : isdigit c = true -> isspace c = false /\ (c =? 33) = false.
Proof.
  unfold isdigit, isspace. rewrite andb_true_iff, !Z.leb_le. intros Hc.
  rewrite (proj2 (Z.leb_gt c 13)), (proj2 (Z.eqb_neq c 32)), (proj2 (Z.eqb_neq c 33)), andb_false_r by lia. done.
Qed.

(** What [parse_clause] reads of the text of a clause. *)
Definition clause_tail (c : clause) (rest : chars) : chars :=
  match cl_mask c with Some mask => 37 :: pairs_chars mask | None => [] end ++ rest.
Definition clause_term (c : clause) (rest : chars) : chars :=
  decimal (cl_offset c) ++ 47 :: pairs_chars (cl_value c) ++ clause_tail c rest.
Lemma unparse_clause_app c rest : unparse_clause c ++ rest = (if cl_negated c then [33] else []) ++ clause_term c rest.
Proof.
  unfold unparse_clause, clause_term, clause_tail, pairs_chars. rewrite <- !app_assoc. cbn [app].
  rewrite <- !app_assoc. by destruct (cl_mask c).
Qed.
Lemma clause_term_head c rest : 0 <= cl_offset c -> exists d l, clause_term c rest = d :: l /\ isdigit d = true.
Proof.
  intros Ho. destruct (decimal_digits_head 9 (cl_offset c) [] Ho) as (d & ds & E & Hd). unfold clause_term, decimal.
  rewrite E. by eexists _, _.
Qed.
Lemma not_value_char rest : clause_end rest -> match rest with c :: _ => is_value_char c = false | [] => True end.
Proof. destruct rest as [|c rest]; [done|]. by intros ->. Qed.
Lemma parse_term_text negated c rest st : clause_ok c -> clause_end rest -> 0 <= p_align_offset (fst (ss_build st)) < 4 ->
  parse_term negated (clause_term c rest) st =
  ('(b, first) ← add_values (2 * Z.of_nat (length (cl_value c))) (pairs_chars (cl_value c) ++ clause_tail c rest)
                   (mask_chars (cl_mask c) rest) (cl_offset c + p_align_offset (fst (ss_build st))) true (start (ss_build st));
   let b := finish_subtree c_and j_success j_failure b in
   let b := if negated then negate_subtree false b else b in
   Ok (Some rest, MkSlot b (ss_empty st && first) (ss_errors st))).
Proof.
  intros (Ho & Hlen & Hne & Hv & Hm) Hr Hal. unfold parse_term.
  destruct (clause_term_head c rest Ho) as (d & l & E & Hd). rewrite E, Hd. cbn [negb]. rewrite <- E. clear E.
  unfold clause_term. rewrite read_offset_decimal by lia. cbn [mbind res_bind].
  assert (Hn : (0 < length (cl_value c))%nat) by (destruct (cl_value c); [done|cbn; lia]).
  destruct (count_pairs (cl_value c) (clause_tail c rest) Hv) as [Ec Ed].
  { unfold clause_tail. destruct (cl_mask c); [done|]. by apply not_value_char. }
  rewrite Ec, Ed. clear Ec Ed. unfold clause_tail. unfold check_int. rewrite (proj2 (Z.leb_le _ 2147483647)) by lia.
  destruct (cl_mask c) as [mask|]; cbn [app fmap option_fmap option_map default id].
  - destruct Hm as [Hml Hm]. destruct (count_pairs mask rest Hm (not_value_char rest Hr)) as [-> ->]. cbn [id].
    rewrite check_lengths_even by lia. cbn [mbind res_bind]. by rewrite Nat.add_0_r.
  - assert (match rest with 37 :: mask => Some mask | _ => None end = None) as ->.
    { destruct rest as [|r rest]; [done|]. cbn in Hr. by subst r. }
    cbn [fmap option_fmap option_map default id]. rewrite check_lengths_even by done. cbn [mbind res_bind]. by rewrite Nat.add_0_r.
Qed.
Lemma parse_clause_text c rest st : clause_ok c -> parse_clause (unparse_clause c ++ rest) st = parse_term (cl_negated c) (clause_term c rest) st.
Proof.
  intros (Ho & _). rewrite unparse_clause_app. destruct (clause_term_head c rest Ho) as (d & l & E & Hd). rewrite E.
  destruct (isspace_not d Hd) as [Hsp Hbang]. unfold parse_clause.
  destruct (cl_negated c); cbn [app skip_while].
  - change (isspace 33) with false. cbn iota. change (33 =? 33) with true. cbn iota. cbn [skip_while]. by rewrite Hsp.
  - rewrite Hsp. cbn iota. by rewrite Hbang.
Qed.

(** *** The blocks of clauses, patterns and programs *)
(** A block of the program at [q] that leaves with the jump [f p] for the packet [p]. *)
Definition decides (al : Z) (q : nat) (blk : list Insn) (f : packet_mem -> Z) : Prop :=
  blk <> [] /\ block q blk /\ Forall (fun e => word_test (i_test e)) blk /\
  forall p, packet_ok p -> exits (packet_test al p) q blk 0 (f p).
Definition verdict (b : bool) : Z := if b then j_success else j_failure.
Fixpoint all_decide (al : Z) (q : nat) (blks : list (list Insn)) (fs : list (packet_mem -> Z)) : Prop :=
  match blks, fs with
  | [], [] => True
  | b :: blks, f :: fs => decides al q b f /\ all_decide al (q + length b) blks fs
  | _, _ => False
  end.
Lemma all_decide_snoc al q blks fs b f : all_decide al q blks fs -> decides al (q + length (concat blks)) b f ->
  all_decide al q (blks ++ [b]) (fs ++ [f]).
Proof.
  revert q fs. induction blks as [|b0 blks IH]; intros q [|f0 fs] H Hb; try done; cbn in *.
  - by rewrite Nat.add_0_r in Hb.
  - destruct H as [H0 H]. split; [done|]. apply IH; [done|]. by rewrite length_app, Nat.add_assoc in Hb.
Qed.
Lemma link_decides c al s f q blks fs : s <= 0 -> f <= 0 -> blks <> [] -> all_decide al q blks fs ->
  decides al q (link c q s f blks) (fun p => link_exit c s f (map (fun g => g p) fs)).
Proof.
  intros Hs Hf Hne H.
  assert (Hall : Forall (fun b => b <> []) blks /\ blocks block q blks /\
    Forall (fun e => word_test (i_test e)) (link c q s f blks) /\
    forall p, packet_ok p -> all_exit (packet_test al p) q blks (map (fun g => g p) fs)).
  { clear Hne. revert q fs H. induction blks as [|b blks IH]; intros q [|g fs] H; try done.
    destruct H as [(Hb1 & Hb2 & Hb3 & Hb4) H]. destruct (IH _ _ H) as (I1 & I2 & I3 & I4). cbn [blocks link map all_exit].
    split_and!; [by constructor|done|done| |].
    - apply list.Forall_app. split; [|done]. unfold link_block. apply list.Forall_forall. intros e He.
      apply list_elem_of_fmap in He as (e0 & -> & He). cbn [redirect_insn i_test]. rewrite list.Forall_forall in Hb3. by apply Hb3.
    - intros p Hp. split; [by apply Hb4|by apply I4]. }
  destruct Hall as (H1 & H2 & H3 & H4). split_and!; [|by apply link_is_block|done|].
  - intros E. apply (f_equal length) in E. rewrite link_length in E. destruct blks as [|b blks]; [done|].
    apply list.Forall_cons in H1 as [H1 _]. by destruct b.
  - intros p Hp. pose proof (link_exits (packet_test al p) c s f q [] blks (map (fun g => g p) fs) Hs Hf Hne) as Hx. cbn [length app] in Hx.
    rewrite Nat.add_0_r in Hx. by apply Hx, H4.
Qed.

Lemma start_level p L ms : start (p, L :: ms) = (p, (L + 1) :: ms).
Proof. done. Qed.
Lemma single_marks L (c : list Insn) : marks L (map (fun e => [e]) c) = replicate (length c) L.
Proof. induction c as [|e c IH]; [done|]. cbn. f_equal. exact IH. Qed.
Lemma single_concat (c : list Insn) : concat (map (fun e => [e]) c) = c.
Proof. induction c as [|e c IH]; [done|]. cbn. by f_equal. Qed.
Lemma words_decide al q c : Forall word_insn c ->
  all_decide al q (map (fun e => [e]) c) (map (fun e p => verdict (packet_test al p (i_test e))) c).
Proof.
  intros H. revert q. induction H as [|e c He _ IH]; intros q; [done|]. cbn [map all_decide]. split; [|apply IH].
  destruct He as (Hw & Hno & Hyes). split; [done|]. split_and!.
  - intros [|[]] e' k E; try done. injection E as <-. left. destruct k; cbn [in_j]; rewrite ?Hno, ?Hyes; done.
  - by apply list.Forall_singleton.
  - intros p _. apply (exits_out _ _ _ _ e); [done| |by destruct (packet_test al p (i_test e))].
    destruct (packet_test al p (i_test e)); cbn [in_j verdict]; done.
Qed.
Lemma link_verdicts (vs : list bool) : vs <> [] -> link_exit true j_success j_failure (map verdict vs) = verdict (forallb id vs).
Proof.
  induction vs as [|v vs IH]; intros Hne; [done|]. destruct vs as [|v' vs]; [by destruct v|].
  specialize (IH ltac:(done)). cbn [map link_exit] in *. rewrite IH. by destruct v.
Qed.
Lemma decides_ext al q b f g : (forall p, packet_ok p -> f p = g p) -> decides al q b f -> decides al q b g.
Proof. intros E (H1 & H2 & H3 & H4). split_and!; try done. intros p Hp. rewrite <- E by done. by apply H4. Qed.
Lemma negate_decides al q b f : decides al q b f -> decides al q (map (negate_insn false) b) (fun p => negate_jump (f p)).
Proof.
  intros (H1 & H2 & H3 & H4). split_and!; [by destruct b|by apply negate_block| |].
  - apply list.Forall_forall. intros e He. apply list_elem_of_fmap in He as (e0 & -> & He). rewrite negate_test.
    rewrite list.Forall_forall in H3. by apply H3.
  - intros p Hp. by apply negate_exits, H4.
Qed.

(** The words of a clause are below the bound. *)
Definition clause_good (al : Z) (c : clause) : Prop :=
  clause_ok c /\ cl_offset c + al + Z.of_nat (length (cl_value c)) <= B.
Lemma parse_clause_run c rest p L ms e n : clause_good (p_align_offset p) c -> clause_end rest -> 0 <= p_align_offset p < 4 ->
  length ms = length (p_insn p) -> 0 <= L -> (forall m, m ∈ ms -> m < L + 1) ->
  exists p' blk, parse_clause (unparse_clause c ++ rest) (MkSlot (p, L :: ms) e n) =
      Ok (Some rest, MkSlot (p', L :: ms ++ block_marks L blk) false n) /\
    p_insn p' = p_insn p ++ blk /\ p_align_offset p' = p_align_offset p /\
    decides (p_align_offset p) (length (p_insn p)) blk (fun pk => verdict (clause_matches pk c)).
Proof.
  intros [Hc Hfit] Hr Hal Hlen HL Hms. rewrite parse_clause_text, parse_term_text by done. cbn [ss_build fst]. rewrite start_level.
  destruct Hc as (Ho & Hoff & Hne & Hv & Hm).
  destruct (add_values_run (cl_value c) (cl_mask c) (cl_offset c + p_align_offset p) (clause_tail c rest) rest (L + 1) ms p (p_insn p) [] true)
    as (p1 & ws & -> & Hp1 & Hal1 & Hw & _ & Hws & Hpass);
    [by rewrite app_nil_r|done|by left|by destruct (cl_mask c); [apply Hm|]|lia|lia|].
  specialize (Hws Hne). cbn [mbind res_bind length andb ss_empty ss_errors].
  rewrite bool_decide_false, andb_false_r, Nat.sub_0_r by done.
  set (blks := map (fun e => [e]) ws). assert (Hblks : blks <> []) by (by destruct ws).
  rewrite <- single_marks. fold blks.
  pose proof (finish_blocks true j_success j_failure (L + 1) ms p1 (p_insn p) blks) as Efin. cbn [link_combiner] in Efin.
  rewrite Efin;
    [|unfold blks; by rewrite single_concat|done|lia|done|done|by apply list.Forall_fmap, list.Forall_true].
  replace (L + 1 - 1) with L by lia. set (b := link true (length (p_insn p)) j_success j_failure blks).
  assert (Hb : decides (p_align_offset p) (length (p_insn p)) b (fun pk => verdict (bytes_ok pk (cl_offset c) (clause_bytes c)))).
  { eapply decides_ext; [|apply link_decides; [done|done|exact Hblks|by apply words_decide]].
    intros pk Hpk. cbv beta. rewrite map_map. rewrite <- (map_map (fun e => packet_test (p_align_offset p) pk (i_test e)) verdict).
    rewrite link_verdicts by (by destruct ws). f_equal.
    specialize (Hpass (p_align_offset p) pk Hpk). replace (cl_offset c + p_align_offset p - p_align_offset p) with (cl_offset c) in Hpass by lia.
    cbn [all_pass forallb andb] in Hpass. unfold clause_bytes. fold (bytes_of (cl_value c) (cl_mask c)). rewrite <- Hpass.
    unfold all_pass. clear. induction ws as [|w ws IH]; [done|]. cbn [map forallb]. by rewrite IH. }
  unfold clause_matches. destruct (cl_negated c) eqn:En; cbn [xorb].
  - rewrite (negate_last L ms _ (p_insn p) b) by (done || apply Hb).
    eexists _, _. split; [reflexivity|]. split; [done|]. split; [done|].
    eapply decides_ext; [|apply negate_decides, Hb]. intros pk _. cbv beta. destruct (bytes_ok pk _ _); reflexivity.
  - eexists _, _. split; [reflexivity|]. split; [done|]. split; [done|]. eapply decides_ext; [|exact Hb]. done.
Qed.

Lemma concat_snoc {A} (bs : list (list A)) b : concat (bs ++ [b]) = concat bs ++ b.
Proof. rewrite concat_app. cbn. by rewrite app_nil_r. Qed.
Lemma marks_snoc L blks b : marks L (blks ++ [b]) = marks L blks ++ block_marks L b.
Proof. unfold marks. rewrite map_app. apply concat_snoc. Qed.
Lemma marks_below L blks ms m : 0 <= L -> (forall m, m ∈ ms -> m < L) -> m ∈ ms ++ marks L blks -> m < L + 1.
Proof.
  intros HL Hms [H|H]%elem_of_app; [specialize (Hms m H); lia|]. unfold marks in H.
  induction blks as [|b blks IH]; [by apply elem_of_nil in H|]. cbn in H.
  apply list.elem_of_cons in H as [-> |[H|H]%elem_of_app]; [lia| |by apply IH]. apply elem_of_replicate in H as [-> _]. lia.
Qed.
Lemma parse_clause_nil st : parse_clause [] st = Ok (None, st).
Proof. done. Qed.
Lemma parse_clause_space s st : parse_clause (32 :: s) st = parse_clause s st.
Proof. done. Qed.
(** The state of the build between the clauses of a pattern. *)
Definition level_blocks (al : Z) (L : Z) (l0 : list Insn) (ms : list Z) (blks : list (list Insn)) (b : build) : Prop :=
  exists p, b = (p, L :: ms ++ marks L blks) /\ p_insn p = l0 ++ concat blks /\ p_align_offset p = al.
Lemma all_decide_nonempty al q blks fs : all_decide al q blks fs -> Forall (fun b => b <> []) blks.
Proof.
  revert q fs. induction blks as [|b blks IH]; intros q [|f fs] H; try done. destruct H as [(Hb & _) H].
  constructor; [done|]. by eapply IH.
Qed.
Definition clause_verdicts (cs : list clause) : list (packet_mem -> Z) := map (fun c pk => verdict (clause_matches pk c)) cs.
Lemma parse_clauses_run al L l0 ms cs done_ blks b e n fuel sp :
  Forall (clause_good al) cs -> 0 <= al < 4 -> 0 <= L -> length ms = length l0 -> (forall m, m ∈ ms -> m < L) ->
  level_blocks al L l0 ms blks b -> all_decide al (length l0) blks (clause_verdicts done_) -> (length cs < fuel)%nat -> sp = [] \/ sp = [32] ->
  exists b' blks', parse_clauses fuel (match cs with [] => [] | _ => sp ++ join 32 (map unparse_clause cs) end) (MkSlot b e n) =
      Ok (MkSlot b' (e && bool_decide (cs = [])) n) /\
    level_blocks al L l0 ms blks' b' /\ all_decide al (length l0) blks' (clause_verdicts (done_ ++ cs)).
Proof.
  intros Hcs Hal HL Hlen Hms. revert done_ blks b e fuel sp. induction Hcs as [|c cs Hc Hcs IH]; intros done_ blks b e fuel sp Hb Hall Hfuel Hsp.
  { exists b, blks. destruct fuel as [|fuel]; [cbn in Hfuel; lia|]. rewrite bool_decide_true, andb_true_r, app_nil_r by done. by split. }
  destruct fuel as [|fuel]; [cbn in Hfuel; lia|]. cbn [length] in Hfuel. destruct Hb as (p & -> & Hp & Ha).
  pose proof (all_decide_nonempty _ _ _ _ Hall) as Hne.
  set (rest := match cs with [] => [] | _ => [32] ++ join 32 (map unparse_clause cs) end).
  assert (Etext : join 32 (map unparse_clause (c :: cs)) = unparse_clause c ++ rest).
  { unfold rest. destruct cs; cbn [map join app]; [by rewrite app_nil_r|done]. }
  cbn [parse_clauses]. rewrite Etext.
  assert (Esp : forall st, parse_clause (sp ++ unparse_clause c ++ rest) st = parse_clause (unparse_clause c ++ rest) st)
    by (intros st; by destruct Hsp as [-> | ->]).
  rewrite Esp. clear Esp.
  destruct (parse_clause_run c rest p L (ms ++ marks L blks) e n) as (p' & blk & -> & Hp' & Ha' & Hd);
    [by rewrite Ha|by unfold rest; destruct cs|by rewrite Ha|by rewrite Hp, !length_app, Hlen, marks_length|done|intros m; by apply marks_below|].
  cbn [mbind res_bind]. rewrite bool_decide_false, andb_false_r by done.
  destruct (IH (done_ ++ [c]) (blks ++ [blk]) (p', L :: (ms ++ marks L blks) ++ block_marks L blk) false fuel [32]) as (b' & blks' & E & Hb' & Hall').
  - exists p'. rewrite marks_snoc, concat_snoc, Hp', Hp, Ha', Ha, !app_assoc. done.
  - unfold clause_verdicts. rewrite map_app. apply all_decide_snoc; [done|]. by rewrite Hp, length_app, Ha in Hd.
  - lia.
  - by right.
  - exists b', blks'. rewrite <- app_assoc in Hall'. split; [|by split]. unfold rest. rewrite andb_false_l in E. exact E.
Qed.

Lemma join_length (cs : list clause) : (length cs <= length (join 32 (map unparse_clause cs)))%nat.
Proof.
  induction cs as [|c cs IH]; [done|]. cbn [map].
  assert (Hc : (0 < length (unparse_clause c))%nat) by (unfold unparse_clause; rewrite !length_app; cbn [length]; lia).
  destruct cs as [|c' cs]; [cbn; lia|]. cbn [map join] in *. rewrite length_app. cbn [length] in *. lia.
Qed.
Lemma fake_decides al q : decides al q [Insn_new 0 0 0] (fun _ => j_success).
Proof.
  split; [done|]. split_and!.
  - intros [|[]] e k E; try done. injection E as <-. left. by destruct k.
  - apply list.Forall_singleton. split; [done|]. split; [done|]. change (0 <= 0 < B). lia.
  - intros p _. by apply (exits_out _ _ _ _ (Insn_new 0 0 0)).
Qed.
Lemma link_pattern s vs : link_exit true s j_failure (map verdict vs) = match vs with [] => 0 | _ => if forallb id vs then s else j_failure end.
Proof.
  destruct vs as [|v vs]; [done|]. revert v. induction vs as [|v' vs IH]; intros v; [by destruct v|].
  specialize (IH v'). cbn [map link_exit forallb] in *. rewrite IH. by destruct v.
Qed.
Lemma forallb_id_map {A} (f : A -> bool) l : forallb id (map f l) = forallb f l.
Proof. induction l as [|x l IH]; [done|]. cbn [map forallb]. by rewrite IH. Qed.
(** What a slot does with a packet. *)
Definition slot_result (slot : nat) (l : list clause) (p : packet_mem) : Z :=
  if pattern_matches p l then - Z.of_nat slot else j_failure.
Lemma parse_slot_run al slot l l0 blks b n : Forall (clause_good al) l -> 0 <= al < 4 ->
  level_blocks al 1 l0 [] blks b -> l0 = [] -> Forall (fun b => b <> []) blks ->
  exists b' blk, parse_slot slot (unparse_pattern l) b n = Ok (b', n) /\ level_blocks al 1 l0 [] (blks ++ [blk]) b' /\
    decides al (length (concat blks)) blk (slot_result slot l).
Proof.
  intros Hl Hal (p & -> & Hp & Ha) -> Hne. cbn [app] in *. unfold parse_slot. rewrite start_level. change (1 + 1) with 2.
  assert (Hms : forall m, m ∈ marks 1 blks -> m < 2) by (intros m Hm; apply (marks_below 1 blks []); [lia|by intros ? ?%elem_of_nil|done]).
  assert (Hfinish : forall p blks2 fs, blks2 <> [] -> p_insn p = concat blks ++ concat blks2 -> p_align_offset p = al ->
    all_decide al (length (concat blks)) blks2 fs ->
    exists b' blk, finish_subtree c_and (- Z.of_nat slot) j_failure (p, 2 :: marks 1 blks ++ marks 2 blks2) = b' /\
      level_blocks al 1 [] [] (blks ++ [blk]) b' /\
      decides al (length (concat blks)) blk (fun pk => link_exit true (- Z.of_nat slot) j_failure (map (fun g => g pk) fs))).
  { intros p2 blks2 fs Hne2 Hp2 Ha2 Hall. pose proof (all_decide_nonempty _ _ _ _ Hall) as Hne2'.
    pose proof (finish_blocks true (- Z.of_nat slot) j_failure 2 (marks 1 blks) p2 (concat blks) blks2) as Efin. cbn [link_combiner] in Efin.
    rewrite Efin by (done || by rewrite marks_length). eexists _, _. split; [reflexivity|]. split; [|apply link_decides; (done || lia)].
    eexists. rewrite marks_snoc, concat_snoc. cbn [app]. split; [reflexivity|]. by split. }
  destruct l as [|c l].
  - cbn [unparse_pattern]. rewrite decide_True by done. cbn [mbind res_bind ss_empty ss_build ss_errors add_insn].
    destruct (Hfinish (MkProgram (p_insn p ++ [Insn_new 0 0 0]) (-1) (p_safe_length p) (p_align_offset p)) [[Insn_new 0 0 0]] [fun _ => j_success])
      as (b' & blk & E & Hb' & Hd); [done|by rewrite <- Hp|done|split; [apply fake_decides|done]|].
    exists b', blk. cbn [marks map concat block_marks length Nat.sub replicate app] in E. rewrite app_comm_cons in E. rewrite <- E at 1.
    split; [done|]. split; [done|]. eapply decides_ext; [|exact Hd]. intros pk _. done.
  - assert (Hx : unparse_pattern (c :: l) <> [45]).
    { cbn [unparse_pattern]. intros E. apply list.Forall_cons in Hl as [Hc _]. destruct (clause_term_head c [] (proj1 (proj1 Hc))) as (d & t & Ed & Hd).
      pose proof (unparse_clause_app c []) as Eu. rewrite app_nil_r, Ed in Eu.
      assert (Eh : exists t', unparse_clause c ++ t' = [45]) by (destruct l; cbn [map join] in E; [exists []; by rewrite app_nil_r|by eexists]).
      destruct Eh as [t' Eh]. rewrite Eu in Eh. destruct (cl_negated c); cbn in Eh; [done|]. injection Eh as -> _. done. }
    rewrite decide_False by done.
    destruct (parse_clauses_run al 2 (concat blks) (marks 1 blks) (c :: l) [] [] (p, 2 :: marks 1 blks) true n
       (S (length (unparse_pattern (c :: l)))) []) as (b' & blks2 & E & (p2 & -> & Hp2 & Ha2) & Hall); try done.
    { by rewrite marks_length. }
    { exists p. cbn [marks map concat]. by rewrite !app_nil_r. }
    { cbn [unparse_pattern]. pose proof (join_length (c :: l)). lia. }
    { by left. }
    cbn [app] in E. cbn [unparse_pattern] in *. rewrite E. cbn [mbind res_bind ss_empty ss_build ss_errors].
    rewrite bool_decide_false by done. cbn [andb app] in *.
    destruct (Hfinish p2 blks2 (clause_verdicts (c :: l))) as (b' & blk & E' & Hb' & Hd); [by destruct blks2|done..|].
    exists b', blk. rewrite E'. split; [done|]. split; [done|]. eapply decides_ext; [|exact Hd]. intros pk _. cbv beta.
    unfold clause_verdicts. rewrite map_map. rewrite <- (map_map (clause_matches pk) verdict), link_pattern.
    unfold slot_result, pattern_matches. by rewrite <- (forallb_id_map (clause_matches pk) (c :: l)).
Qed.

Lemma parse_slots_run al slot conf l0 blks b n fs : Forall (Forall (clause_good al)) conf -> 0 <= al < 4 ->
  level_blocks al 1 l0 [] blks b -> l0 = [] -> all_decide al 0 blks fs ->
  exists b' blks', parse_slots slot (map unparse_pattern conf) b n = Ok (b', n) /\ level_blocks al 1 l0 [] blks' b' /\
    all_decide al 0 blks' (fs ++ imap (fun i l => slot_result (slot + i) l) conf).
Proof.
  intros Hconf Hal Hb ->. revert slot blks b fs Hb. induction Hconf as [|l conf Hl Hconf IH]; intros slot blks b fs Hb Hall.
  { exists b, blks. by rewrite app_nil_r. }
  destruct (parse_slot_run al slot l [] blks b n Hl Hal Hb eq_refl (all_decide_nonempty _ _ _ _ Hall)) as (b1 & blk & E & Hb1 & Hd).
  cbn [map parse_slots]. rewrite E. cbn [mbind res_bind].
  destruct (IH (S slot) (blks ++ [blk]) b1 (fs ++ [slot_result slot l]) Hb1) as (b' & blks' & E' & Hb' & Hall').
  { apply all_decide_snoc; [done|]. by rewrite Nat.add_0_l. }
  exists b', blks'. split; [done|]. split; [done|]. rewrite <- app_assoc in Hall'. cbn [imap app] in *.
  rewrite Nat.add_0_r. erewrite imap_ext; [exact Hall'|]. intros i x _. cbn. f_equal. lia.
Qed.
(** The jump the program of a configuration ends with. *)
Definition output_jump (o : option nat) : Z := match o with Some i => - Z.of_nat i | None => j_never end.
Lemma link_slots pk slot conf : Z.of_nat (slot + length conf) < 2147483645 ->
  link_exit false j_never j_never (map (fun g => g pk) (imap (fun i l => slot_result (slot + i) l) conf)) =
  match conf with [] => 0 | _ => output_jump (first_match pk slot conf) end.
Proof.
  revert slot. induction conf as [|l conf IH]; intros slot Hs; [done|]. cbn [length] in Hs.
  specialize (IH (S slot) ltac:(lia)). cbn [imap map link_exit first_match]. rewrite Nat.add_0_r.
  assert (Hr : redirect j_never j_never (- Z.of_nat slot) = - Z.of_nat slot).
  { unfold redirect. rewrite (proj2 (Z.eqb_neq _ j_success)), (proj2 (Z.eqb_neq _ j_failure)); [done|..]; unfold j_failure, j_success, j_never; lia. }
  assert (Hf : (- Z.of_nat slot =? j_failure) = false) by (apply Z.eqb_neq; unfold j_failure, j_never; lia).
  assert (Eimap : imap ((fun i l => slot_result (slot + i) l) ∘ S) conf = imap (fun i l => slot_result (S slot + i) l) conf).
  { apply imap_ext. intros i x _. cbn. f_equal. lia. }
  rewrite Eimap. change (slot_result slot l pk) with (if pattern_matches pk l then - Z.of_nat slot else j_failure).
  destruct (pattern_matches pk l).
  - rewrite Hf, Hr. by destruct (map _ _).
  - rewrite Z.eqb_refl. destruct conf as [|l' conf]; [done|]. cbn [imap map] in *. exact IH.
Qed.

Lemma parse_patterns_run conf al :
  conf <> [] -> Z.of_nat (length conf) < 2147483645 -> Forall (Forall (clause_good al)) conf -> 0 <= al < 4 ->
  exists prog, parse_patterns (map unparse_pattern conf) (Program_new al) = Ok (prog, 0%nat) /\ p_align_offset prog = al /\
    forward (p_insn prog) /\ (forall e, e ∈ p_insn prog -> word_test (i_test e)) /\
    forall p, packet_ok p -> runs (packet_test al p) (p_insn prog) 0 (output_jump (first_match p 0 conf)).
Proof.
  intros Hne Hlen Hconf Hal. unfold parse_patterns.
  destruct (parse_slots_run al 0 conf [] [] (start (Program_new al, init_subtree (Program_new al))) 0 [] Hconf Hal)
    as (b' & blks & -> & (p & -> & Hp & Ha) & Hall); [by exists (Program_new al)|done|done|].
  cbn [mbind res_bind app] in *.
  assert (Hb : blks <> []) by (intros ->; by destruct conf).
  pose proof (finish_blocks false j_never j_never 1 [] p [] blks) as Efin. cbn [link_combiner app] in Efin.
  rewrite Efin; [|done|done|done|by intros ? ?%elem_of_nil|done|by eapply all_decide_nonempty]. clear Efin.
  destruct (link_decides false al j_never j_never 0 blks _ ltac:(done) ltac:(done) Hb Hall) as (_ & H2 & H3 & H4).
  eexists. split; [reflexivity|]. split; [done|]. cbn [fst p_insn set_insn length] in *. split; [by apply block_forward|]. split.
  - by apply list.Forall_forall.
  - intros pk Hpk. specialize (H4 pk Hpk). rewrite link_slots in H4 by done. destruct conf; [done|]. by apply exits_runs.
Qed.
End Bound.

(** ** The element does what its configuration says *)
(** No clause looks past the first [n] bytes. *)
Definition within_bytes (n : Z) (conf : list (list clause)) : Prop :=
  Forall (Forall (fun c => clause_ok c /\ cl_offset c + Z.of_nat (length (cl_value c)) <= n)) conf.
Lemma within_good n al conf : within_bytes n conf -> Forall (Forall (clause_good (n + al) al)) conf.
Proof.
  unfold within_bytes. intros H. eapply list.Forall_impl; [exact H|]. intros l Hl. eapply list.Forall_impl; [exact Hl|].
  intros c [Hc Hb]. split; [done|]. lia.
Qed.
(** C37: a configuration that looks at bytes below 65500, written out in the syntax of the
    documentation, is read without an error, and the program it builds (before [optimize]) sends a packet to the output of the
    first pattern whose clauses all hold byte by byte, and nowhere if there is none; bytes that
    a short packet does not have do not match. *)
Theorem Classifier_first_match n al conf :
  conf <> [] -> Z.of_nat (length conf) < 2147483645 -> 0 < n <= 65500 -> 0 <= al < 4 -> within_bytes n conf ->
  exists prog, parse_patterns (map unparse_pattern conf) (Program_new al) = Ok (prog, 0%nat) /\
    forall p, packet_ok p ->
      run_program (length (p_insn prog)) (packet_test al p) (p_insn prog) 0 =
      Some (match first_match p 0 conf with Some i => Z.of_nat i | None => - j_never end).
Proof.
  intros Hne Hlen Hn Hal Hconf. destruct (parse_patterns_run (n + al) ltac:(lia) conf al) as (prog & E & _ & Hf & _ & Hr);
    [done|done|by apply within_good|done|]. exists prog. split; [done|]. intros p Hp. specialize (Hr p Hp).
  rewrite (run_program_all _ _ _ Hf Hr). destruct (first_match p 0 conf); cbn [output_jump]; f_equal. lia.
Qed.

(** The program of a configuration has indices that are [int]s, and the dominator optimisation
    is exact for it. *)
Definition configuration_exact (al : Z) (conf : list chars) : bool :=
  match parse_patterns conf (Program_new al) with
  | Ok (prog, _) =>
      (Z.of_nat (length (p_insn prog)) <? 2147483648) && optimize_exact [] offset_max (p_insn prog)
  | Fault _ => false
  end.
Lemma first_match_bound p slot conf i : first_match p slot conf = Some i -> (slot <= i < slot + length conf)%nat.
Proof.
  revert slot. induction conf as [|l conf IH]; intros slot; [done|]. cbn [first_match length]. destruct (pattern_matches p l).
  - intros [= <-]. lia.
  - intros H%IH. lia.
Qed.
(** What [push] makes of the program's result. *)
Lemma output_of_jump p conf : Z.of_nat (length conf) < 2147483645 ->
  let m := - output_jump (first_match p 0 conf) in
  (if (0 <=? m) && (m <? Z.of_nat (length conf)) then Some (Z.to_nat m) else None) = first_match p 0 conf.
Proof.
  intros Hlen. destruct (first_match p 0 conf) as [i|] eqn:E; cbn [output_jump]; cbv zeta.
  - pose proof (first_match_bound p 0 conf i E). rewrite Z.opp_involutive, (proj2 (Z.leb_le 0 _)), (proj2 (Z.ltb_lt _ _)) by lia.
    cbn [andb]. by rewrite Nat2Z.id.
  - unfold j_never. by rewrite (proj2 (Z.ltb_ge _ _)), andb_false_r by lia.
Qed.
Lemma empty_program_align alignment : exists al, 0 <= al < 4 /\ empty_program alignment = Program_new al.
Proof.
  unfold empty_program. destruct alignment as [[c o]|]; [|by exists 0]. destruct (4 <=? c); [|by exists 0].
  eexists. split; [|reflexivity]. apply Z.mod_pos_bound. lia.
Qed.
(** C36: [Classifier], configured in the syntax of its documentation, accepts the configuration
    and sends every packet that reaches three bytes past the last byte any clause looks at to
    the output of the first pattern that matches, and drops it if none does, after all the
    optimisations and whatever the alignment, if the dominator optimisation is exact for the
    configuration ([Classifier_loses_pattern] has one for which it is not). *)
Theorem Classifier_correct n alignment conf :
  let al := p_align_offset (empty_program alignment) in
  conf <> [] -> Z.of_nat (length conf) < 2147483645 -> 0 < n <= 65500 -> within_bytes n conf ->
  configuration_exact al (map unparse_pattern conf) = true ->
  exists prog unused, Classifier_configure (length conf) alignment (map unparse_pattern conf) = Ok (Some (prog, unused)) /\
    forall p, packet_ok p -> n + 3 <= m_length p -> Classifier_push (length conf) prog p = Some (first_match p 0 conf).
Proof.
  destruct (empty_program_align alignment) as (al & Hal & Eal). cbv zeta. rewrite Eal. cbn [Program_new p_align_offset].
  intros Hne Hlen Hn Hconf Hex. unfold Classifier_configure. rewrite length_map, Nat.eqb_refl, Eal. cbn [negb].
  destruct (parse_patterns_run (n + al) ltac:(lia) conf al) as (prog & E & Ha & Hf & Ht & Hr); [done|done|by apply within_good|done|].
  unfold configuration_exact in Hex. rewrite E in Hex. apply andb_true_iff in Hex as [Hsize%Z.ltb_lt Hex]. unfold parse_program. rewrite E. cbn [mbind res_bind].
  assert (Hlong : forall p, n + 3 <= m_length p -> long_enough (p_align_offset prog) (p_insn prog) p).
  { intros p Hp e He. rewrite Ha. destruct (Ht e He) as (_ & _ & Ho). lia. }
  destruct (optimize_run [] offset_max prog) as (prog' & -> & Hmatch); [done| |lia|rewrite Ha; lia|done|].
  { intros e He. destruct (Ht e He) as (H1 & _ & H2). split; [done|lia]. }
  cbn [mbind res_bind Nat.eqb]. eexists _, _. split; [reflexivity|]. intros p Hp Hl. unfold Classifier_push.
  rewrite (Hmatch p (output_jump (first_match p 0 conf)) (Hlong p Hl)).
  - cbn [mbind option_bind]. by rewrite output_of_jump.
  - rewrite Ha. eapply runs_test; [|by apply Hr]. intros e He. symmetry. apply long_packet_test; [apply (Ht e He)|apply (Ht e He)|].
    specialize (Hlong p Hl e He). by rewrite Ha in Hlong.
Qed.

(** ** Configurations and packets *)
Definition byte_packet (l : list Z) : packet_mem := Mem (Z.of_nat (length l)) (fun o => if 0 <=? o then default 0 (l !! Z.to_nat o) else 0).
Lemma byte_packet_ok l : Forall (fun b => 0 <= b < 256) l -> packet_ok (byte_packet l).
Proof.
  intros H o. unfold byte_packet. cbn [m_byte]. destruct (0 <=? o); [|lia].
  destruct (l !! Z.to_nat o) as [b|] eqn:E; cbn; [|lia]. rewrite list.Forall_lookup in H. by eapply H.
Qed.
(** A clause [offset/digits%mask] in the documentation's syntax. *)
Definition digit_pairs (s : string) : list (Z * Z) :=
  (fix pairs (l : chars) := match l with a :: b :: l => (a, b) :: pairs l | _ => [] end) (str s).
Definition looks (offset : Z) (value : string) : clause := Clause false offset (digit_pairs value) None.
Definition looks_masked (neg : bool) (offset : Z) (value mask : string) : clause :=
  Clause neg offset (digit_pairs value) (Some (digit_pairs mask)).
#[local] Open Scope string_scope.
Ltac conf_ok :=
  match goal with |- within_bytes _ ?c => unfold within_bytes, c end;
  repeat match goal with
  | |- Forall _ (_ :: _) => apply list.Forall_cons; split
  | |- Forall _ [] => constructor
  | |- clause_ok _ /\ _ => split; [split; [|split; [|split; [|split]]]|]; vm_compute; first [done|by repeat constructor]
  end.
(** [Classifier(12/0806 20/0001, 12/0806 20/0002, 12/0800, -)], the documentation's example. *)
Definition arp_conf : list (list clause) :=
  [[looks 12 "0806"; looks 20 "0001"]; [looks 12 "0806"; looks 20 "0002"]; [looks 12 "0800"]; []].
Lemma arp_conf_ok : within_bytes 22 arp_conf.
Proof. conf_ok. Qed.
Example arp_conf_text :
  map unparse_pattern arp_conf = map str ["12/0806 20/0001"; "12/0806 20/0002"; "12/0800"; "-"].
Proof. vm_compute. reflexivity. Qed.
Example Classifier_first_match_witness :
  exists prog, parse_patterns (map unparse_pattern arp_conf) (Program_new 2) = Ok (prog, 0%nat) /\
    forall p, packet_ok p ->
      run_program (length (p_insn prog)) (packet_test 2 p) (p_insn prog) 0 =
      Some (match first_match p 0 arp_conf with Some i => Z.of_nat i | None => - j_never end).
Proof. apply (Classifier_first_match 22 2 arp_conf); [done|vm_compute; done|lia|lia|apply arp_conf_ok]. Defined.
(** Ethernet packets are two bytes off alignment. *)
Example Classifier_correct_witness :
  exists prog unused, Classifier_configure 4 (Some (4, 2)) (map unparse_pattern arp_conf) = Ok (Some (prog, unused)) /\
    forall p, packet_ok p -> 25 <= m_length p -> Classifier_push 4 prog p = Some (first_match p 0 arp_conf).
Proof.
  apply (Classifier_correct 22 (Some (4, 2)) arp_conf); [done|vm_compute; done|lia|apply arp_conf_ok|vm_compute; reflexivity].
Defined.

(** ** Configurations the optimizations get wrong *)
Definition lost_conf : list (list clause) :=
  [[looks_masked false 8 "01" "01"; looks_masked false 4 "02" "03"];
   [looks_masked false 8 "02" "03"; looks_masked true 8 "02" "03"];
   [looks_masked false 8 "01" "01"; looks_masked false 4 "01" "03"]].
(** the dominator optimisation loses a way to a state whose predecessor has several lists
    and both of whose branches lead there, since only the last of its lists is shortened.  With
    [Classifier(8/01%01 4/02%03, 8/02%03 !8/02%03, 8/01%01 4/01%03)], read without an error, a
    packet that matches the third pattern is dropped. *)
Theorem Classifier_loses_pattern :
  exists prog unused p, within_bytes 9 lost_conf /\ packet_ok p /\ 9 + 3 <= m_length p /\
    Classifier_configure 3 None (map unparse_pattern lost_conf) = Ok (Some (prog, unused)) /\
    first_match p 0 lost_conf = Some 2%nat /\ Classifier_push 3 prog p = Some None.
Proof.
  eexists _, _, (byte_packet [0; 0; 0; 0; 1; 0; 0; 0; 1; 0; 0; 0]). split; [conf_ok|]. split.
  { apply byte_packet_ok. repeat (apply list.Forall_cons; split; [by split|]). constructor. }
  split; [vm_compute; done|]. split; [vm_compute; reflexivity|]. split; vm_compute; reflexivity.
Qed.
(** [12/0806 12/0800] is the documentation's example of a contradictory pattern, which is to
    give a warning; as the first of two patterns it makes [calculate_dom] read [_dom[-1]], and
    the assertion of [Vector] fails. *)
Theorem Classifier_aborts :
  Classifier_configure 2 None (map str ["12/0806 12/0800"; "20/0001"]) = Fault AssertFailed.
Proof. vm_compute. reflexivity. Qed.
(** [combine_compatible_states] takes two tests that differ in what they do with short packets
    for one: a packet that the first clause refuses goes to output 0 when it ends before the
    byte of the second. *)
Theorem Classifier_short_packet :
  let conf := [[looks_masked true 4 "00" "01"; looks_masked true 5 "01" "01"]] in
  let p := byte_packet [0; 0; 0; 0; 0] in
  exists prog, Classifier_configure 1 None (map unparse_pattern conf) = Ok (Some (prog, [])) /\
    first_match p 0 conf = None /\ Classifier_push 1 prog p = Some (Some 0%nat).
Proof. cbv zeta. eexists. split; [vm_compute; reflexivity|]. split; vm_compute; reflexivity. Qed.
(** The offset of a word is kept in 16 bits: a clause for byte 65536 looks at byte 0. *)
Theorem Classifier_offset_wraps :
  let conf := [[looks 65536 "01"]] in
  let p := byte_packet [1] in
  exists prog, Classifier_configure 1 None (map unparse_pattern conf) = Ok (Some (prog, [])) /\
    first_match p 0 conf = None /\ Classifier_push 1 prog p = Some (Some 0%nat).
Proof. cbv zeta. eexists. split; [vm_compute; reflexivity|]. split; vm_compute; reflexivity. Qed.
(** Linking a program whose patterns are all contradictory: [ninsn()] is 0, which is taken for
    output 0, and every packet goes there. *)
Theorem add_or_program_empty :
  exists prog, add_or_program (MkProgram [Insn_new 12 8 65535] (-1) 14 0) (MkProgram [] (- j_failure) 0 0) = Ok prog /\
    forall p, match_packet prog p = Some 0.
Proof. eexists. split; [vm_compute; reflexivity|]. done. Qed.
(** [hard_map_offset] gives up when the offset is below the middle of the map. *)
Example map_offset_gives_up : map_offset 2 [(2, 20); (4, 40); (6, 60)] = 2.
Proof. reflexivity. Qed.
