(* ===== verification/RouteSpec.v ===== *)
(** * Routing tables: what they promise

    The laws of the [IPRouteTable] interface over an abstract map, the proof that
    [LinearIPLookup] keeps them, [ctrl] transactions proved against the interface, and the
    properties of the reachable tables. *)
From Stdlib Require Import ZArith Lia.
From stdpp Require Import base list numbers option gmap.
From S2P Require Import Prelude Packet Wire Mobility RouteTable RouteSlots.

(** ** What the operations promise on the abstract table *)
Definition old_route (noutputs : nat) (r : IPRoute) (v : Z * Z) (old : option IPRoute) : Prop :=
  exists o, old = Some o /\ route_ok noutputs o /\ rkey o = rkey r /\ rval o = v.

Definition add_result (noutputs : nat) (m : gmap (Z * Z) (Z * Z)) (r : IPRoute) (replace : bool)
    (code : Z) (old : option IPRoute) (m' : gmap (Z * Z) (Z * Z)) : Prop :=
  match m !! rkey r with
  | Some v => old_route noutputs r v old /\
      if replace then code = 0 /\ m' = <[rkey r := rval r]> m else code = - EEXIST /\ m' = m
  | None => old = None /\ code = 0 /\ m' = <[rkey r := rval r]> m
  end.
(** A killed slot, which reads as a route 0.0.0.0/32. *)
Definition killed (o : IPRoute) : Prop := rkey o = zero_key /\ real o = false.
(** Removing a route that is not there is answered with [-ENOENT]; but a remove of 0.0.0.0/32
    without a port may also match a killed slot, and succeed without removing anything. *)
Definition no_such_route (r : IPRoute) (code : Z) (old : option IPRoute) : Prop :=
  (code = - ENOENT /\ old = None) \/
  (rkey r = zero_key /\ r_port r < 0 /\ code = 0 /\ exists o, old = Some o /\ killed o).
Definition remove_result (noutputs : nat) (m : gmap (Z * Z) (Z * Z)) (r : IPRoute)
    (code : Z) (old : option IPRoute) (m' : gmap (Z * Z) (Z * Z)) : Prop :=
  match m !! rkey r with
  | Some v =>
      if (r_port r <? 0) || bool_decide (rval r = v)
      then code = 0 /\ old_route noutputs r v old /\ m' = delete (rkey r) m
      else code = - ENOENT /\ old = None /\ m' = m
  | None => no_such_route r code old /\ m' = m
  end.
Definition lookup_result (noutputs : nat) (m : gmap (Z * Z) (Z * Z)) (a : Z) (port gw : Z) : Prop :=
  (0 <= port < Z.of_nat noutputs /\ longest_match m a (gw, port)) \/
  (port = -1 /\ gw = 0 /\ no_match m a).

Class RouteTableLaws (T : Type) `{IPRouteTable T} (noutputs : nat) (ok : T -> Prop)
    (view : T -> gmap (Z * Z) (Z * Z)) : Prop := {
  law_add r b t : ok t -> route_ok noutputs r ->
    exists code old t', irt_add_route r b t = Ok (code, old, t') /\ ok t' /\
      add_result noutputs (view t) r b code old (view t');
  law_remove r t : ok t ->
    exists code old t', irt_remove_route r t = Ok (code, old, t') /\ ok t' /\
      remove_result noutputs (view t) r code old (view t');
  law_lookup a t : ok t -> in32 a -> a <> 0 ->
    exists port gw, irt_lookup_route a t = Ok (port, gw) /\
      lookup_result noutputs (view t) a port gw
}.

(** ** [LinearIPLookup] keeps its promises *)
Lemma add_route_run noutputs r b s :
  table_ok noutputs s -> route_ok noutputs r ->
  exists code old s', add_route r b s = (code, old, s') /\ table_ok noutputs s' /\
    add_result noutputs (routes (rt_t s)) r b code old (routes (rt_t s')).
Proof.
  intros [Hs Hz Hf1 Hc Hc2] Hr. unfold add_route, add_result.
  pose proof (find_slot_spec r (rt_t s)) as Hf.
  destruct (find_slot r (rt_t s) 0 None) as [i|o] eqn:Efs.
  - destruct Hf as (e & Se & Ke).
    assert (E : routes (rt_t s) !! rkey r = Some (rval e))
      by (apply routes_lookup; [apply Hs|]; by exists i, e).
    rewrite E, (proj1 Se).
    assert (Hold : old_route noutputs r (rval e) (Some e)).
    { exists e. split_and!; try done. destruct Se as [Le Re].
      pose proof (ok_slots _ _ Hs i e Le) as Hok. by rewrite Re in Hok. }
    destruct b; eexists _, _, _; (split; [reflexivity|]); [split; [|split; [exact Hold|]]|
      split; [by constructor|by split]].
    + pose proof (replace_same r i (rt_t s)) as Hsame.
      constructor; cbn [rt_t rt_zero rt_last_addr rt_last_entry rt_last_addr2 rt_last_entry2].
      * by apply replace_slots_ok with e.
      * by apply replace_zero_ok with noutputs e.
      * by apply replace_first with noutputs e.
      * destruct Hc as [Hc|(j & H1 & H2)]; [by left|right]. exists j. split; [done|].
        by rewrite <- (lookup_entry_same _ _ _ Hsame).
      * destruct Hc2 as [Hc2|(j & H1 & H2)]; [by left|right]. exists j. split; [done|].
        by rewrite <- (lookup_entry_same _ _ _ Hsame).
    + split; [done|]. cbn [rt_t]. by apply (replace_routes noutputs) with e.
  - destruct Hf as (Hnew & Hle & Hfree). cbv zeta in Hle, Hfree.
    set (found := default (length (rt_t s)) o) in *.
    assert (E : routes (rt_t s) !! rkey r = None).
    { apply eq_None_not_Some. intros [v (i & e & Se & Ke & _)%routes_lookup]; [|apply Hs].
      by apply (Hnew i e). }
    rewrite E. eexists _, _, _. split; [reflexivity|]. split; [|split; [done|split; [done|]]].
    + constructor; cbn [rt_t rt_zero rt_last_addr rt_last_entry rt_last_addr2 rt_last_entry2].
      * by apply place_slots_ok.
      * by apply (place_zero_ok noutputs).
      * apply (place_first noutputs); [done|done| |done]. by apply (find_slot_below r).
      * by left.
      * by left.
    + cbn [rt_t]. by apply (place_routes noutputs).
Qed.

(** What [remove_route] finds. *)
Lemma match_route_spec noutputs t z r :
  slots_ok noutputs t -> zero_ok t z -> zero_first t z ->
  match list_find (fun e => match_route r e = true) t with
  | Some (i, e) => t !! i = Some e /\ rkey e = rkey r /\
      ((real e = true /\ (r_port r < 0 \/ rval r = rval e)) \/
       (killed e /\ r_port r < 0 /\ z = None))
  | None => forall v, routes t !! rkey r = Some v -> 0 <= r_port r /\ rval r <> v
  end.
Proof.
  intros Hs Hz Hfirst. destruct (list_find _ t) as [[i e]|] eqn:El.
  - apply list_find_Some in El as (He & Hm & Hmin). unfold match_route in Hm.
    apply andb_true_iff in Hm as [[Ha Hk]%andb_true_iff Hp].
    apply Z.eqb_eq in Ha, Hk. assert (Hkey : rkey e = rkey r) by (unfold rkey; congruence).
    assert (Hv : r_port r < 0 \/ rval r = rval e).
    { apply orb_true_iff in Hp as [?%Z.ltb_lt|[?%Z.eqb_eq ?%Z.eqb_eq]%andb_true_iff]; [by left|].
      right. unfold rval. congruence. }
    split; [done|]. split; [done|]. pose proof (ok_slots _ _ Hs i e He) as Hok.
    destruct (real e) eqn:Er; [by left|right].
    assert (Hport : r_port r < 0).
    { destruct Hv as [Hv|[= _ Hv]]; [done|]. unfold real in Er. apply Z.ltb_ge in Er. lia. }
    split; [done|]. split; [done|]. destruct z as [k|]; [exfalso|done].
    destruct (ok_zero_real _ _ Hz k eq_refl) as (f & [Hf Rf] & Kf).
    assert (Hmf : match_route r f = true).
    { unfold match_route. assert (rkey f = rkey r) as [= -> ->] by congruence.
      by rewrite !Z.eqb_refl, (proj2 (Z.ltb_lt _ _) Hport). }
    destruct (lt_eq_lt_dec i k) as [[Hlt| ->]|Hgt].
    + pose proof (Hfirst k eq_refl i e Hlt He). congruence.
    + congruence.
    + by apply (Hmin k f).
  - apply list_find_None in El. intros v (i & e & [He _] & Hk & Hv)%routes_lookup; [|apply Hs].
    rewrite Forall_forall in El. specialize (El e ltac:(by eapply list_elem_of_lookup_2)).
    unfold match_route in El. injection Hk as Ha Hm. rewrite Ha, Hm, !Z.eqb_refl in El.
    cbn [andb] in El. destruct (Z.ltb_spec (r_port r) 0); [done|]. split; [done|].
    intros Hrv. rewrite <- Hv in Hrv. injection Hrv as Hg Hp. rewrite Hg, Hp, !Z.eqb_refl in El.
    by apply El.
Qed.

(** Killing a killed slot again changes no route. *)
Lemma kill_killed_routes noutputs t i e :
  slots_ok noutputs t -> t !! i = Some e -> real e = false ->
  routes (alter kill_route i t) = routes t.
Proof.
  intros Hs He Hr. apply map_eq. intros k. apply option_eq. intros v.
  rewrite !routes_lookup by (by eapply ok_unique; try apply kill_slots_ok).
  split; intros (j & f & Sf & Kf & Vf); exists j, f; (split; [|done]).
  - by apply kill_slot in Sf as [_ ?].
  - apply kill_slot. split; [|done]. intros ->. destruct Sf. congruence.
Qed.

Lemma kill_zero_ok t z i e :
  zero_ok t z -> slot t i e -> rkey e <> zero_key -> zero_ok (alter kill_route i t) z.
Proof.
  intros [Hz Hzr] He Hk. constructor.
  - intros j f [_ Sf]%kill_slot. by apply Hz.
  - intros j Hj. destruct (Hzr j Hj) as (f & Sf & Kf). exists f. split; [|done].
    apply kill_slot. split; [|done]. intros ->. destruct He as [He _], Sf as [Sf _]. congruence.
Qed.
Lemma kill_the_zero_ok t z i e :
  unique t -> zero_ok t z -> slot t i e -> rkey e = zero_key -> zero_ok (alter kill_route i t) None.
Proof.
  intros Hu [Hz Hzr] He Hk. constructor; [|done].
  intros j f [Hn Sf]%kill_slot Kf. destruct Hn. apply (Hu j i f e); congruence.
Qed.

(** Moving the zero route to the first killed slot changes no route. *)
Lemma move_zero noutputs s z :
  slots_ok noutputs (rt_t s) -> zero_ok (rt_t s) (rt_zero s) ->
  rt_zero s = Some z ->
  exists zero s', rt_t s !! z = Some zero /\
    add_route zero false (Table (alter kill_route z (rt_t s)) (rt_zero s) (rt_last_addr s)
      (rt_last_entry s) (rt_last_addr2 s) (rt_last_entry2 s)) = (0, None, s') /\
    slots_ok noutputs (rt_t s') /\ zero_ok (rt_t s') (rt_zero s') /\
    zero_first (rt_t s') (rt_zero s') /\ routes (rt_t s') = routes (rt_t s).
Proof.
  intros Hs Hz Ez. destruct (ok_zero_real _ _ Hz z Ez) as (zero & Szero & Kz).
  pose proof (ok_slots _ _ Hs z zero (proj1 Szero)) as Hrok. rewrite (proj2 Szero) in Hrok.
  pose proof (kill_slots_ok noutputs (rt_t s) z Hs) as Hks.
  exists zero. unfold add_route. cbn [rt_t rt_zero].
  pose proof (find_slot_spec zero (alter kill_route z (rt_t s))) as Hf.
  destruct (find_slot zero _ 0 None) as [i|o] eqn:Efs.
  { destruct Hf as (e & [Hn Se]%kill_slot & Ke). destruct Hn.
    apply (ok_unique _ _ Hs i z e zero Se Szero Ke). }
  destruct Hf as (Hnew & Hle & Hfree). cbv zeta in Hle, Hfree.
  eexists. split; [exact (proj1 Szero)|]. split; [reflexivity|]. cbn [rt_t rt_zero].
  split_and!.
  - by apply place_slots_ok.
  - assert (E : (r_addr zero =? 0) && (r_mask zero =? 0xFFFFFFFF) = true)
      by (injection Kz as -> ->; done).
    pose proof (place_zero_ok noutputs zero _ _ Hle Hfree Hnew Hks Hrok None) as H.
    rewrite E in H |- *. apply H.
    apply (kill_the_zero_ok _ _ _ _ (ok_unique _ _ Hs) Hz Szero Kz).
  - assert (E : (r_addr zero =? 0) && (r_mask zero =? 0xFFFFFFFF) = true)
      by (injection Kz as -> ->; done).
    rewrite E. intros k [= <-]. apply (place_below noutputs); [done..|].
    by apply (find_slot_below zero).
  - rewrite (place_routes noutputs) by done.
    rewrite (kill_routes noutputs _ z zero Hs Szero). rewrite insert_delete_id; [done|].
    apply routes_lookup; [apply Hs|]. by exists z, zero.
Qed.

Lemma remove_route_run noutputs r s :
  table_ok noutputs s ->
  exists code old s', remove_route r s = Ok (code, old, s') /\ table_ok noutputs s' /\
    remove_result noutputs (routes (rt_t s)) r code old (routes (rt_t s')).
Proof.
  intros Hok. pose proof (table_slots _ _ Hok) as Hs. pose proof (table_zero _ _ Hok) as Hz.
  pose proof (table_first _ _ Hok) as Hfirst.
  pose proof (match_route_spec noutputs (rt_t s) _ r Hs Hz Hfirst) as Hm.
  unfold remove_route, remove_result. destruct (list_find _ (rt_t s)) as [[i e]|].
  2: { eexists _, _, _. split; [reflexivity|]. split; [done|].
       destruct (routes (rt_t s) !! rkey r) as [v|]; [|by split; [left|]].
       destruct (Hm v eq_refl) as [Hp Hne].
       rewrite (proj2 (Z.ltb_ge _ _)) by done. by rewrite bool_decide_eq_false_2. }
  destruct Hm as (Le & Ke & Hv). set (t1 := alter kill_route i (rt_t s)).
  assert (Hs1 : slots_ok noutputs t1) by by apply kill_slots_ok.
  destruct Hv as [[Re Hv]|(Hkilled & Hport & Ez)].
  2: { rewrite Ez. eexists _, _, _. split; [reflexivity|].
       cbn [rt_t rt_zero rt_last_addr rt_last_entry rt_last_addr2 rt_last_entry2].
       assert (Hnone : routes (rt_t s) !! rkey r = None).
       { apply eq_None_not_Some. intros [v (j & f & Sf & Kf & _)%routes_lookup]; [|apply Hs].
         pose proof (ok_zero _ _ Hz j f Sf) as Hj. rewrite Ez in Hj. destruct Hkilled.
         discriminate Hj. congruence. }
       split.
       - constructor; cbn; [done| |by intros k [=]|by left|by left]. constructor; [|done].
         intros j f [_ Sf]%kill_slot Kf. pose proof (ok_zero _ _ Hz j f Sf Kf). congruence.
       - rewrite Hnone. cbn [rt_t].
         rewrite (kill_killed_routes noutputs _ i e Hs Le (proj2 Hkilled) : routes t1 = _).
         split; [|done]. right. destruct Hkilled as [Kk Rk]. split; [congruence|].
         split; [done|]. split; [done|]. by exists e. }
  assert (Se : slot (rt_t s) i e) by done.
  assert (E : routes (rt_t s) !! rkey r = Some (rval e))
    by (apply routes_lookup; [apply Hs|]; by exists i, e).
  rewrite E. assert ((r_port r <? 0) || bool_decide (rval r = rval e) = true) as ->.
  { destruct Hv as [Hv|Hv]; [by rewrite (proj2 (Z.ltb_lt _ _) Hv)|].
    by rewrite (bool_decide_eq_true_2 _ Hv), orb_true_r. }
  assert (Hold : old_route noutputs r (rval e) (Some e)).
  { exists e. split_and!; try done. pose proof (ok_slots _ _ Hs i e (proj1 Se)) as Hr.
    by rewrite (proj2 Se) in Hr. }
  assert (R1 : routes t1 = delete (rkey r) (routes (rt_t s)))
    by (rewrite <- Ke; by apply (kill_routes noutputs)).
  assert (Hdone : forall t z l1 l2, slots_ok noutputs t -> zero_ok t z -> zero_first t z ->
    routes t = delete (rkey r) (routes (rt_t s)) ->
    exists code old s', Ok (0, Some e, Table t z 0 l1 0 l2) = Ok (code, old, s') /\
      table_ok noutputs s' /\
      (code = 0 /\ old_route noutputs r (rval e) old /\
       routes (rt_t s') = delete (rkey r) (routes (rt_t s)))).
  { intros t z l1 l2 H1 H2 H3 H4. eexists _, _, _. split; [reflexivity|].
    split; [|done]. constructor; cbn; [done|done|done|by left|by left]. }
  destruct (rt_zero s) as [z|] eqn:Ez.
  - destruct (Nat.eqb_spec i z) as [->|Hne].
    + apply Hdone; [done| |by intros k [=]|done]. cbn [rt_zero].
      destruct (ok_zero_real _ _ Hz z eq_refl) as (e' & Se' & Kz).
      assert (e' = e) as -> by (destruct Se, Se'; congruence).
      apply (kill_the_zero_ok _ _ _ _ (ok_unique _ _ Hs) Hz Se Kz).
    + assert (Hk : rkey e <> zero_key).
      { intros Hk. pose proof (ok_zero _ _ Hz i e Se Hk). congruence. }
      assert (Hz1 : zero_ok t1 (Some z)) by by apply kill_zero_ok with e.
      destruct (Nat.ltb_spec i z) as [Hlt|Hge].
      2: { apply Hdone; [done|exact Hz1| |done]. intros k [= <-]. apply kill_below; [lia|].
           by apply Hfirst. }
      destruct (move_zero noutputs (Table t1 (Some z) (rt_last_addr s) (rt_last_entry s)
        (rt_last_addr2 s) (rt_last_entry2 s)) z Hs1 Hz1 eq_refl)
        as (zero & s' & Hzr & Hadd & Hs' & Hz' & Hf' & Hr').
      cbn [rt_t rt_zero rt_last_addr rt_last_entry rt_last_addr2 rt_last_entry2] in *.
      rewrite Hzr. cbn [opt_res mbind res_bind]. rewrite Hadd. cbn [mbind res_bind].
      apply Hdone; [done|done|done|congruence].
  - apply Hdone; [done| |by intros k [=]|done]. cbn [rt_zero]. constructor; [|done].
    intros j f [_ Sf]%kill_slot Kf. by apply (ok_zero _ _ Hz j f).
Qed.

Lemma lookup_route_run noutputs a s :
  table_ok noutputs s -> in32 a -> a <> 0 ->
  exists port gw, lookup_route a s = Ok (port, gw) /\
    lookup_result noutputs (routes (rt_t s)) a port gw.
Proof.
  intros Hok Ha H0. pose proof (lookup_entry_longest noutputs _ a (table_slots _ _ Hok) Ha H0) as H.
  unfold lookup_route. destruct (lookup_entry (rt_t s) a) as [i|].
  - destruct H as (e & [He _] & Hr & Hl). rewrite He. eexists _, _. split; [reflexivity|].
    left. split; [by destruct Hr|done].
  - eexists _, _. split; [reflexivity|]. by right.
Qed.

#[global] Instance LinearIPLookup_laws noutputs :
  RouteTableLaws table noutputs (table_ok noutputs) (fun s => routes (rt_t s)).
Proof.
  constructor; cbn [irt_add_route irt_remove_route irt_lookup_route LinearIPLookup].
  - intros r b s Hok Hr. destruct (add_route_run noutputs r b s Hok Hr) as (c & o & s' & H & ?).
    exists c, o, s'. by rewrite H.
  - apply remove_route_run.
  - apply lookup_route_run.
Qed.

(** ** [push] and [check] *)
Lemma push_along_run noutputs s i e p :
  slot (rt_t s) i e -> route_ok noutputs e ->
  push_along noutputs (Some i) p s =
  Ok (tt, s, [Push (Z.to_nat (r_port e)) (if r_gw e =? 0 then p else set_dst_ip_anno (r_gw e) p)]).
Proof.
  intros [He _] Hr. unfold push_along. cbn [mbind option_bind]. rewrite hbind_get, He. hrun.
  destruct (ok_port _ _ Hr) as [H1 H2].
  by rewrite (proj2 (Z.leb_le _ _) H1), (proj2 (Z.ltb_lt _ _) H2).
Qed.

Lemma LinearIPLookup_push_run noutputs s a p :
  table_ok noutputs s -> dst_ip_anno p = Some a -> in32 a -> a <> 0 ->
  exists s', table_ok noutputs s' /\ rt_t s' = rt_t s /\ rt_zero s' = rt_zero s /\
    ((exists gw port, longest_match (routes (rt_t s)) a (gw, port) /\
       0 <= port < Z.of_nat noutputs /\
       LinearIPLookup_push noutputs p s =
         Ok (tt, s', [Push (Z.to_nat port) (if gw =? 0 then p else set_dst_ip_anno gw p)])) \/
     (no_match (routes (rt_t s)) a /\
       LinearIPLookup_push noutputs p s = Ok (tt, s', [Kill p]))).
Proof.
  intros Hok Hd Ha H0. pose proof (table_slots _ _ Hok) as Hs.
  pose proof (lookup_entry_longest noutputs _ a Hs Ha H0) as Hl.
  unfold LinearIPLookup_push. rewrite hbind_get, Hd. hrun.
  rewrite (proj2 (Z.eqb_neq a 0)) by done. cbn [negb andb].
  assert (Hhit : forall i, lookup_entry (rt_t s) a = Some i ->
    exists gw port, longest_match (routes (rt_t s)) a (gw, port) /\ 0 <= port < Z.of_nat noutputs /\
      forall s', rt_t s' = rt_t s -> push_along noutputs (Some i) p s' =
        Ok (tt, s', [Push (Z.to_nat port) (if gw =? 0 then p else set_dst_ip_anno gw p)])).
  { intros i Hi. rewrite Hi in Hl. destruct Hl as (e & Se & Hr & Hlong).
    exists (r_gw e), (r_port e). split; [done|]. split; [by destruct Hr|].
    intros s' Es. apply push_along_run; [by rewrite Es|done]. }
  destruct (Z.eqb_spec a (rt_last_addr s)) as [->|H1].
  { destruct (ok_cache _ _ Hok) as [?|(i & Ei & Li)]; [done|]. rewrite Ei.
    destruct (Hhit i Li) as (gw & port & Hlong & Hp & Hpush).
    exists s. split_and!; try done. left. exists gw, port. split_and!; try done; try lia. by apply Hpush. }
  destruct (Z.eqb_spec a (rt_last_addr2 s)) as [->|H2].
  { destruct (ok_cache2 _ _ Hok) as [?|(i & Ei & Li)]; [done|]. rewrite Ei.
    destruct (Hhit i Li) as (gw & port & Hlong & Hp & Hpush).
    exists s. split_and!; try done. left. exists gw, port. split_and!; try done; try lia. by apply Hpush. }
  destruct (lookup_entry (rt_t s) a) as [i|] eqn:El.
  - destruct (Hhit i eq_refl) as (gw & port & Hlong & Hp & Hpush).
    eexists (Table _ _ _ _ _ _). rewrite hbind_put, Hpush by done. split; [|split; [reflexivity|
      split; [reflexivity|left; exists gw, port; split; [done|split; [done|reflexivity]]]]].
    constructor; cbn; [exact Hs|apply Hok|apply Hok|right; by exists i|apply Hok].
  - exists s. split_and!; try done. right. split; [done|]. reflexivity.
Qed.

Lemma cache_check t a entry : cache_ok t a entry -> check_cache t a entry = true.
Proof.
  unfold check_cache. intros [->|(i & -> & H)]; [done|]. rewrite H.
  by rewrite bool_decide_eq_true_2, orb_true_r.
Qed.
Lemma elem_of_range_inv a b j : 0 <= a -> j ∈ range a b -> a <= Z.of_nat j < b.
Proof.
  intros Ha. unfold range. destruct (Z.ltb_spec a b); [|by intros ?%elem_of_nil].
  rewrite elem_of_seq. lia.
Qed.
Lemma duplicates_check t : unique t -> check_duplicates t = true.
Proof.
  induction t as [|e t IH]; intros Hu; [done|]. cbn [check_duplicates].
  rewrite IH by by eapply unique_tail. rewrite andb_true_r. apply forallb_forall.
  intros f [j Hj]%list_elem_of_In%list_elem_of_lookup. apply negb_true_iff. 
  destruct (real e) eqn:Re; [|by rewrite andb_false_r].
  destruct (real f) eqn:Rf; [|by rewrite andb_false_r]. rewrite !andb_true_r.
  apply not_true_is_false. intros [Ha%Z.eqb_eq Hm%Z.eqb_eq]%andb_true_iff.
  discriminate (Hu 0%nat (S j) e f (conj eq_refl Re) (conj Hj Rf) ltac:(unfold rkey; congruence)).
Qed.
Lemma check_ok noutputs s : table_ok noutputs s -> check s = true.
Proof.
  intros [Hs _ _ Hc Hc2]. unfold check.
  rewrite (duplicates_check _ (ok_unique _ _ Hs)), (cache_check _ _ _ Hc), (cache_check _ _ _ Hc2).
  rewrite !andb_true_r. apply forallb_forall. intros i Hi.
  destruct (rt_t s !! i) as [e|] eqn:Ee; [|done]. destruct (real e) eqn:Re; [|done]. cbn [negb orb].
  apply forallb_forall. intros j Hj%list_elem_of_In%elem_of_range_inv; [|lia].
  destruct (rt_t s !! j) as [f|] eqn:Ef; [|done]. destruct (real f) eqn:Rf; [|by rewrite andb_false_r].
  rewrite andb_true_r. apply negb_true_iff. apply (ok_next _ _ Hs i j e f); [lia|done|done|lia].
Qed.

(** ** Transactions *)
Definition prefix_ok (r : IPRoute) : Prop :=
  in32 (r_addr r) /\ prefix_mask (r_mask r) /\ Z.land (r_addr r) (r_mask r) = r_addr r.
Definition line_ok (l : ctrl_line) : Prop :=
  match l with
  | BlankLine => False
  | Command _ (Some r) => prefix_ok r
  | _ => True
  end.

(** What the commands mean on the abstract table. *)
Definition apply_command (c : command) (r : IPRoute) (m : gmap (Z * Z) (Z * Z)) :=
  match c with CMD_REMOVE => delete (rkey r) m | _ => <[rkey r := rval r]> m end.
Fixpoint apply_lines (lines : list ctrl_line) (m : gmap (Z * Z) (Z * Z)) :=
  match lines with
  | Command c (Some r) :: lines => apply_lines lines (apply_command c r m)
  | _ :: lines => apply_lines lines m
  | [] => m
  end.

Section Transactions.
Context {T : Type} `{RouteTableLaws T noutputs ok view}.

(** The log takes the table back to [m0]. *)
Fixpoint undoes (l : list IPRoute) (m m0 : gmap (Z * Z) (Z * Z)) : Prop :=
  match l with
  | [] => m = m0
  | o :: l =>
      route_ok noutputs o /\
      ((r_extra o = cmd_number CMD_REMOVE /\ m !! rkey o = None /\
        undoes l (<[rkey o := rval o]> m) m0) \/
       (r_extra o = cmd_number CMD_ADD /\ m !! rkey o = Some (rval o) /\
        undoes l (delete (rkey o) m) m0) \/
       (r_extra o = cmd_number CMD_SET /\ is_Some (m !! rkey o) /\
        undoes l (<[rkey o := rval o]> m) m0)) \/
      (r_extra o = cmd_number CMD_ADD /\ m !! rkey o = None /\ undoes l m m0)
  end.

Lemma rollback_run l t m0 :
  ok t -> undoes l (view t) m0 -> exists t', rollback l t = Ok t' /\ ok t' /\ view t' = m0.
Proof.
  revert t. induction l as [|o l IH]; intros t Hok Hl; [by exists t|]. cbn [rollback].
  destruct Hl as [(Ho & [(E & Hm & Hl)|[(E & Hm & Hl)|(E & [v Hm] & Hl)]])|(E & Hm & Hl)]; rewrite E.
  - destruct (law_add o false t Hok Ho) as (c & old & t' & Hr & Hok' & Hres).
    unfold add_result in Hres. rewrite Hm in Hres. destruct Hres as (_ & _ & Hv).
    cbn [cmd_number Z.eqb Pos.eqb]. rewrite Hr, bind_ok. apply IH; [done|by rewrite Hv].
  - destruct (law_remove o t Hok) as (c & old & t' & Hr & Hok' & Hres).
    unfold remove_result in Hres. rewrite Hm, bool_decide_eq_true_2, orb_true_r in Hres by done.
    destruct Hres as (_ & _ & Hv).
    cbn [cmd_number Z.eqb Pos.eqb]. rewrite Hr, bind_ok. apply IH; [done|by rewrite Hv].
  - destruct (law_add o true t Hok Ho) as (c & old & t' & Hr & Hok' & Hres).
    unfold add_result in Hres. rewrite Hm in Hres. destruct Hres as (_ & _ & Hv).
    cbn [cmd_number Z.eqb Pos.eqb]. rewrite Hr, bind_ok. apply IH; [done|by rewrite Hv].
  - destruct (law_remove o t Hok) as (c & old & t' & Hr & Hok' & Hres).
    unfold remove_result in Hres. rewrite Hm in Hres. destruct Hres as [_ Hv].
    cbn [cmd_number Z.eqb Pos.eqb]. rewrite Hr, bind_ok. apply IH; [done|by rewrite Hv].
Qed.

Lemma route_ok_extra x r : route_ok noutputs r -> route_ok noutputs (set_extra x r).
Proof. by intros []. Qed.

Lemma logged_add (c : command) r (b : bool) code old m m' l m0 :
  c = (if b then CMD_SET else CMD_ADD) -> route_ok noutputs r ->
  add_result noutputs m r b code old m' -> undoes l m m0 ->
  (code = 0 /\ m' = <[rkey r := rval r]> m /\ undoes (logged c r old :: l) m' m0) \/
  (code < 0 /\ m' = m).
Proof.
  intros -> Hr Hres Hl. unfold add_result in Hres. destruct (m !! rkey r) as [v|] eqn:Ev.
  - destruct Hres as ((o & -> & Ho & Ko & Vo) & Hres).
    destruct b; destruct Hres as [-> ->]; [left|by right].
    split; [done|]. split; [done|]. unfold logged.
    assert ((r_port o <? 0) = false) as -> by (apply Z.ltb_ge, (ok_port _ _ Ho)).
    cbn [undoes]. left. split; [by apply route_ok_extra|]. right; right.
    change (rkey (set_extra _ o)) with (rkey o). change (rval (set_extra _ o)) with (rval o).
    rewrite Ko, Vo, lookup_insert_eq. split; [done|]. split; [done|].
    by rewrite insert_insert_eq, insert_id.
  - destruct Hres as (-> & -> & ->). left. split; [done|]. split; [done|].
    cbn [undoes logged]. left. split; [by apply route_ok_extra|]. right; left.
    change (rkey (set_extra _ r)) with (rkey r). change (rval (set_extra _ r)) with (rval r).
    by rewrite lookup_insert_eq, delete_insert_id.
Qed.

Lemma logged_remove r code old m m' l m0 :
  remove_result noutputs m r code old m' -> undoes l m m0 ->
  (code = 0 /\ m' = delete (rkey r) m /\ undoes (logged CMD_REMOVE r old :: l) m' m0) \/
  (code < 0 /\ m' = m).
Proof.
  intros Hres Hl. unfold remove_result in Hres.
  destruct (m !! rkey r) as [v|] eqn:Ev; [destruct (_ || _)|].
  - destruct Hres as (-> & (o & -> & Ho & Ko & Vo) & ->). left.
    split; [done|]. split; [done|]. unfold logged.
    assert ((r_port o <? 0) = false) as -> by (apply Z.ltb_ge, (ok_port _ _ Ho)).
    cbn [undoes]. left. split; [by apply route_ok_extra|]. left.
    change (rkey (set_extra _ o)) with (rkey o). change (rval (set_extra _ o)) with (rval o).
    rewrite Ko, Vo, lookup_delete_eq. split; [done|]. split; [done|]. by rewrite insert_delete_id.
  - destruct Hres as (-> & _ & ->). by right.
  - destruct Hres as ([[-> _]|(Hk & _ & -> & o & -> & Ko & Ro)] & ->); [by right|left].
    split; [done|]. split; [by rewrite delete_id|]. unfold logged.
    assert ((r_port o <? 0) = true) as ->.
    { unfold real in Ro. apply Z.ltb_ge in Ro. apply Z.ltb_lt. lia. }
    cbn [undoes]. right. change (rkey (set_extra _ r)) with (rkey r). by rewrite Ev.
Qed.

(** A command succeeds, changes the table as it says and logs how to undo it, or fails and
    leaves everything as it was. *)
Lemma run_command_run c arg l t m0 :
  ok t -> match arg with Some r => prefix_ok r | None => True end -> undoes l (view t) m0 ->
  exists code l' t', run_command noutputs c arg (Some l) t = Ok (code, Some l', t') /\ ok t' /\
    undoes l' (view t') m0 /\
    ((code = 0 /\ exists r, arg = Some r /\ view t' = apply_command c r (view t)) \/ code < 0).
Proof.
  intros Hok Harg Hl. unfold run_command. destruct arg as [r|].
  2: { exists (- EINVAL), l, t. by split_and!; [| | |right]. }
  destruct Harg as (Ha & Hm & Hmask).
  destruct (Z.ltb_spec (r_port r) (match c with CMD_REMOVE => -1 | _ => 0 end)) as [Hp|Hp];
    cbn [orb]; [exists (- EINVAL), l, t; by split_and!; [| | |right]|].
  destruct (Z.leb_spec (Z.of_nat noutputs) (r_port r)) as [Hp'|Hp'];
    [exists (- EINVAL), l, t; by split_and!; [| | |right]|].
  assert (Hop : exists code old t', (match c with
      | CMD_ADD => irt_add_route r false t | CMD_SET => irt_add_route r true t
      | CMD_REMOVE => irt_remove_route r t end) = Ok (code, old, t') /\ ok t' /\
    ((code = 0 /\ view t' = apply_command c r (view t) /\
      undoes (logged c r old :: l) (view t') m0) \/ (code < 0 /\ view t' = view t))).
  { destruct c.
    - assert (Hr : route_ok noutputs r) by by constructor.
      destruct (law_add r false t Hok Hr) as (code & old & t' & Hrun & Hok' & Hres).
      exists code, old, t'. split; [done|]. split; [done|].
      apply (logged_add CMD_ADD r false code old _ _ l m0 eq_refl Hr Hres Hl).
    - assert (Hr : route_ok noutputs r) by by constructor.
      destruct (law_add r true t Hok Hr) as (code & old & t' & Hrun & Hok' & Hres).
      exists code, old, t'. split; [done|]. split; [done|].
      apply (logged_add CMD_SET r true code old _ _ l m0 eq_refl Hr Hres Hl).
    - destruct (law_remove r t Hok) as (code & old & t' & Hrun & Hok' & Hres).
      exists code, old, t'. split; [done|]. split; [done|].
      apply (logged_remove r code old _ _ l m0 Hres Hl). }
  destruct Hop as (code & old & t' & -> & Hok' & [(-> & Hv & Hu)|[Hneg Hv]]); rewrite bind_ok.
  - exists 0, (logged c r old :: l), t'. split; [reflexivity|]. split; [done|]. split; [done|].
    left. split; [done|]. by exists r.
  - rewrite (proj2 (Z.leb_gt _ _)) by done. exists code, l, t'. split; [reflexivity|].
    split; [done|]. rewrite Hv. split; [done|by right].
Qed.

Lemma ctrl_loop_run lines l t m0 :
  ok t -> Forall line_ok lines -> undoes l (view t) m0 ->
  exists r t', ctrl_loop noutputs (S (length lines)) lines l t = Some (Ok (r, t')) /\ ok t' /\
    ((r = 0 /\ view t' = apply_lines lines (view t)) \/ (r < 0 /\ view t' = m0)).
Proof.
  revert l t. induction lines as [|line lines IH]; intros l t Hok Hlines Hl.
  { exists 0, t. split; [reflexivity|]. split; [done|by left]. }
  apply Forall_cons_1 in Hlines as [Hline Hlines]. cbn [length].
  destruct line as [| |c arg]; [done| |].
  - cbn [ctrl_loop]. destruct (rollback_run l t m0 Hok Hl) as (t' & Hr & Hok' & Hv).
    rewrite Hr. exists (- EINVAL), t'. split; [reflexivity|]. split; [done|by right].
  - destruct (run_command_run c arg l t m0 Hok) as (code & l' & t' & Hrun & Hok' & Hl' & Hcase);
      [by destruct arg|done|].
    change (ctrl_loop noutputs (S (S (length lines))) (Command c arg :: lines) l t) with
      (match run_command noutputs c arg (Some l) t with
       | Fault e => Some (Fault e)
       | Ok (r, l, t') =>
          if r <? 0 then Some (t' ← rollback (default [] l) t'; Ok (r, t'))
          else ctrl_loop noutputs (S (length lines)) lines (default [] l) t'
       end). rewrite Hrun. cbn [default from_option id].
    destruct Hcase as [(-> & r & -> & Hv)|Hneg].
    + cbn [Z.ltb Z.compare]. destruct (IH l' t' Hok' Hlines Hl') as (r' & t'' & E & Hok'' & Hc).
      exists r', t''. split; [exact E|]. split; [done|]. cbn [apply_lines]. by rewrite <- Hv.
    + rewrite (proj2 (Z.ltb_lt _ _) Hneg).
      destruct (rollback_run l' t' m0 Hok' Hl') as (t'' & Hr & Hok'' & Hv). rewrite Hr.
      exists code, t''. split; [reflexivity|]. split; [done|by right].
Qed.
End Transactions.

(** Commands that succeed, then a blank line. *)
Lemma ctrl_loop_blank {T} `{IPRouteTable T} noutputs n lines rest l t t' :
  ctrl_loop noutputs n lines l t = Some (Ok (0, t')) ->
  forall fuel, ctrl_loop noutputs fuel (lines ++ BlankLine :: rest) l t = None.
Proof.
  assert (Hblank : forall fuel l t, ctrl_loop noutputs fuel (BlankLine :: rest) l t = None).
  { intros fuel. induction fuel as [|fuel IH]; intros l0 t0; [done|apply IH]. }
  assert (Hroll : forall r l t, r < 0 ->
    Some (t' ← rollback l t; Ok (r, t')) = Some (Ok (0, t')) -> False).
  { intros r l0 t0 Hr. destruct (rollback l0 t0); cbn; [intros [= -> _]; lia|done]. }
  revert lines l t. induction n as [|n IH]; intros lines l t Hrun fuel; [done|].
  destruct lines as [|[| |c arg] lines]; [apply Hblank| | |]; cbn [ctrl_loop] in Hrun.
  - destruct fuel as [|fuel]; [done|]. exact (IH (BlankLine :: lines) l t Hrun fuel).
  - by destruct (Hroll (- EINVAL) l t eq_refl).
  - destruct fuel as [|fuel]; [done|]. cbn [app ctrl_loop].
    destruct (run_command noutputs c arg (Some l) t) as [[[r l'] t1]|]; [|done].
    destruct (Z.ltb_spec r 0) as [Hr|Hr]; [by destruct (Hroll r (default [] l') t1 Hr)|].
    by apply IH.
Qed.

(** ** Reachable tables *)
Inductive reachable (noutputs : nat) : table -> Prop :=
| reach_new e1 e2 : reachable noutputs (new_table e1 e2)
| reach_add s r b code old s' :
    reachable noutputs s -> route_ok noutputs r -> add_route r b s = (code, old, s') ->
    reachable noutputs s'
| reach_remove s r code old s' :
    reachable noutputs s -> remove_route r s = Ok (code, old, s') ->
    reachable noutputs s'
| reach_push s a p s' t :
    reachable noutputs s -> dst_ip_anno p = Some a -> in32 a -> a <> 0 ->
    LinearIPLookup_push noutputs p s = Ok (tt, s', t) -> reachable noutputs s'.

Lemma reachable_ok noutputs s : reachable noutputs s -> table_ok noutputs s.
Proof.
  induction 1 as [e1 e2|s r b code old s' _ IH Hr E|s r code old s' _ IH E|
                  s a p s' t _ IH Hd Ha H0 E].
  - apply new_table_ok.
  - destruct (add_route_run noutputs r b s IH Hr) as (c & o & s1 & E1 & Hok & _). congruence.
  - destruct (remove_route_run noutputs r s IH) as (c & o & s1 & E1 & Hok & _). congruence.
  - destruct (LinearIPLookup_push_run noutputs s a p IH Hd Ha H0)
      as (s1 & Hok & _ & _ & [(gw & port & _ & _ & E1)|[_ E1]]); congruence.
Qed.

(** A packet for 0.0.0.0 meets a killed slot. *)
Lemma lookup_zero_fold noutputs s js i e :
  table_ok noutputs s -> rt_zero s = None -> rt_t s !! i = Some e -> real e = false ->
  exists e', rt_t s !! fold_left (lookup_step (rt_t s) 0) js i = Some e' /\ real e' = false.
Proof.
  intros Hok Hz. revert i e. induction js as [|j js IH]; intros i e He Hr; [by exists e|].
  cbn [fold_left]. unfold lookup_step at 2. rewrite He.
  destruct (rt_t s !! j) as [f|] eqn:Ef; [|by apply (IH i e)].
  destruct (contains f 0 && mask_as_specific (r_mask f) (r_mask e)) eqn:E; [|by apply (IH i e)].
  apply (IH j f Ef). destruct (real f) eqn:Rf; [|done]. exfalso.
  pose proof (ok_slots _ _ (table_slots _ _ Hok) i e He) as Ke. rewrite Hr in Ke.
  pose proof (ok_slots _ _ (table_slots _ _ Hok) j f Ef) as Of. rewrite Rf in Of.
  apply andb_true_iff in E as [Hc Hm]. unfold mask_as_specific in Hm. injection Ke as _ Ke.
  rewrite Ke in Hm. apply Z.eqb_eq in Hm.
  assert (Hmask : r_mask f = 0xFFFFFFFF).
  { assert (Hin : in32 (r_mask f)) by (apply prefix_mask_in32, Of). revert Hm.
    change 0xFFFFFFFF with (Z.ones 32). rewrite Z.land_ones by lia.
    unfold in32 in Hin. rewrite Z.mod_small by lia. done. }
  assert (Haddr : r_addr f = 0).
  { pose proof (ok_masked _ _ Of) as Hk. revert Hc. unfold contains, matches_prefix.
    rewrite Z.eqb_eq, Z.lxor_0_l, Hk. done. }
  pose proof (ok_zero _ _ (table_zero _ _ Hok) j f (conj Ef Rf)) as Hzero.
  rewrite Hz in Hzero. discriminate Hzero. unfold rkey, zero_key. congruence.
Qed.

Lemma push_zero_faults noutputs s i e p :
  table_ok noutputs s -> rt_zero s = None -> rt_t s !! i = Some e -> real e = false ->
  (forall j f, (j < i)%nat -> rt_t s !! j = Some f -> contains f 0 = false) ->
  dst_ip_anno p = Some 0 ->
  LinearIPLookup_push noutputs p s = Fault AssertFailed.
Proof.
  intros Hok Hz He Hr Hb Hd. 
  assert (Hc : contains e 0 = true).
  { pose proof (ok_slots _ _ (table_slots _ _ Hok) i e He) as Ke. rewrite Hr in Ke.
    injection Ke as Ka Km. unfold contains, matches_prefix. by rewrite Ka, Km. }
  unfold LinearIPLookup_push. rewrite hbind_get, Hd. hrun. cbn [negb andb Z.eqb].
  assert (Hl : lookup_entry (rt_t s) 0 =
    Some (fold_left (lookup_step (rt_t s) 0) (range (r_extra e) (Z.of_nat (length (rt_t s)))) i)).
  { unfold lookup_entry. rewrite (proj2 (list_find_Some _ _ i e)); [done|].
    split; [done|]. split; [done|]. intros j f Hf Hj. by rewrite (Hb j f Hj Hf). }
  rewrite Hl. destruct (lookup_zero_fold noutputs s
    (range (r_extra e) (Z.of_nat (length (rt_t s)))) i e Hok Hz He Hr) as (e' & He' & Hr').
  rewrite hbind_put. unfold push_along. rewrite hbind_get. cbn [rt_t mbind option_bind].
  rewrite He'. hrun. unfold real in Hr'. apply Z.ltb_ge in Hr'.
  by rewrite (proj2 (Z.leb_gt 0 (r_port e'))) by lia.
Qed.

(** ** Properties *)

(** C16: [LinearIPLookup] routes by longest prefix.  On a reachable table a packet for any
    address but 0.0.0.0 leaves on the port of a matching prefix at least as specific as every
    other matching one, with that route's gateway, when it has one, as the new destination
    annotation; without a matching prefix it is dropped.  The caches are transparent, and
    the routes do not change. *)
Theorem LinearIPLookup_push_longest noutputs s a p :
  reachable noutputs s -> dst_ip_anno p = Some a -> in32 a -> a <> 0 ->
  exists s', routes (rt_t s') = routes (rt_t s) /\
    ((exists gw port, longest_match (routes (rt_t s)) a (gw, port) /\
       0 <= port < Z.of_nat noutputs /\
       LinearIPLookup_push noutputs p s =
         Ok (tt, s', [Push (Z.to_nat port) (if gw =? 0 then p else set_dst_ip_anno gw p)])) \/
     (no_match (routes (rt_t s)) a /\
       LinearIPLookup_push noutputs p s = Ok (tt, s', [Kill p]))).
Proof.
  intros Hs Hd Ha H0.
  destruct (LinearIPLookup_push_run noutputs s a p (reachable_ok _ _ Hs) Hd Ha H0)
    as (s' & _ & E & _ & H). exists s'. by rewrite E.
Qed.

(** C17: the element's own [check()] never complains: next pointers, duplicate prefixes and
    both caches are right in every reachable table. *)
Theorem LinearIPLookup_check_invariant noutputs s : reachable noutputs s -> check s = true.
Proof. intros H. apply (check_ok noutputs). by apply reachable_ok. Qed.

(** C18: [LinearIPLookup] implements the map from prefixes to gateways and ports that
    [IPRouteTable] documents: [add_route] inserts, refuses or replaces an existing prefix and
    reports the old route, [remove_route] deletes or answers that there is no such route, its
    [assert] about the zero route never fails, and the table stays reachable.  The one departure
    is spelt out in [no_such_route]: removing 0.0.0.0/32 without a port when there is no such
    route may find a killed slot and answer 0 with that slot as the old route; the routes stay as
    they are. *)
Theorem LinearIPLookup_refines_map noutputs s r :
  reachable noutputs s ->
  (route_ok noutputs r -> forall replace, exists code old s',
     add_route r replace s = (code, old, s') /\ reachable noutputs s' /\
     add_result noutputs (routes (rt_t s)) r replace code old (routes (rt_t s'))) /\
  (exists code old s',
     remove_route r s = Ok (code, old, s') /\ reachable noutputs s' /\
     remove_result noutputs (routes (rt_t s)) r code old (routes (rt_t s'))).
Proof.
  intros Hs. split.
  - intros Hr b. destruct (add_route_run noutputs r b s (reachable_ok _ _ Hs) Hr)
      as (c & o & s' & E & _ & H). exists c, o, s'. split; [done|]. split; [|done].
    by apply (reach_add _ s r b c o).
  - destruct (remove_route_run noutputs r s (reachable_ok _ _ Hs))
      as (c & o & s' & E & _ & H). exists c, o, s'. split; [done|]. split; [|done].
    by apply (reach_remove _ s r c o).
Qed.

(** C19: a [ctrl] write is atomic, for any routing table that keeps the interface's laws.  A
    list of commands without blank lines either succeeds and does what the commands say, in
    order, or fails and leaves the routes as they were.  The routes are whole prefixes
    ([cp_ip_route] masks them); 0.0.0.0/32 is among them, also where a remove of it only finds a
    killed slot and is logged as an addition. *)
Theorem ctrl_handler_atomic {T} `{RouteTableLaws T noutputs ok view} lines t :
  ok t -> Forall line_ok lines ->
  exists r t', ctrl_handler noutputs (S (length lines)) lines t = Some (Ok (r, t')) /\ ok t' /\
    ((r = 0 /\ view t' = apply_lines lines (view t)) \/ (r < 0 /\ view t' = view t)).
Proof. intros Hok Hl. by apply (ctrl_loop_run lines [] t (view t)). Qed.

(** A [ctrl] write hangs on a blank line: after commands that succeed, the loop does
    [continue] without moving on, and no amount of fuel lets it return. *)
Theorem ctrl_handler_blank_hangs {T} `{IPRouteTable T} noutputs n lines rest t t' :
  ctrl_handler noutputs n lines t = Some (Ok (0, t')) ->
  forall fuel, ctrl_handler noutputs fuel (lines ++ BlankLine :: rest) t = None.
Proof. apply ctrl_loop_blank. Qed.

(** 0.0.0.0 is special.  A killed slot looks like the route 0.0.0.0/32, so once a route
    has been removed from a slot before any that contains 0.0.0.0, and no real 0.0.0.0/32
    exists, a packet for 0.0.0.0 is given the port [-0x80000000]: the assertion in [output()]
    fails, even where a default route would match. *)
Theorem killed_slot_captures_zero noutputs s i e p :
  reachable noutputs s -> rt_zero s = None -> rt_t s !! i = Some e -> real e = false ->
  (forall j f, (j < i)%nat -> rt_t s !! j = Some f -> contains f 0 = false) ->
  dst_ip_anno p = Some 0 ->
  LinearIPLookup_push noutputs p s = Fault AssertFailed.
Proof. intros Hs. apply push_zero_faults, (reachable_ok _ _ Hs). Qed.

(** ** Witnesses: 10.0.0.0/8 on port 1 and a default route through a gateway on port 0 *)
Definition sample_net : IPRoute := Route 10 (make_prefix 8) 0 1 0.
Definition sample_default : IPRoute := Route 0 (make_prefix 0) 16777226 0 0.
Definition sample_table : table :=
  snd (add_route sample_default false (snd (add_route sample_net false (new_table None None)))).
Definition sample_to (a : Z) : packet :=
  set_dst_ip_anno a (MkPacket [] [] [] false (replicate anno_size 0) HOST None None None).

Lemma sample_net_ok : route_ok 2 sample_net.
Proof.
  constructor; [split; vm_compute; congruence| |vm_compute; reflexivity|split; vm_compute; congruence].
  change (make_prefix 8 ∈ prefix_masks). apply list_elem_of_fmap. exists 8%nat. by rewrite elem_of_seq; lia.
Qed.
Lemma sample_default_ok : route_ok 2 sample_default.
Proof.
  constructor; [split; vm_compute; congruence| |vm_compute; reflexivity|split; vm_compute; congruence].
  change (make_prefix 0 ∈ prefix_masks). apply list_elem_of_fmap. exists 0%nat. by rewrite elem_of_seq; lia.
Qed.
Lemma sample_table_reachable : reachable 2 sample_table.
Proof.
  apply (reach_add 2 (snd (add_route sample_net false (new_table None None))) sample_default
    false 0 None); [|apply sample_default_ok|vm_compute; reflexivity].
  apply (reach_add 2 (new_table None None) sample_net false 0 None);
    [apply reach_new|apply sample_net_ok|vm_compute; reflexivity].
Qed.
Theorem LinearIPLookup_push_longest_witness :
  exists s', routes (rt_t s') = routes (rt_t sample_table) /\
    ((exists gw port, longest_match (routes (rt_t sample_table)) 16777226 (gw, port) /\
       0 <= port < 2 /\
       LinearIPLookup_push 2 (sample_to 16777226) sample_table =
         Ok (tt, s', [Push (Z.to_nat port) (if gw =? 0 then sample_to 16777226
                      else set_dst_ip_anno gw (sample_to 16777226))])) \/
     (no_match (routes (rt_t sample_table)) 16777226 /\
       LinearIPLookup_push 2 (sample_to 16777226) sample_table =
         Ok (tt, s', [Kill (sample_to 16777226)]))).
Proof.
  apply (LinearIPLookup_push_longest 2 sample_table 16777226 (sample_to 16777226)
    sample_table_reachable); [reflexivity|cbv; split; congruence|discriminate].
Defined.

Theorem LinearIPLookup_check_invariant_witness : check sample_table = true.
Proof. apply (LinearIPLookup_check_invariant 2 sample_table sample_table_reachable). Defined.

Theorem LinearIPLookup_refines_map_witness :
  exists code old s', remove_route sample_net sample_table = Ok (code, old, s') /\
    reachable 2 s' /\
    remove_result 2 (routes (rt_t sample_table)) sample_net code old (routes (rt_t s')).
Proof.
  apply (LinearIPLookup_refines_map 2 sample_table sample_net sample_table_reachable).
Defined.

(** A remove that matches a killed slot, then a command that fails. *)
Definition sample_zero : IPRoute := Route 0 0xFFFFFFFF 0 (-1) 0.
Definition sample_lines : list ctrl_line :=
  [Command CMD_REMOVE (Some sample_net); Command CMD_REMOVE (Some sample_zero);
   Command CMD_REMOVE (Some sample_net)].
Theorem ctrl_handler_atomic_witness :
  exists r t', ctrl_handler 2 4 sample_lines sample_table = Some (Ok (r, t')) /\ table_ok 2 t' /\
    ((r = 0 /\ routes (rt_t t') = apply_lines sample_lines (routes (rt_t sample_table))) \/
     (r < 0 /\ routes (rt_t t') = routes (rt_t sample_table))).
Proof.
  apply (ctrl_handler_atomic (ok := table_ok 2) (view := fun s => routes (rt_t s))
    sample_lines sample_table (reachable_ok _ _ sample_table_reachable)).
  destruct sample_net_ok as [H1 H2 H3 _].
  constructor; [exact (conj H1 (conj H2 H3))|].
  constructor; [|constructor; [exact (conj H1 (conj H2 H3))|constructor]].
  split; [split; vm_compute; congruence|]. split; [|reflexivity].
  change (make_prefix 32 ∈ prefix_masks). apply list_elem_of_fmap. exists 32%nat. by rewrite elem_of_seq; lia.
Defined.

Theorem ctrl_handler_blank_hangs_witness :
  ctrl_handler 2 1000 ([Command CMD_REMOVE (Some sample_net)] ++ BlankLine :: []) sample_table
  = None.
Proof.
  eapply (ctrl_handler_blank_hangs 2 2 [Command CMD_REMOVE (Some sample_net)] []).
  vm_compute. reflexivity.
Defined.

Definition sample_removed : table :=
  Table [kill_route (set_extra 0x7FFFFFFF sample_net); set_extra 0x7FFFFFFF sample_default]
    None 0 None 0 None.
Lemma sample_removed_reachable : reachable 2 sample_removed.
Proof.
  apply (reach_remove 2 sample_table sample_net 0 (Some (set_extra 0x7FFFFFFF sample_net)));
    [apply sample_table_reachable|vm_compute; reflexivity].
Qed.
Theorem killed_slot_captures_zero_witness :
  LinearIPLookup_push 2 (sample_to 0) sample_removed = Fault AssertFailed.
Proof.
  apply (killed_slot_captures_zero 2 sample_removed 0 (kill_route (set_extra 0x7FFFFFFF sample_net))
    (sample_to 0) sample_removed_reachable); [reflexivity|reflexivity|reflexivity|lia|reflexivity].
Defined.

(** The killed slot answers a remove of a route that is not there. *)
Example remove_matches_killed :
  routes (rt_t sample_removed) !! rkey sample_zero = None /\
  exists o s', remove_route sample_zero sample_removed = Ok (0, Some o, s') /\ killed o.
Proof. split; [reflexivity|]. eexists _, _. split; [vm_compute; reflexivity|by split]. Qed.
