(* ===== verification/Registration.v ===== *)
(** * Registering with a home agent, end to end

    The IP elements of the three nodes composed along the scripts' paths: the mobile node's
    [RegReq], the foreign agent's input path, [Relay], its [rt] and the forwarding path of its
    public interface, the home agent's input path and [RegRep], the reply back through
    [Relay], and the mobile node's [RegNode].  Between two nodes a packet crosses a link: the
    receiver has a fresh packet with 14 bytes of link-layer header before the same bytes.  A
    link stands for the sender's [ARPQuerier], the wire and the receiver's [CheckSolicitation],
    [HostEtherFilter] and [Classifier]; [IPClassifier] is represented by its verdict, that UDP
    port 434 goes to the registration handlers. *)
From Stdlib Require Import ZArith Lia.
From stdpp Require Import base list numbers option.
From S2P Require Import RouteTable RouteSlots RouteSpec GwOptions Fragment.
From S2P Require Import Prelude Checksum Vector HashMap Packet Wire Build Mobility.
From S2P Require Import HomeAgent MobileNode ForeignAgent IPPath.

(** What a device delivers: [pre] is the link-layer header. *)
Definition received (pre d : list Z) : packet :=
  MkPacket (replicate 28 0) (pre ++ d) [] false (replicate anno_size 0) HOST None None None.

(** The packet an element passes on without sending anything else, and the first one a handler
    pushes on a port. *)
Definition passed {S} (r : res (option packet * S * list event)) : option packet :=
  match r with Ok (Some p, _, []) => Some p | _ => None end.
Definition pushed_on {S} (port : nat) (r : res (unit * S * list event)) : option (packet * S) :=
  match r with Ok (_, s, t) => p ← head (pushed port t); Some (p, s) | Fault _ => None end.

(** [ip :: Strip(14) -> CheckIPHeader], the shared IP input path of every node. *)
Definition ip_input (c : check_conf) (p : packet) : option packet :=
  p ← passed (Strip_simple_action 14 p tt);
  passed (CheckIPHeader_simple_action c p (CheckState 0 None)).

(** What reaches that path from a device: [Paint(color)]. *)
Definition arrives (color : Z) (pre d : list Z) : option packet :=
  passed (Paint_simple_action PAINT_ANNO_OFFSET color (received pre d) tt).

(** [fa.click]: [ip -> regs[0] -> Unstrip(14)], then [Relay]. *)
Definition relay_input (m : memory) (c : check_conf) (p : packet) : option packet :=
  p ← ip_input c p; passed (Unstrip_simple_action m 14 p tt).
(** [fa.click]: the forwarding path of an interface, behind its port of [rt]. *)
Record forwarding : Type := Forwarding {
  fw_address : Z; fw_gw : gw_conf; fw_gw_env : gw_env; fw_ttl : ttl_conf;
  fw_frag : frag_conf; fw_frag_env : frag_env
}.
Definition forward_path (m : memory) (color : Z) (c : forwarding) (p : packet) : option packet :=
  p ← passed (DropBroadcasts_simple_action 1 p 0);
  p ← passed (PaintTee_simple_action PAINT_ANNO_OFFSET color p tt);
  p ← passed (IPGWOptions_simple_action (fw_gw c) (fw_gw_env c) false p 0);
  p ← passed (FixIPSrc_simple_action m (fw_address c) p tt);
  p ← passed (DecIPTTL_simple_action m (fw_ttl c) p 0);
  fst <$> pushed_on 0 (IPFragmenter_push (fw_frag c) (fw_frag_env c) p (FragState 0 0)).

(** [fa.click]: [relay[1] -> Strip(14) -> SetIPChecksum -> rt]; [rt] sends the request out of
    the public interface, its port 2. *)
Definition relay_to_home (m : memory) (rt : table) (c : forwarding) (p : packet) : option packet :=
  p ← passed (Strip_simple_action 14 p tt);
  p ← passed (SetIPChecksum_simple_action m p 0);
  '(p, _) ← pushed_on 2 (LinearIPLookup_push 3 p rt);
  forward_path m 2 c p.
(** [fa.click]: [relay[0] -> MarkIPHeader(0) -> SetIPChecksum]. *)
Definition relay_to_node (m : memory) (p : packet) : option packet :=
  p ← passed (MarkIPHeader_simple_action 0 p tt);
  passed (SetIPChecksum_simple_action m p 0).

Record links : Type := Links {
  ln_memory : nat -> Z; ln_check : check_conf; ln_public : forwarding; ln_rt : table;
  ln_limit : Z; ln_rand1 : Z; ln_rand2 : Z;
  ln_pre1 : list Z; ln_pre2 : list Z; ln_pre3 : list Z; ln_pre4 : list Z
}.

Section Round.
Context {M : Type} `{AssocMap packet M}.

(** One registration: node to foreign agent, to home agent, and back.  Each side's
    [Classifier], ARP elements and Ethernet filters are part of the links, and [IPClassifier]
    sends UDP port 434 to its output 0. *)
Definition registration_round (l : links) (e : reg_env) (dest lifetime coaddress priv : Z)
    (mn : mninfo M) (f : fa) (h : ha) : option (mninfo M * fa * ha) :=
  let m := Some (ln_memory l) in
  match RegReq_make_packet m e dest lifetime coaddress mn with
  | Ok (Some q, mn, _) =>
      p ← arrives 1 (ln_pre1 l) (pk_data q);
      p ← relay_input m (ln_check l) p;
      '(p, f) ← pushed_on 1 (Relay_push m true (ln_rand1 l) (ln_limit l) priv p f);
      p ← relay_to_home m (ln_rt l) (ln_public l) p;
      p ← arrives 2 (ln_pre2 l) (pk_data p);
      p ← ip_input (ln_check l) p;
      '(p, h) ← pushed_on 1 (RegRep_push m p h);
      p ← arrives 2 (ln_pre3 l) (pk_data p);
      p ← relay_input m (ln_check l) p;
      '(p, f) ← pushed_on 0 (Relay_push m true (ln_rand2 l) (ln_limit l) priv p f);
      p ← relay_to_node m p;
      p ← arrives 1 (ln_pre4 l) (pk_data p);
      p ← ip_input (ln_check l) p;
      match RegNode_push p mn with
      | Ok (_, mn, _) => Some (mn, f, h)
      | Fault _ => None
      end
  | _ => None
  end.
End Round.

(** ** The tunnel *)

(** [ha.click]: [Agent[1] -> Encapsulator]; the link; [fa.click]: [ip], and behind the local
    port of [rt] [CheckEncap[0] -> StripIPHeader -> CheckIPHeader]. *)
Definition tunnel (m m2 : memory) (c : check_conf) (srcIp : Z) (pre : list Z) (p : packet) (h : ha)
  : option packet :=
  '(q, _) ← pushed_on 0 (Encapsulator_push m m2 srcIp p h);
  q ← ip_input c (received pre (pk_data q));
  '(q, _) ← pushed_on 0 (CheckEncap_push q tt);
  q ← passed (StripIPHeader_simple_action q tt);
  passed (CheckIPHeader_simple_action c q (CheckState 0 None)).

(** ** The legs *)

(** What [Strip] leaves of a received datagram, whatever its annotations. *)
Lemma stripped_data a pre i l :
  length pre = 14%nat -> 20 + Z.of_nat (length l) < 65536 ->
  let p := pull 14 (set_anno a (received pre (enc_ip i ++ l))) in
  pk_data p = enc_ip i ++ l ++ [] /\ pk_head p = replicate 28 0 ++ pre /\
  Z.of_nat (plength p) < 2147483648.
Proof.
  intros Hpre Hl. set (p := set_anno a (received pre (enc_ip i ++ l))). cbv zeta.
  assert (Hplen : plength p = (34 + length l)%nat).
  { unfold plength, p. cbn [pk_data received set_anno]. rewrite !length_app. cbn. lia. }
  assert (Hd : pk_data (pull 14 p) = enc_ip i ++ l ++ []).
  { rewrite pull_data, app_nil_r. by apply drop_app_length'. }
  split; [exact Hd|]. split.
  - unfold pull. rewrite Hplen. cbn [pk_head]. destruct (Nat.ltb_spec (34 + length l) 14); [lia|].
    f_equal. by apply take_app_length'.
  - unfold plength. rewrite Hd, !length_app. cbn. lia.
Qed.

Section IpInput.
Context (c : check_conf) (a pre : list Z) (i : ip_hdr) (l : list Z).
Hypothesis Hc : default_check c.
Hypothesis Hpre : length pre = 14%nat.
Hypothesis Hok : ip_ok i.
Hypothesis Hv : i_vhl i = 69.
Hypothesis Hb : bytes_ok l.
Hypothesis Hlen : i_len i = htons (20 + Z.of_nat (length l)).
Hypothesis Hl : 20 + Z.of_nat (length l) < 65536.
Hypothesis Ha : length a = anno_size.

(** A received datagram passes the IP input path when its header verifies. *)
Lemma ip_input_run :
  ip_verifies i ->
  exists q, ip_input c (set_anno a (received pre (enc_ip i ++ l))) = Some q /\
    pk_data q = enc_ip i ++ l /\ pk_head q = replicate 28 0 ++ pre /\ pk_shared q = false /\
    marked q /\ length (pk_anno q) = anno_size /\ dst_ip_anno q = Some (i_dst i) /\
    transport_header_offset q = Ok 20 /\ drop 4 (pk_anno q) = drop 4 a /\ pk_ptype q = HOST.
Proof.
  intros Hver. destruct (stripped_data a pre i l Hpre Hl) as (Hd & Hh & Hpl).
  set (p := set_anno a (received pre (enc_ip i ++ l))) in *.
  destruct (CheckIPHeader_plain c (pull 14 p) (CheckState 0 None) i l [] Hc Hd Hok Hv Hlen Hl)
    as [Hacc _]; [by rewrite app_nil_r|exact Hpl|exact Ha|].
  destruct (Hacc Hver) as (q & Hq & Hdq & Hhq & Hs & Hp & Hm & Ht & Hla & Hdst & Hdr).
  exists q. split; [|by rewrite Hhq, Hh in *].
  unfold ip_input, Strip_simple_action, passed, hret. cbn [mbind option_bind]. by rewrite Hq.
Qed.
Lemma ip_input_bad : ~ ip_verifies i -> ip_input c (set_anno a (received pre (enc_ip i ++ l))) = None.
Proof.
  intros Hver. destruct (stripped_data a pre i l Hpre Hl) as (Hd & Hh & Hpl).
  set (p := set_anno a (received pre (enc_ip i ++ l))) in *.
  destruct (CheckIPHeader_plain c (pull 14 p) (CheckState 0 None) i l [] Hc Hd Hok Hv Hlen Hl)
    as [_ Hrej]; [by rewrite app_nil_r|exact Hpl|exact Ha|].
  unfold ip_input, Strip_simple_action, passed, hret. cbn [mbind option_bind]. by rewrite Hrej.
Qed.
End IpInput.

(** What a device delivers, painted. *)
Definition painted (color : Z) : list Z := wrn 1 (replicate anno_size 0) PAINT_ANNO_OFFSET color.
Lemma arrives_run color pre d : arrives color pre d = Some (set_anno (painted color) (received pre d)).
Proof. reflexivity. Qed.
Lemma painted_size color : length (painted color) = anno_size.
Proof. reflexivity. Qed.

(** Into [Relay]: the frame again, now marked. *)
Lemma relay_input_run m c a pre i l :
  length a = anno_size ->
  default_check c -> length pre = 14%nat -> ip_ok i -> i_vhl i = 69 -> bytes_ok l ->
  i_len i = htons (20 + Z.of_nat (length l)) -> 20 + Z.of_nat (length l) < 65536 ->
  ip_verifies i ->
  exists q, relay_input m c (set_anno a (received pre (enc_ip i ++ l))) = Some q /\
    pk_data q = pre ++ enc_ip i ++ l /\ pk_shared q = false /\ nh_rel q = Some 14 /\
    length (pk_anno q) = anno_size /\ drop 4 (pk_anno q) = drop 4 a /\ pk_ptype q = HOST.
Proof.
  intros Hsize Hc Hpre Hok Hv Hb Hlen Hl Hver.
  destruct (ip_input_run c a pre i l) as (q & Hq & Hd & Hh & Hs & Hm & Ha & _ & _ & Hdr & Hpt);
    try assumption.
  unfold relay_input. rewrite Hq. cbn [mbind option_bind].
  assert (Hhr : headroom q = 42%nat).
  { unfold headroom. rewrite Hh, length_app, Hpre. reflexivity. }
  exists (data_back 14 q). split.
  { unfold Unstrip_simple_action, push. rewrite Hhr, Hs. reflexivity. }
  split; [|split; [exact Hs|split; [|by split_and!]]].
  - unfold data_back. cbn [pk_data]. rewrite Hd, Hhr, Hh.
    rewrite drop_app_length' by reflexivity. reflexivity.
  - rewrite nh_rel_data_back by (rewrite Hhr; lia). rewrite (proj1 (marked_nh_rel q) Hm). reflexivity.
Qed.

Lemma nh_rel_pull n q :
  (n <= plength q)%nat -> nh_rel (pull n q) = (fun o => o - Z.of_nat n) <$> nh_rel q.
Proof.
  intros Hn. unfold nh_rel, pull, headroom in *. destruct (Nat.ltb_spec (plength q) n); [lia|].
  cbn [pk_head pk_nh]. rewrite length_app, length_take. unfold plength in *.
  destruct (pk_nh q); [|done]. cbn. f_equal. lia.
Qed.

Definition same_route (i j : ip_hdr) : Prop :=
  i_vhl j = i_vhl i /\ i_len j = i_len i /\ i_off j = i_off i /\ i_p j = i_p i /\
  i_src j = i_src i /\ i_dst j = i_dst i.

(** An annotation behind the destination address. *)
Lemma anno_u8_rest q a k v :
  drop 4 (pk_anno q) = drop 4 a -> rdn 1 a (4 + k) = Some v -> (4 + k < anno_size)%nat ->
  anno_u8 (4 + k) q = Ok v.
Proof.
  intros Hd Hv Hk. unfold anno_u8. rewrite (proj2 (Nat.ltb_lt _ _)) by exact Hk. unfold ld.
  rewrite (rdn_ext 1 _ a), Hv; [done|]. intros j Hj.
  replace j with (4 + (j - 4))%nat by lia. rewrite <- !lookup_drop. by rewrite Hd.
Qed.

(** The forwarding path of a datagram without options that fits. *)
Lemma forward_path_run m color c q i l k :
  ttl_active (fw_ttl c) = true -> ttl_multicast (fw_ttl c) = true -> fr_mtu (fw_frag c) = 1500 ->
  marked q -> pk_data q = enc_ip i ++ l -> pk_ptype q = HOST ->
  anno_u8 PAINT_ANNO_OFFSET q = Ok k -> k <> color -> anno_u8 FIX_IP_SRC_ANNO_OFFSET q = Ok 0 ->
  ip_ok i -> i_vhl i = 69 -> 1 < i_ttl i -> 20 + Z.of_nat (length l) <= 1500 ->
  exists q', forward_path (Some m) color c q = Some q' /\ pk_data q' = enc_ip (dec_ttl_hdr i) ++ l.
Proof.
  intros Hact Hmul Hmtu Hm Hd Hpt Hpaint Hk Hfix Hok Hv Ht Hl.
  pose proof (DecIPTTL_run m (fw_ttl c) q 0 i l Hact Hmul Hm Hd Hok) as Hdec.
  destruct (Z.leb_spec (i_ttl i) 1) as [Hle|_]; [lia|].
  destruct Hdec as (q' & Hq' & Hd' & Hm' & _).
  assert (Hvhl : nh_hl q = Ok 5).
  { unfold nh_hl. rewrite marked_getf by exact Hm.
    rewrite (getf_val q 0 ip_vhl 69); [done| |cbn; lia].
    rewrite Hd. exact (eq_trans (proj1 (loads_plain i l Hok)) (f_equal Some Hv)). }
  assert (Hnet : has_network_header q = true) by (unfold has_network_header; by rewrite Hm).
  exists q'. split; [|exact Hd']. unfold forward_path.
  assert (E1 : DropBroadcasts_simple_action 1 q 0 = Ok (Some q, 0, [])).
  { rewrite DropBroadcasts_run, Hpt. reflexivity. }
  assert (E2 : PaintTee_simple_action PAINT_ANNO_OFFSET color q tt = Ok (Some q, tt, [])).
  { unfold PaintTee_simple_action. rewrite Hpaint. hrun. by rewrite (proj2 (Z.eqb_neq _ _) Hk). }
  assert (E3 : IPGWOptions_simple_action (fw_gw c) (fw_gw_env c) false q 0 = Ok (Some q, 0, [])).
  { unfold IPGWOptions_simple_action. rewrite Hnet, Hvhl. hrun. reflexivity. }
  assert (E4 : FixIPSrc_simple_action (Some m) (fw_address c) q tt = Ok (Some q, tt, [])).
  { unfold FixIPSrc_simple_action. rewrite Hfix. hrun. reflexivity. }
  rewrite E1. cbn [passed mbind option_bind]. rewrite E2. cbn [passed mbind option_bind].
  rewrite E3. cbn [passed mbind option_bind]. rewrite E4. cbn [passed mbind option_bind].
  rewrite Hq'. cbn [passed mbind option_bind].
  rewrite (IPFragmenter_passes _ _ q' _ (20 + Z.of_nat (length l))); [done| |].
  - unfold network_length. rewrite Hm'. cbn [opt_res].
    assert (E : plength q' = (20 + length l)%nat) by (unfold plength; rewrite Hd', length_app; done).
    rewrite E, bind_ok. f_equal. lia.
  - rewrite Hmtu. change (s32 1500) with 1500. exact Hl.
Qed.

(** Every longest match of an address leads to [port], and there is one. *)
Definition routes_to (t : table) (a : Z) (port : Z) : Prop :=
  (exists k v, routes (rt_t t) !! k = Some v /\ prefix_matches k a) /\
  forall gw q, longest_match (routes (rt_t t)) a (gw, q) -> q = port.
Lemma routes_to_run noutputs t a p port :
  table_ok noutputs t -> routes_to t a (Z.of_nat port) -> dst_ip_anno p = Some a -> in32 a -> a <> 0 ->
  exists t' gw, pushed_on port (LinearIPLookup_push noutputs p t) =
    Some (if gw =? 0 then p else set_dst_ip_anno gw p, t').
Proof.
  intros Hok [(k & v & Hkv & Hpm) Hto] Hd Ha H0.
  destruct (LinearIPLookup_push_run noutputs t a p Hok Hd Ha H0)
    as (t' & _ & _ & _ & [(gw & q & Hlong & _ & Hrun)|[Hno _]]); [|by destruct (Hno k v Hkv)].
  rewrite (Hto gw q Hlong), Nat2Z.id in Hrun. exists t', gw. rewrite Hrun.
  cbn [pushed_on pushed omap list_omap]. by rewrite Nat.eqb_refl.
Qed.

(** Out of [Relay] to the home agent: the header checksum is right again. *)
Lemma relay_to_home_run m t c q pre i l ha :
  ttl_active (fw_ttl c) = true -> ttl_multicast (fw_ttl c) = true -> fr_mtu (fw_frag c) = 1500 ->
  table_ok 3 t -> routes_to t ha 2 -> in32 ha -> ha <> 0 -> dst_ip_anno q = Some ha ->
  drop 4 (pk_anno q) = drop 4 (painted 1) -> pk_ptype q = HOST -> length pre = 14%nat ->
  pk_data q = pre ++ enc_ip i ++ l -> pk_shared q = false -> nh_rel q = Some 14 ->
  ip_ok i -> i_vhl i = 69 -> 1 < i_ttl i -> 20 + Z.of_nat (length l) <= 1500 ->
  exists q' j, relay_to_home (Some m) t c q = Some q' /\ pk_data q' = enc_ip j ++ l /\
    ip_verifies j /\ ip_ok j /\ same_route i j.
Proof.
  intros Hact Hmul Hmtu Htab Hto Hha H0 Hdst Hdr Hpt Hpre Hd Hs Hn Hok Hv Ht Hl.
  set (q1 := pull 14 q).
  assert (Hd1 : pk_data q1 = enc_ip i ++ l) by (unfold q1; rewrite pull_data, Hd; by apply drop_app_length').
  assert (Hpl : plength q = (34 + length l)%nat)
    by (unfold plength; rewrite Hd, !length_app, Hpre; cbn; lia).
  assert (Hm1 : marked q1).
  { apply marked_nh_rel. unfold q1. rewrite nh_rel_pull, Hn by (rewrite Hpl; lia). reflexivity. }
  assert (Hpl1 : Z.of_nat (plength q1) < 4294967296)
    by (unfold plength; rewrite Hd1, length_app; cbn; lia).
  assert (Hq1 : pk_shared q1 = pk_shared q /\ pk_anno q1 = pk_anno q /\ pk_ptype q1 = pk_ptype q)
    by done.
  destruct Hq1 as (Es & Ea & Ep). rewrite Hs in Es. rewrite Hpt in Ep.
  destruct (SetIPChecksum_marked (Some m) q1 0 i l Hm1 Es Hd1 Hv Hok Hpl1) as [Hset Hver].
  set (j := ip_with_sum _ i) in *. set (q2 := set_data (enc_ip j ++ l) q1) in *.
  assert (Hj : ip_ok j) by (destruct Hok; constructor; cbn; try assumption; apply cksum_range).
  destruct (routes_to_run 3 t ha q2 2 Htab Hto) as (t' & gw & Hrt); [|assumption..|].
  { unfold dst_ip_anno. change (pk_anno q2) with (pk_anno q1). by rewrite Ea. }
  set (q3 := if gw =? 0 then q2 else set_dst_ip_anno gw q2) in *.
  assert (H3 : marked q3 /\ pk_data q3 = enc_ip j ++ l /\ pk_ptype q3 = HOST /\
    drop 4 (pk_anno q3) = drop 4 (painted 1)).
  { assert (E : pk_anno q2 = pk_anno q) by exact Ea.
    unfold q3. destruct (gw =? 0); [by rewrite E|]. split_and!; [exact Hm1|done|exact Ep|].
    cbn [pk_anno set_dst_ip_anno set_anno]. rewrite drop_wrn by (cbn; lia). by rewrite E. }
  destruct H3 as (Hm3 & Hd3 & Hp3 & Ha3).
  destruct (forward_path_run m 2 c q3 j l 1) as (q4 & Hq4 & Hd4); try assumption; try reflexivity.
  { apply (anno_u8_rest q3 (painted 1) 12 1 Ha3); [reflexivity|unfold anno_size; lia]. }
  { discriminate. }
  { apply (anno_u8_rest q3 (painted 1) 15 0 Ha3); [reflexivity|unfold anno_size; lia]. }
  destruct (dec_ttl_verifies j Hj Ht Hver) as [Hj' Hver'].
  exists q4, (dec_ttl_hdr j). split; [|by split_and!].
  unfold relay_to_home, Strip_simple_action, hret. cbn [passed mbind option_bind]. fold q1.
  rewrite Hset. cbn [passed mbind option_bind]. rewrite Hrt. exact Hq4.
Qed.

(** Out of [Relay] to the mobile node. *)
Lemma relay_to_node_run m q i l :
  pk_data q = enc_ip i ++ l -> pk_shared q = false -> ip_ok i -> i_vhl i = 69 ->
  Z.of_nat (length l) < 65536 ->
  exists q' c, relay_to_node (Some m) q = Some q' /\ pk_data q' = enc_ip (ip_with_sum c i) ++ l /\
    ip_verifies (ip_with_sum c i) /\ in16 c.
Proof.
  intros Hd Hs Hok Hv Hl.
  assert (Hpl : plength q = (20 + length l)%nat) by (unfold plength; rewrite Hd, length_app; done).
  assert (Hvhl : getf q 0 ip_vhl = Ok 69).
  { apply getf_val; [|cbn; lia]. rewrite Hd.
    exact (eq_trans (proj1 (loads_plain i l Hok)) (f_equal Some Hv)). }
  set (q1 := MkPacket (pk_head q) (pk_data q) (pk_tail q) (pk_shared q) (pk_anno q) (pk_ptype q)
    (pk_mac q) (Some (Z.of_nat (headroom q + 0))) (Some (Z.of_nat (headroom q + 0) + 20))).
  assert (Hmark : MarkIPHeader_simple_action 0 q tt = Ok (Some q1, tt, [])).
  { unfold MarkIPHeader_simple_action. hrun. change (Z.shiftl (69 mod 16) 2) with 20.
    unfold set_network_header. unfold buffer_length. rewrite Hpl.
    rewrite (proj2 (Z.leb_le 0 _)) by lia. rewrite (proj2 (Z.leb_le _ _)) by lia.
    cbn [andb]. hrun. reflexivity. }
  assert (Hm1 : marked q1) by (unfold marked, q1, headroom; cbn; by rewrite Nat.add_0_r).
  assert (Hpl1 : Z.of_nat (plength q1) < 4294967296)
    by (change (plength q1) with (plength q); lia).
  destruct (SetIPChecksum_marked (Some m) q1 0 i l Hm1 Hs Hd Hv Hok Hpl1) as [Hset Hver].
  eexists _, _. split; [|split; [|split; [exact Hver|apply cksum_range]]].
  - unfold relay_to_node. rewrite Hmark. cbn [passed mbind option_bind]. by rewrite Hset.
  - reflexivity.
Qed.

Record links_ok (l : links) : Prop := {
  lk_check : default_check (ln_check l);
  lk_active : ttl_active (fw_ttl (ln_public l)) = true;
  lk_multicast : ttl_multicast (fw_ttl (ln_public l)) = true;
  lk_mtu : fr_mtu (fw_frag (ln_public l)) = 1500;
  lk_rt : table_ok 3 (ln_rt l);
  lk_pre1 : length (ln_pre1 l) = 14%nat; lk_pre2 : length (ln_pre2 l) = 14%nat;
  lk_pre3 : length (ln_pre3 l) = 14%nat; lk_pre4 : length (ln_pre4 l) = 14%nat
}.

(** A datagram as it sits behind a link-layer header. *)
Lemma datagram_frame p q pre i u msg :
  datagram q i u msg -> length pre = 14%nat -> pk_data p = pre ++ enc_ip i ++ enc_udp u ++ msg ->
  length (pk_anno p) = anno_size -> frame p pre i u msg.
Proof. intros [] Hp Hd Ha. constructor; assumption. Qed.

Lemma datagram_len q i u msg :
  datagram q i u msg -> plength q = (20 + length (enc_udp u ++ msg))%nat /\
  i_len i = htons (20 + Z.of_nat (length (enc_udp u ++ msg))).
Proof.
  intros Hd. assert (E : plength q = (20 + length (enc_udp u ++ msg))%nat).
  { unfold plength. rewrite (dg_data _ _ _ _ Hd), (length_app (enc_ip i)). reflexivity. }
  split; [exact E|]. rewrite (dg_len _ _ _ _ Hd), E. f_equal. lia.
Qed.

Section Legs.
Context (l : links) (Hl : links_ok l).
Let m := ln_memory l.
Let from_device color pre d := set_anno (painted color) (received pre d).

(** The request reaches the home agent. *)
Lemma request_leg q i u r priv f :
  datagram q i u (enc_regreq r) -> regreq_ok r -> in32 (fa_address f) ->
  relay_accepts (ln_limit l) (length (fa_registrations f)) r ->
  rq_home_agent r <> 0 -> routes_to (ln_rt l) (rq_home_agent r) 2 ->
  exists p p1 p2 f' j u2,
    relay_input (Some m) (ln_check l) (from_device 1 (ln_pre1 l) (pk_data q)) = Some p /\
    pushed_on 1 (Relay_push (Some m) true (ln_rand1 l) (ln_limit l) priv p f) = Some (p1, f') /\
    relay_to_home (Some m) (ln_rt l) (ln_public l) p1 = Some p2 /\
    v_live (fa_requests f') = v_live (fa_requests f) ++ [entry_of (ln_pre1 l) i u r] /\
    fa_registrations f' = fa_registrations f /\ fa_address f' = fa_address f /\
    pk_data p2 = enc_ip j ++ enc_udp u2 ++ enc_regreq r /\ ip_ok j /\ udp_ok u2 /\
    ip_verifies j /\ i_vhl j = 69 /\ i_len j = htons 52 /\ i_src j = fa_address f /\
    u_dport u2 = u_dport u.
Proof.
  intros Hq Hr Hfa Hacc H0 Hto. destruct (datagram_len _ _ _ _ Hq) as [_ Hlen].
  assert (Hb : bytes_ok (enc_udp u ++ enc_regreq r)) by (apply bytes_ok_app; auto with bytes).
  destruct (relay_input_run (Some m) (ln_check l) (painted 1) (ln_pre1 l) i
    (enc_udp u ++ enc_regreq r) eq_refl (lk_check l Hl) (lk_pre1 l Hl) (dg_ip _ _ _ _ Hq) (dg_vhl _ _ _ _ Hq) Hb Hlen
    ltac:(cbn; lia) (dg_ipsum _ _ _ _ Hq)) as (p & Hp & Hd & Hs & Hn & Ha & Hdr & Hpt).
  pose proof (datagram_frame p q _ i u _ Hq (lk_pre1 l Hl) Hd Ha) as Hf.
  destruct (Relay_push_req_run m (ln_rand1 l) (ln_limit l) priv f p _ i u r Hf Hr Hfa Hacc)
    as (p1 & c & Hrun & Hd1 & Hc & Hok & Hdst & Hs1 & Ha1 & Hn1 & Hdr1 & Hpt1).
  rewrite Hs in Hdst. rewrite Hdr in Hdr1. rewrite Hpt in Hpt1.
  set (j := relayed_ip (fa_address f) 52 (rq_home_agent r) i) in *.
  set (u2 := UdpHdr (htons (relay_port (ln_rand1 l))) (u_dport u) (u_ulen u) c) in *.
  assert (Hj : ip_ok j).
  { destruct (dg_ip _ _ _ _ Hq), Hr. constructor; cbn; try assumption;
      [apply htons_range|unfold in8; lia]. }
  assert (Hu2 : udp_ok u2).
  { destruct (dg_udp _ _ _ _ Hq). constructor; cbn; try assumption. apply htons_range. }
  rewrite Hn in Hn1.
  destruct (relay_to_home_run m (ln_rt l) (ln_public l) p1 (ln_pre1 l) j
    (enc_udp u2 ++ enc_regreq r) (rq_home_agent r) (lk_active l Hl) (lk_multicast l Hl)
    (lk_mtu l Hl) (lk_rt l Hl) Hto ltac:(apply Hr) H0 Hdst Hdr1 Hpt1 (lk_pre1 l Hl) Hd1 Hs1 Hn1 Hj
    (dg_vhl _ _ _ _ Hq) ltac:(reflexivity) ltac:(cbn; lia)) as (p2 & j2 & Hp2 & Hd2 & Hv2 & Hj2 & Hsame).
  destruct Hsame as (E1 & E2 & _ & _ & E3 & _).
  exists p, p1, p2. eexists _, j2, u2. split; [|split; [|split; [exact Hp2|]]].
  - rewrite (dg_data _ _ _ _ Hq). exact Hp.
  - rewrite Hrun. reflexivity.
  - cbn [fa_requests fa_registrations fa_address set_requests]. rewrite vpush_back_live.
    split; [done|]. split; [done|]. split; [done|]. split; [exact Hd2|]. split; [exact Hj2|].
    split; [exact Hu2|]. split; [exact Hv2|].
    split; [rewrite E1; apply (dg_vhl _ _ _ _ Hq)|]. split; [exact E2|]. by split.
Qed.

(** The home agent answers. *)
Lemma answer_leg p j u r h :
  pk_data p = enc_ip j ++ enc_udp u ++ enc_regreq r -> ip_ok j -> udp_ok u -> regreq_ok r ->
  ip_verifies j -> i_vhl j = 69 -> i_len j = htons 52 ->
  rq_type r = 1 -> rq_home_address r <> rq_care_of_address r ->
  acceptance (ha_mobility_bindings h) r = 0 ->
  exists p1 p2 i3 u3,
    ip_input (ln_check l) (from_device 2 (ln_pre2 l) (pk_data p)) = Some p1 /\
    pushed_on 1 (RegRep_push (Some m) p1 h) =
      Some (p2, HA (ha_address h) (rebind r (ha_mobility_bindings h))) /\
    datagram p2 i3 u3 (enc_regrep (reply_to 0 r)) /\
    i_src i3 = i_dst j /\ i_dst i3 = i_src j /\ u_sport u3 = u_dport u.
Proof.
  intros Hd Hj Hu Hr Hv Hvhl Hlen Hty Hne Hacc.
  assert (Hb : bytes_ok (enc_udp u ++ enc_regreq r)) by (apply bytes_ok_app; auto with bytes).
  destruct (ip_input_run (ln_check l) (painted 2) (ln_pre2 l) j (enc_udp u ++ enc_regreq r)
    (lk_check l Hl) (lk_pre2 l Hl) Hj Hvhl Hb Hlen ltac:(cbn; lia) eq_refl Hv)
    as (p1 & Hp1 & Hd1 & _).
  assert (Hcar : carries_req 0 p1 j u r).
  { split; [|exact Hr]. split; [|exact Hj|exact Hu]. exists [], []. by rewrite app_nil_r. }
  destruct (RegRep_push_run m h p1 j u r Hcar Hty) as (p2 & i3 & u3 & Hrun & Hdg & E1 & E2 & E3 & _).
  rewrite Hacc in Hrun, Hdg. rewrite (proj2 (Z.eqb_neq _ _) Hne) in Hrun.
  exists p1, p2, i3, u3. split; [by rewrite Hd|]. split; [by rewrite Hrun|]. by split_and!.
Qed.

(** The reply comes back to the node. *)
Lemma reply_leg q i u r priv f it entry :
  datagram q i u (enc_regrep r) -> regrep_ok r -> in32 priv -> rp_code r = 0 ->
  Relay_find_request (rp_home_address r) 0 (v_live (fa_requests f)) = Some (it, entry) ->
  v_live (fa_requests f) !! it = Some entry -> v_live (fa_requests f) !! S it = None ->
  exists p p1 p2 p3 f' j u2,
    relay_input (Some m) (ln_check l) (from_device 2 (ln_pre3 l) (pk_data q)) = Some p /\
    pushed_on 0 (Relay_push (Some m) true (ln_rand2 l) (ln_limit l) priv p f) = Some (p1, f') /\
    relay_to_node (Some m) p1 = Some p2 /\
    ip_input (ln_check l) (from_device 1 (ln_pre4 l) (pk_data p2)) = Some p3 /\
    v_live (fa_requests f') = delete it (v_live (fa_requests f)) /\
    fa_registrations f' = Relay_update_registrations (rp_home_address r) (rp_lifetime r) entry
                            (fa_registrations f) /\
    datagram p3 j u2 (enc_regrep r) /\ i_src j = priv /\ i_dst j = rp_home_address r /\
    u_dport u2 = htons (ve_udp_src entry).
Proof.
  intros Hq Hr Hpriv Hcode Hfind Hit Hlast. destruct (datagram_len _ _ _ _ Hq) as [_ Hlen].
  assert (Hb : bytes_ok (enc_udp u ++ enc_regrep r)) by (apply bytes_ok_app; auto with bytes).
  destruct (relay_input_run (Some m) (ln_check l) (painted 2) (ln_pre3 l) i
    (enc_udp u ++ enc_regrep r) eq_refl (lk_check l Hl) (lk_pre3 l Hl) (dg_ip _ _ _ _ Hq) (dg_vhl _ _ _ _ Hq) Hb Hlen
    ltac:(cbn; lia) (dg_ipsum _ _ _ _ Hq)) as (p & Hp & Hd & Hs & Hn & Ha & _).
  pose proof (datagram_frame p q _ i u _ Hq (lk_pre3 l Hl) Hd Ha) as Hf.
  destruct (Relay_push_rep_run m (ln_rand2 l) (ln_limit l) priv f p _ i u r it entry
    Hf Hr Hpriv Hfind Hit) as (p1 & reqs & c & Hrun & Hlive & Hd1 & Hc & Hok & _ & Hs1).
  rewrite Hlast in *. cbn [default from_option id] in *. cbv zeta in *.
  match type of Hd1 with _ = enc_ip ?j' ++ enc_udp ?u' ++ _ => set (j1 := j') in *; set (u2 := u') in * end.
  assert (Hj1 : ip_ok j1) by (destruct (dg_ip _ _ _ _ Hq), Hr; constructor; cbn; assumption).
  assert (Hu2 : udp_ok u2).
  { destruct (dg_udp _ _ _ _ Hq). constructor; cbn; try assumption. apply htons_range. }
  destruct (relay_to_node_run m p1 j1 (enc_udp u2 ++ enc_regrep r) Hd1 Hs1 Hj1
    (dg_vhl _ _ _ _ Hq) ltac:(reflexivity)) as (p2 & c2 & Hp2 & Hd2 & Hv2 & Hc2).
  set (j := ip_with_sum c2 j1) in *.
  assert (Hj : ip_ok j) by (destruct Hj1; constructor; cbn; assumption).
  assert (Hb2 : bytes_ok (enc_udp u2 ++ enc_regrep r)) by (apply bytes_ok_app; auto with bytes).
  destruct (ip_input_run (ln_check l) (painted 1) (ln_pre4 l) j (enc_udp u2 ++ enc_regrep r)
    (lk_check l Hl) (lk_pre4 l Hl) Hj (dg_vhl _ _ _ _ Hq) Hb2 Hlen ltac:(cbn; lia) eq_refl Hv2)
    as (p3 & Hp3 & Hd3 & _ & Hs3 & _ & _ & Hdst3 & _).
  exists p, p1, p2, p3. eexists _, j, u2. split; [|split; [|split; [exact Hp2|split]]].
  - rewrite (dg_data _ _ _ _ Hq). exact Hp.
  - rewrite Hrun. reflexivity.
  - by rewrite Hd2.
  - unfold after_reply. rewrite Hcode. cbn [Z.eqb orb].
    split; [exact Hlive|]. split; [done|]. split; [|done].
    assert (Hlen3 : plength p3 = plength q).
    { unfold plength. rewrite Hd3, (dg_data _ _ _ _ Hq), !length_app. reflexivity. }
    constructor; try assumption; try apply Hq.
    + rewrite Hlen3. apply (dg_len _ _ _ _ Hq).
    + rewrite Hlen3. apply (dg_ulen _ _ _ _ Hq).
Qed.
End Legs.

(** ** The round *)
Lemma Relay_find_request_last home k l e :
  Forall (fun x => ve_ip_src x <> home) l -> ve_ip_src e = home ->
  Relay_find_request home k (l ++ [e]) = Some (k + length l, e)%nat.
Proof.
  intros Hl He. revert k. induction Hl as [|x l Hx Hl IH]; intros k; cbn.
  - rewrite He, Z.eqb_refl. by rewrite Nat.add_0_r.
  - rewrite (proj2 (Z.eqb_neq _ _) Hx), IH. do 2 f_equal. lia.
Qed.
Lemma RegNode_find_last src port k l r :
  Forall (fun x => ~ (r_dest x = src /\ r_port x = port)) l -> r_dest r = src -> r_port r = port ->
  RegNode_find src port k (l ++ [r]) = Some (k + length l, r)%nat.
Proof.
  intros Hl H1 H2. revert k. induction Hl as [|x l Hx Hl IH]; intros k; cbn.
  - by rewrite H1, H2, !Z.eqb_refl, Nat.add_0_r.
  - destruct (Z.eqb_spec (r_dest x) src), (Z.eqb_spec (r_port x) port); cbn [andb];
      try (rewrite IH; do 2 f_equal; lia). by destruct Hx.
Qed.
Lemma delete_last {A} (l : list A) x : delete (length l) (l ++ [x]) = l.
Proof. induction l; cbn; [done|]. by f_equal. Qed.

Lemma Relay_last_registration_range home k l j :
  Relay_last_registration home k l None = Some j -> (k <= j < k + length l)%nat.
Proof.
  revert k. induction l as [|e l IH]; intros k; cbn; [done|].
  rewrite Relay_last_registration_some.
  destruct (Relay_last_registration home (S k) l None) as [j'|] eqn:E.
  - intros [= ->]. specialize (IH _ E). lia.
  - destruct (fst e =? home); [|done]. intros [= ->]. lia.
Qed.
Lemma update_registrations_in home lt entry l :
  ntohs lt <> 0 ->
  (home, set_remaining_lifetime lt entry) ∈ Relay_update_registrations home lt entry l.
Proof.
  intros Hlt. unfold Relay_update_registrations. rewrite (proj2 (Z.eqb_neq _ _) Hlt). cbn [negb].
  destruct (Relay_last_registration home 0 l None) as [j|] eqn:E.
  - apply Relay_last_registration_range in E. apply list_elem_of_lookup. exists j.
    apply list_lookup_insert_eq. lia.
  - apply elem_of_app. right. by apply list_elem_of_singleton.
Qed.

(** ** Through the tunnel *)
Lemma tunnel_spec m m2 c srcIp pre p i l h :
  default_check c -> length pre = 14%nat -> in32 srcIp ->
  Forall (fun b => in32 (mi_careOfAddress b)) (ha_mobility_bindings h) ->
  ip_packet p i l -> i_vhl i = 69 -> ip_verifies i -> bytes_ok l ->
  i_len i = htons (20 + Z.of_nat (length l)) -> 40 + Z.of_nat (length l) < 65536 ->
  if bool_decide (wsum l mod 65535 = 0) then
    exists q, tunnel (Some m) m2 c srcIp pre p h = Some q /\
      pk_data q = enc_ip i ++ l /\ dst_ip_anno q = Some (i_dst i)
  else tunnel (Some m) m2 c srcIp pre p h = None.
Proof.
  intros Hc Hpre Hsrc Hb Hip Hv Hver Hbl Hlen Hl.
  pose proof (ipp_data _ _ _ Hip) as Hd. pose proof (ipp_ok _ _ _ Hip) as Hok.
  destruct (Encapsulator_push_run m m2 srcIp p i l h Hip Hsrc Hb) as (q & Hq & Hdq & _).
  rewrite Hd in Hdq. set (o := outer_header _ _ _ _) in *.
  assert (Hbd : bytes_ok (enc_ip i ++ l)) by (apply bytes_ok_app; auto with bytes).
  assert (Hlen' : ntohs (i_len i) = 20 + Z.of_nat (length l))
    by (rewrite Hlen; unfold ntohs; apply htons_inv; lia).
  assert (Hll : length (enc_ip i ++ l) = (20 + length l)%nat) by (by rewrite length_app).
  assert (Ho : ip_ok o).
  { destruct Hok. constructor; cbn; try assumption; try (unfold in8, in16; lia);
      [apply htons_range|apply cksum_range|].
    unfold Encapsulator_get_destination_ip. destruct (find _ _) as [b|] eqn:E; [|assumption].
    apply find_some in E as [E _]. rewrite Forall_forall in Hb. by apply Hb. }
  assert (Hsum : ip_verifies o <-> wsum l mod 65535 = 0).
  { unfold o. rewrite outer_checksum by (rewrite ?Hll; (assumption || lia)).
    rewrite wsum_app by reflexivity. unfold ip_verifies in Hver.
    apply cksum_zero in Hver as [_ Hw]; [|auto with bytes|cbn; lia].
    rewrite Z.add_mod, Hw, Z.add_0_l, Z.mod_mod by lia. done. }
  assert (Holen : i_len o = htons (20 + Z.of_nat (length (enc_ip i ++ l)))).
  { unfold o, outer_header. cbn [i_len]. rewrite Hlen', Hll. f_equal. lia. }
  unfold tunnel. rewrite Hq. cbn [pushed_on mbind option_bind pushed omap list_omap head Nat.eqb].
  rewrite Hdq. case_bool_decide as Hw.
  - destruct (ip_input_run c (replicate anno_size 0) pre o (enc_ip i ++ l) Hc Hpre Ho eq_refl Hbd
      Holen ltac:(rewrite Hll; lia) eq_refl (proj2 Hsum Hw))
      as (q1 & Hq1 & Hd1 & _ & Hs1 & _ & Ha1 & _ & Ht1 & _).
    change (set_anno _ (received ?a ?b)) with (received a b) in Hq1.
    rewrite Hq1. cbn [mbind option_bind].
    assert (Hp : getf q1 0 ip_p = Ok 4).
    { apply (ipp_p q1 o (enc_ip i ++ l)). by constructor. }
    unfold CheckEncap_push. 
    assert (Hce : CheckEncap_push q1 tt = Ok (tt, tt, [Push 0 q1])).
    { unfold CheckEncap_push. hrun. reflexivity. }
    fold (CheckEncap_push q1). rewrite Hce.
    cbn [pushed_on mbind option_bind pushed omap list_omap head Nat.eqb].
    destruct (StripIPHeader_run q1 o (enc_ip i ++ l) tt Ht1 Hd1) as [Hst Hd2].
    rewrite Hst. cbn [passed mbind option_bind].
    assert (Hd2' : pk_data (pull 20 q1) = enc_ip i ++ l ++ []) by by rewrite app_nil_r.
    destruct (CheckIPHeader_plain c (pull 20 q1) (CheckState 0 None) i l [] Hc Hd2' Hok Hv Hlen
      ltac:(lia)) as [Hacc _]; [by rewrite app_nil_r| |exact Ha1|].
    { unfold plength. rewrite Hd2, Hll. lia. }
    destruct (Hacc Hver) as (q2 & Hq2 & Hdq2 & _ & _ & _ & _ & _ & _ & Hdst & _).
    exists q2. by rewrite Hq2.
  - pose proof (ip_input_bad c (replicate anno_size 0) pre o (enc_ip i ++ l) Hc Hpre Ho eq_refl Hbd
      Holen ltac:(rewrite Hll; lia) eq_refl) as Hbad.
    change (set_anno _ (received ?a ?b)) with (received a b) in Hbad.
    rewrite Hbad; [done|]. by rewrite Hsum.
Qed.

(** ** Properties *)
Section Round.
Context {M : Type} `{AssocMap packet M}.

(** The node takes an accepted reply from the agent it asked: its last request is the one that
    the reply answers; it goes, and the node is connected. *)
Lemma RegNode_last_reply (mn : mninfo M) p i u rp req :
  datagram p i u (enc_regrep rp) -> regrep_ok rp ->
  i_src i = r_dest req -> ntohs (u_dport u) = r_port req ->
  Forall (fun x => ~ (r_dest x = r_dest req /\ r_port x = r_port req)) (mn_pending mn) ->
  r_dest req <> mn_gateway mn -> s32 (rp_identification rp) = r_id req ->
  rp_code rp = 0 \/ rp_code rp = 1 ->
  RegNode_push p (set_pending (mn_pending mn ++ [req]) mn) =
    Ok (tt,
        set_pending (mn_pending mn)
          (set_lifetime (u16 (r_rem_lt req - u16 (r_req_lt req - ntohs (rp_lifetime rp))))
             (set_foreign_agent (r_dest req) (set_connected true mn))),
        [ClearTimer; Schedule 1000; Kill p]).
Proof.
  intros Hd Hr Hs Hp Hall Hg Hid Hc. rewrite (RegNode_push_run _ p i u rp Hd Hr).
  unfold reply_effect. cbn [mn_pending mn_gateway set_pending]. rewrite Hs, Hp.
  rewrite (RegNode_find_last _ _ 0) by done. cbn [Nat.add]. rewrite Hid, Z.eqb_refl. cbn [negb].
  rewrite (proj2 (Z.eqb_neq _ _) Hg), delete_last.
  destruct Hc as [-> | ->]; reflexivity.
Qed.

(** What the node asks for is accepted. *)
Lemma request_of_accepted h (mn : mninfo M) id lifetime coaddress :
  mn_home_agent mn <> broadcast ->
  acceptance (ha_mobility_bindings h) (request_of mn id lifetime coaddress) = 0.
Proof.
  intros Hnb. unfold acceptance. cbn [rq_flags request_of rq_home_agent]. rewrite !Z.testbit_0_l.
  cbn [orb andb]. by rewrite (proj2 (Z.eqb_neq _ _) Hnb).
Qed.

End Round.

(** C2: the tunnel delivers exactly the packets whose payload sums to zero.  A packet with a
    verifying option-free header that the home agent diverts is encapsulated, crosses the link
    and is decapsulated by the foreign agent.  Because the outer header checksum was computed
    over the whole packet, the foreign agent's [CheckIPHeader] accepts it if and only if the
    inner payload's 16-bit words sum to 0 modulo 65535 (an ICMP message with a valid checksum
    does, a UDP or TCP segment in general does not); then the inner packet comes out
    unchanged, else it is lost. *)
Theorem tunnel_delivers m m2 c srcIp pre p i l h :
  default_check c -> length pre = 14%nat -> in32 srcIp ->
  Forall (fun b => in32 (mi_careOfAddress b)) (ha_mobility_bindings h) ->
  ip_packet p i l -> i_vhl i = 69 -> ip_verifies i -> bytes_ok l ->
  i_len i = htons (20 + Z.of_nat (length l)) -> 40 + Z.of_nat (length l) < 65536 ->
  (wsum l mod 65535 = 0 ->
   exists q, tunnel (Some m) m2 c srcIp pre p h = Some q /\
     pk_data q = enc_ip i ++ l /\ dst_ip_anno q = Some (i_dst i)) /\
  (wsum l mod 65535 <> 0 -> tunnel (Some m) m2 c srcIp pre p h = None).
Proof.
  intros Hc Hpre Hsrc Hb Hip Hv Hver Hbl Hlen Hl.
  pose proof (tunnel_spec m m2 c srcIp pre p i l h Hc Hpre Hsrc Hb Hip Hv Hver Hbl Hlen Hl) as H.
  split; intros Hw; by case_bool_decide.
Qed.

(** ** Witnesses: the foreign agent reaches 10.0.0.0/8 on its private side and everything else
    through a gateway on its public side; the home agent is 11.0.0.1 *)
Definition private_net : IPRoute := Route 10 (make_prefix 8) 0 1 0.
Definition public_default : IPRoute := Route 0 (make_prefix 0) 50331650 2 0.
Definition sample_rt : table :=
  snd (add_route public_default false (snd (add_route private_net false (new_table None None)))).
Lemma sample_rt_ok : table_ok 3 sample_rt.
Proof.
  assert (H1 : route_ok 3 private_net).
  { constructor; [split; vm_compute; congruence| |vm_compute; reflexivity|split; vm_compute; congruence].
    change (make_prefix 8 ∈ prefix_masks). apply list_elem_of_fmap. exists 8%nat.
    by rewrite elem_of_seq; lia. }
  assert (H2 : route_ok 3 public_default).
  { constructor; [split; vm_compute; congruence| |vm_compute; reflexivity|split; vm_compute; congruence].
    change (make_prefix 0 ∈ prefix_masks). apply list_elem_of_fmap. exists 0%nat.
    by rewrite elem_of_seq; lia. }
  destruct (add_route_run 3 private_net false _ (new_table_ok 3 None None) H1)
    as (c1 & o1 & s1 & E1 & K1 & _).
  destruct (add_route_run 3 public_default false s1 K1 H2) as (c2 & o2 & s2 & E2 & K2 & _).
  unfold sample_rt. rewrite E1. cbn [snd]. rewrite E2. exact K2.
Qed.
Lemma sample_rt_routes : routes_to sample_rt 16777227 2.
Proof.
  assert (E : routes (rt_t sample_rt) =
    <[(0, 0) := (50331650, 2)]> {[ (10, 255) := (0, 1) ]}) by (vm_compute; reflexivity).
  unfold routes_to. rewrite E. split.
  - exists (0, 0), (50331650, 2). split; [reflexivity|vm_compute; reflexivity].
  - intros gw q (k & Hk & Hm & _). apply fin_maps.lookup_insert_Some in Hk as [[_ [= _ <-]]|[_ Hk]]; [done|].
    apply fin_maps.lookup_singleton_Some in Hk as [<- _]. vm_compute in Hm. discriminate.
Qed.

Definition sample_links : links :=
  Links (fun _ => 0) (CheckConf 0 true [] [] 1)
    (Forwarding 50331659 (IPGWOptions_configure 50331659 [] 2) (GwEnv (Some (fun _ => 0)) 0 0)
       (TtlConf true true 2) (FragConf false 1500 0 2)
       (FragEnv (Some (fun _ => 0)) true (fun _ => Some (fun _ => 0)) 7))
    sample_rt (-1) 5 6 (replicate 14 1) (replicate 14 2) (replicate 14 3) (replicate 14 4).
Lemma sample_links_ok : links_ok sample_links.
Proof. by constructor; try apply sample_rt_ok. Qed.


Definition sample_ping : packet := bare (enc_ip sample_good ++ [255; 255]).
Theorem tunnel_delivers_witness :
  exists q, tunnel (Some (fun _ => 0)) None (CheckConf 0 true [] [] 1) 7 (replicate 14 0)
      sample_ping (HA 16777227 [MobileInfo 33554442 33554443 5 9]) = Some q /\
    pk_data q = enc_ip sample_good ++ [255; 255] /\ dst_ip_anno q = Some 33554442.
Proof.
  apply (tunnel_delivers (fun _ => 0) None (CheckConf 0 true [] [] 1) 7 (replicate 14 0)
    sample_ping sample_good [255; 255] (HA 16777227 [MobileInfo 33554442 33554443 5 9]));
    [by split_and!|reflexivity|cbv; split; congruence|
     constructor; [cbv; split; congruence|constructor]|
     exact (Build_ip_packet sample_ping sample_good [255; 255] eq_refl sample_good_ok)|
     reflexivity|exact sample_good_verifies|repeat constructor; lia|reflexivity|reflexivity|
     reflexivity].
Defined.
